(* ===== verification/_CoqProject ===== *)
-Q . S2P
Prelude.v
CMem.v
Ringbuf.v
RingbufApi.v
RingbufChain.v
RingbufItems.v
RingbufSend.v
RingbufQueue.v
RingbufTheorems.v
RingbufBlocking.v
RingbufByte.v
RingbufFaults.v
CrcTables.v
Crc.v
Flash.v
SpiFlash.v
SpiFlashApi.v
SpiNor.v
SpiFlashHost.v
SpiFlashChip.v
SpiFlashTheorems.v
SpiFlashXts.v
SpiFlashFaults.v
OtaData.v
PartitionTable.v
SecureVersion.v
Efuse.v
EfuseSpec.v
EfuseRead.v
EfuseStage.v
EfuseWrite.v
EfuseTheorems.v
EfuseVersion.v
EfuseProtect.v
EfuseKeys.v
EfuseKeyTheorems.v
EfuseFaults.v
Bootloader.v
BootTheorems.v
Partitions.v
PartitionTheorems.v
OtaOps.v
OtaBoot.v
OtaUpdate.v
ImageFormat.v
ImageSegments.v
ImageSpec.v
ImageExample.v
ImageVerify.v
ImageTheorems.v
LoadAddresses.v
ImageLoad.v
ImageSignature.v
ImageUpdate.v
ImageFaults.v
Mmu.v
BootStart.v
BootStartTheorems.v
BootInvariant.v
BootRun.v
BootCommon.v
FactoryReset.v
PartitionHash.v
LogLevels.v
LogTheorems.v
EspTimer.v
TimerTheorems.v
ConsoleArgv.v
