(* ===== verification/Prelude.v ===== *)
(** * Verification of components of ESP-IDF 5.0.1

    ESP-IDF is the C framework for the ESP32 family.  This library models the
    components that carry its own logic for passing data between tasks, for
    storing, verifying and booting applications, for one-time programmable
    bits, and for a few system services, and proves what each promises.  Paths
    below are relative to src/components/.

    ** Parts and how they interact

    - _Ring buffers_ (esp_ringbuf/ringbuf.c): FIFO buffers between tasks and
      interrupts, as items or as a byte stream.
    - _Boot chain_: the bootloader (bootloader_support/src/bootloader_utility.c,
      bootloader/subproject/main/bootloader_start.c) checks the partition table
      (flash_partitions.c), reads the two OTA data entries
      (bootloader_common_loader.c), each protected by a CRC
      (esp_rom/patches/esp_rom_crc.c), chooses a partition under the rollback
      and anti-rollback rules (efuse/src/esp_efuse_fields.c) and boots it or a
      substitute: it loads the image, maps what stays in flash with the MMU
      (hal/mmu_hal.c over hal/esp32c3/include/hal/mmu_ll.h and cache_ll.h) and
      enters it.  A pin can ask for a factory reset first
      (bootloader_support/src/bootloader_common.c).
    - _SPI flash driver_ (spi_flash/esp_flash_api.c,
      spi_flash_chip_generic.c, memspi_host_driver.c and the layers of hal):
      reading, writing, erasing and encrypted writing of flash chips through
      two kinds of host.  The components above that keep data in flash are
      stated over [FlashDev], which says in six laws what esp_flash_api.c and
      the mapping of flash offer.
    - _Images_ (bootloader_support/src/esp_image_format.c): verifying the image
      in a partition, with its checksum, hash or signature, and loading its
      segments into RAM.  The bootloader loads with it and the application
      verifies updates with it.
    - _eFuses_ (efuse/src/esp_efuse_api.c, esp_efuse_utility.c and
      efuse/esp32c3/esp_efuse_utility.c): fields of bits that can only be set,
      read without a lock and written in batches.  On it rest the secure
      version of the boot chain and the keys with their protection bits
      (efuse/src/efuse_controller/keys/with_key_purposes/esp_efuse_api_key.c).
    - _Application side_: esp_partition/partition.c and partition_target.c give
      access to the same table and flash; app_update/esp_ota_ops.c writes an
      update and the OTA data that the bootloader reads at the next start.
    - _Services_: log levels (log/log.c), software timers
      (esp_timer/src/esp_timer.c with the alarm of esp_timer_impl_systimer.c),
      and the argument splitting of the console (console/split_argv.c).

    ** Files

    - [Prelude]: aborting and stateful computations, machine integers, long
      loops, flags, shared list lemmas, hint databases.
    - [CMem]: byte memory with word access.
    - [Ringbuf], [RingbufApi]: the static and the public functions of
      ringbuf.c.  [Ringbuffer_t] is the control structure with the storage
      bytes; a blocking call runs against a sequence of steps of other tasks
      and tells what it waited for ([waited]).
      [RingbufChain], [RingbufItems], [RingbufSend]: layout of the storage as a
      chain of slots, the invariant and that every operation keeps it.
      [RingbufQueue]: the steps of clients.  [RingbufTheorems],
      [RingbufBlocking], [RingbufByte], [RingbufFaults]: the results.
    - [CrcTables], [Crc]: the tables and the six CRC functions.
    - [Flash]: error codes, and the flash driver as the interface [FlashDev]
      with the laws [FlashLaws] of NOR flash and the instance [nor].
    - [SpiFlash], [SpiFlashApi]: the driver, from the transactions of a host up
      to esp_flash_api.c, over the interface of the bus and the chip.
      [SpiNor]: the laws of that interface and a simulated chip that satisfies
      them.  [SpiFlashHost], [SpiFlashChip], [SpiFlashTheorems]: what each
      layer does to the cells of the chip.  A chip answers a read command only
      after its number of cycles ([read_latency]), so that the dummy cycles
      and address bits that the host sends matter.  [SpiFlashXts]: encrypted
      writing.  [SpiFlashFaults]: refused commands, time-outs and
      other uses that break the documentation.
    - [OtaData], [PartitionTable]: OTA data entries, table verification.
    - [SecureVersion]: the version counter on the interface [EfuseDev] with the
      laws [EfuseLaws].
    - [Efuse]: the eFuse API.  [efuse] holds the fuses, the write registers,
      the counter of burns, the nesting of batches, the lock and the steps that
      other tasks take between the accesses of a reader: they count, and load
      registers at any time; [marked] says that a register changes only while
      the counter is odd.  [EfuseSpec]: fields
      as sequences of bits.  [EfuseRead], [EfuseStage], [EfuseWrite]: reading,
      staging and burning.  [EfuseProtect]: burning bits that hide blocks.
      [EfuseTheorems]: the results.  [EfuseVersion]: the
      API satisfies [EfuseLaws].  [EfuseKeys], [EfuseKeyTheorems]: the keys.
      [EfuseFaults]: uses that break the documentation.
    - [Bootloader], [BootTheorems]: selection and boot order, as a state monad
      that may abort or restart the chip, and the abstract choice [select];
      here whether an image loads is a predicate on flash.
    - [Partitions], [PartitionTheorems]: the partition list, iterators,
      external partitions, access functions.  [app_state] holds the static
      variables of partition.c and esp_ota_ops.c.
    - [OtaOps], [OtaBoot], [OtaUpdate]: esp_ota_ops.c; what it writes is what
      the bootloader acts on; storing an update.
    - [ImageFormat]: esp_image_format.c, with the build options and the chip in
      [image_config] and the static variables, RAM and the running hash in
      [img].  [ImageSpec]: the images that are accepted.  [ImageSegments],
      [ImageVerify], [LoadAddresses]: the loops over segments in closed form,
      the steps of a load, the check of load addresses.  [ImageTheorems],
      [ImageLoad], [ImageSignature]: the results.  [ImageUpdate]: esp_ota_end
      with this verification.  [ImageExample], [ImageFaults]: a small image,
      and inputs at the limits.
    - [Mmu]: the table that maps pages of flash, and the buses.  [BootStart]:
      the end of bootloader_utility.c, where the application is mapped and
      entered, and bootloader_start.c, on the state [boot_run] of the boot
      chain, the image loader and the MMU together.  [BootStartTheorems]: what
      the application sees.  [BootInvariant]: the types of this state.
      [BootRun]: the whole bootloader refines [boot] of [Bootloader].
    - [BootCommon], [FactoryReset]: the factory reset, the search of labels,
      the press of a pin.  [PartitionHash]: the hash of a partition.
    - [LogLevels], [LogTheorems]: the tag list and the cache of log.c; whether
      memory is found and the lock is got in time are inputs of a call.
    - [EspTimer], [TimerTheorems]: timers as heap blocks, the two lists, the
      alarm register, dispatching.  A call is a check without the lock and a
      critical section; [sys_step] interleaves those of all tasks with the rounds
      of the dispatching loops.  Unlinking a timer that is in no list fails.
    - [ConsoleArgv]: in-place splitting of a line, and the grammar of command
      lines ([command_line]).

    Definitions have the names of the C functions.  A function that can reach
    a failed assertion, an invalid access or an endless loop returns an
    [option] or an [outcome]; error codes are values.

    ** Results

    - Ring buffers (C1, C2, C24 to C28): as long as clients do not return one
      of several items that together fill the buffer, no assertion fails,
      items and bytes come out in order and unchanged, items that are held are
      not overwritten and all space comes back; blocking calls with a timeout
      return and do what they report.  [RingbufFaults] has runs that return
      such an item, after which each of these fails.
    - The bootloader as a whole (C3): without signature checks, it enters the
      application that the abstract boot names, with the image's segments in
      RAM and behind the MMU, and resets when the abstract boot resets.
    - Images (C4 to C7, C11): [esp_image_verify] decides whether a partition
      begins with a well-formed image that fits; after a load RAM holds the
      segments and nothing else changed, and the memory of the bootloader is
      spared; with signature checks only signed images are accepted; an update
      ends with [ESP_OK] exactly for a well-formed image.
    - Boot chain (C9, C10, C12, C30, C31): the choice of a partition as a
      refinement of [select], the fallback to any partition that can be
      booted, the partition that was set is the one that boots, accepted
      tables, rollback of an application that was not confirmed.  C10 is for
      every configuration, C9, C12, C31 and C35 without anti-rollback.
    - Factory reset (C8, C40): for labels that are not empty it ends and erases
      exactly the data partitions that are listed; the search finds exactly
      the labels of the list.
    - SPI flash (C13 to C17): writes and erases do what they are asked to on
      an idle chip and touch nothing else whatever the chip does, reads return
      the cells in every mode and encrypted writes store the encryption of the
      data.
    - eFuses (C18 to C23): a read is of one moment although other tasks burn;
      outside of batches a write burns exactly the bits asked for, some of
      them when the controller fails, or nothing; a batch burns all of its
      bits together, written values are read back, the secure version only
      grows, a key is complete before its protection is burned.
    - CRC (C29): the tables compute the bitwise CRCs.
    - Partition API (C32 to C34): agreement with the bootloader's reading of
      the table, bounds, write and read.
    - Updates (C35): rolling back.
    - Log levels (C36): the cache cannot be observed.
    - Timers (C37, C38): in interleavings without the races that the findings
      name, the lists stay intact and the alarm is the earliest timer;
      dispatching ends and calls every due timer.  The races are
      [stop_races_with_dispatch] and [concurrent_starts_link_twice].
    - Console (C39): the in-place code computes the unique arguments of the
      line in the grammar [command_line] within its buffers.

    Further theorems without a number are in the same files: iteration over
    partitions and disjoint external ones, the byte stream of other buffer
    types, the types of the bootloader's state in every configuration, storing
    an update, quoting of arguments,
    bursts that the CRCs detect, the selection after a factory reset,
    periodic timers, and the faults.

    ** Fuel

    Loops that are not structural have a bound that the theorems show to be
    enough: the loops over the ring buffer storage the number of slots that fit
    ([loop_fuel]), the waiting loop the length of the schedule, the table loops
    the number of entries of a table (96, or 128 for the application), the
    partition list its length, the slot count 17, the search for a sequence
    number 2^32 rounds in binary ([loop_pos]), the heap of the log cache its
    size, the splitting of a line its length, the mapping windows of a segment
    the pages of its data and two ([segment_fuel]), the registers of an eFuse
    descriptor the eight of a block and one ([regs_fuel]), the repetitions of an
    eFuse read the steps that other tasks still take and one ([read_fuel]).
    Waiting for a flash chip has the rounds of its time-out ([idle_fuel]), and
    for its host 2^32 rounds in binary; the loops of the driver over a range
    have its sectors when erasing, its length when reading or writing and its
    rows of 16 bytes when encrypting.  Erasing partitions has the sectors of a
    partition, the search of a label the length of the list and one, hashing
    flash the pages and two ([hash_fuel]).
    Dispatching has the fuel as an argument; C38 gives the number of rounds
    that is enough.

    ** Not modelled

    Hardware access is represented by interfaces and parameters: the bus and
    the chip of the flash driver, the controller that burns a block of eFuses
    and reports coding errors, the timer's counter, the level of a pin.  The
    table of the MMU is what its registers hold, and a page is seen when its
    bus is enabled and its entry valid.  SHA-256, MD5 and the check of a
    signature block belong to other libraries and are parameters.  The kernel
    of FreeRTOS appears as the schedule of other tasks and as critical sections
    that are single steps; of the ring buffer and the log every call is one
    section.  The functions that call the image verification are
    stated over a parameter for it ([Bootloader], [OtaOps]); [BootRun] and
    [ImageUpdate] instantiate it.

    Of the bootloader the enabling of secure boot and flash encryption and the
    set-up of the hardware are left out, and the hooks around it; the MMU is
    that of the ESP32-C3, with one core and with assertions enabled.  Of the
    flash driver the detection and set-up of a chip, its io mode, suspending,
    the drivers of single vendors, the mapping of flash and the ESP32 variant
    of encrypted writing are left out.  So are virtual eFuses that are kept in
    flash, [esp_efuse_check_errors], the eFuse layout of other chips than the
    ESP32-C3, profiling of timers and printing of logs.  Third-party code in
    the repository (lwip, mbedtls, fatfs and others), the other drivers and
    generated register headers carry no logic that these components depend on. *)

From stdpp Require Export base tactics numbers list option.
From Stdlib Require Export ZArith Lia.

#[global] Open Scope Z_scope.

(** ** Aborting computations

    [configASSERT], [assert] and [abort] end the program; a function that may
    reach one of them returns an [option], with [None] for the abort.  A loop
    that runs out of fuel is [None] too, so a theorem that a call is [Some _]
    says that no assertion fails and that the loop ends. *)

Declare Scope c_scope.
Delimit Scope c_scope with c.
Open Scope c_scope.

Notation "'configASSERT' b ; k" := (if b then k else None)
  (at level 100, b at next level, k at level 200, right associativity) : c_scope.

Notation "'do*' x <- m ; k" := (match m with Some x => k | None => None end)
  (at level 100, x pattern, m at next level, k at level 200, right associativity) : c_scope.

(** ** Stateful calls

    A call either returns a value and a new state, ends the program (a failed
    [assert], [abort], an invalid memory access) or restarts the chip.  The
    monad is used through stdpp's notation. *)

Inductive outcome (S A : Type) :=
| RET (a : A) (s : S)
| ABORT
| RESTART (s : S).
Arguments RET {S A}.
Arguments ABORT {S A}.
Arguments RESTART {S A}.

Definition M (S A : Type) : Type := S -> outcome S A.

#[export] Instance M_ret S : MRet (M S) := fun A a s => RET a s.
#[export] Instance M_bind S : MBind (M S) := fun A B k m s =>
  match m s with
  | RET a s => k a s
  | ABORT => ABORT
  | RESTART s => RESTART s
  end.

Definition gets {S A} (f : S -> A) : M S A := fun s => RET (f s) s.
Definition modify {S} (f : S -> S) : M S unit := fun s => RET tt (f s).
Definition abort {S A} : M S A := fun _ => ABORT.
Definition assert_ {S} (b : bool) : M S unit := fun s => if b then RET tt s else ABORT.

Lemma bind_RET {S A B} (m : M S A) (k : A -> M S B) s a s' : m s = RET a s' -> (m ≫= k) s = k a s'.
Proof. intros E. unfold mbind, M_bind. by rewrite E. Qed.

Lemma bind_inv {S A B} (m : M S A) (k : A -> M S B) s b s' : (m ≫= k) s = RET b s' -> exists a s1, m s = RET a s1 /\ k a s1 = RET b s'.
Proof. unfold mbind, M_bind. destruct (m s) as [a s1| |s1]; [|done|done]. by exists a, s1. Qed.

(** [preserves I m]: the invariant [I] holds after [m] if it held before, also
    when the chip restarts.  [preserves_auto] follows the structure of [m] and
    leaves the updates to be checked. *)
Definition preserves {S A} (I : S -> Prop) (m : M S A) : Prop :=
  forall s, I s -> match m s with RET _ s' | RESTART s' => I s' | ABORT => True end.

Section Preserves.
Context {S : Type} (I : S -> Prop).

Lemma preserves_ret {A} (a : A) : preserves I (mret a).
Proof. by intros s Hs. Qed.

Lemma preserves_gets {A} (g : S -> A) : preserves I (gets g).
Proof. by intros s Hs. Qed.

Lemma preserves_abort {A} : preserves I (abort : M S A).
Proof. done. Qed.

Lemma preserves_assert b : preserves I (assert_ b).
Proof. intros s Hs. unfold assert_. by destruct b. Qed.

Lemma preserves_modify g : (forall s, I s -> I (g s)) -> preserves I (modify g).
Proof. intros Hg s Hs. by apply Hg. Qed.

Lemma preserves_bind {A B} (m : M S A) (k : A -> M S B) : preserves I m -> (forall a, preserves I (k a)) -> preserves I (m ≫= k).
Proof. intros Hm Hk s Hs. specialize (Hm s Hs). unfold mbind, M_bind. destruct (m s) as [a s1| |]; [by apply Hk|done|done]. Qed.
End Preserves.

Create HintDb preserves.
#[export] Hint Resolve preserves_ret preserves_gets preserves_abort preserves_assert : preserves.

Ltac preserves_step := first
  [ solve [eauto with preserves]
  | match goal with
    | |- preserves _ (_ ≫= _) => apply preserves_bind; [|intros ?]
    | |- preserves _ (modify _) => apply preserves_modify; intros ? ?; try done
    | |- preserves _ (match ?x with _ => _ end) => destruct x
    | |- preserves _ (let x := _ in _) => cbv zeta
    end ].
Ltac preserves_auto := repeat preserves_step.

(** ** Long loops

    [loop_pos p step a] runs at most [p] steps of a loop and stops at the
    first [inr]; it is [loop_nat] with a binary counter, so it evaluates even
    when the bound is the number of states, such as [2 ^ 32]. *)

Section Loop.
Context {A B : Type} (step : A -> A + B).

Fixpoint loop_nat (n : nat) (a : A) : A + B :=
  match n with
  | O => inl a
  | S n => match step a with inl a => loop_nat n a | inr b => inr b end
  end.

Fixpoint loop_pos (p : positive) (a : A) : A + B :=
  match p with
  | xH => step a
  | xO p => match loop_pos p a with inl a => loop_pos p a | inr b => inr b end
  | xI p =>
      match step a with
      | inl a => match loop_pos p a with inl a => loop_pos p a | inr b => inr b end
      | inr b => inr b
      end
  end.

Lemma loop_nat_add n k a :
  loop_nat (n + k) a = match loop_nat n a with inl a => loop_nat k a | inr b => inr b end.
Proof. revert a. induction n as [|n IH]; intros a; simpl; [done|]. by destruct (step a). Qed.

Lemma loop_pos_nat p a : loop_pos p a = loop_nat (Pos.to_nat p) a.
Proof.
  revert a. induction p as [p IH|p IH|]; intros a; simpl loop_pos.
  - rewrite Pos2Nat.inj_xI. simpl. destruct (step a) as [a'|]; [|done].
    rewrite Nat.add_0_r, loop_nat_add, IH. by destruct (loop_nat _ a').
  - rewrite Pos2Nat.inj_xO. simpl. rewrite Nat.add_0_r, loop_nat_add, IH. by destruct (loop_nat _ a).
  - simpl. by destruct (step a).
Qed.
End Loop.

(** ** Machine integers *)

Definition u8 (z : Z) : Z := z mod 2 ^ 8.
Definition u16 (z : Z) : Z := z mod 2 ^ 16.
Definition u32 (z : Z) : Z := z mod 2 ^ 32.
Definition i32 (z : Z) : Z := (z + 2 ^ 31) mod 2 ^ 32 - 2 ^ 31.

Definition UINT32_MAX : Z := 0xFFFFFFFF.

Definition is_u32 (z : Z) : Prop := 0 <= z < 2 ^ 32.
Definition is_byte (z : Z) : Prop := 0 <= z < 256.

Lemma u32_small z : 0 <= z < 2 ^ 32 -> u32 z = z.
Proof. apply Z.mod_small. Qed.

Lemma u32_range z : 0 <= u32 z < 2 ^ 32.
Proof. apply Z.mod_pos_bound. lia. Qed.

Lemma u8_small z : 0 <= z < 2 ^ 8 -> u8 z = z.
Proof. apply Z.mod_small. Qed.

Lemma u8_range z : 0 <= u8 z < 2 ^ 8.
Proof. apply Z.mod_pos_bound. lia. Qed.

Lemma i32_small z : - 2 ^ 31 <= z < 2 ^ 31 -> i32 z = z.
Proof. intros. unfold i32. rewrite Z.mod_small; lia. Qed.

Lemma u32_i32 z : u32 (i32 z) = u32 z.
Proof.
  unfold u32, i32.
  rewrite Zminus_mod_idemp_l. f_equal. lia.
Qed.

Lemma u32_plus_modulus z : u32 (z + 2 ^ 32) = u32 z.
Proof. unfold u32. rewrite <- (Z.mul_1_l (2 ^ 32)) at 1. apply Z.mod_add. lia. Qed.

(** ** Flag words

    [flag_test f m] is the C condition [f & m]; [flag_set] and [flag_clear]
    are [f |= m] and [f &= ~m].  The masks of the sources are single bits. *)

Definition flag_test (f m : Z) : bool := negb (Z.land f m =? 0).
Definition flag_set (f m : Z) : Z := Z.lor f m.
Definition flag_clear (f m : Z) : Z := Z.ldiff f m.

Lemma flag_test_bit f i : 0 <= i -> flag_test f (2 ^ i) = Z.testbit f i.
Proof.
  intros Hi. unfold flag_test.
  destruct (Z.testbit f i) eqn:E.
  - apply negb_true_iff, Z.eqb_neq. intros H.
    assert (Z.testbit (Z.land f (2 ^ i)) i = false) as H2
      by (rewrite H; apply Z.testbit_0_l).
    rewrite Z.land_spec, E, Z.pow2_bits_true in H2 by lia. discriminate.
  - apply negb_false_iff, Z.eqb_eq, Z.bits_inj'. intros j Hj.
    rewrite Z.land_spec, Z.testbit_0_l, Z.pow2_bits_eqb by lia.
    destruct (Z.eqb_spec i j) as [->|]; [rewrite E|]; by rewrite ?andb_false_r.
Qed.

Lemma flag_test_set f i j : 0 <= i -> 0 <= j ->
  flag_test (flag_set f (2 ^ i)) (2 ^ j) = (i =? j) || flag_test f (2 ^ j).
Proof.
  intros. unfold flag_set. rewrite !flag_test_bit, Z.lor_spec, Z.pow2_bits_eqb by lia.
  apply orb_comm.
Qed.

Lemma flag_test_clear f i j : 0 <= i -> 0 <= j ->
  flag_test (flag_clear f (2 ^ i)) (2 ^ j) = negb (i =? j) && flag_test f (2 ^ j).
Proof.
  intros. unfold flag_clear. rewrite !flag_test_bit, Z.ldiff_spec, Z.pow2_bits_eqb by lia.
  apply andb_comm.
Qed.

Lemma flag_test_0 m : flag_test 0 m = false.
Proof. unfold flag_test. by rewrite Z.land_0_l. Qed.

Lemma lt_pow2_bits x n : 0 <= n -> 0 <= x ->
  (forall j, n <= j -> Z.testbit x j = false) -> x < 2 ^ n.
Proof.
  intros Hn Hx Hb.
  assert (x = x mod 2 ^ n) as ->; [|apply Z.mod_pos_bound; lia].
  apply Z.bits_inj'. intros j Hj. rewrite Z.testbit_mod_pow2 by lia.
  destruct (Z.ltb_spec j n); simpl; [done|]. by apply Hb.
Qed.

Lemma high_bits_zero x n j : 0 <= x < 2 ^ n -> 0 <= n <= j -> Z.testbit x j = false.
Proof.
  intros Hx Hj. rewrite <- (Z.mod_small x (2 ^ n)) by lia.
  apply Z.mod_pow2_bits_high. lia.
Qed.

Lemma flag_set_range f i : 0 <= f < 2 ^ 32 -> 0 <= i < 32 -> 0 <= flag_set f (2 ^ i) < 2 ^ 32.
Proof.
  intros Hf Hi. unfold flag_set.
  assert (0 <= Z.lor f (2 ^ i)) by (apply Z.lor_nonneg; lia).
  split; [done|]. apply lt_pow2_bits; [lia|done|]. intros j Hj.
  rewrite Z.lor_spec, (high_bits_zero f 32), Z.pow2_bits_false by lia. done.
Qed.

Lemma flag_clear_range f m : 0 <= f < 2 ^ 32 -> 0 <= flag_clear f m < 2 ^ 32.
Proof.
  intros Hf. unfold flag_clear.
  assert (0 <= Z.ldiff f m) by (apply Z.ldiff_nonneg; lia).
  split; [done|]. apply lt_pow2_bits; [lia|done|]. intros j Hj.
  by rewrite Z.ldiff_spec, (high_bits_zero f 32) by lia.
Qed.

(** ** Tactics and hints *)

Create Rewrite HintDb cint.
#[export] Hint Rewrite u32_small u8_small i32_small using lia : cint.

(** Rewrites machine-integer wrap-around away wherever [lia] shows that the
    value is in range. *)
Ltac cint := autorewrite with cint.
Ltac cint_in H := autorewrite with cint in H.

(** Turns the boolean comparisons of the goal and context into propositions. *)
Ltac zbool :=
  repeat match goal with
  | H : (_ =? _) = true |- _ => apply Z.eqb_eq in H
  | H : (_ =? _) = false |- _ => apply Z.eqb_neq in H
  | H : (_ <? _) = true |- _ => apply Z.ltb_lt in H
  | H : (_ <? _) = false |- _ => apply Z.ltb_ge in H
  | H : (_ <=? _) = true |- _ => apply Z.leb_le in H
  | H : (_ <=? _) = false |- _ => apply Z.leb_gt in H
  | H : negb _ = true |- _ => apply negb_true_iff in H
  | H : negb _ = false |- _ => apply negb_false_iff in H
  | H : _ && _ = true |- _ => apply andb_true_iff in H; destruct H
  | H : _ || _ = false |- _ => apply orb_false_iff in H; destruct H
  end.

(** Decides a boolean comparison of the goal from the context. *)
Ltac zdecide b :=
  first
    [ replace b with true by (symmetry; first
        [ apply Z.eqb_eq; lia | apply Z.ltb_lt; lia | apply Z.leb_le; lia
        | apply negb_true_iff, Z.eqb_neq; lia ])
    | replace b with false by (symmetry; first
        [ apply Z.eqb_neq; lia | apply Z.ltb_ge; lia | apply Z.leb_gt; lia
        | apply negb_false_iff, Z.eqb_eq; lia ]) ].

(** Case analysis on the innermost test of the goal. *)
Ltac zcase :=
  match goal with
  | |- context [?x =? ?y] => destruct (Z.eqb_spec x y)
  | |- context [?x <? ?y] => destruct (Z.ltb_spec x y)
  | |- context [?x <=? ?y] => destruct (Z.leb_spec x y)
  end.
