(* ===== verification/CMem.v ===== *)
(** * Byte memory

    The storage area of a ring buffer is plain memory in which item headers
    (two 32-bit words) and payload bytes share the same addresses, so the
    model keeps one byte per address and reads headers back from those bytes.
    [load32]/[store32] are little-endian word accesses, [memcpy] the C
    function, [read_bytes] the bytes an application sees through a pointer. *)

From S2P Require Import Prelude.

Definition mem := Z -> Z.

Definition store8 (m : mem) (a v : Z) : mem := fun x => if x =? a then v else m x.

Definition load32 (m : mem) (a : Z) : Z :=
  m a + 2 ^ 8 * m (a + 1) + 2 ^ 16 * m (a + 2) + 2 ^ 24 * m (a + 3).

Definition store32 (m : mem) (a v : Z) : mem :=
  store8 (store8 (store8 (store8 m a (u8 v)) (a + 1) (u8 (v / 2 ^ 8)))
    (a + 2) (u8 (v / 2 ^ 16))) (a + 3) (u8 (v / 2 ^ 24)).

Fixpoint memcpy (m : mem) (a : Z) (bs : list Z) : mem :=
  match bs with
  | [] => m
  | b :: bs' => memcpy (store8 m a b) (a + 1) bs'
  end.

Fixpoint read_bytes (m : mem) (a : Z) (n : nat) : list Z :=
  match n with
  | O => []
  | S n' => m a :: read_bytes m (a + 1) n'
  end.

(** Two memories hold the same bytes in [[lo, hi)]. *)
Definition agree (lo hi : Z) (m m' : mem) : Prop := forall x, lo <= x < hi -> m x = m' x.

#[export] Instance agree_equivalence lo hi : Equivalence (agree lo hi).
Proof.
  split; unfold agree.
  - done.
  - intros m m' H x Hx. symmetry. by apply H.
  - intros m m' m'' H H' x Hx. rewrite H by done. by apply H'.
Qed.

Lemma agree_sub lo hi lo' hi' m m' :
  agree lo hi m m' -> lo <= lo' -> hi' <= hi -> agree lo' hi' m m'.
Proof. intros H ?? x Hx. apply H. lia. Qed.

(** ** Loads and stores *)

Lemma store8_same m a v : store8 m a v a = v.
Proof. unfold store8. by rewrite Z.eqb_refl. Qed.

Lemma store8_other m a v x : x <> a -> store8 m a v x = m x.
Proof. intros. unfold store8. by rewrite (proj2 (Z.eqb_neq x a)). Qed.

Lemma store32_other m a v x : x < a \/ a + 4 <= x -> store32 m a v x = m x.
Proof. intros. unfold store32. by rewrite !store8_other by lia. Qed.

Lemma load32_store32_same m a v : 0 <= v < 2 ^ 32 -> load32 (store32 m a v) a = v.
Proof.
  intros Hv. unfold load32, store32.
  rewrite store8_same, !(store8_other _ (a + 3)), store8_same by lia.
  rewrite !(store8_other _ (a + 2)), store8_same, !(store8_other _ (a + 1)), store8_same by lia.
  unfold u8. change (2 ^ 8) with 256. change (2 ^ 16) with 65536. change (2 ^ 24) with 16777216.
  change (2 ^ 32) with 4294967296 in Hv.
  Z.to_euclidean_division_equations. lia.
Qed.

Lemma load32_agree m m' a : agree a (a + 4) m m' -> load32 m a = load32 m' a.
Proof. intros H. unfold load32. rewrite !H by lia. done. Qed.

Lemma store32_agree m a v lo hi : hi <= a \/ a + 4 <= lo -> agree lo hi (store32 m a v) m.
Proof. intros H x Hx. apply store32_other. lia. Qed.

Lemma load32_store32_other m a v b : b + 4 <= a \/ a + 4 <= b ->
  load32 (store32 m a v) b = load32 m b.
Proof. intros H. apply load32_agree, store32_agree. lia. Qed.

Lemma load32_range m a : (forall x, is_byte (m x)) -> 0 <= load32 m a < 2 ^ 32.
Proof.
  intros H. unfold load32, is_byte in *.
  pose proof (H a); pose proof (H (a + 1)); pose proof (H (a + 2)); pose proof (H (a + 3)). lia.
Qed.

(** ** Block copies *)

Lemma memcpy_other m a bs x : x < a \/ a + Z.of_nat (length bs) <= x -> memcpy m a bs x = m x.
Proof.
  revert m a. induction bs as [|b bs IH]; intros m a Hx; simpl in *; [done|].
  rewrite IH by lia. apply store8_other. lia.
Qed.

Lemma memcpy_agree m a bs lo hi :
  hi <= a \/ a + Z.of_nat (length bs) <= lo -> agree lo hi (memcpy m a bs) m.
Proof. intros H x Hx. apply memcpy_other. lia. Qed.

Lemma length_read_bytes m a n : length (read_bytes m a n) = n.
Proof. revert a. induction n; intros a; simpl; by f_equal. Qed.

Lemma read_bytes_agree m m' a n : agree a (a + Z.of_nat n) m m' ->
  read_bytes m a n = read_bytes m' a n.
Proof.
  revert a. induction n as [|n IH]; intros a H; simpl; [done|].
  rewrite H by lia. f_equal. apply IH. apply (agree_sub a (a + Z.of_nat (S n))); [done|lia..].
Qed.

Lemma read_memcpy_same m a bs : read_bytes (memcpy m a bs) a (length bs) = bs.
Proof.
  revert m a. induction bs as [|b bs IH]; intros m a; simpl; [done|].
  rewrite memcpy_other, store8_same, IH by lia. done.
Qed.

Lemma read_bytes_app m a n k :
  read_bytes m a (n + k) = read_bytes m a n ++ read_bytes m (a + Z.of_nat n) k.
Proof.
  revert a. induction n as [|n IH]; intros a; simpl; [do 2 f_equal; lia|].
  rewrite IH. do 3 f_equal. lia.
Qed.

Lemma read_bytes_memcpy_other m a bs b n :
  b + Z.of_nat n <= a \/ a + Z.of_nat (length bs) <= b ->
  read_bytes (memcpy m a bs) b n = read_bytes m b n.
Proof. intros H. apply read_bytes_agree, memcpy_agree. lia. Qed.

Lemma load32_memcpy_other m a bs b : b + 4 <= a \/ a + Z.of_nat (length bs) <= b ->
  load32 (memcpy m a bs) b = load32 m b.
Proof. intros H. apply load32_agree, memcpy_agree. lia. Qed.

Lemma read_bytes_store32_other m a v b n : b + Z.of_nat n <= a \/ a + 4 <= b ->
  read_bytes (store32 m a v) b n = read_bytes m b n.
Proof. intros H. apply read_bytes_agree, store32_agree. lia. Qed.

Lemma lookup_read_bytes m a n (i : nat) : (i < n)%nat ->
  read_bytes m a n !! i = Some (m (a + Z.of_nat i)).
Proof.
  revert a i. induction n as [|n IH]; intros a i Hi; [lia|]. simpl.
  destruct i as [|i]; simpl; [f_equal; f_equal; lia|].
  rewrite IH by lia. do 2 f_equal. lia.
Qed.

#[export] Hint Rewrite length_read_bytes : cint.
