(* ===== verification/Ringbuf.v ===== *)
(** * The ring buffer of components/esp_ringbuf/ringbuf.c: data and operations

    One definition per static function of the source, on the control
    structure [Ringbuffer_t] with the bytes of its storage area; the public
    functions are in [RingbufApi].  Pointers are 32-bit addresses, [size_t]
    and [UBaseType_t] unsigned and [BaseType_t] signed 32-bit integers, as on
    the ESP32 family.  [configASSERT] failures are [None]. *)

From S2P Require Import Prelude CMem.

(** ** Constants and macros *)

Definition rbALIGN_MASK : Z := 0x03.
Definition rbALIGN_SIZE (xSize : Z) : Z :=
  Z.land (u32 (xSize + rbALIGN_MASK)) (u32 (Z.lnot rbALIGN_MASK)).
Definition rbCHECK_ALIGNED (pvPtr : Z) : bool := Z.land pvPtr rbALIGN_MASK =? 0.

Definition rbALLOW_SPLIT_FLAG : Z := 1.
Definition rbBYTE_BUFFER_FLAG : Z := 2.
Definition rbBUFFER_FULL_FLAG : Z := 4.
Definition rbBUFFER_STATIC_FLAG : Z := 8.

Definition rbITEM_FREE_FLAG : Z := 1.
Definition rbITEM_DUMMY_DATA_FLAG : Z := 2.
Definition rbITEM_SPLIT_FLAG : Z := 4.
Definition rbITEM_WRITTEN_FLAG : Z := 8.

(** [ItemHeader_t] is two words: [xItemLen], then [uxItemFlags]. *)
Definition rbHEADER_SIZE : Z := 8.
Definition hdr_len (m : mem) (p : Z) : Z := load32 m p.
Definition hdr_flags (m : mem) (p : Z) : Z := load32 m (p + 4).
Definition set_hdr_len (m : mem) (p v : Z) : mem := store32 m p v.
Definition set_hdr_flags (m : mem) (p v : Z) : mem := store32 m (p + 4) v.

(** ** The control structure *)

Inductive RingbufferType_t :=
| RINGBUF_TYPE_NOSPLIT | RINGBUF_TYPE_ALLOWSPLIT | RINGBUF_TYPE_BYTEBUF | RINGBUF_TYPE_MAX.

#[export] Instance RingbufferType_eq_dec : EqDecision RingbufferType_t.
Proof. solve_decision. Defined.

(** The five function pointers of the structure, each one of the static
    functions the source stores in it. *)
Inductive CheckItemFitsFunction_t := FitsDefault | FitsByteBuffer.
Inductive CopyItemFunction_t := CopyNoSplit | CopyAllowSplit | CopyByteBuf.
Inductive GetItemFunction_t := GetDefault | GetByteBuf.
Inductive ReturnItemFunction_t := ReturnDefault | ReturnByteBuf.
Inductive GetCurMaxSizeFunction_t := MaxSizeNoSplit | MaxSizeAllowSplit | MaxSizeByteBuf.

(** [storage] is the memory the pointers point into; [xTransSem] and
    [xRecvSem] are the two binary semaphores, [xRecvSet] the queue set the
    receive semaphore belongs to. *)
Record Ringbuffer_t := mkRb {
  xSize : Z;
  xMaxItemSize : Z;
  uxRingbufferFlags : Z;
  xCheckItemFits : CheckItemFitsFunction_t;
  vCopyItem : CopyItemFunction_t;
  pvGetItem : GetItemFunction_t;
  vReturnItem : ReturnItemFunction_t;
  xGetCurMaxSize : GetCurMaxSizeFunction_t;
  pucAcquire : Z;
  pucWrite : Z;
  pucRead : Z;
  pucFree : Z;
  pucHead : Z;
  pucTail : Z;
  xItemsWaiting : Z;
  storage : mem;
  xTransSem : bool;
  xRecvSem : bool;
  xRecvSet : option Z
}.

(** The fields that change after initialisation. *)
Definition set_flags (v : Z) (r : Ringbuffer_t) : Ringbuffer_t :=
  mkRb (xSize r) (xMaxItemSize r) v (xCheckItemFits r) (vCopyItem r) (pvGetItem r)
    (vReturnItem r) (xGetCurMaxSize r) (pucAcquire r) (pucWrite r) (pucRead r) (pucFree r)
    (pucHead r) (pucTail r) (xItemsWaiting r) (storage r) (xTransSem r) (xRecvSem r) (xRecvSet r).
Definition set_acquire (v : Z) (r : Ringbuffer_t) : Ringbuffer_t :=
  mkRb (xSize r) (xMaxItemSize r) (uxRingbufferFlags r) (xCheckItemFits r) (vCopyItem r) (pvGetItem r)
    (vReturnItem r) (xGetCurMaxSize r) v (pucWrite r) (pucRead r) (pucFree r)
    (pucHead r) (pucTail r) (xItemsWaiting r) (storage r) (xTransSem r) (xRecvSem r) (xRecvSet r).
Definition set_write (v : Z) (r : Ringbuffer_t) : Ringbuffer_t :=
  mkRb (xSize r) (xMaxItemSize r) (uxRingbufferFlags r) (xCheckItemFits r) (vCopyItem r) (pvGetItem r)
    (vReturnItem r) (xGetCurMaxSize r) (pucAcquire r) v (pucRead r) (pucFree r)
    (pucHead r) (pucTail r) (xItemsWaiting r) (storage r) (xTransSem r) (xRecvSem r) (xRecvSet r).
Definition set_read (v : Z) (r : Ringbuffer_t) : Ringbuffer_t :=
  mkRb (xSize r) (xMaxItemSize r) (uxRingbufferFlags r) (xCheckItemFits r) (vCopyItem r) (pvGetItem r)
    (vReturnItem r) (xGetCurMaxSize r) (pucAcquire r) (pucWrite r) v (pucFree r)
    (pucHead r) (pucTail r) (xItemsWaiting r) (storage r) (xTransSem r) (xRecvSem r) (xRecvSet r).
Definition set_free (v : Z) (r : Ringbuffer_t) : Ringbuffer_t :=
  mkRb (xSize r) (xMaxItemSize r) (uxRingbufferFlags r) (xCheckItemFits r) (vCopyItem r) (pvGetItem r)
    (vReturnItem r) (xGetCurMaxSize r) (pucAcquire r) (pucWrite r) (pucRead r) v
    (pucHead r) (pucTail r) (xItemsWaiting r) (storage r) (xTransSem r) (xRecvSem r) (xRecvSet r).
Definition set_items (v : Z) (r : Ringbuffer_t) : Ringbuffer_t :=
  mkRb (xSize r) (xMaxItemSize r) (uxRingbufferFlags r) (xCheckItemFits r) (vCopyItem r) (pvGetItem r)
    (vReturnItem r) (xGetCurMaxSize r) (pucAcquire r) (pucWrite r) (pucRead r) (pucFree r)
    (pucHead r) (pucTail r) v (storage r) (xTransSem r) (xRecvSem r) (xRecvSet r).
Definition set_storage (v : mem) (r : Ringbuffer_t) : Ringbuffer_t :=
  mkRb (xSize r) (xMaxItemSize r) (uxRingbufferFlags r) (xCheckItemFits r) (vCopyItem r) (pvGetItem r)
    (vReturnItem r) (xGetCurMaxSize r) (pucAcquire r) (pucWrite r) (pucRead r) (pucFree r)
    (pucHead r) (pucTail r) (xItemsWaiting r) v (xTransSem r) (xRecvSem r) (xRecvSet r).
Definition set_transsem (v : bool) (r : Ringbuffer_t) : Ringbuffer_t :=
  mkRb (xSize r) (xMaxItemSize r) (uxRingbufferFlags r) (xCheckItemFits r) (vCopyItem r) (pvGetItem r)
    (vReturnItem r) (xGetCurMaxSize r) (pucAcquire r) (pucWrite r) (pucRead r) (pucFree r)
    (pucHead r) (pucTail r) (xItemsWaiting r) (storage r) v (xRecvSem r) (xRecvSet r).
Definition set_recvsem (v : bool) (r : Ringbuffer_t) : Ringbuffer_t :=
  mkRb (xSize r) (xMaxItemSize r) (uxRingbufferFlags r) (xCheckItemFits r) (vCopyItem r) (pvGetItem r)
    (vReturnItem r) (xGetCurMaxSize r) (pucAcquire r) (pucWrite r) (pucRead r) (pucFree r)
    (pucHead r) (pucTail r) (xItemsWaiting r) (storage r) (xTransSem r) v (xRecvSet r).
Definition set_recvset (v : option Z) (r : Ringbuffer_t) : Ringbuffer_t :=
  mkRb (xSize r) (xMaxItemSize r) (uxRingbufferFlags r) (xCheckItemFits r) (vCopyItem r) (pvGetItem r)
    (vReturnItem r) (xGetCurMaxSize r) (pucAcquire r) (pucWrite r) (pucRead r) (pucFree r)
    (pucHead r) (pucTail r) (xItemsWaiting r) (storage r) (xTransSem r) (xRecvSem r) v.

(** [flags & mask], and [flags |= mask], [flags &= ~mask] on the structure. *)
Definition rb_flag (r : Ringbuffer_t) (mask : Z) : bool := flag_test (uxRingbufferFlags r) mask.
Definition rb_set_flag (mask : Z) (r : Ringbuffer_t) : Ringbuffer_t :=
  set_flags (flag_set (uxRingbufferFlags r) mask) r.
Definition rb_clear_flag (mask : Z) (r : Ringbuffer_t) : Ringbuffer_t :=
  set_flags (flag_clear (uxRingbufferFlags r) mask) r.

(** The difference of two pointers, a [ptrdiff_t]. *)
Definition ptrdiff (p q : Z) : Z := i32 (p - q).

(** ** Initialisation *)

Definition prvInitializeNewRingbuffer (xBufferSize : Z) (xBufferType : RingbufferType_t)
    (pucRingbufferStorage : Z) (m : mem) : Ringbuffer_t :=
  let mk mx fl f1 f2 f3 f4 f5 :=
    mkRb xBufferSize mx fl f1 f2 f3 f4 f5
      pucRingbufferStorage pucRingbufferStorage pucRingbufferStorage pucRingbufferStorage
      pucRingbufferStorage (pucRingbufferStorage + xBufferSize) 0 m true false None in
  match xBufferType with
  | RINGBUF_TYPE_NOSPLIT =>
      mk (u32 (rbALIGN_SIZE (xBufferSize / 2) - rbHEADER_SIZE)) 0
        FitsDefault CopyNoSplit GetDefault ReturnDefault MaxSizeNoSplit
  | RINGBUF_TYPE_ALLOWSPLIT =>
      mk (u32 (xBufferSize - rbHEADER_SIZE * 2)) (flag_set 0 rbALLOW_SPLIT_FLAG)
        FitsDefault CopyAllowSplit GetDefault ReturnDefault MaxSizeAllowSplit
  | _ =>
      mk xBufferSize (flag_set 0 rbBYTE_BUFFER_FLAG)
        FitsByteBuffer CopyByteBuf GetByteBuf ReturnByteBuf MaxSizeByteBuf
  end.

(** ** Space checks *)

Definition prvGetFreeSize (r : Ringbuffer_t) : option Z :=
  let xReturn :=
    if rb_flag r rbBUFFER_FULL_FLAG then 0
    else
      let xFreeSize := ptrdiff (pucFree r) (pucAcquire r) in
      let xFreeSize := if xFreeSize <=? 0 then i32 (xFreeSize + xSize r) else xFreeSize in
      u32 xFreeSize in
  configASSERT (xReturn <=? xSize r);
  Some xReturn.

(** The assertion of several functions that a pointer is inside the storage. *)
Definition in_bounds (r : Ringbuffer_t) (p : Z) : bool := (pucHead r <=? p) && (p <? pucTail r).

Definition prvCheckItemFitsDefault (r : Ringbuffer_t) (xItemSize : Z) : option bool :=
  configASSERT (rbCHECK_ALIGNED (pucAcquire r));
  configASSERT (in_bounds r (pucAcquire r));
  let xTotalItemSize := u32 (rbALIGN_SIZE xItemSize + rbHEADER_SIZE) in
  Some (
    if pucAcquire r =? pucFree r then negb (rb_flag r rbBUFFER_FULL_FLAG)
    else if pucAcquire r <? pucFree r then
      xTotalItemSize <=? u32 (ptrdiff (pucFree r) (pucAcquire r))
    else if xTotalItemSize <=? u32 (ptrdiff (pucTail r) (pucAcquire r)) then true
    else if rb_flag r rbALLOW_SPLIT_FLAG then
      u32 (xTotalItemSize + rbHEADER_SIZE) <=? u32 (xSize r - ptrdiff (pucAcquire r) (pucFree r))
    else xTotalItemSize <=? u32 (ptrdiff (pucFree r) (pucHead r))).

Definition prvCheckItemFitsByteBuffer (r : Ringbuffer_t) (xItemSize : Z) : option bool :=
  configASSERT (in_bounds r (pucAcquire r));
  Some (
    if pucAcquire r =? pucFree r then negb (rb_flag r rbBUFFER_FULL_FLAG)
    else if pucAcquire r <? pucFree r then
      xItemSize <=? u32 (ptrdiff (pucFree r) (pucAcquire r))
    else xItemSize <=? u32 (xSize r - ptrdiff (pucAcquire r) (pucFree r))).

(** ** Writing items *)

(** [pucTail - p < rbHEADER_SIZE], compared as [size_t]: the position [p] has
    to wrap around to the head. *)
Definition no_room_for_header (r : Ringbuffer_t) (p : Z) : bool :=
  u32 (ptrdiff (pucTail r) p) <? rbHEADER_SIZE.

(** The last step of every write: mark the buffer full when the acquire
    pointer has caught up with the free pointer. *)
Definition mark_if_full (r : Ringbuffer_t) : Ringbuffer_t :=
  if pucAcquire r =? pucFree r then rb_set_flag rbBUFFER_FULL_FLAG r else r.

Definition prvAcquireItemNoSplit (r : Ringbuffer_t) (xItemSize : Z) : option (Ringbuffer_t * Z) :=
  let xAlignedItemSize := rbALIGN_SIZE xItemSize in
  let xRemLen := u32 (ptrdiff (pucTail r) (pucAcquire r)) in
  configASSERT (rbCHECK_ALIGNED (pucAcquire r));
  configASSERT (in_bounds r (pucAcquire r));
  configASSERT (rbHEADER_SIZE <=? xRemLen);
  let r :=
    if xRemLen <? u32 (xAlignedItemSize + rbHEADER_SIZE) then
      let m := set_hdr_flags (storage r) (pucAcquire r) rbITEM_DUMMY_DATA_FLAG in
      let m := set_hdr_len m (pucAcquire r) 0 in
      set_acquire (pucHead r) (set_storage m r)
    else r in
  let m := set_hdr_len (storage r) (pucAcquire r) xItemSize in
  let m := set_hdr_flags m (pucAcquire r) 0 in
  let r := set_storage m r in
  let item_address := u32 (pucAcquire r + rbHEADER_SIZE) in
  let r := set_acquire (u32 (pucAcquire r + (rbHEADER_SIZE + xAlignedItemSize))) r in
  let r := if no_room_for_header r (pucAcquire r) then set_acquire (pucHead r) r else r in
  Some (mark_if_full r, item_address).

(** The [while] loop of [prvSendItemDoneNoSplit]: the write pointer skips
    written and dummy items up to the acquire pointer. *)
Fixpoint advance_write (fuel : nat) (r : Ringbuffer_t) : option Ringbuffer_t :=
  match fuel with
  | O => None
  | S fuel =>
      let cur := pucWrite r in
      let flags := hdr_flags (storage r) cur in
      if (flag_test flags rbITEM_WRITTEN_FLAG || flag_test flags rbITEM_DUMMY_DATA_FLAG)
         && negb (pucWrite r =? pucAcquire r) then
        do* r <-
          (if flag_test flags rbITEM_DUMMY_DATA_FLAG then
             let m := set_hdr_flags (storage r) cur (flag_set flags rbITEM_WRITTEN_FLAG) in
             Some (set_write (pucHead r) (set_storage m r))
           else
             let xAlignedItemSize := rbALIGN_SIZE (hdr_len (storage r) cur) in
             let r := set_write (u32 (pucWrite r + u32 (xAlignedItemSize + rbHEADER_SIZE))) r in
             configASSERT (pucWrite r <=? u32 (pucHead r + xSize r));
             Some r);
        let r := if no_room_for_header r (pucWrite r) then set_write (pucHead r) r else r in
        advance_write fuel r
      else Some r
  end.

(** Every pass of the loops moves a pointer by at least one header, so this
    many passes go round the storage once. *)
Definition loop_fuel (r : Ringbuffer_t) : nat := S (Z.to_nat (xSize r / rbHEADER_SIZE)).

Definition prvSendItemDoneNoSplit (r : Ringbuffer_t) (pucItem : Z) : option Ringbuffer_t :=
  configASSERT (rbCHECK_ALIGNED pucItem);
  configASSERT (pucHead r <=? pucItem);
  configASSERT (pucItem <=? pucTail r);
  let pxCurHeader := u32 (pucItem - rbHEADER_SIZE) in
  let flags := hdr_flags (storage r) pxCurHeader in
  configASSERT (hdr_len (storage r) pxCurHeader <=? xMaxItemSize r);
  configASSERT (negb (flag_test flags rbITEM_DUMMY_DATA_FLAG));
  configASSERT (negb (flag_test flags rbITEM_WRITTEN_FLAG));
  let flags := flag_set (flag_clear flags rbITEM_SPLIT_FLAG) rbITEM_WRITTEN_FLAG in
  let r := set_storage (set_hdr_flags (storage r) pxCurHeader flags) r in
  let r := set_items (i32 (xItemsWaiting r + 1)) r in
  advance_write (loop_fuel r) r.

Definition prvCopyItemNoSplit (r : Ringbuffer_t) (pucItem : list Z) (xItemSize : Z) : option Ringbuffer_t :=
  do* (r, item_addr) <- prvAcquireItemNoSplit r xItemSize;
  let r := set_storage (memcpy (storage r) item_addr (take (Z.to_nat xItemSize) pucItem)) r in
  prvSendItemDoneNoSplit r item_addr.

(** The first part of a split item: the header and payload that fill the
    storage up to the tail, or a dummy header when only a header fits.  Gives
    the buffer and what is left of the item. *)
Definition split_first_part (r : Ringbuffer_t) (xRemLen : Z)
    (pucItem : list Z) (xItemSize xAlignedItemSize : Z) : Ringbuffer_t * list Z * Z * Z :=
  let first := pucAcquire r in
  let m := set_hdr_flags (storage r) first 0 in
  let m := set_hdr_len m first (u32 (xRemLen - rbHEADER_SIZE)) in
  let r := set_storage m r in
  let r := set_acquire (u32 (pucAcquire r + rbHEADER_SIZE)) r in
  let xRemLen := u32 (xRemLen - rbHEADER_SIZE) in
  let '(r, pucItem, xItemSize, xAlignedItemSize) :=
    if 0 <? xRemLen then
      let r := set_storage (memcpy (storage r) (pucAcquire r) (take (Z.to_nat xRemLen) pucItem)) r in
      let r := set_items (i32 (xItemsWaiting r + 1)) r in
      let m := storage r in
      let m := set_hdr_flags m first (flag_set (hdr_flags m first) rbITEM_SPLIT_FLAG) in
      (set_storage m r, drop (Z.to_nat xRemLen) pucItem,
       u32 (xItemSize - xRemLen), u32 (xAlignedItemSize - xRemLen))
    else
      let m := storage r in
      let m := set_hdr_flags m first (flag_set (hdr_flags m first) rbITEM_DUMMY_DATA_FLAG) in
      (set_storage m r, pucItem, xItemSize, xAlignedItemSize) in
  (set_acquire (pucHead r) r, pucItem, xItemSize, xAlignedItemSize).

(** The second half of [prvCopyItemAllowSplit]: the whole item, or its second
    part, at the acquire pointer. *)
Definition copy_last_part (r : Ringbuffer_t) (pucItem : list Z) (xItemSize xAlignedItemSize : Z)
    : Ringbuffer_t :=
  let m := set_hdr_len (storage r) (pucAcquire r) xItemSize in
  let m := set_hdr_flags m (pucAcquire r) 0 in
  let r := set_acquire (u32 (pucAcquire r + rbHEADER_SIZE)) (set_storage m r) in
  let r := set_storage (memcpy (storage r) (pucAcquire r) (take (Z.to_nat xItemSize) pucItem)) r in
  let r := set_items (i32 (xItemsWaiting r + 1)) r in
  let r := set_acquire (u32 (pucAcquire r + xAlignedItemSize)) r in
  let r := if no_room_for_header r (pucAcquire r) then set_acquire (pucHead r) r else r in
  let r := mark_if_full r in
  set_write (pucAcquire r) r.

Definition prvCopyItemAllowSplit (r : Ringbuffer_t) (pucItem : list Z) (xItemSize : Z) : option Ringbuffer_t :=
  let xAlignedItemSize := rbALIGN_SIZE xItemSize in
  let xRemLen := u32 (ptrdiff (pucTail r) (pucAcquire r)) in
  configASSERT (rbCHECK_ALIGNED (pucAcquire r));
  configASSERT (in_bounds r (pucAcquire r));
  configASSERT (rbHEADER_SIZE <=? xRemLen);
  let '(r, pucItem, xItemSize, xAlignedItemSize) :=
    if xRemLen <? u32 (xAlignedItemSize + rbHEADER_SIZE) then
      split_first_part r xRemLen pucItem xItemSize xAlignedItemSize
    else (r, pucItem, xItemSize, xAlignedItemSize) in
  Some (copy_last_part r pucItem xItemSize xAlignedItemSize).

Definition prvCopyItemByteBuf (r : Ringbuffer_t) (pucItem : list Z) (xItemSize : Z) : option Ringbuffer_t :=
  configASSERT (in_bounds r (pucAcquire r));
  let xRemLen := u32 (ptrdiff (pucTail r) (pucAcquire r)) in
  let '(r, pucItem, xItemSize) :=
    if xRemLen <? xItemSize then
      let r := set_storage (memcpy (storage r) (pucAcquire r) (take (Z.to_nat xRemLen) pucItem)) r in
      let r := set_items (i32 (xItemsWaiting r + xRemLen)) r in
      (set_acquire (pucHead r) r, drop (Z.to_nat xRemLen) pucItem, u32 (xItemSize - xRemLen))
    else (r, pucItem, xItemSize) in
  let r := set_storage (memcpy (storage r) (pucAcquire r) (take (Z.to_nat xItemSize) pucItem)) r in
  let r := set_items (i32 (xItemsWaiting r + xItemSize)) r in
  let r := set_acquire (u32 (pucAcquire r + xItemSize)) r in
  let r := if pucAcquire r =? pucTail r then set_acquire (pucHead r) r else r in
  let r := mark_if_full r in
  Some (set_write (pucAcquire r) r).

(** ** Retrieving items *)

(** There is unread data up to the write pointer. *)
Definition items_to_read (r : Ringbuffer_t) : bool :=
  (0 <? xItemsWaiting r)
  && (negb (pucRead r =? pucWrite r) || rb_flag r rbBUFFER_FULL_FLAG).

Definition prvCheckItemAvail (r : Ringbuffer_t) : bool :=
  if rb_flag r rbBYTE_BUFFER_FLAG && negb (pucRead r =? pucFree r) then false
  else items_to_read r.

(** The second half of [prvGetItemDefault]: retrieve the item whose header is
    at the read pointer.  Result: buffer, item pointer, [*pxIsSplit],
    [*pxItemSize]. *)
Definition get_item_here (r : Ringbuffer_t) : option (Ringbuffer_t * Z * bool * Z) :=
  let m := storage r in
  let pxHeader := pucRead r in
  let pcReturn := u32 (pucRead r + rbHEADER_SIZE) in
  configASSERT (if hdr_len m pxHeader =? 0
                then (pucHead r <=? pcReturn) && (pcReturn <=? pucTail r)
                else (pucHead r <=? pcReturn) && (pcReturn <? pucTail r));
  let pxItemSize := hdr_len m pxHeader in
  let r := set_items (i32 (xItemsWaiting r - 1)) r in
  let pxIsSplit := flag_test (hdr_flags m pxHeader) rbITEM_SPLIT_FLAG in
  let r := set_read (u32 (pucRead r + u32 (rbHEADER_SIZE + rbALIGN_SIZE pxItemSize))) r in
  let r := if no_room_for_header r (pucRead r) then set_read (pucHead r) r else r in
  Some (r, pcReturn, pxIsSplit, pxItemSize).

Definition prvGetItemDefault (r : Ringbuffer_t) : option (Ringbuffer_t * Z * bool * Z) :=
  let m := storage r in
  let pxHeader := pucRead r in
  configASSERT (items_to_read r);
  configASSERT (rbCHECK_ALIGNED (pucRead r));
  configASSERT (in_bounds r (pucRead r));
  configASSERT ((hdr_len m pxHeader <=? xMaxItemSize r)
                || flag_test (hdr_flags m pxHeader) rbITEM_DUMMY_DATA_FLAG);
  if flag_test (hdr_flags m pxHeader) rbITEM_DUMMY_DATA_FLAG then
    let r := set_read (pucHead r) r in
    configASSERT (hdr_len m (pucRead r) <=? xMaxItemSize r);
    get_item_here r
  else get_item_here r.

(** Result: buffer, data pointer, [*pxItemSize]. *)
Definition prvGetItemByteBuf (r : Ringbuffer_t) (xMaxSize : Z) : option (Ringbuffer_t * Z * Z) :=
  configASSERT (items_to_read r);
  configASSERT (in_bounds r (pucRead r));
  configASSERT (pucRead r =? pucFree r);
  let ret := pucRead r in
  let get upto wrapped :=
    let avail := ptrdiff upto (pucRead r) in
    if (xMaxSize =? 0) || (u32 avail <=? xMaxSize) then
      (set_read wrapped (set_items (i32 (xItemsWaiting r - avail)) r), ret, u32 avail)
    else
      (set_read (u32 (pucRead r + xMaxSize)) (set_items (i32 (xItemsWaiting r - xMaxSize)) r),
       ret, xMaxSize) in
  Some (if (pucWrite r <? pucRead r) || rb_flag r rbBUFFER_FULL_FLAG
        then get (pucTail r) (pucHead r)
        else get (pucWrite r) (pucWrite r)).

(** ** Returning items *)

(** The [while] loop of [prvReturnItemDefault]: the free pointer skips freed
    and dummy items up to the read pointer. *)
Fixpoint advance_free (fuel : nat) (r : Ringbuffer_t) : option Ringbuffer_t :=
  match fuel with
  | O => None
  | S fuel =>
      let cur := pucFree r in
      let flags := hdr_flags (storage r) cur in
      if (flag_test flags rbITEM_FREE_FLAG || flag_test flags rbITEM_DUMMY_DATA_FLAG)
         && negb (pucFree r =? pucRead r) then
        do* r <-
          (if flag_test flags rbITEM_DUMMY_DATA_FLAG then
             let m := set_hdr_flags (storage r) cur (flag_set flags rbITEM_FREE_FLAG) in
             Some (set_free (pucHead r) (set_storage m r))
           else
             let xAlignedItemSize := rbALIGN_SIZE (hdr_len (storage r) cur) in
             let r := set_free (u32 (pucFree r + u32 (xAlignedItemSize + rbHEADER_SIZE))) r in
             configASSERT (pucFree r <=? u32 (pucHead r + xSize r));
             Some r);
        let r := if no_room_for_header r (pucFree r) then set_free (pucHead r) r else r in
        advance_free fuel r
      else Some r
  end.

Definition prvReturnItemDefault (r : Ringbuffer_t) (pucItem : Z) : option Ringbuffer_t :=
  configASSERT (rbCHECK_ALIGNED pucItem);
  configASSERT (pucHead r <=? pucItem);
  configASSERT (pucItem <=? pucTail r);
  let pxCurHeader := u32 (pucItem - rbHEADER_SIZE) in
  let flags := hdr_flags (storage r) pxCurHeader in
  configASSERT (hdr_len (storage r) pxCurHeader <=? xMaxItemSize r);
  configASSERT (negb (flag_test flags rbITEM_DUMMY_DATA_FLAG));
  configASSERT (negb (flag_test flags rbITEM_FREE_FLAG));
  let flags := flag_set (flag_clear flags rbITEM_SPLIT_FLAG) rbITEM_FREE_FLAG in
  let r := set_storage (set_hdr_flags (storage r) pxCurHeader flags) r in
  do* r <- advance_free (loop_fuel r) r;
  Some (
    if rb_flag r rbBUFFER_FULL_FLAG then
      if negb (pucFree r =? pucAcquire r) then rb_clear_flag rbBUFFER_FULL_FLAG r
      else if (pucFree r =? pucAcquire r) && (pucFree r =? pucRead r)
      then rb_clear_flag rbBUFFER_FULL_FLAG r
      else r
    else r).

Definition prvReturnItemByteBuf (r : Ringbuffer_t) (pucItem : Z) : option Ringbuffer_t :=
  configASSERT (pucHead r <=? pucItem);
  configASSERT (pucItem <? pucTail r);
  let r := set_free (pucRead r) r in
  Some (if rb_flag r rbBUFFER_FULL_FLAG then rb_clear_flag rbBUFFER_FULL_FLAG r else r).

(** ** Current maximum item size *)

(** The common tail of the no-split and allow-split versions. *)
Definition limit_free_size (r : Ringbuffer_t) (xFreeSize : Z) : Z :=
  if xFreeSize <? 0 then 0
  else if xMaxItemSize r <? u32 xFreeSize then xMaxItemSize r
  else u32 xFreeSize.

Definition prvGetCurMaxSizeNoSplit (r : Ringbuffer_t) : Z :=
  if rb_flag r rbBUFFER_FULL_FLAG then 0
  else
    let xFreeSize :=
      if pucAcquire r <? pucFree r then ptrdiff (pucFree r) (pucAcquire r)
      else
        let xSize1 := u32 (ptrdiff (pucTail r) (pucAcquire r)) in
        let xSize2 := u32 (ptrdiff (pucFree r) (pucHead r)) in
        i32 (if xSize2 <? xSize1 then xSize1 else xSize2) in
    limit_free_size r (i32 (xFreeSize - rbHEADER_SIZE)).

Definition prvGetCurMaxSizeAllowSplit (r : Ringbuffer_t) : Z :=
  if rb_flag r rbBUFFER_FULL_FLAG then 0
  else
    limit_free_size r
      (if (pucAcquire r =? pucHead r) && (pucFree r =? pucHead r) then
         i32 (xSize r - rbHEADER_SIZE)
       else if pucAcquire r <? pucFree r then
         i32 (ptrdiff (pucFree r) (pucAcquire r) - rbHEADER_SIZE)
       else
         i32 (ptrdiff (pucFree r) (pucHead r) + ptrdiff (pucTail r) (pucAcquire r)
              - rbHEADER_SIZE * 2)).

Definition prvGetCurMaxSizeByteBuf (r : Ringbuffer_t) : Z :=
  if rb_flag r rbBUFFER_FULL_FLAG then 0
  else
    let xFreeSize := ptrdiff (pucFree r) (pucAcquire r) in
    let xFreeSize := if xFreeSize <=? 0 then i32 (xFreeSize + xSize r) else xFreeSize in
    u32 xFreeSize.

(** ** Calls through the function pointers *)

Definition call_xCheckItemFits (r : Ringbuffer_t) (xItemSize : Z) : option bool :=
  match xCheckItemFits r with
  | FitsDefault => prvCheckItemFitsDefault r xItemSize
  | FitsByteBuffer => prvCheckItemFitsByteBuffer r xItemSize
  end.

Definition call_vCopyItem (r : Ringbuffer_t) (pucItem : list Z) (xItemSize : Z) : option Ringbuffer_t :=
  match vCopyItem r with
  | CopyNoSplit => prvCopyItemNoSplit r pucItem xItemSize
  | CopyAllowSplit => prvCopyItemAllowSplit r pucItem xItemSize
  | CopyByteBuf => prvCopyItemByteBuf r pucItem xItemSize
  end.

Definition call_pvGetItem (r : Ringbuffer_t) (xMaxSize : Z) : option (Ringbuffer_t * Z * bool * Z) :=
  match pvGetItem r with
  | GetDefault => prvGetItemDefault r
  | GetByteBuf => do* (r, p, n) <- prvGetItemByteBuf r xMaxSize; Some (r, p, false, n)
  end.

Definition call_vReturnItem (r : Ringbuffer_t) (pucItem : Z) : option Ringbuffer_t :=
  match vReturnItem r with
  | ReturnDefault => prvReturnItemDefault r pucItem
  | ReturnByteBuf => prvReturnItemByteBuf r pucItem
  end.

Definition call_xGetCurMaxSize (r : Ringbuffer_t) : Z :=
  match xGetCurMaxSize r with
  | MaxSizeNoSplit => prvGetCurMaxSizeNoSplit r
  | MaxSizeAllowSplit => prvGetCurMaxSizeAllowSplit r
  | MaxSizeByteBuf => prvGetCurMaxSizeByteBuf r
  end.
