(* ===== verification/RingbufApi.v ===== *)
(** * The public functions of components/esp_ringbuf/ringbuf.c

    Calls that block run against the other tasks of the system: a [sched] is
    the sequence of what those tasks (and the tick interrupt) do to the ring
    buffer and the tick count while the calling task is blocked, one entry
    per scheduling step.  Critical sections are single steps. *)

From S2P Require Import Prelude CMem Ringbuf.

Definition portMAX_DELAY : Z := 0xFFFFFFFF.

Definition sched := list (Ringbuffer_t * Z -> Ringbuffer_t * Z).

(** The two binary semaphores of the structure. *)
Inductive rb_sem := TX_SEM | RX_SEM.

Definition sem_available (s : rb_sem) (r : Ringbuffer_t) : bool :=
  match s with TX_SEM => xTransSem r | RX_SEM => xRecvSem r end.
Definition sem_set (s : rb_sem) (v : bool) (r : Ringbuffer_t) : Ringbuffer_t :=
  match s with TX_SEM => set_transsem v r | RX_SEM => set_recvsem v r end.

(** [xSemaphoreGive] on a binary semaphore. *)
Definition xSemaphoreGive (s : rb_sem) (r : Ringbuffer_t) : Ringbuffer_t := sem_set s true r.

(** [xSemaphoreTake]: takes the semaphore as soon as it is available, gives up
    when [ticks] ticks have passed since [start] ([portMAX_DELAY] never gives
    up).  When no other task runs any more, time passes until the timeout;
    [None] is a call that blocks for ever. *)
Fixpoint xSemaphoreTake (s : rb_sem) (start ticks : Z) (env : sched) (r : Ringbuffer_t) (now : Z)
    : option (bool * Ringbuffer_t * Z * sched) :=
  if sem_available s r then Some (true, sem_set s false r, now, env)
  else if negb (ticks =? portMAX_DELAY) && (ticks <=? u32 (now - start)) then
    Some (false, r, now, env)
  else
    match env with
    | [] => if ticks =? portMAX_DELAY then None else Some (false, r, u32 (start + ticks), [])
    | e :: env => let '(r, now) := e (r, now) in xSemaphoreTake s start ticks env r now
    end.

(** The loop shared by [prvReceiveGeneric], [xRingbufferSendAcquire] and
    [xRingbufferSend]: take the semaphore, try the operation in a critical
    section, else recompute the remaining ticks and wait again. *)
Fixpoint wait_loop {A} (fuel : nat) (s : rb_sem)
    (attempt : Ringbuffer_t -> option (option (Ringbuffer_t * A)))
    (xTicksToWait xTicksEnd xTicksRemaining : Z) (env : sched) (r : Ringbuffer_t) (now : Z)
    : option (option A * Ringbuffer_t * Z * sched) :=
  match fuel with
  | O => None
  | S fuel =>
      if xTicksRemaining <=? xTicksToWait then
        do* (taken, r, now, env) <- xSemaphoreTake s now xTicksRemaining env r now;
        if taken then
          do* res <- attempt r;
          match res with
          | Some (r, a) => Some (Some a, r, now, env)
          | None =>
              let xTicksRemaining :=
                if negb (xTicksToWait =? portMAX_DELAY) then u32 (xTicksEnd - now)
                else xTicksRemaining in
              wait_loop fuel s attempt xTicksToWait xTicksEnd xTicksRemaining env r now
          end
        else Some (None, r, now, env)
      else Some (None, r, now, env)
  end.

(** Every pass after the first needs another task to give the semaphore. *)
Definition wait_fuel (env : sched) : nat := S (S (S (length env))).

Definition block_on {A} (s : rb_sem) (attempt : Ringbuffer_t -> option (option (Ringbuffer_t * A)))
    (xTicksToWait : Z) (env : sched) (r : Ringbuffer_t) (now : Z) :=
  wait_loop (wait_fuel env) s attempt xTicksToWait (u32 (now + xTicksToWait)) xTicksToWait env r now.

(** ** Receiving *)

(** The items retrieved by one call: pointer and size of the first, and of
    the second part of a split item when there is one. *)
Record rx_items := mkRx { rx1 : Z * Z; rx2 : option (Z * Z) }.

(** The critical section of [prvReceiveGeneric] once an item is available;
    [two] is [pvItem2 != NULL && xItemSize2 != NULL]. *)
Definition fetch_items (two : bool) (xMaxSize : Z) (r : Ringbuffer_t) : option (Ringbuffer_t * rx_items) :=
  do* (r, p1, xIsSplit, n1) <-
    (if rb_flag r rbBYTE_BUFFER_FLAG then call_pvGetItem r xMaxSize else call_pvGetItem r 0);
  if rb_flag r rbALLOW_SPLIT_FLAG && two then
    if xIsSplit : bool then
      do* (r, p2, xIsSplit, n2) <- call_pvGetItem r 0;
      configASSERT (p2 <? p1);
      configASSERT (negb xIsSplit);
      Some (r, mkRx (p1, n1) (Some (p2, n2)))
    else Some (r, mkRx (p1, n1) None)
  else Some (r, mkRx (p1, n1) None).

Definition try_receive (two : bool) (xMaxSize : Z) (r : Ringbuffer_t)
    : option (option (Ringbuffer_t * rx_items)) :=
  if prvCheckItemAvail r then
    do* res <- fetch_items two xMaxSize r; Some (Some res)
  else Some None.

(** Result: the items ([None] is [pdFALSE]), buffer, tick count, other tasks. *)
Definition prvReceiveGeneric (two : bool) (xMaxSize xTicksToWait : Z) (env : sched)
    (r : Ringbuffer_t) (now : Z) : option (option rx_items * Ringbuffer_t * Z * sched) :=
  do* (res, r, now, env) <- block_on RX_SEM (try_receive two xMaxSize) xTicksToWait env r now;
  let r := match res with
           | Some _ => if 0 <? xItemsWaiting r then xSemaphoreGive RX_SEM r else r
           | None => r
           end in
  Some (res, r, now, env).

Definition prvReceiveGenericFromISR (two : bool) (xMaxSize : Z) (r : Ringbuffer_t)
    : option (option rx_items * Ringbuffer_t) :=
  do* res <- try_receive two xMaxSize r;
  match res with
  | Some (r, items) =>
      Some (Some items, if 0 <? xItemsWaiting r then xSemaphoreGive RX_SEM r else r)
  | None => Some (None, r)
  end.

(** The receive functions return the pointer ([None] is [NULL]) and the size. *)
Definition xRingbufferReceive (xTicksToWait : Z) (env : sched) (r : Ringbuffer_t) (now : Z)
    : option (option (Z * Z) * Ringbuffer_t * Z * sched) :=
  do* (res, r, now, env) <- prvReceiveGeneric false 0 xTicksToWait env r now;
  Some (rx1 <$> res, r, now, env).

Definition xRingbufferReceiveFromISR (r : Ringbuffer_t) : option (option (Z * Z) * Ringbuffer_t) :=
  do* (res, r) <- prvReceiveGenericFromISR false 0 r;
  Some (rx1 <$> res, r).

Definition xRingbufferReceiveSplit (xTicksToWait : Z) (env : sched) (r : Ringbuffer_t) (now : Z)
    : option (option (Z * Z * option (Z * Z)) * Ringbuffer_t * Z * sched) :=
  configASSERT (rb_flag r rbALLOW_SPLIT_FLAG);
  do* (res, r, now, env) <- prvReceiveGeneric true 0 xTicksToWait env r now;
  Some ((fun i => (rx1 i, rx2 i)) <$> res, r, now, env).

Definition xRingbufferReceiveSplitFromISR (r : Ringbuffer_t)
    : option (option (Z * Z * option (Z * Z)) * Ringbuffer_t) :=
  configASSERT (rb_flag r rbALLOW_SPLIT_FLAG);
  do* (res, r) <- prvReceiveGenericFromISR true 0 r;
  Some ((fun i => (rx1 i, rx2 i)) <$> res, r).

Definition xRingbufferReceiveUpTo (xTicksToWait xMaxSize : Z) (env : sched) (r : Ringbuffer_t) (now : Z)
    : option (option (Z * Z) * Ringbuffer_t * Z * sched) :=
  configASSERT (rb_flag r rbBYTE_BUFFER_FLAG);
  if xMaxSize =? 0 then Some (None, r, now, env)
  else
    do* (res, r, now, env) <- prvReceiveGeneric false xMaxSize xTicksToWait env r now;
    Some (rx1 <$> res, r, now, env).

Definition xRingbufferReceiveUpToFromISR (xMaxSize : Z) (r : Ringbuffer_t)
    : option (option (Z * Z) * Ringbuffer_t) :=
  configASSERT (rb_flag r rbBYTE_BUFFER_FLAG);
  if xMaxSize =? 0 then Some (None, r)
  else
    do* (res, r) <- prvReceiveGenericFromISR false xMaxSize r;
    Some (rx1 <$> res, r).

(** ** Sending *)

(** Both send loops set [xReturnSemaphore] when space is left. *)
Definition with_free_size {A} (r : Ringbuffer_t) (a : A)
    : option (option (Ringbuffer_t * (A * bool))) :=
  do* free <- prvGetFreeSize r;
  Some (Some (r, (a, 0 <? free))).

Definition try_send (pvItem : list Z) (xItemSize : Z) (r : Ringbuffer_t)
    : option (option (Ringbuffer_t * (unit * bool))) :=
  do* fits <- call_xCheckItemFits r xItemSize;
  if fits : bool then
    do* r <- call_vCopyItem r pvItem xItemSize;
    with_free_size r tt
  else Some None.

Definition try_acquire (xItemSize : Z) (r : Ringbuffer_t)
    : option (option (Ringbuffer_t * (Z * bool))) :=
  do* fits <- call_xCheckItemFits r xItemSize;
  if fits : bool then
    do* (r, p) <- prvAcquireItemNoSplit r xItemSize;
    with_free_size r p
  else Some None.

Definition give_if (b : bool) (s : rb_sem) (r : Ringbuffer_t) : Ringbuffer_t :=
  if b then xSemaphoreGive s r else r.

(** The tests that come before the attempt to send: [Some b] returns [b]. *)
Definition send_precheck (r : Ringbuffer_t) (xItemSize : Z) : option bool :=
  if xMaxItemSize r <? xItemSize then Some false
  else if rb_flag r rbBYTE_BUFFER_FLAG && (xItemSize =? 0) then Some true
  else None.

Definition xRingbufferSend (pvItem : option (list Z)) (xItemSize xTicksToWait : Z) (env : sched)
    (r : Ringbuffer_t) (now : Z) : option (bool * Ringbuffer_t * Z * sched) :=
  configASSERT (match pvItem with Some _ => true | None => xItemSize =? 0 end);
  match send_precheck r xItemSize with
  | Some b => Some (b, r, now, env)
  | None =>
      do* (res, r, now, env) <- block_on TX_SEM (try_send (default [] pvItem) xItemSize) xTicksToWait env r now;
      match res with
      | Some (_, xReturnSemaphore) =>
          Some (true, xSemaphoreGive RX_SEM (give_if xReturnSemaphore TX_SEM r), now, env)
      | None => Some (false, r, now, env)
      end
  end.

Definition xRingbufferSendFromISR (pvItem : option (list Z)) (xItemSize : Z) (r : Ringbuffer_t)
    : option (bool * Ringbuffer_t) :=
  configASSERT (match pvItem with Some _ => true | None => xItemSize =? 0 end);
  match send_precheck r xItemSize with
  | Some b => Some (b, r)
  | None =>
      do* res <- try_send (default [] pvItem) xItemSize r;
      match res with
      | Some (r, (_, xReturnSemaphore)) =>
          Some (true, xSemaphoreGive RX_SEM (give_if xReturnSemaphore TX_SEM r))
      | None => Some (false, r)
      end
  end.

(** [ppvItem] says whether the out-pointer is non-[NULL]; the store through
    it comes right after the assertions.  Result: the acquired address. *)
Definition xRingbufferSendAcquire (ppvItem : bool) (xItemSize xTicksToWait : Z) (env : sched)
    (r : Ringbuffer_t) (now : Z) : option (bool * option Z * Ringbuffer_t * Z * sched) :=
  configASSERT (ppvItem || (xItemSize =? 0));
  configASSERT (negb (flag_test (uxRingbufferFlags r) (Z.lor rbBYTE_BUFFER_FLAG rbALLOW_SPLIT_FLAG)));
  configASSERT ppvItem; (* [*ppvItem = NULL] *)
  match send_precheck r xItemSize with
  | Some b => Some (b, None, r, now, env)
  | None =>
      do* (res, r, now, env) <- block_on TX_SEM (try_acquire xItemSize) xTicksToWait env r now;
      match res with
      | Some (p, xReturnSemaphore) => Some (true, Some p, give_if xReturnSemaphore TX_SEM r, now, env)
      | None => Some (false, None, r, now, env)
      end
  end.

Definition xRingbufferSendComplete (pvItem : option Z) (r : Ringbuffer_t) : option (bool * Ringbuffer_t) :=
  match pvItem with
  | None => None
  | Some p =>
      configASSERT (negb (flag_test (uxRingbufferFlags r) (Z.lor rbBYTE_BUFFER_FLAG rbALLOW_SPLIT_FLAG)));
      do* r <- prvSendItemDoneNoSplit r p;
      Some (true, xSemaphoreGive RX_SEM r)
  end.

(** ** Returning items, creation and information *)

Definition vRingbufferReturnItem (pvItem : option Z) (r : Ringbuffer_t) : option Ringbuffer_t :=
  match pvItem with
  | None => None
  | Some p => do* r <- call_vReturnItem r p; Some (xSemaphoreGive TX_SEM r)
  end.

Definition vRingbufferReturnItemFromISR (pvItem : option Z) (r : Ringbuffer_t) : option Ringbuffer_t :=
  match pvItem with
  | None => None
  | Some p => do* r <- call_vReturnItem r p; Some (xSemaphoreGive TX_SEM r)
  end.

(** [calloc_ok] says whether the control structure could be allocated;
    [malloc] gives the address of the storage area.  [Some None] is [NULL]. *)
Definition xRingbufferCreate (calloc_ok : bool) (malloc : Z -> option Z) (m : mem)
    (xBufferSize : Z) (xBufferType : RingbufferType_t) : option (option Ringbuffer_t) :=
  configASSERT (0 <? xBufferSize);
  configASSERT (negb (bool_decide (xBufferType = RINGBUF_TYPE_MAX)));
  let xBufferSize :=
    if bool_decide (xBufferType = RINGBUF_TYPE_BYTEBUF) then xBufferSize
    else rbALIGN_SIZE xBufferSize in
  Some (if calloc_ok then
          (fun p => prvInitializeNewRingbuffer xBufferSize xBufferType p m) <$> malloc xBufferSize
        else None).

Definition xRingbufferCreateNoSplit (calloc_ok : bool) (malloc : Z -> option Z) (m : mem)
    (xItemSize xItemNum : Z) : option (option Ringbuffer_t) :=
  xRingbufferCreate calloc_ok malloc m
    (u32 (u32 (rbALIGN_SIZE xItemSize + rbHEADER_SIZE) * xItemNum)) RINGBUF_TYPE_NOSPLIT.

Definition xRingbufferCreateStatic (m : mem) (xBufferSize : Z) (xBufferType : RingbufferType_t)
    (pucRingbufferStorage : option Z) (pxStaticRingbuffer : bool) : option Ringbuffer_t :=
  configASSERT (0 <? xBufferSize);
  configASSERT (negb (bool_decide (xBufferType = RINGBUF_TYPE_MAX)));
  match pucRingbufferStorage with
  | None => None
  | Some p =>
      configASSERT pxStaticRingbuffer;
      configASSERT (bool_decide (xBufferType = RINGBUF_TYPE_BYTEBUF) || rbCHECK_ALIGNED xBufferSize);
      Some (rb_set_flag rbBUFFER_STATIC_FLAG (prvInitializeNewRingbuffer xBufferSize xBufferType p m))
  end.

(** The blocks [vRingbufferDelete] frees, none for a static buffer. *)
Inductive heap_block := STORAGE_BLOCK (p : Z) | CONTROL_BLOCK.
Definition vRingbufferDelete (r : Ringbuffer_t) : list heap_block :=
  if rb_flag r rbBUFFER_STATIC_FLAG then [] else [STORAGE_BLOCK (pucHead r); CONTROL_BLOCK].

Definition xRingbufferGetMaxItemSize (r : Ringbuffer_t) : Z := xMaxItemSize r.
Definition xRingbufferGetCurFreeSize (r : Ringbuffer_t) : Z := call_xGetCurMaxSize r.

(** [xQueueAddToSet] and [xQueueRemoveFromSet] on the receive semaphore: both
    refuse a semaphore that is available. *)
Definition xQueueAddToSet (xQueueSet : Z) (r : Ringbuffer_t) : bool * Ringbuffer_t :=
  match xRecvSet r with
  | Some _ => (false, r)
  | None => if xRecvSem r then (false, r) else (true, set_recvset (Some xQueueSet) r)
  end.
Definition xQueueRemoveFromSet (xQueueSet : Z) (r : Ringbuffer_t) : bool * Ringbuffer_t :=
  if bool_decide (xRecvSet r = Some xQueueSet) then
    if xRecvSem r then (false, r) else (true, set_recvset None r)
  else (false, r).

(** Runs [f] with the receive semaphore temporarily held. *)
Definition with_recvsem_held (f : Ringbuffer_t -> bool * Ringbuffer_t) (r : Ringbuffer_t)
    : bool * Ringbuffer_t :=
  let result := xRecvSem r in
  let '(xReturn, r) := f (set_recvsem false r) in
  (xReturn, give_if result RX_SEM r).

Definition xRingbufferAddToQueueSetRead (xQueueSet : Z) : Ringbuffer_t -> bool * Ringbuffer_t :=
  with_recvsem_held (xQueueAddToSet xQueueSet).
Definition xRingbufferRemoveFromQueueSetRead (xQueueSet : Z) : Ringbuffer_t -> bool * Ringbuffer_t :=
  with_recvsem_held (xQueueRemoveFromSet xQueueSet).

(** Offsets of free, read, write and acquire, and the number of items. *)
Definition vRingbufferGetInfo (r : Ringbuffer_t) : Z * Z * Z * Z * Z :=
  (u32 (ptrdiff (pucFree r) (pucHead r)), u32 (ptrdiff (pucRead r) (pucHead r)),
   u32 (ptrdiff (pucWrite r) (pucHead r)), u32 (ptrdiff (pucAcquire r) (pucHead r)),
   u32 (xItemsWaiting r)).
