(* ===== verification/RingbufChain.v ===== *)
(** * Item chains in the storage of no-split and allow-split buffers

    The storage between the free and the acquire pointer is a sequence of
    slots: items (header and payload, rounded up to a word) and dummy headers
    that stand for the rest of the storage up to the tail.  This file gives
    the geometry of such sequences: where each slot lies, that slots do not
    overlap as long as they use at most the size of the storage, and that a
    write inside one slot leaves the others as they are. *)

From S2P Require Import Prelude CMem Ringbuf.

(** Payload size rounded up to a word. *)
Definition align4 (n : Z) : Z := 4 * ((n + 3) / 4).

Lemma rbALIGN_SIZE_spec n : 0 <= n <= 2 ^ 32 - 4 -> rbALIGN_SIZE n = align4 n.
Proof.
  intros Hn. unfold rbALIGN_SIZE, rbALIGN_MASK, align4.
  rewrite u32_small by lia.
  change (u32 (Z.lnot 3)) with (Z.ldiff (Z.ones 32) (Z.ones 2)).
  transitivity (Z.ldiff (n + 3) (Z.ones 2)).
  { apply Z.bits_inj'. intros j Hj. rewrite Z.land_spec, !Z.ldiff_spec.
    destruct (Z.ltb_spec j 32).
    - rewrite (Z.ones_spec_low 32) by lia. done.
    - rewrite (high_bits_zero (n + 3) 32) by lia. done. }
  rewrite Z.ldiff_ones_r, Z.shiftl_mul_pow2, Z.shiftr_div_pow2 by lia.
  change (2 ^ 2) with 4. lia.
Qed.

Lemma align4_bounds n : n <= align4 n < n + 4.
Proof. unfold align4. Z.to_euclidean_division_equations. lia. Qed.

Lemma align4_mod n : align4 n mod 4 = 0.
Proof. unfold align4. rewrite Z.mul_comm. apply Z.mod_mul. lia. Qed.

Lemma rbCHECK_ALIGNED_spec p : rbCHECK_ALIGNED p = (p mod 4 =? 0).
Proof.
  unfold rbCHECK_ALIGNED, rbALIGN_MASK. change 3 with (Z.ones 2).
  rewrite Z.land_ones by lia. done.
Qed.

(** ** Slots *)

Record slot := mkSlot { s_len : Z; s_flags : Z; s_data : list Z }.

Definition is_dummy (s : slot) : bool := flag_test (s_flags s) rbITEM_DUMMY_DATA_FLAG.
Definition is_free (s : slot) : bool := flag_test (s_flags s) rbITEM_FREE_FLAG.
Definition is_split (s : slot) : bool := flag_test (s_flags s) rbITEM_SPLIT_FLAG.

(** The flag bits, as powers of two. *)
Lemma item_flag_bits :
  rbITEM_FREE_FLAG = 2 ^ 0 /\ rbITEM_DUMMY_DATA_FLAG = 2 ^ 1 /\
  rbITEM_SPLIT_FLAG = 2 ^ 2 /\ rbITEM_WRITTEN_FLAG = 2 ^ 3.
Proof. done. Qed.

(** The header of an item once it was returned. *)
Definition freed (s : slot) : slot :=
  mkSlot (s_len s) (flag_set (flag_clear (s_flags s) rbITEM_SPLIT_FLAG) rbITEM_FREE_FLAG) (s_data s).

Lemma freed_flags s :
  is_free (freed s) = true /\ is_dummy (freed s) = is_dummy s /\ is_split (freed s) = false.
Proof.
  unfold is_free, is_dummy, is_split, freed. cbn [s_flags].
  destruct item_flag_bits as (-> & -> & -> & _).
  rewrite !flag_test_set, !flag_test_clear by lia. done.
Qed.

Lemma freed_u32 s : is_u32 (s_flags s) -> is_u32 (s_flags (freed s)).
Proof.
  intros H. unfold is_u32, freed in *. cbn [s_flags]. destruct item_flag_bits as (-> & _ & -> & _).
  apply flag_set_range; [by apply flag_clear_range|lia].
Qed.

(** Header and aligned payload. *)
Definition slot_size (s : slot) : Z := rbHEADER_SIZE + align4 (s_len s).

(** A word-aligned storage area with room for a header. *)
Class Storage (head tail : Z) : Prop := {
  st_head : head mod 4 = 0;
  st_tail : tail mod 4 = 0;
  st_size : head + rbHEADER_SIZE <= tail
}.
Arguments st_head head tail {_}.
Arguments st_tail head tail {_}.
Arguments st_size head tail {_}.

Section Chain.
Context (head tail : Z).
Let S := tail - head.

(** The bytes a slot at [a] occupies: dummies, and items that leave no room
    for a header behind them, reach up to the tail. *)
Definition ext (a : Z) (s : slot) : Z :=
  if is_dummy s then tail - a
  else if tail - (a + slot_size s) <? rbHEADER_SIZE then tail - a
  else slot_size s.

Definition next (a : Z) (s : slot) : Z :=
  if a + ext a s =? tail then head else a + ext a s.

Fixpoint endp (a : Z) (l : list slot) : Z :=
  match l with [] => a | s :: l => endp (next a s) l end.

Fixpoint used (a : Z) (l : list slot) : Z :=
  match l with [] => 0 | s :: l => ext a s + used (next a s) l end.

(** A position where a header can be written. *)
Definition pos_ok (a : Z) : Prop := head <= a /\ a + rbHEADER_SIZE <= tail /\ a mod 4 = 0.

(** A slot lies inside the storage at [a] ... *)
Definition geom (a : Z) (s : slot) : Prop :=
  pos_ok a /\ 0 <= s_len s /\ a + slot_size s <= tail.

Fixpoint geoms (a : Z) (l : list slot) : Prop :=
  match l with [] => True | s :: l => geom a s /\ geoms (next a s) l end.

(** ... and the memory holds it. *)
Definition holds (m : mem) (a : Z) (s : slot) : Prop :=
  hdr_len m a = s_len s /\ hdr_flags m a = s_flags s /\
  read_bytes m (a + rbHEADER_SIZE) (Z.to_nat (s_len s)) = s_data s.

Fixpoint slots (m : mem) (a : Z) (l : list slot) : Prop :=
  match l with [] => True | s :: l => holds m a s /\ slots m (next a s) l end.

Context {ST : Storage head tail}.
Let Hhead : head mod 4 = 0 := st_head head tail.
Let Htail : tail mod 4 = 0 := st_tail head tail.
Let Hsize : head + rbHEADER_SIZE <= tail := st_size head tail.

Local Ltac unf := unfold geom, pos_ok, next, ext, slot_size, rbHEADER_SIZE in *.
Local Ltac al s := pose proof (align4_bounds (s_len s)); pose proof (align4_mod (s_len s)).

Lemma slot_size_mod s : slot_size s mod 4 = 0.
Proof. unf. al s. rewrite Z.add_comm, <- Z.add_mod_idemp_l, H0; done. Qed.

Lemma ext_bounds a s : geom a s -> slot_size s <= ext a s /\ a + ext a s <= tail /\ rbHEADER_SIZE <= ext a s.
Proof. unf. al s. destruct (is_dummy s); [|zcase]; lia. Qed.

Lemma next_ok a s : geom a s -> pos_ok (next a s).
Proof.
  intros G. pose proof (slot_size_mod s). pose proof (ext_bounds a s G).
  unf. destruct (is_dummy s); [zcase; lia|].
  al s. repeat zcase; Z.to_euclidean_division_equations; lia.
Qed.

Lemma next_cases a s : geom a s ->
  (next a s = a + ext a s /\ a + ext a s < tail) \/ (next a s = head /\ a + ext a s = tail).
Proof. intros G. pose proof (ext_bounds a s G). unfold next. zcase; lia. Qed.

Lemma endp_app a l1 l2 : endp a (l1 ++ l2) = endp (endp a l1) l2.
Proof. revert a. induction l1; intros a0; simpl; auto. Qed.

Lemma used_app a l1 l2 : used a (l1 ++ l2) = used a l1 + used (endp a l1) l2.
Proof. revert a. induction l1 as [|s l1 IH]; intros a; simpl; [lia|]. rewrite IH. lia. Qed.

Lemma geoms_app a l1 l2 : geoms a (l1 ++ l2) <-> geoms a l1 /\ geoms (endp a l1) l2.
Proof.
  revert a. induction l1 as [|s l1 IH]; intros a; simpl; [tauto|]. rewrite IH. tauto.
Qed.

Lemma slots_app m a l1 l2 : slots m a (l1 ++ l2) <-> slots m a l1 /\ slots m (endp a l1) l2.
Proof.
  revert a. induction l1 as [|s l1 IH]; intros a; simpl; [tauto|]. rewrite IH. tauto.
Qed.

Lemma used_nonneg a l : geoms a l -> 0 <= used a l.
Proof.
  revert a. induction l as [|s l IH]; intros a; simpl; [lia|].
  intros [G Gs]. pose proof (ext_bounds _ _ G). specialize (IH _ Gs). unfold rbHEADER_SIZE in *. lia.
Qed.

Lemma used_pos a l : geoms a l -> l <> [] -> rbHEADER_SIZE <= used a l.
Proof.
  destruct l as [|s l]; [done|]. intros [G Gs] _. simpl.
  pose proof (ext_bounds _ _ G). pose proof (used_nonneg _ _ Gs). lia.
Qed.

Lemma endp_ok a l : pos_ok a -> geoms a l -> pos_ok (endp a l).
Proof.
  revert a. induction l as [|s l IH]; intros a Ha; simpl; [done|].
  intros [G Gs]. apply IH; [by apply next_ok|done].
Qed.

(** The end of a chain that uses [u] bytes is [u] bytes after its start,
    modulo the size of the storage. *)
Lemma endp_used a l : pos_ok a -> geoms a l -> used a l <= S ->
  (endp a l = a + used a l /\ a + used a l < tail) \/
  (endp a l = a + used a l - S /\ tail <= a + used a l).
Proof.
  revert a. induction l as [|s l IH]; intros a Ha; simpl; [unf; lia|].
  intros [G Gs] Hu. pose proof (ext_bounds _ _ G) as He. pose proof (used_nonneg _ _ Gs).
  pose proof (next_ok _ _ G) as Hn. unfold rbHEADER_SIZE in *.
  destruct (IH _ Hn Gs) as [[-> ?]|[-> ?]]; [lia|..];
    destruct (next_cases a s G) as [[E ?]|[E ?]]; rewrite E in *; unf; lia.
Qed.

(** ** Slots do not overlap *)

Lemma slots_disjoint a l1 s l2 s' l3 :
  pos_ok a -> geoms a (l1 ++ s :: l2 ++ s' :: l3) -> used a (l1 ++ s :: l2 ++ s' :: l3) <= S ->
  let x := endp a l1 in
  let y := endp (next x s) l2 in
  x + ext x s <= y \/ y + ext y s' <= x.
Proof.
  intros Ha G U x y.
  apply geoms_app in G as [G1 [Gs G2]]. apply geoms_app in G2 as [G2 [Gs' G3]].
  rewrite used_app in U. simpl in U. rewrite used_app in U. simpl in U.
  fold x in U, Gs, Gs', G2, G3. fold y in U, Gs', G3.
  pose proof (used_nonneg _ _ G1). pose proof (used_nonneg _ _ G2). pose proof (used_nonneg _ _ G3).
  pose proof (ext_bounds _ _ Gs). pose proof (ext_bounds _ _ Gs').
  assert (rbHEADER_SIZE = 8) by done.
  assert (Hx := endp_used a l1 Ha G1 ltac:(lia)). fold x in Hx.
  assert (Hy := endp_used a (l1 ++ s :: l2) Ha).
  rewrite geoms_app, endp_app, used_app in Hy. simpl in Hy. fold x y in Hy.
  specialize (Hy ltac:(auto) ltac:(lia)).
  pose proof (endp_ok a l1 Ha G1) as Px. fold x in Px. unf. lia.
Qed.

(** [m'] differs from [m] at most in [[lo, hi)]. *)
Definition same_but (lo hi : Z) (m m' : mem) : Prop := forall x, x < lo \/ hi <= x -> m' x = m x.

Lemma holds_frame m m' a s lo hi :
  same_but lo hi m m' -> geom a s -> a + ext a s <= lo \/ hi <= a -> holds m a s -> holds m' a s.
Proof.
  intros F G D (H1 & H2 & H3). pose proof (ext_bounds _ _ G). al s. unf.
  assert (agree a (a + slot_size s) m m') as A.
  { intros x Hx. symmetry. apply F. unfold slot_size, rbHEADER_SIZE in *. lia. }
  unfold holds, hdr_len, hdr_flags, slot_size, rbHEADER_SIZE in *. split_and!.
  - rewrite <- H1. symmetry. apply load32_agree. eapply agree_sub; [done|lia..].
  - rewrite <- H2. symmetry. apply load32_agree. eapply agree_sub; [done|lia..].
  - rewrite <- H3. symmetry. apply read_bytes_agree. eapply agree_sub; [done|lia..].
Qed.

Lemma slots_iff m a l :
  slots m a l <-> forall l1 s l2, l = l1 ++ s :: l2 -> holds m (endp a l1) s.
Proof.
  revert a. induction l as [|s l IH]; intros a; simpl; split.
  - intros _ l1 s l2 E. by destruct l1.
  - done.
  - intros [H Hs] l1 s' l2 E. destruct l1 as [|s1 l1]; simplify_eq/=; [done|].
    by apply (proj1 (IH _) Hs l1 s' l2).
  - intros H. split; [by apply (H [] s l)|]. apply IH. intros l1 s' l2 ->. by apply (H (s :: l1) s' l2).
Qed.

(** A write inside the slot [s] leaves the slots before and after it. *)
Lemma slots_frame m m' a l1 s l2 :
  pos_ok a -> geoms a (l1 ++ s :: l2) -> used a (l1 ++ s :: l2) <= S ->
  same_but (endp a l1) (endp a l1 + ext (endp a l1) s) m m' ->
  (slots m a l1 -> slots m' a l1) /\
  (slots m (next (endp a l1) s) l2 -> slots m' (next (endp a l1) s) l2).
Proof.
  intros Ha G U F. rewrite !slots_iff. split; intros H p s' q ->.
  - rewrite <- app_assoc in G, U. simpl in G, U. rewrite endp_app in F. simpl in F.
    assert (D := slots_disjoint a p s' q s l2 Ha G U). simpl in D.
    apply geoms_app in G as [_ [Gs _]].
    eapply holds_frame; [exact F|done|lia|]. by apply (H p s' q).
  - assert (D := slots_disjoint a l1 s p s' q Ha G U). simpl in D.
    apply geoms_app in G as [_ [_ G]]. apply geoms_app in G as [_ [Gs _]].
    eapply holds_frame; [exact F|done|lia|]. by apply (H p s' q).
Qed.

(** Slots with the same length and kind occupy the same place. *)
Section Same.
Context (s s' : slot) (Hl : s_len s' = s_len s) (Hd : is_dummy s' = is_dummy s).

Lemma ext_same a : ext a s' = ext a s.
Proof. unfold ext, slot_size. by rewrite Hl, Hd. Qed.
Lemma next_same a : next a s' = next a s.
Proof. unfold next. by rewrite ext_same. Qed.
Lemma endp_same a l1 l2 : endp a (l1 ++ s' :: l2) = endp a (l1 ++ s :: l2).
Proof. rewrite !endp_app. simpl. by rewrite next_same. Qed.
Lemma used_same a l1 l2 : used a (l1 ++ s' :: l2) = used a (l1 ++ s :: l2).
Proof. rewrite !used_app. simpl. by rewrite next_same, ext_same. Qed.
Lemma geoms_same a l1 l2 : geoms a (l1 ++ s :: l2) -> geoms a (l1 ++ s' :: l2).
Proof.
  rewrite !geoms_app. simpl. unfold geom, slot_size. by rewrite next_same, Hl.
Qed.
End Same.

(** Replacing one slot by another of the same extent. *)
Lemma slots_update m m' a l1 s s' l2 :
  pos_ok a -> geoms a (l1 ++ s :: l2) -> used a (l1 ++ s :: l2) <= S ->
  same_but (endp a l1) (endp a l1 + ext (endp a l1) s) m m' ->
  ext (endp a l1) s' = ext (endp a l1) s -> holds m' (endp a l1) s' ->
  slots m a (l1 ++ s :: l2) -> slots m' a (l1 ++ s' :: l2).
Proof.
  intros Ha G U F E H' H. apply slots_app in H as [H1 [Hs H2]].
  destruct (slots_frame m m' a l1 s l2 Ha G U F) as [F1 F2].
  apply slots_app. simpl. split_and!; [auto|done|].
  unfold next in *. rewrite E. auto.
Qed.
End Chain.
