(* ===== verification/RingbufItems.v ===== *)
(** * No-split and allow-split ring buffers: invariant and operations

    The invariant [inv r held wait] relates the control structure to two
    ghost lists of slots: [held], retrieved by the application and not yet
    given back, from the free to the read pointer, and [wait], written and
    not yet retrieved, from the read to the write pointer. *)

From S2P Require Import Prelude CMem Ringbuf RingbufChain.

(** ** Automation *)

(** Computes projections of updated structures. *)
Ltac rbsimpl :=
  cbn [xSize xMaxItemSize uxRingbufferFlags xCheckItemFits vCopyItem pvGetItem vReturnItem
       xGetCurMaxSize pucAcquire pucWrite pucRead pucFree pucHead pucTail xItemsWaiting storage
       xTransSem xRecvSem xRecvSet set_flags set_acquire set_write set_read set_free set_items
       set_storage set_transsem set_recvsem set_recvset rb_set_flag rb_clear_flag] in *.

(** [lia] with the header size known. *)
Ltac rlia := unfold rbHEADER_SIZE in *; lia.

(** The full flag of the buffer. *)
Definition full (r : Ringbuffer_t) : bool := rb_flag r rbBUFFER_FULL_FLAG.

Definition nondummy (s : slot) : bool := negb (is_dummy s).
Definition items (l : list slot) : list slot := List.filter nondummy l.

(** ** Geometry of a buffer *)

Record rb_geom (r : Ringbuffer_t) : Prop := {
  g_head : pucHead r mod 4 = 0;
  g_head_pos : 0 < pucHead r;
  g_tail : pucTail r = pucHead r + xSize r;
  g_tail_max : pucTail r < 2 ^ 32;
  g_size : xSize r mod 4 = 0;
  g_size_min : rbHEADER_SIZE <= xSize r;
  g_size_max : xSize r < 2 ^ 31;
  g_max : 0 <= xMaxItemSize r;
  g_byte : rb_flag r rbBYTE_BUFFER_FLAG = false;
  g_type :
    match vCopyItem r with
    | CopyNoSplit =>
        xMaxItemSize r + rbHEADER_SIZE = align4 (xSize r / 2) /\
        rb_flag r rbALLOW_SPLIT_FLAG = false /\ xGetCurMaxSize r = MaxSizeNoSplit
    | CopyAllowSplit =>
        xMaxItemSize r + 2 * rbHEADER_SIZE = xSize r /\
        rb_flag r rbALLOW_SPLIT_FLAG = true /\ xGetCurMaxSize r = MaxSizeAllowSplit
    | CopyByteBuf => False
    end;
  g_fits : xCheckItemFits r = FitsDefault;
  g_get : pvGetItem r = GetDefault;
  g_return : vReturnItem r = ReturnDefault
}.

(** Slots that wait to be read: not freed; a dummy, and the first part of a
    split item, is followed by a whole item or second part. *)
Fixpoint wf_wait (l : list slot) : Prop :=
  match l with
  | [] => True
  | s :: l' =>
      is_free s = false /\
      (is_dummy s || is_split s = true ->
       match l' with s' :: _ => is_dummy s' = false /\ is_split s' = false | [] => False end) /\
      wf_wait l'
  end.

(** The first part of a split item ends at the tail. *)
Fixpoint splits_wrap (head tail a : Z) (l : list slot) : Prop :=
  match l with
  | [] => True
  | s :: l' => (is_split s = true -> next head tail a s = head) /\
               splits_wrap head tail (next head tail a s) l'
  end.

Lemma splits_wrap_app head tail a l1 l2 :
  splits_wrap head tail a (l1 ++ l2) <->
  splits_wrap head tail a l1 /\ splits_wrap head tail (endp head tail a l1) l2.
Proof. revert a. induction l1 as [|s l1 IH]; intros a; simpl; [tauto|]. rewrite IH. tauto. Qed.

Lemma wf_wait_app l1 l2 : wf_wait l1 -> wf_wait l2 -> wf_wait (l1 ++ l2).
Proof.
  induction l1 as [|s l1 IH]; simpl; [done|]. intros (? & H & ?) ?. split_and!; auto.
  intros Hs. specialize (H Hs). by destruct l1.
Qed.

Section WithGeometry.
Context (r : Ringbuffer_t).

Abbreviation chain_ok := (pos_ok (pucHead r) (pucTail r)).
Abbreviation all_geoms := (geoms (pucHead r) (pucTail r)).
Abbreviation all_slots := (slots (pucHead r) (pucTail r)).
Abbreviation rendp := (endp (pucHead r) (pucTail r)).
Abbreviation rused := (used (pucHead r) (pucTail r)).

(** Everything but the full flag, which the code updates last. *)
Record core (held wait : list slot) : Prop := {
  i_geom : rb_geom r;
  i_free : chain_ok (pucFree r);
  i_geoms : all_geoms (pucFree r) (held ++ wait);
  i_slots : all_slots (storage r) (pucFree r) (held ++ wait);
  i_read : pucRead r = rendp (pucFree r) held;
  i_acquire : pucAcquire r = rendp (pucFree r) (held ++ wait);
  i_write : pucWrite r = pucAcquire r;
  i_used : rused (pucFree r) (held ++ wait) <= xSize r;
  i_items : xItemsWaiting r = Z.of_nat (length (items wait));
  i_wait : wf_wait wait;
  i_lens : Forall (fun s => s_len s <= xMaxItemSize r /\ is_u32 (s_flags s)) (held ++ wait);
  i_split : splits_wrap (pucHead r) (pucTail r) (pucRead r) wait
}.

Record inv (held wait : list slot) : Prop := {
  i_core :> core held wait;
  i_full : full r = (rused (pucFree r) (held ++ wait) =? xSize r)
}.
End WithGeometry.

(** The data the reader will get, part by part, each with its split flag. *)
Definition parts (wait : list slot) : list (list Z * bool) :=
  (fun s => (s_data s, is_split s)) <$> items wait.

(** ** Pointer arithmetic under the geometry *)

Section Geometry.
Context (r : Ringbuffer_t) (G : rb_geom r).

Definition in_storage (p : Z) : Prop := pucHead r <= p <= pucTail r.

Lemma ptrdiff_in p q : in_storage p -> in_storage q -> ptrdiff p q = p - q.
Proof. destruct G. unfold in_storage, ptrdiff. intros. apply i32_small. lia. Qed.

Lemma u32_in p : in_storage p -> u32 p = p.
Proof. destruct G. unfold in_storage. intros. apply u32_small. lia. Qed.

Lemma u32_ptrdiff_in p q : in_storage p -> in_storage q -> q <= p -> u32 (ptrdiff p q) = p - q.
Proof.
  intros. rewrite ptrdiff_in by done. destruct G. unfold in_storage in *. apply u32_small. lia.
Qed.

Lemma head_pos_ok : pos_ok (pucHead r) (pucTail r) (pucHead r).
Proof. destruct G. unfold pos_ok. lia. Qed.

Lemma pos_ok_in p : pos_ok (pucHead r) (pucTail r) p -> in_storage p.
Proof. unfold pos_ok, in_storage, rbHEADER_SIZE. lia. Qed.

Lemma in_bounds_ok p : pos_ok (pucHead r) (pucTail r) p -> in_bounds r p = true.
Proof. unfold pos_ok, in_bounds, rbHEADER_SIZE. intros. apply andb_true_iff. split; lia. Qed.

Lemma aligned_ok p : pos_ok (pucHead r) (pucTail r) p -> rbCHECK_ALIGNED p = true.
Proof. unfold pos_ok. intros (_ & _ & E). rewrite rbCHECK_ALIGNED_spec, E. done. Qed.

Lemma tail_mod : pucTail r mod 4 = 0.
Proof. destruct G. rewrite g_tail0. Z.to_euclidean_division_equations. lia. Qed.

Lemma head_tail : pucHead r + rbHEADER_SIZE <= pucTail r.
Proof. destruct G. lia. Qed.

Lemma rb_storage : Storage (pucHead r) (pucTail r).
Proof. split; [apply G|apply tail_mod|apply head_tail]. Qed.

Lemma size_eq : xSize r = pucTail r - pucHead r.
Proof. destruct G. lia. Qed.

(** Moving a pointer over an item, as the code does it. *)
Lemma step_pointer p s :
  geom (pucHead r) (pucTail r) p s -> is_dummy s = false ->
  (if u32 (ptrdiff (pucTail r) (p + slot_size s)) <? rbHEADER_SIZE
   then pucHead r else p + slot_size s) = next (pucHead r) (pucTail r) p s.
Proof.
  intros Gs D. assert (0 <= slot_size s).
  { destruct Gs as (_ & ? & _). unfold slot_size, rbHEADER_SIZE.
    pose proof (align4_bounds (s_len s)). lia. }
  rewrite u32_ptrdiff_in.
  2-4: destruct Gs as (? & ? & ?); destruct G; unfold pos_ok, in_storage in *; lia.
  unfold next, ext. rewrite D. destruct Gs as (? & ? & ?).
  unfold rbHEADER_SIZE in *. repeat (zcase; try lia).
Qed.
End Geometry.

(** The geometry does not depend on the pointers. *)
Ltac keep_geom G := solve [destruct G; split; done].

(** The chain lemmas find the storage area of a buffer by its geometry. *)
Existing Class rb_geom.
#[export] Existing Instance rb_storage.

(** ** Consequences of the invariant *)

Section Invariant.
Context (r : Ringbuffer_t) (held wait : list slot) (I : core r held wait).
Abbreviation head := (pucHead r).
Abbreviation tail := (pucTail r).
#[local] Instance inv_geom : rb_geom r := i_geom _ _ _ I.
Abbreviation G := inv_geom.

Lemma inv_geoms : geoms head tail (pucFree r) held /\ geoms head tail (pucRead r) wait.
Proof. rewrite (i_read _ _ _ I). apply geoms_app, (i_geoms _ _ _ I). Qed.

Lemma inv_slots : slots head tail (storage r) (pucFree r) held /\ slots head tail (storage r) (pucRead r) wait.
Proof. rewrite (i_read _ _ _ I). apply slots_app, (i_slots _ _ _ I). Qed.

Lemma inv_pos_read : pos_ok head tail (pucRead r).
Proof.
  rewrite (i_read _ _ _ I).
  apply endp_ok; first [apply _ | apply I | apply inv_geoms].
Qed.

Lemma inv_pos_acquire : pos_ok head tail (pucAcquire r).
Proof.
  rewrite (i_acquire _ _ _ I).
  apply endp_ok; first [apply _ | apply I].
Qed.

Lemma inv_used_app :
  used head tail (pucFree r) (held ++ wait) =
  used head tail (pucFree r) held + used head tail (pucRead r) wait.
Proof. rewrite used_app. by rewrite (i_read _ _ _ I). Qed.

Lemma inv_used_nonneg :
  0 <= used head tail (pucFree r) held /\ 0 <= used head tail (pucRead r) wait.
Proof.
  pose proof inv_geoms as [].
  split; apply used_nonneg; first [done | apply _].
Qed.

(** Where a chain that starts at the free pointer ends, as a disequality
    [lia] can use. *)
Lemma inv_acquire_cases :
  (pucAcquire r = pucFree r + used head tail (pucFree r) (held ++ wait) /\
     pucFree r + used head tail (pucFree r) (held ++ wait) < tail) \/
  (pucAcquire r = pucFree r + used head tail (pucFree r) (held ++ wait) - xSize r /\
     tail <= pucFree r + used head tail (pucFree r) (held ++ wait)).
Proof.
  rewrite (i_acquire _ _ _ I), (size_eq r G).
  apply endp_used; try first [apply _ | apply I]. rewrite <- (size_eq r G). apply I.
Qed.

Lemma inv_read_cases :
  (pucRead r = pucFree r + used head tail (pucFree r) held /\
     pucFree r + used head tail (pucFree r) held < tail) \/
  (pucRead r = pucFree r + used head tail (pucFree r) held - xSize r /\
     tail <= pucFree r + used head tail (pucFree r) held).
Proof.
  pose proof inv_used_app. pose proof inv_used_nonneg. pose proof (i_used _ _ _ I).
  pose proof inv_geoms as [].
  rewrite (i_read _ _ _ I), (size_eq r G). apply endp_used; try first [done | apply _ | apply I].
  rewrite <- (size_eq r G). lia.
Qed.

Lemma items_used a l : geoms head tail a l -> rbHEADER_SIZE * Z.of_nat (length l) <= used head tail a l.
Proof.
  revert a. induction l as [|s l IH]; intros a; [simpl; lia|]. intros [Gs Gl]. cbn [used length].
  specialize (IH _ Gl).
  pose proof (ext_bounds head tail a s Gs) as (_ & _ & ?).
  unfold rbHEADER_SIZE in *. lia.
Qed.

Lemma items_length l : (length (items l) <= length l)%nat.
Proof. apply List.filter_length_le. Qed.

Lemma inv_items_range : 0 <= xItemsWaiting r < 2 ^ 28.
Proof.
  rewrite (i_items _ _ _ I). pose proof (items_length wait).
  pose proof (items_used _ _ (proj2 inv_geoms)).
  pose proof inv_used_app. pose proof inv_used_nonneg. pose proof (i_used _ _ _ I).
  pose proof (g_size_max r G). unfold rbHEADER_SIZE in *. lia.
Qed.

Lemma wf_wait_items : wf_wait wait -> wait <> [] -> items wait <> [].
Proof.
  destruct wait as [|s l]; [done|]. intros (_ & H & _) _.
  unfold items, nondummy. simpl. destruct (is_dummy s) eqn:D; simpl; [|done].
  destruct l as [|s' l]; simpl in H; [tauto|]. destruct H as [H _]; [done|]. simpl. by rewrite H.
Qed.

(** An item is available exactly when the ghost queue is non-empty. *)
Lemma avail_spec (F : inv r held wait) : prvCheckItemAvail r = negb (bool_decide (wait = [])).
Proof.
  unfold prvCheckItemAvail. rewrite (g_byte r G). cbn [andb].
  unfold items_to_read. fold (full r). rewrite (i_full _ _ _ F), (i_write _ _ _ I), (i_items _ _ _ I).
  pose proof inv_used_app as U. pose proof inv_used_nonneg. pose proof (i_used _ _ _ I).
  destruct (bool_decide_reflect (wait = [])) as [->|Hne]; [done|].
  assert (0 < Z.of_nat (length (items wait))).
  { pose proof (wf_wait_items (i_wait _ _ _ I) Hne). destruct (items wait); simpl; [done|lia]. }
  replace (0 <? _) with true by (symmetry; apply Z.ltb_lt; lia). cbn [andb negb].
  pose proof inv_acquire_cases. pose proof inv_read_cases.
  assert (rbHEADER_SIZE <= used head tail (pucRead r) wait).
  { apply used_pos; [apply inv_geoms|done]. }
  pose proof (i_free _ _ _ I) as (? & ? & ?). unfold rbHEADER_SIZE in *.
  pose proof (g_tail r G).
  destruct (Z.eqb_spec (pucRead r) (pucAcquire r)); simpl; [|done]. apply Z.eqb_eq. lia.
Qed.
End Invariant.

(** ** Retrieving an item *)

(** Reading the header of a slot, and the step of a pointer over an item as
    the three loops and [prvGetItemDefault] compute it. *)
Lemma holds_len head tail m a s : holds m a s -> geom head tail a s -> hdr_len m a = s_len s.
Proof. by intros []. Qed.

Lemma aligned_len r s p : rb_geom r -> geom (pucHead r) (pucTail r) p s ->
  rbALIGN_SIZE (s_len s) = align4 (s_len s) /\
  u32 (rbHEADER_SIZE + align4 (s_len s)) = slot_size s /\
  u32 (align4 (s_len s) + rbHEADER_SIZE) = slot_size s /\
  u32 (p + slot_size s) = p + slot_size s /\ u32 (p + rbHEADER_SIZE) = p + rbHEADER_SIZE.
Proof.
  intros G (P & L & E). destruct G. unfold pos_ok, slot_size, rbHEADER_SIZE in *.
  pose proof (align4_bounds (s_len s)).
  rewrite rbALIGN_SIZE_spec by lia. split_and!; rewrite ?u32_small; lia.
Qed.

(** The invariant after the slots [pre ++ [s]] moved from [wait] to [held]. *)
Lemma inv_retrieve r held pre s rest :
  inv r held (pre ++ s :: rest) -> items pre = [] -> is_dummy s = false ->
  inv (set_read (endp (pucHead r) (pucTail r) (pucFree r) (held ++ pre ++ [s]))
         (set_items (i32 (xItemsWaiting r - 1)) r)) (held ++ pre ++ [s]) rest.
Proof.
  intros I Hpre Hs.
  assert (E : (held ++ pre ++ [s]) ++ rest = held ++ pre ++ s :: rest) by (by rewrite <- !app_assoc).
  pose proof (inv_items_range _ _ _ I).
  assert (N : xItemsWaiting r = 1 + Z.of_nat (length (items rest))).
  { rewrite (i_items _ _ _ I). unfold items in *. rewrite List.filter_app, Hpre. simpl.
    unfold nondummy at 1. rewrite Hs. simpl. lia. }
  destruct I as [[] If]. split; [split|]; rbsimpl; rewrite ?E; try done.
  - keep_geom i_geom0.
  - rewrite N. rewrite i32_small; lia.
  - clear -i_wait0. induction pre as [|p pre IH]; simpl in *; [apply i_wait0|].
    apply IH. apply i_wait0.
  - rewrite endp_app, <- i_read0. apply splits_wrap_app in i_split0 as [_ [_ Hr]].
    by rewrite endp_app.
Qed.

Lemma get_item_here_spec r s :
  rb_geom r -> geom (pucHead r) (pucTail r) (pucRead r) s -> holds (storage r) (pucRead r) s ->
  is_dummy s = false ->
  get_item_here r =
    Some (set_read (next (pucHead r) (pucTail r) (pucRead r) s)
            (set_items (i32 (xItemsWaiting r - 1)) r),
          pucRead r + rbHEADER_SIZE, is_split s, s_len s).
Proof.
  intros G Gs (Hl & Hf & _) Hd. unfold get_item_here, no_room_for_header. rbsimpl. rewrite Hl, Hf.
  destruct (aligned_len r s _ G Gs) as (-> & -> & _ & -> & ->).
  rewrite <- (step_pointer r G _ _ Gs Hd).
  assert ((if s_len s =? 0 then _ else _) = true) as ->.
  { destruct Gs as (P & Ls & E). pose proof (align4_bounds (s_len s)).
    unfold pos_ok, slot_size, rbHEADER_SIZE in *. zcase; apply andb_true_iff; split; lia. }
  by destruct (_ <? _).
Qed.

Lemma get_item_spec r held pre s rest :
  inv r held (pre ++ s :: rest) -> is_dummy s = false ->
  (pre = [] \/ exists d, pre = [d] /\ is_dummy d = true) ->
  exists r',
    prvGetItemDefault r =
      Some (r', endp (pucHead r) (pucTail r) (pucFree r) (held ++ pre) + rbHEADER_SIZE,
            is_split s, s_len s) /\
    inv r' (held ++ pre ++ [s]) rest /\
    r' = set_read (pucRead r') (set_items (xItemsWaiting r') r).
Proof.
  intros I Hs Hpre. pose proof (i_geom _ _ _ I) as G.
  assert (Hip : items pre = []).
  { destruct Hpre as [->|(d & -> & Hd)]; [done|]. unfold items, nondummy. simpl. by rewrite Hd. }
  eexists. split; [|split; [by apply inv_retrieve|by split]].
  assert (Hav : items_to_read r = true).
  { pose proof (avail_spec _ _ _ I I) as A. unfold prvCheckItemAvail in A.
    rewrite (g_byte r G) in A. simpl in A. rewrite A. apply negb_true_iff, bool_decide_eq_false.
    by destruct pre. }
  pose proof (inv_pos_read _ _ _ I) as Pr. pose proof (i_read _ _ _ I) as Er.
  destruct (inv_geoms _ _ _ I) as [_ Gw]. destruct (inv_slots _ _ _ I) as [_ Sw].
  assert (L : s_len s <= xMaxItemSize r).
  { pose proof (i_lens _ _ _ I) as F. rewrite Forall_forall in F.
    apply (F s), List.in_or_app. right. apply List.in_elt. }
  unfold prvGetItemDefault. rewrite Hav, (aligned_ok _ _ Pr), (in_bounds_ok _ _ Pr).
  rewrite !endp_app, <- Er.
  destruct Hpre as [->|(d & -> & Hd)]; simpl in Gw, Sw |- *.
  - destruct Gw as [Gs _], Sw as [Ss _]. pose proof Ss as (Hl & Hf & _).
    rewrite Hl, Hf. fold (is_dummy s). rewrite Hs.
    replace (_ <=? _) with true by (symmetry; apply Z.leb_le; done).
    simpl. by rewrite (get_item_here_spec r s).
  - destruct Gw as [Gd [Gs _]], Sw as [(_ & Hfd & _) [Ss _]]. pose proof Ss as (Hl & Hf & _).
    assert (N : next (pucHead r) (pucTail r) (pucRead r) d = pucHead r).
    { unfold next, ext. rewrite Hd. zcase; lia. }
    rewrite N in *. rewrite Hfd. fold (is_dummy d). rewrite Hd, orb_true_r. rbsimpl. rewrite Hl.
    replace (_ <=? _) with true by (symmetry; apply Z.leb_le; done).
    rewrite (get_item_here_spec (set_read (pucHead r) r) s); rbsimpl; try done.
    by destruct G.
Qed.

(** ** Returning an item *)

(** The slots that remain once freed items and dummies at the front are gone. *)
Fixpoint drop_free (l : list slot) : list slot :=
  match l with
  | s :: l' => if is_free s || is_dummy s then drop_free l' else l
  | [] => []
  end.

Lemma holds_set_flags head tail m a s fl :
  geom head tail a s -> is_u32 fl -> holds m a s ->
  holds (set_hdr_flags m a fl) a (mkSlot (s_len s) fl (s_data s)) /\
  same_but a (a + rbHEADER_SIZE) m (set_hdr_flags m a fl).
Proof.
  intros Gs Hfl (Hl & Hf & Hd). unfold set_hdr_flags, holds, hdr_len, hdr_flags, rbHEADER_SIZE in *.
  split; [split_and!|]; cbn [s_len s_flags s_data].
  - rewrite load32_store32_other by lia. done.
  - by apply load32_store32_same.
  - rewrite <- Hd. apply read_bytes_agree, store32_agree. lia.
  - intros x Hx. apply store32_other. lia.
Qed.

Lemma same_but_wider lo hi hi' m m' : same_but lo hi m m' -> hi <= hi' -> same_but lo hi' m m'.
Proof. intros H ? x Hx. apply H. lia. Qed.

(** Marking the header of a held item as free. *)
Lemma core_mark r h1 s h2 wait :
  core r (h1 ++ s :: h2) wait ->
  core (set_storage (set_hdr_flags (storage r) (endp (pucHead r) (pucTail r) (pucFree r) h1)
                       (s_flags (freed s))) r) (h1 ++ freed s :: h2) wait.
Proof.
  intros I. pose proof (i_geom _ _ _ I) as G.
  destruct (freed_flags s) as (_ & Hdm & _). assert (Hl : s_len (freed s) = s_len s) by done.
  assert (Hg : geom (pucHead r) (pucTail r) (endp (pucHead r) (pucTail r) (pucFree r) h1) s
    /\ holds (storage r) (endp (pucHead r) (pucTail r) (pucFree r) h1) s /\ is_u32 (s_flags s)).
  { pose proof (i_geoms _ _ _ I) as A. pose proof (i_slots _ _ _ I) as B. pose proof (i_lens _ _ _ I) as C.
    rewrite <- app_assoc in A, B, C. apply geoms_app in A as [_ [A _]]. apply slots_app in B as [_ [B _]].
    apply Forall_app in C as [_ C]. apply Forall_cons_iff in C as [[_ C] _]. done. }
  destruct Hg as (Hg & Hh & Hu).
  destruct (holds_set_flags _ _ _ _ _ _ Hg (freed_u32 s Hu) Hh) as [Hh' Hsame].
  destruct I. rewrite <- app_assoc in *. split; rbsimpl; rewrite <- ?app_assoc; simpl in *.
  - keep_geom G.
  - done.
  - by apply (geoms_same _ _ s).
  - apply (slots_update _ _ (storage r) _ _ _ s);
      try first [done | apply _ | by apply ext_same | by rewrite <- (size_eq r G)].
    eapply same_but_wider; [exact Hsame|]. pose proof (ext_bounds _ _ _ _ Hg). lia.
  - by rewrite (endp_same _ _ s).
  - by rewrite (endp_same _ _ s).
  - done.
  - by rewrite (used_same _ _ s).
  - done.
  - done.
  - apply Forall_app in i_lens0 as [L1 L2]. apply Forall_cons_iff in L2 as [[L2 L3] L4].
    apply Forall_app. split; [done|]. apply Forall_cons_iff. split; [split; [done|by apply freed_u32]|done].
  - done.
Qed.

(** Dropping the first held slot, and setting the flags of a dropped dummy. *)
Lemma core_drop r s held wait :
  core r (s :: held) wait ->
  core (set_free (next (pucHead r) (pucTail r) (pucFree r) s) r) held wait.
Proof.
  intros I. pose proof (i_geom _ _ _ I) as G. pose proof (i_geoms _ _ _ I) as [Gs Gl].
  pose proof (next_ok _ _ _ _ Gs).
  pose proof (ext_bounds _ _ _ _ Gs) as (_ & _ & ?). unfold rbHEADER_SIZE in *.
  destruct I; simpl in *; split; rbsimpl; try done.
  - keep_geom G.
  - apply i_slots0.
  - lia.
  - by apply Forall_cons_iff in i_lens0 as [_ ?].
Qed.

Lemma core_drop_dummy r d held wait fl :
  core r (d :: held) wait -> is_u32 fl ->
  core (set_free (next (pucHead r) (pucTail r) (pucFree r) d)
          (set_storage (set_hdr_flags (storage r) (pucFree r) fl) r)) held wait.
Proof.
  intros I Hfl. pose proof (i_geom _ _ _ I) as G. pose proof (i_geoms _ _ _ I) as [Gs Gl].
  pose proof (i_slots _ _ _ I) as [Hd Hs].
  destruct (holds_set_flags _ _ _ _ _ _ Gs Hfl Hd) as [_ Hsame].
  pose proof (ext_bounds _ _ _ _ Gs) as (_ & _ & ?).
  assert (F := slots_frame (pucHead r) (pucTail r)
    (storage r) (set_hdr_flags (storage r) (pucFree r) fl) (pucFree r) [] d (held ++ wait)
    (i_free _ _ _ I) (i_geoms _ _ _ I)).
  simpl in F. rewrite <- (size_eq r G) in F. specialize (F (i_used _ _ _ I)).
  destruct F as [_ F]; [eapply same_but_wider; [exact Hsame|lia]|].
  pose proof (core_drop _ _ _ _ I) as J. destruct J; split; rbsimpl; try done.
  - keep_geom G.
  - by apply F.
Qed.

(** The loop that moves the free pointer. *)
Lemma advance_free_step r s held wait fuel :
  core r (s :: held) wait -> is_free s || is_dummy s = true -> pucFree r <> pucRead r ->
  exists r',
    advance_free (S fuel) r = advance_free fuel r' /\ core r' held wait /\
    pucFree r' = next (pucHead r) (pucTail r) (pucFree r) s /\
    r' = set_free (pucFree r') (set_storage (storage r') r).
Proof.
  intros I Hfd Hne. pose proof (i_geom _ _ _ I) as G. pose proof (i_geoms _ _ _ I) as [Gs Gl].
  pose proof (i_slots _ _ _ I) as [(Hl & Hf & _) _].
  assert (Hu : is_u32 (s_flags s)) by (pose proof (i_lens _ _ _ I) as L;
    apply Forall_cons_iff in L as [[_ ?] _]; done).
  cbn [advance_free]. rewrite Hf, Hl. fold (is_free s) (is_dummy s). rewrite Hfd.
  replace (pucFree r =? pucRead r) with false by (symmetry; apply Z.eqb_neq; done).
  cbn [negb andb]. destruct (is_dummy s) eqn:Hd.
  - eexists. split; [|split; [apply (core_drop_dummy _ _ _ _
      (flag_set (s_flags s) rbITEM_FREE_FLAG) I)|by split]].
    + f_equal. unfold no_room_for_header, next, ext. rewrite Hd. rbsimpl.
      replace (pucFree r + (pucTail r - pucFree r)) with (pucTail r) by lia. rewrite Z.eqb_refl.
      by destruct (_ <? _).
    + apply (flag_set_range _ 0); [done|lia].
  - destruct (aligned_len r s _ G Gs) as (-> & _ & -> & -> & _).
    eexists. split; [|split; [apply (core_drop _ _ _ _ I)|by split]].
    unfold no_room_for_header. rbsimpl.
    replace (pucFree r + slot_size s <=? u32 (pucHead r + xSize r)) with true; cycle 1.
    { symmetry. apply Z.leb_le. destruct G, Gs as (? & ? & ?). rewrite u32_small; rlia. }
    rewrite <- (step_pointer r G _ _ Gs Hd). by destruct (_ <? _).
Qed.

Lemma advance_free_stop r fuel :
  pucFree r = pucRead r \/
    (exists s held wait, core r (s :: held) wait /\ is_free s || is_dummy s = false) ->
  advance_free (S fuel) r = Some r.
Proof.
  intros [E|(s & held & wait & I & Hfd)]; cbn [advance_free].
  - rewrite E, Z.eqb_refl, andb_false_r. done.
  - pose proof (i_slots _ _ _ I) as [(_ & Hf & _) _]. rewrite Hf.
    fold (is_free s) (is_dummy s). by rewrite Hfd.
Qed.

(** The free pointer differs from the read pointer unless nothing, or the
    whole storage, is held. *)
Lemma free_ne_read r held wait :
  core r held wait -> held <> [] ->
  used (pucHead r) (pucTail r) (pucFree r) held < xSize r -> pucFree r <> pucRead r.
Proof.
  intros I Hne Hu. pose proof (inv_read_cases _ _ _ I). pose proof (i_geom _ _ _ I).
  assert (rbHEADER_SIZE <= used (pucHead r) (pucTail r) (pucFree r) held)
    by (apply used_pos; [apply (inv_geoms _ _ _ I)|done]).
  unfold rbHEADER_SIZE in *. lia.
Qed.

(** The items of a chain that the application still uses: address of the
    payload and contents. *)
Fixpoint outstanding (head tail a : Z) (l : list slot) : list (Z * list Z) :=
  match l with
  | [] => []
  | s :: l =>
      (if is_free s || is_dummy s then [] else [(a + rbHEADER_SIZE, s_data s)])
      ++ outstanding head tail (next head tail a s) l
  end.

Lemma outstanding_app head tail a l1 l2 :
  outstanding head tail a (l1 ++ l2) =
  outstanding head tail a l1 ++ outstanding head tail (endp head tail a l1) l2.
Proof.
  revert a. induction l1 as [|s l1 IH]; intros a; simpl; [done|]. by rewrite IH, app_assoc.
Qed.

Lemma outstanding_none head tail a l : drop_free l = [] -> outstanding head tail a l = [].
Proof.
  revert a. induction l as [|s l IH]; intros a; simpl; [done|].
  destruct (is_free s || is_dummy s); [|done]. intros H. by rewrite IH.
Qed.

Lemma none_outstanding head tail a l : outstanding head tail a l = [] -> drop_free l = [].
Proof.
  revert a. induction l as [|s l IH]; intros a; simpl; [done|].
  destruct (is_free s || is_dummy s); [|done]. simpl. apply IH.
Qed.

Lemma advance_free_spec fuel r held wait :
  core r held wait -> used (pucHead r) (pucTail r) (pucFree r) held < xSize r ->
  (length held < fuel)%nat ->
  exists r',
    advance_free fuel r = Some r' /\ core r' (drop_free held) wait /\
    outstanding (pucHead r) (pucTail r) (pucFree r') (drop_free held) =
      outstanding (pucHead r) (pucTail r) (pucFree r) held /\
    (drop_free held = held /\ r' = r \/
     used (pucHead r) (pucTail r) (pucFree r') (drop_free held ++ wait) <
     used (pucHead r) (pucTail r) (pucFree r) (held ++ wait)) /\
    r' = set_free (pucFree r') (set_storage (storage r') r).
Proof.
  revert r held. induction fuel as [|fuel IH]; intros r held I Hu Hfuel; [lia|].
  destruct held as [|s held]; simpl drop_free.
  { exists r. split_and!; try done; [|by left|by destruct r].
    apply advance_free_stop. left. symmetry. apply (i_read _ _ _ I). }
  destruct (is_free s || is_dummy s) eqn:Hfd; cycle 1.
  { exists r. split_and!; try done; [|by left|by destruct r].
    apply advance_free_stop. right. eauto. }
  destruct (advance_free_step r s held wait fuel I Hfd) as (r1 & -> & I1 & Ef & E1).
  { by apply (free_ne_read _ _ _ I). }
  pose proof (i_geoms _ _ _ I) as [Gs Gl]. pose proof (ext_bounds _ _ _ _ Gs) as (_ & _ & ?).
  assert (Hh : pucHead r1 = pucHead r /\ pucTail r1 = pucTail r /\ xSize r1 = xSize r)
    by (rewrite E1; done).
  destruct Hh as (Eh & Et & Es). simpl in Hu.
  destruct (IH r1 held I1) as (r2 & -> & I2 & O & D & E2).
  { rewrite Eh, Et, Es, Ef. unfold rbHEADER_SIZE in *. lia. }
  { simpl in Hfuel. lia. }
  exists r2. split_and!; try done.
  - simpl. rewrite Hfd. by rewrite Eh, Et, Ef in O.
  - right. cbn [used app]. rewrite Eh, Et, Ef in D. unfold rbHEADER_SIZE in *.
    destruct D as [[-> ->]|D]; [rewrite Ef|]; lia.
  - rewrite E2, E1. done.
Qed.

(** ** The full flag *)

Lemma rb_flag_bits :
  rbALLOW_SPLIT_FLAG = 2 ^ 0 /\ rbBYTE_BUFFER_FLAG = 2 ^ 1 /\ rbBUFFER_FULL_FLAG = 2 ^ 2.
Proof. done. Qed.

Lemma full_set r : full (rb_set_flag rbBUFFER_FULL_FLAG r) = true.
Proof.
  unfold full, rb_flag, rb_set_flag. rbsimpl. destruct rb_flag_bits as (_ & _ & ->).
  by rewrite flag_test_set by lia.
Qed.

Lemma full_clear r : full (rb_clear_flag rbBUFFER_FULL_FLAG r) = false.
Proof.
  unfold full, rb_flag, rb_clear_flag. rbsimpl. destruct rb_flag_bits as (_ & _ & ->).
  by rewrite flag_test_clear by lia.
Qed.

Lemma geom_flags r f :
  flag_test f rbALLOW_SPLIT_FLAG = rb_flag r rbALLOW_SPLIT_FLAG ->
  flag_test f rbBYTE_BUFFER_FLAG = rb_flag r rbBYTE_BUFFER_FLAG ->
  rb_geom r -> rb_geom (set_flags f r).
Proof.
  intros Ha Hb G. destruct G. split; rbsimpl; try done.
  - unfold rb_flag in *. rbsimpl. congruence.
  - unfold rb_flag in *. rbsimpl. rewrite Ha. done.
Qed.

Lemma geom_set_full r : rb_geom r -> rb_geom (rb_set_flag rbBUFFER_FULL_FLAG r).
Proof.
  destruct rb_flag_bits as (Ea & Eb & Ef). unfold rb_flag. apply geom_flags; unfold rb_flag;
  rewrite ?Ea, ?Eb, Ef, flag_test_set by lia; done.
Qed.

Lemma geom_clear_full r : rb_geom r -> rb_geom (rb_clear_flag rbBUFFER_FULL_FLAG r).
Proof.
  destruct rb_flag_bits as (Ea & Eb & Ef). apply geom_flags; unfold rb_flag;
  rewrite ?Ea, ?Eb, Ef, flag_test_clear by lia; done.
Qed.

Lemma core_flags r f held wait :
  rb_geom (set_flags f r) -> core r held wait -> core (set_flags f r) held wait.
Proof. intros G I. destruct I; split; rbsimpl; done. Qed.

(** ** Returning an item *)

Lemma held_length r held wait : core r held wait -> (length held < loop_fuel r)%nat.
Proof.
  intros I. pose proof (items_used _ _ _ (proj1 (inv_geoms _ _ _ I))).
  pose proof (inv_used_app _ _ _ I). pose proof (inv_used_nonneg _ _ _ I). pose proof (i_used _ _ _ I).
  unfold loop_fuel, rbHEADER_SIZE in *. Z.to_euclidean_division_equations. lia.
Qed.

Lemma drop_free_app_nil l1 l2 : drop_free (l1 ++ l2) = [] -> drop_free l2 = [].
Proof.
  induction l1 as [|s l1 IH]; simpl; [done|]. destruct (_ || _); [done|discriminate].
Qed.

(** The last lines of [prvReturnItemDefault]: the full flag is reset when the
    free pointer moved, or when everything was freed in one go. *)
Definition reset_full (r : Ringbuffer_t) : Ringbuffer_t :=
  if rb_flag r rbBUFFER_FULL_FLAG then
    if negb (pucFree r =? pucAcquire r) then rb_clear_flag rbBUFFER_FULL_FLAG r
    else if (pucFree r =? pucAcquire r) && (pucFree r =? pucRead r)
    then rb_clear_flag rbBUFFER_FULL_FLAG r
    else r
  else r.

Lemma reset_full_free r : pucFree (reset_full r) = pucFree r.
Proof. unfold reset_full. by repeat case_match. Qed.

(** The flag is right after [reset_full] when the buffer was marked full
    before and slots were dropped, or when nothing was dropped. *)
Lemma reset_full_inv r held wait :
  core r held wait ->
  (full r = (used (pucHead r) (pucTail r) (pucFree r) (held ++ wait) =? xSize r) /\
     (held <> [] -> used (pucHead r) (pucTail r) (pucFree r) held < xSize r) /\ (full r = true -> held <> [])) \/
  (used (pucHead r) (pucTail r) (pucFree r) (held ++ wait) < xSize r /\
     (full r = true -> held ++ wait <> [])) ->
  inv (reset_full r) held wait.
Proof.
  intros I H. pose proof (i_geom _ _ _ I) as G.
  pose proof (inv_acquire_cases _ _ _ I). pose proof (inv_read_cases _ _ _ I).
  pose proof (inv_used_app _ _ _ I). pose proof (inv_used_nonneg _ _ _ I).
  pose proof (i_used _ _ _ I). pose proof (i_free _ _ _ I) as (? & ? & ?). pose proof (size_eq r G).
  assert (N : held ++ wait <> [] ->
    rbHEADER_SIZE <= used (pucHead r) (pucTail r) (pucFree r) (held ++ wait))
    by (apply used_pos, (i_geoms _ _ _ I)).
  assert (C : used (pucHead r) (pucTail r) (pucFree r) (held ++ wait) < xSize r ->
    inv (rb_clear_flag rbBUFFER_FULL_FLAG r) held wait).
  { intros Hlt. split; [by apply core_flags; [apply geom_clear_full|]|].
    rewrite full_clear. symmetry. apply Z.eqb_neq. unfold rb_clear_flag. rbsimpl. lia. }
  unfold reset_full. fold (full r). destruct (full r) eqn:Hf.
  - destruct H as [(Hu & Hlt & Hne)|[Hlt Hne]].
    + symmetry in Hu. apply Z.eqb_eq in Hu. pose proof (free_ne_read _ _ _ I (Hne eq_refl) (Hlt (Hne eq_refl))).
      replace (pucFree r =? pucAcquire r) with true by (symmetry; apply Z.eqb_eq; lia).
      replace (pucFree r =? pucRead r) with false by (symmetry; apply Z.eqb_neq; done).
      simpl. split; [done|]. rewrite Hf. symmetry. by apply Z.eqb_eq.
    + specialize (N (Hne eq_refl)).
      replace (pucFree r =? pucAcquire r) with false by (symmetry; apply Z.eqb_neq; rlia).
      simpl. by apply C.
  - split; [done|]. rewrite Hf. symmetry. apply Z.eqb_neq.
    destruct H as [[Hu _]|[Hlt _]]; [|lia]. by symmetry in Hu; apply Z.eqb_neq in Hu.
Qed.

(** The slot at a given place of the held slots. *)
Lemma held_slot r h1 s h2 wait :
  core r (h1 ++ s :: h2) wait ->
  geom (pucHead r) (pucTail r) (endp (pucHead r) (pucTail r) (pucFree r) h1) s /\
  holds (storage r) (endp (pucHead r) (pucTail r) (pucFree r) h1) s /\
  s_len s <= xMaxItemSize r /\ is_u32 (s_flags s).
Proof.
  intros I. pose proof (i_geoms _ _ _ I) as A. pose proof (i_slots _ _ _ I) as B.
  pose proof (i_lens _ _ _ I) as C.
  rewrite <- app_assoc in A, B, C. apply geoms_app in A as [_ [A _]]. apply slots_app in B as [_ [B _]].
  apply Forall_app in C as [_ C]. by apply Forall_cons_iff in C as [C _].
Qed.

(** The assertions of [prvReturnItemDefault] hold for an outstanding item. *)
Lemma return_item_asserts r h1 s h2 wait :
  let p := endp (pucHead r) (pucTail r) (pucFree r) h1 in
  let r1 := set_storage (set_hdr_flags (storage r) p (s_flags (freed s))) r in
  core r (h1 ++ s :: h2) wait -> is_dummy s = false -> is_free s = false ->
  prvReturnItemDefault r (p + rbHEADER_SIZE) =
    (do* r2 <- advance_free (loop_fuel r1) r1; Some (reset_full r2)).
Proof.
  intros p r1 I Hd Hnf. destruct (held_slot _ _ _ _ _ I) as (Hg & (Hl & Hf & _) & Hmax & _).
  fold p in Hg, Hl, Hf. unfold prvReturnItemDefault.
  destruct Hg as (P & Hs & E). pose proof (align4_bounds (s_len s)). destruct (i_geom _ _ _ I).
  unfold pos_ok, slot_size in *.
  assert (u32 (p + rbHEADER_SIZE - rbHEADER_SIZE) = p) as -> by (rewrite u32_small; rlia).
  rewrite Hl, Hf. fold (is_dummy s) (is_free s). rewrite Hd, Hnf.
  replace (rbCHECK_ALIGNED (p + rbHEADER_SIZE)) with true; cycle 1.
  { rewrite rbCHECK_ALIGNED_spec. symmetry. apply Z.eqb_eq. unfold rbHEADER_SIZE in *.
    Z.to_euclidean_division_equations. lia. }
  replace (pucHead r <=? p + rbHEADER_SIZE) with true by (symmetry; apply Z.leb_le; rlia).
  replace (p + rbHEADER_SIZE <=? pucTail r) with true by (symmetry; apply Z.leb_le; rlia).
  replace (s_len s <=? xMaxItemSize r) with true by (symmetry; apply Z.leb_le; lia).
  done.
Qed.

(** When the held slots fill the storage, nothing waits and all pointers meet. *)
Lemma all_held r held wait :
  core r held wait -> xSize r <= used (pucHead r) (pucTail r) (pucFree r) held ->
  wait = [] /\ pucRead r = pucFree r /\ pucAcquire r = pucFree r /\ core r [] [].
Proof.
  intros I Hge. pose proof (i_geom _ _ _ I) as G. pose proof (inv_used_nonneg _ _ _ I).
  pose proof (inv_used_app _ _ _ I). pose proof (i_used _ _ _ I).
  pose proof (inv_read_cases _ _ _ I). pose proof (i_free _ _ _ I) as (? & ? & ?). pose proof (size_eq r G).
  assert (wait = []) as ->.
  { destruct (decide (wait = [])) as [|Hne]; [done|].
    assert (rbHEADER_SIZE <= used (pucHead r) (pucTail r) (pucRead r) wait)
      by (apply used_pos; [apply (inv_geoms _ _ _ I)|done]). rlia. }
  assert (pucRead r = pucFree r) by rlia.
  assert (pucAcquire r = pucFree r).
  { rewrite (i_acquire _ _ _ I), app_nil_r, <- (i_read _ _ _ I). done. }
  pose proof (g_size_min r G). split_and!; try done. destruct I.
  split; simpl; try done. rlia.
Qed.

Lemma return_item_spec r h1 s h2 wait :
  inv r (h1 ++ s :: h2) wait -> is_dummy s = false -> is_free s = false ->
  used (pucHead r) (pucTail r) (pucFree r) (h1 ++ s :: h2) < xSize r \/
    drop_free (h1 ++ freed s :: h2) = [] ->
  exists r',
    prvReturnItemDefault r (endp (pucHead r) (pucTail r) (pucFree r) h1 + rbHEADER_SIZE) = Some r' /\
    inv r' (drop_free (h1 ++ freed s :: h2)) wait /\
    outstanding (pucHead r) (pucTail r) (pucFree r') (drop_free (h1 ++ freed s :: h2)) =
      outstanding (pucHead r) (pucTail r) (pucFree r) (h1 ++ freed s :: h2).
Proof.
  intros I Hd Hnf Hcase. rewrite (return_item_asserts _ _ _ _ _ I Hd Hnf).
  pose proof (core_mark _ _ _ _ _ I) as I1. revert I1.
  set (r1 := set_storage _ r). intros I1.
  assert (Hu1 : forall l, used (pucHead r) (pucTail r) (pucFree r) (h1 ++ freed s :: l) =
    used (pucHead r) (pucTail r) (pucFree r) (h1 ++ s :: l)).
  { intros l. apply used_same; [done|]. apply freed_flags. }
  pose proof (i_full _ _ _ I) as Hfull. rewrite <- app_assoc in Hfull. simpl in Hfull.
  rewrite <- Hu1 in Hfull.
  destruct (decide (used (pucHead r) (pucTail r) (pucFree r) (h1 ++ s :: h2) < xSize r)) as [Hlt|Hge].
  - destruct (advance_free_spec (loop_fuel r1) r1 _ _ I1) as (r2 & -> & I2 & O & D & E2).
    { subst r1. rbsimpl. by rewrite Hu1. }
    { by apply (held_length _ _ _ I1). }
    eexists. split; [done|]. rewrite reset_full_free. split; [|done]. apply reset_full_inv; [done|].
    assert (Hfix : full r2 = full r /\ pucHead r2 = pucHead r /\ pucTail r2 = pucTail r /\ xSize r2 = xSize r)
      by (rewrite E2; done).
    destruct Hfix as (Ef & Eh & Et & Es). rewrite Ef, Eh, Et, Es.
    pose proof (i_used _ _ _ I1) as Hle. subst r1. rbsimpl. rewrite <- app_assoc in D, Hle. simpl in D, Hle.
    destruct D as [[Dn ->]|D].
    + left. rbsimpl. rewrite Dn, <- app_assoc. simpl.
      split_and!; [done|intros _; by rewrite Hu1|by destruct h1].
    + right. split; [lia|]. intros Hfl En. apply app_eq_nil in En as [_ Ew].
      rewrite Hfull, Ew, app_nil_r, Hu1 in Hfl. apply Z.eqb_eq in Hfl. lia.
  - destruct Hcase as [?|Hall]; [lia|]. rewrite Hall.
    destruct (all_held r1 _ _ I1) as (-> & Er & Ea & I2).
    { subst r1. rbsimpl. rewrite Hu1. lia. }
    assert (Hft : full r = true).
    { rewrite Hfull. apply Z.eqb_eq. pose proof (i_used _ _ _ I).
      rewrite Hu1, !app_nil_r in *. lia. }
    unfold loop_fuel. rewrite advance_free_stop by (by left). eexists. split; [done|].
    split; [|by rewrite (outstanding_none _ _ _ _ Hall)].
    unfold reset_full. change (rb_flag r1 rbBUFFER_FULL_FLAG) with (full r).
    rewrite Hft, Ea, Er, Z.eqb_refl. simpl.
    pose proof (i_geom _ _ _ I2) as G1. pose proof (g_size_min _ G1).
    split; [by apply core_flags; [apply geom_clear_full|]|]. rewrite full_clear. symmetry.
    apply Z.eqb_neq. change (0 <> xSize r1). rlia.
Qed.
