(* ===== verification/RingbufSend.v ===== *)
(** * Sending to no-split and allow-split ring buffers

    When [prvCheckItemFitsDefault] answers yes, the copy functions write the
    item without failing an assertion, inside the free part of the storage,
    and the item (or its two parts) joins the end of the queue. *)

From S2P Require Import Prelude CMem Ringbuf RingbufChain RingbufItems.

(** ** There is room for an item that fits *)

Section Room.
Context (r : Ringbuffer_t) (held wait : list slot) (I : inv r held wait).
#[local] Instance room_geom : rb_geom r := i_geom _ _ _ I.
Abbreviation head := (pucHead r).
Abbreviation tail := (pucTail r).
Abbreviation a := (pucAcquire r).
Abbreviation u := (used (pucHead r) (pucTail r) (pucFree r) (held ++ wait)).
Lemma max_lt_size : xMaxItemSize r + rbHEADER_SIZE <= xSize r.
Proof.
  pose proof (g_type _ room_geom) as T. pose proof (g_size _ room_geom).
  pose proof (g_size_min _ room_geom). destruct (vCopyItem r); [|rlia|done].
  destruct T as (E & _). unfold align4, rbHEADER_SIZE in *.
  Z.to_euclidean_division_equations. lia.
Qed.

Context (n : Z) (Hn : 0 <= n <= xMaxItemSize r).
Abbreviation total := (rbHEADER_SIZE + align4 n).

(** The facts about the pointers every case below needs. *)
Lemma room_facts :
  u <= xSize r /\ 0 <= u /\ xSize r = tail - head /\ xSize r < 2 ^ 31 /\
  (a = pucFree r + u /\ pucFree r + u < tail \/ a = pucFree r + u - xSize r /\ tail <= pucFree r + u) /\
  head <= a /\ a + 8 <= tail /\ a mod 4 = 0 /\ head <= pucFree r /\ pucFree r + 8 <= tail /\
  pucFree r mod 4 = 0 /\ head mod 4 = 0 /\ tail mod 4 = 0 /\ 0 < head /\ tail < 2 ^ 32.
Proof.
  pose proof (i_used _ _ _ I). pose proof (inv_used_nonneg _ _ _ I). pose proof (inv_used_app _ _ _ I).
  pose proof (inv_acquire_cases _ _ _ I). pose proof (inv_pos_acquire _ _ _ I) as (? & ? & ?).
  pose proof (i_free _ _ _ I) as (? & ? & ?). pose proof (tail_mod _ room_geom).
  pose proof (size_eq r room_geom).
  pose proof (g_size_max _ room_geom). pose proof (g_head _ room_geom).
  pose proof (g_head_pos _ room_geom). pose proof (g_tail_max _ room_geom). unfold rbHEADER_SIZE in *. split_and!; try lia; done.
Qed.

(** The check, without wrap-around. *)
Lemma fits_spec :
  prvCheckItemFitsDefault r n = Some (
    if a =? pucFree r then negb (full r)
    else if a <? pucFree r then total <=? pucFree r - a
    else if total <=? tail - a then true
    else if rb_flag r rbALLOW_SPLIT_FLAG then total + rbHEADER_SIZE <=? xSize r - (a - pucFree r)
    else total <=? pucFree r - head).
Proof.
  unfold prvCheckItemFitsDefault.
  rewrite (aligned_ok _ _ (inv_pos_acquire _ _ _ I)), (in_bounds_ok _ _ (inv_pos_acquire _ _ _ I)).
  pose proof max_lt_size. pose proof room_facts. pose proof (align4_bounds n).
  rewrite rbALIGN_SIZE_spec by rlia.
  assert (forall p q, in_storage r p -> in_storage r q -> ptrdiff p q = p - q) as Hp
    by apply (ptrdiff_in r room_geom).
  rewrite !Hp by (unfold in_storage; lia). fold (full r).
  rewrite (u32_small (align4 n + _)), (Z.add_comm (align4 n)) by rlia.
  rewrite (u32_small (tail - a)), (u32_small (pucFree r - head)), (u32_small (xSize r - _)) by lia.
  rewrite (u32_small (_ + rbHEADER_SIZE)) by rlia.
  do 2 f_equal. repeat zcase; try done; rewrite ?u32_small in * by lia; f_equal; lia.
Qed.

Lemma fits_not_full : prvCheckItemFitsDefault r n = Some true -> full r = false.
Proof.
  rewrite fits_spec. intros [= H]. destruct (Z.eqb_spec a (pucFree r)).
  - by apply negb_true_iff.
  - rewrite (i_full _ _ _ I). apply Z.eqb_neq. pose proof room_facts. lia.
Qed.

Context (Hfit : prvCheckItemFitsDefault r n = Some true).

Lemma used_not_full : u < xSize r.
Proof.
  pose proof (fits_not_full Hfit) as F. rewrite (i_full _ _ _ I) in F. apply Z.eqb_neq in F.
  pose proof room_facts. lia.
Qed.

(** The item fits before the tail: it goes to the acquire pointer. *)
Lemma room_direct s : s_len s = n -> is_dummy s = false -> total <= tail - a ->
  geom head tail a s /\ u + ext tail a s <= xSize r.
Proof.
  intros Hl Hd Ht. pose proof room_facts. pose proof used_not_full. pose proof (align4_bounds n).
  split; [unfold geom, pos_ok, slot_size; rewrite Hl; rlia|].
  rewrite fits_spec in Hfit. injection Hfit as Hf. unfold ext, slot_size. rewrite Hd, Hl.
  revert Hf. unfold rbHEADER_SIZE in *. repeat zcase; intros; zbool; try lia.
Qed.

(** It does not, in a no-split buffer: it goes to the head. *)
Lemma room_wrap s : s_len s = n -> is_dummy s = false -> vCopyItem r = CopyNoSplit ->
  tail - a < total ->
  geom head tail head s /\ u + (tail - a) + ext tail head s <= xSize r /\
  ext tail head s = total.
Proof.
  intros Hl Hd Hk Ht. pose proof room_facts. pose proof used_not_full. pose proof (align4_bounds n).
  pose proof (align4_mod n).
  assert (HT : total <= align4 (xSize r / 2) /\ rb_flag r rbALLOW_SPLIT_FLAG = false).
  { pose proof (g_type _ room_geom) as T. rewrite Hk in T. destruct T as (E & ? & _). split; [|done].
    unfold align4, rbHEADER_SIZE in *. Z.to_euclidean_division_equations. lia. }
  destruct HT as [HT Hsp].
  rewrite fits_spec, Hsp in Hfit. injection Hfit as Hf.
  assert (total <= a - head /\ u + (tail - a) + total <= xSize r) as [Hroom Hu].
  { destruct (Z.eqb_spec a (pucFree r)).
    - assert (u = 0) by lia. unfold align4, rbHEADER_SIZE in *. Z.to_euclidean_division_equations. lia.
    - unfold rbHEADER_SIZE in *. revert Hf. repeat zcase; intros; zbool; try lia. }
  unfold geom, pos_ok, ext, slot_size. rewrite Hd, Hl.
  unfold rbHEADER_SIZE in *. zcase; lia.
Qed.

(** Nor in an allow-split buffer: the second part goes to the head. *)
Lemma room_split s : s_len s = n - (tail - a - rbHEADER_SIZE) -> is_dummy s = false ->
  vCopyItem r = CopyAllowSplit -> tail - a < total ->
  0 < s_len s /\ align4 (s_len s) = align4 n - (tail - a - rbHEADER_SIZE) /\
  geom head tail head s /\ u + (tail - a) + ext tail head s <= xSize r.
Proof.
  intros Hl Hd Hk Ht. pose proof room_facts. pose proof used_not_full.
  assert (Hal : align4 (s_len s) = align4 n - (tail - a - rbHEADER_SIZE)).
  { rewrite Hl. unfold align4, rbHEADER_SIZE in *. Z.to_euclidean_division_equations. lia. }
  pose proof (align4_bounds n). pose proof (align4_mod n).
  assert (HT : total + rbHEADER_SIZE <= xSize r /\ rb_flag r rbALLOW_SPLIT_FLAG = true).
  { pose proof (g_type _ room_geom) as T. rewrite Hk in T. destruct T as (E & ? & _). split; [|done].
    unfold align4, rbHEADER_SIZE in *. Z.to_euclidean_division_equations. lia. }
  destruct HT as [HT Hsp].
  assert (0 < s_len s).
  { rewrite Hl. unfold align4, rbHEADER_SIZE in *. Z.to_euclidean_division_equations. lia. }
  rewrite fits_spec, Hsp in Hfit. injection Hfit as Hf.
  assert (total + rbHEADER_SIZE <= xSize r - u).
  { unfold rbHEADER_SIZE in *. revert Hf. repeat zcase; intros; zbool; try lia. }
  unfold geom, pos_ok, ext, slot_size. rewrite Hd, Hal.
  unfold rbHEADER_SIZE in *. split_and!; try lia. zcase; lia.
Qed.
End Room.

(** ** Appending slots *)

(** [r'] is [r] with the slots [new] written at the acquire pointer. *)
Record appended (r : Ringbuffer_t) (new : list slot) (r' : Ringbuffer_t) : Prop := {
  ap_geom : rb_geom r';
  ap_head : pucHead r' = pucHead r;
  ap_tail : pucTail r' = pucTail r;
  ap_size : xSize r' = xSize r;
  ap_max : xMaxItemSize r' = xMaxItemSize r;
  ap_free : pucFree r' = pucFree r;
  ap_read : pucRead r' = pucRead r;
  ap_acquire : pucAcquire r' = endp (pucHead r) (pucTail r) (pucAcquire r) new;
  ap_write : pucWrite r' = pucAcquire r';
  ap_items : xItemsWaiting r' = i32 (xItemsWaiting r + Z.of_nat (length (items new)))
}.

(** What the new slots have to satisfy. *)
Record appendable (r : Ringbuffer_t) (u : Z) (new : list slot) : Prop := {
  an_geoms : geoms (pucHead r) (pucTail r) (pucAcquire r) new;
  an_used : u + used (pucHead r) (pucTail r) (pucAcquire r) new <= xSize r;
  an_wf : wf_wait new;
  an_lens : Forall (fun s => s_len s <= xMaxItemSize r /\ is_u32 (s_flags s)) new;
  an_split : splits_wrap (pucHead r) (pucTail r) (pucAcquire r) new
}.

Lemma core_append r held wait new r' :
  core r held wait ->
  appendable r (used (pucHead r) (pucTail r) (pucFree r) (held ++ wait)) new ->
  appended r new r' ->
  slots (pucHead r) (pucTail r) (storage r') (pucFree r) ((held ++ wait) ++ new) ->
  core r' held (wait ++ new).
Proof.
  intros I [] [] Hs. pose proof (i_geom _ _ _ I) as G. pose proof (i_acquire _ _ _ I) as Ea.
  assert (Hr : 0 <= xItemsWaiting r < 2 ^ 28) by apply (inv_items_range _ _ _ I).
  assert (Hi : Z.of_nat (length (items new)) < 2 ^ 28).
  { pose proof (items_used r _ _ an_geoms0). pose proof (items_length new). pose proof (g_size_max r G).
    pose proof (inv_used_app _ _ _ I). pose proof (inv_used_nonneg _ _ _ I). rlia. }
  split; rewrite ?ap_head0, ?ap_tail0, ?ap_size0, ?ap_max0, ?ap_free0, ?ap_read0, ?app_assoc;
    try first [done | apply I].
  - apply geoms_app. rewrite <- Ea. split; [apply I|done].
  - rewrite ap_acquire0, Ea. by rewrite <- endp_app.
  - rewrite used_app, <- Ea. done.
  - rewrite ap_items0, i32_small by lia. unfold items in *.
    rewrite List.filter_app, length_app, (i_items _ _ _ I). unfold items. lia.
  - apply wf_wait_app; [apply I|done].
  - apply Forall_app. split; [apply I|done].
  - apply splits_wrap_app. split; [apply I|].
    rewrite (i_read _ _ _ I), <- endp_app, <- Ea. done.
Qed.

(** Adding one slot in memory. *)
Lemma slots_snoc head tail `{Storage head tail} m m' p l s :
  pos_ok head tail p -> geoms head tail p (l ++ [s]) ->
  used head tail p (l ++ [s]) <= tail - head ->
  same_but (endp head tail p l) (endp head tail p l + ext tail (endp head tail p l) s) m m' ->
  slots head tail m p l -> holds m' (endp head tail p l) s -> slots head tail m' p (l ++ [s]).
Proof.
  intros Hp Gs U F Hs Hh. apply slots_app. split; [|done].
  destruct (slots_frame head tail m m' p l s [] Hp Gs U F) as [H1 _]. auto.
Qed.

(** Adding a slot that reaches the tail and one at the head. *)
Lemma slots_two r held wait x y mx my :
  core r held wait ->
  let a := pucAcquire r in
  let u := used (pucHead r) (pucTail r) (pucFree r) (held ++ wait) in
  geom (pucHead r) (pucTail r) a x -> ext (pucTail r) a x = pucTail r - a ->
  next (pucHead r) (pucTail r) a x = pucHead r -> geom (pucHead r) (pucTail r) (pucHead r) y ->
  u + (pucTail r - a) + ext (pucTail r) (pucHead r) y <= xSize r ->
  same_but a (pucTail r) (storage r) mx -> holds mx a x ->
  same_but (pucHead r) (pucHead r + slot_size y) mx my -> holds my (pucHead r) y ->
  slots (pucHead r) (pucTail r) my (pucFree r) ((held ++ wait) ++ [x; y]).
Proof.
  intros I a u Gx Ex Nx Gy Hu Sx Hx Sy Hy. pose proof (i_geom _ _ _ I) as G.
  pose proof (i_acquire _ _ _ I) as Ea. pose proof (size_eq r G) as Es. fold a in Ea.
  pose proof (ext_bounds _ _ _ _ Gy) as (Ey & _ & Ey').
  assert (Ee : endp (pucHead r) (pucTail r) (pucFree r) ((held ++ wait) ++ [x]) = pucHead r)
    by (rewrite endp_app, <- Ea; done).
  assert (Gl : geoms (pucHead r) (pucTail r) (pucFree r) ((held ++ wait) ++ [x])).
  { apply geoms_app. split; [apply I|]. rewrite <- Ea. by split. }
  replace ((held ++ wait) ++ [x; y]) with (((held ++ wait) ++ [x]) ++ [y]) by (by rewrite <- app_assoc).
  eapply (slots_snoc _ _ mx); try done; try apply I; rewrite ?Ee; try done.
  - apply geoms_app. rewrite Ee. by split.
  - rewrite used_app, Ee, used_app, <- Ea, <- Es. cbn [used]. rewrite Ex. subst u. lia.
  - eapply same_but_wider; [exact Sy|]. lia.
  - eapply (slots_snoc _ _ (storage r)); try done; try apply I; rewrite <- ?Ea; try done.
    + rewrite used_app, <- Ea, <- Es. cbn [used]. rewrite Ex. subst u. rlia.
    + eapply same_but_wider; [exact Sx|]. rewrite Ex. lia.
Qed.

(** The full flag after an append. *)
Lemma mark_full_inv r held wait :
  core r held wait -> full r = false -> held ++ wait <> [] -> inv (mark_if_full r) held wait.
Proof.
  intros I Hf Hne. pose proof (i_geom _ _ _ I) as G.
  pose proof (inv_acquire_cases _ _ _ I). pose proof (i_used _ _ _ I).
  pose proof (i_free _ _ _ I) as (? & ? & ?). pose proof (size_eq r G).
  assert (rbHEADER_SIZE <= used (pucHead r) (pucTail r) (pucFree r) (held ++ wait))
    by (apply used_pos; [apply (i_geoms _ _ _ I)|done]).
  unfold mark_if_full. destruct (Z.eqb_spec (pucAcquire r) (pucFree r)).
  - split; [by apply core_flags; [apply geom_set_full|]|]. rewrite full_set. symmetry.
    apply Z.eqb_eq. unfold rb_set_flag. rbsimpl. rlia.
  - split; [done|]. rewrite Hf. symmetry. apply Z.eqb_neq. rlia.
Qed.

(** ** The memory of a new item *)

Lemma write_item m p n fl0 fl d :
  Z.of_nat (length d) = n -> is_u32 n -> is_u32 fl -> is_u32 fl0 ->
  let m1 := set_hdr_flags (set_hdr_len m p n) p fl0 in
  let m2 := memcpy m1 (p + rbHEADER_SIZE) d in
  hdr_len m2 p = n /\ hdr_flags m2 p = fl0 /\
  holds (set_hdr_flags m2 p fl) p (mkSlot n fl d) /\ holds m2 p (mkSlot n fl0 d) /\
  same_but p (p + rbHEADER_SIZE + n) m m2 /\
  same_but p (p + rbHEADER_SIZE + n) m (set_hdr_flags m2 p fl).
Proof.
  intros Hd Hn Hfl Hfl0 m1 m2. unfold is_u32 in *. subst m1 m2.
  assert (El : forall m', hdr_len (memcpy (set_hdr_flags (set_hdr_len m' p n) p fl0) (p + rbHEADER_SIZE) d) p = n).
  { intros m'. unfold hdr_len, set_hdr_flags, set_hdr_len, rbHEADER_SIZE.
    rewrite load32_memcpy_other, load32_store32_other, load32_store32_same by lia. done. }
  assert (Ef : hdr_flags (memcpy (set_hdr_flags (set_hdr_len m p n) p fl0) (p + rbHEADER_SIZE) d) p = fl0).
  { unfold hdr_flags, set_hdr_flags, set_hdr_len, rbHEADER_SIZE.
    rewrite load32_memcpy_other, load32_store32_same by lia. done. }
  assert (Ed : forall m', read_bytes (memcpy m' (p + rbHEADER_SIZE) d) (p + rbHEADER_SIZE) (Z.to_nat n) = d).
  { intros m'. replace (Z.to_nat n) with (length d) by lia. apply read_memcpy_same. }
  split_and!; try done.
  - split_and!; cbn [s_len s_flags s_data].
    + unfold hdr_len, set_hdr_flags at 1. rewrite load32_store32_other by lia. apply El.
    + unfold hdr_flags, set_hdr_flags at 1. by rewrite load32_store32_same by lia.
    + unfold set_hdr_flags at 1. rewrite read_bytes_store32_other by rlia. apply Ed.
  - intros x Hx. unfold set_hdr_flags, set_hdr_len, rbHEADER_SIZE in *.
    rewrite memcpy_other, !store32_other by lia. done.
  - intros x Hx. unfold set_hdr_flags, set_hdr_len, rbHEADER_SIZE in *.
    rewrite store32_other, memcpy_other, !store32_other by lia. done.
Qed.

Lemma write_dummy m p fl : is_u32 fl ->
  holds (set_hdr_len (set_hdr_flags m p fl) p 0) p (mkSlot 0 fl []) /\
  same_but p (p + rbHEADER_SIZE) m (set_hdr_len (set_hdr_flags m p fl) p 0).
Proof.
  intros Hfl. unfold holds, hdr_len, hdr_flags, set_hdr_flags, set_hdr_len, rbHEADER_SIZE, is_u32 in *.
  split; [split_and!|]; cbn [s_len s_flags s_data]; try done.
  - rewrite load32_store32_same by lia. done.
  - rewrite load32_store32_other, load32_store32_same by lia. done.
  - intros x Hx. rewrite !store32_other by lia. done.
Qed.

(** ** No-split buffers *)

(** The header of an item once it was written. *)
Definition written_flags : Z := flag_set (flag_clear 0 rbITEM_SPLIT_FLAG) rbITEM_WRITTEN_FLAG.
Definition new_item (n : Z) (d : list Z) : slot := mkSlot n written_flags d.
Definition new_dummy (fl : Z) : slot := mkSlot 0 fl [].

Lemma advance_write_stop fuel r : pucWrite r = pucAcquire r -> advance_write (S fuel) r = Some r.
Proof. intros E. cbn [advance_write]. rewrite E, Z.eqb_refl, andb_false_r. done. Qed.

Lemma advance_write_item fuel r s :
  rb_geom r -> geom (pucHead r) (pucTail r) (pucWrite r) s -> holds (storage r) (pucWrite r) s ->
  is_dummy s = false -> flag_test (s_flags s) rbITEM_WRITTEN_FLAG = true ->
  pucWrite r <> pucAcquire r ->
  advance_write (S fuel) r =
  advance_write fuel (set_write (next (pucHead r) (pucTail r) (pucWrite r) s) r).
Proof.
  intros G Gs (Hl & Hf & _) Hd Hw Hne. cbn [advance_write]. rewrite Hl, Hf, Hw.
  fold (is_dummy s). rewrite Hd, (proj2 (Z.eqb_neq _ _) Hne). cbn [orb andb negb].
  destruct (aligned_len r s _ G Gs) as (-> & _ & -> & -> & _).
  unfold no_room_for_header. rbsimpl.
  replace (pucWrite r + slot_size s <=? u32 (pucHead r + xSize r)) with true; cycle 1.
  { symmetry. apply Z.leb_le. destruct G, Gs as (? & ? & ?). rewrite u32_small; rlia. }
  rewrite <- (step_pointer r G _ _ Gs Hd). by destruct (_ <? _).
Qed.

Lemma advance_write_dummy fuel r s :
  holds (storage r) (pucWrite r) s -> is_dummy s = true -> pucWrite r <> pucAcquire r ->
  advance_write (S fuel) r =
  advance_write fuel (set_write (pucHead r)
    (set_storage (set_hdr_flags (storage r) (pucWrite r) (flag_set (s_flags s) rbITEM_WRITTEN_FLAG)) r)).
Proof.
  intros (Hl & Hf & _) Hd Hne. cbn [advance_write]. rewrite Hf.
  fold (is_dummy s). rewrite Hd, orb_true_r, (proj2 (Z.eqb_neq _ _) Hne). cbn [andb negb].
  unfold no_room_for_header. rbsimpl. by destruct (_ <? _).
Qed.

(** [prvAcquireItemNoSplit], when the item goes to the acquire pointer and
    when it goes to the head behind a dummy. *)
Section Acquire.
Context (r : Ringbuffer_t) (G : rb_geom r) (n : Z) (d : list Z).
Context (Ha : pos_ok (pucHead r) (pucTail r) (pucAcquire r)).
Let s := new_item n d.

Lemma acquire_direct : geom (pucHead r) (pucTail r) (pucAcquire r) s ->
  prvAcquireItemNoSplit r n =
    Some (mark_if_full (set_acquire (next (pucHead r) (pucTail r) (pucAcquire r) s)
            (set_storage (set_hdr_flags (set_hdr_len (storage r) (pucAcquire r) n) (pucAcquire r) 0) r)),
          pucAcquire r + rbHEADER_SIZE).
Proof.
  intros Gs. unfold prvAcquireItemNoSplit.
  rewrite (aligned_ok _ _ Ha), (in_bounds_ok _ _ Ha), (u32_ptrdiff_in r G); cycle 1.
  1-3: destruct G; unfold pos_ok, in_storage in *; rlia.
  destruct (aligned_len r s _ G Gs) as (El & E1 & E2 & E3 & E4). change (s_len s) with n in *.
  rewrite El, E2, <- (step_pointer r G _ _ Gs eq_refl).
  replace (rbHEADER_SIZE <=? _) with true by (symmetry; apply Z.leb_le; unfold pos_ok in Ha; lia).
  replace (_ <? slot_size s) with false
    by (symmetry; apply Z.ltb_ge; destruct Gs as (? & ? & ?); lia).
  unfold no_room_for_header. rbsimpl.
  replace (rbHEADER_SIZE + align4 n) with (slot_size s) by done. rewrite E3.
  rewrite E4. by destruct (_ <? _).
Qed.

Lemma acquire_wrap : geom (pucHead r) (pucTail r) (pucHead r) s ->
  pucTail r - pucAcquire r < slot_size s ->
  let m := set_hdr_len (set_hdr_flags (storage r) (pucAcquire r) rbITEM_DUMMY_DATA_FLAG) (pucAcquire r) 0 in
  prvAcquireItemNoSplit r n =
    Some (mark_if_full (set_acquire (next (pucHead r) (pucTail r) (pucHead r) s)
            (set_storage (set_hdr_flags (set_hdr_len m (pucHead r) n) (pucHead r) 0) r)),
          pucHead r + rbHEADER_SIZE).
Proof.
  intros Gs Hlt m. unfold prvAcquireItemNoSplit.
  rewrite (aligned_ok _ _ Ha), (in_bounds_ok _ _ Ha), (u32_ptrdiff_in r G); cycle 1.
  1-3: destruct G; unfold pos_ok, in_storage in *; rlia.
  destruct (aligned_len r s _ G Gs) as (El & E1 & E2 & E3 & E4). change (s_len s) with n in *.
  rewrite El, E2, <- (step_pointer r G _ _ Gs eq_refl).
  replace (rbHEADER_SIZE <=? _) with true by (symmetry; apply Z.leb_le; unfold pos_ok in Ha; lia).
  replace (_ <? slot_size s) with true by (symmetry; apply Z.ltb_lt; lia).
  unfold no_room_for_header. rbsimpl.
  replace (rbHEADER_SIZE + align4 n) with (slot_size s) by done. rewrite E3, E4.
  by destruct (_ <? _).
Qed.
End Acquire.

(** [prvSendItemDoneNoSplit] for an item that was just acquired. *)
Lemma send_done_asserts r p n :
  rb_geom r -> pos_ok (pucHead r) (pucTail r) p ->
  hdr_len (storage r) p = n -> hdr_flags (storage r) p = 0 -> n <= xMaxItemSize r ->
  prvSendItemDoneNoSplit r (p + rbHEADER_SIZE) =
    advance_write (loop_fuel r) (set_items (i32 (xItemsWaiting r + 1))
      (set_storage (set_hdr_flags (storage r) p written_flags) r)).
Proof.
  intros G P Hl Hf Hm. unfold prvSendItemDoneNoSplit. destruct G. unfold pos_ok in P.
  assert (u32 (p + rbHEADER_SIZE - rbHEADER_SIZE) = p) as -> by (rewrite u32_small; rlia).
  rewrite Hl, Hf, !flag_test_0.
  replace (rbCHECK_ALIGNED (p + rbHEADER_SIZE)) with true; cycle 1.
  { rewrite rbCHECK_ALIGNED_spec. symmetry. apply Z.eqb_eq. unfold rbHEADER_SIZE in *.
    Z.to_euclidean_division_equations. lia. }
  replace (pucHead r <=? p + rbHEADER_SIZE) with true by (symmetry; apply Z.leb_le; rlia).
  replace (p + rbHEADER_SIZE <=? pucTail r) with true by (symmetry; apply Z.leb_le; rlia).
  replace (n <=? xMaxItemSize r) with true by (symmetry; apply Z.leb_le; lia).
  done.
Qed.

Lemma loop_fuel_2 r : rbHEADER_SIZE <= xSize r -> exists k, loop_fuel r = S (S k).
Proof.
  intros H. unfold loop_fuel. exists (Nat.pred (Z.to_nat (xSize r / rbHEADER_SIZE))).
  unfold rbHEADER_SIZE in *. assert (1 <= xSize r / 8) by (apply Z.div_le_lower_bound; lia). lia.
Qed.

Lemma loop_fuel_3 r : 2 * rbHEADER_SIZE <= xSize r -> exists k, loop_fuel r = S (S (S k)).
Proof.
  intros H. unfold loop_fuel. exists (Nat.pred (Nat.pred (Z.to_nat (xSize r / rbHEADER_SIZE)))).
  unfold rbHEADER_SIZE in *. assert (2 <= xSize r / 8) by (apply Z.div_le_lower_bound; lia). lia.
Qed.

(** The buffer after a write: new storage, acquire and write pointer at [e],
    [k] more items. *)
Definition after_write (r : Ringbuffer_t) (m : mem) (e k : Z) : Ringbuffer_t :=
  set_write e (set_items (i32 (xItemsWaiting r + k)) (set_storage m (set_acquire e r))).

Lemma mark_if_full_flags r : exists f, mark_if_full r = set_flags f r /\ (rb_geom r -> rb_geom (set_flags f r)).
Proof.
  unfold mark_if_full. destruct (_ =? _).
  - exists (flag_set (uxRingbufferFlags r) rbBUFFER_FULL_FLAG). split; [done|]. apply geom_set_full.
  - exists (uxRingbufferFlags r). split; [by destruct r|]. by destruct r.
Qed.

Lemma after_write_inv r held wait new m :
  inv r held wait -> full r = false -> new <> [] ->
  appendable r (used (pucHead r) (pucTail r) (pucFree r) (held ++ wait)) new ->
  slots (pucHead r) (pucTail r) m (pucFree r) ((held ++ wait) ++ new) ->
  inv (mark_if_full (after_write r m (endp (pucHead r) (pucTail r) (pucAcquire r) new)
                       (Z.of_nat (length (items new))))) held (wait ++ new).
Proof.
  intros I Hf Hne An Hs. pose proof (i_geom _ _ _ I) as G.
  apply mark_full_inv; [|done|by destruct held, wait, new].
  apply (core_append r); [apply I|done| |done].
  split; try done. keep_geom G.
Qed.

Section CopyNoSplit.
Context (r : Ringbuffer_t) (held wait : list slot) (I : inv r held wait).
#[local] Instance copy_geom : rb_geom r := i_geom _ _ _ I.
Context (Hk : vCopyItem r = CopyNoSplit).
Context (d : list Z) (n : Z) (Hn : Z.of_nat (length d) = n) (Hmax : n <= xMaxItemSize r).
Context (Hfit : prvCheckItemFitsDefault r n = Some true).
Abbreviation s := (new_item n d).
Abbreviation a := (pucAcquire r).

Lemma n_range : 0 <= n <= xMaxItemSize r /\ is_u32 n.
Proof.
  pose proof (max_lt_size r held wait I). pose proof (g_size_max r copy_geom).
  unfold is_u32. rlia.
Qed.

Lemma copy_direct : rbHEADER_SIZE + align4 n <= pucTail r - pucAcquire r ->
  exists r', prvCopyItemNoSplit r d n = Some r' /\ inv r' held (wait ++ [s]).
Proof.
  intros Ht. pose proof n_range as [Hr Hu]. pose proof (inv_pos_acquire _ _ _ I) as Pa.
  destruct (room_direct r held wait I n Hr Hfit s eq_refl eq_refl Ht) as [Gs Hused].
  set (e := next (pucHead r) (pucTail r) a s).
  destruct (write_item (storage r) a n 0 written_flags d Hn Hu) as (Hl & Hfl & Hh & _ & _ & Hsame);
    [done..|].
  set (m2 := memcpy _ _ d) in *. set (m3 := set_hdr_flags m2 a written_flags) in *.
  exists (mark_if_full (after_write r m3 e 1)). split.
  - unfold prvCopyItemNoSplit. rewrite (acquire_direct r copy_geom n d Pa Gs).
    rewrite take_ge by lia.
    destruct (mark_if_full_flags (set_acquire e (set_storage
      (set_hdr_flags (set_hdr_len (storage r) a n) a 0) r))) as (f & Ef & Gf).
    assert (Em : mark_if_full (after_write r m3 e 1) = set_flags f (after_write r m3 e 1)).
    { revert Ef. unfold mark_if_full, rb_set_flag. rbsimpl. unfold after_write. rbsimpl.
      destruct (_ =? _); intros [= <-]; done. }
    rewrite Em. fold e. rewrite Ef. rbsimpl.
    rewrite (send_done_asserts _ a n); rbsimpl; try done; [|keep_geom (Gf ltac:(keep_geom copy_geom))].
    destruct (loop_fuel_2 r (g_size_min r copy_geom)) as (k & Ek).
    change (loop_fuel _) with (loop_fuel r). rewrite Ek.
    destruct (decide (a = e)) as [Eae|Hne].
    + rewrite advance_write_stop by (rbsimpl; rewrite (i_write _ _ _ I); exact Eae).
      assert (Ew : e = pucWrite r) by (rewrite (i_write _ _ _ I); by symmetry).
      unfold after_write. rewrite Ew at 2. done.
    + rewrite (advance_write_item _ _ s); rbsimpl; rewrite ?(i_write _ _ _ I); try done.
      * rewrite advance_write_stop by done. done.
      * keep_geom (Gf ltac:(keep_geom copy_geom)).
  - apply (after_write_inv r held wait [s] m3 I); try done.
    + by apply (fits_not_full r held wait I n Hr).
    + split; cbn [geoms used splits_wrap wf_wait]; try done; [lia|].
      by constructor; [|constructor].
    + eapply (slots_snoc _ _ (storage r)); try done; try apply I.
      * apply geoms_app. split; [apply I|]. rewrite <- (i_acquire _ _ _ I). done.
      * rewrite used_app, <- (i_acquire _ _ _ I), <- (size_eq r copy_geom). cbn [used]. lia.
      * rewrite <- (i_acquire _ _ _ I). eapply same_but_wider; [exact Hsame|].
        pose proof (ext_bounds _ _ _ _ Gs) as (? & _ & _). unfold slot_size in *.
        pose proof (align4_bounds n). simpl in *. rlia.
      * rewrite <- (i_acquire _ _ _ I). done.
Qed.

Abbreviation h := (pucHead r).
Abbreviation t := (pucTail r).
Abbreviation f := (pucFree r).
Abbreviation dummy0 := (new_dummy rbITEM_DUMMY_DATA_FLAG).

Lemma dummy_place fl : is_dummy (new_dummy fl) = true ->
  geom h t a (new_dummy fl) /\ ext t a (new_dummy fl) = t - a /\ next h t a (new_dummy fl) = h.
Proof.
  intros Hf. pose proof (inv_pos_acquire _ _ _ I) as Pa. split_and!.
  - split; [done|]. change (slot_size (new_dummy fl)) with 8. simpl. unfold pos_ok in Pa. rlia.
  - unfold ext. by rewrite Hf.
  - unfold next, ext. rewrite Hf. zcase; lia.
Qed.

Context (Ht : t - a < rbHEADER_SIZE + align4 n).
Let md := set_hdr_len (set_hdr_flags (storage r) a rbITEM_DUMMY_DATA_FLAG) a 0.
Let m2 := memcpy (set_hdr_flags (set_hdr_len md h n) h 0) (h + rbHEADER_SIZE) d.
Let m3 := set_hdr_flags m2 h written_flags.

Lemma wrap_appendable fl : is_dummy (new_dummy fl) = true -> is_split (new_dummy fl) = false ->
  is_free (new_dummy fl) = false -> is_u32 fl ->
  appendable r (used h t f (held ++ wait)) [new_dummy fl; s].
Proof.
  intros Hd Hs Hf Hu. pose proof n_range as [Hr _]. destruct (dummy_place fl Hd) as (Gd & Ex & En).
  destruct (room_wrap r held wait I n Hr Hfit s eq_refl eq_refl Hk Ht) as (Gs & Hused & _).
  split; cbn [geoms used splits_wrap]; rewrite ?En, ?Ex; try done.
  - lia.
  - constructor; [|by constructor; [|constructor]]. simpl. pose proof (g_max r copy_geom). done.
Qed.

(** The dummy and the item in memory. *)
Lemma wrap_slots :
  slots h t m3 f ((held ++ wait) ++ [dummy0; s]) /\ holds m2 h (mkSlot n 0 d).
Proof.
  pose proof n_range as [Hr Hu]. destruct (dummy_place rbITEM_DUMMY_DATA_FLAG eq_refl) as (Gd & Ex & En).
  destruct (room_wrap r held wait I n Hr Hfit s eq_refl eq_refl Hk Ht) as (Gs & Hused & Hext).
  pose proof (inv_pos_acquire _ _ _ I) as Pa. pose proof (align4_bounds n).
  destruct (write_dummy (storage r) a rbITEM_DUMMY_DATA_FLAG ltac:(done)) as [Hhd Hsd].
  destruct (write_item md h n 0 written_flags d Hn Hu) as (_ & _ & Hh & Hh0 & _ & Hsame); [done..|].
  split; [|done]. apply (slots_two r held wait dummy0 s md m3 I); try done.
  - eapply same_but_wider; [exact Hsd|]. unfold pos_ok in Pa. lia.
  - eapply same_but_wider; [exact Hsame|]. unfold slot_size. simpl. rlia.
Qed.

(** ... and after the write loop has marked the dummy. *)
Definition marked : Z := flag_set rbITEM_DUMMY_DATA_FLAG rbITEM_WRITTEN_FLAG.
Lemma wrap_slots_marked :
  slots h t (set_hdr_flags m3 a marked) f ((held ++ wait) ++ [new_dummy marked; s]) /\
  holds m3 a dummy0.
Proof.
  destruct wrap_slots as [W _]. pose proof (i_acquire _ _ _ I) as Ea.
  destruct (dummy_place rbITEM_DUMMY_DATA_FLAG eq_refl) as (Gd & Ex & En).
  destruct (wrap_appendable rbITEM_DUMMY_DATA_FLAG eq_refl eq_refl eq_refl ltac:(done)) as [Ag Au _ _ _].
  assert (Hd0 : holds m3 a dummy0) by (apply slots_app in W as [_ [W _]]; by rewrite Ea).
  destruct (holds_set_flags h t m3 a dummy0 marked Gd ltac:(done) Hd0) as [Hm Hsm].
  split; [|done].
  apply (slots_update h t m3 _ f (held ++ wait) dummy0 (new_dummy marked) [s]);
    rewrite <- ?Ea; try done; try apply I.
  - apply geoms_app. rewrite <- Ea. split; [apply I|done].
  - rewrite used_app, <- Ea, <- (size_eq r copy_geom). done.
  - eapply same_but_wider; [exact Hsm|]. rewrite Ex. pose proof (inv_pos_acquire _ _ _ I) as Pa.
    unfold pos_ok in Pa. lia.
Qed.

Lemma copy_wrap : exists r' fl, prvCopyItemNoSplit r d n = Some r' /\
  inv r' held (wait ++ [new_dummy fl; s]) /\ is_dummy (new_dummy fl) = true.
Proof.
  pose proof n_range as [Hr Hu]. pose proof (inv_pos_acquire _ _ _ I) as Pa.
  destruct (room_wrap r held wait I n Hr Hfit s eq_refl eq_refl Hk Ht) as (Gs & Hused & Hext).
  pose proof (fits_not_full r held wait I n Hr Hfit) as Hnf.
  destruct wrap_slots as [W Hh0]. destruct wrap_slots_marked as [Wm Hd0].
  destruct (dummy_place rbITEM_DUMMY_DATA_FLAG eq_refl) as (_ & _ & En0).
  destruct (dummy_place marked eq_refl) as (_ & _ & Enm).
  set (e := next h t h s).
  destruct (mark_if_full_flags (set_acquire e (set_storage
      (set_hdr_flags (set_hdr_len md h n) h 0) r))) as (g & Eg & Gg).
  assert (Em : forall m, mark_if_full (after_write r m e 1) = set_flags g (after_write r m e 1)).
  { intros m. revert Eg. unfold mark_if_full, rb_set_flag. rbsimpl. unfold after_write. rbsimpl.
    destruct (_ =? _); intros [= <-]; done. }
  assert (Gr : rb_geom (set_flags g r)) by (keep_geom (Gg ltac:(keep_geom copy_geom))).
  unfold prvCopyItemNoSplit. rewrite (acquire_wrap r copy_geom n d Pa Gs) by exact Ht.
  rewrite take_ge by lia. fold md. fold e. rewrite Eg. rbsimpl. fold m2.
  destruct Hh0 as (Hl & Hf & _).
  rewrite (send_done_asserts _ h n); rbsimpl; try done; [|keep_geom Gr|apply Gs]. fold m3.
  destruct (loop_fuel_3 r) as (k & Ek).
  { pose proof (align4_bounds n). pose proof (room_facts r held wait I). unfold pos_ok in Pa. rlia. }
  change (loop_fuel _) with (loop_fuel r). rewrite Ek.
  destruct (decide (a = e)) as [Eae|Hne].
  - exists (mark_if_full (after_write r m3 e 1)), rbITEM_DUMMY_DATA_FLAG. rewrite Em. split_and!; [|..|done].
    + rewrite advance_write_stop by (rbsimpl; rewrite (i_write _ _ _ I); exact Eae).
      assert (Ew : e = pucWrite r) by (rewrite (i_write _ _ _ I); by symmetry).
      unfold after_write. rewrite Ew at 2. done.
    + rewrite <- Em.
      assert (Ee : endp h t a [dummy0; s] = e) by (simpl; by rewrite En0).
      rewrite <- Ee. apply (after_write_inv r held wait [dummy0; s] m3 I); try done.
      by apply wrap_appendable.
  - exists (mark_if_full (after_write r (set_hdr_flags m3 a marked) e 1)), marked. rewrite Em.
    split_and!; [|..|done].
    + rewrite (advance_write_dummy _ _ dummy0); rbsimpl; rewrite ?(i_write _ _ _ I); try done.
      assert (He : h <> e).
      { pose proof (align4_bounds n). pose proof (room_facts r held wait I).
        unfold e. destruct (next_cases h t h s Gs) as [[-> ?]|[_ ?]]; unfold pos_ok in Pa; rlia. }
      rewrite (advance_write_item _ _ s); rbsimpl; try done; [|keep_geom Gr|].
      * rewrite advance_write_stop by done. done.
      * apply slots_app in Wm as [_ [_ [Wm _]]]. rewrite <- (i_acquire _ _ _ I) in Wm.
        by rewrite Enm in Wm.
    + rewrite <- Em.
      assert (Ee : endp h t a [new_dummy marked; s] = e) by (simpl; by rewrite Enm).
      rewrite <- Ee. apply (after_write_inv r held wait [new_dummy marked; s] _ I); try done.
      by apply wrap_appendable.
Qed.
End CopyNoSplit.

(** ** Allow-split buffers *)

Definition whole (n : Z) (d : list Z) : slot := mkSlot n 0 d.
Definition first_part (k : Z) (d : list Z) : slot := mkSlot k rbITEM_SPLIT_FLAG d.

Lemma copy_last_part_spec r d n :
  rb_geom r -> geom (pucHead r) (pucTail r) (pucAcquire r) (whole n d) -> Z.of_nat (length d) = n ->
  copy_last_part r d n (align4 n) =
    mark_if_full (after_write r
      (memcpy (set_hdr_flags (set_hdr_len (storage r) (pucAcquire r) n) (pucAcquire r) 0)
              (pucAcquire r + rbHEADER_SIZE) d)
      (next (pucHead r) (pucTail r) (pucAcquire r) (whole n d)) 1).
Proof.
  intros G Gs Hn. unfold copy_last_part, no_room_for_header. rbsimpl.
  destruct (aligned_len r (whole n d) _ G Gs) as (_ & _ & _ & E3 & E4).
  rewrite E4, take_ge by lia.
  replace (pucAcquire r + rbHEADER_SIZE + align4 n) with (pucAcquire r + slot_size (whole n d))
    by (unfold slot_size; simpl; lia).
  rewrite E3, <- (step_pointer r G _ _ Gs eq_refl). unfold mark_if_full, after_write. rbsimpl.
  destruct (_ <? _); rbsimpl; destruct (_ =? _); done.
Qed.

(** The memory of the first part: flags, length, payload, then the flags again. *)
Lemma write_first m p k d :
  Z.of_nat (length d) = k -> is_u32 k ->
  let m1 := memcpy (set_hdr_len (set_hdr_flags m p 0) p k) (p + rbHEADER_SIZE) d in
  let m2 := set_hdr_flags m1 p (flag_set (hdr_flags m1 p) rbITEM_SPLIT_FLAG) in
  holds m2 p (first_part k d) /\ same_but p (p + rbHEADER_SIZE + k) m m2.
Proof.
  intros Hd Hk m1 m2. unfold is_u32 in *.
  assert (Ef : hdr_flags m1 p = 0).
  { unfold m1, hdr_flags, set_hdr_flags, set_hdr_len, rbHEADER_SIZE.
    rewrite load32_memcpy_other, load32_store32_other, load32_store32_same by lia. done. }
  unfold m2. rewrite Ef. split; [split_and!|]; cbn [first_part s_len s_flags s_data].
  - unfold m1, hdr_len, set_hdr_flags, set_hdr_len, rbHEADER_SIZE.
    rewrite load32_store32_other, load32_memcpy_other, load32_store32_same by lia. done.
  - unfold hdr_flags, set_hdr_flags. rewrite load32_store32_same; done.
  - unfold set_hdr_flags. rewrite read_bytes_store32_other by rlia. unfold m1.
    replace (Z.to_nat k) with (length d) by lia. apply read_memcpy_same.
  - intros x Hx. unfold m1, set_hdr_flags, set_hdr_len, rbHEADER_SIZE in *.
    rewrite store32_other, memcpy_other, !store32_other by lia. done.
Qed.

Section CopyAllowSplit.
Context (r : Ringbuffer_t) (held wait : list slot) (I : inv r held wait).
#[local] Instance split_geom : rb_geom r := i_geom _ _ _ I.
Context (Hk : vCopyItem r = CopyAllowSplit).
Context (d : list Z) (n : Z) (Hn : Z.of_nat (length d) = n) (Hmax : n <= xMaxItemSize r).
Context (Hfit : prvCheckItemFitsDefault r n = Some true).
Abbreviation a := (pucAcquire r).
Abbreviation h := (pucHead r).
Abbreviation t := (pucTail r).
Abbreviation f := (pucFree r).

Lemma split_n_range : 0 <= n <= xMaxItemSize r /\ is_u32 n /\
  rbALIGN_SIZE n = align4 n /\ u32 (align4 n + rbHEADER_SIZE) = rbHEADER_SIZE + align4 n.
Proof.
  pose proof (max_lt_size r held wait I). pose proof (g_size_max r split_geom).
  pose proof (align4_bounds n). unfold is_u32.
  rewrite rbALIGN_SIZE_spec by rlia. rewrite u32_small by rlia. rlia.
Qed.

(** The assertions, and the choice between one and two parts. *)
Lemma allow_split_asserts :
  prvCopyItemAllowSplit r d n =
    (let '(r, d, n, al) :=
       if t - a <? rbHEADER_SIZE + align4 n then split_first_part r (t - a) d n (align4 n)
       else (r, d, n, align4 n) in
     Some (copy_last_part r d n al)).
Proof.
  pose proof (inv_pos_acquire _ _ _ I) as Pa. destruct split_n_range as (_ & _ & El & Et).
  unfold prvCopyItemAllowSplit.
  rewrite (aligned_ok _ _ Pa), (in_bounds_ok _ _ Pa), (u32_ptrdiff_in r split_geom), El, Et; cycle 1.
  1-3: pose proof (size_eq r split_geom); unfold pos_ok, in_storage in *; rlia.
  replace (rbHEADER_SIZE <=? _) with true by (symmetry; apply Z.leb_le; unfold pos_ok in Pa; lia).
  done.
Qed.

Lemma split_copy_direct : rbHEADER_SIZE + align4 n <= t - a ->
  exists r', prvCopyItemAllowSplit r d n = Some r' /\ inv r' held (wait ++ [whole n d]).
Proof.
  intros Ht. destruct split_n_range as (Hr & Hu & _).
  destruct (room_direct r held wait I n Hr Hfit (whole n d) eq_refl eq_refl Ht) as [Gs Hused].
  destruct (write_item (storage r) a n 0 0 d Hn Hu) as (_ & _ & _ & Hh & Hsame & _); [done..|].
  rewrite allow_split_asserts. replace (_ <? _) with false by (symmetry; apply Z.ltb_ge; lia).
  rewrite (copy_last_part_spec r d n split_geom Gs Hn).
  eexists. split; [done|]. apply (after_write_inv r held wait [whole n d] _ I); try done.
  - by apply (fits_not_full r held wait I n Hr).
  - split; cbn [geoms used splits_wrap]; try done; [lia|]. by constructor; [|constructor].
  - eapply (slots_snoc _ _ (storage r)); try done; try apply I; rewrite <- ?(i_acquire _ _ _ I); try done.
    + apply geoms_app. split; [apply I|]. rewrite <- (i_acquire _ _ _ I). done.
    + rewrite used_app, <- (i_acquire _ _ _ I), <- (size_eq r split_geom). cbn [used]. lia.
    + eapply same_but_wider; [exact Hsame|].
      pose proof (ext_bounds _ _ _ _ Gs) as (? & _ & _). unfold slot_size in *.
      pose proof (align4_bounds n). simpl in *. rlia.
Qed.

Context (Ht : t - a < rbHEADER_SIZE + align4 n).
Abbreviation k := (t - a - rbHEADER_SIZE).
Abbreviation d1 := (take (Z.to_nat k) d).
Abbreviation d2 := (drop (Z.to_nat k) d).
Abbreviation rest := (whole (n - k) d2).

Lemma split_rest : 0 <= k < n /\ Z.of_nat (length d1) = k /\ Z.of_nat (length d2) = n - k /\
  align4 (n - k) = align4 n - k /\ geom h t h rest /\
  used h t f (held ++ wait) + (t - a) + ext t h rest <= xSize r.
Proof.
  destruct split_n_range as (Hr & _).
  pose proof (inv_pos_acquire _ _ _ I) as Pa. unfold pos_ok in Pa.
  destruct (room_split r held wait I n Hr Hfit rest eq_refl eq_refl Hk Ht) as (Hpos & Hal & Gs & Hu).
  simpl in Hpos, Hal. rewrite length_take, length_drop. split_and!; try done; rlia.
Qed.

(** [split_first_part] without wrap-around. *)
Lemma split_first_part_spec :
  split_first_part r (t - a) d n (align4 n) =
    (let m1 := set_hdr_len (set_hdr_flags (storage r) a 0) a k in
     if 0 <? k then
       let m2 := memcpy m1 (a + rbHEADER_SIZE) d1 in
       let m3 := set_hdr_flags m2 a (flag_set (hdr_flags m2 a) rbITEM_SPLIT_FLAG) in
       (set_acquire h (set_items (i32 (xItemsWaiting r + 1)) (set_storage m3 r)), d2, n - k, align4 (n - k))
     else
       let m3 := set_hdr_flags m1 a (flag_set (hdr_flags m1 a) rbITEM_DUMMY_DATA_FLAG) in
       (set_acquire h (set_storage m3 r), d, n, align4 n)).
Proof.
  destruct split_n_range as (Hr & Hu & _). destruct split_rest as (Hkn & _ & _ & Hal & _).
  pose proof (inv_pos_acquire _ _ _ I) as Pa. pose proof (room_facts r held wait I).
  pose proof (align4_bounds n). pose proof (max_lt_size r held wait I). pose proof (g_size_max r split_geom).
  unfold split_first_part. rbsimpl. rewrite Hal.
  rewrite (u32_small k), (u32_small (a + rbHEADER_SIZE)), (u32_small (n - k)), (u32_small (align4 n - k))
    by (unfold pos_ok in Pa; rlia).
  destruct (0 <? k); done.
Qed.

(** Two slots appended: what remains to show is their memory. *)
Lemma split_append x y m2 j :
  geom h t a x -> ext t a x = t - a -> geom h t h y ->
  used h t f (held ++ wait) + (t - a) + ext t h y <= xSize r ->
  wf_wait [x; y] -> is_split y = false ->
  s_len x <= xMaxItemSize r -> is_u32 (s_flags x) -> s_len y <= xMaxItemSize r -> is_u32 (s_flags y) ->
  (forall mx, same_but a t (storage r) mx -> holds mx a x ->
     same_but h (h + slot_size y) mx m2 -> holds m2 h y ->
     j = Z.of_nat (length (items [x; y])) ->
     inv (mark_if_full (after_write r m2 (next h t h y) j)) held (wait ++ [x; y])).
Proof.
  intros Gx Ex Gy Hu Hwf Hsy Lx Fx Ly Fy mx Sx Hx Sy Hy ->.
  assert (Nx : next h t a x = h) by (unfold next; rewrite Ex; zcase; lia).
  assert (Ee : endp h t a [x; y] = next h t h y) by (simpl; by rewrite Nx).
  rewrite <- Ee. destruct split_n_range as (Hr & _).
  apply (after_write_inv r held wait [x; y] m2 I); try done.
  - by apply (fits_not_full r held wait I n Hr).
  - split; cbn [geoms used splits_wrap]; rewrite ?Nx, ?Ex; try done; [lia|..].
    + by constructor; [|constructor; [|constructor]].
    + by rewrite Hsy.
  - by apply (slots_two r held wait x y mx m2 I).
Qed.

(** Only a header fits before the tail: a dummy, then the whole item. *)
Lemma split_copy_dummy : k = 0 ->
  exists r', prvCopyItemAllowSplit r d n = Some r' /\
    inv r' held (wait ++ [new_dummy rbITEM_DUMMY_DATA_FLAG; whole n d]).
Proof.
  intros Hk0. destruct split_n_range as (Hr & Hu & _). destruct split_rest as (Hkn & _ & _ & _ & Gs & Hused).
  rewrite Hk0, Z.sub_0_r, drop_0 in Gs, Hused.
  pose proof (inv_pos_acquire _ _ _ I) as Pa. unfold pos_ok in Pa.
  rewrite allow_split_asserts, split_first_part_spec, Hk0.
  rewrite (proj2 (Z.ltb_lt (t - a) _) Ht). change (0 <? 0) with false. cbv beta iota zeta.
  set (m1 := set_hdr_len _ _ _). set (m3 := set_hdr_flags m1 _ _).
  destruct (write_item m3 h n 0 0 d Hn Hu) as (_ & _ & _ & Hh & Hsame & _); [done..|].
  rewrite copy_last_part_spec; rbsimpl; try done; [|keep_geom split_geom].
  eexists. split; [done|]. change (after_write _ _ _ _) with
    (after_write r (memcpy (set_hdr_flags (set_hdr_len m3 h n) h 0) (h + rbHEADER_SIZE) d)
       (next h t h (whole n d)) 1).
  pose proof (g_max r split_geom).
  apply (split_append (new_dummy rbITEM_DUMMY_DATA_FLAG) (whole n d) _ 1) with (mx := m3); try done.
  - split; [done|]. change (slot_size _) with 8. simpl. rlia.
  - unfold m3, m1. intros x Hx. unfold set_hdr_flags, set_hdr_len.
    rewrite !store32_other by rlia. done.
  - assert (E0 : hdr_flags m1 a = 0).
    { unfold m1, hdr_flags, set_hdr_len, set_hdr_flags.
      rewrite load32_store32_other, load32_store32_same by lia. done. }
    unfold m3. rewrite E0. split_and!; try done; unfold hdr_len, hdr_flags, set_hdr_flags.
    + rewrite load32_store32_other by lia. unfold m1, set_hdr_len. by rewrite load32_store32_same by lia.
    + by rewrite load32_store32_same.
  - eapply same_but_wider; [exact Hsame|]. pose proof (align4_bounds n). unfold slot_size. simpl. rlia.
Qed.

(** The item is split at the tail. *)
Lemma split_copy_two : 0 < k ->
  exists r', prvCopyItemAllowSplit r d n = Some r' /\ inv r' held (wait ++ [first_part k d1; rest]).
Proof.
  intros Hk0. destruct split_n_range as (Hr & Hu & _).
  destruct split_rest as (Hkn & L1 & L2 & Hal & Gs & Hused).
  pose proof (inv_pos_acquire _ _ _ I) as Pa. pose proof (room_facts r held wait I).
  assert (Hku : is_u32 k /\ is_u32 (n - k)) by (unfold is_u32, pos_ok in *; rlia).
  destruct Hku as [Hku Hru].
  assert (Hk4 : align4 k = k).
  { unfold align4, pos_ok, rbHEADER_SIZE in *. Z.to_euclidean_division_equations. lia. }
  rewrite allow_split_asserts, split_first_part_spec.
  rewrite (proj2 (Z.ltb_lt (t - a) _) Ht), (proj2 (Z.ltb_lt 0 k) Hk0).
  cbv beta iota zeta. destruct (write_first (storage r) a k d1 L1 Hku) as [Hh1 Hs1].
  set (m2 := memcpy _ _ d1) in *. set (m3 := set_hdr_flags m2 _ _) in *.
  destruct (write_item m3 h (n - k) 0 0 d2 L2 Hru) as (_ & _ & _ & Hh & Hsame & _); [done..|].
  rewrite copy_last_part_spec; rbsimpl; try done; [|keep_geom split_geom].
  eexists. split; [done|]. unfold after_write at 1. rbsimpl.
  assert (Ei : i32 (i32 (xItemsWaiting r + 1) + 1) = i32 (xItemsWaiting r + 2)).
  { pose proof (inv_items_range _ _ _ I). rewrite (i32_small (xItemsWaiting r + 1)) by lia. f_equal. lia. }
  rewrite Ei. change (set_write _ _) with
    (after_write r (memcpy (set_hdr_flags (set_hdr_len m3 h (n - k)) h 0) (h + rbHEADER_SIZE) d2)
       (next h t h rest) 2).
  assert (Hsz : slot_size (first_part k d1) = t - a) by (unfold slot_size; simpl; rewrite Hk4; lia).
  pose proof (g_max r split_geom).
  apply (split_append (first_part k d1) rest _ 2) with (mx := m3); try done.
  - unfold geom. rewrite Hsz. simpl. split; [done|lia].
  - unfold ext. change (is_dummy _) with false. cbv iota. rewrite Hsz. zcase; rlia.
  - simpl. lia.
  - simpl. lia.
  - eapply same_but_wider; [exact Hs1|]. lia.
  - eapply same_but_wider; [exact Hsame|]. pose proof (align4_bounds (n - k)). unfold slot_size. simpl. rlia.
Qed.
End CopyAllowSplit.
