(* ===== verification/RingbufQueue.v ===== *)
(** * Item ring buffers as queues

    The client's view of no-split and allow-split buffers: whatever the order
    of sends, receives and returns, no assertion fails, items come out in the
    order and with the bytes they were sent, and an item stays intact until
    it is returned.  This does not hold of runs in which one of several items
    that together fill the buffer is returned: [returns_safely] tells these
    apart, and [RingbufFaults] shows how they fail. *)

From stdpp Require Import relations.
From S2P Require Import Prelude CMem Ringbuf RingbufApi RingbufChain RingbufItems RingbufSend.

(** ** The operations under the invariant *)

(** The invariant does not look at the semaphores. *)
Lemma inv_give s r held wait : inv r held wait -> inv (xSemaphoreGive s r) held wait.
Proof.
  intros I. pose proof (i_geom _ _ _ I) as G. destruct I as [[] Hf].
  destruct s; split; [split|..]; cbn [xSemaphoreGive sem_set]; rbsimpl; try done; keep_geom G.
Qed.

Lemma inv_give_if b s r held wait : inv r held wait -> inv (give_if b s r) held wait.
Proof. destruct b; [apply inv_give|done]. Qed.

(** Exactly the bytes that no slot uses are free. *)
Lemma free_size_spec r held wait : inv r held wait ->
  prvGetFreeSize r = Some (xSize r - used (pucHead r) (pucTail r) (pucFree r) (held ++ wait)).
Proof.
  intros I. pose proof (room_facts r held wait I). pose proof (i_full _ _ _ I) as Hf.
  unfold prvGetFreeSize. fold (full r). rewrite Hf.
  destruct (Z.eqb_spec (used (pucHead r) (pucTail r) (pucFree r) (held ++ wait)) (xSize r)) as [->|Hne].
  - replace (0 <=? xSize r) with true by (symmetry; apply Z.leb_le; lia). f_equal. lia.
  - unfold ptrdiff. rewrite (i32_small (pucFree r - pucAcquire r)) by lia.
    assert ((if pucFree r - pucAcquire r <=? 0 then i32 (pucFree r - pucAcquire r + xSize r)
             else pucFree r - pucAcquire r) =
            xSize r - used (pucHead r) (pucTail r) (pucFree r) (held ++ wait)) as ->.
    { zcase; rewrite ?i32_small; lia. }
    rewrite u32_small by lia. replace (_ <=? xSize r) with true by (symmetry; apply Z.leb_le; lia). done.
Qed.

(** What sending [d] adds to the queue: one item, or two parts of it. *)
Definition sent_as (nosplit : bool) (d : list Z) (l : list (list Z * bool)) : Prop :=
  l = [(d, false)] \/ (nosplit = false /\ exists d1 d2, d = d1 ++ d2 /\ l = [(d1, true); (d2, false)]).

Definition is_nosplit (r : Ringbuffer_t) : bool :=
  match vCopyItem r with CopyNoSplit => true | _ => false end.

(** ** What writing leaves alone *)

(** Steps over assertions that a result shows to hold. *)
Ltac asserts :=
  repeat match goal with |- (if ?b then _ else None) = Some _ -> _ => destruct b; [|done] end.

Definition frame (r : Ringbuffer_t) :=
  (vCopyItem r, xMaxItemSize r, xSize r, pucHead r, pucTail r, pucFree r).

(** The type, the largest item and the size. *)
Definition fixed (r : Ringbuffer_t) := (is_nosplit r, xMaxItemSize r, xSize r).

Lemma frame_write p r : frame (set_write p r) = frame r.
Proof. done. Qed.

Lemma frame_mark r : frame (mark_if_full r) = frame r.
Proof. unfold mark_if_full. by destruct (_ =? _). Qed.

Lemma frame_advance_write fuel r r' : advance_write fuel r = Some r' -> frame r' = frame r.
Proof.
  revert r. induction fuel as [|fuel IH]; intros r; [done|]. cbn [advance_write].
  destruct (_ && _); [|by intros [= ->]]. destruct (flag_test _ _).
  - intros H. apply IH in H. rewrite H. by destruct (no_room_for_header _ _).
  - destruct (_ <=? _); [|done]. intros H. apply IH in H. rewrite H. by destruct (no_room_for_header _ _).
Qed.

Lemma frame_acquire r n r' p : prvAcquireItemNoSplit r n = Some (r', p) -> frame r' = frame r.
Proof.
  unfold prvAcquireItemNoSplit. asserts. intros [= <- _]. rewrite frame_mark.
  destruct (_ <? _); destruct (no_room_for_header _ _); done.
Qed.

Lemma frame_send_done r p r' : prvSendItemDoneNoSplit r p = Some r' -> frame r' = frame r.
Proof.
  unfold prvSendItemDoneNoSplit.
  asserts.
  intros H. apply frame_advance_write in H. done.
Qed.

Lemma frame_copy_last r d n a : frame (copy_last_part r d n a) = frame r.
Proof.
  unfold copy_last_part. rewrite frame_write, frame_mark.
  destruct (no_room_for_header _ _); unfold frame; rbsimpl; done.
Qed.

Lemma frame_copy r d n r' : vCopyItem r <> CopyByteBuf -> call_vCopyItem r d n = Some r' -> frame r' = frame r.
Proof.
  unfold call_vCopyItem. destruct (vCopyItem r) eqn:Hk; intros Hb; [| |done].
  - unfold prvCopyItemNoSplit. destruct (prvAcquireItemNoSplit r n) as [[r1 p]|] eqn:Ha; [|done].
    intros H. apply frame_send_done in H. apply frame_acquire in Ha. rewrite H, <- Ha. done.
  - unfold prvCopyItemAllowSplit. asserts. unfold split_first_part. destruct (_ <? _); [destruct (0 <? _)|];
      intros [= <-]; by rewrite frame_copy_last.
Qed.

(** ** Sending *)

Lemma parts_app l1 l2 : parts (l1 ++ l2) = parts l1 ++ parts l2.
Proof. unfold parts, items. rewrite List.filter_app. apply fmap_app. Qed.

Lemma send_spec r held wait d n :
  inv r held wait -> Z.of_nat (length d) = n -> n <= xMaxItemSize r ->
  prvCheckItemFitsDefault r n = Some true ->
  exists r' new, call_vCopyItem r d n = Some r' /\ inv r' held (wait ++ new) /\
    sent_as (is_nosplit r) d (parts new) /\ frame r' = frame r.
Proof.
  intros I Hn Hm Hf. pose proof (i_geom _ _ _ I) as G. pose proof (g_type r G) as T.
  assert (exists r' new, call_vCopyItem r d n = Some r' /\ inv r' held (wait ++ new) /\
    sent_as (is_nosplit r) d (parts new)) as (r' & new & E & I' & Hs).
  { unfold call_vCopyItem, is_nosplit. destruct (vCopyItem r) eqn:Hk; [..|done].
    - destruct (decide (rbHEADER_SIZE + align4 n <= pucTail r - pucAcquire r)).
      + destruct (copy_direct r held wait I d n Hn Hm Hf) as (r' & E & I'); [done|].
        exists r', [new_item n d]. split_and!; try done. by left.
      + destruct (copy_wrap r held wait I Hk d n Hn Hm Hf) as (r' & fl & E & I' & Hd); [lia|].
        exists r', [new_dummy fl; new_item n d]. split_and!; try done.
        left. unfold parts, items, nondummy. simpl. rewrite Hd. done.
    - destruct (decide (rbHEADER_SIZE + align4 n <= pucTail r - pucAcquire r)).
      + destruct (split_copy_direct r held wait I d n Hn Hm Hf) as (r' & E & I'); [done|].
        exists r', [whole n d]. split_and!; try done. by left.
      + destruct (split_rest r held wait I Hk d n Hn Hm Hf) as (Hr & _); [lia|].
        destruct (decide (pucTail r - pucAcquire r - rbHEADER_SIZE = 0)).
        * destruct (split_copy_dummy r held wait I Hk d n Hn Hm Hf) as (r' & E & I'); [lia..|].
          eexists _, _. split_and!; [done..|]. by left.
        * destruct (split_copy_two r held wait I Hk d n Hn Hm Hf) as (r' & E & I'); [lia..|].
          eexists _, _. split_and!; [done..|]. right. split; [done|]. eexists _, _. split; [|done].
          symmetry. apply take_drop. }
  exists r', new. split_and!; try done. eapply frame_copy; [|done]. by intros Hb; rewrite Hb in T.
Qed.

(** ** Receiving *)

Lemma wait_front wait : wf_wait wait -> wait <> [] ->
  exists pre s rest, wait = pre ++ s :: rest /\ is_dummy s = false /\ is_free s = false /\
    (pre = [] \/ exists d, pre = [d] /\ is_dummy d = true) /\
    (is_split s = true -> exists s' rest', rest = s' :: rest' /\
       is_dummy s' = false /\ is_split s' = false /\ is_free s' = false).
Proof.
  assert (Fol : forall s l, wf_wait (s :: l) -> is_split s = true -> exists s' rest', l = s' :: rest' /\
    is_dummy s' = false /\ is_split s' = false /\ is_free s' = false).
  { intros s l (_ & H & W) Hs. rewrite Hs, orb_true_r in H. specialize (H eq_refl).
    destruct l as [|s' l']; [done|]. destruct W. eexists _, _. split_and!; try done; apply H. }
  destruct wait as [|s l]; [done|]. intros W _. destruct (is_dummy s) eqn:D.
  - destruct W as (_ & H & W). rewrite D in H. specialize (H eq_refl). destruct l as [|s' l]; [done|].
    exists [s], s', l. split_and!; try apply H; try apply W; try done; [right; eauto|by apply Fol].
  - exists [], s, l. split_and!; try done; [apply W|by left|by apply Fol].
Qed.

(** The items of the queue: parts of the storage put together. *)
Inductive assembles : list (list Z * bool) -> list (list Z) -> Prop :=
| as_nil : assembles [] []
| as_whole d l w : assembles l w -> assembles ((d, false) :: l) (d :: w)
| as_split d1 d2 l w : assembles l w -> assembles ((d1, true) :: (d2, false) :: l) ((d1 ++ d2) :: w).

Lemma assembles_app l1 w1 l2 w2 :
  assembles l1 w1 -> assembles l2 w2 -> assembles (l1 ++ l2) (w1 ++ w2).
Proof. induction 1; simpl; auto; by constructor; auto. Qed.

Lemma sent_as_assembles b d l : sent_as b d l -> assembles l [d].
Proof. intros [->|(_ & d1 & d2 & -> & ->)]; repeat constructor. Qed.

(** The first slot of the queue was retrieved: [r] became [r'], [p] points to
    the payload of [s]. *)
Record fetched (r : Ringbuffer_t) (held wait : list slot) (r' : Ringbuffer_t) (p : Z) (s : slot)
    (held' rest : list slot) : Prop := {
  f_get : prvGetItemDefault r = Some (r', p, is_split s, s_len s);
  f_inv : inv r' held' rest;
  f_items : items wait = s :: items rest;
  f_frame : frame r' = frame r;
  f_storage : storage r' = storage r;
  f_flags : uxRingbufferFlags r' = uxRingbufferFlags r;
  f_out : outstanding (pucHead r) (pucTail r) (pucFree r) held' =
          outstanding (pucHead r) (pucTail r) (pucFree r) held ++ [(p, s_data s)];
  f_bytes : read_bytes (storage r) p (Z.to_nat (s_len s)) = s_data s;
  f_addr : forall s0 l, wait = s0 :: l -> is_dummy s0 = false -> p = pucRead r + rbHEADER_SIZE;
  f_split : is_split s = true ->
    (exists s' l, rest = s' :: l /\ is_dummy s' = false /\ is_split s' = false) /\
    pucRead r' = pucHead r /\ pucHead r + rbHEADER_SIZE < p
}.

(** The first part of a split item is behind the second one in memory. *)
Lemma split_order r held pre s s' rest :
  inv r held (pre ++ s :: s' :: rest) -> is_split s = true ->
  let a := endp (pucHead r) (pucTail r) (pucFree r) (held ++ pre) in
  next (pucHead r) (pucTail r) a s = pucHead r /\ pucHead r < a.
Proof.
  intros I Hs a. pose proof (i_geom _ _ _ I) as G.
  pose proof (i_split _ _ _ I) as W. apply splits_wrap_app in W as [_ [W _]].
  rewrite (i_read _ _ _ I), <- endp_app in W. specialize (W Hs). fold a in W. split; [done|].
  assert (D := slots_disjoint (pucHead r) (pucTail r) (pucFree r) (held ++ pre) s [] s' rest
    (i_free _ _ _ I)).
  rewrite <- app_assoc, <- (size_eq r G) in D.
  specialize (D (i_geoms _ _ _ I) (i_used _ _ _ I)). simpl in D. fold a in D. rewrite W in D.
  pose proof (i_geoms _ _ _ I) as Gs. rewrite app_assoc in Gs.
  apply geoms_app in Gs as [_ [Gs [Gs' _]]]. fold a in Gs, Gs'. rewrite W in Gs'.
  pose proof (ext_bounds _ _ _ _ Gs). pose proof (ext_bounds _ _ _ _ Gs').
  destruct Gs as ((? & _) & _). rlia.
Qed.

Lemma get_front r held wait : inv r held wait -> wait <> [] ->
  exists r' p s held' rest, fetched r held wait r' p s held' rest.
Proof.
  intros I Hne. destruct (wait_front wait (i_wait _ _ _ I) Hne) as (pre & s & rest & -> & Hd & Hf & Hp & Hs).
  destruct (get_item_spec r held pre s rest I Hd Hp) as (r' & E & I' & Er).
  exists r', (endp (pucHead r) (pucTail r) (pucFree r) (held ++ pre) + rbHEADER_SIZE), s, (held ++ pre ++ [s]), rest.
  split; try done.
  - unfold items, nondummy. rewrite List.filter_app. simpl. rewrite Hd. simpl.
    destruct Hp as [->|(x & -> & Hx)]; simpl; [done|]. by rewrite Hx.
  - by rewrite Er.
  - by rewrite Er.
  - by rewrite Er.
  - rewrite outstanding_app. f_equal. rewrite endp_app.
    destruct Hp as [->|(x & -> & Hx)]; simpl; rewrite ?Hx, Hd, Hf, ?orb_true_r; done.
  - pose proof (i_slots _ _ _ I) as Hsl. rewrite app_assoc in Hsl.
    apply slots_app in Hsl as [_ [(_ & _ & Hb) _]]. done.
  - intros s0 l E0 D0. destruct Hp as [->|(x & -> & Hx)]; simplify_eq/=; [|congruence].
    by rewrite app_nil_r, (i_read _ _ _ I).
  - intros H. destruct (Hs H) as (s' & l & -> & ? & ? & _).
    destruct (split_order r held pre s s' l I H) as [Hn Hlt]. split_and!; [by eexists _, _| |lia].
    rewrite (i_read _ _ _ I'), app_assoc, endp_app. rewrite Er. rbsimpl. done.
Qed.

Lemma inv_not_byte r held wait : inv r held wait ->
  rb_flag r rbBYTE_BUFFER_FLAG = false /\ pvGetItem r = GetDefault /\
  rb_flag r rbALLOW_SPLIT_FLAG = negb (is_nosplit r) /\ vCopyItem r <> CopyByteBuf.
Proof.
  intros I. pose proof (i_geom _ _ _ I) as G. pose proof (g_type r G) as T. unfold is_nosplit.
  split_and!; [apply G|apply G|..]; destruct (vCopyItem r); try done; apply T.
Qed.

Lemma receive_spec r held wait : inv r held wait ->
  (wait = [] /\ xRingbufferReceiveFromISR r = Some (None, r)) \/
  (exists r' p s held' rest, fetched r held wait r' p s held' rest /\
     xRingbufferReceiveFromISR r =
       Some (Some (p, s_len s), give_if (0 <? xItemsWaiting r') RX_SEM r')).
Proof.
  intros I. destruct (inv_not_byte _ _ _ I) as (Hb & Hg & _).
  unfold xRingbufferReceiveFromISR, prvReceiveGenericFromISR, try_receive.
  rewrite (avail_spec r held wait I I). destruct (bool_decide_reflect (wait = [])) as [->|Hne]; [by left|right].
  destruct (get_front r held wait I Hne) as (r' & p & s & held' & rest & F).
  exists r', p, s, held', rest. split; [done|]. simpl. unfold fetch_items.
  rewrite Hb. unfold call_pvGetItem. rewrite Hg, (f_get _ _ _ _ _ _ _ _ F), andb_false_r.
  done.
Qed.

Lemma receive_split_spec r held wait : inv r held wait -> is_nosplit r = false ->
  (wait = [] /\ xRingbufferReceiveSplitFromISR r = Some (None, r)) \/
  (exists r' p s held' rest, fetched r held wait r' p s held' rest /\
    ((is_split s = false /\ xRingbufferReceiveSplitFromISR r =
        Some (Some ((p, s_len s), None), give_if (0 <? xItemsWaiting r') RX_SEM r')) \/
     (is_split s = true /\ exists r2 p2 s2 held2 rest2,
        fetched r' held' rest r2 p2 s2 held2 rest2 /\ is_split s2 = false /\
        xRingbufferReceiveSplitFromISR r =
        Some (Some ((p, s_len s), Some (p2, s_len s2)), give_if (0 <? xItemsWaiting r2) RX_SEM r2)))).
Proof.
  intros I Hk. destruct (inv_not_byte _ _ _ I) as (Hb & Hg & Ha & _). rewrite Hk in Ha. simpl in Ha.
  unfold xRingbufferReceiveSplitFromISR, prvReceiveGenericFromISR, try_receive. rewrite Ha.
  rewrite (avail_spec r held wait I I). destruct (bool_decide_reflect (wait = [])) as [->|Hne]; [by left|right].
  destruct (get_front r held wait I Hne) as (r' & p & s & held' & rest & F).
  exists r', p, s, held', rest. split; [done|]. simpl. unfold fetch_items.
  rewrite Hb. unfold call_pvGetItem. rewrite Hg, (f_get _ _ _ _ _ _ _ _ F).
  assert (rb_flag r' rbALLOW_SPLIT_FLAG = true) as Ha'
    by (unfold rb_flag in *; by rewrite (f_flags _ _ _ _ _ _ _ _ F)).
  rewrite Ha'. simpl. destruct (is_split s) eqn:Hs; [right|left; done]. split; [done|].
  destruct (f_split _ _ _ _ _ _ _ _ F Hs) as ((s' & l & -> & Hd' & Hs') & Hr & Hlt).
  destruct (get_front r' held' (s' :: l) (f_inv _ _ _ _ _ _ _ _ F)) as (r2 & p2 & s2 & held2 & rest2 & F2); [done|].
  exists r2, p2, s2, held2, rest2.
  assert (is_split s2 = false) as Hs2.
  { pose proof (f_items _ _ _ _ _ _ _ _ F2) as E. unfold items, nondummy in E. simpl in E.
    rewrite Hd' in E. simpl in E. by injection E as <- _. }
  split_and!; [done..|]. pose proof (f_addr _ _ _ _ _ _ _ _ F2 _ _ eq_refl Hd') as Ep.
  destruct (inv_not_byte _ _ _ (f_inv _ _ _ _ _ _ _ _ F)) as (_ & Hg' & _).
  rewrite Hg', (f_get _ _ _ _ _ _ _ _ F2), Hs2. rewrite Ep, Hr.
  replace (_ <? p) with true by (symmetry; by apply Z.ltb_lt). done.
Qed.

(** ** Client sequences *)

(** A client that logs what it sent and received, and the items (address and
    contents when received) it still has to return. *)
Record client := mkClient {
  cl_rb : Ringbuffer_t;
  cl_sent : list (list Z);
  cl_recv : list (list Z);
  cl_out : list (Z * list Z)
}.

Definition bytes_at (r : Ringbuffer_t) (p n : Z) : list Z := read_bytes (storage r) p (Z.to_nat n).

(** The part of the storage that is not free is outstanding as a whole. *)
Definition all_outstanding (r : Ringbuffer_t) : bool := full r && (pucFree r =? pucRead r).

(** With [whole], items of allow-split buffers are only received with
    [xRingbufferReceiveSplit]. *)
Inductive client_step (whole : bool) : client -> client -> Prop :=
| cs_send r S R O d ok r' :
    xRingbufferSendFromISR (Some d) (Z.of_nat (length d)) r = Some (ok, r') ->
    client_step whole (mkClient r S R O) (mkClient r' (if ok : bool then S ++ [d] else S) R O)
| cs_receive_none r S R O r' :
    xRingbufferReceiveFromISR r = Some (None, r') ->
    client_step whole (mkClient r S R O) (mkClient r' S R O)
| cs_receive r S R O p n r' :
    whole = false \/ is_nosplit r = true ->
    xRingbufferReceiveFromISR r = Some (Some (p, n), r') ->
    client_step whole (mkClient r S R O)
      (mkClient r' S (R ++ [bytes_at r' p n]) (O ++ [(p, bytes_at r' p n)]))
| cs_receive_split_whole r S R O p n r' :
    xRingbufferReceiveSplitFromISR r = Some (Some ((p, n), None), r') ->
    client_step whole (mkClient r S R O)
      (mkClient r' S (R ++ [bytes_at r' p n]) (O ++ [(p, bytes_at r' p n)]))
| cs_receive_split r S R O p1 n1 p2 n2 r' :
    xRingbufferReceiveSplitFromISR r = Some (Some ((p1, n1), Some (p2, n2)), r') ->
    client_step whole (mkClient r S R O)
      (mkClient r' S (R ++ [bytes_at r' p1 n1 ++ bytes_at r' p2 n2])
         (O ++ [(p1, bytes_at r' p1 n1); (p2, bytes_at r' p2 n2)]))
| cs_return r S R O1 p d O2 r' :
    vRingbufferReturnItem (Some p) r = Some r' ->
    client_step whole (mkClient r S R (O1 ++ (p, d) :: O2)) (mkClient r' S R (O1 ++ O2)).

(** The step is not the return of one of several outstanding items that
    together fill the buffer. *)
Definition returns_safely (c c' : client) : Prop :=
  (length (cl_out c') < length (cl_out c))%nat -> all_outstanding (cl_rb c) = false \/ cl_out c' = [].

(** The states of runs without such a return. *)
Definition client_reach (whole : bool) (r0 : Ringbuffer_t) (c : client) : Prop :=
  rtc (fun c c' => client_step whole c c' /\ returns_safely c c') (mkClient r0 [] [] []) c.

(** ** The invariant of client sequences *)

Record client_inv (whole : bool) (k : bool * Z * Z) (c : client) (held wait : list slot) (W : list (list Z)) : Prop := {
  ci_inv : inv (cl_rb c) held wait;
  ci_out : cl_out c = outstanding (pucHead (cl_rb c)) (pucTail (cl_rb c)) (pucFree (cl_rb c)) held;
  ci_queue : assembles (parts wait) W;
  ci_bytes : concat (cl_sent c) = concat (cl_recv c) ++ concat W;
  ci_items : whole = true -> cl_sent c = cl_recv c ++ W;
  ci_nosplit : is_nosplit (cl_rb c) = true -> Forall (fun x => x.2 = false) (parts wait);
  ci_drained : cl_out c = [] -> held = [];
  ci_fixed : fixed (cl_rb c) = k
}.
Arguments ci_inv {_ _ _ _ _ _} _.
Arguments ci_out {_ _ _ _ _ _} _.
Arguments ci_queue {_ _ _ _ _ _} _.
Arguments ci_bytes {_ _ _ _ _ _} _.
Arguments ci_items {_ _ _ _ _ _} _.
Arguments ci_nosplit {_ _ _ _ _ _} _.
Arguments ci_drained {_ _ _ _ _ _} _.
Arguments ci_fixed {_ _ _ _ _ _} _.

Lemma frame_give b s r : frame (give_if b s r) = frame r /\ storage (give_if b s r) = storage r.
Proof. by destruct b, s. Qed.

Lemma frame_nosplit r r' : frame r' = frame r -> is_nosplit r' = is_nosplit r.
Proof. unfold frame, is_nosplit. by intros [= -> _ _ _ _ _]. Qed.

Lemma frame_out r r' l : frame r' = frame r ->
  outstanding (pucHead r') (pucTail r') (pucFree r') l = outstanding (pucHead r) (pucTail r) (pucFree r) l.
Proof. unfold frame. by intros [= _ _ _ -> -> ->]. Qed.

Lemma frame_fixed r r' : frame r' = frame r -> fixed r' = fixed r.
Proof. unfold frame, fixed, is_nosplit. by intros [= -> -> -> _ _ _]. Qed.

(** One part leaves the queue. *)
Lemma pop_part d b l W : assembles ((d, b) :: l) W ->
  exists W', assembles l W' /\ concat W = d ++ concat W' /\ (b = false -> W = d :: W').
Proof.
  inversion 1; subst; [by eexists|]. eexists. split; [by constructor|].
  simpl. by rewrite <- app_assoc.
Qed.

Lemma pop_split d1 d2 l W : assembles ((d1, true) :: (d2, false) :: l) W ->
  exists W', assembles l W' /\ W = (d1 ++ d2) :: W'.
Proof. inversion 1; subst. by eexists. Qed.

Section Fetched.
Context {r held wait r' p s held' rest} (F : fetched r held wait r' p s held' rest).

Lemma fetched_parts : parts wait = (s_data s, is_split s) :: parts rest.
Proof. unfold parts. by rewrite (f_items _ _ _ _ _ _ _ _ F). Qed.

Lemma fetched_bytes b : bytes_at (give_if b RX_SEM r') p (s_len s) = s_data s.
Proof.
  unfold bytes_at. rewrite (proj2 (frame_give _ _ _)), (f_storage _ _ _ _ _ _ _ _ F).
  apply (f_bytes _ _ _ _ _ _ _ _ F).
Qed.

Lemma fetched_client whole k S R O W b :
  client_inv whole k (mkClient r S R O) held wait W ->
  (whole = true -> is_split s = false) ->
  exists W', client_inv whole k (mkClient (give_if b RX_SEM r') S (R ++ [s_data s])
                                (O ++ [(p, s_data s)])) held' rest W'.
Proof.
  intros C Hw. destruct C; simpl in *. rewrite fetched_parts in *.
  destruct (pop_part _ _ _ _ ci_queue0) as (W' & A & Ec & Ew).
  destruct (frame_give b RX_SEM r') as [Ef _]. rewrite (f_frame _ _ _ _ _ _ _ _ F) in Ef.
  exists W'. split; simpl.
  - apply inv_give_if, F.
  - by rewrite (frame_out _ _ _ Ef), (f_out _ _ _ _ _ _ _ _ F), ci_out0.
  - done.
  - rewrite concat_app. simpl. by rewrite ci_bytes0, Ec, app_nil_r, <- app_assoc.
  - intros Hwh. by rewrite ci_items0, (Ew (Hw Hwh)), <- app_assoc by done.
  - rewrite (frame_nosplit _ _ Ef). intros Hk. by apply ci_nosplit0, Forall_cons_iff in Hk as [_ ?].
  - by destruct O.
  - by rewrite (frame_fixed _ _ Ef).
Qed.
End Fetched.

(** Both parts of a split item leave the queue. *)
Lemma fetched_client_two {r held wait r1 p1 s1 h1 rest1 r2 p2 s2 h2 rest2}
    (F1 : fetched r held wait r1 p1 s1 h1 rest1) (F2 : fetched r1 h1 rest1 r2 p2 s2 h2 rest2)
    whole k S R O W b :
  is_split s1 = true -> is_split s2 = false ->
  client_inv whole k (mkClient r S R O) held wait W ->
  exists W', client_inv whole k (mkClient (give_if b RX_SEM r2) S (R ++ [s_data s1 ++ s_data s2])
                                (O ++ [(p1, s_data s1); (p2, s_data s2)])) h2 rest2 W'.
Proof.
  intros Hs1 Hs2 C. destruct C; simpl in *. pose proof (f_frame _ _ _ _ _ _ _ _ F1) as E1.
  rewrite (fetched_parts F1), (fetched_parts F2), Hs1, Hs2 in *.
  destruct (pop_split _ _ _ _ ci_queue0) as (W' & A & ->).
  destruct (frame_give b RX_SEM r2) as [Ef _]. rewrite (f_frame _ _ _ _ _ _ _ _ F2) in Ef.
  pose proof (f_out _ _ _ _ _ _ _ _ F2) as O2. rewrite !(frame_out _ _ _ E1) in O2.
  exists W'. split; simpl.
  - apply inv_give_if, F2.
  - rewrite (frame_out _ _ _ (eq_trans Ef E1)), O2, (f_out _ _ _ _ _ _ _ _ F1), ci_out0.
    by rewrite <- app_assoc.
  - done.
  - simpl in ci_bytes0. rewrite concat_app. simpl. by rewrite ci_bytes0, app_nil_r, <- !app_assoc.
  - intros Hw. by rewrite ci_items0, <- app_assoc.
  - rewrite (frame_nosplit _ _ (eq_trans Ef E1)). intros Hk.
    apply ci_nosplit0, Forall_cons_iff in Hk as [_ Hk]. by apply Forall_cons_iff in Hk as [_ ?].
  - by destruct O.
  - by rewrite (frame_fixed _ _ (eq_trans Ef E1)).
Qed.

(** [xRingbufferReceiveSplit] asserts that the buffer is an allow-split one. *)
Lemma receive_split_kind r held wait x : inv r held wait ->
  xRingbufferReceiveSplitFromISR r = Some x -> is_nosplit r = false.
Proof.
  intros I. unfold xRingbufferReceiveSplitFromISR.
  destruct (inv_not_byte _ _ _ I) as (_ & _ & -> & _). destruct (is_nosplit r); simpl; [|done]. discriminate.
Qed.

Lemma send_isr_spec r held wait d : inv r held wait ->
  let n := Z.of_nat (length d) in
  let fits := (n <=? xMaxItemSize r) && bool_decide (prvCheckItemFitsDefault r n = Some true) in
  exists r', xRingbufferSendFromISR (Some d) n r = Some (fits, r') /\
    (if fits then exists new, inv r' held (wait ++ new) /\ sent_as (is_nosplit r) d (parts new) /\ frame r' = frame r
     else r' = r).
Proof.
  intros I n fits. destruct (inv_not_byte _ _ _ I) as (Hb & _ & _ & _).
  unfold xRingbufferSendFromISR, send_precheck, fits. rewrite Hb. simpl.
  destruct (Z.leb_spec n (xMaxItemSize r)) as [Hle|Hgt]; simpl; cycle 1.
  { replace (xMaxItemSize r <? n) with true by (symmetry; by apply Z.ltb_lt). by exists r. }
  replace (xMaxItemSize r <? n) with false by (symmetry; by apply Z.ltb_ge).
  unfold try_send, call_xCheckItemFits. rewrite (g_fits r (i_geom _ _ _ I)).
  destruct (prvCheckItemFitsDefault r n) as [[]|] eqn:Hf.
  - destruct (send_spec r held wait d n I eq_refl Hle Hf) as (r' & new & -> & I' & Hs & Ef).
    unfold with_free_size. rewrite (free_size_spec _ _ _ I'). eexists. split; [done|].
    simpl. exists new. split_and!; [|done|].
    + apply (inv_give RX_SEM), inv_give_if, I'.
    + rewrite <- Ef. by destruct (0 <? _).
  - exists r. done.
  - rewrite (fits_spec r held wait I n) in Hf; [done|]. unfold n in *. lia.
Qed.

Lemma outstanding_split head tail a l O1 p d O2 :
  outstanding head tail a l = O1 ++ (p, d) :: O2 ->
  exists h1 s h2, l = h1 ++ s :: h2 /\ is_free s = false /\ is_dummy s = false /\
    p = endp head tail a h1 + rbHEADER_SIZE /\ d = s_data s /\
    O1 = outstanding head tail a h1 /\ O2 = outstanding head tail (next head tail (endp head tail a h1) s) h2.
Proof.
  revert a O1. induction l as [|s l IH]; intros a O1; simpl; [by destruct O1|].
  destruct (is_free s || is_dummy s) eqn:Hs; simpl.
  - intros E. destruct (IH _ _ E) as (h1 & s' & h2 & -> & ? & ? & ? & ? & ? & ?).
    exists (s :: h1), s', h2. simpl. rewrite Hs. done.
  - destruct O1 as [|o O1]; simpl; intros [= <- E]; simplify_eq/=.
    + apply orb_false_iff in Hs as []. by exists [], s, l.
    + destruct (IH _ _ E) as (h1 & s' & h2 & -> & ? & ? & ? & ? & ? & ?).
      exists (s :: h1), s', h2. simpl. rewrite Hs. simpl. split_and!; try done. by f_equal.
Qed.

Lemma held_not_all r held wait : inv r held wait -> all_outstanding r = false -> held <> [] ->
  used (pucHead r) (pucTail r) (pucFree r) held < xSize r.
Proof.
  intros I Ha Hne. unfold all_outstanding in Ha. rewrite (i_full _ _ _ I) in Ha.
  pose proof (inv_used_app _ _ _ I). pose proof (inv_used_nonneg _ _ _ I). pose proof (i_used _ _ _ I).
  pose proof (inv_read_cases _ _ _ I). pose proof (i_free _ _ _ I) as (? & ? & ?).
  pose proof (size_eq r (i_geom _ _ _ I)).
  destruct (decide (used (pucHead r) (pucTail r) (pucFree r) held < xSize r)); [done|].
  rewrite (proj2 (Z.eqb_eq _ _)), (proj2 (Z.eqb_eq (pucFree r) _)) in Ha; [done|rlia..].
Qed.

Lemma frame_advance_free fuel r r' : advance_free fuel r = Some r' ->
  (fixed r', pucHead r', pucTail r') = (fixed r, pucHead r, pucTail r).
Proof.
  revert r. induction fuel as [|fuel IH]; intros r; [done|]. cbn [advance_free].
  destruct (_ && _); [|by intros [= ->]]. destruct (flag_test _ _).
  - intros H. apply IH in H. rewrite H. by destruct (no_room_for_header _ _).
  - destruct (_ <=? _); [|done]. intros H. apply IH in H. rewrite H. by destruct (no_room_for_header _ _).
Qed.

Lemma frame_return r p r' : prvReturnItemDefault r p = Some r' ->
  (fixed r', pucHead r', pucTail r') = (fixed r, pucHead r, pucTail r).
Proof.
  unfold prvReturnItemDefault. asserts. destruct (advance_free _ _) as [r1|] eqn:E; [|done].
  intros [= <-]. apply frame_advance_free in E. change (fixed (set_storage _ r)) with (fixed r) in E.
  rbsimpl. rewrite <- E. by repeat case_match.
Qed.

Lemma return_spec r held wait O1 p d O2 :
  inv r held wait -> outstanding (pucHead r) (pucTail r) (pucFree r) held = O1 ++ (p, d) :: O2 ->
  all_outstanding r = false \/ O1 ++ O2 = [] ->
  exists r' held', vRingbufferReturnItem (Some p) r = Some r' /\ inv r' held' wait /\
    outstanding (pucHead r') (pucTail r') (pucFree r') held' = O1 ++ O2 /\ fixed r' = fixed r /\
    (O1 ++ O2 = [] -> held' = []).
Proof.
  intros I E Hd. destruct (outstanding_split _ _ _ _ _ _ _ _ E)
    as (h1 & s & h2 & -> & Hf & Hdm & -> & -> & E1 & E2).
  destruct (freed_flags s) as (Hff & Hdf & _).
  assert (Eo : outstanding (pucHead r) (pucTail r) (pucFree r) (h1 ++ freed s :: h2) = O1 ++ O2).
  { rewrite outstanding_app, E1, E2. simpl. rewrite Hff. simpl.
    by rewrite (next_same _ _ s (freed s)) by done. }
  destruct (return_item_spec r h1 s h2 wait I Hdm Hf) as (r' & Er & I' & O').
  { destruct Hd as [Hd|Hd]; [left|right].
    - apply (held_not_all _ _ _ I Hd). by destruct h1.
    - eapply none_outstanding. by rewrite Eo. }
  unfold vRingbufferReturnItem, call_vReturnItem. rewrite (g_return r (i_geom _ _ _ I)), Er.
  eexists _, _. split; [done|]. apply frame_return in Er. injection Er as Ek Em Es Eh Et.
  split_and!; [apply (inv_give TX_SEM), I'| | |].
  - change (outstanding (pucHead r') (pucTail r') (pucFree r') (drop_free (h1 ++ freed s :: h2)) = O1 ++ O2).
    by rewrite Eh, Et, O'.
  - unfold fixed, is_nosplit in *. simpl. by rewrite Ek, Em, Es.
  - intros En. eapply none_outstanding. by rewrite Eo.
Qed.

(** ** Every step keeps the invariant *)

Lemma client_step_inv whole k c c' held wait W :
  client_inv whole k c held wait W -> client_step whole c c' -> returns_safely c c' ->
  exists held' wait' W', client_inv whole k c' held' wait' W'.
Proof.
  intros C St Safe. pose proof (ci_inv C) as I. destruct St; simpl in I.
  - destruct (send_isr_spec r held wait d I) as (r1 & E & H1). rewrite E in H. injection H as <- <-.
    destruct ((_ <=? _) && _); [|subst r1; by exists held, wait, W].
    destruct H1 as (new & I1 & Hs & Ef). exists held, (wait ++ new), (W ++ [d]). destruct C; simpl in *.
    split; simpl; try done.
    + by rewrite (frame_out _ _ _ Ef).
    + rewrite parts_app. eapply assembles_app, sent_as_assembles; done.
    + rewrite !concat_app, ci_bytes0. by rewrite app_assoc.
    + intros Hw. by rewrite ci_items0, app_assoc.
    + rewrite (frame_nosplit _ _ Ef), parts_app. intros Hk. apply Forall_app. split; [by auto|].
      rewrite Hk in Hs. destruct Hs as [->|[? _]]; [by repeat constructor|done].
    + by rewrite (frame_fixed _ _ Ef).
  - destruct (receive_spec r held wait I) as [[-> E]|(r1 & p & s & held' & rest & F & E)];
      rewrite E in H; simplify_eq/=. by exists held, [], W.
  - destruct (receive_spec r held wait I) as [[-> E]|(r1 & p1 & s & held' & rest & F & E)];
      rewrite E in H0; simplify_eq/=. rewrite (fetched_bytes F).
    exists held', rest. apply (fetched_client F _ _ _ _ _ _ _ C). intros Hw.
    destruct H as [?|Hk]; [congruence|]. pose proof (ci_nosplit C Hk) as Hp. simpl in Hp.
    rewrite (fetched_parts F) in Hp. by apply Forall_cons_iff in Hp as [? _].
  - pose proof (receive_split_kind _ _ _ _ I H) as Hk.
    destruct (receive_split_spec r held wait I Hk) as
      [[-> E]|(r1 & p1 & s & held' & rest & F & [[Hs E]|[Hs (? & ? & ? & ? & ? & _ & _ & E)]])];
      rewrite E in H; simplify_eq/=. rewrite (fetched_bytes F).
    exists held', rest. by apply (fetched_client F _ _ _ _ _ _ _ C).
  - pose proof (receive_split_kind _ _ _ _ I H) as Hk.
    destruct (receive_split_spec r held wait I Hk) as
      [[-> E]|(r1 & q1 & s & held' & rest & F & [[Hs E]|[Hs (r2 & q2 & s2 & h2 & rest2 & F2 & Hs2 & E)]])];
      rewrite E in H; simplify_eq/=. rewrite (fetched_bytes F2).
    replace (bytes_at _ p1 _) with (s_data s); cycle 1.
    { rewrite <- (fetched_bytes F (0 <? xItemsWaiting r2)). unfold bytes_at.
      by rewrite !(proj2 (frame_give _ _ _)), (f_storage _ _ _ _ _ _ _ _ F2). }
    exists h2, rest2. by apply (fetched_client_two F F2 _ _ _ _ _ _ _ Hs Hs2 C).
  - destruct (return_spec r held wait O1 p d O2 I) as (r1 & held' & E & I1 & Eo & Ek & Ed).
    { symmetry. apply C. }
    { apply Safe. cbn [cl_out]. rewrite !length_app. simpl. lia. }
    rewrite E in H. injection H as <-. exists held', wait, W. destruct C; simpl in *.
    split; simpl; try done; [|by rewrite Ek]. unfold fixed in Ek. by injection Ek as -> _ _.
Qed.
