(* ===== verification/RingbufTheorems.v ===== *)
(** * Item ring buffers: what the application can rely on

    The properties of no-split and allow-split ring buffers from
    [xRingbufferCreate] on, for every sequence of sends, receives and returns
    ([RingbufQueue.client_step]). *)

From stdpp Require Import relations.
From S2P Require Import Prelude CMem Ringbuf RingbufApi RingbufChain RingbufItems RingbufSend RingbufQueue.

(** ** A new buffer *)

(** What [xRingbufferCreate] needs of the heap: blocks are word aligned, not
    at address 0 and inside the address space. *)
Definition malloc_ok (malloc : Z -> option Z) : Prop :=
  forall n p, malloc n = Some p -> 0 < p /\ p mod 4 = 0 /\ p + n < 2 ^ 32.

(** The smallest size whose maximum item size does not wrap around. *)
Definition min_size (ty : RingbufferType_t) : Z :=
  match ty with RINGBUF_TYPE_NOSPLIT => 9 | RINGBUF_TYPE_ALLOWSPLIT => 13 | _ => 1 end.

Definition item_type (ty : RingbufferType_t) : Prop :=
  ty = RINGBUF_TYPE_NOSPLIT \/ ty = RINGBUF_TYPE_ALLOWSPLIT.

(** A buffer that [xRingbufferCreate] made. *)
Record created (r : Ringbuffer_t) (ty : RingbufferType_t) (size : Z) : Prop := {
  cr_type : item_type ty;
  cr_size : min_size ty <= size < 2 ^ 31 - 4;
  cr_create : exists malloc m, malloc_ok malloc /\ xRingbufferCreate true malloc m size ty = Some (Some r)
}.

Lemma created_init r ty size : created r ty size -> exists p m,
  r = prvInitializeNewRingbuffer (align4 size) ty p m /\ 0 < p /\ p mod 4 = 0 /\ p + align4 size < 2 ^ 32.
Proof.
  intros [Ht Hs (malloc & m & Hm & E)]. unfold xRingbufferCreate in E.
  assert (0 < size) by (destruct ty; simpl in Hs; lia).
  rewrite (proj2 (Z.ltb_lt 0 size)) in E by lia.
  assert (Ea : rbALIGN_SIZE size = align4 size) by (apply rbALIGN_SIZE_spec; lia).
  destruct Ht as [-> | ->]; simpl in E; rewrite Ea in E;
    (destruct (malloc (align4 size)) as [p|] eqn:Ep; simplify_eq/=; exists p, m; split; [done|]; by apply Hm).
Qed.

Lemma created_inv r ty size : created r ty size -> inv r [] [].
Proof.
  intros C. pose proof (cr_size _ _ _ C) as Hs. pose proof (cr_type _ _ _ C) as Ht.
  destruct (created_init _ _ _ C) as (p & m & E & Hp & Hpa & Hpe).
  pose proof (align4_bounds size). pose proof (align4_mod size).
  assert (G : rb_geom r).
  { destruct Ht as [-> | ->]; subst r; simpl in Hs; split; simpl; try done; unfold rbHEADER_SIZE; try lia.
    - apply u32_range.
    - assert (8 <= align4 (align4 size / 2) < 2 ^ 31).
      { pose proof (align4_bounds (align4 size / 2)). unfold align4 in *.
        Z.to_euclidean_division_equations. lia. }
      rewrite rbALIGN_SIZE_spec by (Z.to_euclidean_division_equations; lia).
      split; [|done]. rewrite u32_small; lia.
    - apply u32_range.
    - assert (16 <= align4 size) by (Z.to_euclidean_division_equations; lia).
      split; [|done]. rewrite u32_small; lia. }
  assert (Hsz : rbHEADER_SIZE <= align4 size).
  { destruct Ht as [-> | ->]; simpl in Hs; rlia. }
  destruct Ht as [-> | ->]; subst r; (split; [split|]); simpl in *; try done; unfold pos_ok; simpl; try rlia.
  all: change (false = (0 =? align4 size)); symmetry; apply Z.eqb_neq; rlia.
Qed.

Lemma created_fixed r ty size : created r ty size ->
  xSize r = align4 size /\ is_nosplit r = bool_decide (ty = RINGBUF_TYPE_NOSPLIT) /\
  0 <= xMaxItemSize r.
Proof.
  intros C. pose proof (g_max _ (i_geom _ _ _ (created_inv _ _ _ C))).
  pose proof (cr_type _ _ _ C) as Ht. destruct (created_init _ _ _ C) as (p & m & -> & _).
  by destruct Ht as [-> | ->].
Qed.

Lemma client_reach_inv whole r ty size c :
  created r ty size -> client_reach whole r c -> exists held wait W, client_inv whole (fixed r) c held wait W.
Proof.
  intros C H. assert (I0 : client_inv whole (fixed r) (mkClient r [] [] []) [] [] []).
  { split; simpl; try done; [by apply (created_inv _ _ _ C)|constructor]. }
  unfold client_reach in H. remember (mkClient r [] [] []) as c0. clear Heqc0.
  assert (exists held wait W, client_inv whole (fixed r) c0 held wait W) as I by eauto. clear I0.
  induction H as [|c0 c1 c2 [St Safe] _ IH]; [done|]. apply IH. destruct I as (held & wait & W & I).
  by apply (client_step_inv whole _ c0 c1 held wait W).
Qed.

Lemma outstanding_intact head tail m a l :
  slots head tail m a l -> geoms head tail a l ->
  Forall (fun x => read_bytes m (fst x) (length (snd x)) = snd x) (outstanding head tail a l).
Proof.
  revert a. induction l as [|s l IH]; intros a; simpl; [by constructor|].
  intros [(_ & _ & Hb) Hs] [_ Hg]. apply Forall_app. split; [|by apply IH].
  destruct (_ || _); [by constructor|]. constructor; [|by constructor]. simpl.
  rewrite <- Hb, length_read_bytes. done.
Qed.

(** ** The current maximum item size *)

Section CurMax.
Context (r : Ringbuffer_t) (held wait : list slot) (I : inv r held wait).
Abbreviation h := (pucHead r).
Abbreviation t := (pucTail r).
Abbreviation a := (pucAcquire r).
Abbreviation f := (pucFree r).

(** The free bytes the two functions compute, without wrap-around. *)
Definition free_nosplit : Z := (if a <? f then f - a else Z.max (t - a) (f - h)) - rbHEADER_SIZE.
Definition free_allow : Z :=
  if (a =? h) && (f =? h) then xSize r - rbHEADER_SIZE
  else if a <? f then f - a - rbHEADER_SIZE
  else (f - h) + (t - a) - rbHEADER_SIZE * 2.

Lemma max_nosplit_spec : full r = false ->
  prvGetCurMaxSizeNoSplit r = limit_free_size r free_nosplit.
Proof.
  intros Hf. pose proof (room_facts r held wait I).
  unfold prvGetCurMaxSizeNoSplit, free_nosplit. fold (full r). rewrite Hf.
  rewrite !(ptrdiff_in r (i_geom _ _ _ I)), (u32_small (t - a)), (u32_small (f - h))
    by (unfold in_storage; lia).
  f_equal. unfold rbHEADER_SIZE. repeat zcase; rewrite ?(i32_small (f - h)), ?(i32_small (t - a)), i32_small; lia.
Qed.

Lemma max_allow_spec : full r = false ->
  prvGetCurMaxSizeAllowSplit r = limit_free_size r free_allow.
Proof.
  intros Hf. pose proof (room_facts r held wait I).
  unfold prvGetCurMaxSizeAllowSplit, free_allow. fold (full r). rewrite Hf.
  rewrite !(ptrdiff_in r (i_geom _ _ _ I)) by (unfold in_storage; lia).
  f_equal. unfold rbHEADER_SIZE. repeat zcase; simpl; try zcase; rewrite i32_small; lia.
Qed.

Lemma limit_free_size_spec x n : x < 2 ^ 31 -> 0 <= xMaxItemSize r ->
  0 <= n <= limit_free_size r x -> 0 < limit_free_size r x -> n <= xMaxItemSize r /\ n <= x.
Proof.
  intros Hx Hm. unfold limit_free_size. destruct (Z.ltb_spec x 0); [lia|].
  rewrite u32_small by lia. zcase; lia.
Qed.

(** What is reported as the current maximum fits. *)
Lemma cur_max_sound n :
  0 <= n <= call_xGetCurMaxSize r -> 0 < call_xGetCurMaxSize r ->
  n <= xMaxItemSize r /\ prvCheckItemFitsDefault r n = Some true.
Proof.
  intros Hn Hpos. pose proof (proj1 Hn). pose proof (i_geom _ _ _ I) as G. pose proof (g_type r G) as T.
  pose proof (room_facts r held wait I) as R. pose proof (max_lt_size r held wait I) as M.
  pose proof (g_max r G). unfold call_xGetCurMaxSize in *.
  assert (A : align4 n = n \/ align4 n = n + 1 \/ align4 n = n + 2 \/ align4 n = n + 3)
    by (pose proof (align4_bounds n); lia). pose proof (align4_mod n) as A4.
  destruct (vCopyItem r) eqn:Hk; [| |done]; destruct T as (Em & Hsp & Eg); rewrite Eg in *;
    (destruct (full r) eqn:Hf; [unfold prvGetCurMaxSizeNoSplit, prvGetCurMaxSizeAllowSplit, full in *;
       rewrite Hf in *; lia|]).
  - rewrite max_nosplit_spec in * by done. apply limit_free_size_spec in Hn as [Hm Hn]; try done.
    + split; [done|]. rewrite (fits_spec r held wait I n), Hf, Hsp by lia. f_equal.
      unfold free_nosplit, rbHEADER_SIZE in *. revert Hn. repeat zcase; intros; try done; try lia.
      all: Z.to_euclidean_division_equations; lia.
    + unfold free_nosplit, rbHEADER_SIZE. zcase; lia.
  - rewrite max_allow_spec in * by done. apply limit_free_size_spec in Hn as [Hm Hn]; try done.
    + split; [done|]. rewrite (fits_spec r held wait I n), Hf, Hsp by lia. f_equal.
      unfold free_allow, rbHEADER_SIZE in *. revert Hn. repeat zcase; simpl; intros; try done; try lia.
      all: Z.to_euclidean_division_equations; lia.
    + unfold free_allow, rbHEADER_SIZE. repeat zcase; simpl; lia.
Qed.
End CurMax.

(** ** Properties *)



(** Even when the items of an allow-split buffer are received part by
    part, the bytes received are a prefix of the bytes sent. *)
Theorem ringbuf_bytes_fifo r ty size c :
  created r ty size -> client_reach false r c ->
  exists waiting, concat (cl_sent c) = concat (cl_recv c) ++ waiting.
Proof.
  intros C H. destruct (client_reach_inv _ _ _ _ _ C H) as (held & wait & W & I).
  exists (concat W). apply I.
Qed.



(** If xRingbufferGetCurFreeSize reports a positive size, an item of at
    most that size can be sent at once. *)
Theorem ringbuf_free_size_sound whole r ty size c d :
  created r ty size -> client_reach whole r c ->
  0 < xRingbufferGetCurFreeSize (cl_rb c) ->
  Z.of_nat (length d) <= xRingbufferGetCurFreeSize (cl_rb c) ->
  exists r', xRingbufferSendFromISR (Some d) (Z.of_nat (length d)) (cl_rb c) = Some (true, r').
Proof.
  intros C H Hp Hd. destruct (client_reach_inv _ _ _ _ _ C H) as (held & wait & W & I).
  destruct (cur_max_sound _ _ _ (ci_inv I) (Z.of_nat (length d))) as [Hm Hf]; [split; [lia|done]|done|].
  destruct (send_isr_spec _ _ _ d (ci_inv I)) as (r' & -> & _). exists r'.
  by rewrite (proj2 (Z.leb_le _ _) Hm), (bool_decide_eq_true_2 _ Hf).
Qed.

(** ** An example run *)

(** A no-split buffer of 32 bytes: two items are sent, the first is received
    and returned, the second is received. *)
Definition ex_malloc (n : Z) : option Z := if n <=? 4096 then Some 1000 else None.
Definition ex_mem : mem := fun _ => 0.
Definition ex_rb : Ringbuffer_t := prvInitializeNewRingbuffer 32 RINGBUF_TYPE_NOSPLIT 1000 ex_mem.
Definition ex_after (o : option (bool * Ringbuffer_t)) : Ringbuffer_t := match o with Some (_, r) => r | None => ex_rb end.
Definition ex_received (o : option (option (Z * Z) * Ringbuffer_t)) : Ringbuffer_t := match o with Some (_, r) => r | None => ex_rb end.
Definition ex_rb1 : Ringbuffer_t := ex_after (xRingbufferSendFromISR (Some [1; 2; 3]) 3 ex_rb).
Definition ex_rb2 : Ringbuffer_t := ex_received (xRingbufferReceiveFromISR ex_rb1).
Definition ex_rb3 : Ringbuffer_t := match vRingbufferReturnItem (Some 1008) ex_rb2 with Some r => r | None => ex_rb end.

Lemma ex_created : created ex_rb RINGBUF_TYPE_NOSPLIT 32.
Proof.
  split; [by left|simpl; lia|]. exists ex_malloc, ex_mem. split; [|done].
  intros n p. unfold ex_malloc. destruct (Z.leb_spec n 4096); intros [= <-]. split_and!; [lia|done|lia].
Qed.

Lemma ex_send : xRingbufferSendFromISR (Some [1; 2; 3]) 3 ex_rb = Some (true, ex_rb1).
Proof. vm_compute. reflexivity. Qed.
Lemma ex_receive : xRingbufferReceiveFromISR ex_rb1 = Some (Some (1008, 3), ex_rb2).
Proof. vm_compute. reflexivity. Qed.
Lemma ex_return : vRingbufferReturnItem (Some 1008) ex_rb2 = Some ex_rb3.
Proof. vm_compute. reflexivity. Qed.

(** After the send, after the receive, after the return. *)
Definition ex_c1 : client := mkClient ex_rb1 [[1; 2; 3]] [] [].
Definition ex_c2 : client := mkClient ex_rb2 [[1; 2; 3]] [[1; 2; 3]] [(1008, [1; 2; 3])].
Definition ex_c3 : client := mkClient ex_rb3 [[1; 2; 3]] [[1; 2; 3]] [].

Lemma ex_reach1 whole : client_reach whole ex_rb ex_c1.
Proof. apply rtc_once. split; [|by intros ?%Nat.lt_irrefl]. exact (cs_send whole ex_rb [] [] [] [1; 2; 3] true ex_rb1 ex_send). Qed.
Lemma ex_reach2 whole : client_reach whole ex_rb ex_c2.
Proof.
  eapply rtc_r; [apply ex_reach1|]. split; [|by intros ?%Nat.nlt_0_r].
  exact (cs_receive whole ex_rb1 [[1; 2; 3]] [] [] 1008 3 ex_rb2 (or_intror eq_refl) ex_receive).
Qed.
Lemma ex_reach3 whole : client_reach whole ex_rb ex_c3.
Proof.
  eapply rtc_r; [apply ex_reach2|]. split; [|by right].
  exact (cs_return whole ex_rb2 [[1; 2; 3]] [[1; 2; 3]] [] 1008 [1; 2; 3] [] ex_rb3 ex_return).
Qed.



Lemma ringbuf_bytes_fifo_witness : exists waiting, concat (cl_sent ex_c2) = concat (cl_recv ex_c2) ++ waiting.
Proof. exact (ringbuf_bytes_fifo ex_rb _ 32 ex_c2 ex_created (ex_reach2 false)). Defined.



Lemma ringbuf_free_size_sound_witness :
  exists r', xRingbufferSendFromISR (Some [7]) (Z.of_nat (length [7])) (cl_rb ex_c3) = Some (true, r').
Proof.
  refine (ringbuf_free_size_sound true ex_rb _ 32 ex_c3 [7] ex_created (ex_reach3 true) _ _); vm_compute; [reflexivity|discriminate].
Defined.
