(* ===== verification/RingbufBlocking.v ===== *)
(** * Blocking calls on ring buffers

    [xRingbufferSend], [xRingbufferReceive] and [xRingbufferSendAcquire] run
    the loop [wait_loop] against the other tasks.  With a finite timeout the
    loop ends whatever the other tasks do.  [waited] is what happens until
    then: steps of the other tasks while the semaphore is not available, and
    failed attempts when it is; the operation itself happens in the state
    that leaves behind.  [portMAX_DELAY] may wait for ever. *)

From S2P Require Import Prelude CMem Ringbuf RingbufApi RingbufChain RingbufItems RingbufSend RingbufQueue RingbufTheorems.

(** From the buffer and the tick count at the start to those at the end of a
    wait in which the other tasks made these steps; an attempt fails in the
    states of [fails]. *)
Inductive waited (s : rb_sem) (fails : Ringbuffer_t -> Prop) : Ringbuffer_t -> Z -> sched -> Ringbuffer_t -> Z -> Prop :=
| waited_end r now : waited s fails r now [] r now
| waited_other r now e env r' now' : sem_available s r = false ->
    waited s fails (fst (e (r, now))) (snd (e (r, now))) env r' now' -> waited s fails r now (e :: env) r' now'
| waited_failed r now env r' now' : sem_available s r = true -> fails (sem_set s false r) ->
    waited s fails (sem_set s false r) now env r' now' -> waited s fails r now env r' now'.

(** The other tasks keep [P]. *)
Definition env_keeps (P : Ringbuffer_t -> Prop) (env : sched) : Prop := Forall (fun e => forall r now, P r -> P (fst (e (r, now)))) env.

(** The tick count does not decrease or overflow. *)
Definition clock_runs (env : sched) : Prop :=
  Forall (fun e => forall r now, 0 <= now < 2 ^ 32 -> now <= snd (e (r, now)) < 2 ^ 32) env.

Lemma waited_trans s fails r1 n1 e1 r2 n2 e2 r3 n3 : waited s fails r1 n1 e1 r2 n2 -> waited s fails r2 n2 e2 r3 n3 -> waited s fails r1 n1 (e1 ++ e2) r3 n3.
Proof. induction 1; intros H3; [done|by apply waited_other; auto|by apply waited_failed; auto]. Qed.

Lemma waited_keeps s (fails fails' P : Ringbuffer_t -> Prop) r now env r' now' :
  (forall b r, P r -> P (sem_set s b r)) -> (forall r, P r -> fails r -> fails' r) ->
  waited s fails r now env r' now' -> env_keeps P env -> P r -> P r' /\ waited s fails' r now env r' now'.
Proof.
  intros Hs Hf. induction 1 as [|r now e env r' now' Ha _ IH|r now env r' now' Ha Hfl _ IH]; intros He Hp.
  - split; [done|apply waited_end].
  - apply Forall_cons_iff in He as [He1 He]. destruct IH as [? ?]; [done|by apply He1|]. split; [done|by apply waited_other].
  - destruct IH as [? ?]; [done|by apply Hs|]. split; [done|]. apply waited_failed; auto.
Qed.

(** A first attempt that succeeds ends the wait at once. *)
Lemma waited_at_once s (fails : Ringbuffer_t -> Prop) r now env r' now' : waited s fails r now env r' now' ->
  sem_available s r = true -> ~ fails (sem_set s false r) -> r' = r /\ env = [] /\ now' = now.
Proof. destruct 1; intros; [done|congruence|done]. Qed.

Section Wait.
Context {A : Type} (s : rb_sem) (attempt : Ringbuffer_t -> option (option (Ringbuffer_t * A))).
Abbreviation fails := (fun r => attempt r = Some None).

(** [P] holds of the buffer between the steps of all tasks. *)
Context (P : Ringbuffer_t -> Prop).
Context (P_sem : forall b r, P r -> P (sem_set s b r)).
Context (P_attempt : forall r, P r -> is_Some (attempt r)).

(** The semaphore becomes available, or the time is over. *)
Lemma sem_take_spec start ticks env : forall r now, ticks <> portMAX_DELAY ->
  exists taken r1 now1 past env' r' now',
    xSemaphoreTake s start ticks env r now = Some (taken, r', now', env') /\ env = past ++ env' /\
    waited s fails r now past r1 now1 /\ sem_available s r1 = taken /\
    (sem_available s r = false -> taken = true -> past <> []) /\
    (if taken then r' = sem_set s false r1 /\ now' = now1
     else r' = r1 /\ (clock_runs env -> 0 <= start <= now -> now < 2 ^ 32 -> 0 <= ticks -> start + ticks < 2 ^ 32 -> start + ticks <= now')) /\
    (clock_runs env -> 0 <= now < 2 ^ 32 -> now <= now1 < 2 ^ 32).
Proof.
  induction env as [|e env IH]; intros r now Ht; cbn [xSemaphoreTake]; destruct (sem_available s r) eqn:Ha.
  1, 3: (exists true, r, now, []; eexists _, _, _; split_and!; try done; (apply waited_end || (intros; lia))).
  all: rewrite (proj2 (Z.eqb_neq _ _) Ht); cbn [negb andb]; destruct (Z.leb_spec ticks (u32 (now - start))) as [Hle|Hlt].
  1, 3: exists false, r, now, []; eexists _, _, _; (split; [done|]); (split; [done|]); (split; [apply waited_end|]); (split; [done|]);
    (split; [done|]); (split; [|intros; lia]); (split; [done|]); intros _ Hs Hn Ht0 Hst; rewrite u32_small in Hle by lia; lia.
  - exists false, r, now, []. eexists _, _, _. do 2 (split; [done|]). split; [apply waited_end|]. do 2 (split; [done|]). split; [|intros; lia].
    split; [done|]. intros _ Hs Hn Ht0 Hst. rewrite u32_small; lia.
  - destruct (e (r, now)) as [r0 now0] eqn:Ee.
    destruct (IH r0 now0 Ht) as (taken & r1 & now1 & past & env' & r' & now' & -> & -> & W & Hav & _ & Hr & Hc).
    exists taken, r1, now1, (e :: past), env', r', now'. split_and!; try done.
    + apply waited_other; [done|]. by rewrite Ee.
    + destruct taken; [done|]. destruct Hr as [-> Hr]. split; [done|]. intros [H1 H2]%Forall_cons_iff Hs Hn Ht0 Hst.
      specialize (H1 r now). rewrite Ee in H1. cbn in H1. apply Hr; [done|lia..].
    + intros [H1 H2]%Forall_cons_iff Hn. specialize (H1 r now Hn). rewrite Ee in H1. cbn in H1.
      specialize (Hc H2). lia.
Qed.

(** The outcome of a wait: the successful attempt in the state it left, or a
    timeout. *)
Definition waits_for (ticks : Z) (r : Ringbuffer_t) (now : Z) (env : sched) (res : option A) (r' : Ringbuffer_t) (now' : Z) (env' : sched) : Prop :=
  exists past r1 now1, env = past ++ env' /\ waited s fails r now past r1 now1 /\
    match res with
    | Some a => sem_available s r1 = true /\ attempt (sem_set s false r1) = Some (Some (r', a)) /\ now' = now1
    | None => r' = r1 /\ sem_available s r1 = false /\
        (clock_runs env -> 0 <= now -> now + ticks < 2 ^ 32 -> now + ticks <= now')
    end.

(** A tick count after the end leaves more than the whole time. *)
Lemma remaining_late n0 ticks now : 0 <= ticks -> n0 <= now < 2 ^ 32 -> 0 <= n0 -> n0 + ticks < now -> ticks < u32 (n0 + ticks - now).
Proof.
  intros. unfold u32. replace (n0 + ticks - now) with (2 ^ 32 + (n0 + ticks - now) + (-1) * 2 ^ 32) by lia.
  rewrite Z.mod_add, Z.mod_small by lia. lia.
Qed.

Lemma wait_loop_spec fuel xTicksToWait n0 rem env r now :
  0 <= xTicksToWait < portMAX_DELAY -> 0 <= n0 < 2 ^ 32 -> env_keeps P env -> P r ->
  (length env + (if sem_available s r then 2 else 1) <= fuel)%nat ->
  exists res r' now' env' past r1 now1,
    wait_loop fuel s attempt xTicksToWait (u32 (n0 + xTicksToWait)) rem env r now = Some (res, r', now', env') /\
    env = past ++ env' /\ waited s fails r now past r1 now1 /\
    match res with
    | Some a => sem_available s r1 = true /\ attempt (sem_set s false r1) = Some (Some (r', a)) /\ now' = now1
    | None => r' = r1 /\ (xTicksToWait < rem /\ r1 = r \/ sem_available s r1 = false) /\
        (clock_runs env -> n0 <= now < 2 ^ 32 -> n0 + xTicksToWait < 2 ^ 32 ->
         rem = u32 (n0 + xTicksToWait - now) -> n0 + xTicksToWait <= now')
    end.
Proof.
  intros Ht Hn0. revert rem env r now.
  induction fuel as [|fuel IH]; intros rem env r now He Hp Hf; [destruct (sem_available s r); lia|].
  cbn [wait_loop]. destruct (Z.leb_spec rem xTicksToWait) as [Hr|Hr]; cycle 1.
  { exists None, r, now, env, [], r, now. split_and!; [done|done|apply waited_end|done|by left|].
    intros _ Hn Hs E. destruct (Z.le_gt_cases now (n0 + xTicksToWait)); [|lia]. rewrite u32_small in E; lia. }
  destruct (sem_take_spec now rem env r now) as (taken & r1 & now1 & past & env' & r' & now' & -> & -> & W & Hav & Hd & Hr' & Hc); [lia|].
  destruct taken; cycle 1.
  { destruct Hr' as [-> Hr']. exists None, r1, now', env', past, r1, now1. split_and!; [done|done|done|done|by right|].
    intros Hcl Hn Hs E. destruct (Z.le_gt_cases now (n0 + xTicksToWait)) as [|Hl]; [rewrite u32_small in E by lia; specialize (Hr' Hcl); lia|].
    pose proof (remaining_late n0 xTicksToWait now). lia. }
  destruct Hr' as [-> ->]. apply Forall_app in He as [He1 He2].
  destruct (waited_keeps s fails fails P _ _ _ _ _ P_sem (fun _ _ H => H) W He1 Hp) as [Hp1 _]. destruct (P_attempt _ (P_sem false r1 Hp1)) as [res Ea]. rewrite Ea.
  destruct res as [[r2 a]|].
  - exists (Some a), r2, now1, env', past, r1, now1. by split_and!.
  - destruct (IH (if negb (xTicksToWait =? portMAX_DELAY) then u32 (u32 (n0 + xTicksToWait) - now1) else rem) env' (sem_set s false r1) now1)
      as (res2 & r' & now' & env2 & past2 & r2 & now2 & -> & -> & W2 & H); [done|by apply P_sem| |].
    { assert (sem_available s (sem_set s false r1) = false) as -> by (by destruct s).
      rewrite length_app in Hf. destruct (sem_available s r) eqn:Hr2; [lia|]. specialize (Hd eq_refl eq_refl).
      destruct past; [done|]. simpl in Hf. lia. }
    exists res2, r', now', env2, (past ++ past2), r2, now2. split; [done|]. split; [by rewrite app_assoc|].
    split; [eapply waited_trans; [done|]; by apply waited_failed|]. destruct res2 as [a|]; [done|].
    destruct H as (-> & Hs2 & H). split; [done|]. split.
    + right. destruct Hs2 as [[_ ->]|]; [by destruct s|done].
    + intros [Hc1 Hc2]%Forall_app Hn Hs E. apply H; [done| |done|].
      * destruct Hc; [by apply Forall_app|lia|lia].
      * rewrite (proj2 (Z.eqb_neq xTicksToWait portMAX_DELAY)) by lia. cbn [negb]. rewrite (u32_small (n0 + xTicksToWait)) by lia. done.
Qed.

Lemma block_on_spec xTicksToWait env r now :
  0 <= xTicksToWait < portMAX_DELAY -> 0 <= now < 2 ^ 32 -> env_keeps P env -> P r ->
  exists res r' now' env', block_on s attempt xTicksToWait env r now = Some (res, r', now', env') /\
    waits_for xTicksToWait r now env res r' now' env'.
Proof.
  intros Ht Hn He Hp.
  assert (Hf : (length env + (if sem_available s r then 2 else 1) <= wait_fuel env)%nat) by (unfold wait_fuel; destruct (sem_available s r); lia).
  destruct (wait_loop_spec (wait_fuel env) xTicksToWait now xTicksToWait env r now Ht Hn He Hp Hf)
    as (res & r' & now' & env' & past & r1 & now1 & E & Ee & W & H).
  exists res, r', now', env'. split; [exact E|].
  exists past, r1, now1. split; [done|]. split; [done|]. destruct res as [a|]; [done|].
  destruct H as (-> & Hs & H). split; [done|]. split; [destruct Hs as [[? _]|]; [lia|done]|].
  intros Hc _ Hov. apply H; [done|lia|done|]. rewrite u32_small; [|lia]. lia.
Qed.
End Wait.

(** ** The item operations *)

(** The buffer is consistent and of the given type and size. *)
Definition consistent (k : bool * Z * Z) (r : Ringbuffer_t) : Prop :=
  (exists held wait, inv r held wait) /\ fixed r = k.

Lemma inv_sem s b r held wait : inv r held wait -> inv (sem_set s b r) held wait.
Proof.
  intros I. pose proof (i_geom _ _ _ I) as G. destruct I as [[] Hf].
  destruct s; split; [split|..]; cbn [sem_set]; rbsimpl; try done; keep_geom G.
Qed.

Lemma consistent_sem k s b r : consistent k r -> consistent k (sem_set s b r).
Proof. intros [(held & wait & I) E]. split; [|by destruct s, b]. exists held, wait. by apply inv_sem. Qed.

(** The item [d] is appended to the queue of [r], and the semaphores are
    given: for receivers, and for senders when space is left. *)
Definition enqueued (d : list Z) (r r' : Ringbuffer_t) : Prop :=
  exists held wait new b r2, inv r held wait /\ inv r2 held (wait ++ new) /\ sent_as (is_nosplit r) d (parts new) /\
    frame r2 = frame r /\ r' = xSemaphoreGive RX_SEM (give_if b TX_SEM r2).

(** Without room for [d]. *)
Definition no_room (d : list Z) (r : Ringbuffer_t) : Prop := prvCheckItemFitsDefault r (Z.of_nat (length d)) = Some false.

Lemma try_send_spec k d r : consistent k r -> Z.of_nat (length d) <= k.1.2 ->
  (no_room d r /\ try_send d (Z.of_nat (length d)) r = Some None) \/
  (exists r2 b, prvCheckItemFitsDefault r (Z.of_nat (length d)) = Some true /\
     try_send d (Z.of_nat (length d)) r = Some (Some (r2, (tt, b))) /\
     consistent k r2 /\ enqueued d r (xSemaphoreGive RX_SEM (give_if b TX_SEM r2))).
Proof.
  intros [(held & wait & I) <-] Hd. simpl in Hd. unfold try_send, call_xCheckItemFits, no_room.
  rewrite (g_fits r (i_geom _ _ _ I)).
  destruct (prvCheckItemFitsDefault r (Z.of_nat (length d))) as [[]|] eqn:Hf.
  - right. destruct (send_spec r held wait d _ I eq_refl Hd Hf) as (r1 & new & -> & I1 & Hs & Ef).
    unfold with_free_size. rewrite (free_size_spec _ _ _ I1). eexists _, _. split; [done|]. split; [done|].
    split; [split; [by eauto|by apply frame_fixed]|]. exists held, wait, new. eexists _, r1. by split_and!.
  - by left.
  - rewrite (fits_spec r held wait I) in Hf; [done|]. lia.
Qed.


(** The first item of the queue of [r] is retrieved: [x] points to its bytes,
    the others stay in the queue, and the item is outstanding. *)
Definition dequeued (x : rx_items) (r r2 : Ringbuffer_t) : Prop :=
  exists held wait s held' rest, inv r held wait /\ fetched r held wait r2 (rx1 x).1 s held' rest /\ (rx1 x).2 = s_len s /\
    rx2 x = None /\ parts wait = (s_data s, is_split s) :: parts rest /\
    bytes_at r2 (rx1 x).1 (rx1 x).2 = s_data s.

(** Nothing waits to be received. *)
Definition empty (r : Ringbuffer_t) : Prop := exists held, inv r held [].

Lemma try_receive_spec k r : consistent k r ->
  (empty r /\ try_receive false 0 r = Some None) \/
  (exists r2 x, ~ empty r /\ try_receive false 0 r = Some (Some (r2, x)) /\ consistent k r2 /\ dequeued x r r2).
Proof.
  intros [(held & wait & I) <-]. destruct (inv_not_byte _ _ _ I) as (Hb & Hg & _).
  unfold try_receive. pose proof (avail_spec r held wait I I) as Hav. rewrite Hav.
  destruct (bool_decide_reflect (wait = [])) as [->|Hne]; simpl; [left; split; [by exists held|done]|right].
  destruct (get_front r held wait I Hne) as (r2 & p & s & held' & rest & F).
  unfold fetch_items, call_pvGetItem. rewrite Hb, Hg, (f_get _ _ _ _ _ _ _ _ F), andb_false_r.
  eexists r2, _. split.
  { intros (held2 & I2). rewrite (avail_spec r held2 [] I2 I2) in Hav. by destruct wait. }
  split; [done|]. split; [split; [exists held', rest; apply F|apply frame_fixed, F]|].
  exists held, wait, s, held', rest. split_and!; [done|done|done|done|exact (fetched_parts F)|exact (fetched_bytes F false)].
Qed.


(** ** An example

    Two other tasks: the tick interrupt, and a task that returns the item
    that is outstanding or sends one. *)

Definition ex_tick (x : Ringbuffer_t * Z) : Ringbuffer_t * Z := (fst x, u32 (snd x + 1)).
Definition ex_sender (x : Ringbuffer_t * Z) : Ringbuffer_t * Z :=
  match xRingbufferSendFromISR (Some [5; 6]) 2 (fst x) with Some (_, r) => (r, snd x) | None => x end.
Definition ex_env : sched := [ex_tick; ex_sender; ex_tick].

Lemma ex_consistent : consistent (fixed ex_rb) ex_rb.
Proof. split; [|done]. exists [], []. apply (created_inv _ _ _ ex_created). Qed.

Lemma ex_sender_keeps k r now : consistent k r -> consistent k (fst (ex_sender (r, now))).
Proof.
  intros [(held & wait & I) E]. unfold ex_sender. cbn [fst snd].
  destruct (send_isr_spec r held wait [5; 6] I) as (r' & Er & H). change (Z.of_nat (length [5; 6])) with 2 in *. rewrite Er. cbn [fst].
  destruct ((_ <=? _) && _); [|by subst; split; [exists held, wait|]].
  destruct H as (new & I' & _ & Ef). split; [by eexists _, _|]. by rewrite (frame_fixed _ _ Ef).
Qed.

Lemma ex_env_keeps k : env_keeps (consistent k) ex_env.
Proof.
  repeat (apply List.Forall_cons || apply List.Forall_nil); intros r now C; [done|by apply ex_sender_keeps|done].
Qed.


