(* ===== verification/RingbufByte.v ===== *)
(** * Byte ring buffers

    A byte buffer is a circular array: the bytes between the free and the
    read pointer were handed out and not yet returned, those between the read
    and the write pointer wait to be read. *)

From stdpp Require Import relations.
From S2P Require Import Prelude CMem Ringbuf RingbufApi RingbufItems.

(** ** Circular positions *)

(** The address [x] bytes behind [f] in a storage area of [sz] bytes at [h]. *)
Definition bpos (h sz f x : Z) : Z := if f + x <? h + sz then f + x else f + x - sz.

(** The memory holds [l] from [f] on. *)
Definition cells (m : mem) (h sz f : Z) (l : list Z) : Prop :=
  forall i b, l !! i = Some b -> m (bpos h sz f (Z.of_nat i)) = b.

Lemma memcpy_at m p d j b : d !! j = Some b -> memcpy m p d (p + Z.of_nat j) = b.
Proof.
  revert m p j. induction d as [|x d IH]; intros m p j; [done|]. destruct j as [|j]; cbn [memcpy].
  - intros [= ->]. rewrite Z.add_0_r, memcpy_other by lia. unfold store8. by rewrite Z.eqb_refl.
  - intros H. rewrite <- (IH (store8 m p x) (p + 1) j H). f_equal. lia.
Qed.

Lemma cells_app m h sz f l1 l2 : h <= f < h + sz -> Z.of_nat (length l1 + length l2) <= sz ->
  cells m h sz f (l1 ++ l2) <->
  cells m h sz f l1 /\ cells m h sz (bpos h sz f (Z.of_nat (length l1))) l2.
Proof.
  intros Hf Hl. unfold cells. split.
  - intros H. split; intros i b Hi.
    + apply H. by apply lookup_app_l_Some.
    + assert (i < length l2)%nat by (by eapply lookup_lt_Some).
      rewrite <- (H (length l1 + i)%nat b); [|by rewrite lookup_app_r, Nat.add_comm, Nat.add_sub by lia].
      f_equal. unfold bpos. repeat zcase; lia.
  - intros [H1 H2] i b Hi. apply lookup_app_Some in Hi as [Hi|[Hle Hi]]; [by apply H1|].
    assert (i - length l1 < length l2)%nat by (by eapply lookup_lt_Some).
    rewrite <- (H2 _ _ Hi). f_equal. unfold bpos. repeat zcase; lia.
Qed.

(** A write outside the cells. *)
Lemma cells_frame m m' h sz f l :
  (forall i, 0 <= i < Z.of_nat (length l) -> m' (bpos h sz f i) = m (bpos h sz f i)) ->
  cells m h sz f l -> cells m' h sz f l.
Proof.
  intros F H i b Hi. rewrite F; [by apply H|]. assert (i < length l)%nat by (by eapply lookup_lt_Some). lia.
Qed.

(** Writing [d] behind [l], in one or two pieces. *)
Lemma cells_write m h sz f l d k :
  h <= f < h + sz -> Z.of_nat (length l + length d) <= sz ->
  let p := bpos h sz f (Z.of_nat (length l)) in
  0 < sz -> Z.of_nat (length d) <= h + sz - p /\ (length d <= k)%nat \/
  h + sz - p <= Z.of_nat (length d) /\ Z.of_nat k = h + sz - p ->
  cells m h sz f l ->
  cells (memcpy (memcpy m p (take k d)) h (drop k d)) h sz f (l ++ d).
Proof.
  intros Hf Hl p Hsz Hk H. apply cells_app; [done..|].
  assert (Hp : p = f + Z.of_nat (length l) /\ f + Z.of_nat (length l) < h + sz \/
               p = f + Z.of_nat (length l) - sz /\ h + sz <= f + Z.of_nat (length l))
    by (unfold p, bpos; zcase; lia).
  pose proof (length_take d k). pose proof (length_drop d k). split.
  - eapply cells_frame; [|exact H]. intros i Hi.
    clearbody p. rewrite !memcpy_other; [done|..]; unfold bpos; zcase; lia.
  - fold p. clearbody p. intros i b Hi. assert (i < length d)%nat by (by eapply lookup_lt_Some).
    destruct (decide (i < k)%nat) as [Hik|Hik].
    + replace (bpos h sz p (Z.of_nat i)) with (p + Z.of_nat i) by (unfold bpos; zcase; lia).
      rewrite memcpy_other by lia. apply memcpy_at. rewrite lookup_take_lt by done. done.
    + replace (bpos h sz p (Z.of_nat i)) with (h + Z.of_nat (i - k)) by (unfold bpos; zcase; lia).
      apply memcpy_at. rewrite lookup_drop. rewrite <- Hi. f_equal. lia.
Qed.

(** Contiguous cells are what the application reads. *)
Lemma cells_read m h sz f l : f + Z.of_nat (length l) <= h + sz ->
  cells m h sz f l -> read_bytes m f (length l) = l.
Proof.
  revert f. induction l as [|b l IH]; intros f Hl H; [done|]. cbn [length read_bytes] in *. f_equal.
  - pose proof (H 0%nat b eq_refl) as H0. unfold bpos in H0.
    rewrite Z.add_0_r in H0. revert H0. zcase; [done|lia].
  - apply IH; [lia|]. intros i x Hi. assert (i < length l)%nat by (by eapply lookup_lt_Some).
    rewrite <- (H (S i) x Hi). f_equal. unfold bpos. repeat zcase; lia.
Qed.

(** ** The invariant *)

Record byte_geom (r : Ringbuffer_t) : Prop := {
  bg_head : 0 < pucHead r;
  bg_tail : pucTail r = pucHead r + xSize r;
  bg_tail_max : pucTail r < 2 ^ 32;
  bg_size : 0 < xSize r < 2 ^ 31;
  bg_max : xMaxItemSize r = xSize r;
  bg_byte : rb_flag r rbBYTE_BUFFER_FLAG = true;
  bg_split : rb_flag r rbALLOW_SPLIT_FLAG = false;
  bg_fits : xCheckItemFits r = FitsByteBuffer;
  bg_copy : vCopyItem r = CopyByteBuf;
  bg_get : pvGetItem r = GetByteBuf;
  bg_return : vReturnItem r = ReturnByteBuf;
  bg_cur : xGetCurMaxSize r = MaxSizeByteBuf
}.

Record binv (r : Ringbuffer_t) (held wait : list Z) : Prop := {
  bi_geom : byte_geom r;
  bi_free : pucHead r <= pucFree r < pucTail r;
  bi_held : pucFree r + Z.of_nat (length held) <= pucTail r;
  bi_read : pucRead r = bpos (pucHead r) (xSize r) (pucFree r) (Z.of_nat (length held));
  bi_acquire : pucAcquire r = bpos (pucHead r) (xSize r) (pucFree r) (Z.of_nat (length held + length wait));
  bi_write : pucWrite r = pucAcquire r;
  bi_used : Z.of_nat (length held + length wait) <= xSize r;
  bi_items : xItemsWaiting r = Z.of_nat (length wait);
  bi_cells : cells (storage r) (pucHead r) (xSize r) (pucFree r) (held ++ wait);
  bi_full : full r = (Z.of_nat (length held + length wait) =? xSize r)
}.

Ltac keep_bgeom G := solve [destruct G; split; done].

Lemma byte_set_full r : byte_geom r -> byte_geom (rb_set_flag rbBUFFER_FULL_FLAG r).
Proof.
  intros []. destruct rb_flag_bits as (Ea & Eb & Ef).
  split; unfold rb_flag, rb_set_flag in *; rbsimpl; try done;
    rewrite ?Ea, ?Eb, Ef, flag_test_set by lia; rewrite ?Ea, ?Eb in *; done.
Qed.

Lemma byte_clear_full r : byte_geom r -> byte_geom (rb_clear_flag rbBUFFER_FULL_FLAG r).
Proof.
  intros []. destruct rb_flag_bits as (Ea & Eb & Ef).
  split; unfold rb_flag, rb_clear_flag in *; rbsimpl; try done;
    rewrite ?Ea, ?Eb, Ef, flag_test_clear by lia; rewrite ?Ea, ?Eb in *; done.
Qed.

Section Byte.
Context (r : Ringbuffer_t) (held wait : list Z) (I : binv r held wait).
Abbreviation h := (pucHead r).
Abbreviation t := (pucTail r).
Abbreviation f := (pucFree r).
Abbreviation a := (pucAcquire r).
Abbreviation nh := (Z.of_nat (length held)).
Abbreviation nw := (Z.of_nat (length wait)).

(** Where the pointers are, for [lia]. *)
Lemma byte_facts :
  0 < h /\ t = h + xSize r /\ t < 2 ^ 32 /\ 0 < xSize r < 2 ^ 31 /\ xMaxItemSize r = xSize r /\
  h <= f < t /\ f + nh <= t /\ nh + nw <= xSize r /\
  (pucRead r = f + nh /\ f + nh < t \/ pucRead r = h /\ f + nh = t) /\
  (a = f + nh + nw /\ f + nh + nw < t \/ a = f + nh + nw - xSize r /\ t <= f + nh + nw) /\
  pucWrite r = a /\ xItemsWaiting r = nw.
Proof.
  pose proof (bi_geom _ _ _ I) as []. destruct I as [_ ? ? Hr Ha Hw ? ? _ _].
  unfold bpos in *. rewrite Nat2Z.inj_add in *. split_and!; try done; try lia.
  - rewrite Hr. zcase; lia.
  - rewrite Ha. zcase; lia.
Qed.

Lemma byte_ptrdiff p q : h <= p <= t -> h <= q <= t -> ptrdiff p q = p - q.
Proof. pose proof byte_facts. intros. apply i32_small. lia. Qed.

(** Whatever is not used is free. *)
Lemma byte_fits n : 0 < n <= xSize r ->
  prvCheckItemFitsByteBuffer r n = Some (n <=? xSize r - (nh + nw)).
Proof.
  intros Hn. pose proof byte_facts as F. unfold prvCheckItemFitsByteBuffer, in_bounds.
  replace (h <=? a) with true by (symmetry; apply Z.leb_le; lia).
  replace (a <? t) with true by (symmetry; apply Z.ltb_lt; lia). cbn [andb]. f_equal.
  fold (full r). rewrite (bi_full _ _ _ I), !byte_ptrdiff by lia.
  destruct (Z.eqb_spec a f); [|destruct (Z.ltb_spec a f)]; rewrite ?u32_small by lia.
  - rewrite Nat2Z.inj_add. repeat zcase; simpl; lia.
  - f_equal. lia.
  - f_equal. lia.
Qed.

Lemma byte_free_size : prvGetFreeSize r = Some (xSize r - (nh + nw)).
Proof.
  pose proof byte_facts as F. unfold prvGetFreeSize. fold (full r). rewrite (bi_full _ _ _ I).
  rewrite byte_ptrdiff, Nat2Z.inj_add by lia.
  assert (E : (if nh + nw =? xSize r then 0
           else u32 (if f - a <=? 0 then i32 (f - a + xSize r) else f - a)) = xSize r - (nh + nw)).
  { repeat zcase; rewrite ?i32_small, ?u32_small; lia. }
  rewrite E. replace (_ <=? _) with true by (symmetry; apply Z.leb_le; lia). done.
Qed.

(** The same number is what [xRingbufferGetCurFreeSize] reports. *)
Lemma byte_cur_max : call_xGetCurMaxSize r = xSize r - (nh + nw).
Proof.
  pose proof byte_facts as F. unfold call_xGetCurMaxSize, prvGetCurMaxSizeByteBuf.
  rewrite (bg_cur _ (bi_geom _ _ _ I)). fold (full r). rewrite (bi_full _ _ _ I).
  rewrite byte_ptrdiff, Nat2Z.inj_add by lia.
  repeat zcase; rewrite ?i32_small, ?u32_small; lia.
Qed.

(** The result of a write, whichever way it was done. *)
Lemma byte_after_write d m :
  d <> [] -> Z.of_nat (length d) <= xSize r - (nh + nw) ->
  cells m h (xSize r) f ((held ++ wait) ++ d) ->
  let e := bpos h (xSize r) f (nh + nw + Z.of_nat (length d)) in
  let r1 := mark_if_full (set_acquire e (set_items (xItemsWaiting r + Z.of_nat (length d)) (set_storage m r))) in
  binv (set_write (pucAcquire r1) r1) held (wait ++ d).
Proof.
  intros Hd Hn Hc e. pose proof byte_facts as F. pose proof (bi_geom _ _ _ I) as G.
  assert (0 < Z.of_nat (length d)) by (destruct d; simpl; [done|lia]).
  assert (Hf : full r = false) by (rewrite (bi_full _ _ _ I); apply Z.eqb_neq; lia).
  assert (G1 : byte_geom (set_acquire e (set_items (xItemsWaiting r + Z.of_nat (length d)) (set_storage m r))))
    by keep_bgeom G.
  assert (Ee : (e = f <-> nh + nw + Z.of_nat (length d) = xSize r)) by (unfold e, bpos; zcase; lia).
  unfold mark_if_full. rbsimpl.
  split; rewrite ?length_app, ?app_assoc; destruct (Z.eqb_spec e f); rbsimpl;
    try done; try apply I; try (unfold e; f_equal; lia); try lia.
  - keep_bgeom (byte_set_full _ G1).
  - keep_bgeom G1.
  - change (full (rb_set_flag rbBUFFER_FULL_FLAG r) = (Z.of_nat (length held + (length wait + length d)) =? xSize r)).
    rewrite full_set. symmetry. apply Z.eqb_eq. lia.
  - change (full r = (Z.of_nat (length held + (length wait + length d)) =? xSize r)).
    rewrite Hf. symmetry. apply Z.eqb_neq. lia.
Qed.

Lemma byte_send d : d <> [] -> Z.of_nat (length d) <= xSize r - (nh + nw) ->
  exists r', prvCopyItemByteBuf r d (Z.of_nat (length d)) = Some r' /\ binv r' held (wait ++ d).
Proof.
  intros Hd Hn. pose proof byte_facts as F. set (n := Z.of_nat (length d)) in *.
  assert (0 < n) by (unfold n; destruct d; simpl; [done|lia]).
  set (k := if t - a <? n then Z.to_nat (t - a) else length d).
  set (m2 := memcpy (memcpy (storage r) a (take k d)) h (drop k d)).
  assert (Hc : cells m2 h (xSize r) f ((held ++ wait) ++ d)).
  { unfold m2. rewrite (bi_acquire _ _ _ I), <- length_app. apply cells_write; rewrite ?length_app; try lia.
    - unfold n in *. rewrite <- (bi_acquire _ _ _ I). unfold k. zcase; lia.
    - apply I. }
  exists (let r1 := mark_if_full (set_acquire (bpos h (xSize r) f (nh + nw + n))
                     (set_items (xItemsWaiting r + n) (set_storage m2 r))) in
          set_write (pucAcquire r1) r1).
  split; [|by apply byte_after_write]. unfold prvCopyItemByteBuf, in_bounds.
  replace (h <=? a) with true by (symmetry; apply Z.leb_le; lia).
  replace (a <? t) with true by (symmetry; apply Z.ltb_lt; lia). cbn [andb].
  rewrite byte_ptrdiff, (u32_small (t - a)) by lia. unfold m2, k, bpos.
  destruct (Z.ltb_spec (t - a) n); rbsimpl.
  - rewrite (u32_small (n - _)), (u32_small (h + _)), (i32_small (xItemsWaiting r + (t - a))), i32_small by lia.
    rewrite (take_ge (drop _ d)) by (rewrite length_drop; unfold n; lia).
    replace (xItemsWaiting r + (t - a) + (n - (t - a))) with (xItemsWaiting r + n) by lia.
    assert (E : (if f + (nh + nw + n) <? h + xSize r then f + (nh + nw + n)
                 else f + (nh + nw + n) - xSize r) = h + (n - (t - a))) by (zcase; lia).
    rewrite E. destruct (Z.eqb_spec (h + (n - (t - a))) t); [lia|]. done.
  - rewrite (u32_small (a + n)), i32_small by lia. rewrite !take_ge, drop_ge by (unfold n; lia).
    assert (E : (if f + (nh + nw + n) <? h + xSize r then f + (nh + nw + n)
                 else f + (nh + nw + n) - xSize r) = if a + n =? t then h else a + n)
      by (repeat zcase; lia).
    rewrite E. by destruct (Z.eqb_spec (a + n) t).
Qed.

(** ** Receiving *)

Lemma byte_avail : prvCheckItemAvail r = bool_decide (held = [] /\ wait <> []).
Proof.
  pose proof byte_facts as F. unfold prvCheckItemAvail, items_to_read.
  rewrite (bg_byte _ (bi_geom _ _ _ I)). cbn [andb]. fold (full r). rewrite (bi_full _ _ _ I).
  assert (Hh : held = [] <-> nh = 0) by (destruct held; simpl; split; (done || lia)).
  assert (Hw : wait = [] <-> nw = 0) by (destruct wait; simpl; split; (done || lia)).
  rewrite (bool_decide_ext _ (nh = 0 /\ nw <> 0)) by tauto.
  symmetry. destruct (Z.eqb_spec (pucRead r) f); cbn [negb].
  - destruct (Z.ltb_spec 0 (xItemsWaiting r)); cbn [andb].
    + rewrite bool_decide_eq_true_2 by lia. symmetry.
      destruct (Z.eqb_spec (pucRead r) (pucWrite r)); [|done]. simpl. apply Z.eqb_eq. lia.
    + apply bool_decide_eq_false_2. lia.
  - apply bool_decide_eq_false_2. lia.
Qed.

(** The bytes one call can hand out: those up to the tail. *)
Definition contiguous : Z := Z.min nw (t - f).
Definition chunk (xMaxSize : Z) : nat :=
  Z.to_nat (if xMaxSize =? 0 then contiguous else Z.min contiguous xMaxSize).

Lemma chunk_bounds xMaxSize : 0 <= xMaxSize -> wait <> [] ->
  (0 < chunk xMaxSize <= length wait)%nat /\ f + Z.of_nat (chunk xMaxSize) <= t.
Proof.
  intros Hm Hw. pose proof byte_facts as F.
  assert (0 < nw) by (destruct wait; simpl; [done|lia]). unfold chunk, contiguous. zcase; lia.
Qed.

Lemma byte_get_result xMaxSize : 0 <= xMaxSize < 2 ^ 32 -> held = [] -> wait <> [] ->
  let c := Z.of_nat (chunk xMaxSize) in
  prvGetItemByteBuf r xMaxSize =
    Some (set_read (bpos h (xSize r) f c) (set_items (nw - c) r), f, c).
Proof.
  intros Hm Eh Hw c. pose proof byte_avail as A. pose proof (chunk_bounds xMaxSize ltac:(lia) Hw) as B.
  rewrite bool_decide_eq_true_2 in A by done. unfold prvCheckItemAvail in A.
  pose proof byte_facts as F. rewrite Eh in F. simpl in F.
  assert (Er : pucRead r = f) by lia.
  rewrite (bg_byte _ (bi_geom _ _ _ I)), Er, Z.eqb_refl in A. simpl in A.
  unfold prvGetItemByteBuf, in_bounds. rewrite A, Er, Z.eqb_refl.
  replace (h <=? f) with true by (symmetry; apply Z.leb_le; lia).
  replace (f <? t) with true by (symmetry; apply Z.ltb_lt; lia). cbn [andb].
  fold (full r). rewrite (bi_full _ _ _ I), Eh, !byte_ptrdiff by lia. simpl.
  assert (Hc : c = if xMaxSize =? 0 then contiguous else Z.min contiguous xMaxSize)
    by (unfold c, chunk, contiguous in *; zcase; lia). clearbody c.
  assert (K : forall x x' y y' (n n' : Z), x = x' -> y = y' -> n = n' ->
    (set_read x (set_items y r), f, n) = (set_read x' (set_items y' r), f, n')) by congruence.
  assert (Hcb : 0 <= contiguous <= nw) by (unfold contiguous; lia).
  assert (W : ((pucWrite r <? f) || (nw =? xSize r) = true /\ contiguous = t - f) \/
              ((pucWrite r <? f) || (nw =? xSize r) = false /\ contiguous = pucWrite r - f /\
               f + contiguous < t)).
  { unfold contiguous. repeat zcase; simpl; lia. }
  destruct W as [[-> W]|(-> & W & Wt)]; rewrite <- ?W; f_equal; rewrite ?(u32_small contiguous) by lia;
    revert Hc; unfold bpos; repeat zcase; simpl; intros ->; try lia.
  all: apply K; rewrite ?i32_small, ?u32_small; lia.
Qed.

Lemma byte_get xMaxSize : 0 <= xMaxSize < 2 ^ 32 -> held = [] -> wait <> [] ->
  exists r', prvGetItemByteBuf r xMaxSize = Some (r', f, Z.of_nat (chunk xMaxSize)) /\
    binv r' (take (chunk xMaxSize) wait) (drop (chunk xMaxSize) wait) /\
    (0 < chunk xMaxSize)%nat /\ read_bytes (storage r') f (chunk xMaxSize) = take (chunk xMaxSize) wait.
Proof.
  intros Hm Eh Hw. rewrite (byte_get_result xMaxSize Hm Eh Hw). eexists. split; [done|].
  pose proof (chunk_bounds xMaxSize ltac:(lia) Hw) as [B Bt]. pose proof byte_facts as F.
  pose proof (bi_geom _ _ _ I) as G.
  assert (L : length (take (chunk xMaxSize) wait) = chunk xMaxSize) by (rewrite length_take; lia).
  assert (L2 : (length (take (chunk xMaxSize) wait) + length (drop (chunk xMaxSize) wait))%nat = length wait)
    by (rewrite length_take, length_drop; lia).
  pose proof (bi_cells _ _ _ I) as C. pose proof (bi_full _ _ _ I) as Fl. pose proof (bi_acquire _ _ _ I) as Ea.
  rewrite Eh in C, Fl, Ea. simpl in C, Fl, Ea.
  split_and!; [|lia|].
  - split; rbsimpl; rewrite ?L2, ?take_drop; try done; try apply I; rewrite ?L; try done; try lia.
    + keep_bgeom G.
  - rbsimpl. rewrite <- L at 1. apply (cells_read _ h (xSize r)); [rewrite L; lia|].
    intros i b Hi. apply C. rewrite <- (take_drop (chunk xMaxSize) wait). by apply lookup_app_l_Some.
Qed.

(** ** Returning *)
Lemma byte_return : held <> [] ->
  exists r', prvReturnItemByteBuf r f = Some r' /\ binv r' [] wait.
Proof.
  intros Hne. pose proof byte_facts as F. pose proof (bi_geom _ _ _ I) as G.
  assert (0 < nh) by (destruct held; simpl; [done|lia]).
  unfold prvReturnItemByteBuf.
  replace (h <=? f) with true by (symmetry; apply Z.leb_le; lia).
  replace (f <? t) with true by (symmetry; apply Z.ltb_lt; lia). eexists. split; [done|].
  pose proof (bi_cells _ _ _ I) as C. apply cells_app in C as [_ C]; [|lia..].
  rewrite <- (bi_read _ _ _ I) in C.
  change (rb_flag (set_free _ r) rbBUFFER_FULL_FLAG) with (full r). destruct (full r) eqn:Hf.
  - split; rbsimpl; simpl; try done; try apply I; try lia.
    + keep_bgeom (byte_clear_full r G).
    + unfold bpos. zcase; lia.
    + unfold bpos. zcase; lia.
    + change (full (rb_clear_flag rbBUFFER_FULL_FLAG r) = (nw =? xSize r)). rewrite full_clear.
      symmetry. apply Z.eqb_neq. lia.
  - split; rbsimpl; simpl; try done; try apply I; try lia.
    + keep_bgeom G.
    + unfold bpos. zcase; lia.
    + unfold bpos. zcase; lia.
    + change (full r = (nw =? xSize r)). rewrite Hf. symmetry. apply Z.eqb_neq. lia.
Qed.
End Byte.

(** ** Clients of byte buffers *)

Lemma binv_give s r held wait : binv r held wait -> binv (xSemaphoreGive s r) held wait.
Proof.
  intros I. pose proof (bi_geom _ _ _ I) as G. destruct I.
  destruct s; split; cbn [xSemaphoreGive sem_set]; rbsimpl; try done; keep_bgeom G.
Qed.

Lemma binv_give_if b s r held wait : binv r held wait -> binv (give_if b s r) held wait.
Proof. destruct b; [apply binv_give|done]. Qed.

(** What was sent and received, and the chunk still to be returned. *)
Record byte_client := mkByteClient {
  bc_rb : Ringbuffer_t;
  bc_sent : list Z;
  bc_recv : list Z;
  bc_out : option (Z * list Z)
}.

Definition chunk_at (r : Ringbuffer_t) (x : Z * Z) : list Z := read_bytes (storage r) x.1 (Z.to_nat x.2).

(** [limit = 0] receives with [xRingbufferReceive], another limit with
    [xRingbufferReceiveUpTo]. *)
Definition receive_up_to (limit : Z) (r : Ringbuffer_t) : option (option (Z * Z) * Ringbuffer_t) :=
  if limit =? 0 then xRingbufferReceiveFromISR r else xRingbufferReceiveUpToFromISR limit r.

Inductive byte_step : byte_client -> byte_client -> Prop :=
| bs_send r S R O d ok r' :
    xRingbufferSendFromISR (Some d) (Z.of_nat (length d)) r = Some (ok, r') ->
    byte_step (mkByteClient r S R O) (mkByteClient r' (if ok : bool then S ++ d else S) R O)
| bs_receive_none r S R O limit r' :
    is_u32 limit -> receive_up_to limit r = Some (None, r') ->
    byte_step (mkByteClient r S R O) (mkByteClient r' S R O)
| bs_receive r S R O limit x r' :
    is_u32 limit -> receive_up_to limit r = Some (Some x, r') ->
    byte_step (mkByteClient r S R O)
      (mkByteClient r' S (R ++ chunk_at r' x) (Some (x.1, chunk_at r' x)))
| bs_return r S R p d r' :
    vRingbufferReturnItem (Some p) r = Some r' ->
    byte_step (mkByteClient r S R (Some (p, d))) (mkByteClient r' S R None).

(** The ghost state of a byte client. *)
Record byte_client_inv (c : byte_client) (held wait : list Z) : Prop := {
  bc_inv : binv (bc_rb c) held wait;
  bc_fifo : bc_sent c = bc_recv c ++ wait;
  bc_chunk : bc_out c = if bool_decide (held = []) then None else Some (pucFree (bc_rb c), held)
}.

Lemma byte_send_isr r held wait d : binv r held wait ->
  exists r', xRingbufferSendFromISR (Some d) (Z.of_nat (length d)) r =
      Some (Z.of_nat (length d) <=? xSize r - Z.of_nat (length held + length wait), r') /\
    (Z.of_nat (length d) <= xSize r - Z.of_nat (length held + length wait) ->
       binv r' held (wait ++ d) /\ pucFree r' = pucFree r) /\
    (xSize r - Z.of_nat (length held + length wait) < Z.of_nat (length d) -> r' = r).
Proof.
  intros I. pose proof (byte_facts _ _ _ I) as F. pose proof (bi_geom _ _ _ I) as G.
  unfold xRingbufferSendFromISR, send_precheck. rewrite (bg_byte _ G), (bg_max _ G). cbn [andb].
  destruct (Z.ltb_spec (xSize r) (Z.of_nat (length d))).
  { exists r. split; [|split; [lia|done]]. do 2 f_equal. symmetry. apply Z.leb_gt. lia. }
  destruct (Z.eqb_spec (Z.of_nat (length d)) 0).
  { exists r. replace d with (@nil Z) by (by destruct d). rewrite app_nil_r.
    split; [|split; done]. do 2 f_equal. symmetry. apply Z.leb_le. simpl. lia. }
  unfold try_send, call_xCheckItemFits, call_vCopyItem. rewrite (bg_fits _ G), (bg_copy _ G).
  rewrite (byte_fits _ _ _ I), <- Nat2Z.inj_add by lia.
  destruct (Z.leb_spec (Z.of_nat (length d)) (xSize r - Z.of_nat (length held + length wait))).
  - destruct (byte_send r held wait I d) as (r' & E & I'); [by destruct d|lia|]. change (default [] (Some d)) with d. rewrite E.
    unfold with_free_size. rewrite (byte_free_size _ _ _ I'). eexists. split; [done|]. split; [|lia].
    intros _. split; [by apply (binv_give RX_SEM), binv_give_if|].
    transitivity (pucFree r'); [by destruct (0 <? _)|].
    revert E. unfold prvCopyItemByteBuf. destruct (in_bounds _ _); [|done].
    unfold mark_if_full. by repeat case_match; intros; simplify_eq/=.
  - exists r. split; [done|]. split; [lia|done].
Qed.

Lemma byte_receive_isr r held wait limit : binv r held wait -> is_u32 limit ->
  if bool_decide (held = [] /\ wait <> []) then
    exists r' c, receive_up_to limit r = Some (Some (pucFree r, Z.of_nat c), r') /\
      binv r' (take c wait) (drop c wait) /\ (0 < c <= length wait)%nat /\ pucFree r' = pucFree r /\
      chunk_at r' (pucFree r, Z.of_nat c) = take c wait
  else receive_up_to limit r = Some (None, r).
Proof.
  intros I Hl. pose proof (bi_geom _ _ _ I) as G.
  assert (E : receive_up_to limit r =
    (do* (res, r) <- prvReceiveGenericFromISR false limit r; Some (rx1 <$> res, r))).
  { unfold receive_up_to, xRingbufferReceiveFromISR, xRingbufferReceiveUpToFromISR.
    rewrite (bg_byte _ G). zcase; [by subst|done]. }
  rewrite E. unfold prvReceiveGenericFromISR, try_receive. rewrite (byte_avail _ _ _ I).
  destruct (bool_decide_reflect (held = [] /\ wait <> [])) as [[Hh Hw]|]; [|done].
  destruct (byte_get r held wait I limit Hl Hh Hw) as (r' & E' & I' & Hc & Hb).
  pose proof (chunk_bounds r held wait I limit ltac:(unfold is_u32 in Hl; lia) Hw) as [? _].
  unfold fetch_items, call_pvGetItem. rewrite (bg_byte _ G), (bg_get _ G), E', andb_false_r. simpl.
  assert (Ef : pucFree r' = pucFree r).
  { pose proof (byte_get_result r held wait I limit Hl Hh Hw) as R. rewrite R in E'. simplify_eq/=. done. }
  eexists _, _. split; [done|]. split_and!; try lia.
  - destruct (0 <? _); [by apply (binv_give RX_SEM)|done].
  - destruct (0 <? _); done.
  - unfold chunk_at. simpl. rewrite Nat2Z.id. by destruct (0 <? _).
Qed.

Lemma byte_step_inv c c' held wait : byte_client_inv c held wait -> byte_step c c' ->
  exists held' wait', byte_client_inv c' held' wait'.
Proof.
  intros [I Hf Ho] St. destruct St; simpl in *.
  - destruct (byte_send_isr r held wait d I) as (r1 & E & H1 & H2). rewrite E in H. injection H as <- <-.
    destruct (Z.leb_spec (Z.of_nat (length d)) (xSize r - Z.of_nat (length held + length wait))) as [Hle|Hgt].
    + destruct (H1 Hle) as [I1 Ef]. exists held, (wait ++ d). split; simpl; [done|by rewrite Hf, app_assoc|].
      by rewrite Ef.
    + rewrite (H2 Hgt). by exists held, wait.
  - pose proof (byte_receive_isr r held wait limit I H) as E.
    destruct (bool_decide_reflect (held = [] /\ wait <> [])).
    + destruct E as (r1 & c & E & _). by rewrite E in H0.
    + rewrite E in H0. simplify_eq/=. by exists held, wait.
  - pose proof (byte_receive_isr r held wait limit I H) as E.
    destruct (bool_decide_reflect (held = [] /\ wait <> [])); [|by rewrite E in H0].
    destruct E as (r1 & c & E & I1 & Hc & Ef & Hb). rewrite E in H0. simplify_eq/=. rewrite Hb.
    exists (take c wait), (drop c wait). split; simpl; [done|by rewrite <- app_assoc, take_drop|].
    rewrite bool_decide_eq_false_2, Ef; [done|]. intros En. apply (f_equal length) in En.
    rewrite length_take in En. simpl in En. lia.
  - destruct (bool_decide_reflect (held = [])); [done|]. injection Ho as -> ->.
    destruct (byte_return r held wait I) as (r1 & E & I1); [done|].
    unfold vRingbufferReturnItem, call_vReturnItem in H. rewrite (bg_return _ (bi_geom _ _ _ I)), E in H.
    injection H as <-. exists [], wait. split; simpl; [by apply (binv_give TX_SEM)|done|done].
Qed.

(** ** Properties *)

(** A byte buffer that [xRingbufferCreateStatic] made. *)
Record byte_created (r : Ringbuffer_t) (size p : Z) : Prop := {
  bcr_size : 0 < size < 2 ^ 31;
  bcr_addr : 0 < p /\ p + size < 2 ^ 32;
  bcr_create : exists m, xRingbufferCreateStatic m size RINGBUF_TYPE_BYTEBUF (Some p) true = Some r
}.

Lemma byte_created_inv r size p : byte_created r size p -> binv r [] [] /\ xSize r = size.
Proof.
  intros [Hs Ha (m & E)]. unfold xRingbufferCreateStatic in E. rewrite (proj2 (Z.ltb_lt 0 size)) in E by lia.
  simpl in E. injection E as <-. split; [|done].
  split; simpl; try done; try lia.
  - split; simpl; try done; lia.
  - unfold bpos. zcase; lia.
  - unfold bpos. zcase; lia.
  - change (false = (0 =? size)). symmetry. apply Z.eqb_neq. lia.
Qed.

Definition byte_reach (r0 : Ringbuffer_t) (c : byte_client) : Prop :=
  rtc byte_step (mkByteClient r0 [] [] None) c.

Lemma byte_reach_inv r size p c : byte_created r size p -> byte_reach r c ->
  exists held wait, byte_client_inv c held wait.
Proof.
  intros C H. assert (exists held wait, byte_client_inv (mkByteClient r [] [] None) held wait) as I.
  { exists [], []. split; simpl; try done. apply (byte_created_inv _ _ _ C). }
  unfold byte_reach in H. revert I. induction H as [|c0 c1 c2 St _ IH]; [done|].
  intros (held & wait & I). apply IH. by apply (byte_step_inv c0 c1 held wait).
Qed.

(** No assertion fails in any state of a byte buffer that sends, limited
    and unlimited receives and returns can lead to. *)
Theorem bytebuf_no_assert r size p c :
  byte_created r size p -> byte_reach r c ->
  (forall d, xRingbufferSendFromISR (Some d) (Z.of_nat (length d)) (bc_rb c) <> None) /\
  (forall limit, is_u32 limit -> receive_up_to limit (bc_rb c) <> None) /\
  (forall p' d, bc_out c = Some (p', d) -> vRingbufferReturnItem (Some p') (bc_rb c) <> None).
Proof.
  intros C H. destruct (byte_reach_inv _ _ _ _ C H) as (held & wait & [I Hf Ho]). split_and!.
  - intros d. by destruct (byte_send_isr _ _ _ d I) as (r' & -> & _).
  - intros limit Hl. pose proof (byte_receive_isr _ _ _ limit I Hl) as E.
    case_bool_decide; [by destruct E as (? & ? & -> & _)|by rewrite E].
  - intros p' d E. rewrite E in Ho. destruct (bool_decide_reflect (held = [])); [done|].
    injection Ho as -> ->. unfold vRingbufferReturnItem, call_vReturnItem.
    rewrite (bg_return _ (bi_geom _ _ _ I)). by destruct (byte_return _ _ _ I) as (r1 & -> & _).
Qed.

(** C28: A byte buffer delivers exactly the bytes sent, in order; a receive
    succeeds exactly when no chunk is outstanding and bytes are waiting, and
    the outstanding chunk stays intact. *)
Theorem bytebuf_fifo r size p c :
  byte_created r size p -> byte_reach r c ->
  exists waiting, bc_sent c = bc_recv c ++ waiting /\
    (forall limit, is_u32 limit ->
       (exists x r', receive_up_to limit (bc_rb c) = Some (Some x, r')) <->
       bc_out c = None /\ waiting <> []) /\
    (forall p' d, bc_out c = Some (p', d) -> read_bytes (storage (bc_rb c)) p' (length d) = d).
Proof.
  intros C H. destruct (byte_reach_inv _ _ _ _ C H) as (held & wait & [I Hf Ho]).
  exists wait. split_and!; [done|..].
  - intros limit Hl. pose proof (byte_receive_isr _ _ _ limit I Hl) as E. rewrite Ho.
    destruct (bool_decide_reflect (held = [])), (bool_decide_reflect (held = [] /\ wait <> []));
      try tauto.
    + destruct E as (r' & k & E & _). split; [intros _; split; [done|tauto]|]. rewrite E. by eauto.
    + rewrite E. split; [by intros (? & ? & ?)|tauto].
    + rewrite E. split; [by intros (? & ? & ?)|by intros []].
  - intros p' d E. rewrite E in Ho. destruct (bool_decide_reflect (held = [])); [done|].
    injection Ho as -> ->. pose proof (bi_cells _ _ _ I) as Cl.
    apply (cells_read _ (pucHead (bc_rb c)) (xSize (bc_rb c))).
    + pose proof (byte_facts _ _ _ I). lia.
    + intros i b Hi. apply Cl. by apply lookup_app_l_Some.
Qed.

(** ** An example run *)

Definition ex_bytes : Ringbuffer_t :=
  match xRingbufferCreateStatic (fun _ => 0) 10 RINGBUF_TYPE_BYTEBUF (Some 1000) true with
  | Some r => r
  | None => prvInitializeNewRingbuffer 10 RINGBUF_TYPE_BYTEBUF 1000 (fun _ => 0)
  end.
Definition ex_bytes1 : Ringbuffer_t :=
  match xRingbufferSendFromISR (Some [1; 2; 3]) 3 ex_bytes with Some (_, r) => r | None => ex_bytes end.

Lemma ex_byte_created : byte_created ex_bytes 10 1000.
Proof. split; [lia|lia|]. by exists (fun _ => 0). Qed.

Lemma ex_byte_send : xRingbufferSendFromISR (Some [1; 2; 3]) 3 ex_bytes = Some (true, ex_bytes1).
Proof. vm_compute. reflexivity. Qed.

Definition ex_bc : byte_client := mkByteClient ex_bytes1 [1; 2; 3] [] None.

Lemma ex_byte_reach : byte_reach ex_bytes ex_bc.
Proof. apply rtc_once. exact (bs_send ex_bytes [] [] None [1; 2; 3] true ex_bytes1 ex_byte_send). Qed.

Lemma bytebuf_no_assert_witness : receive_up_to 2 (bc_rb ex_bc) <> None.
Proof. refine (proj1 (proj2 (bytebuf_no_assert ex_bytes 10 1000 ex_bc ex_byte_created ex_byte_reach)) 2 _). split; lia. Defined.

Lemma bytebuf_fifo_witness : exists waiting, bc_sent ex_bc = bc_recv ex_bc ++ waiting /\
  (forall limit, is_u32 limit ->
     (exists x r', receive_up_to limit (bc_rb ex_bc) = Some (Some x, r')) <-> bc_out ex_bc = None /\ waiting <> []) /\
  (forall p' d, bc_out ex_bc = Some (p', d) -> read_bytes (storage (bc_rb ex_bc)) p' (length d) = d).
Proof. exact (bytebuf_fifo ex_bytes 10 1000 ex_bc ex_byte_created ex_byte_reach). Defined.
