(* ===== verification/RingbufFaults.v ===== *)
(** * Uses of the ring buffer interface that break its promises

    Four uses the interface admits, each with the state the code reaches.
    The first is what [RingbufQueue.returns_safely] excludes; the others
    are outside [RingbufQueue.client_step] (deferred completion, buffers
    smaller than [RingbufTheorems.min_size]). *)

From stdpp Require Import relations.
From S2P Require Import Prelude CMem Ringbuf RingbufApi RingbufChain RingbufItems RingbufSend RingbufQueue RingbufTheorems.

Definition blank : mem := fun _ => 0.

(** ** Returning one of several items that fill the buffer *)

Lemma full_return_frees_all r held O1 p d O2 :
  inv r held [] -> all_outstanding r = true ->
  outstanding (pucHead r) (pucTail r) (pucFree r) held = O1 ++ (p, d) :: O2 ->
  exists r', vRingbufferReturnItem (Some p) r = Some r' /\
    full r = true /\ full r' = false /\ prvGetFreeSize r' = Some (xSize r).
Proof.
  intros I Ha E. destruct (outstanding_split _ _ _ _ _ _ _ _ E)
    as (h1 & s & h2 & -> & Hf & Hdm & -> & -> & _ & _).
  unfold all_outstanding in Ha. apply andb_true_iff in Ha as [Hfull Heq]. apply Z.eqb_eq in Heq.
  unfold vRingbufferReturnItem, call_vReturnItem. rewrite (g_return r (i_geom _ _ _ I)).
  rewrite (return_item_asserts _ _ _ _ _ I Hdm Hf).
  pose proof (core_mark _ _ _ _ _ I) as I1. revert I1. set (r1 := set_storage _ r). intros I1.
  assert (Er : pucFree r1 = pucRead r1) by exact Heq.
  assert (Ea : pucAcquire r1 = pucFree r1).
  { change (pucAcquire r = pucFree r). rewrite (i_acquire _ _ _ I), app_nil_r, <- (i_read _ _ _ I). done. }
  unfold loop_fuel. rewrite advance_free_stop by (by left). eexists. split; [done|].
  change (rb_flag r1 rbBUFFER_FULL_FLAG) with (full r) in *. unfold reset_full.
  change (rb_flag r1 rbBUFFER_FULL_FLAG) with (full r). rewrite Hfull, Ea, <- Er, Z.eqb_refl. simpl.
  pose proof (i_geom _ _ _ I) as G. pose proof (g_size_max r G). pose proof (g_size_min r G).
  set (r2 := rb_clear_flag rbBUFFER_FULL_FLAG r1).
  assert (F2 : full r2 = false) by apply full_clear. split_and!; [done|exact F2|].
  change (prvGetFreeSize r2 = Some (xSize r)). unfold prvGetFreeSize, ptrdiff. fold (full r2). rewrite F2.
  change (pucFree r2) with (pucFree r1). change (pucAcquire r2) with (pucAcquire r1).
  change (xSize r2) with (xSize r). rewrite Ea, Z.sub_diag.
  change (i32 0) with 0. simpl. rewrite i32_small, u32_small, Z.leb_refl by rlia. done.
Qed.

(** The call returned, and the buffer reports all of its storage as free. *)
Definition reports_all_free (r : Ringbuffer_t) (o : option Ringbuffer_t) : Prop :=
  exists r', o = Some r' /\ prvGetFreeSize r' = Some (xSize r).

(** When outstanding items fill the whole buffer, returning any one of
    them makes the code report the whole storage as free, although the other
    items are still held by the application. *)
Theorem full_return_frees_outstanding whole r ty size c p d :
  created r ty size -> client_reach whole r c ->
  all_outstanding (cl_rb c) = true -> xItemsWaiting (cl_rb c) = 0 -> (p, d) ∈ cl_out c ->
  reports_all_free r (vRingbufferReturnItem (Some p) (cl_rb c)).
Proof.
  intros C H Ha Hw Hin. destruct (client_reach_inv _ _ _ _ _ C H) as (held & wait & W & I).
  pose proof (ci_inv I) as J. assert (wait = []) as ->.
  { destruct (decide (wait = [])) as [|Hne]; [done|].
    pose proof (wf_wait_items _ _ _ J (i_wait _ _ _ J) Hne) as Hi. rewrite (i_items _ _ _ J) in Hw.
    by destruct (items wait). }
  apply list_elem_of_split in Hin as (O1 & O2 & E). rewrite (ci_out I) in E.
  destruct (full_return_frees_all _ _ _ _ _ _ J Ha E) as (r' & E1 & _ & _ & E2). exists r'. split; [done|].
  rewrite E2. f_equal. pose proof (ci_fixed I) as K. by injection K as _ _ ->.
Qed.

(** Two items that fill a buffer of 32 bytes, both received. *)
Definition ex_f1 : Ringbuffer_t := ex_after (xRingbufferSendFromISR (Some (repeat 1 8)) 8 ex_rb).
Definition ex_f2 : Ringbuffer_t := ex_after (xRingbufferSendFromISR (Some (repeat 2 8)) 8 ex_f1).
Definition ex_f3 : Ringbuffer_t := ex_received (xRingbufferReceiveFromISR ex_f2).
Definition ex_f4 : Ringbuffer_t := ex_received (xRingbufferReceiveFromISR ex_f3).
Definition ex_full : client :=
  mkClient ex_f4 [repeat 1 8; repeat 2 8] [repeat 1 8; repeat 2 8] [(1008, repeat 1 8); (1024, repeat 2 8)].

Lemma safe_step (c c' : client) : client_step true c c' -> (length (cl_out c) <= length (cl_out c'))%nat ->
  client_step true c c' /\ returns_safely c c'.
Proof. intros St Hl. split; [done|]. unfold returns_safely. lia. Qed.

Lemma ex_full_reach : client_reach true ex_rb ex_full.
Proof.
  assert (E1 : xRingbufferSendFromISR (Some (repeat 1 8)) 8 ex_rb = Some (true, ex_f1)) by (vm_compute; reflexivity).
  assert (E2 : xRingbufferSendFromISR (Some (repeat 2 8)) 8 ex_f1 = Some (true, ex_f2)) by (vm_compute; reflexivity).
  assert (E3 : xRingbufferReceiveFromISR ex_f2 = Some (Some (1008, 8), ex_f3)) by (vm_compute; reflexivity).
  assert (E4 : xRingbufferReceiveFromISR ex_f3 = Some (Some (1024, 8), ex_f4)) by (vm_compute; reflexivity).
  eapply rtc_l; [apply safe_step; [exact (cs_send true ex_rb [] [] [] (repeat 1 8) true ex_f1 E1)|done]|].
  eapply rtc_l; [apply safe_step; [exact (cs_send true ex_f1 [repeat 1 8] [] [] (repeat 2 8) true ex_f2 E2)|done]|].
  eapply rtc_l; [apply safe_step; [exact (cs_receive true ex_f2 _ [] [] 1008 8 ex_f3 (or_intror eq_refl) E3)|simpl; lia]|].
  apply rtc_once. apply safe_step; [exact (cs_receive true ex_f3 _ [repeat 1 8] [(1008, repeat 1 8)] 1024 8 ex_f4 (or_intror eq_refl) E4)|simpl; lia].
Qed.

Lemma full_return_frees_outstanding_witness :
  reports_all_free ex_rb (vRingbufferReturnItem (Some 1008) (cl_rb ex_full)).
Proof.
  refine (full_return_frees_outstanding true ex_rb _ 32 ex_full 1008 (repeat 1 8) ex_created ex_full_reach _ _ _).
  - vm_compute. reflexivity.
  - vm_compute. reflexivity.
  - by left.
Defined.

(** Both items of a full buffer are retrieved and the first is returned; two
    later sends succeed and overwrite the item the application still reads. *)
Definition overwrite_run : option (list Z * bool * list Z) :=
  let r := prvInitializeNewRingbuffer 32 RINGBUF_TYPE_NOSPLIT 1000 blank in
  do* (_, r) <- xRingbufferSendFromISR (Some [1; 1; 1; 1; 1; 1; 1; 1]) 8 r;
  do* (_, r) <- xRingbufferSendFromISR (Some [2; 2; 2; 2; 2; 2; 2; 2]) 8 r;
  do* (_, r) <- xRingbufferReceiveFromISR r;
  do* (x, r) <- xRingbufferReceiveFromISR r;
  match x with
  | Some (p, n) =>
      let before := read_bytes (storage r) p (Z.to_nat n) in
      do* r <- vRingbufferReturnItem (Some 1008) r;
      do* (_, r) <- xRingbufferSendFromISR (Some [3; 3; 3; 3; 3; 3; 3; 3]) 8 r;
      do* (ok, r) <- xRingbufferSendFromISR (Some [4; 4; 4; 4; 4; 4; 4; 4]) 8 r;
      Some (before, ok, read_bytes (storage r) p (Z.to_nat n))
  | None => None
  end.

Lemma held_item_overwritten :
  overwrite_run = Some ([2; 2; 2; 2; 2; 2; 2; 2], true, [4; 4; 4; 4; 4; 4; 4; 4]).
Proof. vm_compute. reflexivity. Qed.

(** Three items fill a buffer of 48 bytes and are received; the first is
    returned, and a send then overwrites the header of the second: returning
    the second fails an assertion, although the buffer is not full. *)
Definition assertion_run : option (bool * bool * option Ringbuffer_t) :=
  let r := prvInitializeNewRingbuffer 48 RINGBUF_TYPE_NOSPLIT 1000 blank in
  do* (_, r) <- xRingbufferSendFromISR (Some (repeat 1 8)) 8 r;
  do* (_, r) <- xRingbufferSendFromISR (Some (repeat 2 8)) 8 r;
  do* (_, r) <- xRingbufferSendFromISR (Some (repeat 3 8)) 8 r;
  do* (_, r) <- xRingbufferReceiveFromISR r;
  do* (_, r) <- xRingbufferReceiveFromISR r;
  do* (_, r) <- xRingbufferReceiveFromISR r;
  do* r <- vRingbufferReturnItem (Some 1008) r;
  do* (ok, r) <- xRingbufferSendFromISR (Some (repeat 255 16)) 16 r;
  Some (ok, all_outstanding r, vRingbufferReturnItem (Some 1024) r).

Fact return_assertion_fails : assertion_run = Some (true, false, None).
Proof. vm_compute. reflexivity. Qed.

(** Two items fill a buffer of 32 bytes and are received; the first is
    returned, two more are sent, and the second is returned: the buffer is
    taken for empty, and a receive comes back empty although two items
    wait. *)
Definition lost_run : option (bool * bool * option (Z * Z) * Z) :=
  let r := prvInitializeNewRingbuffer 32 RINGBUF_TYPE_NOSPLIT 1000 blank in
  do* (_, r) <- xRingbufferSendFromISR (Some (repeat 1 8)) 8 r;
  do* (_, r) <- xRingbufferSendFromISR (Some (repeat 2 8)) 8 r;
  do* (_, r) <- xRingbufferReceiveFromISR r;
  do* (_, r) <- xRingbufferReceiveFromISR r;
  do* r <- vRingbufferReturnItem (Some 1008) r;
  do* (ok1, r) <- xRingbufferSendFromISR (Some (repeat 3 8)) 8 r;
  do* (ok2, r) <- xRingbufferSendFromISR (Some (repeat 4 8)) 8 r;
  do* r <- vRingbufferReturnItem (Some 1024) r;
  do* (x, r) <- xRingbufferReceiveFromISR r;
  Some (ok1, ok2, x, xItemsWaiting r).

Fact waiting_items_lost : lost_run = Some (true, true, None, 2).
Proof. vm_compute. reflexivity. Qed.

(** ** Completing acquired items out of order in a full buffer *)

Definition acquire (n : Z) (r : Ringbuffer_t) : option (option Z * Ringbuffer_t) :=
  do* (_, p, r, _, _) <- xRingbufferSendAcquire true n 0 [] r 0; Some (p, r).

(** Two acquired items fill the buffer and only the second is completed.  The
    write pointer has not moved, so the receiver gets the first item, which
    its producer is still writing. *)
Definition uncompleted_run : option (option Z * option Z * option (Z * Z)) :=
  let r := prvInitializeNewRingbuffer 32 RINGBUF_TYPE_NOSPLIT 1000 blank in
  do* (a, r) <- acquire 8 r;
  do* (b, r) <- acquire 8 r;
  do* (_, r) <- xRingbufferSendComplete b r;
  do* (x, r) <- xRingbufferReceiveFromISR r;
  Some (a, b, x).

Lemma uncompleted_item_received :
  uncompleted_run = Some (Some 1008, Some 1024, Some (1008, 8)).
Proof. vm_compute. reflexivity. Qed.

(** ** Small buffers *)

(** No minimum size is checked: the subtraction of the header sizes wraps
    around and the largest accepted item is almost 4 GiB. *)
Definition created_max (size : Z) (ty : RingbufferType_t) : option (option Z) :=
  do* r <- xRingbufferCreate true (fun _ => Some 1000) blank size ty;
  Some (xRingbufferGetMaxItemSize <$> r).

Lemma small_buffer_max_wraps :
  created_max 8 RINGBUF_TYPE_NOSPLIT = Some (Some 0xFFFFFFFC) /\
  created_max 12 RINGBUF_TYPE_ALLOWSPLIT = Some (Some 0xFFFFFFFC).
Proof. vm_compute. done. Qed.

(** ** [xRingbufferSendAcquire] with a null out-pointer *)

(** The first assertion lets a null pointer through for size 0, and the next
    statement stores through it. *)
Lemma acquire_null_dereference ticks env r now :
  xRingbufferSendAcquire false 0 ticks env r now = None.
Proof. unfold xRingbufferSendAcquire. simpl. by destruct (negb _). Qed.
