(* ===== verification/Crc.v ===== *)
(** * The CRC functions of components/esp_rom/patches/esp_rom_crc.c

    The table-driven functions compute the bit-by-bit CRCs, can be chained,
    and the 32-bit ones detect every error confined to four bytes. *)

From S2P Require Import Prelude CrcTables.

(** ** The functions *)

(** [~crc] in a [w]-bit unsigned variable. *)
Definition notw (w : Z) (x : Z) : Z := Z.lnot x mod 2 ^ w.

(** [table[i]]; the indices below are bytes. *)
Definition at_ (t : list Z) (i : Z) : Z := nth (Z.to_nat i) t 0.

Definition esp_rom_crc8_le (crc : Z) (buf : list Z) : Z :=
  notw 8 (fold_left (fun crc b => at_ crc8_le_table (Z.lxor crc b)) buf (notw 8 crc)).

Definition esp_rom_crc16_le (crc : Z) (buf : list Z) : Z :=
  notw 16 (fold_left (fun crc b =>
    Z.lxor (at_ crc16_le_table (Z.land (Z.lxor crc b) 0xff)) (Z.shiftr crc 8)) buf (notw 16 crc)).

Definition esp_rom_crc32_le (crc : Z) (buf : list Z) : Z :=
  notw 32 (fold_left (fun crc b =>
    Z.lxor (at_ crc32_le_table (Z.land (Z.lxor crc b) 0xff)) (Z.shiftr crc 8)) buf (notw 32 crc)).

Definition esp_rom_crc8_be (crc : Z) (buf : list Z) : Z :=
  notw 8 (fold_left (fun crc b => at_ crc8_be_table (Z.lxor crc b)) buf (notw 8 crc)).

Definition esp_rom_crc16_be (crc : Z) (buf : list Z) : Z :=
  notw 16 (fold_left (fun crc b =>
    u16 (Z.lxor (at_ crc16_be_table (Z.lxor (Z.shiftr crc 8) b)) (Z.shiftl crc 8))) buf (notw 16 crc)).

Definition esp_rom_crc32_be (crc : Z) (buf : list Z) : Z :=
  notw 32 (fold_left (fun crc b =>
    u32 (Z.lxor (at_ crc32_be_table (Z.lxor (Z.shiftr crc 24) b)) (Z.shiftl crc 8))) buf (notw 32 crc)).

(** ** Bit-by-bit reference *)

(** One bit of a reflected CRC, one byte, a message. *)
Definition le_bit (poly x : Z) : Z := Z.lxor (Z.shiftr x 1) (if Z.testbit x 0 then poly else 0).
Definition le_byte (poly x b : Z) : Z := Nat.iter 8 (le_bit poly) (Z.lxor x b).
Definition crc_le (w poly crc : Z) (buf : list Z) : Z := notw w (fold_left (le_byte poly) buf (notw w crc)).

(** The same, most significant bit first. *)
Definition be_bit (w poly x : Z) : Z :=
  Z.lxor (Z.shiftl x 1 mod 2 ^ w) (if Z.testbit x (w - 1) then poly else 0).
Definition be_byte (w poly x b : Z) : Z := Nat.iter 8 (be_bit w poly) (Z.lxor x (Z.shiftl b (w - 8))).
Definition crc_be (w poly crc : Z) (buf : list Z) : Z := notw w (fold_left (be_byte w poly) buf (notw w crc)).

(** ** Ranges *)

Lemma notw_range w x : 0 <= w -> 0 <= notw w x < 2 ^ w.
Proof. intros. apply Z.mod_pos_bound. lia. Qed.

Lemma notw_notw w x : 0 <= w -> 0 <= x < 2 ^ w -> notw w (notw w x) = x.
Proof.
  intros Hw Hx. unfold notw. rewrite <- (Z.mod_small x (2 ^ w)) at 2 by lia.
  apply Z.bits_inj'. intros j Hj. rewrite !Z.testbit_mod_pow2, Z.lnot_spec, Z.testbit_mod_pow2, Z.lnot_spec by lia.
  destruct (j <? w); [|done]. simpl. apply negb_involutive.
Qed.

Lemma lxor_range w x y : 0 <= w -> 0 <= x < 2 ^ w -> 0 <= y < 2 ^ w -> 0 <= Z.lxor x y < 2 ^ w.
Proof.
  intros Hw Hx Hy. assert (0 <= Z.lxor x y) by (apply Z.lxor_nonneg; lia). split; [done|].
  apply lt_pow2_bits; [done..|]. intros j Hj. rewrite Z.lxor_spec, !(high_bits_zero _ w) by lia. done.
Qed.

Lemma le_bit_range w poly x : 1 <= w -> 0 <= poly < 2 ^ w -> 0 <= x < 2 ^ w -> 0 <= le_bit poly x < 2 ^ w.
Proof.
  intros Hw Hp Hx. apply lxor_range; [lia| |].
  - rewrite Z.shiftr_div_pow2 by lia. split; [apply Z.div_pos; lia|].
    apply Z.le_lt_trans with x; [|lia]. apply Z.div_le_upper_bound; lia.
  - destruct (Z.testbit x 0); lia.
Qed.

Lemma iter_range (P : Z -> Prop) f n x : (forall y, P y -> P (f y)) -> P x -> P (Nat.iter n f x).
Proof. intros Hf Hx. induction n; simpl; auto. Qed.

(** ** Linearity *)

Lemma testbit_if (c : bool) p j : Z.testbit (if c then p else 0) j = c && Z.testbit p j.
Proof. destruct c; [done|]. apply Z.testbit_0_l. Qed.

Lemma xorb_swap a b c d : xorb (xorb a b) (xorb c d) = xorb (xorb a c) (xorb b d).
Proof. by destruct a, b, c, d. Qed.

Lemma le_bit_lxor poly x y : le_bit poly (Z.lxor x y) = Z.lxor (le_bit poly x) (le_bit poly y).
Proof.
  unfold le_bit. apply Z.bits_inj'. intros j Hj.
  rewrite Z.shiftr_lxor, !Z.lxor_spec, !testbit_if, xorb_swap. f_equal.
  by destruct (Z.testbit x 0), (Z.testbit y 0), (Z.testbit poly j).
Qed.

Lemma be_bit_lxor w poly x y : 0 <= w -> be_bit w poly (Z.lxor x y) = Z.lxor (be_bit w poly x) (be_bit w poly y).
Proof.
  intros Hw. unfold be_bit. apply Z.bits_inj'. intros j Hj.
  rewrite Z.shiftl_lxor, !Z.lxor_spec, !testbit_if, xorb_swap, !Z.testbit_mod_pow2, Z.lxor_spec by lia. f_equal.
  - by destruct (j <? w).
  - by destruct (Z.testbit x (w - 1)), (Z.testbit y (w - 1)), (Z.testbit poly j).
Qed.

Lemma iter_lxor f n x y : (forall a b, f (Z.lxor a b) = Z.lxor (f a) (f b)) ->
  Nat.iter n f (Z.lxor x y) = Z.lxor (Nat.iter n f x) (Nat.iter n f y).
Proof. intros Hf. induction n as [|n IH]; simpl; [done|]. by rewrite IH. Qed.

(** ** The byte step of a table *)

(** Bits that are shifted out as zeros do not meet the polynomial. *)
Lemma le_bit_even poly y : le_bit poly (Z.shiftl y 1) = y.
Proof.
  unfold le_bit. rewrite Z.shiftl_spec_low, Z.lxor_0_r, Z.shiftr_shiftl_l by lia. by rewrite Z.shiftl_0_r.
Qed.

Lemma le_iter_shift poly n y : Nat.iter n (le_bit poly) (Z.shiftl y (Z.of_nat n)) = y.
Proof.
  revert y. induction n as [|n IH]; intros y; [apply Z.shiftl_0_r|].
  rewrite Nat.iter_succ_r. replace (Z.of_nat (S n)) with (Z.of_nat n + 1) by lia.
  rewrite <- Z.shiftl_shiftl, le_bit_even by lia. apply IH.
Qed.

Definition bytes256 : list Z := map Z.of_nat (seq 0 256).

Lemma in_bytes256 b : 0 <= b < 256 -> List.In b bytes256.
Proof. intros. unfold bytes256. apply in_map_iff. exists (Z.to_nat b). split; [lia|]. apply in_seq. lia. Qed.

(** A table holds the eight-bit steps of all bytes. *)
Definition le_table_ok (t : list Z) (poly : Z) : bool :=
  forallb (fun k => at_ t k =? Nat.iter 8 (le_bit poly) k) bytes256.
Definition be_table_ok (w : Z) (t : list Z) (poly : Z) : bool :=
  forallb (fun k => at_ t k =? Nat.iter 8 (be_bit w poly) (Z.shiftl k (w - 8))) bytes256.

Lemma table_entry t (g : Z -> Z) k : forallb (fun k => at_ t k =? g k) bytes256 = true -> 0 <= k < 256 -> at_ t k = g k.
Proof. intros H Hk. rewrite forallb_forall in H. apply Z.eqb_eq, H, in_bytes256, Hk. Qed.

Lemma low_high x : x = Z.lxor (Z.land x 0xff) (Z.shiftl (Z.shiftr x 8) 8).
Proof.
  apply Z.bits_inj'. intros j Hj. change 0xff with (Z.ones 8).
  rewrite Z.lxor_spec, Z.land_spec. destruct (Z.ltb_spec j 8).
  - rewrite Z.shiftl_spec_low, Z.ones_spec_low by lia. by rewrite andb_true_r, xorb_false_r.
  - rewrite Z.shiftl_spec_high, Z.shiftr_spec, Z.ones_spec_high by lia. rewrite andb_false_r, xorb_false_l. f_equal. lia.
Qed.

Lemma shiftr_lxor_byte x b : 0 <= b < 256 -> Z.shiftr (Z.lxor x b) 8 = Z.shiftr x 8.
Proof.
  intros Hb. rewrite Z.shiftr_lxor, (Z.shiftr_div_pow2 b), Z.div_small by lia. apply Z.lxor_0_r.
Qed.

Lemma le_table_step t poly x b : le_table_ok t poly = true -> 0 <= b < 256 ->
  Z.lxor (at_ t (Z.land (Z.lxor x b) 0xff)) (Z.shiftr x 8) = le_byte poly x b.
Proof.
  intros Ht Hb. unfold le_byte. rewrite (low_high (Z.lxor x b)) at 2.
  rewrite (iter_lxor (le_bit poly)) by apply le_bit_lxor. rewrite (le_iter_shift poly 8), shiftr_lxor_byte by done.
  f_equal. apply (table_entry t _ _ Ht). change 0xff with (Z.ones 8). rewrite Z.land_ones by lia.
  apply Z.mod_pos_bound. lia.
Qed.

Lemma be_bit_small w poly y : 1 <= w -> 0 <= y < 2 ^ (w - 1) -> be_bit w poly y = Z.shiftl y 1.
Proof.
  intros Hw Hy. unfold be_bit. rewrite (high_bits_zero y (w - 1)), Z.lxor_0_r by lia.
  apply Z.mod_small. rewrite Z.shiftl_mul_pow2 by lia.
  replace (2 ^ w) with (2 ^ (w - 1) * 2) by (rewrite Z.mul_comm, <- Z.pow_succ_r; [f_equal|]; lia). lia.
Qed.

Lemma be_iter_shift w poly n y : Z.of_nat n <= w -> 0 <= y < 2 ^ (w - Z.of_nat n) ->
  Nat.iter n (be_bit w poly) y = Z.shiftl y (Z.of_nat n).
Proof.
  intros Hn Hy. induction n as [|n IH]; [symmetry; apply Z.shiftl_0_r|]. simpl Nat.iter.
  assert (Hlt : 2 ^ (w - Z.of_nat (S n)) <= 2 ^ (w - Z.of_nat n)) by (apply Z.pow_le_mono_r; lia).
  rewrite IH by lia. rewrite be_bit_small.
  - rewrite Z.shiftl_shiftl by lia. f_equal. lia.
  - lia.
  - rewrite Z.shiftl_mul_pow2 by lia. split; [lia|].
    replace (w - 1) with ((w - Z.of_nat (S n)) + Z.of_nat n) by lia. rewrite Z.pow_add_r by lia.
    apply Z.mul_lt_mono_pos_r; [apply Z.pow_pos_nonneg; lia|lia].
Qed.

Lemma be_split w x b : 8 <= w -> 0 <= x < 2 ^ w -> 0 <= b < 256 ->
  Z.lxor x (Z.shiftl b (w - 8)) =
  Z.lxor (Z.shiftl (Z.lxor (Z.shiftr x (w - 8)) b) (w - 8)) (x mod 2 ^ (w - 8)).
Proof.
  intros Hw Hx Hb. apply Z.bits_inj'. intros j Hj.
  rewrite !Z.lxor_spec, Z.testbit_mod_pow2 by lia. destruct (Z.ltb_spec j (w - 8)).
  - rewrite !Z.shiftl_spec_low by lia. simpl. by destruct (Z.testbit x j).
  - rewrite !Z.shiftl_spec_high, Z.lxor_spec, Z.shiftr_spec by lia. simpl. rewrite xorb_false_r.
    f_equal. f_equal. lia.
Qed.

Lemma shiftl_mod w x : 8 <= w -> Z.shiftl (x mod 2 ^ (w - 8)) 8 = Z.shiftl x 8 mod 2 ^ w.
Proof.
  intros Hw. apply Z.bits_inj'. intros j Hj. rewrite Z.testbit_mod_pow2 by lia.
  destruct (Z.ltb_spec j 8); [rewrite !Z.shiftl_spec_low by lia; by rewrite andb_false_r|].
  rewrite !Z.shiftl_spec_high, Z.testbit_mod_pow2 by lia. f_equal. repeat zcase; lia.
Qed.

Lemma shiftr_byte w x : 8 <= w -> 0 <= x < 2 ^ w -> 0 <= Z.shiftr x (w - 8) < 2 ^ 8.
Proof.
  intros Hw Hx. rewrite Z.shiftr_div_pow2 by lia. split; [apply Z.div_pos; lia|].
  apply Z.div_lt_upper_bound; [lia|]. rewrite <- Z.pow_add_r by lia. replace (w - 8 + 8) with w by lia. lia.
Qed.

Lemma be_table_step w t poly x b : 8 <= w -> be_table_ok w t poly = true -> 0 <= x < 2 ^ w -> 0 <= b < 256 ->
  Z.lxor (at_ t (Z.lxor (Z.shiftr x (w - 8)) b)) (Z.shiftl x 8 mod 2 ^ w) = be_byte w poly x b.
Proof.
  intros Hw Ht Hx Hb. unfold be_byte. rewrite be_split by done.
  rewrite (iter_lxor (be_bit w poly)) by (intros; apply be_bit_lxor; lia).
  rewrite (be_iter_shift w poly 8 (x mod 2 ^ (w - 8))); [|lia|change (Z.of_nat 8) with 8; apply Z.mod_pos_bound; apply Z.pow_pos_nonneg; lia].
  rewrite shiftl_mod by done. f_equal.
  apply (table_entry t (fun k => Nat.iter 8 (be_bit w poly) (Z.shiftl k (w - 8))) _ Ht).
  apply (lxor_range 8); [lia|by apply shiftr_byte|done].
Qed.

Lemma be_bit_range w poly x : 1 <= w -> 0 <= poly < 2 ^ w -> 0 <= be_bit w poly x < 2 ^ w.
Proof.
  intros Hw Hp. apply lxor_range; [lia|apply Z.mod_pos_bound; lia|]. destruct (Z.testbit _ _); lia.
Qed.

Lemma be_byte_range w poly x b : 1 <= w -> 0 <= poly < 2 ^ w -> 0 <= be_byte w poly x b < 2 ^ w.
Proof. intros. unfold be_byte. simpl. by apply be_bit_range. Qed.

Lemma le_byte_range w poly x b : 8 <= w -> 0 <= poly < 2 ^ w -> 0 <= x < 2 ^ w -> 0 <= b < 256 ->
  0 <= le_byte poly x b < 2 ^ w.
Proof.
  intros Hw Hp Hx Hb. unfold le_byte. apply (iter_range (fun y => 0 <= y < 2 ^ w)).
  - intros y Hy. apply le_bit_range; lia.
  - assert (2 ^ 8 <= 2 ^ w) by (apply Z.pow_le_mono_r; lia). apply lxor_range; lia.
Qed.

(** The tables of the source, for the polynomials of CRC-8, CRC-16-CCITT and
    CRC-32. *)
Lemma tables_ok :
  le_table_ok crc8_le_table 0xE0 = true /\ le_table_ok crc16_le_table 0x8408 = true /\
  le_table_ok crc32_le_table 0xEDB88320 = true /\ be_table_ok 8 crc8_be_table 0x07 = true /\
  be_table_ok 16 crc16_be_table 0x1021 = true /\ be_table_ok 32 crc32_be_table 0x04C11DB7 = true.
Proof. vm_compute. done. Qed.

(** Folding two step functions that agree on the states that occur. *)
Lemma fold_steps (f g : Z -> Z -> Z) (P : Z -> Prop) buf x :
  (forall x b, P x -> is_byte b -> f x b = g x b /\ P (g x b)) -> P x -> Forall is_byte buf ->
  fold_left f buf x = fold_left g buf x /\ P (fold_left g buf x).
Proof.
  intros H. revert x. induction buf as [|b buf IH]; intros x Hx Hb; [done|]. simpl.
  apply Forall_cons_iff in Hb as [Hb Hbs]. destruct (H x b Hx Hb) as [-> Hg]. by apply IH.
Qed.

Lemma mod_lxor w x y : 0 <= w -> 0 <= x < 2 ^ w -> Z.lxor x y mod 2 ^ w = Z.lxor x (y mod 2 ^ w).
Proof.
  intros Hw Hx. apply Z.bits_inj'. intros j Hj. rewrite Z.lxor_spec, !Z.testbit_mod_pow2, Z.lxor_spec by lia.
  destruct (Z.ltb_spec j w); simpl; [done|]. by rewrite (high_bits_zero x w) by lia.
Qed.

Lemma table_range w t (g : Z -> Z) k : 0 <= w -> forallb (fun k => at_ t k =? g k) bytes256 = true ->
  (forall k, 0 <= g k < 2 ^ w) -> 0 <= k < 256 -> 0 <= at_ t k < 2 ^ w.
Proof. intros Hw Ht Hg Hk. rewrite (table_entry t g k Ht Hk). apply Hg. Qed.

Lemma be_table_range w t poly k : 1 <= w -> 0 <= poly < 2 ^ w -> be_table_ok w t poly = true -> 0 <= k < 256 ->
  0 <= at_ t k < 2 ^ w.
Proof.
  intros Hw Hp Ht Hk.
  apply (table_range w t (fun k => Nat.iter 8 (be_bit w poly) (Z.shiftl k (w - 8))) k ltac:(lia) Ht); [|done].
  intros k'. simpl. by apply be_bit_range.
Qed.

(** ** Injectivity *)

(** A bit step is injective: the top bit of the result says whether the
    polynomial was added. *)
Lemma le_bit_inj w poly x y : 1 <= w -> 2 ^ (w - 1) <= poly < 2 ^ w -> 0 <= x < 2 ^ w -> 0 <= y < 2 ^ w ->
  le_bit poly x = le_bit poly y -> x = y.
Proof.
  intros Hw Hp Hx Hy E.
  assert (Hpt : Z.testbit poly (w - 1) = true).
  { apply Z.testbit_true; [lia|]. assert (poly / 2 ^ (w - 1) = 1) as ->; [|done].
    symmetry. apply (Z.div_unique _ _ _ (poly - 2 ^ (w - 1))); [|lia].
    assert (2 ^ w = 2 * 2 ^ (w - 1)) by (rewrite <- Z.pow_succ_r by lia; f_equal; lia). lia. }
  assert (T : forall z, 0 <= z < 2 ^ w -> Z.testbit (le_bit poly z) (w - 1) = Z.testbit z 0).
  { intros z Hz. unfold le_bit. rewrite Z.lxor_spec, Z.shiftr_spec, testbit_if, Hpt by lia.
    rewrite (high_bits_zero z w) by lia. by destruct (Z.testbit z 0). }
  assert (E0 : Z.testbit x 0 = Z.testbit y 0) by (rewrite <- (T x Hx), <- (T y Hy); by rewrite E).
  unfold le_bit in E. rewrite E0 in E. apply Z.bits_inj'. intros j Hj.
  destruct (decide (j = 0)) as [->|Hne]; [done|].
  apply (f_equal (fun z => Z.testbit (Z.lxor z (if Z.testbit y 0 then poly else 0)) (j - 1))) in E.
  rewrite !Z.lxor_assoc, !Z.lxor_nilpotent, !Z.lxor_0_r, !Z.shiftr_spec in E by lia.
  by replace (j - 1 + 1) with j in E by lia.
Qed.

Lemma iter_inj (P : Z -> Prop) (f : Z -> Z) n x y :
  (forall z, P z -> P (f z)) -> (forall a b, P a -> P b -> f a = f b -> a = b) ->
  P x -> P y -> Nat.iter n f x = Nat.iter n f y -> x = y.
Proof.
  intros Hp Hi Hx Hy. induction n as [|n IH]; simpl; [done|]. intros E. apply IH.
  apply Hi; [by apply (iter_range P)..|done].
Qed.

Lemma lxor_inj_l a x y : Z.lxor a x = Z.lxor a y -> x = y.
Proof.
  intros E. apply (f_equal (Z.lxor a)) in E. by rewrite <- !Z.lxor_assoc, Z.lxor_nilpotent, !Z.lxor_0_l in E.
Qed.

Lemma fold_range (P Q : Z -> Prop) (f : Z -> Z -> Z) buf x :
  (forall x b, P x -> Q b -> P (f x b)) -> Forall Q buf -> P x -> P (fold_left f buf x).
Proof.
  intros Hp. revert x. induction buf as [|b buf IH]; intros x Hb Hx; [done|].
  apply Forall_cons_iff in Hb as [Hb Hbs]. simpl. auto.
Qed.

Lemma fold_inj (P Q : Z -> Prop) (f : Z -> Z -> Z) buf x y :
  (forall x b, P x -> Q b -> P (f x b)) ->
  (forall x y b, P x -> P y -> Q b -> f x b = f y b -> x = y) ->
  Forall Q buf -> P x -> P y -> fold_left f buf x = fold_left f buf y -> x = y.
Proof.
  intros Hp Hi. revert x y. induction buf as [|b buf IH]; intros x y Hb Hx Hy; [done|]. simpl.
  apply Forall_cons_iff in Hb as [Hb Hbs]. intros E. apply IH in E; eauto.
Qed.

(** ** Properties *)

Lemma tables_bitwise crc buf : Forall is_byte buf ->
  esp_rom_crc8_le crc buf = crc_le 8 0xE0 crc buf /\
  esp_rom_crc16_le crc buf = crc_le 16 0x8408 crc buf /\
  esp_rom_crc32_le crc buf = crc_le 32 0xEDB88320 crc buf /\
  esp_rom_crc8_be crc buf = crc_be 8 0x07 crc buf /\
  esp_rom_crc16_be crc buf = crc_be 16 0x1021 crc buf /\
  esp_rom_crc32_be crc buf = crc_be 32 0x04C11DB7 crc buf.
Proof.
  intros Hb. destruct tables_ok as (T1 & T2 & T3 & T4 & T5 & T6).
  assert (LE : forall w poly f, 8 <= w -> 0 <= poly < 2 ^ w ->
    (forall x b, 0 <= x < 2 ^ w -> is_byte b -> f x b = le_byte poly x b) ->
    notw w (fold_left f buf (notw w crc)) = crc_le w poly crc buf).
  { intros w poly f Hw Hp Hf. unfold crc_le. f_equal.
    apply (fold_steps f _ (fun x => 0 <= x < 2 ^ w)); [|apply notw_range; lia|done].
    intros x b Hx Hby. split; [by apply Hf|]. unfold is_byte in Hby. apply le_byte_range; lia. }
  assert (BE : forall w poly f, 8 <= w -> 0 <= poly < 2 ^ w ->
    (forall x b, 0 <= x < 2 ^ w -> is_byte b -> f x b = be_byte w poly x b) ->
    notw w (fold_left f buf (notw w crc)) = crc_be w poly crc buf).
  { intros w poly f Hw Hp Hf. unfold crc_be. f_equal.
    apply (fold_steps f _ (fun x => 0 <= x < 2 ^ w)); [|apply notw_range; lia|done].
    intros x b Hx Hby. split; [by apply Hf|]. apply be_byte_range; lia. }
  unfold is_byte in *. split_and!.
  - apply LE; [lia..|]. intros x b Hx Hby. rewrite <- (le_table_step _ _ x b T1 Hby).
    rewrite (Z.shiftr_div_pow2 x), Z.div_small, Z.lxor_0_r by lia. f_equal.
    change 0xff with (Z.ones 8). rewrite Z.land_ones, Z.mod_small by (try apply lxor_range; lia). done.
  - apply LE; [lia..|]. intros x b Hx Hby. by apply le_table_step.
  - apply LE; [lia..|]. intros x b Hx Hby. by apply le_table_step.
  - apply BE; [lia..|]. intros x b Hx Hby. rewrite <- (be_table_step 8 _ _ x b ltac:(lia) T4 Hx Hby).
    rewrite <- shiftl_mod by lia. change (2 ^ (8 - 8)) with 1. rewrite Z.mod_1_r, Z.shiftl_0_l, Z.lxor_0_r.
    f_equal.
  - apply BE; [lia..|]. intros x b Hx Hby. rewrite <- (be_table_step 16 _ _ x b ltac:(lia) T5 Hx Hby).
    change (16 - 8) with 8. unfold u16. apply mod_lxor; [lia|].
    apply (be_table_range 16 _ 0x1021); [lia|lia|exact T5|].
    apply (lxor_range 8); [lia| |lia]. by apply (shiftr_byte 16).
  - apply BE; [lia..|]. intros x b Hx Hby. rewrite <- (be_table_step 32 _ _ x b ltac:(lia) T6 Hx Hby).
    change (32 - 8) with 24. unfold u32. apply mod_lxor; [lia|].
    apply (be_table_range 32 _ 0x04C11DB7); [lia|lia|exact T6|].
    apply (lxor_range 8); [lia| |lia]. by apply (shiftr_byte 32).
Qed.

Definition poly32 : Z := 0xEDB88320.
Abbreviation state32 := (fun x => 0 <= x < 2 ^ 32).

Lemma le32_step_range x b : state32 x -> is_byte b -> state32 (le_byte poly32 x b).
Proof. intros. unfold is_byte in *. apply le_byte_range; unfold poly32; lia. Qed.

Lemma le32_iter_inj n x y : state32 x -> state32 y ->
  Nat.iter n (le_bit poly32) x = Nat.iter n (le_bit poly32) y -> x = y.
Proof.
  apply (iter_inj state32).
  - intros z Hz. apply le_bit_range; unfold poly32; lia.
  - intros a b Ha Hb. apply (le_bit_inj 32); unfold poly32; lia.
Qed.

Lemma byte_xor_range x b : state32 x -> is_byte b -> state32 (Z.lxor x b).
Proof. intros. unfold is_byte in *. apply lxor_range; lia. Qed.

Lemma le32_step_inj x y b : state32 x -> state32 y -> is_byte b ->
  le_byte poly32 x b = le_byte poly32 y b -> x = y.
Proof.
  intros Hx Hy Hb. unfold le_byte. intros E. apply (lxor_inj_l b). rewrite !(Z.lxor_comm b).
  revert E. by apply le32_iter_inj; apply byte_xor_range.
Qed.

Lemma le_fold_range l x : Forall is_byte l -> state32 x -> state32 (fold_left (le_byte poly32) l x).
Proof. apply (fold_range (fun x => 0 <= x < 2 ^ 32)). exact le32_step_range. Qed.

(** The rest of a message keeps different states apart. *)
Lemma fold_state_inj buf x y : Forall is_byte buf -> state32 x -> state32 y ->
  fold_left (le_byte poly32) buf x = fold_left (le_byte poly32) buf y -> x = y.
Proof.
  apply (fold_inj (fun x => 0 <= x < 2 ^ 32)); [exact le32_step_range|exact le32_step_inj].
Qed.

(** The value of up to four bytes, first byte lowest. *)
Fixpoint word (u : list Z) : Z :=
  match u with [] => 0 | b :: u => Z.lxor b (Z.shiftl (word u) 8) end.

Lemma word_range u : Forall is_byte u -> 0 <= word u < 2 ^ (8 * Z.of_nat (length u)).
Proof.
  induction u as [|b u IH]; intros Hu; [done|]. apply Forall_cons_iff in Hu as [Hb Hu]. specialize (IH Hu).
  cbn [word length]. unfold is_byte in Hb.
  replace (8 * Z.of_nat (S (length u))) with (8 * Z.of_nat (length u) + 8) by lia. rewrite Z.pow_add_r by lia.
  assert (1 <= 2 ^ (8 * Z.of_nat (length u))) by (apply (Z.pow_le_mono_r 2 0); lia).
  rewrite <- Z.pow_add_r by lia. apply lxor_range; [lia| |].
  - rewrite Z.pow_add_r by lia. nia.
  - rewrite Z.shiftl_mul_pow2, Z.pow_add_r by lia. nia.
Qed.

Lemma word_inj u v : Forall is_byte u -> Forall is_byte v -> length u = length v -> word u = word v -> u = v.
Proof.
  revert v. induction u as [|b u IH]; intros [|c v] Hu Hv Hl E; try done.
  apply Forall_cons_iff in Hu as [Hb Hu]. apply Forall_cons_iff in Hv as [Hc Hv]. cbn [word] in E.
  unfold is_byte in *.
  assert (L : forall x y, 0 <= x < 256 -> Z.land (Z.lxor x (Z.shiftl y 8)) (Z.ones 8) = x).
  { intros x y Hx. apply Z.bits_inj'. intros j Hj. rewrite Z.land_spec, Z.lxor_spec.
    destruct (Z.ltb_spec j 8).
    - rewrite Z.shiftl_spec_low, Z.ones_spec_low by lia. by rewrite xorb_false_r, andb_true_r.
    - rewrite Z.ones_spec_high, (high_bits_zero x 8) by lia. by rewrite andb_false_r. }
  assert (b = c) as -> by (rewrite <- (L b (word u)), <- (L c (word v)) by lia; by rewrite E).
  f_equal. apply lxor_inj_l in E. apply (f_equal (fun z => Z.shiftr z 8)) in E.
  rewrite !Z.shiftr_shiftl_l, !Z.shiftl_0_r in E by lia. apply IH; try done. by injection Hl.
Qed.

(** Several bytes enter the state at once. *)
Lemma fold_word (f : Z -> Z) u x :
  (forall a b, f (Z.lxor a b) = Z.lxor (f a) (f b)) ->
  (forall y, Nat.iter 8 f (Z.shiftl y 8) = y) ->
  fold_left (fun x b => Nat.iter 8 f (Z.lxor x b)) u x = Nat.iter (8 * length u) f (Z.lxor x (word u)).
Proof.
  intros Hl Hs.
  revert x. induction u as [|b u IH]; intros x; cbn [fold_left word length].
  { by rewrite Z.lxor_0_r. }
  rewrite IH. replace (8 * S (length u))%nat with (8 * length u + 8)%nat by lia.
  rewrite Nat.iter_add. f_equal. rewrite <- Z.lxor_assoc.
  rewrite (iter_lxor f 8 (Z.lxor x b)) by done. by rewrite Hs.
Qed.

Lemma le_fold_word poly u x :
  fold_left (le_byte poly) u x = Nat.iter (8 * length u) (le_bit poly) (Z.lxor x (word u)).
Proof. exact (fold_word (le_bit poly) u x (le_bit_lxor poly) (le_iter_shift poly 8)). Qed.

(** Four bytes at most determine the state they lead to. *)
Lemma fold_burst u v x : Forall is_byte u -> Forall is_byte v -> length u = length v -> (length u <= 4)%nat ->
  state32 x -> fold_left (le_byte poly32) u x = fold_left (le_byte poly32) v x -> u = v.
Proof.
  intros Hu Hv Hl H4 Hx. rewrite !le_fold_word, Hl. intros E. apply word_inj; try done.
  assert (R : forall l, Forall is_byte l -> (length l <= 4)%nat -> 0 <= Z.lxor x (word l) < 2 ^ 32).
  { intros l Hb Hll. pose proof (word_range l Hb). apply lxor_range; [lia|done|].
    assert (2 ^ (8 * Z.of_nat (length l)) <= 2 ^ 32) by (apply Z.pow_le_mono_r; lia). lia. }
  apply (lxor_inj_l x). revert E. apply le32_iter_inj; apply R; try done. lia.
Qed.

Lemma crc32_bursts crc pre u v post :
  Forall is_byte (pre ++ u ++ v ++ post) -> length u = length v -> (length u <= 4)%nat -> u <> v ->
  esp_rom_crc32_le crc (pre ++ u ++ post) <> esp_rom_crc32_le crc (pre ++ v ++ post).
Proof.
  intros Hb Hl H4 Hne E. rewrite !Forall_app in Hb. destruct Hb as (B1 & B2 & B3 & B4).
  destruct (tables_bitwise crc (pre ++ u ++ post)) as (_ & _ & Eu & _); [rewrite !Forall_app; done|].
  destruct (tables_bitwise crc (pre ++ v ++ post)) as (_ & _ & Ev & _); [rewrite !Forall_app; done|].
  rewrite Eu, Ev in E. unfold crc_le in E. rewrite !fold_left_app in E.
  pose proof (notw_range 32 crc ltac:(lia)) as N. pose proof (le_fold_range pre _ B1 N) as Ny.
  apply (f_equal (notw 32)) in E. rewrite !notw_notw in E; [|lia| |lia|];
    [|by apply (le_fold_range _ _ B4), le_fold_range..].
  apply (fold_state_inj _ _ _ B4) in E; [|by apply le_fold_range..].
  by apply (fold_burst _ _ _ B2 B3 Hl H4 Ny) in E.
Qed.

(** The CRC-32 of a concatenation is the CRC-32 of the second part
    started from the CRC-32 of the first, so that a buffer can be checked in
    pieces. *)
Theorem crc32_chains crc a b : Forall is_byte (a ++ b) ->
  esp_rom_crc32_le crc (a ++ b) = esp_rom_crc32_le (esp_rom_crc32_le crc a) b.
Proof.
  intros Hb. pose proof Hb as Hab. rewrite Forall_app in Hb. destruct Hb as [Ha Hb].
  destruct (tables_bitwise crc (a ++ b) Hab) as (_ & _ & -> & _).
  destruct (tables_bitwise crc a Ha) as (_ & _ & -> & _).
  destruct (tables_bitwise (crc_le 32 0xEDB88320 crc a) b Hb) as (_ & _ & -> & _).
  unfold crc_le. rewrite fold_left_app, (notw_notw 32 (fold_left _ a _)); [done|lia|].
  apply le_fold_range; [done|]. apply notw_range. lia.
Qed.

(** C29: The six table-driven CRC routines compute the bit-serial CRC of their
    polynomial for every initial value and every buffer. *)
Theorem crc_tables_bitwise crc buf : Forall is_byte buf ->
  esp_rom_crc8_le crc buf = crc_le 8 0xE0 crc buf /\
  esp_rom_crc16_le crc buf = crc_le 16 0x8408 crc buf /\
  esp_rom_crc32_le crc buf = crc_le 32 0xEDB88320 crc buf /\
  esp_rom_crc8_be crc buf = crc_be 8 0x07 crc buf /\
  esp_rom_crc16_be crc buf = crc_be 16 0x1021 crc buf /\
  esp_rom_crc32_be crc buf = crc_be 32 0x04C11DB7 crc buf.
Proof. apply tables_bitwise. Qed.

(** Changing up to four consecutive bytes anywhere in a buffer always
    changes its CRC-32. *)
Theorem crc32_detects_bursts crc pre u v post :
  Forall is_byte (pre ++ u ++ v ++ post) -> length u = length v -> (length u <= 4)%nat -> u <> v ->
  esp_rom_crc32_le crc (pre ++ u ++ post) <> esp_rom_crc32_le crc (pre ++ v ++ post).
Proof. apply crc32_bursts. Qed.

(** ** Examples *)

Lemma ex_bytes_ok l : forallb (fun b => (0 <=? b) && (b <? 256)) l = true -> Forall is_byte l.
Proof.
  intros Hl. apply Forall_forall. intros x Hx. rewrite forallb_forall in Hl. specialize (Hl x Hx). zbool. unfold is_byte. lia.
Qed.

Lemma crc_tables_bitwise_witness :
  esp_rom_crc32_le 0 [0x31; 0x32; 0x33] = crc_le 32 0xEDB88320 0 [0x31; 0x32; 0x33].
Proof. exact (proj1 (proj2 (proj2 (crc_tables_bitwise 0 [0x31; 0x32; 0x33] (ex_bytes_ok [0x31; 0x32; 0x33] eq_refl))))). Defined.

Lemma crc32_detects_bursts_witness :
  esp_rom_crc32_le 0 ([1] ++ [2; 3] ++ [4]) <> esp_rom_crc32_le 0 ([1] ++ [2; 7] ++ [4]).
Proof.
  refine (crc32_detects_bursts 0 [1] [2; 3] [2; 7] [4] (ex_bytes_ok ([1] ++ [2; 3] ++ [2; 7] ++ [4]) eq_refl) eq_refl _ _).
  - simpl. lia.
  - discriminate.
Defined.

Lemma crc32_chains_witness :
  esp_rom_crc32_le 0 ([1; 2] ++ [3]) = esp_rom_crc32_le (esp_rom_crc32_le 0 [1; 2]) [3].
Proof. exact (crc32_chains 0 [1; 2] [3] (ex_bytes_ok ([1; 2] ++ [3]) eq_refl)). Defined.
