(* ===== verification/Flash.v ===== *)
(** * Error codes and the flash interface

    What the partition, OTA and bootloader code relies on of [esp_flash_*],
    [spi_flash_mmap] and [bootloader_flash_*] is the interface [FlashDev] with
    the laws of NOR flash, [FlashLaws]; [Nor] is an instance.  The driver
    behind [esp_flash_*] is modelled in [SpiFlash]. *)

From S2P Require Import Prelude CMem.

(** ** esp_err_t *)

Inductive esp_err_t :=
| ESP_OK | ESP_FAIL | ESP_ERR_NO_MEM | ESP_ERR_INVALID_ARG | ESP_ERR_INVALID_STATE
| ESP_ERR_INVALID_SIZE | ESP_ERR_NOT_FOUND | ESP_ERR_NOT_SUPPORTED | ESP_ERR_TIMEOUT
| ESP_ERR_IMAGE_INVALID | ESP_ERR_OTA_PARTITION_CONFLICT | ESP_ERR_OTA_SELECT_INFO_INVALID
| ESP_ERR_OTA_VALIDATE_FAILED | ESP_ERR_OTA_SMALL_SEC_VER | ESP_ERR_OTA_ROLLBACK_FAILED
| ESP_ERR_OTA_ROLLBACK_INVALID_STATE
| ESP_OK_EFUSE_CNT | ESP_ERR_EFUSE_CNT_IS_FULL | ESP_ERR_EFUSE_REPEATED_PROG | ESP_ERR_CODING | ESP_ERR_NOT_ENOUGH_UNUSED_KEY_BLOCKS | ESP_ERR_DAMAGED_READING
| ESP_ERR_FLASH (code : Z).

#[export] Instance esp_err_eq_dec : EqDecision esp_err_t.
Proof. solve_decision. Defined.

Definition is_ok (e : esp_err_t) : bool := match e with ESP_OK => true | _ => false end.

Lemma is_ok_spec e : reflect (e = ESP_OK) (is_ok e).
Proof. by destruct e; constructor. Qed.

(** ** The flash device *)

Definition SPI_FLASH_SEC_SIZE : Z := 0x1000.

(** [view enc f] is the flash as it is stored ([enc = false]) or as the
    decrypting cache shows it ([enc = true]). *)
Class FlashDev (F : Type) := {
  view : bool -> F -> mem;
  fl_read : F -> Z -> Z -> esp_err_t * list Z;
  fl_mmap : F -> Z -> Z -> esp_err_t;
  fl_write : bool -> F -> Z -> list Z -> esp_err_t * F;
  fl_erase : F -> Z -> Z -> esp_err_t * F
}.

(** The bytes of [[a, a + n)] are the only ones that differ. *)
Definition only_changes {F} `{FlashDev F} (a n : Z) (f f' : F) : Prop :=
  forall enc x, x < a \/ a + n <= x -> view enc f' x = view enc f x.

(** [[a, a + n)] is erased. *)
Definition erased {F} `{FlashDev F} (a n : Z) (f : F) : Prop :=
  forall x, a <= x < a + n -> view false f x = 0xFF.

(** The laws of NOR flash: it holds bytes; reads give the contents; whatever happens, only
    the addressed bytes change; a successful erase sets bytes to [0xFF]; a
    successful write to erased bytes stores the data. *)
Class FlashLaws (F : Type) `{FlashDev F} : Prop := {
  law_byte : forall enc f x, is_byte (view enc f x);
  law_read : forall f a n bs, fl_read f a n = (ESP_OK, bs) -> bs = read_bytes (view false f) a (Z.to_nat n);
  law_write_frame : forall enc f a bs, only_changes a (Z.of_nat (length bs)) f (fl_write enc f a bs).2;
  law_write : forall enc f a bs f', fl_write enc f a bs = (ESP_OK, f') ->
    erased a (Z.of_nat (length bs)) f -> read_bytes (view enc f') a (length bs) = bs;
  law_erase_frame : forall f a n, only_changes a n f (fl_erase f a n).2;
  law_erase : forall f a n f', fl_erase f a n = (ESP_OK, f') -> erased a n f'
}.

Section Laws.
Context {F : Type} `{FlashLaws F}.

Lemma only_changes_trans a n b k f1 f2 f3 lo hi :
  only_changes a n f1 f2 -> only_changes b k f2 f3 ->
  lo <= a -> a + n <= hi -> lo <= b -> b + k <= hi -> only_changes lo (hi - lo) f1 f3.
Proof. intros H1 H2 ???? enc x Hx. rewrite H2, H1 by lia. done. Qed.

Lemma only_changes_wider a n b k f f' :
  only_changes a n f f' -> b <= a -> a + n <= b + k -> only_changes b k f f'.
Proof. intros H1 ?? enc x Hx. apply H1. lia. Qed.

Lemma only_changes_refl a n f : only_changes a n f f.
Proof. done. Qed.

Lemma only_changes_read a n b k enc f f' : only_changes a n f f' -> b + Z.of_nat k <= a \/ a + n <= b ->
  read_bytes (view enc f') b k = read_bytes (view enc f) b k.
Proof. intros H1 Hb. apply read_bytes_agree. intros x Hx. apply H1. lia. Qed.
End Laws.

(** ** An instance: plain NOR flash *)

Record nor := mkNor { nor_mem : mem; nor_size : Z }.

(** Programming only clears bits. *)
Definition program (m : mem) (a : Z) (bs : list Z) : mem :=
  fun x => match (if a <=? x then bs !! Z.to_nat (x - a) else None) with
           | Some b => Z.land (u8 (m x)) b
           | None => m x
           end.

Definition in_range (f : nor) (a n : Z) : bool := (0 <=? a) && (0 <=? n) && (a + n <=? nor_size f).

#[export] Instance nor_dev : FlashDev nor := {|
  view _ f x := u8 (nor_mem f x);
  fl_read f a n := if in_range f a n then (ESP_OK, read_bytes (fun x => u8 (nor_mem f x)) a (Z.to_nat n)) else (ESP_ERR_FLASH 1, []);
  fl_mmap f a n := if in_range f a n then ESP_OK else ESP_ERR_FLASH 2;
  fl_write _ f a bs :=
    if in_range f a (Z.of_nat (length bs)) && forallb (fun b => (0 <=? b) && (b <? 256)) bs
    then (ESP_OK, mkNor (program (nor_mem f) a bs) (nor_size f)) else (ESP_ERR_FLASH 3, f);
  fl_erase f a n :=
    if in_range f a n then
      (ESP_OK, mkNor (fun x => if (a <=? x) && (x <? a + n) then 0xFF else nor_mem f x) (nor_size f))
    else (ESP_ERR_FLASH 4, f)
|}.

Lemma program_other m a bs x : x < a \/ a + Z.of_nat (length bs) <= x -> program m a bs x = m x.
Proof.
  intros Hx. unfold program. destruct (Z.leb_spec a x); [|done].
  rewrite lookup_ge_None_2; [done|]. lia.
Qed.

Lemma land_ff b : 0 <= b < 256 -> Z.land 0xFF b = b.
Proof. intros. change 0xFF with (Z.ones 8). rewrite Z.land_comm, Z.land_ones by lia. apply Z.mod_small. lia. Qed.

#[export] Instance nor_laws : FlashLaws nor.
Proof.
  split; cbn [fl_read fl_write fl_erase view nor_dev].
  - intros enc f x. apply u8_range.
  - intros f a n bs. destruct (in_range f a n); intros [= <-]; done.
  - intros enc f a bs e x Hx. cbn [view nor_dev]. destruct (_ && _); [|done]. simpl. by rewrite program_other.
  - intros enc f a bs f'. destruct (in_range f a _ && _) eqn:E; [|done]. intros [= <-] He.
    apply andb_true_iff in E as [_ Hb]. cbn [nor_mem].
    apply list_eq_same_length with (n := length bs); [done|by rewrite length_read_bytes|].
    intros i x y Hi. rewrite lookup_read_bytes by done. intros [= <-] Hy.
    unfold program. rewrite (proj2 (Z.leb_le _ _)) by lia.
    replace (Z.to_nat (a + Z.of_nat i - a)) with i by lia. rewrite Hy.
    specialize (He (a + Z.of_nat i) ltac:(lia)). cbn [view nor_dev] in He. rewrite He.
    rewrite forallb_forall in Hb. specialize (Hb y). rewrite <- list_elem_of_In in Hb.
    apply list_elem_of_lookup_2 in Hy. specialize (Hb Hy). zbool.
    rewrite land_ff by lia. apply u8_small. lia.
  - intros f a n e x Hx. cbn [view nor_dev]. destruct (in_range f a n); [|done]. simpl.
    destruct (Z.leb_spec a x), (Z.ltb_spec x (a + n)); simpl; try done; lia.
  - intros f a n f'. destruct (in_range f a n); [|done]. intros [= <-] x Hx. cbn [view nor_dev nor_mem].
    rewrite (proj2 (Z.leb_le a x)), (proj2 (Z.ltb_lt x (a + n))) by lia. done.
Qed.
