(* ===== verification/SpiFlash.v ===== *)
(** * The SPI flash driver: hosts and chips

    components/spi_flash/memspi_host_driver.c and the functions of
    components/hal/spi_flash_hal_common.inc and spi_flash_hal_iram.c it is
    used with, and the driver of generic chips, spi_flash_chip_generic.c.

    The flash chip and the bus are hardware, the interface [SpiDev]: a
    transaction of a host, the time that passes.  The state [flash_t] is the
    structure [esp_flash_t], the registers of the host that hold a prepared
    transaction, the flash encryption block and the device.  A call is a
    computation of the monad [M]; [ABORT] is a failed assertion or a loop that
    does not end. *)

From S2P Require Import Prelude CMem Flash.

(** ** Data *)

Definition ESP_ERR_FLASH_NOT_INITIALISED : esp_err_t := ESP_ERR_FLASH 3.
Definition ESP_ERR_FLASH_UNSUPPORTED_CHIP : esp_err_t := ESP_ERR_FLASH 5.
Definition ESP_ERR_FLASH_PROTECTED : esp_err_t := ESP_ERR_FLASH 6.

Definition CMD_WREN : Z := 0x06.
Definition CMD_WRDI : Z := 0x04.
Definition CMD_RDSR : Z := 0x05.
Definition CMD_FASTRD_QIO : Z := 0xEB.
Definition CMD_FASTRD_QIO_4B : Z := 0xEC.
Definition CMD_FASTRD_QUAD : Z := 0x6B.
Definition CMD_FASTRD_QUAD_4B : Z := 0x6C.
Definition CMD_FASTRD_DIO : Z := 0xBB.
Definition CMD_FASTRD_DIO_4B : Z := 0xBC.
Definition CMD_FASTRD_DUAL : Z := 0x3B.
Definition CMD_FASTRD_DUAL_4B : Z := 0x3C.
Definition CMD_FASTRD : Z := 0x0B.
Definition CMD_FASTRD_4B : Z := 0x0C.
Definition CMD_READ : Z := 0x03.
Definition CMD_READ_4B : Z := 0x13.
Definition CMD_CHIP_ERASE : Z := 0xC7.
Definition CMD_SECTOR_ERASE : Z := 0x20.
Definition CMD_LARGE_BLOCK_ERASE : Z := 0xD8.
Definition CMD_PROGRAM_PAGE : Z := 0x02.

Definition SR_WIP : Z := 1.
Definition SR_WREN : Z := 2.

Definition SPI_FLASH_SLOWRD : Z := 0.
Definition SPI_FLASH_FASTRD : Z := 1.
Definition SPI_FLASH_DOUT : Z := 2.
Definition SPI_FLASH_DIO : Z := 3.
Definition SPI_FLASH_QOUT : Z := 4.
Definition SPI_FLASH_QIO : Z := 5.
Definition SPI_FLASH_CONFIG_CONF_BITS : Z := 2 ^ 31.
Definition SPI_FLASH_CONFIG_IO_MODE_32B_ADDR : Z := 1.

Definition SPI_FLASH_HAL_MAX_WRITE_BYTES : Z := 64.
Definition SPI_FLASH_HAL_MAX_READ_BYTES : Z := 64.
Definition ADDRESS_MASK_24BIT : Z := 0xFFFFFF.

(** [spi_flash_trans_t]; the length of the output is that of [mosi_data]. *)
Record spi_flash_trans_t := mkTrans {
  command : Z;
  address_bitlen : Z;
  trans_address : Z;
  mosi_data : list Z;
  miso_len : Z;
  dummy_bitlen : Z
}.

(** The hardware: a transaction and its input data; whether the host is idle;
    waiting for some microseconds. *)
Class SpiDev (D : Type) := {
  transact : spi_flash_trans_t -> D -> list Z * D;
  host_idle : D -> bool * D;
  delay : Z -> D -> D
}.

Record flash_t (D : Type) := mkFlash {
  read_mode : Z;
  chip_size : Z;
  busy : bool;
  hpm_dummy_ena : bool;
  reg_command : Z;      (* the transaction that the host has prepared *)
  reg_addr_bitlen : Z;
  reg_dummy : Z;
  xts_enabled : bool;   (* the flash encryption block *)
  xts_block : option (Z * list Z);
  dev : D
}.
Arguments mkFlash {D}.
Arguments read_mode {D}.
Arguments chip_size {D}.
Arguments busy {D}.
Arguments hpm_dummy_ena {D}.
Arguments reg_command {D}.
Arguments reg_addr_bitlen {D}.
Arguments reg_dummy {D}.
Arguments xts_enabled {D}.
Arguments xts_block {D}.
Arguments dev {D}.

Section State.
Context {D : Type}.
Definition set_busy (b : bool) (s : flash_t D) : flash_t D :=
  mkFlash (read_mode s) (chip_size s) b (hpm_dummy_ena s) (reg_command s) (reg_addr_bitlen s) (reg_dummy s) (xts_enabled s) (xts_block s) (dev s).
Definition set_regs (c a d : Z) (s : flash_t D) : flash_t D :=
  mkFlash (read_mode s) (chip_size s) (busy s) (hpm_dummy_ena s) c a d (xts_enabled s) (xts_block s) (dev s).
Definition set_size (n : Z) (s : flash_t D) : flash_t D :=
  mkFlash (read_mode s) n (busy s) (hpm_dummy_ena s) (reg_command s) (reg_addr_bitlen s) (reg_dummy s) (xts_enabled s) (xts_block s) (dev s).
Definition set_xts (on : bool) (b : option (Z * list Z)) (s : flash_t D) : flash_t D :=
  mkFlash (read_mode s) (chip_size s) (busy s) (hpm_dummy_ena s) (reg_command s) (reg_addr_bitlen s) (reg_dummy s) on b (dev s).
Definition set_dev (d : D) (s : flash_t D) : flash_t D :=
  mkFlash (read_mode s) (chip_size s) (busy s) (hpm_dummy_ena s) (reg_command s) (reg_addr_bitlen s) (reg_dummy s) (xts_enabled s) (xts_block s) d.

(** An action of the hardware. *)
Definition on_dev {A} (f : D -> A * D) : M (flash_t D) A := fun s => let '(a, d) := f (dev s) in RET a (set_dev d s).
End State.

(** ** Hosts *)

(** What the context of a host, [spi_flash_hal_context_t], and the chip say:
    whether addresses and lengths are made even ([slicer_flags]), the io mode
    of commands, the dummy cycles that compensate for delays, whether more than
    one data line is supported, and whether the dummy phase drives its output. *)
Record host_context := mkHost {
  slicer_dtr : bool;
  base_io_mode : Z;
  extra_dummy : Z;
  multiline : bool;
  control_dummy_out : bool
}.

(** [spi_flash_host_driver_t] *)
Record spi_flash_host_driver_t (D : Type) := mkHostDriver {
  h_erase_chip : M (flash_t D) unit;
  h_erase_sector : Z -> M (flash_t D) unit;
  h_erase_block : Z -> M (flash_t D) unit;
  h_read_status : M (flash_t D) (esp_err_t * Z);
  h_set_write_protect : bool -> M (flash_t D) esp_err_t;
  h_program_page : list Z -> Z -> M (flash_t D) unit;
  h_write_data_slicer : Z -> Z -> Z -> Z * Z;
  h_read : Z -> Z -> M (flash_t D) (esp_err_t * list Z);
  h_read_data_slicer : Z -> Z -> Z -> Z * Z;
  h_flush_cache : option (Z -> Z -> M (flash_t D) esp_err_t)
}.
Arguments mkHostDriver {D}.
Arguments h_erase_chip {D}.
Arguments h_erase_sector {D}.
Arguments h_erase_block {D}.
Arguments h_read_status {D}.
Arguments h_set_write_protect {D}.
Arguments h_program_page {D}.
Arguments h_write_data_slicer {D}.
Arguments h_read {D}.
Arguments h_read_data_slicer {D}.
Arguments h_flush_cache {D}.

(** The C expression [x & ~7] for the length of an address. *)
Definition whole_bytes (n : Z) : Z := Z.land n (Z.lnot 7).

(** memspi_host_driver.c: the data of one transaction, as its length and its
    address. *)
Definition dtr_align (dtr : bool) (address len : Z) : Z * Z :=
  if dtr then
    if negb (address mod 2 =? 0) && negb (len mod 2 =? 0) then (u32 (address - 1), u32 (len + 1))
    else if negb (address mod 2 =? 0) && (len mod 2 =? 0) then (u32 (address - 1), u32 (len + 2))
    else if (address mod 2 =? 0) && negb (len mod 2 =? 0) then (address, u32 (len + 1))
    else (address, len)
  else (address, len).

Definition memspi_host_write_data_slicer (ctx : host_context) (address len page_size : Z) : Z * Z :=
  let '(align_addr, len) := dtr_align (slicer_dtr ctx) address len in
  let end_bound := u32 ((align_addr / page_size + 1) * page_size) in
  let max_len := Z.min (u32 (end_bound - align_addr)) SPI_FLASH_HAL_MAX_WRITE_BYTES in
  (Z.min max_len len, align_addr).

Definition memspi_host_read_data_slicer (ctx : host_context) (address len page_size : Z) : Z * Z :=
  let '(align_addr, len) := dtr_align (slicer_dtr ctx) address len in
  (Z.min SPI_FLASH_HAL_MAX_READ_BYTES len, align_addr).

Section Host.
Context {D : Type} `{SpiDev D} (ctx : host_context).

Definition spi_flash_hal_configure_host_io_mode (command addr_bitlen dummy_cyclelen_base io_mode : Z) : M (flash_t D) esp_err_t :=
  let extra_bits := Z.land io_mode 0xFFFF0000 in
  let io_mode := Z.land io_mode 0xFFFF in
  let conf_required := flag_test extra_bits SPI_FLASH_CONFIG_CONF_BITS in
  if negb (multiline ctx) && (SPI_FLASH_FASTRD <? io_mode) then mret ESP_ERR_NOT_SUPPORTED
  else
    let '(dummy, addr_bitlen) :=
      if negb (control_dummy_out ctx) && conf_required then
        (dummy_cyclelen_base - 4 / (if io_mode =? SPI_FLASH_DIO then 2 else 4), addr_bitlen + 4)
      else (dummy_cyclelen_base, addr_bitlen) in
    _ ← modify (set_regs command addr_bitlen (dummy + extra_dummy ctx));
    mret ESP_OK.

(** [spi_flash_hal_common_command] with the input data; the transaction is what
    the registers of the host say, without compensation if there is no input. *)
Definition spi_flash_hal_common_command (t : spi_flash_trans_t) : M (flash_t D) (esp_err_t * list Z) :=
  _ ← spi_flash_hal_configure_host_io_mode (command t) (address_bitlen t) (dummy_bitlen t) (base_io_mode ctx);
  s ← gets id;
  data ← on_dev (transact (mkTrans (reg_command s) (reg_addr_bitlen s) (trans_address t) (mosi_data t) (miso_len t)
    (if miso_len t =? 0 then dummy_bitlen t else reg_dummy s)));
  mret (ESP_OK, data).

(** [spi_flash_ll_set_usr_address] of the ESP32: of the [reg_bits] bits that are
    sent the first [bit_len] are the address, the others are ones. *)
Definition usr_address (address bit_len reg_bits : Z) : Z :=
  Z.lor (Z.shiftl address (reg_bits - bit_len)) (Z.ones (reg_bits - bit_len)).

(** [spi_flash_hal_read]: the command is the one the host was configured for. *)
Definition spi_flash_hal_read (address read_len : Z) : M (flash_t D) (esp_err_t * list Z) :=
  s ← gets id;
  let bitlen := reg_addr_bitlen s in
  data ← on_dev (transact (mkTrans (reg_command s) bitlen (usr_address address (whole_bytes bitlen) bitlen) [] read_len (reg_dummy s)));
  mret (ESP_OK, data).

(** memspi_host_driver.c *)
Definition memspi_host_read_status_hs : M (flash_t D) (esp_err_t * Z) :=
  r ← spi_flash_hal_common_command (mkTrans CMD_RDSR 0 0 [] 1 0);
  let '(err, data) := r in
  if negb (is_ok err) then mret (err, 0) else mret (ESP_OK, default 0 (head data)).

Definition memspi_host_erase_chip : M (flash_t D) unit :=
  _ ← spi_flash_hal_common_command (mkTrans CMD_CHIP_ERASE 0 0 [] 0 0); mret tt.

Definition memspi_host_erase_sector (start_address : Z) : M (flash_t D) unit :=
  _ ← assert_ (start_address <? 0x1000000);
  _ ← spi_flash_hal_common_command (mkTrans CMD_SECTOR_ERASE 24 start_address [] 0 0); mret tt.

Definition memspi_host_erase_block (start_address : Z) : M (flash_t D) unit :=
  _ ← assert_ (start_address <? 0x1000000);
  _ ← spi_flash_hal_common_command (mkTrans CMD_LARGE_BLOCK_ERASE 24 start_address [] 0 0); mret tt.

Definition memspi_host_program_page (buffer : list Z) (address : Z) : M (flash_t D) unit :=
  _ ← assert_ (u32 (address + Z.of_nat (length buffer)) <=? 0x1000000);
  _ ← spi_flash_hal_common_command (mkTrans CMD_PROGRAM_PAGE 24 address buffer 0 0); mret tt.

Definition memspi_host_set_write_protect (wp : bool) : M (flash_t D) esp_err_t :=
  _ ← spi_flash_hal_common_command (mkTrans (if wp then CMD_WRDI else CMD_WREN) 0 0 [] 0 0); mret ESP_OK.

(** spi_flash_hal_iram.c: the host that the main flash is connected to sends
    these commands by itself; it cuts addresses to 24 bits. *)
Definition spi_flash_hal_erase_chip : M (flash_t D) unit :=
  _ ← on_dev (transact (mkTrans CMD_CHIP_ERASE 0 0 [] 0 0)); mret tt.

Definition spi_flash_hal_erase_sector (start_address : Z) : M (flash_t D) unit :=
  _ ← on_dev (transact (mkTrans CMD_SECTOR_ERASE 24 (Z.land start_address ADDRESS_MASK_24BIT) [] 0 0)); mret tt.

Definition spi_flash_hal_erase_block (start_address : Z) : M (flash_t D) unit :=
  _ ← on_dev (transact (mkTrans CMD_LARGE_BLOCK_ERASE 24 (Z.land start_address ADDRESS_MASK_24BIT) [] 0 0)); mret tt.

Definition spi_flash_hal_set_write_protect (wp : bool) : M (flash_t D) esp_err_t :=
  _ ← on_dev (transact (mkTrans (if wp then CMD_WRDI else CMD_WREN) 0 0 [] 0 0)); mret ESP_OK.

(** The data that the host sends: with flash encryption, what the encryption
    block has made of the data prepared for this address.  [xts] is that
    function, [xts_other] what is sent when the address or the length is not
    the prepared one. *)
Context (xts : Z -> list Z -> list Z) (xts_other : Z -> list Z -> Z -> list Z -> list Z).

Definition sent_data (s : flash_t D) (address : Z) (buffer : list Z) : list Z :=
  match (if xts_enabled s then xts_block s else None) with
  | Some (a, data) =>
      if (a =? address) && (length data =? length buffer)%nat then xts a data else xts_other a data address buffer
  | None => buffer
  end.

Definition spi_flash_hal_program_page (buffer : list Z) (address : Z) : M (flash_t D) unit :=
  s ← gets id;
  _ ← on_dev (transact (mkTrans CMD_PROGRAM_PAGE 24 (Z.land address ADDRESS_MASK_24BIT) (sent_data s address buffer) 0 0));
  mret tt.

(** [ESP_FLASH_DEFAULT_HOST_DRIVER], with [memspi_host_flush_cache] as an
    argument, and [esp_flash_gpspi_host]. *)
Definition esp_flash_default_host (flush_cache : Z -> Z -> M (flash_t D) esp_err_t) : spi_flash_host_driver_t D :=
  mkHostDriver spi_flash_hal_erase_chip spi_flash_hal_erase_sector spi_flash_hal_erase_block memspi_host_read_status_hs
    spi_flash_hal_set_write_protect spi_flash_hal_program_page (memspi_host_write_data_slicer ctx) spi_flash_hal_read
    (memspi_host_read_data_slicer ctx) (Some flush_cache).

Definition esp_flash_gpspi_host : spi_flash_host_driver_t D :=
  mkHostDriver memspi_host_erase_chip memspi_host_erase_sector memspi_host_erase_block memspi_host_read_status_hs
    memspi_host_set_write_protect memspi_host_program_page (memspi_host_write_data_slicer ctx) spi_flash_hal_read
    (memspi_host_read_data_slicer ctx) None.
End Host.

(** ** The driver of generic chips *)

(** [flash_chip_op_timeout_t] *)
Record flash_chip_op_timeout_t := mkTimeout {
  idle_timeout : Z;
  chip_erase_timeout : Z;
  block_erase_timeout : Z;
  sector_erase_timeout : Z;
  page_program_timeout : Z
}.

Definition spi_flash_chip_generic_timeout : flash_chip_op_timeout_t :=
  mkTimeout (200 * 1000) (4000 * 1000) (4100 * 1000) (600 * 1000) (500 * 1000).

Definition ESP_FLASH_CHIP_GENERIC_NO_TIMEOUT : Z := UINT32_MAX.
Definition HOST_DELAY_INTERVAL_US : Z := 1.
Definition CHIP_WAIT_IDLE_INTERVAL_US : Z := 20.
Definition GENERIC_SECTOR_SIZE : Z := 4 * 1024.
Definition GENERIC_BLOCK_ERASE_SIZE : Z := 64 * 1024.
Definition GENERIC_PAGE_SIZE : Z := 256.

(** The hooks of the operating system, [esp_flash_os_functions_t]. *)
Record esp_flash_os_functions_t (D : Type) := mkOs {
  os_start : option (D -> esp_err_t * D);
  os_end : option (D -> esp_err_t * D);
  os_region_protected : option (Z -> Z -> bool);
  os_get_temp_buffer : option (Z -> option Z);
  os_check_yield : option (bool -> D -> (esp_err_t * bool) * D);
  os_yield : D -> esp_err_t * D
}.
Arguments mkOs {D}.
Arguments os_start {D}.
Arguments os_end {D}.
Arguments os_region_protected {D}.
Arguments os_get_temp_buffer {D}.
Arguments os_check_yield {D}.
Arguments os_yield {D}.

(** Copies [n] bytes at offset [off] out of a buffer. *)
Definition slice (off n : Z) (bs : list Z) : list Z := take (Z.to_nat n) (drop (Z.to_nat off) bs).

Section Generic.
Context {D : Type} `{SpiDev D} (ctx : host_context) (host : spi_flash_host_driver_t D) (os : esp_flash_os_functions_t D).
(** [CONFIG_SPI_FLASH_CHECK_ERASE_TIMEOUT_DISABLED] *)
Context (no_erase_timeout : bool).

Abbreviation M := (M (flash_t D)).

Definition delay_us (us : Z) : M unit := on_dev (fun d => (tt, delay us d)).

(** The waiting loops.  A round of the inner loop takes a microsecond as long as
    there is more than one left; 2^32 rounds are endless. *)
Definition host_round (c : Z * flash_t D) : (Z * flash_t D) + (Z * flash_t D) :=
  let '(timeout_us, s) := c in
  let '(idle, d) := host_idle (dev s) in
  if negb idle && (0 <? timeout_us) then
    if 1 <? timeout_us then
      let n := Z.min HOST_DELAY_INTERVAL_US timeout_us in inl (timeout_us - n, set_dev (delay n d) s)
    else inl (timeout_us, set_dev d s)
  else inr (timeout_us, set_dev d s).

Definition wait_host (timeout_us : Z) : M Z := fun s =>
  match loop_pos host_round (2 ^ 32) (timeout_us, s) with inl _ => ABORT | inr (timeout_us, s) => RET timeout_us s end.

Definition spi_flash_chip_generic_read_reg : M (esp_err_t * Z) := h_read_status host.

Fixpoint idle_loop (fuel : nat) (timeout_en : bool) (timeout_us : Z) : M esp_err_t :=
  match fuel with
  | O => abort
  | S fuel =>
      if 0 <? timeout_us then
        timeout_us ← wait_host timeout_us;
        r ← spi_flash_chip_generic_read_reg;
        let '(err, read) := r in
        if negb (is_ok err) then mret err
        else
          let status := u8 read in
          if Z.land status SR_WIP =? 0 then
            was_busy ← gets busy;
            if (was_busy : bool) then
              _ ← modify (set_busy false);
              if negb (Z.land status SR_WREN =? 0) then mret ESP_ERR_NOT_SUPPORTED
              else mret (if 0 <? timeout_us then ESP_OK else ESP_ERR_TIMEOUT)
            else mret (if 0 <? timeout_us then ESP_OK else ESP_ERR_TIMEOUT)
          else if 0 <? timeout_us then
            let n := Z.min CHIP_WAIT_IDLE_INTERVAL_US timeout_us in
            _ ← delay_us n;
            idle_loop fuel timeout_en (if timeout_en then timeout_us - n else timeout_us)
          else idle_loop fuel timeout_en timeout_us
      else mret (if 0 <? timeout_us then ESP_OK else ESP_ERR_TIMEOUT)
  end.

(** Rounds that are enough for a timeout; without one a round takes a
    microsecond, and there are enough for the longest operation. *)
Definition idle_fuel (timeout_us : Z) : nat :=
  if timeout_us =? ESP_FLASH_CHIP_GENERIC_NO_TIMEOUT then Z.to_nat (block_erase_timeout spi_flash_chip_generic_timeout) + 2
  else Z.to_nat (timeout_us / CHIP_WAIT_IDLE_INTERVAL_US) + 2.

Definition spi_flash_chip_generic_wait_idle (timeout_us : Z) : M esp_err_t :=
  let timeout_en := negb (timeout_us =? ESP_FLASH_CHIP_GENERIC_NO_TIMEOUT) in
  idle_loop (idle_fuel timeout_us) timeout_en
    (u32 ((if timeout_us =? ESP_FLASH_CHIP_GENERIC_NO_TIMEOUT then 0 else timeout_us) + 1)).

Abbreviation timeout := spi_flash_chip_generic_timeout.
Abbreviation wait_idle := spi_flash_chip_generic_wait_idle.

(** The chip did not accept the previous command, or nothing went wrong. *)
Definition ready_to_send (err : esp_err_t) : bool :=
  match err with ESP_OK | ESP_ERR_NOT_SUPPORTED => true | _ => false end.

Definition spi_flash_chip_generic_get_write_protect : M (esp_err_t * bool) :=
  r ← spi_flash_chip_generic_read_reg;
  let '(err, status) := r in
  if negb (is_ok err) then mret (err, false)
  else mret (err, Z.land status SR_WREN =? 0).

Definition spi_flash_chip_generic_set_write_protect (write_protect : bool) : M esp_err_t :=
  err ← wait_idle (idle_timeout timeout);
  _ ← (if ready_to_send err then _ ← h_set_write_protect host write_protect; mret tt else mret tt);
  r ← spi_flash_chip_generic_get_write_protect;
  let '(err, wp_read) := r in
  mret (if is_ok err && negb (eqb wp_read write_protect) then ESP_ERR_NOT_FOUND else err).

(** "Ensure WEL is 0, even if the erase failed." *)
Definition ensure_wel_0 (err : esp_err_t) : M esp_err_t :=
  match err with ESP_ERR_NOT_SUPPORTED => spi_flash_chip_generic_set_write_protect true | _ => mret err end.

(** The common part of the three functions that erase. *)
Definition generic_erase (erase : M unit) (op_timeout : Z) : M esp_err_t :=
  err ← spi_flash_chip_generic_set_write_protect false;
  err ← (if is_ok err then wait_idle (idle_timeout timeout) else mret err);
  err ← (if ready_to_send err then
           _ ← erase;
           _ ← modify (set_busy true);
           wait_idle (if no_erase_timeout then ESP_FLASH_CHIP_GENERIC_NO_TIMEOUT else op_timeout)
         else mret err);
  ensure_wel_0 err.

Definition spi_flash_chip_generic_erase_chip : M esp_err_t := generic_erase (h_erase_chip host) (chip_erase_timeout timeout).
Definition spi_flash_chip_generic_erase_sector (start_address : Z) : M esp_err_t :=
  generic_erase (h_erase_sector host start_address) (sector_erase_timeout timeout).
Definition spi_flash_chip_generic_erase_block (start_address : Z) : M esp_err_t :=
  generic_erase (h_erase_block host start_address) (block_erase_timeout timeout).

Definition spi_flash_chip_generic_page_program (buffer : list Z) (address : Z) : M esp_err_t :=
  err ← wait_idle (idle_timeout timeout);
  err ← (if ready_to_send err then
           _ ← h_program_page host buffer address;
           _ ← modify (set_busy true);
           wait_idle (page_program_timeout timeout)
         else mret err);
  ensure_wel_0 err.

(** The dummy cycles of a mode, [flash_chip_dummy_t], and of high performance
    mode. *)
Definition dummy_cycles (hpm : bool) (mode : Z) : Z :=
  if mode =? SPI_FLASH_QIO then if hpm then 10 else 6
  else if mode =? SPI_FLASH_DIO then if hpm then 8 else 4
  else if mode =? SPI_FLASH_SLOWRD then 0
  else 8.

Definition spi_flash_chip_generic_config_host_io_mode (flags : Z) : M esp_err_t :=
  s ← gets id;
  let mode := Z.land (read_mode s) 0xFFFF in
  let addr_32bit := flag_test flags SPI_FLASH_CONFIG_IO_MODE_32B_ADDR in
  let go (read_command read_command_4b : Z) (conf_required : bool) : M esp_err_t :=
    spi_flash_hal_configure_host_io_mode ctx (if addr_32bit then read_command_4b else read_command)
      (if addr_32bit then 24 + 8 else 24) (dummy_cycles (hpm_dummy_ena s) mode)
      (if conf_required then Z.lor (read_mode s) SPI_FLASH_CONFIG_CONF_BITS else read_mode s) in
  if mode =? SPI_FLASH_QIO then go CMD_FASTRD_QIO CMD_FASTRD_QIO_4B true
  else if mode =? SPI_FLASH_QOUT then go CMD_FASTRD_QUAD CMD_FASTRD_QUAD_4B false
  else if mode =? SPI_FLASH_DIO then go CMD_FASTRD_DIO CMD_FASTRD_DIO_4B true
  else if mode =? SPI_FLASH_DOUT then go CMD_FASTRD_DUAL CMD_FASTRD_DUAL_4B false
  else if mode =? SPI_FLASH_FASTRD then go CMD_FASTRD CMD_FASTRD_4B false
  else if mode =? SPI_FLASH_SLOWRD then go CMD_READ CMD_READ_4B false
  else mret ESP_ERR_FLASH_NOT_INITIALISED.

(** The loops of [read] and [write]: one slice per round, through a buffer of
    64 bytes.  A length that exceeds it aborts. *)
Fixpoint read_slices (fuel : nat) (address length : Z) (got : list Z) (err : esp_err_t) : M (esp_err_t * list Z) :=
  if is_ok err && (0 <? length) then
    match fuel with
    | O => abort
    | S fuel =>
        let '(read_len, align_address) := h_read_data_slicer host address length GENERIC_PAGE_SIZE in
        let left_off := u32 (address - align_address) in
        let data_len := u32 (Z.min (u32 (align_address + read_len)) (u32 (address + length)) - address) in
        _ ← assert_ ((0 <=? read_len) && (read_len <=? 64) && (left_off + data_len <=? 64));
        r ← h_read host align_address read_len;
        let '(err, data) := r in
        let temp_buffer := data ++ replicate (Z.to_nat (64 - read_len)) 0xFF in
        read_slices fuel (u32 (address + data_len)) (u32 (length - data_len)) (got ++ slice left_off data_len temp_buffer) err
    end
  else mret (err, got).

Definition spi_flash_chip_generic_read (address length : Z) : M (esp_err_t * list Z) :=
  err ← spi_flash_chip_generic_config_host_io_mode 0;
  match err with
  | ESP_ERR_NOT_SUPPORTED => mret (err, [])
  | _ => read_slices (Z.to_nat length) address length [] err
  end.

Fixpoint write_slices (fuel : nat) (buffer : list Z) (address : Z) (err : esp_err_t) : M esp_err_t :=
  let length := Z.of_nat (length buffer) in
  if is_ok err && (0 <? length) then
    match fuel with
    | O => abort
    | S fuel =>
        let '(page_len, align_address) := h_write_data_slicer host address length GENERIC_PAGE_SIZE in
        let left_off := u32 (address - align_address) in
        let write_len := u32 (Z.min (u32 (align_address + page_len)) (u32 (address + length)) - address) in
        _ ← assert_ ((0 <=? page_len) && (page_len <=? 64) && (left_off + write_len <=? 64));
        let temp_buffer := take (Z.to_nat page_len)
          (replicate (Z.to_nat left_off) 0xFF ++ take (Z.to_nat write_len) buffer ++ replicate (Z.to_nat (64 - left_off - write_len)) 0xFF) in
        err ← spi_flash_chip_generic_set_write_protect false;
        if is_ok err then
          err ← spi_flash_chip_generic_page_program temp_buffer align_address;
          write_slices fuel (drop (Z.to_nat write_len) buffer) (u32 (address + write_len)) err
        else mret err
    end
  else mret err.

Definition spi_flash_chip_generic_write (buffer : list Z) (address : Z) : M esp_err_t :=
  write_slices (length buffer) buffer address ESP_OK.

(** Flash encryption (hal/spi_flash_encrypt_hal_iram.c): the block that has been
    prepared stays until it is destroyed. *)
Definition flash_encryption_enable : M unit := modify (fun s => set_xts true (xts_block s) s).
Definition flash_encryption_disable : M unit := modify (fun s => set_xts false (xts_block s) s).
Definition flash_encryption_data_prepare (address : Z) (data : list Z) : M unit :=
  modify (fun s => set_xts (xts_enabled s) (Some (address, data)) s).
Definition flash_encryption_destroy : M unit := modify (fun s => set_xts (xts_enabled s) None s).

(** The loop of [write_encrypted]; all of the rest of the data is passed to
    [write], the block that was prepared is part of it. *)
Fixpoint write_encrypted_blocks (fuel : nat) (data_bytes : list Z) (address : Z) (err : esp_err_t) : M esp_err_t :=
  let length := Z.of_nat (length data_bytes) in
  if 0 <? length then
    match fuel with
    | O => abort
    | S fuel =>
        let block_size := if (address mod 64 =? 0) && (64 <=? length) then 64 else if (address mod 32 =? 0) && (32 <=? length) then 32 else 16 in
        _ ← flash_encryption_data_prepare address (take (Z.to_nat block_size) data_bytes);
        err ← spi_flash_chip_generic_set_write_protect false;
        if negb (is_ok err) then mret err
        else
          err ← spi_flash_chip_generic_write data_bytes address;
          if negb (is_ok err) then mret err
          else
            err ← wait_idle (page_program_timeout timeout);
            if negb (is_ok err) then mret err
            else
              _ ← flash_encryption_destroy;
              write_encrypted_blocks fuel (drop (Z.to_nat block_size) data_bytes) (u32 (address + block_size)) err
    end
  else _ ← flash_encryption_disable; mret err.

Definition spi_flash_chip_generic_write_encrypted (is_default_chip : bool) (buffer : list Z) (address : Z) : M esp_err_t :=
  if negb is_default_chip then mret ESP_ERR_NOT_SUPPORTED
  else if negb (address mod Z.of_nat (length buffer) =? 0) then mret ESP_ERR_NOT_SUPPORTED
  else
    _ ← flash_encryption_enable;
    write_encrypted_blocks (length buffer) buffer address ESP_OK.

Definition spi_flash_chip_generic_yield (wip : bool) : M esp_err_t :=
  match os_check_yield os with
  | None => mret ESP_OK
  | Some check_yield =>
      r ← on_dev (check_yield wip);
      let '(err, request) := r in
      match err with
      | ESP_OK => if (request : bool) then on_dev (os_yield os) else mret ESP_OK
      | ESP_ERR_TIMEOUT => mret ESP_OK
      | _ => abort
      end
  end.
End Generic.
