(* ===== verification/SpiFlashApi.v ===== *)
(** * The SPI flash driver: API

    components/spi_flash/esp_flash_api.c: reading, writing and erasing a chip
    through the driver of the chip, in pieces between which the bus is
    released.  The driver is the record [spi_flash_chip_t] of optional
    functions; [esp_flash_chip_generic] is the one of [SpiFlash].  The hooks
    [start] and [end] of the operating system acquire and release the bus. *)

From S2P Require Import Prelude CMem Flash SpiFlash.

(** ** Drivers *)

Record esp_flash_region_t := mkRegion { region_offset : Z; region_size : Z }.

#[export] Instance esp_flash_region_eq_dec : EqDecision esp_flash_region_t.
Proof. solve_decision. Defined.

Record spi_flash_chip_t (D : Type) := mkChip {
  drv_detect_size : option (M (flash_t D) (esp_err_t * Z));
  drv_erase_chip : option (M (flash_t D) esp_err_t);
  drv_erase_sector : option (Z -> M (flash_t D) esp_err_t);
  drv_erase_block : option (Z -> M (flash_t D) esp_err_t);
  sector_size : Z;
  block_erase_size : Z;
  drv_get_chip_write_protect : option (M (flash_t D) (esp_err_t * bool));
  drv_set_chip_write_protect : option (bool -> M (flash_t D) esp_err_t);
  num_protectable_regions : Z;
  protectable_regions : list esp_flash_region_t;
  drv_get_protected_regions : option (M (flash_t D) (esp_err_t * Z));
  drv_set_protected_regions : option (Z -> M (flash_t D) esp_err_t);
  drv_read : option (Z -> Z -> M (flash_t D) (esp_err_t * list Z));
  drv_write : option (list Z -> Z -> M (flash_t D) esp_err_t);
  drv_write_encrypted : list Z -> Z -> M (flash_t D) esp_err_t;
  drv_yield : option (bool -> M (flash_t D) esp_err_t)
}.
Arguments mkChip {D}.
Arguments drv_detect_size {D}.
Arguments drv_erase_chip {D}.
Arguments drv_erase_sector {D}.
Arguments drv_erase_block {D}.
Arguments sector_size {D}.
Arguments block_erase_size {D}.
Arguments drv_get_chip_write_protect {D}.
Arguments drv_set_chip_write_protect {D}.
Arguments num_protectable_regions {D}.
Arguments protectable_regions {D}.
Arguments drv_get_protected_regions {D}.
Arguments drv_set_protected_regions {D}.
Arguments drv_read {D}.
Arguments drv_write {D}.
Arguments drv_write_encrypted {D}.
Arguments drv_yield {D}.

(** spi_flash_chip_generic.c *)
Definition spi_flash_chip_generic_detect_size (chip_id : Z) : esp_err_t * Z :=
  if (Z.land chip_id 0xFFFF =? 0x0000) || (Z.land chip_id 0xFFFF =? 0xFFFF) then (ESP_ERR_FLASH_UNSUPPORTED_CHIP, 0)
  else (ESP_OK, u32 (Z.shiftl 1 (Z.land chip_id 0xFF))).

Definition esp_flash_chip_generic {D} `{SpiDev D} (ctx : host_context) (host : spi_flash_host_driver_t D) (os : esp_flash_os_functions_t D)
    (no_erase_timeout : bool) (is_default_chip : bool) (chip_id : Z) : spi_flash_chip_t D :=
  mkChip (Some (mret (spi_flash_chip_generic_detect_size chip_id)))
    (Some (spi_flash_chip_generic_erase_chip host no_erase_timeout))
    (Some (spi_flash_chip_generic_erase_sector host no_erase_timeout))
    (Some (spi_flash_chip_generic_erase_block host no_erase_timeout))
    GENERIC_SECTOR_SIZE GENERIC_BLOCK_ERASE_SIZE
    (Some (spi_flash_chip_generic_get_write_protect host))
    (Some (spi_flash_chip_generic_set_write_protect host))
    0 [] None None
    (Some (spi_flash_chip_generic_read ctx host))
    (Some (spi_flash_chip_generic_write host))
    (spi_flash_chip_generic_write_encrypted host is_default_chip)
    (Some (spi_flash_chip_generic_yield os)).

(** ** The API *)

Definition MAX_WRITE_CHUNK : Z := 8192.
Definition MAX_READ_CHUNK : Z := 16384.

(** [CONFIG_SPI_FLASH_DANGEROUS_WRITE_*] *)
Inductive dangerous_write := DANGEROUS_WRITE_ALLOWED | DANGEROUS_WRITE_FAILS | DANGEROUS_WRITE_ABORTS.

Definition regions_overlap (a_start a_len b_start b_len : Z) : bool :=
  let a_end := u32 (a_start + a_len) in
  let b_end := u32 (b_start + b_len) in
  (b_start <? a_end) && (a_start <? b_end).

Section Api.
Context {D : Type} `{SpiDev D} (host : spi_flash_host_driver_t D) (os : esp_flash_os_functions_t D).
(** [chip->chip_drv], the options of the build, and whether the chip is
    [esp_flash_default_chip]. *)
Context (chip_drv : option (spi_flash_chip_t D)) (dangerous : dangerous_write) (bypass_block_erase : bool) (is_default_chip : bool).

Abbreviation M := (M (flash_t D)).

Definition spiflash_start_default : M esp_err_t := match os_start os with None => mret ESP_OK | Some start => on_dev start end.

Definition spiflash_end_default (err : esp_err_t) : M esp_err_t :=
  match os_end os with
  | None => mret err
  | Some end_ => end_err ← on_dev end_; mret (if is_ok err then end_err else err)
  end.

Definition flash_end_flush_cache (err : esp_err_t) (bus_acquired : bool) (address length : Z) : M esp_err_t :=
  let flush : M esp_err_t :=
    match h_flush_cache host with
    | None => spiflash_end_default err
    | Some flush_cache =>
        flush_err ← flush_cache address length;
        spiflash_end_default (if is_ok err then flush_err else err)
    end in
  if negb bus_acquired then
    acquire_err ← spiflash_start_default;
    if negb (is_ok acquire_err) then mret (if is_ok err then acquire_err else err) else flush
  else flush.

(** [chip_check] and [VERIFY_CHIP_OP]: the function of the driver or an error. *)
Definition chip_check : esp_err_t + spi_flash_chip_t D :=
  match chip_drv with None => inl ESP_ERR_FLASH_NOT_INITIALISED | Some drv => inr drv end.

Definition VERIFY_CHIP_OP {A} (op : spi_flash_chip_t D -> option A) (k : spi_flash_chip_t D -> A -> M esp_err_t) : M esp_err_t :=
  match chip_check with
  | inl err => mret err
  | inr drv => match op drv with None => mret ESP_ERR_FLASH_UNSUPPORTED_CHIP | Some f => k drv f end
  end.

Definition CHECK_WRITE_ADDRESS (addr size : Z) (k : M esp_err_t) : M esp_err_t :=
  match dangerous, os_region_protected os with
  | DANGEROUS_WRITE_ALLOWED, _ | _, None => k
  | DANGEROUS_WRITE_FAILS, Some protected => if protected addr size then mret ESP_ERR_INVALID_ARG else k
  | DANGEROUS_WRITE_ABORTS, Some protected => if protected addr size then abort else k
  end.

(** Runs an operation with the bus acquired. *)
Definition with_bus (op : M esp_err_t) : M esp_err_t :=
  err ← spiflash_start_default;
  if negb (is_ok err) then mret err else err ← op; spiflash_end_default err.

(** [chip_drv->yield(chip, 0)] before an operation. *)
Definition yield_before (drv : spi_flash_chip_t D) : M esp_err_t :=
  match drv_yield drv with None => mret ESP_OK | Some yield => yield false end.

Definition esp_flash_get_size : M (esp_err_t * Z) :=
  match chip_check with
  | inl err => mret (err, 0)
  | inr drv =>
      match drv_detect_size drv with
      | None => mret (ESP_ERR_FLASH_UNSUPPORTED_CHIP, 0)
      | Some detect_size =>
          size ← gets chip_size;
          if negb (size =? 0) then mret (ESP_OK, size)
          else
            err ← spiflash_start_default;
            if negb (is_ok err) then mret (err, 0)
            else
              r ← detect_size;
              let '(err, size) := r in
              _ ← (if is_ok err then modify (set_size size) else mret tt);
              err ← spiflash_end_default err;
              mret (err, size)
      end
  end.

Definition esp_flash_erase_chip : M esp_err_t :=
  VERIFY_CHIP_OP drv_erase_chip (fun drv erase_chip =>
  size ← gets chip_size;
  CHECK_WRITE_ADDRESS 0 size (
  err ← yield_before drv;
  if negb (is_ok err) then mret err
  else with_bus (
    err ← erase_chip;
    match h_flush_cache host with
    | None => mret err
    | Some flush_cache => flush_err ← flush_cache 0 size; mret (if is_ok err then flush_err else err)
    end))).

(** The region that is protected and overlaps, of the bits of a mask. *)
Fixpoint region_check (i : Z) (regions : list esp_flash_region_t) (protected start len : Z) : esp_err_t :=
  match regions with
  | [] => ESP_OK
  | r :: regions =>
      if Z.testbit protected i && regions_overlap start len (region_offset r) (region_size r) then ESP_ERR_FLASH_PROTECTED
      else region_check (i + 1) regions protected start len
  end.

Definition check_protected_regions (drv : spi_flash_chip_t D) (start len : Z) : M esp_err_t :=
  match drv_get_protected_regions drv with
  | Some get_protected_regions =>
      if 0 <? num_protectable_regions drv then
        with_bus (
          r ← get_protected_regions;
          let '(err, protected) := r in
          mret (if is_ok err && negb (protected =? 0) then
                  region_check 0 (take (Z.to_nat (num_protectable_regions drv)) (protectable_regions drv)) protected start len
                else err))
      else mret ESP_OK
  | None => mret ESP_OK
  end.

(** The loop that erases: it returns at once ([inl]), or breaks with an error
    code and whether the bus is still acquired. *)
Fixpoint erase_loop (fuel : nat) (drv : spi_flash_chip_t D) (erase_sector erase_block : Z -> M esp_err_t)
    (block_size erase_addr len_remain len : Z) : M (esp_err_t + esp_err_t * bool) :=
  match fuel with
  | O => abort
  | S fuel =>
      err ← yield_before drv;
      if negb (is_ok err) then mret (inl err)
      else
        err ← spiflash_start_default;
        if negb (is_ok err) then mret (inr (err, false))
        else
          let block := negb bypass_block_erase && (0 <? block_size) && (block_size <=? len_remain) && (erase_addr mod block_size =? 0) in
          err ← (if block then erase_block erase_addr else erase_sector erase_addr);
          let n := if block then block_size else sector_size drv in
          let erase_addr := u32 (erase_addr + n) in
          let len_remain := u32 (len_remain - n) in
          _ ← assert_ (len_remain <? len);
          if negb (is_ok err) || (len_remain =? 0) then mret (inr (err, true))
          else
            err ← spiflash_end_default ESP_OK;
            if negb (is_ok err) then mret (inr (err, true))
            else erase_loop fuel drv erase_sector erase_block block_size erase_addr len_remain len
  end.

Definition esp_flash_erase_region (start len : Z) : M esp_err_t :=
  VERIFY_CHIP_OP drv_erase_sector (fun drv erase_sector =>
  VERIFY_CHIP_OP drv_erase_block (fun drv erase_block =>
  CHECK_WRITE_ADDRESS start len (
  size ← gets chip_size;
  if (sector_size drv =? 0) || negb (block_erase_size drv mod sector_size drv =? 0) then mret ESP_ERR_FLASH_NOT_INITIALISED
  else if (size <? start) || (size <? u32 (start + len)) then mret ESP_ERR_INVALID_ARG
  else if negb (start mod sector_size drv =? 0) || negb (len mod sector_size drv =? 0) then mret ESP_ERR_INVALID_ARG
  else if len =? 0 then mret ESP_OK
  else
    err ← check_protected_regions drv start len;
    if negb (is_ok err) then mret err
    else
      r ← erase_loop (Z.to_nat (len / sector_size drv) + 1) drv erase_sector erase_block (block_erase_size drv) start len len;
      match r with
      | inl err => mret err
      | inr (err, bus_acquired) => flash_end_flush_cache err bus_acquired start len
      end))).

Definition esp_flash_get_chip_write_protect : M (esp_err_t * bool) :=
  match chip_check with
  | inl err => mret (err, false)
  | inr drv =>
      match drv_get_chip_write_protect drv with
      | None => mret (ESP_ERR_FLASH_UNSUPPORTED_CHIP, false)
      | Some get =>
          err ← spiflash_start_default;
          if negb (is_ok err) then mret (err, false)
          else r ← get; let '(err, wp) := r in err ← spiflash_end_default err; mret (err, wp)
      end
  end.

Definition esp_flash_set_chip_write_protect (write_protect : bool) : M esp_err_t :=
  VERIFY_CHIP_OP drv_set_chip_write_protect (fun drv set => with_bus (set write_protect)).

Fixpoint find_region_loop (i : Z) (regions : list esp_flash_region_t) (region : esp_flash_region_t) : option Z :=
  match regions with
  | [] => None
  | r :: regions => if decide (r = region) then Some i else find_region_loop (i + 1) regions region
  end.

Definition find_region (drv : spi_flash_chip_t D) (region : option esp_flash_region_t) : esp_err_t + Z :=
  match region with
  | None => inl ESP_ERR_INVALID_ARG
  | Some region =>
      match find_region_loop 0 (take (Z.to_nat (num_protectable_regions drv)) (protectable_regions drv)) region with
      | None => inl ESP_ERR_NOT_FOUND
      | Some index => inr index
      end
  end.

Definition esp_flash_get_protected_region (region : option esp_flash_region_t) : M (esp_err_t * bool) :=
  match chip_check with
  | inl err => mret (err, false)
  | inr drv =>
      match drv_get_protected_regions drv with
      | None => mret (ESP_ERR_FLASH_UNSUPPORTED_CHIP, false)
      | Some get_protected_regions =>
          match find_region drv region with
          | inl err => mret (err, false)
          | inr index =>
              err ← spiflash_start_default;
              if negb (is_ok err) then mret (err, false)
              else
                r ← get_protected_regions;
                let '(err, mask) := r in
                err' ← spiflash_end_default err;
                mret (err', is_ok err && Z.testbit mask index)
          end
      end
  end.

Definition esp_flash_set_protected_region (region : option esp_flash_region_t) (protect : bool) : M esp_err_t :=
  VERIFY_CHIP_OP drv_set_protected_regions (fun drv set_protected_regions =>
  match find_region drv region with
  | inl err => mret err
  | inr index =>
      with_bus (
        match drv_get_protected_regions drv with
        | None => abort
        | Some get_protected_regions =>
            r ← get_protected_regions;
            let '(err, mask) := r in
            if is_ok err then
              set_protected_regions (if protect then Z.lor mask (2 ^ index) else Z.ldiff mask (2 ^ index))
            else mret err
        end)
  end).

(** The loop that reads, a chunk at a time; the bytes that were copied to the
    buffer of the caller. *)
Fixpoint read_chunks (fuel : nat) (read : Z -> Z -> M (esp_err_t * list Z)) (chunk address length : Z) (got : list Z) : M (esp_err_t * list Z) :=
  match fuel with
  | O => abort
  | S fuel =>
      err ← spiflash_start_default;
      if negb (is_ok err) then mret (err, got)
      else
        let length_to_read := Z.min chunk length in
        r ← read address length_to_read;
        let '(err, data) := r in
        if negb (is_ok err) then _ ← spiflash_end_default err; mret (err, got)
        else
          err ← spiflash_end_default err;
          let length := u32 (length - length_to_read) in
          if is_ok err && (0 <? length) then read_chunks fuel read chunk (u32 (address + length_to_read)) length (got ++ data)
          else mret (err, got ++ data)
  end.

(** [direct_read]: the buffer can be read to without the cache. *)
Definition esp_flash_read (direct_read : bool) (address length : Z) : M (esp_err_t * list Z) :=
  match chip_check with
  | inl err => mret (err, [])
  | inr drv =>
      match drv_read drv with
      | None => mret (ESP_ERR_FLASH_UNSUPPORTED_CHIP, [])
      | Some read =>
          size ← gets chip_size;
          if (size <? address) || (size <? u32 (address + length)) then mret (ESP_ERR_INVALID_ARG, [])
          else if length =? 0 then mret (ESP_OK, [])
          else
            let chunk := Z.min MAX_READ_CHUNK length in
            if direct_read then read_chunks (Z.to_nat length) read chunk address length []
            else
              match os_get_temp_buffer os with
              | Some get_temp_buffer =>
                  match get_temp_buffer chunk with
                  | Some actual_len => read_chunks (Z.to_nat length) read actual_len address length []
                  | None => mret (ESP_ERR_NO_MEM, [])
                  end
              | None => mret (ESP_ERR_NO_MEM, [])
              end
      end
  end.

(** The loop that writes; 32 bytes at a time if they have to be copied. *)
Fixpoint write_chunks (fuel : nat) (drv : spi_flash_chip_t D) (write : list Z -> Z -> M esp_err_t) (direct_write : bool)
    (buffer : list Z) (write_addr length : Z) : M (esp_err_t + esp_err_t * bool) :=
  match fuel with
  | O => abort
  | S fuel =>
      let len_remain := Z.of_nat (List.length buffer) in
      let write_len := Z.min len_remain (if direct_write then MAX_WRITE_CHUNK else 32) in
      err ← yield_before drv;
      if negb (is_ok err) then mret (inl err)
      else
        err ← spiflash_start_default;
        if negb (is_ok err) then mret (inr (err, false))
        else
          err ← write (take (Z.to_nat write_len) buffer) write_addr;
          let len_remain := len_remain - write_len in
          _ ← assert_ (len_remain <? length);
          if negb (is_ok err) || (len_remain =? 0) then mret (inr (err, true))
          else
            err ← spiflash_end_default err;
            if negb (is_ok err) then mret (inr (err, true))
            else write_chunks fuel drv write direct_write (drop (Z.to_nat write_len) buffer) (u32 (write_addr + write_len)) length
  end.

Definition esp_flash_write (direct_write : bool) (buffer : option (list Z)) (address length : Z) : M esp_err_t :=
  VERIFY_CHIP_OP drv_write (fun drv write =>
  CHECK_WRITE_ADDRESS address length (
  size ← gets chip_size;
  match buffer with
  | None => mret ESP_ERR_INVALID_ARG
  | Some buffer =>
      if (size <? address) || (size <? u32 (address + length)) then mret ESP_ERR_INVALID_ARG
      else if length =? 0 then mret ESP_OK
      else
        r ← write_chunks (Z.to_nat length) drv write direct_write buffer address length;
        match r with
        | inl err => mret err
        | inr (err, bus_acquired) => flash_end_flush_cache err bus_acquired address length
        end
  end)).

(** Rows of 64, 32 or 16 bytes (the chips after the ESP32).  An error of the
    driver reaches [bus_acquired = false; assert(bus_acquired)]. *)
Fixpoint write_rows (fuel : nat) (drv : spi_flash_chip_t D) (block_max : Z) (ssrc : list Z) (row_addr : Z) (err : esp_err_t) : M esp_err_t :=
  let left := Z.of_nat (List.length ssrc) in
  if 0 <? left then
    match fuel with
    | O => abort
    | S fuel =>
        let row_size := if (row_addr mod 64 =? 0) && (64 <=? left) && (block_max =? 64) then 64
                        else if (row_addr mod 32 =? 0) && (32 <=? left) then 32 else 16 in
        err ← spiflash_start_default;
        if negb (is_ok err) then mret err
        else
          err ← drv_write_encrypted drv (take (Z.to_nat row_size) ssrc) row_addr;
          if negb (is_ok err) then abort
          else
            err ← spiflash_end_default ESP_OK;
            if negb (is_ok err) then mret err
            else write_rows fuel drv block_max (drop (Z.to_nat row_size) ssrc) (u32 (row_addr + row_size)) err
    end
  else mret err.

Definition esp_flash_write_encrypted (block_max address : Z) (buffer : option (list Z)) (length : Z) : M esp_err_t :=
  if negb is_default_chip then mret ESP_ERR_NOT_SUPPORTED
  else
    match chip_check with
    | inl err => mret err
    | inr drv =>
        size ← gets chip_size;
        match buffer with
        | None => mret ESP_ERR_INVALID_ARG
        | Some buffer =>
            if size <? u32 (address + length) then mret ESP_ERR_INVALID_ARG
            else if negb (address mod 16 =? 0) then mret ESP_ERR_INVALID_ARG
            else if length =? 0 then mret ESP_OK
            else if negb (length mod 16 =? 0) then mret ESP_ERR_INVALID_SIZE
            else
              err ← write_rows (Z.to_nat (length / 16)) drv block_max buffer address ESP_OK;
              flash_end_flush_cache err false address length
        end
    end.
End Api.
