(* ===== verification/SpiNor.v ===== *)
(** * NOR flash chips

    What the data sheets of SPI NOR flash chips say, as laws of the hardware
    interface [SpiDev], and a simulated chip that satisfies them.  The chip
    has a bit that shows that an operation is in progress ([wip]) and a latch
    that must be set before an operation ([wel]) and that the operation
    clears; commands are ignored during an operation or without the latch, and
    an operation on protected cells is refused and leaves the latch set. *)

From S2P Require Import Prelude CMem Flash SpiFlash.

(** ** Laws *)

(** [cells] are the contents of the chip when the operation in progress is
    finished, [left] the time until then. *)
Class SpiNor (D : Type) `{SpiDev D} := {
  cells : D -> mem;
  wip : D -> bool;
  wel : D -> bool;
  left : D -> Z;
  capacity : Z;
  protected : Z -> bool;
  hpm : bool; (* the chip is in high performance mode *)
  input_delay : Z (* cycles that the data take to the host *)
}.

Definition erase_mem (a n : Z) (m : mem) : mem := fun x => if (a <=? x) && (x <? a + n) then 0xFF else m x.

Definition is_read (c : Z) : bool :=
  bool_decide (c ∈ [CMD_FASTRD_QIO; CMD_FASTRD_QUAD; CMD_FASTRD_DIO; CMD_FASTRD_DUAL; CMD_FASTRD; CMD_READ]).

(** Between the 24 bits of the address and the data a chip waits for a number
    of cycles that depends on the command; a host may use some of them to send
    more bits after the address, on as many lines as the command uses. *)
Definition data_lines (c : Z) : Z := if c =? CMD_FASTRD_QIO then 4 else if c =? CMD_FASTRD_DIO then 2 else 1.
Definition read_latency (hpm : bool) (c : Z) : Z :=
  if c =? CMD_FASTRD_QIO then if hpm then 10 else 6
  else if c =? CMD_FASTRD_DIO then if hpm then 8 else 4
  else if c =? CMD_READ then 0
  else 8.
Definition read_address (t : spi_flash_trans_t) : Z := Z.shiftr (trans_address t) (address_bitlen t - 24).
Definition read_cycles (t : spi_flash_trans_t) : Z := dummy_bitlen t + (address_bitlen t - 24) / data_lines (command t).

Section Laws.
Context {D : Type} `{SpiNor D}.

(** The operation of a command: its range, the longest time it takes and what
    it does to the cells.  Programming must stay in a page of 256 bytes. *)
Definition operation (c a : Z) (bs : list Z) : option (Z * Z * Z * (mem -> mem)) :=
  let n := Z.of_nat (length bs) in
  if c =? CMD_PROGRAM_PAGE then
    if (0 <=? a) && (a mod 256 + n <=? 256) && (a + n <=? capacity) then Some (a, n, 500000, fun m => program m a bs) else None
  else if c =? CMD_SECTOR_ERASE then
    if (0 <=? a) && (a mod 4096 =? 0) && (a + 4096 <=? capacity) then Some (a, 4096, 600000, erase_mem a 4096) else None
  else if c =? CMD_LARGE_BLOCK_ERASE then
    if (0 <=? a) && (a mod 65536 =? 0) && (a + 65536 <=? capacity) then Some (a, 65536, 4100000, erase_mem a 65536) else None
  else if c =? CMD_CHIP_ERASE then Some (0, capacity, 4000000, erase_mem 0 capacity)
  else None.

(** Nothing but the end of an operation in progress happened. *)
Definition quiet (d d' : D) : Prop :=
  (forall x, cells d' x = cells d x) /\ left d' <= left d /\
  (wip d = false -> wip d' = false /\ wel d' = wel d) /\
  (wip d = true -> wip d' = true /\ wel d' = wel d \/ wip d' = false /\ wel d' = false).

(** The range of an operation has no protected cell. *)
Definition unprotected (lo n : Z) : Prop := forall x, lo <= x < lo + n -> protected x = false.

Definition accepts (d d' : D) (time : Z) (effect : mem -> mem) : Prop :=
  (forall x, cells d' x = effect (cells d) x) /\
  (wip d' = true /\ left d' <= time \/ wip d' = false /\ wel d' = false).

Definition refuses (d d' : D) : Prop :=
  (forall x, cells d' x = cells d x) /\ wip d' = false /\ wel d' = true.

Class SpiNorLaws : Prop := {
  nor_byte : forall d x, is_byte (cells d x);
  nor_left : forall d, wip d = true -> 0 < left d;
  nor_host : forall d, (host_idle d).1 = true /\ quiet d (host_idle d).2;
  nor_delay : forall n d, 0 <= n -> quiet d (delay n d) /\ left (delay n d) <= Z.max 0 (left d - n);
  nor_status : forall t d, command t = CMD_RDSR -> miso_len t = 1 ->
    exists b, (transact t d).1 = [b] /\ is_byte b /\ quiet d (transact t d).2 /\
      Z.testbit b 0 = wip (transact t d).2 /\ Z.testbit b 1 = wel (transact t d).2;
  nor_latch : forall t d, command t = CMD_WREN \/ command t = CMD_WRDI -> let d' := (transact t d).2 in
    if wip d then quiet d d'
    else (forall x, cells d' x = cells d x) /\ wip d' = false /\ wel d' = (command t =? CMD_WREN);
  nor_read : forall t d, is_read (command t) = true -> let d' := (transact t d).2 in
    quiet d d' /\ length (transact t d).1 = Z.to_nat (miso_len t) /\
    (wip d = false -> 24 <= address_bitlen t -> read_cycles t = read_latency hpm (command t) + input_delay ->
       0 <= read_address t -> read_address t + miso_len t <= capacity ->
       (transact t d).1 = read_bytes (cells d) (read_address t) (Z.to_nat (miso_len t)));
  nor_ignored : forall t d, wip d = true \/ wel d = false ->
    operation (command t) (trans_address t) (mosi_data t) <> None -> quiet d (transact t d).2;
  nor_operation : forall t d lo n time effect, wip d = false -> wel d = true ->
    operation (command t) (trans_address t) (mosi_data t) = Some (lo, n, time, effect) ->
    (accepts d (transact t d).2 time effect \/ refuses d (transact t d).2) /\
    (unprotected lo n -> accepts d (transact t d).2 time effect)
}.
End Laws.
Arguments SpiNorLaws D {_ _}.
Arguments capacity D {_ _}.
Arguments hpm D {_ _}.
Arguments input_delay D {_ _}.
Arguments unprotected D {_ _}.
Arguments operation D {_ _}.

(** ** A simulated chip *)

(** Every operation takes [sim_time] microseconds; cells from [sim_protected]
    on are protected.  A read with a wrong number of cycles gives zeros. *)
Record sim := mkSim { sim_cells : mem; sim_left : Z; sim_wel : bool }.

Section Sim.
Context (sim_capacity sim_time sim_protected : Z).

Definition sim_protects (x : Z) : bool := sim_protected <=? x.

Definition sim_operation (c a : Z) (bs : list Z) : option (Z * Z * (mem -> mem)) :=
  let n := Z.of_nat (length bs) in
  if c =? CMD_PROGRAM_PAGE then Some (a, n, fun m => program m a bs)
  else if c =? CMD_SECTOR_ERASE then Some (a, 4096, erase_mem a 4096)
  else if c =? CMD_LARGE_BLOCK_ERASE then Some (a, 65536, erase_mem a 65536)
  else if c =? CMD_CHIP_ERASE then Some (0, sim_capacity, erase_mem 0 sim_capacity)
  else None.

Definition sim_busy (d : sim) : bool := 0 <? sim_left d.

Definition sim_transact (t : spi_flash_trans_t) (d : sim) : list Z * sim :=
  if command t =? CMD_RDSR then ([(if sim_busy d then 1 else 0) + (if sim_wel d then 2 else 0)], d)
  else if is_read (command t) then
    (if (24 <=? address_bitlen t) && (read_cycles t =? read_latency false (command t)) then
       read_bytes (fun x => u8 (sim_cells d x)) (read_address t) (Z.to_nat (miso_len t))
     else replicate (Z.to_nat (miso_len t)) 0, d)
  else if sim_busy d then ([], d)
  else if command t =? CMD_WREN then ([], mkSim (sim_cells d) (sim_left d) true)
  else if command t =? CMD_WRDI then ([], mkSim (sim_cells d) (sim_left d) false)
  else if sim_wel d then
    match sim_operation (command t) (trans_address t) (mosi_data t) with
    | Some (lo, n, effect) =>
        if (0 <? n) && (sim_protected <? lo + n) then ([], d)
        else ([], mkSim (effect (fun x => u8 (sim_cells d x))) (Z.max 0 sim_time) (0 <? sim_time))
    | None => ([], d)
    end
  else ([], d).

#[local] Instance sim_dev : SpiDev sim := {|
  transact := sim_transact;
  host_idle d := (true, d);
  delay n d := mkSim (sim_cells d) (Z.max 0 (sim_left d - n)) (if sim_busy d && (sim_left d - n <=? 0)%Z then false else sim_wel d)
|}.

#[local] Instance sim_nor : SpiNor sim := {|
  cells d x := u8 (sim_cells d x);
  wip := sim_busy;
  wel := sim_wel;
  left d := Z.max 0 (sim_left d);
  capacity := sim_capacity;
  protected := sim_protects;
  hpm := false;
  input_delay := 0
|}.

Lemma quiet_refl {D} `{SpiNor D} (d : D) : quiet d d.
Proof. unfold quiet. split_and!; auto with lia. Qed.

Lemma u8_program m a bs x : u8 (program (fun x => u8 (m x)) a bs x) = program (fun x => u8 (m x)) a bs x.
Proof.
  unfold program. destruct (if a <=? x then bs !! Z.to_nat (x - a) else None) as [b|].
  - apply Z.bits_inj'. intros n Hn. unfold u8. rewrite !Z.testbit_mod_pow2, !Z.land_spec, !Z.testbit_mod_pow2 by lia.
    by destruct (n <? 8).
  - by rewrite u8_small by apply u8_range.
Qed.

Lemma u8_erase m a n x : u8 (erase_mem a n (fun x => u8 (m x)) x) = erase_mem a n (fun x => u8 (m x)) x.
Proof. unfold erase_mem. destruct (_ && _); [done|]. by rewrite u8_small by apply u8_range. Qed.

Lemma sim_operation_of c a bs lo n time effect : operation sim c a bs = Some (lo, n, time, effect) ->
  sim_operation c a bs = Some (lo, n, effect) /\ 500000 <= time /\
  (forall m x, u8 (effect (fun x => u8 (m x)) x) = effect (fun x => u8 (m x)) x) /\
  c <> CMD_RDSR /\ is_read c = false /\ c <> CMD_WREN /\ c <> CMD_WRDI.
Proof.
  unfold operation, sim_operation.
  repeat (zcase; [subst c; try case_match; intros [= <- <- <- <-]; split_and!; try done; intros; try apply u8_program; apply u8_erase|]).
  done.
Qed.

Hypothesis time_ok : sim_time <= 500000.
Hypothesis capacity_ok : 0 <= sim_capacity.

Lemma sim_unprotected lo n : unprotected sim lo n <-> (0 <? n) && (sim_protected <? lo + n) = false.
Proof.
  unfold unprotected. cbn [protected sim_nor]. unfold sim_protects. split.
  - intros Hu. destruct (Z.ltb_spec 0 n); [|done]. cbn. apply Z.ltb_ge.
    specialize (Hu (lo + n - 1) ltac:(lia)). apply Z.leb_gt in Hu. lia.
  - intros E x Hx. apply Z.leb_gt. apply andb_false_iff in E as [E|E]; zbool; lia.
Qed.

Lemma sim_laws : SpiNorLaws sim.
Proof.
  split; cbn [cells wip wel left capacity transact host_idle delay sim_dev sim_nor].
  - intros d x. apply u8_range.
  - intros d Hd. unfold sim_busy in Hd. zbool. lia.
  - intros d. split; [done|]. apply quiet_refl.
  - intros n d Hn. unfold quiet. cbn [cells wip wel left sim_nor]. unfold sim_busy. cbn [sim_left sim_wel sim_cells].
    repeat zcase; cbn; split_and!; try done; try lia; intros; try lia; auto with lia.
  - intros t d Ht _. unfold sim_transact. rewrite Ht. cbn. eexists. split_and!; [done| | | |]; try apply quiet_refl; by destruct (sim_busy d), (sim_wel d).
  - intros t d Ht. unfold sim_transact. cbn [cells wip wel left sim_nor].
    destruct Ht as [Ht|Ht]; rewrite Ht; cbn; destruct (sim_busy d) eqn:E; cbn; try apply quiet_refl; done.
  - intros t d Ht. unfold sim_transact. assert ((command t =? CMD_RDSR) = false) as ->.
    { apply Z.eqb_neq. intros E. by rewrite E in Ht. }
    rewrite Ht. cbn. split_and!; [apply quiet_refl|case_match; [by rewrite length_read_bytes|apply length_replicate]|].
    intros _ Hl Hc _ _. cbn [hpm input_delay sim_nor] in Hc. rewrite Z.add_0_r in Hc. by rewrite (proj2 (Z.leb_le _ _) Hl), Hc, Z.eqb_refl.
  - intros t d Hd Ho. destruct (operation sim _ _ _) as [[[[lo n] time] effect]|] eqn:E; [|done].
    apply sim_operation_of in E as (E & _ & _ & N1 & N2 & N3 & N4). unfold sim_transact.
    rewrite (proj2 (Z.eqb_neq _ _) N1), N2, (proj2 (Z.eqb_neq _ _) N3), (proj2 (Z.eqb_neq _ _) N4).
    destruct (sim_busy d) eqn:B; [apply quiet_refl|]. destruct Hd as [Hd|Hd]; [congruence|]. rewrite Hd. apply quiet_refl.
  - intros t d lo n time effect Hw Hl E. apply sim_operation_of in E as (E & Ht & Hb & N1 & N2 & N3 & N4). unfold sim_transact.
    rewrite (proj2 (Z.eqb_neq _ _) N1), N2, (proj2 (Z.eqb_neq _ _) N3), (proj2 (Z.eqb_neq _ _) N4), Hw, Hl, E.
    assert (Ha : accepts d (mkSim (effect (fun x => u8 (sim_cells d x))) (Z.max 0 sim_time) (0 <? sim_time)) time effect).
    { split; cbn [cells wip wel left sim_nor sim_cells sim_wel sim_left]; [intros; apply Hb|].
      unfold sim_busy. cbn [sim_left]. destruct (Z.ltb_spec 0 sim_time); [left|right]; repeat zcase; split; try done; lia. }
    destruct (_ && _) eqn:P; split; [by right| |by left|done].
    intros Hu. apply sim_unprotected in Hu. congruence.
Qed.
End Sim.
