(* ===== verification/SpiFlashHost.v ===== *)
(** * What the hosts send

    Both hosts of the SPI flash driver send the commands of NOR flash; the
    drivers of chips are verified against [HostOk].  The slicers cut data into
    pieces that fit a transaction and a page. *)

From S2P Require Import Prelude CMem Flash SpiFlash SpiNor.

Section Host.
Context {D : Type} `{SpiDev D}.

(** Everything but the registers of the host and the device. *)
Definition rest (s s' : flash_t D) : Prop :=
  read_mode s' = read_mode s /\ chip_size s' = chip_size s /\ busy s' = busy s /\ hpm_dummy_ena s' = hpm_dummy_ena s /\
  xts_enabled s' = xts_enabled s /\ xts_block s' = xts_block s.

(** [m] sends one command and returns [a]. *)
Definition sends {A} (m : M (flash_t D) A) (c addr : Z) (data : list Z) (n : Z) (s : flash_t D) (r : list Z -> A) : Prop :=
  exists t s', m s = RET (r (transact t (dev s)).1) s' /\ rest s s' /\ dev s' = (transact t (dev s)).2 /\
    command t = c /\ trans_address t = addr /\ mosi_data t = data /\ miso_len t = n.

(** The interface between hosts and chips: [out] is the data that the host
    makes of what it is given. *)
Class HostOk (ctx : host_context) (host : spi_flash_host_driver_t D) (out : flash_t D -> Z -> list Z -> list Z) : Prop := {
  ho_out : forall s a bs, xts_enabled s = false -> out s a bs = bs;
  ho_erase_chip : forall s, sends (h_erase_chip host) CMD_CHIP_ERASE 0 [] 0 s (fun _ => tt);
  ho_erase_sector : forall a s, 0 <= a < 2 ^ 24 -> sends (h_erase_sector host a) CMD_SECTOR_ERASE a [] 0 s (fun _ => tt);
  ho_erase_block : forall a s, 0 <= a < 2 ^ 24 -> sends (h_erase_block host a) CMD_LARGE_BLOCK_ERASE a [] 0 s (fun _ => tt);
  ho_status : forall s, sends (h_read_status host) CMD_RDSR 0 [] 1 s (fun data => (ESP_OK, default 0 (head data)));
  ho_latch : forall wp s, sends (h_set_write_protect host wp) (if wp then CMD_WRDI else CMD_WREN) 0 [] 0 s (fun _ => ESP_OK);
  ho_program : forall bs a s, 0 <= a < 2 ^ 24 -> a + Z.of_nat (length bs) <= 2 ^ 24 ->
    sends (h_program_page host bs a) CMD_PROGRAM_PAGE a (out s a bs) 0 s (fun _ => tt);
  ho_read : forall a n s, let bits := reg_addr_bitlen s in
    let t := mkTrans (reg_command s) bits (usr_address a (whole_bytes bits) bits) [] n (reg_dummy s) in
    h_read host a n s = RET (ESP_OK, (transact t (dev s)).1) (set_dev (transact t (dev s)).2 s);
  ho_write_slicer : h_write_data_slicer host = memspi_host_write_data_slicer ctx;
  ho_read_slicer : h_read_data_slicer host = memspi_host_read_data_slicer ctx;
  ho_flush : forall flush a n s, h_flush_cache host = Some flush -> flush a n s = RET ESP_OK s
}.

Section Ctx.
Context (ctx : host_context) (xts : Z -> list Z -> list Z) (xts_other : Z -> list Z -> Z -> list Z -> list Z).
Hypothesis ctx_ok : multiline ctx = true \/ Z.land (base_io_mode ctx) 0xFFFF <= SPI_FLASH_FASTRD.

Lemma common_command_spec t s :
  exists t' s', spi_flash_hal_common_command ctx t s = RET (ESP_OK, (transact t' (dev s)).1) s' /\ rest s s' /\ dev s' = (transact t' (dev s)).2 /\
    command t' = command t /\ trans_address t' = trans_address t /\ mosi_data t' = mosi_data t /\ miso_len t' = miso_len t.
Proof.
  unfold spi_flash_hal_common_command, spi_flash_hal_configure_host_io_mode.
  assert (negb (multiline ctx) && (SPI_FLASH_FASTRD <? Z.land (base_io_mode ctx) 0xFFFF) = false) as ->.
  { destruct ctx_ok as [->|Hm]; [done|]. by rewrite (proj2 (Z.ltb_ge _ _) Hm), andb_false_r. }
  destruct (if negb (control_dummy_out ctx) && _ then _ else _) as [dummy bl].
  unfold mbind, M_bind, mret, M_ret, modify, gets, on_dev. cbn [dev set_regs set_dev id reg_command reg_addr_bitlen reg_dummy].
  match goal with |- context [transact ?t' (dev s)] => exists t'; destruct (transact t' (dev s)) as [data d] eqn:E end.
  eexists. split; [done|]. by split_and!.
Qed.

Lemma common_command_sends {A} (r : list Z -> A) t s : sends (x ← spi_flash_hal_common_command ctx t; mret (r x.2)) (command t) (trans_address t) (mosi_data t) (miso_len t) s r.
Proof.
  destruct (common_command_spec t s) as (t' & s' & E & Hr & Hd & Hc & Ha & Hm & Hl). exists t', s'.
  unfold mbind, M_bind. rewrite E. by split_and!.
Qed.

Lemma on_dev_sends {A} (r : list Z -> A) t s : sends (x ← on_dev (transact t); mret (r x)) (command t) (trans_address t) (mosi_data t) (miso_len t) s r.
Proof.
  exists t. unfold mbind, M_bind, on_dev, mret, M_ret. destruct (transact t (dev s)) as [data d]. by eexists.
Qed.

Lemma mask_24 a : 0 <= a < 2 ^ 24 -> Z.land a ADDRESS_MASK_24BIT = a.
Proof. intros Ha. change ADDRESS_MASK_24BIT with (Z.ones 24). rewrite Z.land_ones by lia. by apply Z.mod_small. Qed.

Lemma hal_read_spec a n s : let bits := reg_addr_bitlen s in
  let t := mkTrans (reg_command s) bits (usr_address a (whole_bytes bits) bits) [] n (reg_dummy s) in
  spi_flash_hal_read a n s = RET (ESP_OK, (transact t (dev s)).1) (set_dev (transact t (dev s)).2 s).
Proof.
  unfold spi_flash_hal_read, mbind, M_bind, gets, on_dev, mret, M_ret. cbn [id]. by destruct (transact _ (dev s)) as [data d].
Qed.

Lemma status_sends s : sends (memspi_host_read_status_hs ctx) CMD_RDSR 0 [] 1 s (fun data => (ESP_OK, default 0 (head data))).
Proof.
  destruct (common_command_spec (mkTrans CMD_RDSR 0 0 [] 1 0) s) as (t' & s' & E & Hr & Hd & Hc & Ha & Hm & Hl). exists t', s'.
  unfold memspi_host_read_status_hs, mbind, M_bind. rewrite E. by split_and!.
Qed.

#[export] Instance gpspi_host_ok : HostOk ctx (esp_flash_gpspi_host ctx) (fun _ _ bs => bs).
Proof.
  split; cbn [h_erase_chip h_erase_sector h_erase_block h_read_status h_set_write_protect h_program_page h_write_data_slicer
    h_read h_read_data_slicer h_flush_cache esp_flash_gpspi_host]; try done.
  - intros s. exact (common_command_sends (fun _ => tt) (mkTrans CMD_CHIP_ERASE 0 0 [] 0 0) s).
  - intros a s Ha. unfold memspi_host_erase_sector, sends, mbind, M_bind at 1, assert_. rewrite (proj2 (Z.ltb_lt a 0x1000000)) by lia.
    exact (common_command_sends (fun _ => tt) (mkTrans CMD_SECTOR_ERASE 24 a [] 0 0) s).
  - intros a s Ha. unfold memspi_host_erase_block, sends, mbind, M_bind at 1, assert_. rewrite (proj2 (Z.ltb_lt a 0x1000000)) by lia.
    exact (common_command_sends (fun _ => tt) (mkTrans CMD_LARGE_BLOCK_ERASE 24 a [] 0 0) s).
  - intros s. apply status_sends.
  - intros wp s. exact (common_command_sends (fun _ => ESP_OK) (mkTrans (if wp then CMD_WRDI else CMD_WREN) 0 0 [] 0 0) s).
  - intros bs a s Ha Hb. unfold memspi_host_program_page, sends, mbind, M_bind at 1, assert_.
    rewrite u32_small, (proj2 (Z.leb_le _ 0x1000000)) by lia.
    exact (common_command_sends (fun _ => tt) (mkTrans CMD_PROGRAM_PAGE 24 a bs 0 0) s).
  - intros a n s. apply hal_read_spec.
Qed.

#[export] Instance default_host_ok : HostOk ctx (esp_flash_default_host ctx xts xts_other (fun _ _ => mret ESP_OK)) (sent_data xts xts_other).
Proof.
  split; cbn [h_erase_chip h_erase_sector h_erase_block h_read_status h_set_write_protect h_program_page h_write_data_slicer
    h_read h_read_data_slicer h_flush_cache esp_flash_default_host]; try done.
  - intros s a bs E. unfold sent_data. by rewrite E.
  - intros s. exact (on_dev_sends (fun _ => tt) (mkTrans CMD_CHIP_ERASE 0 0 [] 0 0) s).
  - intros a s Ha. unfold spi_flash_hal_erase_sector. rewrite mask_24 by done. exact (on_dev_sends (fun _ => tt) (mkTrans CMD_SECTOR_ERASE 24 a [] 0 0) s).
  - intros a s Ha. unfold spi_flash_hal_erase_block. rewrite mask_24 by done. exact (on_dev_sends (fun _ => tt) (mkTrans CMD_LARGE_BLOCK_ERASE 24 a [] 0 0) s).
  - intros s. apply status_sends.
  - intros wp s. exact (on_dev_sends (fun _ => ESP_OK) (mkTrans (if wp then CMD_WRDI else CMD_WREN) 0 0 [] 0 0) s).
  - intros bs a s Ha Hb. unfold spi_flash_hal_program_page. rewrite mask_24 by done.
    exact (on_dev_sends (fun _ => tt) (mkTrans CMD_PROGRAM_PAGE 24 a (sent_data xts xts_other s a bs) 0 0) s).
  - intros a n s. apply hal_read_spec.
  - intros flush a n s [= <-]. done.
Qed.
End Ctx.
End Host.

(** ** Slicers *)

(** A slice of [len] bytes at [align] of the [n] bytes at [a]: it starts at most
    one byte before, and is even if the host asks for that. *)
Lemma dtr_align_spec dtr a n : 0 <= a -> 0 < n -> a + n <= 2 ^ 24 ->
  exists al k, dtr_align dtr a n = (al, k) /\ 0 <= al <= a /\ a <= al + 1 /\ a + n <= al + k <= a + n + 1 /\
    (if dtr then al mod 2 = 0 /\ k mod 2 = 0 else al = a /\ k = n).
Proof.
  intros Ha Hn Hb. unfold dtr_align. destruct dtr; [|exists a, n; split_and!; try done; lia].
  pose proof (Z.mod_pos_bound a 2 ltac:(lia)). pose proof (Z.mod_pos_bound n 2 ltac:(lia)).
  assert (a mod 2 <> 0 -> 1 <= a) by (intros; Z.to_euclidean_division_equations; lia).
  repeat (zcase; cbn [andb negb]); rewrite ?u32_small by lia; eexists _, _; (split; [reflexivity|]);
    split_and!; try lia; Z.to_euclidean_division_equations; lia.
Qed.

Lemma write_slicer_spec ctx a n len align : 0 <= a -> 0 < n -> a + n <= 2 ^ 24 ->
  memspi_host_write_data_slicer ctx a n 256 = (len, align) ->
  0 < len <= 64 /\ align <= a < align + len /\ a <= align + 1 /\ 0 <= align /\ align mod 256 + len <= 256 /\ align + len <= a + n + 1 /\
  (slicer_dtr ctx = true -> align mod 2 = 0 /\ len mod 2 = 0) /\
  (slicer_dtr ctx = false -> align = a /\ align + len <= a + n).
Proof.
  intros Ha Hn Hb. unfold memspi_host_write_data_slicer, SPI_FLASH_HAL_MAX_WRITE_BYTES.
  destruct (dtr_align_spec (slicer_dtr ctx) a n Ha Hn Hb) as (al & k & -> & H1 & H2 & H3 & H4).
  pose proof (Z.div_mod al 256 ltac:(lia)) as Q. pose proof (Z.mod_pos_bound al 256 ltac:(lia)).
  rewrite (u32_small ((al / 256 + 1) * 256)), u32_small by lia. intros [= <- <-]. destruct (slicer_dtr ctx).
  - assert (al mod 256 mod 2 = 0) by (Z.to_euclidean_division_equations; lia).
    destruct H4 as [E1 E2]. set (L := Z.min _ k). assert (L mod 2 = 0).
    { unfold L. destruct (Z.min_spec (Z.min ((al / 256 + 1) * 256 - al) 64) k) as [[_ ->]|[_ ->]]; [|done].
      destruct (Z.min_spec ((al / 256 + 1) * 256 - al) 64) as [[_ ->]|[_ ->]]; Z.to_euclidean_division_equations; lia. }
    assert (0 < L) by lia. assert (2 <= L) by (Z.to_euclidean_division_equations; lia). split_and!; try lia; done.
  - destruct H4 as [-> ->]. split_and!; try lia; done.
Qed.

Lemma read_slicer_spec ctx a n p len align : 0 <= a -> 0 < n -> a + n <= 2 ^ 24 ->
  memspi_host_read_data_slicer ctx a n p = (len, align) ->
  0 < len <= 64 /\ align <= a < align + len /\ a <= align + 1 /\ 0 <= align /\ align + len <= a + n + 1 /\
  (slicer_dtr ctx = true -> align mod 2 = 0 /\ len mod 2 = 0) /\
  (slicer_dtr ctx = false -> align = a /\ align + len <= a + n).
Proof.
  intros Ha Hn Hb. unfold memspi_host_read_data_slicer, SPI_FLASH_HAL_MAX_READ_BYTES.
  destruct (dtr_align_spec (slicer_dtr ctx) a n Ha Hn Hb) as (al & k & -> & H1 & H2 & H3 & H4). intros [= <- <-]. destruct (slicer_dtr ctx).
  - destruct H4 as [E1 E2]. assert (Z.min 64 k mod 2 = 0) by (destruct (Z.min_spec 64 k) as [[_ ->]|[_ ->]]; done).
    assert (2 <= Z.min 64 k) by (Z.to_euclidean_division_equations; lia). split_and!; try lia; done.
  - destruct H4 as [-> ->]. split_and!; try lia; done.
Qed.
