(* ===== verification/SpiFlashChip.v ===== *)
(** * What the driver of generic chips does

    Waiting, setting the write enable latch, programming and erasing, on a chip
    that satisfies [SpiNorLaws] through a host that satisfies [HostOk].
    Whatever happens, only the addressed cells change ([keeps]); on a chip that
    is idle and not protected every operation succeeds. *)

From S2P Require Import Prelude CMem Flash SpiFlash SpiNor SpiFlashHost.

(** ** Programming *)

Lemma program_ext m m' a bs x : m x = m' x -> program m a bs x = program m' a bs x.
Proof. intros E. unfold program. by rewrite E. Qed.

Lemma program_app m a b1 b2 x : program (program m a b1) (a + Z.of_nat (length b1)) b2 x = program m a (b1 ++ b2) x.
Proof.
  destruct (Z.ltb_spec x (a + Z.of_nat (length b1))) as [Hx|Hx].
  - rewrite (program_other _ (a + _)) by lia. unfold program. destruct (Z.leb_spec a x); [|done]. by rewrite lookup_app_l by lia.
  - transitivity (program m (a + Z.of_nat (length b1)) b2 x); [apply program_ext, program_other; lia|].
    unfold program. rewrite (proj2 (Z.leb_le a x)), (proj2 (Z.leb_le (a + _) x)) by lia.
    rewrite lookup_app_r by lia. by replace (Z.to_nat (x - a) - length b1)%nat with (Z.to_nat (x - (a + Z.of_nat (length b1)))) by lia.
Qed.

Lemma land_byte_ff v : is_byte v -> Z.land (u8 v) 0xFF = v.
Proof. intros Hv. unfold is_byte in Hv. rewrite u8_small, Z.land_comm by lia. by apply land_ff. Qed.

Lemma program_ff m a k x : is_byte (m x) -> program m a (replicate k 0xFF) x = m x.
Proof.
  intros Hb. unfold program. destruct (a <=? x); [|done]. destruct (replicate k 255 !! Z.to_nat (x - a)) eqn:E; [|done].
  apply lookup_replicate in E as [-> _]. by apply land_byte_ff.
Qed.

(** Bytes [0xFF] around the data change nothing. *)
Lemma program_padded m a j bs k x : (forall x, is_byte (m x)) ->
  program m (a - Z.of_nat j) (replicate j 0xFF ++ bs ++ replicate k 0xFF) x = program m a bs x.
Proof.
  intros Hb. rewrite <- program_app, length_replicate. replace (a - Z.of_nat j + Z.of_nat j) with a by lia.
  rewrite (program_ext _ m) by (apply program_ff, Hb). rewrite <- program_app.
  unfold program at 1. destruct (a + Z.of_nat (length bs) <=? x); [|done].
  destruct (replicate k 255 !! _) eqn:E; [|done]. apply lookup_replicate in E as [-> _]. apply land_byte_ff.
  unfold program. destruct (if a <=? x then bs !! Z.to_nat (x - a) else None) as [b|]; [|apply Hb].
  unfold is_byte. pose proof (u8_range (m x)). split; [apply Z.land_nonneg; lia|].
  apply (lt_pow2_bits _ 8); [lia|apply Z.land_nonneg; lia|]. intros i Hi. rewrite Z.land_spec, (high_bits_zero (u8 (m x)) 8) by lia. done.
Qed.

Section Chip.
Context {D : Type} `{SpiNorLaws D} (ctx : host_context) (host : spi_flash_host_driver_t D) (out : flash_t D -> Z -> list Z -> list Z).
Context (HO : HostOk ctx host out).
Abbreviation F := (flash_t D).
Abbreviation cells_of s := (cells (dev s)).

(** ** Only the addressed cells change *)

Definition frame (lo n : Z) (s s' : F) : Prop :=
  chip_size s' = chip_size s /\ read_mode s' = read_mode s /\ xts_enabled s' = xts_enabled s /\ forall x, x < lo \/ lo + n <= x -> cells_of s' x = cells_of s x.

Definition keeps {A} (lo n : Z) (m : M F A) : Prop :=
  forall s, xts_enabled s = false -> match m s with RET _ s' => frame lo n s s' | ABORT => True | RESTART _ => False end.

Lemma frame_refl lo n s : frame lo n s s.
Proof. done. Qed.

Lemma frame_trans lo n s1 s2 s3 : frame lo n s1 s2 -> frame lo n s2 s3 -> frame lo n s1 s3.
Proof. intros (A1 & B1 & E1 & C1) (A2 & B2 & E2 & C2). split_and!; try congruence. intros x Hx. rewrite C2, C1; done. Qed.

Lemma keeps_ret {A} lo n (a : A) : keeps lo n (mret a).
Proof. by intros s _. Qed.

Lemma keeps_abort {A} lo n : keeps lo n (abort : M F A).
Proof. by intros s _. Qed.

Lemma keeps_assert lo n b : keeps lo n (assert_ b).
Proof. intros s _. unfold assert_. by destruct b. Qed.

Lemma keeps_gets {A} lo n (f : F -> A) : keeps lo n (gets f).
Proof. by intros s _. Qed.

Lemma keeps_busy lo n b : keeps lo n (modify (set_busy b)).
Proof. by intros s _. Qed.

Lemma keeps_regs lo n c a d : keeps lo n (modify (set_regs c a d)).
Proof. by intros s _. Qed.

Lemma keeps_bind {A B} lo n (m : M F A) (k : A -> M F B) : keeps lo n m -> (forall a, keeps lo n (k a)) -> keeps lo n (m ≫= k).
Proof.
  intros Hm Hk s Hx. unfold mbind, M_bind. specialize (Hm s Hx). destruct (m s) as [a s'| |]; [|done|done].
  specialize (Hk a s' ltac:(destruct Hm as (_ & _ & -> & _); done)). destruct (k a s') as [b s''| |]; [|done|done]. by eapply frame_trans.
Qed.

Lemma keeps_on_dev {A} lo n (f : D -> A * D) : (forall d, quiet d (f d).2) -> keeps lo n (on_dev f).
Proof. intros Hf s _. unfold on_dev. specialize (Hf (dev s)). destruct (f (dev s)). split_and!; try done. intros; apply Hf. Qed.

(** A command that changes no cell outside of the range. *)
Lemma keeps_sends {A} lo n (m : M F A) c a data k r :
  (forall s, xts_enabled s = false -> sends m c a data k s (r s)) ->
  (forall t d, command t = c -> trans_address t = a -> mosi_data t = data -> miso_len t = k ->
     forall x, x < lo \/ lo + n <= x -> cells (transact t d).2 x = cells d x) ->
  keeps lo n m.
Proof.
  intros Hs Hq s Hx. destruct (Hs s Hx) as (t & s' & E & R & Ed & Ec & Ea & Em & Ek). rewrite E. destruct R as (R1 & R2 & _ & _ & R3 & _).
  split_and!; try done. intros x Hr. rewrite Ed. by apply Hq.
Qed.

Lemma keeps_status lo n : keeps lo n (h_read_status host).
Proof.
  eapply keeps_sends; [intros s _; apply ho_status|]. intros t d Ec _ _ Ek x _.
  destruct (nor_status t d Ec Ek) as (b & _ & _ & (E & _) & _). apply E.
Qed.

Lemma keeps_latch lo n wp : keeps lo n (h_set_write_protect host wp).
Proof.
  eapply keeps_sends; [intros s _; apply ho_latch|]. intros t d Ec _ _ _ x _.
  assert (command t = CMD_WREN \/ command t = CMD_WRDI) as Hc by (destruct wp; auto).
  pose proof (nor_latch t d Hc) as L. destruct (wip d); apply L.
Qed.

Lemma operation_frame t d a n time effect x :
  operation D (command t) (trans_address t) (mosi_data t) = Some (a, n, time, effect) ->
  effect (cells d) x = cells d x -> cells (transact t d).2 x = cells d x.
Proof.
  intros Ho He. destruct (wip d) eqn:Ew; [|destruct (wel d) eqn:El].
  - apply (nor_ignored t d (or_introl Ew)). by rewrite Ho.
  - destruct (nor_operation t d a n time effect Ew El Ho) as [[[E _]|[E _]] _]; rewrite E; auto.
  - apply (nor_ignored t d (or_intror El)). by rewrite Ho.
Qed.

Lemma erase_mem_other a n m x : x < a \/ a + n <= x -> erase_mem a n m x = m x.
Proof. intros Hx. unfold erase_mem. repeat zcase; cbn; lia || done. Qed.

Lemma sector_operation a : 0 <= a -> a mod 4096 = 0 -> a + 4096 <= capacity D ->
  operation D CMD_SECTOR_ERASE a [] = Some (a, 4096, 600000, erase_mem a 4096).
Proof. intros ???. unfold operation. cbn -[Z.modulo]. by rewrite !(proj2 (Z.leb_le _ _)), (proj2 (Z.eqb_eq _ _)) by lia. Qed.

Lemma block_operation a : 0 <= a -> a mod 65536 = 0 -> a + 65536 <= capacity D ->
  operation D CMD_LARGE_BLOCK_ERASE a [] = Some (a, 65536, 4100000, erase_mem a 65536).
Proof. intros ???. unfold operation. cbn -[Z.modulo]. by rewrite !(proj2 (Z.leb_le _ _)), (proj2 (Z.eqb_eq _ _)) by lia. Qed.

Lemma program_operation a bs : 0 <= a -> a mod 256 + Z.of_nat (length bs) <= 256 -> a + Z.of_nat (length bs) <= capacity D ->
  operation D CMD_PROGRAM_PAGE a bs = Some (a, Z.of_nat (length bs), 500000, fun m => program m a bs).
Proof. intros ???. unfold operation. cbn -[Z.modulo]. by rewrite !(proj2 (Z.leb_le _ _)) by lia. Qed.

Hypothesis capacity_24 : capacity D <= 2 ^ 24.

Lemma keeps_sector a : 0 <= a -> a mod 4096 = 0 -> a + 4096 <= capacity D -> keeps a 4096 (h_erase_sector host a).
Proof.
  intros Ha Hm Hc. eapply keeps_sends; [intros s _; apply ho_erase_sector; lia|]. intros t d Ec Ea Em _ x Hx.
  eapply operation_frame; [rewrite Ec, Ea, Em; by apply sector_operation|]. by apply erase_mem_other.
Qed.

Lemma keeps_block a : 0 <= a -> a mod 65536 = 0 -> a + 65536 <= capacity D -> keeps a 65536 (h_erase_block host a).
Proof.
  intros Ha Hm Hc. eapply keeps_sends; [intros s _; apply ho_erase_block; lia|]. intros t d Ec Ea Em _ x Hx.
  eapply operation_frame; [rewrite Ec, Ea, Em; by apply block_operation|]. by apply erase_mem_other.
Qed.

(** The data of a slice, with bytes [0xFF] around it. *)
Lemma keeps_program a j bs k : bs <> [] -> 0 <= a - Z.of_nat j -> (a - Z.of_nat j) mod 256 + Z.of_nat (j + length bs + k) <= 256 ->
  a - Z.of_nat j + Z.of_nat (j + length bs + k) <= capacity D ->
  keeps a (Z.of_nat (length bs)) (h_program_page host (replicate j 0xFF ++ bs ++ replicate k 0xFF) (a - Z.of_nat j)).
Proof.
  intros Hn Ha Hm Hc. assert (0 < length bs)%nat by (destruct bs; [done|cbn; lia]). set (data := replicate j _ ++ _).
  assert (Hl : length data = (j + length bs + k)%nat) by (unfold data; rewrite !length_app, !length_replicate; lia).
  eapply (keeps_sends _ _ _ CMD_PROGRAM_PAGE (a - Z.of_nat j) data 0 (fun _ _ => tt)).
  - intros s Hx. rewrite <- (ho_out s (a - Z.of_nat j) data Hx) at 2. apply ho_program; lia.
  - intros t d Ec Ea Em _ x Hx. eapply operation_frame; [rewrite Ec, Ea, Em; apply program_operation; lia|].
    cbn beta. unfold data. rewrite program_padded by apply nor_byte. by apply program_other.
Qed.

(** ** Waiting *)

Lemma loop_pos_inr {A B} (step : A -> A + B) p a b : step a = inr b -> loop_pos step p a = inr b.
Proof. intros E. rewrite loop_pos_nat. destruct (Pos2Nat.is_succ p) as [k ->]. cbn. by rewrite E. Qed.

Lemma wait_host_spec t (s : F) : exists s', wait_host t s = RET t s' /\ rest s s' /\ quiet (dev s) (dev s').
Proof.
  unfold wait_host. destruct (nor_host (dev s)) as [E Q]. destruct (host_idle (dev s)) as [idle d] eqn:Eh. cbn in E, Q. subst idle.
  rewrite (loop_pos_inr _ _ _ (t, set_dev d s)); [by eexists|]. unfold host_round. by rewrite Eh.
Qed.

(** What changes while the driver waits: [busy], the registers of the host, the
    device by itself. *)
Definition kept (s s' : F) : Prop :=
  read_mode s' = read_mode s /\ chip_size s' = chip_size s /\ hpm_dummy_ena s' = hpm_dummy_ena s /\
  xts_enabled s' = xts_enabled s /\ xts_block s' = xts_block s.

Lemma rest_kept s s' : rest s s' -> kept s s'.
Proof. by intros (? & ? & ? & ? & ? & ?). Qed.

Lemma kept_trans s1 s2 s3 : kept s1 s2 -> kept s2 s3 -> kept s1 s3.
Proof. unfold kept. intuition congruence. Qed.

Lemma quiet_trans (d1 d2 d3 : D) : quiet d1 d2 -> quiet d2 d3 -> quiet d1 d3.
Proof.
  intros (A1 & B1 & C1 & E1) (A2 & B2 & C2 & E2). split_and!.
  - intros x. by rewrite A2, A1.
  - lia.
  - intros W. destruct (C1 W) as [W1 L1]. destruct (C2 W1) as [W2 L2]. split; congruence.
  - intros W. destruct (E1 W) as [[W1 L1]|[W1 L1]].
    + destruct (E2 W1) as [[W2 L2]|[W2 L2]]; [left; split; congruence|by right].
    + destruct (C2 W1) as [W2 L2]. right. split; congruence.
Qed.

Lemma status_spec (s : F) : exists b s', h_read_status host s = RET (ESP_OK, b) s' /\ rest s s' /\ quiet (dev s) (dev s') /\
  is_byte b /\ (Z.land (u8 b) SR_WIP =? 0) = negb (wip (dev s')) /\ (Z.land (u8 b) SR_WREN =? 0) = negb (wel (dev s')).
Proof.
  destruct (ho_status s) as (t & s' & E & R & Ed & Ec & _ & _ & Ek).
  destruct (nor_status t (dev s) Ec Ek) as (b & Eb & Hb & Q & T0 & T1). rewrite Eb in E. cbn in E.
  exists b, s'. rewrite Ed, u8_small by exact Hb. split_and!; try done.
  - rewrite <- T0, <- (flag_test_bit b 0) by lia. unfold flag_test. by rewrite negb_involutive.
  - rewrite <- T1, <- (flag_test_bit b 1) by lia. unfold flag_test. by rewrite negb_involutive.
Qed.

(** A round of waiting: it ends with the status of an idle chip, or goes on. *)
Lemma wait_round fuel en t (s : F) : 0 < t -> exists s1, kept s s1 /\ quiet (dev s) (dev s1) /\ busy s1 = busy s /\
  idle_loop host (S fuel) en t s =
    (if wip (dev s1) then
       let n := Z.min CHIP_WAIT_IDLE_INTERVAL_US t in
       idle_loop host fuel en (if en then t - n else t) (set_dev (delay n (dev s1)) s1)
     else RET (if busy s && wel (dev s1) then ESP_ERR_NOT_SUPPORTED else ESP_OK) (set_busy false s1)).
Proof.
  intros Ht. cbn [idle_loop]. rewrite (proj2 (Z.ltb_lt 0 t)) by done.
  destruct (wait_host_spec t s) as (s0 & E0 & R0 & Q0). rewrite (bind_RET _ _ _ _ _ E0).
  destruct (status_spec s0) as (b & s1 & E1 & R1 & Q1 & Hb & W & L). unfold spi_flash_chip_generic_read_reg. rewrite (bind_RET _ _ _ _ _ E1).
  cbn [is_ok negb]. exists s1. assert (Hbusy : busy s1 = busy s) by (destruct R0 as (_ & _ & R0 & _), R1 as (_ & _ & R1 & _); congruence).
  split; [by eapply kept_trans; apply rest_kept|]. split; [by eapply quiet_trans|]. split; [done|].
  rewrite (proj2 (Z.ltb_lt 0 t)), W by done. destruct (wip (dev s1)); cbn [negb]; [done|].
  unfold mbind, M_bind, gets, modify, mret, M_ret. rewrite Hbusy. destruct (busy s) eqn:B; cbn.
  - rewrite L. by destruct (wel (dev s1)).
  - f_equal. destruct s1; unfold set_busy in *; cbn in *; by subst.
Qed.

Lemma kept_frame lo n s s' : kept s s' -> (forall x, cells_of s' x = cells_of s x) -> frame lo n s s'.
Proof. intros (? & ? & _ & ? & _) ?. by split_and!. Qed.

Lemma keeps_idle_loop lo n fuel en t : keeps lo n (idle_loop host fuel en t).
Proof.
  intros s. revert t s. induction fuel as [|fuel IH]; intros t s Hx; [done|].
  destruct (Z.ltb_spec 0 t) as [Ht|Ht]; [|cbn; by rewrite (proj2 (Z.ltb_ge 0 t))].
  destruct (wait_round fuel en t s Ht) as (s1 & K & Q & _ & ->). destruct (wip (dev s1)).
  - cbn zeta. set (k := Z.min _ t). assert (0 <= k) by (unfold k, CHIP_WAIT_IDLE_INTERVAL_US; lia).
    destruct (nor_delay k (dev s1)) as [(Qc & _) _]; [done|].
    assert (F1 : frame lo n s (set_dev (delay k (dev s1)) s1)).
    { apply kept_frame; [by destruct s1|]. intros x. cbn. rewrite Qc. apply Q. }
    specialize (IH (if en then t - k else t) (set_dev (delay k (dev s1)) s1)).
    destruct (idle_loop _ _ _ _ _); [|done|]; (destruct F1 as (? & ? & E & ?); eapply frame_trans; [split_and!; done|apply IH; congruence]) || by apply IH; destruct F1 as (_ & _ & -> & _).
  - apply kept_frame; [by destruct s1|]. intros x. cbn. apply Q.
Qed.

Lemma keeps_wait_idle lo n t : keeps lo n (spi_flash_chip_generic_wait_idle host t).
Proof. apply keeps_idle_loop. Qed.

(** The chip is idle, nothing is pending, the latch is [w]. *)
Definition at_rest (w : bool) (s s' : F) (effect : mem -> mem) : Prop :=
  kept s s' /\ busy s' = false /\ wip (dev s') = false /\ wel (dev s') = w /\ forall x, cells_of s' x = effect (cells_of s) x.

Lemma wait_idle_ready t (s : F) : 0 <= t < 2 ^ 32 -> wip (dev s) = false ->
  exists s', spi_flash_chip_generic_wait_idle host t s = RET (if busy s && wel (dev s) then ESP_ERR_NOT_SUPPORTED else ESP_OK) s' /\
    at_rest (wel (dev s)) s s' id.
Proof.
  intros Ht W. unfold spi_flash_chip_generic_wait_idle. set (t' := u32 _).
  assert (0 < t') by (unfold t', ESP_FLASH_CHIP_GENERIC_NO_TIMEOUT, UINT32_MAX; zcase; cint; lia).
  destruct (idle_fuel t) as [|fuel] eqn:E; [unfold idle_fuel in E; zcase; lia|].
  destruct (wait_round fuel (negb (t =? ESP_FLASH_CHIP_GENERIC_NO_TIMEOUT)) t' s) as (s1 & K & Q & B & ->); [done|].
  destruct Q as (Qc & _ & Qw & _). destruct (Qw W) as [W1 L1]. rewrite W1, L1. eexists. split; [done|].
  by split_and!.
Qed.

Lemma idle_loop_timely k : forall fuel (en : bool) (s : F), 0 <= k -> (Z.to_nat k < fuel)%nat -> wip (dev s) = true -> left (dev s) <= (if en then 20 else 1) * k ->
  exists s', idle_loop host fuel en (if en then 20 * k + 1 else 1) s = RET ESP_OK s' /\ at_rest false s s' id.
Proof.
  intros fuel. revert k. induction fuel as [|fuel IH]; intros k en s Hk Hf W Hl; [lia|].
  destruct (wait_round fuel en (if en then 20 * k + 1 else 1) s) as (s1 & K & (Qc & Ql & _ & Qw) & B & ->); [destruct en; lia|].
  destruct (Qw W) as [[W1 L1]|[W1 L1]]; rewrite W1.
  - cbn zeta. pose proof (nor_left _ W1) as P. pose proof (nor_left _ W). assert (0 < k) by (destruct en; lia).
    replace (Z.min CHIP_WAIT_IDLE_INTERVAL_US (if en then 20 * k + 1 else 1)) with (if en then 20 else 1) by (unfold CHIP_WAIT_IDLE_INTERVAL_US; destruct en; lia).
    set (n := if en then 20 else 1). destruct (nor_delay n (dev s1)) as [(Dc & Dl & _ & Dw) Dt]; [unfold n; destruct en; lia|].
    set (s2 := set_dev (delay n (dev s1)) s1).
    assert (K2 : kept s s2) by (by destruct s1). assert (C2 : forall x, cells_of s2 x = cells_of s x) by (intros x; cbn; by rewrite Dc).
    replace (if en then (if en then 20 * k + 1 else 1) - n else (if en then 20 * k + 1 else 1)) with (if en then 20 * (k - 1) + 1 else 1) by (unfold n; destruct en; lia).
    destruct (Dw W1) as [[W2 L2]|[W2 L2]].
    + destruct (IH (k - 1) en s2) as (s' & E & K' & B' & W' & L' & C'); [lia|lia|done|cbn; unfold n in *; destruct en; lia|].
      exists s'. split; [done|]. split_and!; try done; [by eapply kept_trans|]. intros x. cbn in *. by rewrite C', C2.
    + destruct fuel as [|fuel]; [lia|].
      destruct (wait_round fuel en (if en then 20 * (k - 1) + 1 else 1) s2) as (s3 & K3 & (Qc3 & _ & Qw3 & _) & B3 & ->); [destruct en; lia|].
      destruct (Qw3 W2) as [W3 L3]. assert (L3' : wel (dev s3) = false) by (rewrite L3; exact L2).
      rewrite W3, L3', andb_false_r. exists (set_busy false s3). split; [done|].
      split; [by eapply kept_trans|]. split_and!; try done. intros x. cbn. rewrite Qc3. apply C2.
  - rewrite L1, andb_false_r. eexists. split; [done|]. by split_and!.
Qed.

(** A timeout that is enough for an operation of [time] microseconds. *)
Definition enough (t time : Z) : Prop :=
  t = ESP_FLASH_CHIP_GENERIC_NO_TIMEOUT /\ time <= 4100000 \/ exists k, t = 20 * k /\ 0 <= k /\ t < UINT32_MAX /\ time <= t.

Lemma wait_idle_timely t time (s : F) : enough t time ->
  wip (dev s) = true /\ left (dev s) <= time \/ wip (dev s) = false /\ wel (dev s) = false ->
  exists s', spi_flash_chip_generic_wait_idle host t s = RET ESP_OK s' /\ at_rest false s s' id.
Proof.
  intros He [[W Hl]|[W L]].
  - destruct He as [[-> Ht]|(k & -> & Hk & Hu & Ht)].
    + apply (idle_loop_timely 4100000 _ false s); [lia| |done|lia]. cbn. lia.
    + destruct (idle_loop_timely k (idle_fuel (20 * k)) true s) as (s' & E & R); [done| |done|lia|].
      { unfold idle_fuel, ESP_FLASH_CHIP_GENERIC_NO_TIMEOUT, CHIP_WAIT_IDLE_INTERVAL_US. rewrite (proj2 (Z.eqb_neq _ _)) by lia.
        rewrite Z.mul_comm, Z.div_mul by lia. lia. }
      exists s'. split; [|done]. rewrite <- E. unfold spi_flash_chip_generic_wait_idle, ESP_FLASH_CHIP_GENERIC_NO_TIMEOUT, UINT32_MAX in *.
      by rewrite (proj2 (Z.eqb_neq _ _)), u32_small by lia.
  - destruct (wait_idle_ready t s) as (s' & E & R); [|done|].
    + destruct He as [[-> _]|(k & -> & ? & ? & _)]; unfold ESP_FLASH_CHIP_GENERIC_NO_TIMEOUT, UINT32_MAX in *; lia.
    + rewrite L, andb_false_r in *. by exists s'.
Qed.

(** ** The write enable latch *)

Lemma at_rest_trans w w' s1 s2 s3 e1 e2 : (forall m m' x, m x = m' x -> e2 m x = e2 m' x) ->
  at_rest w s1 s2 e1 -> at_rest w' s2 s3 e2 -> at_rest w' s1 s3 (fun m => e2 (e1 m)).
Proof.
  intros He (K1 & _ & _ & _ & C1) (K2 & B2 & W2 & L2 & C2). split_and!; try done; [by eapply kept_trans|].
  intros x. rewrite C2. by apply He.
Qed.

Definition ready (s : F) : Prop := wip (dev s) = false /\ busy s = false.

Lemma at_rest_ready w s s' e : at_rest w s s' e -> ready s'.
Proof. by intros (_ & B & W & _). Qed.

Lemma idle_timeout_ok : 0 <= idle_timeout spi_flash_chip_generic_timeout < 2 ^ 32.
Proof. done. Qed.

Lemma latch_spec wp (s : F) : wip (dev s) = false -> exists s', h_set_write_protect host wp s = RET ESP_OK s' /\ rest s s' /\
  wip (dev s') = false /\ wel (dev s') = negb wp /\ forall x, cells_of s' x = cells_of s x.
Proof.
  intros W. destruct (ho_latch wp s) as (t & s' & E & R & Ed & Ec & _). exists s'. split; [done|]. split; [done|]. rewrite Ed.
  assert (command t = CMD_WREN \/ command t = CMD_WRDI) as Hc by (destruct wp; auto).
  pose proof (nor_latch t (dev s) Hc) as L. rewrite W, Ec in L. destruct L as (C & W' & L'). split_and!; try done. rewrite L'. by destruct wp.
Qed.

Lemma set_write_protect_ready wp (s : F) : ready s ->
  exists s', spi_flash_chip_generic_set_write_protect host wp s = RET ESP_OK s' /\ at_rest (negb wp) s s' id.
Proof.
  intros [W B]. unfold spi_flash_chip_generic_set_write_protect.
  destruct (wait_idle_ready _ s idle_timeout_ok W) as (s1 & E1 & K1 & B1 & W1 & L1 & C1). rewrite B in E1. cbn [andb] in E1.
  rewrite (bind_RET _ _ _ _ _ E1). cbn [ready_to_send].
  destruct (latch_spec wp s1 W1) as (s2 & E2 & R2 & W2 & L2 & C2). rewrite (bind_RET _ _ _ tt s2); [|by rewrite (bind_RET _ _ _ _ _ E2)].
  destruct (status_spec s2) as (b & s3 & E3 & R3 & (Qc & _ & Qw & _) & Hb & _ & T). destruct (Qw W2) as [W3 L3].
  unfold spi_flash_chip_generic_get_write_protect, spi_flash_chip_generic_read_reg. rewrite (bind_RET _ _ _ (ESP_OK, wp) s3).
  - cbn [is_ok]. rewrite eqb_reflx. exists s3. split; [done|].
    split; [eapply kept_trans; [exact K1|]; eapply kept_trans; by apply rest_kept|].
    split; [destruct R3 as (_ & _ & R3 & _), R2 as (_ & _ & R2 & _); congruence|]. split; [done|]. split; [congruence|].
    intros x. by rewrite Qc, C2, C1.
  - rewrite (bind_RET _ _ _ _ _ E3). cbn [is_ok negb]. rewrite u8_small in T by exact Hb. rewrite T, L3, L2, negb_involutive. done.
Qed.

(** ** Operations *)

(** What an operation does to a cell depends on this cell only. *)
Lemma operation_ext c a data lo n time effect m m' x : operation D c a data = Some (lo, n, time, effect) -> m x = m' x -> effect m x = effect m' x.
Proof.
  unfold operation, erase_mem. intros Ho E.
  repeat lazymatch type of Ho with (if ?b then _ else _) = _ => destruct b end; simplify_eq; try done; solve [by apply program_ext | by rewrite E].
Qed.

(** [send] sends a command that starts an operation. *)
Definition starts (send : M F unit) (lo n time : Z) (effect : mem -> mem) (s : F) : Prop :=
  exists c a data, sends send c a data 0 s (fun _ => tt) /\ operation D c a data = Some (lo, n, time, effect).

Lemma operate (send : M F unit) t lo n time effect (s : F) : starts send lo n time effect s -> unprotected D lo n -> enough t time ->
  wip (dev s) = false -> wel (dev s) = true ->
  exists s', (_ ← send; _ ← modify (set_busy true); spi_flash_chip_generic_wait_idle host t) s = RET ESP_OK s' /\ at_rest false s s' effect.
Proof.
  intros (c & a & data & (tr & s1 & E1 & R1 & Ed & <- & <- & <- & _) & Ho) Hu He W L.
  destruct (nor_operation tr (dev s) lo n time effect W L Ho) as [_ Ha]. destruct (Ha Hu) as [C A]. rewrite <- Ed in C, A.
  rewrite (bind_RET _ _ _ _ _ E1), (bind_RET _ _ _ tt (set_busy true s1)) by done.
  destruct (wait_idle_timely t time (set_busy true s1) He A) as (s' & E & K & B & W' & L' & C'). exists s'. split; [done|].
  split; [eapply kept_trans; [apply rest_kept, R1|]; by eapply kept_trans|]. split_and!; try done. intros x. rewrite C'. cbn. apply C.
Qed.

(** The latch is set, then the operation runs. *)
Lemma latched_operate (send : M F unit) t lo n time effect (s : F) : (forall s1, kept s s1 -> starts send lo n time effect s1) ->
  unprotected D lo n -> enough t time -> ready s -> wel (dev s) = true ->
  exists s', (err ← spi_flash_chip_generic_wait_idle host (idle_timeout spi_flash_chip_generic_timeout);
    err ← (if ready_to_send err then _ ← send; _ ← modify (set_busy true); spi_flash_chip_generic_wait_idle host t else mret err);
    ensure_wel_0 host err) s = RET ESP_OK s' /\ at_rest false s s' effect.
Proof.
  intros Hst Hu He [W B] L. destruct (wait_idle_ready _ s idle_timeout_ok W) as (s1 & E1 & R1). pose proof R1 as (K1 & B1 & W1 & L1 & C1).
  rewrite B in E1. cbn [andb] in E1. rewrite (bind_RET _ _ _ _ _ E1). cbn [ready_to_send].
  destruct (operate send t lo n time effect s1 (Hst s1 K1) Hu He W1) as (s2 & E2 & K2 & B2 & W2 & L2 & C2); [congruence|].
  rewrite (bind_RET _ _ _ _ _ E2). exists s2. split; [done|]. split; [by eapply kept_trans|]. split_and!; try done.
  intros x. rewrite C2. destruct (Hst s1 K1) as (c & a & data & _ & Ho). by apply (operation_ext c a data lo n time).
Qed.

Lemma page_program_ok bs a lo n effect (s : F) : (forall s1, kept s s1 -> starts (h_program_page host bs a) lo n 500000 effect s1) ->
  unprotected D lo n -> ready s -> wel (dev s) = true ->
  exists s', spi_flash_chip_generic_page_program host bs a s = RET ESP_OK s' /\ at_rest false s s' effect.
Proof. intros Hst Hu Hr L. eapply latched_operate; try done. right. exists 25000. split_and!; done || lia. Qed.

Lemma generic_erase_ok (send : M F unit) no_timeout op_timeout lo n time effect (s : F) : (forall s1, kept s s1 -> starts send lo n time effect s1) ->
  unprotected D lo n -> enough op_timeout time -> time <= 4100000 -> ready s ->
  exists s', generic_erase host no_timeout send op_timeout s = RET ESP_OK s' /\ at_rest false s s' effect.
Proof.
  intros Hst Hu He Ht Hr. unfold generic_erase. destruct (set_write_protect_ready false s Hr) as (s1 & E1 & R1). pose proof R1 as (K1 & B1 & W1 & L1 & C1).
  rewrite (bind_RET _ _ _ _ _ E1). cbn [is_ok].
  destruct (latched_operate send (if no_timeout then ESP_FLASH_CHIP_GENERIC_NO_TIMEOUT else op_timeout) lo n time effect s1) as (s2 & E2 & K2 & B2 & W2 & L2 & C2); try done.
  - intros s0 K0. apply Hst. by eapply kept_trans.
  - destruct no_timeout; [by left|done].
  - exists s2. split; [exact E2|]. split; [by eapply kept_trans|]. split_and!; try done.
    intros x. rewrite C2. destruct (Hst s1 K1) as (c & a & data & _ & Ho). by apply (operation_ext c a data lo n time).
Qed.

Lemma erase_sector_ok no_timeout a (s : F) : 0 <= a -> a mod 4096 = 0 -> a + 4096 <= capacity D -> unprotected D a 4096 -> ready s ->
  exists s', spi_flash_chip_generic_erase_sector host no_timeout a s = RET ESP_OK s' /\ at_rest false s s' (erase_mem a 4096).
Proof.
  intros Ha Hm Hc Hu Hr. apply (generic_erase_ok _ _ _ a 4096 600000); try done.
  - intros s1 _. eexists _, _, _. split; [apply ho_erase_sector; lia|]. by apply sector_operation.
  - right. exists 30000. split_and!; done || lia.
Qed.

Lemma erase_block_ok no_timeout a (s : F) : 0 <= a -> a mod 65536 = 0 -> a + 65536 <= capacity D -> unprotected D a 65536 -> ready s ->
  exists s', spi_flash_chip_generic_erase_block host no_timeout a s = RET ESP_OK s' /\ at_rest false s s' (erase_mem a 65536).
Proof.
  intros Ha Hm Hc Hu Hr. apply (generic_erase_ok _ _ _ a 65536 4100000); try done.
  - intros s1 _. eexists _, _, _. split; [apply ho_erase_block; lia|]. by apply block_operation.
  - right. exists 205000. split_and!; done || lia.
Qed.

Lemma erase_chip_ok no_timeout (s : F) : unprotected D 0 (capacity D) -> ready s ->
  exists s', spi_flash_chip_generic_erase_chip host no_timeout s = RET ESP_OK s' /\ at_rest false s s' (erase_mem 0 (capacity D)).
Proof.
  intros Hu Hr. apply (generic_erase_ok _ _ _ 0 (capacity D) 4000000); try done.
  - intros s1 _. eexists _, _, _. by split; [apply ho_erase_chip|].
  - right. exists 200000. split_and!; done || lia.
Qed.

(** ** Writing *)

Hypothesis capacity_256 : capacity D mod 256 = 0.

(** One round of the loop of [write]: [w] bytes are written, between [j] and [k]
    bytes [0xFF], within a page. *)
Lemma write_round fuel bs a : bs <> [] -> 0 <= a -> a + Z.of_nat (length bs) <= capacity D ->
  exists j w k, (0 < w <= length bs)%nat /\ (k <= 1)%nat /\ 0 <= a - Z.of_nat j /\ (a - Z.of_nat j) mod 256 + Z.of_nat (j + w + k) <= 256 /\
    a - Z.of_nat j + Z.of_nat (j + w + k) <= capacity D /\
    write_slices host (S fuel) bs a ESP_OK =
      (err ← spi_flash_chip_generic_set_write_protect host false;
       if is_ok err then
         err ← spi_flash_chip_generic_page_program host (replicate j 0xFF ++ take w bs ++ replicate k 0xFF) (a - Z.of_nat j);
         write_slices host fuel (drop w bs) (a + Z.of_nat w) err
       else mret err).
Proof.
  intros Hb Ha Hc. assert (Hn : 0 < Z.of_nat (length bs)) by (destruct bs; [done|cbn; lia]).
  cbn [write_slices is_ok andb]. rewrite (proj2 (Z.ltb_lt 0 _)) by done. rewrite (ho_write_slicer (host := host)).
  destruct (memspi_host_write_data_slicer ctx a (Z.of_nat (length bs)) GENERIC_PAGE_SIZE) as [len al] eqn:E.
  apply write_slicer_spec in E as (G1 & G2 & G3 & G4 & G5 & G6 & G7 & G8); [|lia..].
  assert (Hcap : al + len <= capacity D).
  { destruct (slicer_dtr ctx); [|destruct (G8 eq_refl); lia]. destruct (G7 eq_refl) as [E1 E2]. Z.to_euclidean_division_equations; lia. }
  set (w := Z.min (al + len) (a + Z.of_nat (length bs)) - a).
  exists (Z.to_nat (a - al)), (Z.to_nat w), (Z.to_nat (al + len - a - w)). replace (a - Z.of_nat (Z.to_nat (a - al))) with al by lia.
  replace (Z.of_nat (Z.to_nat (a - al) + Z.to_nat w + Z.to_nat (al + len - a - w))) with len by lia.
  split_and!; try lia.
  rewrite (u32_small (a - al)), (u32_small (al + len)), (u32_small (a + Z.of_nat (length bs))), (u32_small (Z.min _ _ - a)) by lia. fold w.
  rewrite (u32_small (a + w)) by lia. replace (Z.of_nat (Z.to_nat w)) with w by lia.
  rewrite !(proj2 (Z.leb_le _ _)) by lia.
  replace (take (Z.to_nat len) _) with (replicate (Z.to_nat (a - al)) 255 ++ take (Z.to_nat w) bs ++ replicate (Z.to_nat (al + len - a - w)) 255); [reflexivity|].
  rewrite take_app_ge, length_replicate by (rewrite length_replicate; lia). f_equal.
  rewrite take_app_ge, length_take by (rewrite length_take; lia). f_equal. rewrite take_replicate. f_equal. lia.
Qed.

Lemma keeps_sub {A} lo n lo' n' (m : M F A) : keeps lo' n' m -> lo <= lo' -> lo' + n' <= lo + n -> keeps lo n m.
Proof.
  intros Hk ?? s Hx. specialize (Hk s Hx). destruct (m s); [|done|done]. destruct Hk as (? & ? & ? & C). split_and!; try done.
  intros x Hr. apply C. lia.
Qed.

Lemma keeps_set_write_protect lo n wp : keeps lo n (spi_flash_chip_generic_set_write_protect host wp).
Proof.
  apply keeps_bind; [apply keeps_wait_idle|]. intros err. apply keeps_bind.
  - destruct (ready_to_send err); [|apply keeps_ret]. apply keeps_bind; [apply keeps_latch|]. intros; apply keeps_ret.
  - intros _. apply keeps_bind; [|intros []; apply keeps_ret].
    apply keeps_bind; [apply keeps_status|]. intros [e st]. destruct (negb (is_ok e)); apply keeps_ret.
Qed.

Lemma keeps_ensure_wel_0 lo n err : keeps lo n (ensure_wel_0 host err).
Proof. destruct err; try apply keeps_ret. apply keeps_set_write_protect. Qed.

Lemma keeps_operate lo n (send : M F unit) t err : keeps lo n send ->
  keeps lo n (err ← (if ready_to_send err then _ ← send; _ ← modify (set_busy true); spi_flash_chip_generic_wait_idle host t else mret err); ensure_wel_0 host err).
Proof.
  intros Hs. apply keeps_bind; [|intros; apply keeps_ensure_wel_0]. destruct (ready_to_send err); [|apply keeps_ret].
  apply keeps_bind; [done|]. intros _. apply keeps_bind; [apply keeps_busy|]. intros _. apply keeps_wait_idle.
Qed.

Lemma keeps_page_program lo n bs a : keeps lo n (h_program_page host bs a) -> keeps lo n (spi_flash_chip_generic_page_program host bs a).
Proof. intros Hs. apply keeps_bind; [apply keeps_wait_idle|]. intros err. by apply keeps_operate. Qed.

Lemma keeps_generic_erase lo n nt send t : keeps lo n send -> keeps lo n (generic_erase host nt send t).
Proof.
  intros Hs. apply keeps_bind; [apply keeps_set_write_protect|]. intros err.
  apply keeps_bind; [destruct (is_ok err); [apply keeps_wait_idle|apply keeps_ret]|]. intros err'. by apply keeps_operate.
Qed.

Lemma keeps_write_slices fuel bs a err : 0 <= a -> a + Z.of_nat (length bs) <= capacity D ->
  keeps a (Z.of_nat (length bs)) (write_slices host fuel bs a err).
Proof.
  revert bs a err. induction fuel as [|fuel IH]; intros bs a err Ha Hc.
  - cbn [write_slices]. destruct (_ && _); [apply keeps_abort|apply keeps_ret].
  - destruct (is_ok_spec err) as [->|He]; [|cbn [write_slices]; destruct (is_ok_spec err); [done|apply keeps_ret]].
    destruct (decide (bs = [])) as [->|Hb]; [apply keeps_ret|].
    destruct (write_round fuel bs a Hb Ha Hc) as (j & w & k & Hw & Hk & Hj & Hp & Hq & ->).
    apply keeps_bind; [apply keeps_set_write_protect|]. intros e. destruct (is_ok e); [|apply keeps_ret].
    assert (Hl : length (take w bs) = w) by (rewrite length_take; lia).
    apply keeps_bind.
    + apply keeps_page_program. apply (keeps_sub _ _ a (Z.of_nat (length (take w bs)))); [|lia|lia].
      apply keeps_program; rewrite ?Hl; [|lia|lia|lia]. intros E. rewrite E in Hl. cbn in Hl. lia.
    + intros e'. apply (keeps_sub _ _ (a + Z.of_nat w) (Z.of_nat (length (drop w bs)))); rewrite ?length_drop; [|lia|lia].
      rewrite <- length_drop. apply IH; [lia|]. rewrite length_drop. lia.
Qed.

Hypothesis no_protection : unprotected D 0 (capacity D).

Lemma unprotected_sub lo n : 0 <= lo -> lo + n <= capacity D -> unprotected D lo n.
Proof. intros ?? x Hx. apply no_protection. lia. Qed.

(** A slice is programmed. *)
Lemma program_slice_ok a j bs k (s : F) : bs <> [] -> 0 <= a - Z.of_nat j -> (a - Z.of_nat j) mod 256 + Z.of_nat (j + length bs + k) <= 256 ->
  a - Z.of_nat j + Z.of_nat (j + length bs + k) <= capacity D -> xts_enabled s = false -> ready s -> wel (dev s) = true ->
  exists s', spi_flash_chip_generic_page_program host (replicate j 0xFF ++ bs ++ replicate k 0xFF) (a - Z.of_nat j) s = RET ESP_OK s' /\
    at_rest false s s' (fun m => program m a bs).
Proof.
  intros Hn Ha Hm Hc Hx Hr L. assert (0 < length bs)%nat by (destruct bs; [done|cbn; lia]). set (data := replicate j _ ++ _).
  assert (Hl : length data = (j + length bs + k)%nat) by (unfold data; rewrite !length_app, !length_replicate; lia).
  destruct (page_program_ok data (a - Z.of_nat j) (a - Z.of_nat j) (Z.of_nat (length data)) (fun m => program m (a - Z.of_nat j) data) s) as (s' & E & K & B & W & L' & C); try done.
  - intros s1 (_ & _ & _ & Hx1 & _). eexists _, _, data. split; [|apply program_operation; lia].
    rewrite <- (ho_out s1 (a - Z.of_nat j) data) at 2 by congruence. apply ho_program; lia.
  - apply unprotected_sub; lia.
  - exists s'. split; [done|]. split_and!; try done. intros x. rewrite C. apply program_padded, nor_byte.
Qed.

Lemma write_slices_ok fuel bs a (s : F) : (length bs <= fuel)%nat -> 0 <= a -> a + Z.of_nat (length bs) <= capacity D -> xts_enabled s = false -> ready s ->
  exists s', write_slices host fuel bs a ESP_OK s = RET ESP_OK s' /\ kept s s' /\ ready s' /\ forall x, cells_of s' x = program (cells_of s) a bs x.
Proof.
  revert bs a s. induction fuel as [|fuel IH]; intros bs a s Hf Ha Hc Hx Hr.
  - destruct bs; [|cbn in Hf; lia]. exists s. split; [done|]. split_and!; try done; try apply Hr. intros x. unfold program. by destruct (a <=? x).
  - destruct (decide (bs = [])) as [->|Hb].
    { exists s. split; [done|]. split_and!; try done; try apply Hr. intros x. unfold program. by destruct (a <=? x). }
    destruct (write_round fuel bs a Hb Ha Hc) as (j & w & k & Hw & Hk & Hj & Hp & Hq & ->).
    destruct (set_write_protect_ready false s Hr) as (s1 & E1 & R1). pose proof R1 as (K1 & B1 & W1 & L1 & C1). rewrite (bind_RET _ _ _ _ _ E1). cbn [is_ok].
    assert (Hl : length (take w bs) = w) by (rewrite length_take; lia).
    destruct (program_slice_ok a j (take w bs) k s1) as (s2 & E2 & R2); rewrite ?Hl; try done; try lia.
    { intros E. rewrite E in Hl. cbn in Hl. lia. }
    { destruct K1 as (_ & _ & _ & -> & _). done. }
    pose proof R2 as (K2 & B2 & W2 & L2 & C2). rewrite (bind_RET _ _ _ _ _ E2).
    destruct (IH (drop w bs) (a + Z.of_nat w) s2) as (s3 & E3 & K3 & Hr3 & C3); rewrite ?length_drop; try lia; try done.
    { destruct K2 as (_ & _ & _ & -> & _), K1 as (_ & _ & _ & -> & _). done. }
    exists s3. split; [done|]. split; [eapply kept_trans; [|exact K3]; by eapply kept_trans|]. split; [done|].
    intros x. rewrite C3, (program_ext _ (program (cells_of s) a (take w bs))) by (rewrite C2; apply program_ext, C1).
    rewrite <- Hl at 2. rewrite program_app, take_drop. done.
Qed.

(** ** Reading *)

(** The host supports the read mode of the chip, and the driver knows whether
    the chip is in high performance mode and how long the data take. *)
Definition io_mode_ok (s : F) : Prop :=
  let mode := Z.land (read_mode s) 0xFFFF in mode <= SPI_FLASH_QIO /\ (multiline ctx = true \/ mode <= SPI_FLASH_FASTRD) /\
  Z.testbit (read_mode s) 31 = false /\ hpm_dummy_ena s = hpm D /\ extra_dummy ctx = input_delay D.

(** The host is configured for reading: the cycles are those that the chip
    needs for the command. *)
Definition read_ready (s : F) : Prop :=
  is_read (reg_command s) = true /\ (reg_addr_bitlen s = 24 \/ reg_addr_bitlen s = 28) /\
  reg_dummy s + (reg_addr_bitlen s - 24) / data_lines (reg_command s) = read_latency (hpm D) (reg_command s) + input_delay D.

Lemma conf_bits_flag mode : flag_test (Z.land mode 0xFFFF0000) SPI_FLASH_CONFIG_CONF_BITS = Z.testbit mode 31.
Proof. unfold SPI_FLASH_CONFIG_CONF_BITS. rewrite flag_test_bit, Z.land_spec by lia. apply andb_true_r. Qed.

Lemma conf_bits_mode mode : Z.land (Z.lor mode SPI_FLASH_CONFIG_CONF_BITS) 0xFFFF = Z.land mode 0xFFFF.
Proof. rewrite Z.land_lor_distr_l. change (Z.land SPI_FLASH_CONFIG_CONF_BITS 0xFFFF) with 0. apply Z.lor_0_r. Qed.

Lemma configure_ok c du (conf : bool) (s : F) : let mode := Z.land (read_mode s) 0xFFFF in
  io_mode_ok s -> is_read c = true -> du = read_latency (hpm D) c -> (conf = true -> data_lines c = if mode =? SPI_FLASH_DIO then 2 else 4) ->
  exists s', spi_flash_hal_configure_host_io_mode ctx c 24 du (if conf then Z.lor (read_mode s) SPI_FLASH_CONFIG_CONF_BITS else read_mode s) s = RET ESP_OK s' /\
    rest s s' /\ dev s' = dev s /\ read_ready s'.
Proof.
  intros mode (_ & Hm & H31 & _ & Hx) Hc -> Hl. set (io := if conf then _ else _).
  assert (E : Z.land io 0xFFFF = mode) by (unfold io; destruct conf; [apply conf_bits_mode|done]).
  assert (Ec : flag_test (Z.land io 0xFFFF0000) SPI_FLASH_CONFIG_CONF_BITS = conf).
  { rewrite conf_bits_flag. unfold io. destruct conf; [|done]. rewrite Z.lor_spec. apply orb_true_r. }
  unfold spi_flash_hal_configure_host_io_mode. cbv zeta. rewrite E, Ec.
  assert (negb (multiline ctx) && (SPI_FLASH_FASTRD <? mode) = false) as ->.
  { destruct Hm as [->|Hm]; [done|]. by rewrite (proj2 (Z.ltb_ge SPI_FLASH_FASTRD mode) Hm), andb_false_r. }
  destruct (negb (control_dummy_out ctx) && conf) eqn:Ed; (eexists; split; [reflexivity|]; split; [done|]; split; [done|]); unfold read_ready; cbn [set_regs reg_command reg_addr_bitlen reg_dummy].
  - apply andb_true_iff in Ed as [_ Ed]. rewrite (Hl Ed). split_and!; [done|by right|]. change (24 + 4 - 24) with 4. rewrite Hx. lia.
  - split_and!; [done|by left|]. rewrite Z.sub_diag, Zdiv_0_l, Hx. lia.
Qed.

Lemma config_host_ok (s : F) : io_mode_ok s ->
  exists s', spi_flash_chip_generic_config_host_io_mode ctx 0 s = RET ESP_OK s' /\ rest s s' /\ dev s' = dev s /\ read_ready s'.
Proof.
  intros Hio. pose proof Hio as (Hq & _ & _ & Hh & _). assert (0 <= Z.land (read_mode s) 0xFFFF) by (apply Z.land_nonneg; lia).
  unfold spi_flash_chip_generic_config_host_io_mode. rewrite (bind_RET _ _ _ s s) by done. cbn [id].
  change (flag_test 0 SPI_FLASH_CONFIG_IO_MODE_32B_ADDR) with false. cbn iota. rewrite Hh. unfold dummy_cycles.
  pose proof (fun c du conf => configure_ok c du conf s Hio) as Go. cbv zeta in Go.
  unfold SPI_FLASH_QIO, SPI_FLASH_QOUT, SPI_FLASH_DIO, SPI_FLASH_DOUT, SPI_FLASH_FASTRD, SPI_FLASH_SLOWRD in *.
  set (m := Z.land (read_mode s) 0xFFFF) in *. assert (C : m = 5 \/ m = 4 \/ m = 3 \/ m = 2 \/ m = 1 \/ m = 0) by lia.
  destruct C as [E|[E|[E|[E|[E|E]]]]]; rewrite E in Go |- *; cbn [Z.eqb Pos.eqb] in Go |- *; first [by apply (Go _ _ true)|by apply (Go _ _ false)].
Qed.

Lemma slice_read_bytes m al len j n rest : (j + n <= len)%nat ->
  slice (Z.of_nat j) (Z.of_nat n) (read_bytes m al len ++ rest) = read_bytes m (al + Z.of_nat j) n.
Proof.
  intros Hn. unfold slice. rewrite !Nat2Z.id. apply list_eq. intros i. destruct (decide (i < n)%nat) as [Hi|Hi].
  - rewrite lookup_take_lt, lookup_drop, lookup_app_l, !lookup_read_bytes by (rewrite ?length_read_bytes; lia). do 2 f_equal. lia.
  - rewrite lookup_take_ge by lia. symmetry. apply lookup_ge_None_2. rewrite length_read_bytes. lia.
Qed.

(** The chip finds the address in the bits that are sent. *)
Lemma usr_address_spec c a bits n d : bits = 24 \/ bits = 28 -> read_address (mkTrans c bits (usr_address a (whole_bytes bits) bits) [] n d) = a.
Proof.
  unfold read_address, usr_address. cbn [trans_address address_bitlen]. intros [->| ->].
  - change (whole_bytes 24) with 24. rewrite Z.sub_diag, Z.shiftl_0_r, Z.shiftr_0_r. change (Z.ones 0) with 0. apply Z.lor_0_r.
  - change (whole_bytes 28) with 24. change (28 - 24) with 4. rewrite Z.shiftr_lor, Z.shiftr_shiftl_l by lia. change (Z.shiftr (Z.ones 4) 4) with 0.
    rewrite Z.sub_diag, Z.shiftl_0_r. apply Z.lor_0_r.
Qed.

(** One round of the loop of [read]: [n] bytes. *)
Lemma read_round fuel a len got (s : F) : 0 <= a -> 0 < len -> a + len <= capacity D -> wip (dev s) = false -> read_ready s ->
  exists n s', 0 < n <= len /\ rest s s' /\ quiet (dev s) (dev s') /\ read_ready s' /\
    read_slices host (S fuel) a len got ESP_OK s = read_slices host fuel (a + n) (len - n) (got ++ read_bytes (cells_of s) a (Z.to_nat n)) ESP_OK s'.
Proof.
  intros Ha Hn Hc W Hr. cbn [read_slices is_ok andb]. rewrite (proj2 (Z.ltb_lt 0 _)) by done. rewrite (ho_read_slicer (host := host)).
  destruct (memspi_host_read_data_slicer ctx a len GENERIC_PAGE_SIZE) as [k al] eqn:E.
  apply read_slicer_spec in E as (G1 & G2 & G3 & G4 & G6 & G7 & G8); [|lia..].
  assert (Hcap : al + k <= capacity D).
  { destruct (slicer_dtr ctx); [|destruct (G8 eq_refl); lia]. destruct (G7 eq_refl) as [E1 E2]. Z.to_euclidean_division_equations; lia. }
  set (n := Z.min (al + k) (a + len) - a). destruct Hr as (Hr & Hb & Hcy). pose proof (ho_read al k s) as Es. cbv zeta in Es.
  set (t := mkTrans _ _ _ _ _ _) in Es. assert (Ea : read_address t = al) by (by apply usr_address_spec).
  destruct (nor_read t (dev s) Hr) as (Q & _ & Hd). rewrite Hd, Ea in Es by (done || rewrite ?Ea; cbn [t address_bitlen miso_len]; lia). cbn [t miso_len] in Es.
  exists n, (set_dev (transact t (dev s)).2 s). split; [lia|]. split; [done|]. split; [exact Q|]. split; [by split|].
  rewrite (u32_small (a - al)), (u32_small (al + k)), (u32_small (a + len)), (u32_small (Z.min _ _ - a)) by lia. fold n.
  rewrite (u32_small (a + n)), (u32_small (len - n)) by lia. rewrite !(proj2 (Z.leb_le _ _)) by lia.
  rewrite (bind_RET (assert_ _) _ s tt s) by done. rewrite (bind_RET _ _ _ _ _ Es). cbn beta iota zeta. do 2 f_equal.
  replace (a - al) with (Z.of_nat (Z.to_nat (a - al))) by lia. replace n with (Z.of_nat (Z.to_nat n)) at 1 by lia.
  rewrite slice_read_bytes by lia. f_equal. lia.
Qed.

Lemma read_slices_ok fuel a len got (s : F) : (Z.to_nat len <= fuel)%nat -> 0 <= a -> 0 <= len -> a + len <= capacity D -> wip (dev s) = false -> read_ready s ->
  exists s', read_slices host fuel a len got ESP_OK s = RET (ESP_OK, got ++ read_bytes (cells_of s) a (Z.to_nat len)) s' /\ rest s s' /\ quiet (dev s) (dev s').
Proof.
  revert a len got s. induction fuel as [|fuel IH]; intros a len got s Hf Ha Hl Hc W Hr.
  - replace len with 0 by lia. exists s. cbn. rewrite app_nil_r. split_and!; done || apply quiet_refl.
  - destruct (decide (len = 0)) as [->|Hne]; [exists s; cbn; rewrite app_nil_r; split_and!; done || apply quiet_refl|].
    destruct (read_round fuel a len got s) as (n & s1 & Hn & R1 & Q1 & Rr & ->); [lia..|done|done|].
    pose proof Q1 as (Qc & _ & Qw & _). destruct (Qw W) as [W1 _].
    destruct (IH (a + n) (len - n) (got ++ read_bytes (cells_of s) a (Z.to_nat n)) s1) as (s2 & E2 & R2 & Q2); try lia; try done.
    exists s2. rewrite E2. split_and!.
    + do 2 f_equal. rewrite <- app_assoc. f_equal. replace (Z.to_nat len) with (Z.to_nat n + Z.to_nat (len - n))%nat by lia.
      rewrite read_bytes_app. f_equal. rewrite Z2Nat.id by lia. apply read_bytes_agree. intros x _. apply Qc.
    + unfold rest in *. intuition congruence.
    + by eapply quiet_trans.
Qed.

Lemma chip_read_ok a len (s : F) : 0 <= a -> 0 <= len -> a + len <= capacity D -> wip (dev s) = false -> io_mode_ok s ->
  exists s', spi_flash_chip_generic_read ctx host a len s = RET (ESP_OK, read_bytes (cells_of s) a (Z.to_nat len)) s' /\ rest s s' /\ quiet (dev s) (dev s').
Proof.
  intros Ha Hl Hc W Hm. destruct (config_host_ok s Hm) as (s1 & E1 & R1 & Ed & Hr). unfold spi_flash_chip_generic_read. rewrite (bind_RET _ _ _ _ _ E1).
  destruct (read_slices_ok (Z.to_nat len) a len [] s1) as (s2 & E2 & R2 & Q2); try done; [by rewrite Ed|].
  exists s2. rewrite E2, Ed in *. split_and!; [done| |done]. unfold rest in *. intuition congruence.
Qed.
End Chip.
