(* ===== verification/SpiFlashTheorems.v ===== *)
(** * What the SPI flash API promises

    [esp_flash_read], [esp_flash_write] and [esp_flash_erase_region] on the
    generic chip driver: only the addressed cells change, whatever the chip and
    the hooks of the operating system do; on a chip that is idle and not
    protected they do what their names say. *)

From S2P Require Import Prelude CMem Flash SpiFlash SpiFlashApi SpiNor SpiFlashHost SpiFlashChip.

Create HintDb keeps.

(** Programming erased cells stores the data. *)
Lemma programmed_erased (m m' : mem) a bs : forallb (fun b => (0 <=? b) && (b <? 256)) bs = true ->
  (forall x, a <= x < a + Z.of_nat (length bs) -> m x = 0xFF) -> (forall x, m' x = program m a bs x) -> read_bytes m' a (length bs) = bs.
Proof.
  intros Hb He Hm. apply list_eq_same_length with (n := length bs); [done|by rewrite length_read_bytes|].
  intros i x y Hi. rewrite lookup_read_bytes by done. intros [= <-] Hy. rewrite Hm. unfold program. rewrite (proj2 (Z.leb_le _ _)) by lia.
  replace (Z.to_nat (a + Z.of_nat i - a)) with i by lia. rewrite Hy, He by lia.
  rewrite forallb_forall in Hb. specialize (Hb y). rewrite <- list_elem_of_In in Hb. apply list_elem_of_lookup_2 in Hy. specialize (Hb Hy). zbool.
  apply land_ff. lia.
Qed.

Section Theorems.
Context {D : Type} `{SpiNorLaws D} (ctx : host_context) (host : spi_flash_host_driver_t D) (out : flash_t D -> Z -> list Z -> list Z).
Context (HO : HostOk ctx host out) (os : esp_flash_os_functions_t D) (no_erase_timeout default_chip : bool) (chip_id : Z).
Context (dangerous : dangerous_write) (bypass_block_erase : bool).
Hypothesis capacity_24 : capacity D <= 2 ^ 24.
Hypothesis capacity_256 : capacity D mod 256 = 0.

Abbreviation F := (flash_t D).
Abbreviation cells_of s := (cells (dev s)).
Abbreviation drv := (esp_flash_chip_generic ctx host os no_erase_timeout default_chip chip_id).
Abbreviation write := (esp_flash_write host os (Some drv) dangerous).
Abbreviation erase_region := (esp_flash_erase_region host os (Some drv) dangerous bypass_block_erase).
Abbreviation read := (esp_flash_read os (Some drv)).

(** The hooks send no commands to the chip. *)
Record os_quiet : Prop := {
  oq_start : forall start d, os_start os = Some start -> quiet d (start d).2;
  oq_end : forall end_ d, os_end os = Some end_ -> quiet d (end_ d).2;
  oq_check : forall check wip d, os_check_yield os = Some check -> quiet d (check wip d).2;
  oq_yield : forall d, quiet d (os_yield os d).2
}.

(** They succeed. *)
Record os_works : Prop := {
  ow_start : forall start d, os_start os = Some start -> (start d).1 = ESP_OK;
  ow_end : forall end_ d, os_end os = Some end_ -> (end_ d).1 = ESP_OK;
  ow_check : forall check wip d, os_check_yield os = Some check -> (check wip d).1.1 = ESP_OK \/ (check wip d).1.1 = ESP_ERR_TIMEOUT;
  ow_yield : forall d, (os_yield os d).1 = ESP_OK
}.

Hypothesis OQ : os_quiet.

(** ** Only the addressed cells change *)

Lemma keeps_start lo n : keeps lo n (spiflash_start_default os).
Proof. unfold spiflash_start_default. destruct (os_start os) eqn:E; [|apply keeps_ret]. apply keeps_on_dev. intros d. by apply (oq_start OQ). Qed.

Lemma keeps_end lo n err : keeps lo n (spiflash_end_default os err).
Proof.
  unfold spiflash_end_default. destruct (os_end os) eqn:E; [|apply keeps_ret].
  apply keeps_bind; [|intros; apply keeps_ret]. apply keeps_on_dev. intros d. by apply (oq_end OQ).
Qed.

Lemma keeps_yield lo n : keeps lo n (yield_before drv).
Proof.
  cbn [yield_before drv_yield esp_flash_chip_generic]. unfold spi_flash_chip_generic_yield. destruct (os_check_yield os) eqn:E; [|apply keeps_ret].
  apply keeps_bind; [apply keeps_on_dev; intros d; by apply (oq_check OQ)|]. intros [err req].
  destruct err; try apply keeps_abort; try apply keeps_ret. destruct req; [|apply keeps_ret]. apply keeps_on_dev. apply (oq_yield OQ).
Qed.

Lemma keeps_flush lo n err acq a len : keeps lo n (flash_end_flush_cache host os err acq a len).
Proof.
  unfold flash_end_flush_cache.
  assert (Hf : keeps lo n match h_flush_cache host with
    | None => spiflash_end_default os err
    | Some flush => flush_err ← flush a len; spiflash_end_default os (if is_ok err then flush_err else err) end).
  { destruct (h_flush_cache host) eqn:E; [|apply keeps_end]. apply keeps_bind; [|intros; apply keeps_end].
    intros s _. by rewrite (ho_flush _ a len s E). }
  destruct (negb acq); [|done]. apply keeps_bind; [apply keeps_start|]. intros e. destruct (negb (is_ok e)); [apply keeps_ret|done].
Qed.

#[local] Hint Resolve keeps_start keeps_end keeps_yield keeps_flush keeps_ret keeps_abort keeps_assert keeps_gets : keeps.

Lemma keeps_write_chunks fuel direct bs a total : 0 <= a -> a + Z.of_nat (length bs) <= capacity D ->
  keeps a (Z.of_nat (length bs)) (write_chunks os fuel drv (spi_flash_chip_generic_write host) direct bs a total).
Proof.
  revert bs a. induction fuel as [|fuel IH]; intros bs a Ha Hc; [apply keeps_abort|]. cbn [write_chunks].
  set (w := Z.min _ _). assert (Hw : 0 <= w <= Z.of_nat (length bs)) by (unfold w, MAX_WRITE_CHUNK; destruct direct; lia).
  apply keeps_bind; [auto with keeps|]. intros e1. destruct (negb (is_ok e1)); [auto with keeps|].
  apply keeps_bind; [auto with keeps|]. intros e2. destruct (negb (is_ok e2)); [auto with keeps|].
  apply keeps_bind.
  { apply (keeps_sub _ _ a (Z.of_nat (length (take (Z.to_nat w) bs)))); [|lia|rewrite length_take; lia].
    apply (keeps_write_slices ctx host out HO); [done..|rewrite length_take; lia]. }
  intros e3. apply keeps_bind; [auto with keeps|]. intros _. destruct (_ || _); [auto with keeps|].
  apply keeps_bind; [auto with keeps|]. intros e4. destruct (negb (is_ok e4)); [auto with keeps|].
  rewrite u32_small by lia. apply (keeps_sub _ _ (a + w) (Z.of_nat (length (drop (Z.to_nat w) bs)))); [|lia|rewrite length_drop; lia].
  apply IH; [lia|rewrite length_drop; lia].
Qed.

Lemma check_write_spec a n k (s : F) r s' : CHECK_WRITE_ADDRESS os dangerous a n k s = RET r s' -> k s = RET r s' \/ r = ESP_ERR_INVALID_ARG /\ s' = s.
Proof. unfold CHECK_WRITE_ADDRESS. destruct dangerous, (os_region_protected os) as [p|]; auto; destruct (p a n); intros E; auto; by inversion E; auto. Qed.

Lemma write_only_addressed direct bs a (s : F) r s' : xts_enabled s = false -> chip_size s <= capacity D -> 0 <= a -> a + Z.of_nat (length bs) < 2 ^ 32 ->
  write direct (Some bs) a (Z.of_nat (length bs)) s = RET r s' -> frame a (Z.of_nat (length bs)) s s'.
Proof.
  intros Hx Hs Ha Hw E. cbn [esp_flash_write VERIFY_CHIP_OP chip_check drv_write esp_flash_chip_generic] in E.
  apply check_write_spec in E as [E|[-> ->]]; [|apply frame_refl]. rewrite (bind_RET _ _ _ (chip_size s) s) in E by done.
  rewrite u32_small in E by lia. revert E. destruct (_ || _) eqn:B; [intros [= <- <-]; apply frame_refl|]. zbool.
  zcase; [intros [= <- <-]; apply frame_refl|]. intros E.
  assert (K : keeps a (Z.of_nat (length bs)) (r ← write_chunks os (Z.to_nat (Z.of_nat (length bs))) drv (spi_flash_chip_generic_write host) direct bs a (Z.of_nat (length bs));
    match r with inl err => mret err | inr (err, acq) => flash_end_flush_cache host os err acq a (Z.of_nat (length bs)) end)).
  { apply keeps_bind; [apply keeps_write_chunks; lia|]. intros [e|[e acq]]; auto with keeps. }
  specialize (K s Hx). by rewrite E in K.
Qed.

Abbreviation erase_loop_ := (erase_loop os bypass_block_erase).
Abbreviation erase_sector := (spi_flash_chip_generic_erase_sector host no_erase_timeout).
Abbreviation erase_block := (spi_flash_chip_generic_erase_block host no_erase_timeout).

(** Whether a round erases a block. *)
Definition takes_block (a len : Z) : bool :=
  negb bypass_block_erase && (0 <? GENERIC_BLOCK_ERASE_SIZE) && (GENERIC_BLOCK_ERASE_SIZE <=? len) && (a mod GENERIC_BLOCK_ERASE_SIZE =? 0).

Definition round_size (a len : Z) : Z := if takes_block a len then GENERIC_BLOCK_ERASE_SIZE else GENERIC_SECTOR_SIZE.

Lemma round_size_spec a len : a mod 4096 = 0 -> len mod 4096 = 0 -> 0 < len -> let n := round_size a len in
  0 < n <= len /\ (a + n) mod 4096 = 0 /\ (len - n) mod 4096 = 0 /\
  (if takes_block a len then n = 65536 /\ a mod 65536 = 0 else n = 4096).
Proof.
  intros Ha Hl Hp. unfold round_size, takes_block, GENERIC_BLOCK_ERASE_SIZE, GENERIC_SECTOR_SIZE. change (64 * 1024) with 65536. change (4 * 1024) with 4096.
  destruct (_ && _) eqn:B; zbool; cbn zeta; split_and!; try lia; Z.to_euclidean_division_equations; lia.
Qed.

Lemma keeps_erase_round a len : 0 <= a -> a mod 4096 = 0 -> len mod 4096 = 0 -> 0 < len -> a + len <= capacity D ->
  keeps a len (if takes_block a len then erase_block a else erase_sector a).
Proof.
  intros Ha Hm Hl Hp Hc. destruct (round_size_spec a len Hm Hl Hp) as (Hn & _ & _ & B). cbn zeta in *.
  apply (keeps_sub _ _ a (round_size a len)); [|lia|lia]. destruct (takes_block a len).
  - destruct B as [B1 B2]. rewrite B1 in *. apply (keeps_generic_erase ctx host out HO), (keeps_block ctx host out HO); lia || done.
  - rewrite B in *. apply (keeps_generic_erase ctx host out HO), (keeps_sector ctx host out HO); lia || done.
Qed.

Lemma keeps_erase_loop fuel a len total : 0 <= a -> a mod 4096 = 0 -> len mod 4096 = 0 -> 0 < len -> a + len <= capacity D ->
  keeps a len (erase_loop_ fuel drv erase_sector erase_block GENERIC_BLOCK_ERASE_SIZE a len total).
Proof.
  revert a len. induction fuel as [|fuel IH]; intros a len Ha Hm Hl Hp Hc; [apply keeps_abort|]. cbn [erase_loop]. fold (takes_block a len).
  cbn [sector_size esp_flash_chip_generic]. change (if takes_block a len then GENERIC_BLOCK_ERASE_SIZE else GENERIC_SECTOR_SIZE) with (round_size a len).
  destruct (round_size_spec a len Hm Hl Hp) as (Hn & Hm' & Hl' & _). cbn zeta in *.
  apply keeps_bind; [auto with keeps|]. intros e1. destruct (negb (is_ok e1)); [auto with keeps|].
  apply keeps_bind; [auto with keeps|]. intros e2. destruct (negb (is_ok e2)); [auto with keeps|].
  apply keeps_bind; [by apply keeps_erase_round|]. intros e3. rewrite !u32_small by lia.
  apply keeps_bind; [auto with keeps|]. intros _. destruct (_ || _) eqn:Z0; [auto with keeps|]. zbool.
  apply keeps_bind; [auto with keeps|]. intros e4. destruct (negb (is_ok e4)); [auto with keeps|].
  apply (keeps_sub _ _ (a + round_size a len) (len - round_size a len)); [|lia|lia]. apply IH; lia || done.
Qed.

(** The checks of [esp_flash_erase_region] before the loop. *)
Lemma erase_region_spec a len (s : F) r s' : 0 <= a -> 0 <= len -> a + len < 2 ^ 32 -> erase_region a len s = RET r s' ->
  s' = s /\ (r = ESP_ERR_INVALID_ARG \/ r = ESP_OK /\ len = 0) \/
  a mod 4096 = 0 /\ len mod 4096 = 0 /\ 0 < len /\ a + len <= chip_size s /\
  (x ← erase_loop_ (Z.to_nat (len / 4096) + 1) drv erase_sector erase_block GENERIC_BLOCK_ERASE_SIZE a len len;
   match x with inl err => mret err | inr (err, acq) => flash_end_flush_cache host os err acq a len end) s = RET r s'.
Proof.
  intros Ha Hl Hw E. cbn [esp_flash_erase_region VERIFY_CHIP_OP chip_check drv_erase_sector drv_erase_block esp_flash_chip_generic] in E.
  apply check_write_spec in E as [E|[-> ->]]; [|left; auto]. rewrite (bind_RET _ _ _ (chip_size s) s) in E by done.
  cbn [sector_size block_erase_size esp_flash_chip_generic] in E. change (GENERIC_SECTOR_SIZE =? 0) with false in E.
  change (GENERIC_BLOCK_ERASE_SIZE mod GENERIC_SECTOR_SIZE =? 0) with true in E. change GENERIC_SECTOR_SIZE with 4096 in E. cbn [orb negb] in E.
  rewrite u32_small in E by lia. revert E. destruct ((chip_size s <? a) || _) eqn:B; [intros [= <- <-]; auto|]. zbool.
  destruct (negb (a mod 4096 =? 0) || _) eqn:B2; [intros [= <- <-]; auto|]. zbool.
  zcase; [intros [= <- <-]; auto|]. intros E. right. split_and!; try done; lia.
Qed.

Lemma erase_only_addressed a len (s : F) r s' : xts_enabled s = false -> chip_size s <= capacity D -> 0 <= a -> 0 <= len -> a + len < 2 ^ 32 ->
  erase_region a len s = RET r s' -> frame a len s s'.
Proof.
  intros Hx Hs Ha Hl Hw E. apply erase_region_spec in E as [[-> _]|(Hm & Hm' & Hp & Hc & E)]; [apply frame_refl| |lia..].
  assert (K : keeps a len (x ← erase_loop_ (Z.to_nat (len / 4096) + 1) drv erase_sector erase_block GENERIC_BLOCK_ERASE_SIZE a len len;
    match x with inl err => mret err | inr (err, acq) => flash_end_flush_cache host os err acq a len end)).
  { apply keeps_bind; [apply keeps_erase_loop; lia || done|]. intros [e|[e acq]]; auto with keeps. }
  specialize (K s Hx). by rewrite E in K.
Qed.


(** ** On an idle chip without protection *)

Hypothesis no_protection : unprotected D 0 (capacity D).

(** Nothing changed that matters. *)
Definition calm (s s' : F) : Prop := kept s s' /\ ready s' /\ forall x, cells_of s' x = cells_of s x.

Lemma calm_refl s : ready s -> calm s s.
Proof. intros Hr. by split. Qed.

Lemma calm_trans s1 s2 s3 : calm s1 s2 -> calm s2 s3 -> calm s1 s3.
Proof. intros (K1 & _ & X1) (K2 & R2 & X2). split; [by eapply kept_trans|]. split; [done|]. intros x. by rewrite X2. Qed.

Lemma calm_on_dev {A} (f : D -> A * D) (s : F) : ready s -> quiet (dev s) (f (dev s)).2 -> exists s', on_dev f s = RET (f (dev s)).1 s' /\ calm s s'.
Proof.
  intros [W B] (Qc & _ & Qw & _). unfold on_dev. destruct (f (dev s)) as [a d]. eexists. split; [done|]. destruct (Qw W).
  by split_and!.
Qed.

Lemma start_ok (s : F) : ready s -> exists e s', spiflash_start_default os s = RET e s' /\ calm s s' /\ (os_works -> e = ESP_OK).
Proof.
  intros Hr. unfold spiflash_start_default. destruct (os_start os) as [start|] eqn:E.
  - destruct (calm_on_dev start s Hr) as (s' & E' & C); [by apply (oq_start OQ)|]. eexists _, s'. split; [done|]. split; [done|]. intros W. by apply (ow_start W).
  - exists ESP_OK, s. split; [done|]. split; [by apply calm_refl|done].
Qed.

Lemma end_ok err (s : F) : ready s -> exists e s', spiflash_end_default os err s = RET e s' /\ calm s s' /\ (e = ESP_OK -> err = ESP_OK) /\ (os_works -> e = err).
Proof.
  intros Hr. unfold spiflash_end_default. destruct (os_end os) as [end_|] eqn:E.
  - destruct (calm_on_dev end_ s Hr) as (s' & E' & C); [by apply (oq_end OQ)|]. rewrite (bind_RET _ _ _ _ _ E'). eexists _, s'. split; [done|]. split; [done|].
    destruct (is_ok_spec err) as [->|]; split; try done. intros W. by apply (ow_end W).
  - exists err, s. split; [done|]. split; [by apply calm_refl|done].
Qed.

Lemma yield_ok (s : F) : ready s -> match yield_before drv s with RET e s' => calm s s' /\ (os_works -> e = ESP_OK) | ABORT => ~ os_works | RESTART _ => False end.
Proof.
  intros Hr. cbn [yield_before drv_yield esp_flash_chip_generic]. unfold spi_flash_chip_generic_yield.
  destruct (os_check_yield os) as [check|] eqn:E; [|split; [by apply calm_refl|done]].
  destruct (calm_on_dev (check false) s Hr) as (s1 & E1 & C1); [by apply (oq_check OQ)|]. rewrite (bind_RET _ _ _ _ _ E1).
  destruct (check false (dev s)) as [[e req] d] eqn:Ec. cbn [fst].
  assert (Hw : os_works -> e = ESP_OK \/ e = ESP_ERR_TIMEOUT) by (intros W; specialize (ow_check W check false (dev s) E); by rewrite Ec).
  destruct e; try (intros W; by destruct (Hw W)); [|by split].
  destruct req; [|by split]. destruct (calm_on_dev (os_yield os) s1) as (s2 & E2 & C2); [apply C1|apply (oq_yield OQ)|]. rewrite E2.
  split; [by eapply calm_trans|intros W; apply (ow_yield W)].
Qed.

Lemma flush_ok err acq a len (s : F) : ready s ->
  exists e s', flash_end_flush_cache host os err acq a len s = RET e s' /\ calm s s' /\ (e = ESP_OK -> err = ESP_OK) /\ (os_works -> e = err).
Proof.
  intros Hr. unfold flash_end_flush_cache.
  assert (Hf : forall s, ready s -> exists e s', match h_flush_cache host with
    | None => spiflash_end_default os err
    | Some flush => flush_err ← flush a len; spiflash_end_default os (if is_ok err then flush_err else err) end s = RET e s' /\ calm s s' /\ (e = ESP_OK -> err = ESP_OK) /\ (os_works -> e = err)).
  { intros s0 Hr0. destruct (h_flush_cache host) as [flush|] eqn:E; [|by apply end_ok].
    rewrite (bind_RET _ _ _ _ _ (ho_flush flush a len s0 E)). replace (if is_ok err then ESP_OK else err) with err by (by destruct err). by apply end_ok. }
  destruct (negb acq); [|by apply Hf]. destruct (start_ok s Hr) as (e1 & s1 & E1 & C1 & O1). rewrite (bind_RET _ _ _ _ _ E1).
  destruct (is_ok_spec e1) as [->|He]; cbn [negb].
  - destruct (Hf s1) as (e & s2 & E2 & C2 & O2); [apply C1|]. exists e, s2. split; [done|]. split; [by eapply calm_trans|done].
  - eexists _, s1. split; [done|]. split; [done|]. split; [by destruct (is_ok_spec err)|]. intros W. by specialize (O1 W).
Qed.

(** The outcome of an operation on [n] bytes in rounds: [effect k] describes the
    cells when the first [k] are done; all are if the result is [ESP_OK]. *)
Definition progress (effect : Z -> mem -> mem) (n : Z) (s : F) (code : option esp_err_t) (s' : F) : Prop :=
  kept s s' /\ ready s' /\ exists k, 0 <= k <= n /\ (forall x, cells_of s' x = effect k (cells_of s) x) /\ (code = Some ESP_OK -> k = n).

Definition loop_code (r : esp_err_t + esp_err_t * bool) : option esp_err_t := match r with inl e => Some e | inr (e, _) => Some e end.

Definition in_rounds (effect : Z -> mem -> mem) (n : Z) (s : F) (o : outcome F (esp_err_t + esp_err_t * bool)) : Prop :=
  match o with
  | RET r s' => progress effect n s (loop_code r) s' /\ (os_works -> r = inr (ESP_OK, true))
  | ABORT => ~ os_works
  | RESTART _ => False
  end.

Lemma progress_calm effect n s s1 code s' : (forall k m m' x, m x = m' x -> effect k m x = effect k m' x) ->
  calm s s1 -> progress effect n s1 code s' -> progress effect n s code s'.
Proof.
  intros He (K1 & _ & X1) (K & R & k & Hk & Hc & Ho). split; [by eapply kept_trans|]. split; [done|]. exists k. split_and!; try done; try apply Hk.
  intros x. rewrite Hc. by apply He.
Qed.

(** Nothing is done. *)
Lemma progress_none effect n s code s' : (forall m x, effect 0 m x = m x) -> 0 <= n -> code <> Some ESP_OK -> calm s s' -> progress effect n s code s'.
Proof.
  intros He Hn Hc (K & R & X). split; [done|]. split; [done|]. exists 0. split; [lia|]. split; [|done]. intros x. by rewrite He.
Qed.

(** One round, which does [w] bytes, and the rounds after it. *)
Lemma one_round effect n w (k : M F (esp_err_t + esp_err_t * bool)) (op : M F esp_err_t) (assertion : bool) (ea : esp_err_t -> esp_err_t) rest_effect (s : F) :
  ea ESP_OK = ESP_OK ->
  (forall m x, effect 0 m x = m x) -> (forall k m m' x, m x = m' x -> effect k m x = effect k m' x) ->
  (forall k m m' x, m x = m' x -> rest_effect k m x = rest_effect k m' x) ->
  (forall j m x, 0 <= j -> rest_effect j (effect w m) x = effect (w + j) m x) ->
  0 < w <= n -> assertion = true -> ready s ->
  (forall s1, calm s s1 -> exists s2, op s1 = RET ESP_OK s2 /\ kept s1 s2 /\ ready s2 /\ forall x, cells_of s2 x = effect w (cells_of s1) x) ->
  (forall s3, w < n -> kept s s3 -> ready s3 -> in_rounds rest_effect (n - w) s3 (k s3)) ->
  in_rounds effect n s ((err ← yield_before drv;
    if negb (is_ok err) then mret (inl err)
    else
      err ← spiflash_start_default os;
      if negb (is_ok err) then mret (inr (err, false))
      else
        err ← op;
        _ ← assert_ assertion;
        if negb (is_ok err) || (n - w =? 0) then mret (inr (err, true))
        else
          err ← spiflash_end_default os (ea err);
          if negb (is_ok err) then mret (inr (err, true)) else k) s).
Proof.
  intros Hea He0 He Hre Hadd Hw -> Hr Hop Hk. pose proof (yield_ok s Hr) as Y. unfold mbind at 1, M_bind at 1.
  destruct (yield_before drv s) as [e1 s1| |]; [|exact Y|done]. destruct Y as [C1 O1].
  destruct (is_ok_spec e1) as [->|Hne]; cbn [negb].
  2: { split; [apply progress_none; try done; [lia|cbn; congruence]|]. intros W. by specialize (O1 W). }
  destruct (start_ok s1) as (e2 & s2 & E2 & C2 & O2); [apply C1|]. rewrite (bind_RET _ _ _ _ _ E2). pose proof (calm_trans _ _ _ C1 C2) as C12.
  destruct (is_ok_spec e2) as [->|Hne]; cbn [negb].
  2: { split; [apply progress_none; try done; [lia|cbn; congruence]|]. intros W. by specialize (O2 W). }
  destruct (Hop s2 C12) as (s3 & E3 & K3 & R3 & X3). rewrite (bind_RET _ _ _ _ _ E3), (bind_RET (assert_ true) _ s3 tt s3) by done. cbn [is_ok negb orb].
  assert (Done : calm s s2 -> forall s4 code, calm s3 s4 -> (code = Some ESP_OK -> w = n) -> progress effect n s code s4).
  { intros (Kc & _ & Xc) s4 code (K4 & R4 & X4) Hc. split; [eapply kept_trans; [|exact K4]; by eapply kept_trans|]. split; [done|].
    exists w. split; [lia|]. split; [|done]. intros x. rewrite X4, X3. by apply He. }
  destruct (Z.eqb_spec (n - w) 0) as [Hz|Hz].
  { split; [|done]. apply (Done C12); [by apply calm_refl|]. intros _. lia. }
  rewrite Hea. destruct (end_ok ESP_OK s3 R3) as (e4 & s4 & E4 & C4 & O4 & V4). rewrite (bind_RET _ _ _ _ _ E4).
  destruct (is_ok_spec e4) as [->|Hne]; cbn [negb].
  2: { split; [apply (Done C12); [done|cbn; congruence]|]. intros W. by specialize (V4 W). }
  destruct C4 as (K4 & R4 & X4). specialize (Hk s4 ltac:(lia)). unfold in_rounds in Hk |- *.
  assert (Ks : kept s s4) by (eapply kept_trans; [apply C12|]; by eapply kept_trans). specialize (Hk Ks R4).
  destruct (k s4) as [r s5| |]; [|done|done]. destruct Hk as [(K5 & R5 & j & Hj & X5 & O5) V5]. split; [|done].
  split; [by eapply kept_trans|]. split; [done|]. exists (w + j). split; [lia|]. split; [|intros Hc; specialize (O5 Hc); lia].
  intros x. rewrite X5, <- Hadd by lia. apply Hre. rewrite X4, X3. apply He. apply C12.
Qed.

(** *** Writing *)

Abbreviation write_prefix a bs := (fun k m => program m a (take (Z.to_nat k) bs)).

Lemma program_nil m a x : program m a [] x = m x.
Proof. apply program_other. cbn. lia. Qed.

Lemma write_chunks_rounds fuel direct bs a total (s : F) : (length bs <= fuel)%nat -> bs <> [] -> 0 <= a -> a + Z.of_nat (length bs) <= capacity D ->
  Z.of_nat (length bs) <= total -> xts_enabled s = false -> ready s ->
  in_rounds (write_prefix a bs) (Z.of_nat (length bs)) s (write_chunks os fuel drv (spi_flash_chip_generic_write host) direct bs a total s).
Proof.
  revert bs a s. induction fuel as [|fuel IH]; intros bs a s Hf Hb Ha Hc Ht Hx Hr.
  { destruct bs; [done|cbn in Hf; lia]. }
  assert (Hn : 0 < Z.of_nat (length bs)) by (destruct bs; [done|cbn; lia]).
  cbn [write_chunks]. set (w := Z.min _ _). assert (Hw : 0 < w <= Z.of_nat (length bs)) by (unfold w, MAX_WRITE_CHUNK; destruct direct; lia).
  rewrite (u32_small (a + w)) by lia.
  apply (one_round (write_prefix a bs) _ w _ _ _ (fun e => e) (write_prefix (a + w) (drop (Z.to_nat w) bs))); try done.
  - intros m x. apply program_nil.
  - intros k m m' x E. by apply program_ext.
  - intros k m m' x E. by apply program_ext.
  - intros j m x Hj. replace w with (Z.of_nat (length (take (Z.to_nat w) bs))) at 2 by (rewrite length_take; lia).
    rewrite program_app. f_equal. rewrite take_take_drop. f_equal. lia.
  - apply Z.ltb_lt. lia.
  - intros s1 (K1 & R1 & X1). destruct (write_slices_ok ctx host out HO capacity_24 capacity_256 no_protection
      (length (take (Z.to_nat w) bs)) (take (Z.to_nat w) bs) a s1) as (s2 & E2 & K2 & R2 & X2); rewrite ?length_take; try lia; try done.
    + destruct K1 as (_ & _ & _ & -> & _). done.
    + exists s2. rewrite length_take in E2. unfold spi_flash_chip_generic_write. rewrite length_take. by split_and!.
  - intros s3 Hlt K3 R3. replace (Z.of_nat (length bs) - w) with (Z.of_nat (length (drop (Z.to_nat w) bs))) by (rewrite length_drop; lia).
    apply IH; rewrite ?length_drop; try lia; try done.
    + intros E. apply (f_equal length) in E. rewrite length_drop in E. cbn in E. lia.
    + destruct K3 as (_ & _ & _ & -> & _). done.
Qed.

(** A run of rounds followed by releasing the bus. *)
Lemma rounds_flush effect n a len (loop : M F (esp_err_t + esp_err_t * bool)) (s : F) : in_rounds effect n s (loop s) ->
  match (r ← loop; match r with inl err => mret err | inr (err, acq) => flash_end_flush_cache host os err acq a len end) s with
  | RET r s' => progress effect n s (Some r) s' /\ (os_works -> r = ESP_OK)
  | ABORT => ~ os_works
  | RESTART _ => False
  end.
Proof.
  unfold in_rounds, mbind, M_bind. destruct (loop s) as [r s1| |]; [|done|done]. intros [P O]. destruct r as [e|[e acq]].
  - split; [done|]. intros W. by specialize (O W).
  - destruct P as (K1 & R1 & k & Hk & X1 & V1). destruct (flush_ok e acq a len s1 R1) as (e' & s2 & -> & (K2 & R2 & X2) & O2 & V2).
    split; [|intros W; rewrite (V2 W); specialize (O W); congruence].
    split; [by eapply kept_trans|]. split; [done|]. exists k. split; [done|]. split; [intros x; by rewrite X2|].
    intros [= ->]. apply V1. cbn. f_equal. by apply O2.
Qed.

(** The address is not refused by the operating system. *)
Definition allowed (a n : Z) : Prop :=
  dangerous = DANGEROUS_WRITE_ALLOWED \/ forall protects, os_region_protected os = Some protects -> protects a n = false.

Lemma allowed_or_refused a n : allowed a n \/ forall k (s : F), CHECK_WRITE_ADDRESS os dangerous a n k s = RET ESP_ERR_INVALID_ARG s \/ CHECK_WRITE_ADDRESS os dangerous a n k s = ABORT.
Proof.
  unfold allowed, CHECK_WRITE_ADDRESS. destruct dangerous, (os_region_protected os) as [p|]; auto; try (left; right; congruence);
    destruct (p a n) eqn:E; auto; left; right; congruence.
Qed.

Lemma check_write_allowed a n k : allowed a n -> CHECK_WRITE_ADDRESS os dangerous a n k = k.
Proof.
  intros [->|Hp]; [done|]. unfold CHECK_WRITE_ADDRESS. destruct dangerous, (os_region_protected os) as [p|]; try done; by rewrite (Hp p).
Qed.

Lemma write_outcome direct bs a (s : F) :
  ready s -> xts_enabled s = false -> chip_size s = capacity D -> 0 <= a -> a + Z.of_nat (length bs) <= capacity D ->
  allowed a (Z.of_nat (length bs)) ->
  match write direct (Some bs) a (Z.of_nat (length bs)) s with
  | RET r s' => kept s s' /\ ready s' /\ (os_works -> r = ESP_OK) /\
      exists k, (forall x, cells_of s' x = program (cells_of s) a (take k bs) x) /\ (r = ESP_OK -> take k bs = bs)
  | ABORT => ~ os_works
  | RESTART _ => False
  end.
Proof.
  intros Hr Hx Hs Ha Hc Hal. cbn [esp_flash_write VERIFY_CHIP_OP chip_check drv_write esp_flash_chip_generic].
  rewrite check_write_allowed, (bind_RET _ _ _ (chip_size s) s), u32_small by (done || lia). rewrite Hs, !(proj2 (Z.ltb_ge _ _)) by lia. cbn [orb].
  destruct (Z.eqb_spec (Z.of_nat (length bs)) 0) as [Hz|Hz].
  { split_and!; try done; try apply Hr. exists 0%nat. split; [|by destruct bs]. intros x. by rewrite program_nil. }
  pose proof (rounds_flush (write_prefix a bs) (Z.of_nat (length bs)) a (Z.of_nat (length bs)) _ s
    (write_chunks_rounds (Z.to_nat (Z.of_nat (length bs))) direct bs a (Z.of_nat (length bs)) s ltac:(lia) ltac:(by intros ->) Ha Hc ltac:(lia) Hx Hr)) as R.
  match type of R with context [match ?o with RET _ _ => _ | ABORT => _ | RESTART _ => _ end] => destruct o as [r s'| |] end; [|done|done]. destruct R as [(K & Hr' & k & Hk & X & V) O]. split; [done|]. split; [done|].
  split; [done|]. exists (Z.to_nat k). split; [done|]. intros ->. rewrite V by done. rewrite take_ge by lia. done.
Qed.

(** *** Erasing *)

Lemma erase_mem_0 a m x : erase_mem a 0 m x = m x.
Proof. apply erase_mem_other. lia. Qed.

Lemma erase_mem_ext a k m m' x : m x = m' x -> erase_mem a k m x = erase_mem a k m' x.
Proof. intros E. unfold erase_mem. by rewrite E. Qed.

Lemma erase_mem_add a n k m x : 0 <= n -> 0 <= k -> erase_mem (a + n) k (erase_mem a n m) x = erase_mem a (n + k) m x.
Proof. intros. unfold erase_mem. repeat zcase; cbn; lia || done. Qed.

Lemma erase_round_ok a len (s : F) : 0 <= a -> a mod 4096 = 0 -> len mod 4096 = 0 -> 0 < len -> a + len <= capacity D -> ready s ->
  exists s', (if takes_block a len then erase_block a else erase_sector a) s = RET ESP_OK s' /\ kept s s' /\ ready s' /\
    forall x, cells_of s' x = erase_mem a (round_size a len) (cells_of s) x.
Proof.
  intros Ha Hm Hl Hp Hc Hr. destruct (round_size_spec a len Hm Hl Hp) as (Hn & _ & _ & B). cbn zeta in *. destruct (takes_block a len).
  - destruct B as [B1 B2]. rewrite B1 in *. destruct (erase_block_ok ctx host out HO capacity_24 no_erase_timeout a s) as (s' & E & R);
      try done; try lia; [apply (unprotected_sub no_protection); lia|]. exists s'. pose proof (at_rest_ready _ _ _ _ R). by destruct R as (K & _ & _ & _ & X).
  - rewrite B in *. destruct (erase_sector_ok ctx host out HO capacity_24 no_erase_timeout a s) as (s' & E & R);
      try done; try lia; [apply (unprotected_sub no_protection); lia|]. exists s'. pose proof (at_rest_ready _ _ _ _ R). by destruct R as (K & _ & _ & _ & X).
Qed.

Lemma erase_loop_rounds fuel a len total (s : F) : len <= 4096 * Z.of_nat fuel -> 0 <= a -> a mod 4096 = 0 -> len mod 4096 = 0 -> 0 < len -> a + len <= capacity D ->
  len <= total -> ready s ->
  in_rounds (erase_mem a) len s (erase_loop_ fuel drv erase_sector erase_block GENERIC_BLOCK_ERASE_SIZE a len total s).
Proof.
  revert a len s. induction fuel as [|fuel IH]; intros a len s Hf Ha Hm Hl Hp Hc Ht Hr; [lia|].
  cbn [erase_loop]. fold (takes_block a len). cbn [sector_size esp_flash_chip_generic].
  change (if takes_block a len then GENERIC_BLOCK_ERASE_SIZE else GENERIC_SECTOR_SIZE) with (round_size a len).
  destruct (round_size_spec a len Hm Hl Hp) as (Hn & Hm' & Hl' & B). cbn zeta in *. rewrite !u32_small by lia.
  apply (one_round (erase_mem a) _ (round_size a len) _ _ _ (fun _ => ESP_OK) (erase_mem (a + round_size a len))); try done.
  - intros; apply erase_mem_0.
  - intros; by apply erase_mem_ext.
  - intros; by apply erase_mem_ext.
  - intros. apply erase_mem_add; lia.
  - apply Z.ltb_lt. lia.
  - intros s1 (_ & R1 & _). by apply erase_round_ok.
  - intros s3 Hlt K3 R3. apply IH; try done; try lia. assert (4096 <= round_size a len) by (destruct (takes_block a len); lia). lia.
Qed.

Lemma erase_outcome a len (s : F) :
  ready s -> chip_size s = capacity D -> 0 <= a -> 0 <= len -> a + len <= capacity D -> a mod 4096 = 0 -> len mod 4096 = 0 -> allowed a len ->
  match erase_region a len s with
  | RET r s' => kept s s' /\ ready s' /\ (os_works -> r = ESP_OK) /\
      exists k, 0 <= k <= len /\ (forall x, cells_of s' x = erase_mem a k (cells_of s) x) /\ (r = ESP_OK -> k = len)
  | ABORT => ~ os_works
  | RESTART _ => False
  end.
Proof.
  intros Hr Hs Ha Hl Hc Hm Hm' Hal.
  cbn [esp_flash_erase_region VERIFY_CHIP_OP chip_check drv_erase_sector drv_erase_block esp_flash_chip_generic].
  rewrite check_write_allowed, (bind_RET _ _ _ (chip_size s) s) by done.
  cbn [sector_size block_erase_size esp_flash_chip_generic]. change (GENERIC_SECTOR_SIZE =? 0) with false.
  change (GENERIC_BLOCK_ERASE_SIZE mod GENERIC_SECTOR_SIZE =? 0) with true. change GENERIC_SECTOR_SIZE with 4096. cbn [orb negb].
  rewrite u32_small, Hs, !(proj2 (Z.ltb_ge _ _)), Hm, Hm' by lia. cbn [orb negb Z.eqb].
  destruct (Z.eqb_spec len 0) as [->|Hz].
  { split_and!; try done; try apply Hr. exists 0. split; [lia|]. split; [|done]. intros x. by rewrite erase_mem_0. }
  rewrite (bind_RET (check_protected_regions _ _ _ _) _ s ESP_OK s) by done. cbn [is_ok negb].
  pose proof (rounds_flush (erase_mem a) len a len _ s
    (erase_loop_rounds (Z.to_nat (len / 4096) + 1) a len len s ltac:(Z.to_euclidean_division_equations; lia) Ha Hm Hm' ltac:(lia) Hc ltac:(lia) Hr)) as R.
  match type of R with context [match ?o with RET _ _ => _ | ABORT => _ | RESTART _ => _ end] => destruct o as [r s'| |] end; [|done|done]. destruct R as [(K & Hr' & k & Hk & X & V) O]. split; [done|]. split; [done|].
  split; [done|]. exists k. split; [done|]. split; [done|]. intros ->. by apply V.
Qed.

(** *** Reading *)

Lemma io_mode_kept s s' : kept s s' -> io_mode_ok ctx s -> io_mode_ok ctx s'.
Proof. unfold io_mode_ok. intros (-> & _ & -> & _). done. Qed.

Lemma read_chunks_ok fuel chunk a len got (s : F) : 0 < chunk -> 0 < len -> (Z.to_nat len <= fuel)%nat -> 0 <= a -> a + len <= capacity D -> io_mode_ok ctx s -> ready s ->
  exists r s', read_chunks os fuel (spi_flash_chip_generic_read ctx host) chunk a len got s = RET r s' /\ calm s s' /\
    (r.1 = ESP_OK -> r.2 = got ++ read_bytes (cells_of s) a (Z.to_nat len)) /\ (os_works -> r.1 = ESP_OK).
Proof.
  intros Hk. revert a len got s. induction fuel as [|fuel IH]; intros a len got s Hl Hf Ha Hc Hm Hr; [lia|]. cbn [read_chunks].
  destruct (start_ok s Hr) as (e1 & s1 & E1 & C1 & O1). rewrite (bind_RET _ _ _ _ _ E1).
  destruct (is_ok_spec e1) as [->|Hne]; cbn [negb].
  2: { eexists _, s1. split; [done|]. split; [done|]. split; [done|]. done. }
  set (n := Z.min chunk len). destruct (chip_read_ok ctx host out HO capacity_24 capacity_256 a n s1) as (s2 & E2 & R2 & (Qc & _ & Qw & _)); try (unfold n; lia).
  { apply C1. } { by apply (io_mode_kept s); [apply C1|]. }
  rewrite (bind_RET _ _ _ _ _ E2). cbn [is_ok negb].
  assert (C2 : calm s s2).
  { eapply calm_trans; [exact C1|]. destruct C1 as (_ & (W1 & B1) & _). destruct (Qw W1) as [W2 _]. split; [by apply rest_kept|]. split; [|done].
    split; [done|]. destruct R2 as (_ & _ & -> & _). done. }
  destruct (end_ok ESP_OK s2) as (e3 & s3 & E3 & C3 & _ & V3); [apply C2|]. rewrite (bind_RET _ _ _ _ _ E3). pose proof (calm_trans _ _ _ C2 C3) as C23.
  rewrite (read_bytes_agree _ (cells_of s) a) by (intros x _; apply C1).
  rewrite (u32_small (len - n)) by (unfold n; lia). destruct (is_ok_spec e3) as [->|Hne]; cbn [andb].
  - destruct (Z.ltb_spec 0 (len - n)) as [Hlt|Hge].
    + rewrite u32_small by (unfold n; lia). destruct (IH (a + n) (len - n) (got ++ read_bytes (cells_of s) a (Z.to_nat n)) s3) as (r & s4 & E4 & C4 & O4 & V4); try (unfold n in *; lia).
      { by apply (io_mode_kept s); [apply C23|]. } { apply C3. }
      exists r, s4. split; [done|]. split; [by eapply calm_trans|]. split; [|done]. intros Hok. rewrite (O4 Hok), <- app_assoc. f_equal.
      replace (Z.to_nat len) with (Z.to_nat n + Z.to_nat (len - n))%nat by (unfold n; lia). rewrite read_bytes_app. f_equal.
      rewrite Z2Nat.id by (unfold n; lia). apply read_bytes_agree. intros x _. apply C23.
    + eexists _, s3. split; [done|]. split; [done|]. split; [|done]. intros _. cbn. do 2 f_equal. unfold n in *. lia.
  - eexists _, s3. split; [done|]. split; [done|]. split; [done|]. intros W. by specialize (V3 W).
Qed.

Lemma read_outcome direct a len (s : F) :
  ready s -> io_mode_ok ctx s -> chip_size s = capacity D -> 0 <= a -> 0 <= len -> a + len <= capacity D ->
  direct = true \/ (exists get, os_get_temp_buffer os = Some get /\ forall n, 0 < n -> exists k, get n = Some k /\ 0 < k) ->
  exists r s', read direct a len s = RET r s' /\ kept s s' /\ (forall x, cells_of s' x = cells_of s x) /\ ready s' /\
    (r.1 = ESP_OK -> r.2 = read_bytes (cells_of s) a (Z.to_nat len)) /\ (os_works -> r.1 = ESP_OK).
Proof.
  intros Hr Hm Hs Ha Hl Hc Hd. cbn [esp_flash_read chip_check drv_read esp_flash_chip_generic].
  rewrite (bind_RET _ _ _ (chip_size s) s), u32_small, Hs, !(proj2 (Z.ltb_ge _ _)) by (done || lia). cbn [orb].
  destruct (Z.eqb_spec len 0) as [->|Hz]; [by eexists _, s|].
  assert (Go : forall chunk, 0 < chunk -> exists r s', read_chunks os (Z.to_nat len) (spi_flash_chip_generic_read ctx host) chunk a len [] s = RET r s' /\
    kept s s' /\ (forall x, cells_of s' x = cells_of s x) /\ ready s' /\ (r.1 = ESP_OK -> r.2 = read_bytes (cells_of s) a (Z.to_nat len)) /\ (os_works -> r.1 = ESP_OK)).
  { intros chunk Hk. destruct (read_chunks_ok (Z.to_nat len) chunk a len [] s) as (r & s' & E & (K & R & X) & O & V); try done; try lia. by exists r, s'. }
  destruct direct; [apply Go; unfold MAX_READ_CHUNK; lia|]. destruct Hd as [|(get & -> & Hg)]; [done|].
  destruct (Hg (Z.min MAX_READ_CHUNK len)) as (k & -> & Hk); [unfold MAX_READ_CHUNK; lia|]. by apply Go.
Qed.

(** A range that does not lie in the chip is refused, unless its end overflows. *)
Lemma read_refused direct a len (s : F) : chip_size s = capacity D -> 0 <= a -> 0 <= len -> capacity D < a + len < 2 ^ 32 ->
  read direct a len s = RET (ESP_ERR_INVALID_ARG, []) s.
Proof.
  intros Hs Ha Hl Hc. cbn [esp_flash_read chip_check drv_read esp_flash_chip_generic].
  rewrite (bind_RET _ _ _ (chip_size s) s), u32_small, Hs by (done || lia). by rewrite (proj2 (Z.ltb_lt _ (a + len))), orb_true_r by lia.
Qed.

(** C13: On an initialised, idle and unprotected chip, esp_flash_write
    programs the data at their address, whatever pages they cross and whether
    addresses are made even, and nothing else: the cells become the bitwise
    and of the old contents and a prefix of the data, all of it when the call
    succeeds, which it does when the hooks of the operating system do; the
    chip is idle again. *)
Theorem flash_write_programs direct bs a (s : F) :
  ready s -> xts_enabled s = false -> chip_size s = capacity D -> 0 <= a -> a + Z.of_nat (length bs) <= capacity D ->
  allowed a (Z.of_nat (length bs)) ->
  match write direct (Some bs) a (Z.of_nat (length bs)) s with
  | RET r s' => kept s s' /\ ready s' /\ (os_works -> r = ESP_OK) /\
      exists k, (forall x, cells_of s' x = program (cells_of s) a (take k bs) x) /\ (r = ESP_OK -> take k bs = bs)
  | ABORT => ~ os_works
  | RESTART _ => False
  end.
Proof. apply write_outcome. Qed.


(** C16: On an initialised, idle chip, in every of the six reading modes that
    the host supports, esp_flash_read returns ESP_OK and exactly the bytes of
    a range of the chip, directly or through a temporary buffer, whatever
    transactions the range is cut into and whether addresses are made even,
    and refuses a range that leaves the chip with ESP_ERR_INVALID_ARG; it
    changes no cell and leaves the chip idle. The host sends each read command
    with the number of cycles between address and data that the chip needs for
    it, be they dummy cycles or, on the ESP32, part of the address phase: a
    chip is only assumed to answer in that case. It is assumed that the end of
    the range does not overflow 32 bits, that the hooks of the operating
    system succeed (otherwise an error may be returned, but a result ESP_OK
    still comes with the right bytes), that the chip has at most 16 MB in
    pages of 256 bytes, that chip and driver agree on the high performance
    mode, and that the extra cycles of the host are the delay of its input. *)
Theorem flash_read_returns direct a len (s : F) :
  ready s -> io_mode_ok ctx s -> chip_size s = capacity D -> 0 <= a -> 0 <= len -> a + len < 2 ^ 32 ->
  direct = true \/ (exists get, os_get_temp_buffer os = Some get /\ forall n, 0 < n -> exists k, get n = Some k /\ 0 < k) ->
  exists r s', read direct a len s = RET r s' /\ kept s s' /\ ready s' /\ (forall x, cells_of s' x = cells_of s x) /\
    (r.1 = ESP_OK -> a + len <= capacity D /\ r.2 = read_bytes (cells_of s) a (Z.to_nat len)) /\
    (os_works -> r.1 = if a + len <=? capacity D then ESP_OK else ESP_ERR_INVALID_ARG).
Proof.
  intros Hr Hm Hs Ha Hl Hw Hd. destruct (Z.leb_spec (a + len) (capacity D)).
  - destruct (read_outcome direct a len s) as (r & s' & E & K & X & R & O & V); try done. exists r, s'. split_and!; try done; [apply R..|]. auto.
  - rewrite read_refused by lia. eexists _, s. split; [reflexivity|]. split_and!; try done; apply Hr.
Qed.
End Theorems.

(** ** Examples *)

(** A chip of 1 MB whose operations take 100 microseconds, with no protected
    cells, on a host that makes lengths even, without hooks. *)
#[export] Instance xs_dev : SpiDev sim := sim_dev 0x100000 100 0x100000.
#[export] Instance xs_nor : SpiNor sim := sim_nor 0x100000 100 0x100000.
#[export] Instance xs_laws : SpiNorLaws sim.
Proof. apply sim_laws. done. Qed.

Definition xs_ctx : host_context := mkHost true 0 0 true true.
Definition no_hooks {D} : esp_flash_os_functions_t D := mkOs None None None None None (fun d => (ESP_OK, d)).

Lemma no_hooks_quiet {D} `{SpiNor D} : os_quiet no_hooks.
Proof. split; try done. intros d. apply quiet_refl. Qed.

Abbreviation xs_os := (no_hooks : esp_flash_os_functions_t sim).
Definition xs_flash (cells : mem) : flash_t sim := mkFlash SPI_FLASH_DIO 0x100000 false false 0 0 0 false None (mkSim cells 0 false).
Abbreviation xs_host := (esp_flash_gpspi_host xs_ctx : spi_flash_host_driver_t sim).

Lemma xs_host_ok : HostOk xs_ctx xs_host (fun _ _ bs => bs).
Proof. apply gpspi_host_ok. by left. Qed.

Lemma xs_capacity_24 : capacity sim <= 2 ^ 24.
Proof. cbn. lia. Qed.

Lemma xs_capacity_256 : capacity sim mod 256 = 0.
Proof. reflexivity. Qed.

Lemma xs_works : os_works xs_os.
Proof. by split. Qed.

Lemma xs_unprotected : unprotected sim 0 (capacity sim).
Proof. intros x Hx. cbn in *. unfold sim_protects. apply Z.leb_gt. lia. Qed.

(** Five bytes across the border of two pages. *)
Lemma flash_write_programs_witness : exists r s',
  esp_flash_write xs_host xs_os (Some (esp_flash_chip_generic xs_ctx xs_host xs_os false true 0)) DANGEROUS_WRITE_FAILS true (Some [1; 2; 3; 4; 5]) 0x10FD 5 (xs_flash (fun _ => 0xFF)) = RET r s' /\
  r = ESP_OK /\ read_bytes (cells (dev s')) 0x10FC 7 = [0xFF; 1; 2; 3; 4; 5; 0xFF].
Proof.
  pose proof (flash_write_programs xs_ctx xs_host _ xs_host_ok xs_os false true 0 DANGEROUS_WRITE_FAILS xs_capacity_24 xs_capacity_256 no_hooks_quiet xs_unprotected
    true [1; 2; 3; 4; 5] 0x10FD (xs_flash (fun _ => 0xFF)) ltac:(done) ltac:(done) ltac:(done) ltac:(done) ltac:(done) ltac:(by right)) as W.
  destruct (esp_flash_write _ _ _ _ _ _ _ _ _) as [r s'| |]; [|by destruct (W xs_works)|by destruct W].
  destruct W as (_ & _ & O & k & X & V). specialize (O xs_works). exists r, s'. split; [done|]. split; [done|]. rewrite (V O) in X.
  rewrite (read_bytes_agree _ (program (cells (dev (xs_flash (fun _ => 0xFF)))) 0x10FD [1; 2; 3; 4; 5])) by (intros x _; apply X). reflexivity.
Defined.


(** A protected chip: the upper half refuses. *)
Definition xs_protected : SpiDev sim := sim_dev 0x100000 100 0x80000.

Abbreviation xs_refused :=
  (@esp_flash_erase_region sim (esp_flash_gpspi_host (H := xs_protected) xs_ctx) xs_os
    (Some (esp_flash_chip_generic (H := xs_protected) xs_ctx (esp_flash_gpspi_host (H := xs_protected) xs_ctx) xs_os false true 0)) DANGEROUS_WRITE_FAILS false 0x7F000 0x2000 (xs_flash (fun _ => 7))).

Lemma xs_refused_returns : match xs_refused with RET r _ => r | _ => ESP_FAIL end = ESP_OK.
Proof. vm_compute. reflexivity. Qed.


(** An ESP32: the bits that follow the address are sent with it.  Reading 70
    bytes from an odd address, in two transactions. *)
Definition xs_esp32 : host_context := mkHost true 0 0 true false.

Lemma flash_read_returns_witness : exists s',
  esp_flash_read xs_os (Some (esp_flash_chip_generic xs_esp32 (esp_flash_gpspi_host xs_esp32) xs_os false true 0)) true 0x1001 70 (xs_flash (fun x => x mod 256)) =
    RET (ESP_OK, map Z.of_nat (seq 1 70)) s'.
Proof.
  destruct (flash_read_returns xs_esp32 (esp_flash_gpspi_host xs_esp32) _ (gpspi_host_ok xs_esp32 (or_introl eq_refl)) xs_os false true 0 xs_capacity_24 xs_capacity_256 no_hooks_quiet
    true 0x1001 70 (xs_flash (fun x => x mod 256)) ltac:(done) ltac:(by split_and!; [|left|..]) ltac:(done) ltac:(done) ltac:(done) ltac:(done) ltac:(by left))
    as ([e data] & s' & E & _ & _ & _ & O & V).
  exists s'. specialize (V xs_works). cbn [fst snd] in V, O. change (0x1001 + 70 <=? capacity sim) with true in V. cbv iota in V. subst e.
  destruct (O eq_refl) as [_ ->]. exact E.
Defined.
