(* ===== verification/SpiFlashXts.v ===== *)
(** * Writing encrypted flash

    [esp_flash_write_encrypted] cuts the data into rows that the encryption
    block of the chip takes at once, and the driver programs what the block has
    made of a row.  What arrives in flash is the encryption of the data. *)

From S2P Require Import Prelude CMem Flash SpiFlash SpiFlashApi SpiNor SpiFlashHost SpiFlashChip SpiFlashTheorems.

Section Xts.
Context {D : Type} `{SpiNorLaws D} (ctx : host_context) (xts : Z -> list Z -> list Z) (xts_other : Z -> list Z -> Z -> list Z -> list Z).
Context (os : esp_flash_os_functions_t D) (no_erase_timeout : bool) (chip_id : Z).
Hypothesis ctx_ok : multiline ctx = true \/ Z.land (base_io_mode ctx) 0xFFFF <= SPI_FLASH_FASTRD.
Hypothesis capacity_24 : capacity D <= 2 ^ 24.
Hypothesis no_protection : unprotected D 0 (capacity D).
Hypothesis OQ : os_quiet os.

(** The encryption block works on blocks of 16 bytes: their address and their
    contents determine the result. *)
Hypothesis xts_length : forall a bs, length (xts a bs) = length bs.
Hypothesis xts_blocks : forall a b1 b2, Z.of_nat (length b1) mod 16 = 0 -> xts a (b1 ++ b2) = xts a b1 ++ xts (a + Z.of_nat (length b1)) b2.

Abbreviation F := (flash_t D).
Abbreviation cells_of s := (cells (dev s)).
Abbreviation host := (esp_flash_default_host ctx xts xts_other (fun _ _ => mret ESP_OK)).
Abbreviation drv := (esp_flash_chip_generic ctx host os no_erase_timeout true chip_id).

Lemma HO : HostOk ctx host (sent_data xts xts_other).
Proof. by apply default_host_ok. Qed.

(** The sizes of rows. *)
Definition is_row (n a : Z) : Prop := (n = 16 \/ n = 32 \/ n = 64) /\ a mod n = 0.

Lemma row_slice n a : is_row n a -> 0 <= a -> a + n <= 2 ^ 24 -> memspi_host_write_data_slicer ctx a n GENERIC_PAGE_SIZE = (n, a).
Proof.
  intros [Hn Hm] Ha Hc. unfold memspi_host_write_data_slicer, dtr_align, GENERIC_PAGE_SIZE, SPI_FLASH_HAL_MAX_WRITE_BYTES.
  assert (a mod 2 = 0 /\ n mod 2 = 0) as [-> ->] by (split; destruct Hn as [->|[->| ->]]; done || (Z.to_euclidean_division_equations; lia)).
  replace (if slicer_dtr ctx then _ else (a, n)) with (a, n) by (by destruct (slicer_dtr ctx)).
  assert (a mod 256 + n <= 256) by (destruct Hn as [->|[->| ->]]; Z.to_euclidean_division_equations; lia).
  pose proof (Z.div_mod a 256 ltac:(lia)). rewrite (u32_small ((a / 256 + 1) * 256)), u32_small by (Z.to_euclidean_division_equations; lia).
  f_equal. lia.
Qed.

(** A row is programmed as the encryption of the prepared data. *)
Lemma write_row_ok bs a (s : F) : is_row (Z.of_nat (length bs)) a -> 0 <= a -> a + Z.of_nat (length bs) <= capacity D ->
  ready s -> xts_enabled s = true -> xts_block s = Some (a, bs) ->
  exists s', spi_flash_chip_generic_write host bs a s = RET ESP_OK s' /\ kept s s' /\ ready s' /\ forall x, cells_of s' x = program (cells_of s) a (xts a bs) x.
Proof.
  intros Hrow Ha Hc Hr Hon Hb. pose proof HO as Hho. assert (Hn : 16 <= Z.of_nat (length bs) <= 64) by (destruct Hrow; lia).
  unfold spi_flash_chip_generic_write. assert (exists k, length bs = S k) as [k Ek] by (destruct (length bs) as [|k]; [lia|by exists k]).
  rewrite Ek. cbn [write_slices is_ok andb h_write_data_slicer esp_flash_default_host]. set (N := Z.of_nat (length bs)) in *.
  rewrite (proj2 (Z.ltb_lt 0 N)), (row_slice N a Hrow) by lia. rewrite Z.sub_diag.
  replace (u32 0) with 0 by done. rewrite (u32_small (a + N)), Z.min_id, (u32_small (a + N - a)) by lia.
  replace (a + N - a) with N by lia. rewrite !(proj2 (Z.leb_le _ _)) by lia. rewrite (u32_small (a + N)) by lia.
  rewrite (bind_RET (assert_ _) _ s tt s) by done. change (replicate (Z.to_nat 0) 255) with (@nil Z). cbn [app].
  assert (Hl : Z.to_nat N = length bs) by lia. rewrite Hl, (take_ge bs (length bs)), take_app_length, (drop_ge bs (length bs)) by lia.
  destruct (set_write_protect_ready ctx host _ Hho false s Hr) as (s1 & E1 & R1). pose proof R1 as (K1 & B1 & W1 & L1 & C1). rewrite (bind_RET _ _ _ _ _ E1). cbn [is_ok].
  assert (Hx1 : sent_data xts xts_other s1 a bs = xts a bs).
  { destruct K1 as (_ & _ & _ & Ke & Kb). unfold sent_data. by rewrite Ke, Kb, Hon, Hb, Z.eqb_refl, Nat.eqb_refl. }
  destruct (page_program_ok ctx host _ Hho bs a a N (fun m => program m a (xts a bs)) s1) as (s2 & E2 & R2); try done.
  - intros s0 K0. exists CMD_PROGRAM_PAGE, a, (xts a bs). split.
    + rewrite <- Hx1. replace (sent_data xts xts_other s1 a bs) with (sent_data xts xts_other s0 a bs).
      * apply (ho_program (HostOk := Hho)); lia.
      * destruct K0 as (_ & _ & _ & Ke & Kb). unfold sent_data. by rewrite Ke, Kb.
    + unfold N. rewrite <- (xts_length a bs). apply program_operation; rewrite ?xts_length; [lia| |lia]. fold N. destruct Hrow as [Hn' Hm]. destruct Hn' as [->|[->| ->]]; Z.to_euclidean_division_equations; lia.
  - apply (unprotected_sub no_protection); lia.
  - pose proof R2 as (K2 & B2 & W2 & L2 & C2). rewrite (bind_RET _ _ _ _ _ E2). exists s2. split; [by destruct k|].
    split; [by eapply kept_trans|]. split; [done|]. intros x. rewrite C2. apply program_ext, C1.
Qed.

(** The structure of the chip, and that the encryption block is off. *)
Definition plain (s s' : F) : Prop := read_mode s' = read_mode s /\ chip_size s' = chip_size s /\ xts_enabled s' = false.

Lemma block_size_row n a : is_row n a ->
  (if (a mod 64 =? 0) && (64 <=? n) then 64 else if (a mod 32 =? 0) && (32 <=? n) then 32 else 16) = n.
Proof. intros [[->|[->| ->]] Hm]; rewrite ?Hm; cbn; by rewrite ?andb_false_r. Qed.

Lemma write_encrypted_row_ok bs a (s : F) : is_row (Z.of_nat (length bs)) a -> 0 <= a -> a + Z.of_nat (length bs) <= capacity D -> ready s ->
  exists s', spi_flash_chip_generic_write_encrypted host true bs a s = RET ESP_OK s' /\ plain s s' /\ ready s' /\
    forall x, cells_of s' x = program (cells_of s) a (xts a bs) x.
Proof.
  intros Hrow Ha Hc Hr. assert (Hn : 16 <= Z.of_nat (length bs) <= 64) by (destruct Hrow; lia).
  unfold spi_flash_chip_generic_write_encrypted. cbn [negb]. rewrite (proj2 Hrow). cbn [Z.eqb negb].
  set (s0 := set_xts true (xts_block s) s). rewrite (bind_RET flash_encryption_enable _ s tt s0) by done.
  assert (exists k, length bs = S k) as [k Ek] by (destruct (length bs) as [|k]; [lia|by exists k]). rewrite Ek.
  cbn [write_encrypted_blocks]. rewrite (proj2 (Z.ltb_lt 0 _)), (block_size_row _ a Hrow) by lia. rewrite Nat2Z.id, (take_ge bs), (drop_ge bs) by lia.
  set (s1 := set_xts true (Some (a, bs)) s0). rewrite (bind_RET (flash_encryption_data_prepare _ _) _ s0 tt s1) by done.
  destruct (set_write_protect_ready ctx host _ HO false s1) as (s2 & E2 & K2 & B2 & W2 & L2 & C2); [exact Hr|]. rewrite (bind_RET _ _ _ _ _ E2). cbn [is_ok negb].
  destruct (write_row_ok bs a s2) as (s3 & E3 & K3 & R3 & C3); [done|done|done|by split| | |].
  { by destruct K2 as (_ & _ & _ & -> & _). }
  { by destruct K2 as (_ & _ & _ & _ & ->). }
  rewrite (bind_RET _ _ _ _ _ E3). cbn [is_ok negb]. destruct R3 as [W3 B3].
  destruct (wait_idle_ready ctx host _ HO (page_program_timeout spi_flash_chip_generic_timeout) s3) as (s4 & E4 & K4 & B4 & W4 & L4 & C4); try done.
  rewrite B3 in E4. cbn [andb] in E4. rewrite (bind_RET _ _ _ _ _ E4). cbn [is_ok negb].
  rewrite (bind_RET flash_encryption_destroy _ s4 tt (set_xts (xts_enabled s4) None s4)) by done.
  replace (write_encrypted_blocks host k [] (u32 (a + Z.of_nat (length bs))) ESP_OK) with (_ ← flash_encryption_disable; mret ESP_OK : M F esp_err_t) by (by destruct k).
  eexists. split; [reflexivity|].
  assert (read_mode s4 = read_mode s /\ chip_size s4 = chip_size s) as [E5 E6].
  { destruct K4 as (-> & -> & _), K3 as (-> & -> & _), K2 as (-> & -> & _). done. }
  split; [by split_and!|]. split; [by split|]. intros x. cbn. rewrite C4. unfold id. rewrite C3. apply program_ext. by rewrite C2.
Qed.

(** The row that starts at an address with [left] bytes left. *)
Definition row_of (block_max a left : Z) : Z :=
  if (a mod 64 =? 0) && (64 <=? left) && (block_max =? 64) then 64 else if (a mod 32 =? 0) && (32 <=? left) then 32 else 16.

Lemma row_of_spec block_max a left : a mod 16 = 0 -> left mod 16 = 0 -> 0 < left ->
  is_row (row_of block_max a left) a /\ 16 <= row_of block_max a left <= left /\
  (a + row_of block_max a left) mod 16 = 0 /\ (left - row_of block_max a left) mod 16 = 0.
Proof.
  intros Ha Hl Hp. unfold row_of, is_row.
  assert (16 <= left) by (Z.to_euclidean_division_equations; lia).
  destruct (_ && _ && _) eqn:E1; [zbool|clear E1; destruct (_ && _) eqn:E2; [zbool|clear E2]];
    (split; [split; [lia|done]|]); split_and!; try lia; Z.to_euclidean_division_equations; lia.
Qed.

Lemma write_rows_ok fuel block_max bs a (s : F) : os_works os -> Z.of_nat (length bs) <= 16 * Z.of_nat fuel -> 0 <= a -> a mod 16 = 0 ->
  Z.of_nat (length bs) mod 16 = 0 -> a + Z.of_nat (length bs) <= capacity D -> ready s -> xts_enabled s = false ->
  exists s', write_rows os fuel drv block_max bs a ESP_OK s = RET ESP_OK s' /\ plain s s' /\ ready s' /\ forall x, cells_of s' x = program (cells_of s) a (xts a bs) x.
Proof.
  intros OW. revert bs a s. induction fuel as [|fuel IH]; intros bs a s Hf Ha Hm Hl Hc Hr Hx.
  { assert (bs = []) as -> by (destruct bs; [done|cbn in Hf; lia]). exists s. split; [done|]. split; [done|]. split; [done|].
    intros x. symmetry. apply program_other. rewrite xts_length. cbn. lia. }
  cbn [write_rows]. destruct (Z.ltb_spec 0 (Z.of_nat (length bs))) as [Hp|Hp].
  2: { assert (bs = []) as -> by (destruct bs; [done|cbn in Hp; lia]). exists s. split; [done|]. split; [done|]. split; [done|].
    intros x. symmetry. apply program_other. rewrite xts_length. cbn. lia. }
  fold (row_of block_max a (Z.of_nat (length bs))). destruct (row_of_spec block_max a _ Hm Hl Hp) as (Hrow & Hn & Hm' & Hl').
  set (n := row_of _ _ _) in *. assert (Hlt : length (take (Z.to_nat n) bs) = Z.to_nat n) by (rewrite length_take; lia).
  destruct (start_ok os OQ s Hr) as (e1 & s1 & E1 & C1 & O1). rewrite (bind_RET _ _ _ _ _ E1), (O1 OW). cbn [is_ok negb].
  destruct (write_encrypted_row_ok (take (Z.to_nat n) bs) a s1) as (s2 & E2 & P2 & R2 & X2); rewrite ?Hlt, ?Z2Nat.id by lia; try done; [lia|apply C1|].
  cbn [drv_write_encrypted esp_flash_chip_generic]. rewrite (bind_RET _ _ _ _ _ E2). cbn [is_ok negb].
  destruct (end_ok os OQ ESP_OK s2 R2) as (e3 & s3 & E3 & (K3 & R3 & X3) & _ & V3). rewrite (bind_RET _ _ _ _ _ E3), (V3 OW). cbn [is_ok negb].
  rewrite u32_small by lia.
  destruct (IH (drop (Z.to_nat n) bs) (a + n) s3) as (s4 & E4 & P4 & R4 & X4); rewrite ?length_drop; try lia; try done.
  { replace (Z.of_nat (length bs - Z.to_nat n)) with (Z.of_nat (length bs) - n) by lia. done. }
  { destruct K3 as (_ & _ & _ & -> & _). apply P2. }
  exists s4. split; [done|]. split; [|split; [done|]].
  - destruct P4 as (Q1 & Q2 & Q3), K3 as (Q4 & Q5 & _), P2 as (Q6 & Q7 & _), C1 as ((Q8 & Q9 & _) & _). split_and!; congruence.
  - intros x. rewrite X4. assert (Hx3 : cells_of s3 x = program (cells_of s) a (xts a (take (Z.to_nat n) bs)) x).
    { rewrite X3, X2. apply program_ext, C1. }
    rewrite (program_ext _ _ _ _ _ Hx3). rewrite <- (take_drop (Z.to_nat n) bs) at 3. rewrite xts_blocks, <- program_app, xts_length, Hlt, Z2Nat.id by (rewrite ?Hlt, ?Z2Nat.id; destruct Hrow as [[->|[->| ->]] _]; lia || done).
    done.
Qed.

Lemma write_encrypted_outcome block_max bs a (s : F) : os_works os -> 0 <= a -> a mod 16 = 0 -> Z.of_nat (length bs) mod 16 = 0 ->
  a + Z.of_nat (length bs) <= capacity D -> chip_size s = capacity D -> ready s -> xts_enabled s = false ->
  exists s', esp_flash_write_encrypted host os (Some drv) true block_max a (Some bs) (Z.of_nat (length bs)) s = RET ESP_OK s' /\ ready s' /\ xts_enabled s' = false /\
    forall x, cells_of s' x = program (cells_of s) a (xts a bs) x.
Proof.
  intros OW Ha Hm Hl Hc Hs Hr Hx. unfold esp_flash_write_encrypted, chip_check. cbn [negb].
  rewrite (bind_RET _ _ _ (chip_size s) s), u32_small, Hs, (proj2 (Z.ltb_ge _ _)), Hm by (done || lia). cbn [Z.eqb negb].
  destruct (Z.eqb_spec (Z.of_nat (length bs)) 0) as [Hz|Hz].
  { assert (bs = []) as -> by (destruct bs; [done|cbn in Hz; lia]). exists s. split; [done|]. split; [done|]. split; [done|].
    intros x. symmetry. apply program_other. rewrite xts_length. cbn. lia. }
  rewrite Hl. cbn [Z.eqb negb].
  destruct (write_rows_ok (Z.to_nat (Z.of_nat (length bs) / 16)) block_max bs a s) as (s1 & E1 & P1 & R1 & X1); try done.
  { Z.to_euclidean_division_equations; lia. }
  rewrite (bind_RET _ _ _ _ _ E1).
  destruct (flush_ok ctx host _ HO os OQ ESP_OK false a (Z.of_nat (length bs)) s1 R1) as (e & s2 & E2 & (K2 & R2 & X2) & _ & V2). rewrite (V2 OW) in E2.
  exists s2. split; [done|]. split; [done|]. split; [destruct K2 as (_ & _ & _ & -> & _); apply P1|]. intros x. by rewrite X2.
Qed.

(** Decrypting, which the cache does when it reads. *)
Context (decrypt : Z -> list Z -> list Z).
Hypothesis decrypt_xts : forall a bs, Forall is_byte bs -> decrypt a (xts a bs) = bs.
Hypothesis xts_bytes : forall a bs, Forall is_byte bs -> Forall is_byte (xts a bs).

End Xts.

(** A toy cipher: the bytes are combined with their address. *)
Fixpoint xs_xts (a : Z) (bs : list Z) : list Z :=
  match bs with [] => [] | b :: bs => Z.lxor b (u8 a) :: xs_xts (a + 1) bs end.

Lemma xs_xts_length a bs : length (xs_xts a bs) = length bs.
Proof. revert a. induction bs as [|b bs IH]; intros a; [done|]. cbn. by rewrite IH. Qed.

Lemma xs_xts_app a b1 b2 : xs_xts a (b1 ++ b2) = xs_xts a b1 ++ xs_xts (a + Z.of_nat (length b1)) b2.
Proof.
  revert a. induction b1 as [|b b1 IH]; intros a; cbn [xs_xts app length]; [by rewrite Z.add_0_r|]. rewrite IH.
  do 2 f_equal. replace (a + 1 + Z.of_nat (length b1)) with (a + Z.of_nat (S (length b1))) by lia. done.
Qed.

Lemma xs_xts_twice a bs : xs_xts a (xs_xts a bs) = bs.
Proof. revert a. induction bs as [|b bs IH]; intros a; [done|]. cbn. by rewrite Z.lxor_assoc, Z.lxor_nilpotent, Z.lxor_0_r, IH. Qed.

Lemma xs_xts_bytes a bs : Forall is_byte bs -> Forall is_byte (xs_xts a bs).
Proof.
  intros Hb. revert a. induction Hb as [|b bs Hb _ IH]; intros a; cbn; constructor; [|apply IH]. unfold is_byte in *. pose proof (u8_range a).
  assert (0 <= Z.lxor b (u8 a)) by (apply Z.lxor_nonneg; lia). split; [done|]. apply (lt_pow2_bits _ 8); [lia|done|].
  intros j Hj. rewrite Z.lxor_spec, (high_bits_zero b 8), (high_bits_zero (u8 a) 8) by lia. done.
Qed.

Definition xs_plain : list Z := map Z.of_nat (seq 0 48).

