(* ===== verification/SpiFlashFaults.v ===== *)
(** * The SPI flash driver: faults

    Calls of the driver that do not do what their documentation says. *)

From S2P Require Import Prelude CMem Flash SpiFlash SpiFlashApi SpiNor SpiFlashHost SpiFlashChip SpiFlashTheorems SpiFlashXts.

Section Faults.
Context (chip : SpiDev sim) (os : esp_flash_os_functions_t sim).

Definition xf_spi1 : spi_flash_host_driver_t sim := esp_flash_default_host xs_ctx xs_xts (fun _ _ _ bs => bs) (fun _ _ => mret ESP_OK).
Definition xf_drv : option (spi_flash_chip_t sim) := Some (esp_flash_chip_generic xs_ctx xf_spi1 os false true 0).
Definition xf_write (bs : list Z) (a : Z) : M (flash_t sim) esp_err_t :=
  esp_flash_write xf_spi1 os xf_drv DANGEROUS_WRITE_FAILS true (Some bs) a (Z.of_nat (length bs)).
Definition xf_erase (a n : Z) : M (flash_t sim) esp_err_t := esp_flash_erase_region xf_spi1 os xf_drv DANGEROUS_WRITE_FAILS false a n.
Definition xf_write_encrypted (bs : list Z) (a : Z) : M (flash_t sim) esp_err_t :=
  esp_flash_write_encrypted xf_spi1 os xf_drv true 64 a (Some bs) (Z.of_nat (length bs)).
End Faults.

Definition result {A B} (f : flash_t sim -> B) (o : outcome (flash_t sim) A) : option (A * B) :=
  match o with RET a s => Some (a, f s) | _ => None end.

Definition cell (x : Z) (s : flash_t sim) : Z := sim_cells (dev s) x.

(** A chip whose cells are all protected refuses to write; the refusal is
    found ([ESP_ERR_NOT_SUPPORTED]), but then replaced by the result of clearing
    the latch, and the caller gets [ESP_OK]. *)
Lemma refused_write_is_ok :
  result (cell 0x1000) (xf_write (sim_dev 0x100000 100 0) no_hooks [0] 0x1000 (xs_flash (fun _ => 0xFF))) = Some (ESP_OK, 0xFF).
Proof. vm_compute. reflexivity. Qed.

(** The same for erasing. *)
Lemma refused_erase_is_ok :
  result (cell 0x1000) (xf_erase (sim_dev 0x100000 100 0) no_hooks 0x1000 0x1000 (xs_flash (fun _ => 7))) = Some (ESP_OK, 7).
Proof. vm_compute. reflexivity. Qed.

(** A slow chip: the first erase times out.  A write then finds the latch still
    set by the erase, the erase ends, and the command is ignored: [ESP_OK],
    but the data are not written. *)
Lemma write_after_timeout_lost :
  let slow := sim_dev 0x100000 900000 0x100000 in
  result (cell 0x1000) ((e1 ← xf_erase slow no_hooks 0x1000 0x1000; e2 ← xf_write slow no_hooks [0] 0x1000; mret (e1, e2)) (xs_flash (fun _ => 7))) =
    Some (ESP_ERR_TIMEOUT, ESP_OK, 0xFF).
Proof. vm_compute. reflexivity. Qed.

(** The sum of address and length overflows: the range check passes, and the
    first sector is erased (the hook [end] then stops the loop). *)
Lemma erase_check_overflows :
  let os := mkOs None (Some (fun d => (ESP_ERR_TIMEOUT, d))) None None None (fun d => (ESP_OK, d)) in
  result (cell 0x1000) (xf_erase (sim_dev 0x100000 100 0x100000) os 0x1000 0xFFFFF000 (xs_flash (fun _ => 7))) = Some (ESP_ERR_TIMEOUT, 0xFF).
Proof. vm_compute. reflexivity. Qed.

(** An error of the driver while writing encrypted data ends the program: the
    flag [bus_acquired] is cleared just before it is asserted. *)
Lemma encrypted_error_aborts :
  xf_write_encrypted (sim_dev 0x100000 900000 0x100000) no_hooks (replicate 16 0) 0x1000 (xs_flash (fun _ => 0xFF)) = ABORT.
Proof. vm_compute. reflexivity. Qed.

(** On such an error the driver returns with the encryption block enabled. *)
Lemma encryption_stays_enabled :
  result xts_enabled (spi_flash_chip_generic_write_encrypted (H := sim_dev 0x100000 900000 0x100000)
    (xf_spi1 (sim_dev 0x100000 900000 0x100000)) true (replicate 16 0) 0x1000 (xs_flash (fun _ => 0xFF))) = Some (ESP_ERR_TIMEOUT, true).
Proof. vm_compute. reflexivity. Qed.
