(* ===== verification/OtaData.v ===== *)
(** * The OTA data entries

    [esp_ota_select_entry_t], its 32-byte flash format, and the functions of
    components/bootloader_support/src/bootloader_common_loader.c that decide
    which of the two copies counts.  *)

From S2P Require Import Prelude CMem Crc Flash.

(** ** Little-endian words *)

Definition le32 (v : Z) : list Z := [u8 v; u8 (v / 2 ^ 8); u8 (v / 2 ^ 16); u8 (v / 2 ^ 24)].
Definition get32 (bs : list Z) (i : nat) : Z :=
  nth i bs 0 + 2 ^ 8 * nth (i + 1) bs 0 + 2 ^ 16 * nth (i + 2) bs 0 + 2 ^ 24 * nth (i + 3) bs 0.
Definition get16 (bs : list Z) (i : nat) : Z := nth i bs 0 + 2 ^ 8 * nth (i + 1) bs 0.

Lemma le32_value v : 0 <= v < 2 ^ 32 ->
  u8 v + 2 ^ 8 * u8 (v / 2 ^ 8) + 2 ^ 16 * u8 (v / 2 ^ 16) + 2 ^ 24 * u8 (v / 2 ^ 24) = v.
Proof. intros. unfold u8. Z.to_euclidean_division_equations. lia. Qed.

Lemma get32_app pre v post : 0 <= v < 2 ^ 32 -> get32 (pre ++ le32 v ++ post) (length pre) = v.
Proof.
  intros Hv. unfold get32. etransitivity; [|apply (le32_value v Hv)].
  rewrite !(app_nth2 pre) by lia. rewrite Nat.sub_diag.
  replace (length pre + 1 - length pre)%nat with 1%nat by lia.
  replace (length pre + 2 - length pre)%nat with 2%nat by lia.
  replace (length pre + 3 - length pre)%nat with 3%nat by lia. done.
Qed.

(** ** The entries *)

Definition ESP_OTA_IMG_NEW : Z := 0.
Definition ESP_OTA_IMG_PENDING_VERIFY : Z := 1.
Definition ESP_OTA_IMG_VALID : Z := 2.
Definition ESP_OTA_IMG_INVALID : Z := 3.
Definition ESP_OTA_IMG_ABORTED : Z := 4.
Definition ESP_OTA_IMG_UNDEFINED : Z := 0xFFFFFFFF.

Record esp_ota_select_entry_t := mkSel {
  ota_seq : Z;
  seq_label : list Z;
  ota_state : Z;
  sel_crc : Z
}.

Definition SELECT_ENTRY_SIZE : nat := 32.

Definition encode_entry (s : esp_ota_select_entry_t) : list Z :=
  le32 (ota_seq s) ++ seq_label s ++ le32 (ota_state s) ++ le32 (sel_crc s).

Definition decode_entry (bs : list Z) : esp_ota_select_entry_t :=
  mkSel (get32 bs 0) (take 20 (drop 4 bs)) (get32 bs 24) (get32 bs 28).

(** The fields have their C types. *)
Record entry_ok (s : esp_ota_select_entry_t) : Prop := {
  eo_seq : is_u32 (ota_seq s);
  eo_label : length (seq_label s) = 20%nat;
  eo_state : is_u32 (ota_state s);
  eo_crc : is_u32 (sel_crc s)
}.

Lemma encode_length s : entry_ok s -> length (encode_entry s) = SELECT_ENTRY_SIZE.
Proof. intros []. unfold encode_entry. rewrite !length_app. simpl. by rewrite eo_label0. Qed.

Lemma decode_encode s : entry_ok s -> decode_entry (encode_entry s) = s.
Proof.
  intros [Hs Hl Ht Hc]. unfold decode_entry, encode_entry.
  assert (E0 : get32 (le32 (ota_seq s) ++ seq_label s ++ le32 (ota_state s) ++ le32 (sel_crc s)) 0 = ota_seq s)
    by by apply (get32_app []).
  assert (E1 : get32 (le32 (ota_seq s) ++ seq_label s ++ le32 (ota_state s) ++ le32 (sel_crc s)) 24 = ota_state s).
  { rewrite app_assoc. replace 24%nat with (length (le32 (ota_seq s) ++ seq_label s)) by (rewrite length_app, Hl; done).
    by apply get32_app. }
  assert (E2 : get32 (le32 (ota_seq s) ++ seq_label s ++ le32 (ota_state s) ++ le32 (sel_crc s)) 28 = sel_crc s).
  { rewrite !app_assoc. rewrite <- (app_nil_r (le32 (sel_crc s))).
    replace 28%nat with (length ((le32 (ota_seq s) ++ seq_label s) ++ le32 (ota_state s)))
      by (rewrite !length_app, Hl; done). by apply get32_app. }
  rewrite E0, E1, E2. rewrite (drop_app_length' (le32 (ota_seq s))) by done.
  rewrite (take_app_length' (seq_label s)) by done. by destruct s.
Qed.

(** ** Validity and selection (bootloader_common_loader.c) *)

(** [esp_rom_crc32_le(UINT32_MAX, &s->ota_seq, 4)] *)
Definition bootloader_common_ota_select_crc (s : esp_ota_select_entry_t) : Z :=
  esp_rom_crc32_le UINT32_MAX (le32 (ota_seq s)).

Definition bootloader_common_ota_select_invalid (s : esp_ota_select_entry_t) : bool :=
  (ota_seq s =? UINT32_MAX) || (ota_state s =? ESP_OTA_IMG_INVALID) || (ota_state s =? ESP_OTA_IMG_ABORTED).

Definition bootloader_common_ota_select_valid (s : esp_ota_select_entry_t) : bool :=
  eqb (bootloader_common_ota_select_invalid s) false && (sel_crc s =? bootloader_common_ota_select_crc s).

(** The index of the copy to use, [-1] for none. *)
Definition bootloader_common_select_otadata (two_otadata : esp_ota_select_entry_t * esp_ota_select_entry_t)
    (valid_two_otadata : bool * bool) (max : bool) : Z :=
  if fst valid_two_otadata && snd valid_two_otadata then
    let condition :=
      if max then Z.max (ota_seq (fst two_otadata)) (ota_seq (snd two_otadata))
      else Z.min (ota_seq (fst two_otadata)) (ota_seq (snd two_otadata)) in
    if condition =? ota_seq (fst two_otadata) then 0 else 1
  else if fst valid_two_otadata then 0
  else if snd valid_two_otadata then 1
  else -1.

Definition bootloader_common_get_active_otadata (two_otadata : esp_ota_select_entry_t * esp_ota_select_entry_t) : Z :=
  bootloader_common_select_otadata two_otadata
    (bootloader_common_ota_select_valid (fst two_otadata), bootloader_common_ota_select_valid (snd two_otadata)) true.

(** [two_otadata[i]], and the array with element [i] replaced. *)
Definition sel_get (t : esp_ota_select_entry_t * esp_ota_select_entry_t) (i : Z) : esp_ota_select_entry_t :=
  if i =? 0 then fst t else snd t.
Definition sel_set (t : esp_ota_select_entry_t * esp_ota_select_entry_t) (i : Z) (s : esp_ota_select_entry_t) :=
  if i =? 0 then (s, snd t) else (fst t, s).
Definition set_state (s : esp_ota_select_entry_t) (v : Z) := mkSel (ota_seq s) (seq_label s) v (sel_crc s).
Definition set_seq (s : esp_ota_select_entry_t) (v c : Z) := mkSel v (seq_label s) (ota_state s) c.

(** The active copy is valid and no valid copy has a larger sequence number. *)
Lemma active_spec t :
  let i := bootloader_common_get_active_otadata t in
  (i = -1 /\ forall j, j = 0 \/ j = 1 -> bootloader_common_ota_select_valid (sel_get t j) = false) \/
  ((i = 0 \/ i = 1) /\ bootloader_common_ota_select_valid (sel_get t i) = true /\
   forall j, j = 0 \/ j = 1 -> bootloader_common_ota_select_valid (sel_get t j) = true ->
     ota_seq (sel_get t j) <= ota_seq (sel_get t i)).
Proof.
  destruct t as [a b]. unfold bootloader_common_get_active_otadata, bootloader_common_select_otadata. cbn [fst snd].
  destruct (bootloader_common_ota_select_valid a) eqn:Ha, (bootloader_common_ota_select_valid b) eqn:Hb; cbn [andb].
  - right. destruct (Z.eqb_spec (Z.max (ota_seq a) (ota_seq b)) (ota_seq a)); unfold sel_get; simpl;
      (split_and!; [by auto|done|]); intros j [-> | ->] _; simpl; lia.
  - right. unfold sel_get. simpl. split_and!; [by auto|done|].
    intros j [-> | ->]; simpl; [lia|by rewrite Hb].
  - right. unfold sel_get. simpl. split_and!; [by auto|done|].
    intros j [-> | ->]; simpl; [by rewrite Ha|lia].
  - left. split; [done|]. intros j [-> | ->]; done.
Qed.

(** A valid copy whose number is larger than that of a valid other copy is
    the active one. *)
Lemma active_other t i s :
  i = 0 \/ i = 1 -> bootloader_common_ota_select_valid s = true ->
  (bootloader_common_ota_select_valid (sel_get t (1 - i)) = true -> ota_seq (sel_get t (1 - i)) < ota_seq s) ->
  bootloader_common_get_active_otadata (sel_set t i s) = i.
Proof.
  intros Hi Hv Hlt. destruct t as [a b].
  unfold bootloader_common_get_active_otadata, bootloader_common_select_otadata.
  destruct Hi as [-> | ->]; unfold sel_set, sel_get in *; simpl in *; rewrite Hv; simpl.
  - destruct (bootloader_common_ota_select_valid b); [|done]. specialize (Hlt eq_refl). simpl.
    destruct (Z.eqb_spec (Z.max (ota_seq s) (ota_seq b)) (ota_seq s)); [done|lia].
  - destruct (bootloader_common_ota_select_valid a); simpl; [|done]. specialize (Hlt eq_refl).
    destruct (Z.eqb_spec (Z.max (ota_seq a) (ota_seq s)) (ota_seq a)); [lia|done].
Qed.

(** ** The checksum *)

Lemma le32_bytes v : Forall is_byte (le32 v).
Proof. unfold le32. repeat constructor; apply u8_range. Qed.

Lemma le32_inj a b : is_u32 a -> is_u32 b -> le32 a = le32 b -> a = b.
Proof. intros Ha Hb E. rewrite <- (le32_value a Ha), <- (le32_value b Hb). unfold le32 in E. by injection E as -> -> -> ->. Qed.

Lemma select_crc_range s : is_u32 (bootloader_common_ota_select_crc s).
Proof. apply notw_range. lia. Qed.

(** An OTA data entry with a correct checksum becomes invalid when its
    sequence number alone is changed to any other value. *)
Theorem corrupted_seq_rejected s seq :
  is_u32 (ota_seq s) -> is_u32 seq -> seq <> ota_seq s ->
  sel_crc s = bootloader_common_ota_select_crc s ->
  bootloader_common_ota_select_valid (set_seq s seq (sel_crc s)) = false.
Proof.
  intros Hs Hq Hne Hc. unfold bootloader_common_ota_select_valid. apply andb_false_iff. right.
  apply Z.eqb_neq. cbn [set_seq sel_crc]. rewrite Hc. unfold bootloader_common_ota_select_crc. cbn [ota_seq].
  intros E. apply (crc32_bursts UINT32_MAX [] (le32 (ota_seq s)) (le32 seq) []).
  - rewrite !app_nil_l, app_nil_r. apply Forall_app. split; apply le32_bytes.
  - done.
  - done.
  - intros El. by apply Hne, eq_sym, le32_inj.
  - by rewrite !app_nil_l, !app_nil_r.
Qed.

(** A valid entry, and one whose number was changed. *)
Definition ex_sel : esp_ota_select_entry_t :=
  let e := mkSel 1 (repeat 0xFF 20) ESP_OTA_IMG_UNDEFINED 0 in set_seq e 1 (bootloader_common_ota_select_crc e).

Lemma corrupted_seq_rejected_witness :
  bootloader_common_ota_select_valid (set_seq ex_sel 3 (sel_crc ex_sel)) = false.
Proof.
  refine (corrupted_seq_rejected ex_sel 3 _ _ _ _).
  - vm_compute. split; [discriminate|reflexivity].
  - split; lia.
  - discriminate.
  - vm_compute. reflexivity.
Defined.

(** ** Entries read from flash *)

Lemma get32_range bs i : Forall is_byte bs -> (i + 4 <= length bs)%nat -> is_u32 (get32 bs i).
Proof.
  intros Hb Hl. unfold get32, is_u32.
  assert (B : forall j, (j < length bs)%nat -> 0 <= nth j bs 0 < 256).
  { intros j Hj. rewrite Forall_forall in Hb. apply Hb, nth_In. done. }
  pose proof (B i ltac:(lia)). pose proof (B (i + 1)%nat ltac:(lia)).
  pose proof (B (i + 2)%nat ltac:(lia)). pose proof (B (i + 3)%nat ltac:(lia)). lia.
Qed.

Lemma decode_ok bs : Forall is_byte bs -> length bs = SELECT_ENTRY_SIZE -> entry_ok (decode_entry bs).
Proof.
  intros Hb Hl. unfold SELECT_ENTRY_SIZE in *. split; cbn [decode_entry ota_seq seq_label ota_state sel_crc].
  - apply get32_range; [done|lia].
  - rewrite length_take, length_drop. lia.
  - apply get32_range; [done|lia].
  - apply get32_range; [done|lia].
Qed.

Lemma set_state_ok s v : entry_ok s -> is_u32 v -> entry_ok (set_state s v).
Proof. intros [] ?. by split. Qed.

Lemma sel_get_set t i s : i = 0 \/ i = 1 -> sel_get (sel_set t i s) i = s /\ sel_get (sel_set t i s) (1 - i) = sel_get t (1 - i).
Proof. intros [-> | ->]; done. Qed.

Section FlashEntries.
Context {F : Type} `{FlashLaws F}.

(** The two entries of an OTA data partition at [off], as the view [enc]
    shows them. *)
Definition entries (enc : bool) (off : Z) (f : F) : esp_ota_select_entry_t * esp_ota_select_entry_t :=
  (decode_entry (read_bytes (view enc f) off SELECT_ENTRY_SIZE),
   decode_entry (read_bytes (view enc f) (off + SPI_FLASH_SEC_SIZE) SELECT_ENTRY_SIZE)).

Lemma read_bytes_byte enc (f : F) a n : Forall is_byte (read_bytes (view enc f) a n).
Proof. revert a. induction n as [|n IH]; intros a; simpl; constructor; [apply law_byte|apply IH]. Qed.

Lemma entries_ok enc off f i : entry_ok (sel_get (entries enc off f) i).
Proof.
  unfold sel_get, entries. destruct (i =? 0); apply decode_ok;
    (apply read_bytes_byte || apply length_read_bytes).
Qed.

(** Entry [i] was replaced by [s]: erased sector, written entry. *)
Lemma entries_update enc off (f f' : F) i s : i = 0 \/ i = 1 -> entry_ok s ->
  only_changes (off + SPI_FLASH_SEC_SIZE * i) SPI_FLASH_SEC_SIZE f f' ->
  read_bytes (view enc f') (off + SPI_FLASH_SEC_SIZE * i) SELECT_ENTRY_SIZE = encode_entry s ->
  entries enc off f' = sel_set (entries enc off f) i s.
Proof.
  intros Hi Hs Hc Hr. unfold entries, sel_set, SPI_FLASH_SEC_SIZE, SELECT_ENTRY_SIZE in *.
  destruct Hi as [-> | ->]; cbn [Z.eqb fst snd].
  - change (4096 * 0) with 0 in *. rewrite Z.add_0_r in *. rewrite Hr, decode_encode by done.
    by rewrite (only_changes_read _ _ (off + 4096) 32 enc f f' Hc) by lia.
  - change (4096 * 1) with 4096 in *. rewrite Hr, decode_encode by done.
    by rewrite (only_changes_read _ _ off 32 enc f f' Hc) by lia.
Qed.
End FlashEntries.
