(* ===== verification/PartitionTable.v ===== *)
(** * The partition table

    [esp_partition_table_verify] of
    components/bootloader_support/src/flash_partitions.c on the raw table in
    memory, and a declarative description of the tables it accepts.  The MD5
    of the ROM is the parameter [md5]. *)

From S2P Require Import Prelude CMem Flash OtaData.

(** ** Entries *)

Definition ESP_PARTITION_MAGIC : Z := 0x50AA.
Definition ESP_PARTITION_MAGIC_MD5 : Z := 0xEBEB.
Definition PART_TYPE_APP : Z := 0x00.
Definition PART_SUBTYPE_FACTORY : Z := 0x00.
Definition PART_SUBTYPE_OTA_FLAG : Z := 0x10.
Definition PART_SUBTYPE_OTA_MASK : Z := 0x0f.
Definition PART_SUBTYPE_TEST : Z := 0x20.
Definition PART_TYPE_DATA : Z := 0x01.
Definition PART_SUBTYPE_DATA_OTA : Z := 0x00.
Definition PART_SUBTYPE_DATA_NVS_KEYS : Z := 0x04.
Definition PART_TYPE_END : Z := 0xff.
Definition PART_SUBTYPE_END : Z := 0xff.
Definition PART_FLAG_ENCRYPTED : Z := 1.
Definition ESP_PARTITION_MD5_OFFSET : Z := 16.
Definition PARTITION_INFO_SIZE : Z := 32.
Definition ESP_PARTITION_TABLE_MAX_LEN : Z := 0xC00.
Definition ESP_PARTITION_TABLE_MAX_ENTRIES : Z := ESP_PARTITION_TABLE_MAX_LEN / PARTITION_INFO_SIZE.

Record esp_partition_pos_t := mkPos { pos_offset : Z; pos_size : Z }.

Record esp_partition_info_t := mkInfo {
  pi_magic : Z;
  pi_type : Z;
  pi_subtype : Z;
  pi_pos : esp_partition_pos_t;
  pi_label : list Z;
  pi_flags : Z
}.

(** [&partition_table[i]] for a table at address [p], and its fields. *)
Definition entry_addr (p i : Z) : Z := p + i * PARTITION_INFO_SIZE.
Definition decode_info (bs : list Z) : esp_partition_info_t :=
  mkInfo (get16 bs 0) (nth 2 bs 0) (nth 3 bs 0) (mkPos (get32 bs 4) (get32 bs 8))
    (take 16 (drop 12 bs)) (get32 bs 28).
Definition info_at (m : mem) (p i : Z) : esp_partition_info_t :=
  decode_info (read_bytes m (entry_addr p i) (Z.to_nat PARTITION_INFO_SIZE)).

Section Verify.
Context (md5 : list Z -> list Z) (chip_size : Z).
Context (m : mem) (p : Z).

(** The digest stored in entry [i], and the one of the entries before it. *)
Definition stored_md5 (i : Z) : list Z := read_bytes m (entry_addr p i + ESP_PARTITION_MD5_OFFSET) 16.
Definition table_md5 (i : Z) : list Z := md5 (read_bytes m p (Z.to_nat (i * PARTITION_INFO_SIZE))).

(** Result: the error, and [*num_partitions]. *)
Fixpoint verify_loop (fuel : nat) (num_parts : Z) (md5_found : bool) : esp_err_t * Z :=
  match fuel with
  | O => (ESP_ERR_INVALID_STATE, 0)
  | S fuel =>
      let part := info_at m p num_parts in
      let pos := pi_pos part in
      if pi_magic part =? ESP_PARTITION_MAGIC then
        if (chip_size <? pos_offset pos) || (chip_size <? u32 (pos_offset pos + pos_size pos))
        then (ESP_ERR_INVALID_SIZE, 0)
        else verify_loop fuel (num_parts + 1) md5_found
      else if pi_magic part =? ESP_PARTITION_MAGIC_MD5 then
        if md5_found then (ESP_ERR_INVALID_STATE, 0)
        else if negb (bool_decide (stored_md5 num_parts = table_md5 num_parts))
        then (ESP_ERR_INVALID_STATE, 0)
        else verify_loop fuel (num_parts + 1) true
      else if (pi_magic part =? 0xFFFF) && (pi_type part =? PART_TYPE_END)
              && (pi_subtype part =? PART_SUBTYPE_END)
      then (ESP_OK, num_parts - (if md5_found then 1 else 0))
      else (ESP_ERR_INVALID_STATE, 0)
  end.

Definition esp_partition_table_verify : esp_err_t * Z :=
  verify_loop (Z.to_nat ESP_PARTITION_TABLE_MAX_ENTRIES) 0 false.

(** ** Accepted tables *)

Definition is_partition (i : Z) : Prop :=
  let part := info_at m p i in
  pi_magic part = ESP_PARTITION_MAGIC /\
  pos_offset (pi_pos part) <= chip_size /\
  u32 (pos_offset (pi_pos part) + pos_size (pi_pos part)) <= chip_size.

Definition is_md5 (i : Z) : Prop :=
  pi_magic (info_at m p i) = ESP_PARTITION_MAGIC_MD5 /\ stored_md5 i = table_md5 i.

Definition is_end (i : Z) : Prop :=
  let part := info_at m p i in
  pi_magic part = 0xFFFF /\ pi_type part = PART_TYPE_END /\ pi_subtype part = PART_SUBTYPE_END.

(** [k] entries and a terminator; at most one entry, [mi], is a checksum. *)
Definition accepted (k : Z) (mi : option Z) : Prop :=
  0 <= k < ESP_PARTITION_TABLE_MAX_ENTRIES /\ is_end k /\
  (forall i, mi = Some i -> 0 <= i < k /\ is_md5 i) /\
  (forall i, 0 <= i < k -> mi <> Some i -> is_partition i).

Definition md5_in (md5_found : bool) (mi : option Z) (j : Z) : Prop :=
  match mi with
  | Some i => if md5_found then False else j <= i
  | None => True
  end.

(** The rest of the table from entry [j] on. *)
Definition accepted_from (j : Z) (fuel : nat) (md5_found : bool) (k : Z) (mi : option Z) : Prop :=
  j <= k < j + Z.of_nat fuel /\ is_end k /\ md5_in md5_found mi j /\
  (forall i, mi = Some i -> j <= i < k /\ is_md5 i) /\
  (forall i, j <= i < k -> mi <> Some i -> is_partition i).

Lemma magic_distinct :
  ESP_PARTITION_MAGIC <> ESP_PARTITION_MAGIC_MD5 /\ ESP_PARTITION_MAGIC <> 0xFFFF /\ ESP_PARTITION_MAGIC_MD5 <> 0xFFFF.
Proof. done. Qed.

(** What the first entry of an accepted rest is. *)
Lemma accepted_from_step j fuel f k mi : accepted_from j (S fuel) f k mi <->
  (is_end j /\ k = j /\ mi = None) \/
  (is_partition j /\ accepted_from (j + 1) fuel f k mi) \/
  (is_md5 j /\ f = false /\ mi = Some j /\ accepted_from (j + 1) fuel true k None).
Proof.
  split.
  - intros (Hk & He & Hf & Hm & Hp). destruct (decide (k = j)) as [->|Hne].
    + left. split_and!; [done..|]. destruct mi as [i|]; [|done]. destruct (Hm i eq_refl). lia.
    + right. destruct (decide (mi = Some j)) as [->|Hmi].
      * right. destruct (Hm j eq_refl). simpl in Hf. destruct f; [done|]. split_and!; try done.
        split_and!; [lia..|done| |done|].
        -- done.
        -- intros i Hi _. apply Hp; [lia|]. intros [= ->]. lia.
      * left. split; [apply Hp; [lia|done]|]. split_and!; [lia..|done| | |].
        -- destruct mi as [i|]; [|done]. simpl in *. destruct f; [done|].
           destruct (decide (i = j)) as [->|]; [done|lia].
        -- intros i ->. destruct (Hm i eq_refl) as [Hi ?]. split; [|done].
           destruct (decide (i = j)) as [->|]; [done|lia].
        -- intros i Hi. apply Hp. lia.
  - intros [(He & -> & ->)|[(Hpj & Hk & He & Hf & Hm & Hp)|(Hmj & -> & -> & Hk & He & _ & Hm & Hp)]].
    + split_and!; try done; lia.
    + split_and!; try done; try lia.
      * destruct mi as [i|]; [|done]. simpl in *. destruct f; [done|lia].
      * intros i Hi. destruct (Hm i Hi). split; [lia|done].
      * intros i Hi Hne. destruct (decide (i = j)) as [->|]; [done|]. apply Hp; [lia|done].
    + split_and!; try done; try lia.
      * simpl. lia.
      * intros i [= <-]. split; [lia|done].
      * intros i Hi Hne. destruct (decide (i = j)) as [->|]; [done|]. apply Hp; [lia|done].
Qed.

Lemma verify_loop_ok fuel j f n : verify_loop fuel j f = (ESP_OK, n) <->
  exists k mi, accepted_from j fuel f k mi /\
    n = k - (if f || match mi with Some _ => true | None => false end then 1 else 0).
Proof.
  revert j f. induction fuel as [|fuel IH]; intros j f; cbn [verify_loop].
  { split; [done|]. intros (k & mi & [Hk _] & _). lia. }
  setoid_rewrite accepted_from_step. unfold is_partition, is_md5, is_end.
  destruct magic_distinct as (D1 & D2 & D3).
  destruct (Z.eqb_spec (pi_magic (info_at m p j)) ESP_PARTITION_MAGIC) as [Em|Em].
  - destruct (Z.ltb_spec chip_size (pos_offset (pi_pos (info_at m p j)))) as [|Ho];
      [|destruct (Z.ltb_spec chip_size (u32 (pos_offset (pi_pos (info_at m p j)) + pos_size (pi_pos (info_at m p j))))) as [|Hs]];
      cbn [orb andb negb]; cycle 2.
    + rewrite IH. split.
      * intros (k & mi & A & ->). exists k, mi. split; [|done]. right; left. done.
      * intros (k & mi & [((? & _) & _)|[[_ A]|[[? _] _]]] & E); [congruence| |congruence]. by exists k, mi.
    + split; [done|]. intros (k & mi & [((? & _) & _)|[[(_ & ? & _) _]|[[? _] _]]] & _); [congruence|lia|congruence].
    + split; [done|]. intros (k & mi & [((? & _) & _)|[[(_ & _ & ?) _]|[[? _] _]]] & _); [congruence|lia|congruence].
  - destruct (Z.eqb_spec (pi_magic (info_at m p j)) ESP_PARTITION_MAGIC_MD5) as [E5|E5].
    + destruct f; [|case_bool_decide as Hd; cbn [orb andb negb]].
      * split; [done|]. intros (k & mi & [((? & _) & _)|[[(? & _) _]|(_ & ? & _)]] & _); congruence.
      * rewrite IH. split.
        -- intros (k & mi & A & ->). destruct mi as [i|].
           ++ exfalso. by destruct A as (_ & _ & [] & _).
           ++ exists k, (Some j). split; [|done]. right; right. done.
        -- intros (k & mi & [((? & _) & _)|[[(? & _) _]|(_ & _ & -> & A)]] & E); [congruence..|].
           exists k, None. split; [done|]. by rewrite E.
      * split; [done|]. intros (k & mi & [((? & _) & _)|[[(? & _) _]|[[_ ?] _]]] & _); congruence.
    + destruct (Z.eqb_spec (pi_magic (info_at m p j)) 0xFFFF) as [Ef|Ef]; cbn [orb andb negb]; cycle 1.
      { split; [done|]. intros (k & mi & [((? & _) & _)|[[(? & _) _]|[[? _] _]]] & _); congruence. }
      destruct (Z.eqb_spec (pi_type (info_at m p j)) PART_TYPE_END) as [Et|Et]; cbn [orb andb negb]; cycle 1.
      { split; [done|]. intros (k & mi & [((_ & ? & _) & _)|[[(? & _) _]|[[? _] _]]] & _); congruence. }
      destruct (Z.eqb_spec (pi_subtype (info_at m p j)) PART_SUBTYPE_END) as [Es|Es]; cycle 1.
      { split; [done|]. intros (k & mi & [((_ & _ & ?) & _)|[[(? & _) _]|[[? _] _]]] & _); congruence. }
      split.
      * intros [= <-]. exists j, None. split; [by left|]. by rewrite orb_false_r.
      * intros (k & mi & [(_ & -> & ->)|[[(? & _) _]|[[? _] _]]] & ->); [|congruence..].
        by rewrite orb_false_r.
Qed.

Lemma md5_in_false mi : (forall i, mi = Some i -> 0 <= i) -> md5_in false mi 0.
Proof. destruct mi; simpl; auto. Qed.

Lemma partition_table_accepts n :
  esp_partition_table_verify = (ESP_OK, n) <->
  exists k mi, accepted k mi /\ n = k - match mi with Some _ => 1 | None => 0 end.
Proof.
  unfold esp_partition_table_verify. rewrite verify_loop_ok.
  split; intros (k & mi & A & ->); exists k, mi; (split; [|by destruct mi]).
  - destruct A as (Hk & He & _ & Hm & Hp). split_and!; try done; lia.
  - destruct A as (Hk & He & Hm & Hp). split_and!; try done; try lia.
    apply md5_in_false. intros i Hi. by destruct (Hm i Hi) as [[] _].
Qed.

(** C30: esp_partition_table_verify accepts a table with n partitions exactly
    when it consists of partition entries whose offset, and whose end computed
    modulo 2^32, are not beyond the end of the chip, at most one checksum
    entry with the digest of the entries before it, and a terminator within
    the table's maximal length. (An entry whose end overflows 32 bits is
    accepted, see the findings.) *)
Theorem partition_table_verify_spec n :
  esp_partition_table_verify = (ESP_OK, n) <->
  exists k mi, accepted k mi /\ n = k - match mi with Some _ => 1 | None => 0 end.
Proof. apply partition_table_accepts. Qed.
End Verify.

(** ** Tables the check should not accept *)

(** A table in memory, for examples. *)
Definition put (p : Z) (bs : list Z) (m : mem) : mem := memcpy m p bs.
Definition entry_bytes (magic type subtype offset size flags : Z) : list Z :=
  [u8 magic; u8 (magic / 2 ^ 8); type; subtype] ++ le32 offset ++ le32 size ++ repeat 0 16 ++ le32 flags.
Definition end_entry : list Z := repeat 0xFF 32.
Definition blank_flash : mem := fun _ => 0xFF.

(** [pos->offset + pos->size] is computed in 32 bits: a partition of almost
    4 GiB passes the check of a 4 MiB chip. *)
Lemma oversized_partition_accepted :
  let m := memcpy blank_flash 0x8000 (entry_bytes ESP_PARTITION_MAGIC PART_TYPE_APP 0 0x10000 0xFFFF1000 0) in
  esp_partition_table_verify (fun _ => []) 0x400000 m 0x8000 = (ESP_OK, 1) /\
  pos_offset (pi_pos (info_at m 0x8000 0)) + pos_size (pi_pos (info_at m 0x8000 0)) = 0x100001000.
Proof. vm_compute. done. Qed.

(** Entries behind the checksum entry are accepted without being covered by
    it, and the count then leaves the last of them out and takes the
    checksum entry for a partition. *)
Lemma entry_after_md5_accepted :
  let md5 := fun _ => repeat 0 16 in
  let m := memcpy (memcpy blank_flash 0x8000 ([0xEB; 0xEB] ++ repeat 0xFF 14 ++ repeat 0 16))
             0x8020 (entry_bytes ESP_PARTITION_MAGIC PART_TYPE_APP 0 0x10000 0x1000 0) in
  esp_partition_table_verify md5 0x400000 m 0x8000 = (ESP_OK, 1) /\
  pi_magic (info_at m 0x8000 0) = ESP_PARTITION_MAGIC_MD5.
Proof. vm_compute. done. Qed.
