(* ===== verification/SecureVersion.v ===== *)
(** * The anti-rollback counter in eFuse

    [esp_efuse_read_secure_version], [esp_efuse_check_secure_version] and
    [esp_efuse_update_secure_version] of components/efuse/src/esp_efuse_fields.c.
    The version is the number of bits set in an eFuse field; bits can only be
    set.  Access to the field is the interface [EfuseDev]. *)

From S2P Require Import Prelude Flash.

(** [ef_read e n] is the field, [n] bits; [ef_write e v n] programs the bits
    of [v]; [ef_size] is the size of the field in bits; [ef_scheme_none] says
    that the block has no coding scheme. *)
Class EfuseDev (E : Type) := {
  ef_size : E -> Z;
  ef_read : E -> Z -> Z;
  ef_write : E -> Z -> Z -> E;
  ef_scheme_none : E -> bool
}.

(** In a state that is [ok], programming bits that are not set sets them and
    clears none.  [EfuseVersion] shows that the eFuse API has these laws. *)
Class EfuseLaws (E : Type) `{EfuseDev E} (ok : E -> Prop) : Prop := {
  ef_read_range : forall e n, ok e -> 0 <= n <= ef_size e -> n <= 32 -> 0 <= ef_read e n < 2 ^ n;
  ef_write_read : forall e v n, ok e -> 0 <= n <= ef_size e -> n <= 32 -> 0 <= v < 2 ^ n -> Z.land (ef_read e n) v = 0 ->
    ok (ef_write e v n) /\ ef_read (ef_write e v n) n = Z.lor (ef_read e n) v;
  ef_write_size : forall e v n, ef_size (ef_write e v n) = ef_size e
}.

(** [__builtin_popcount] of a word of [n] bits. *)
Fixpoint popcount (n : nat) (x : Z) : Z :=
  match n with O => 0 | S n => (if Z.odd x then 1 else 0) + popcount n (Z.div2 x) end.

Section SecureVersion.
Context {E : Type} `{EfuseDev E}.
(** [APP_SEC_VER_SIZE_EFUSE_FIELD]. *)
Context (app_sec_ver_size : Z).

Definition sec_ver_size (e : E) : Z := Z.min app_sec_ver_size (ef_size e).

Definition esp_efuse_read_secure_version (e : E) : Z :=
  let size := sec_ver_size e in
  popcount 32 (Z.land (ef_read e size) (2 ^ size - 1)).

Definition esp_efuse_check_secure_version (e : E) (secure_version : Z) : bool :=
  esp_efuse_read_secure_version e <=? secure_version.

Definition esp_efuse_update_secure_version (e : E) (secure_version : Z) : esp_err_t * E :=
  let size := sec_ver_size e in
  if size <? secure_version then (ESP_ERR_INVALID_ARG, e)
  else if negb (ef_scheme_none e) then (ESP_ERR_NOT_SUPPORTED, e)
  else
    let sec_ver_hw := esp_efuse_read_secure_version e in
    if sec_ver_hw <? secure_version then
      let num_bit_hw := u32 (2 ^ sec_ver_hw - 1) in
      let num_bit_app := u32 (2 ^ secure_version - 1) in
      let new_bits := u32 (num_bit_app - num_bit_hw) in
      (ESP_OK, ef_write e new_bits size)
    else if secure_version <? sec_ver_hw then (ESP_FAIL, e)
    else (ESP_OK, e).
End SecureVersion.

(** ** Counting bits *)

Lemma popcount_ones n k : 0 <= k <= Z.of_nat n -> popcount n (Z.ones k) = k.
Proof.
  revert k. induction n as [|n IH]; intros k Hk; [simpl; lia|]. cbn [popcount].
  destruct (decide (k = 0)) as [->|]; [pose proof (IH 0) as I0; change (Z.ones 0) with 0 in *; simpl; lia|].
  rewrite <- Z.bit0_odd, Z.ones_spec_low, Z.div2_spec by lia.
  assert (Z.shiftr (Z.ones k) 1 = Z.ones (k - 1)) as ->.
  { apply Z.bits_inj'. intros j Hj. rewrite Z.shiftr_spec, !Z.testbit_ones_nonneg by lia. repeat zcase; lia. }
  rewrite IH by lia. lia.
Qed.

(** More bits count for more. *)
Lemma popcount_mono n x y : (forall j, Z.testbit x j = true -> Z.testbit y j = true) -> popcount n x <= popcount n y.
Proof.
  revert x y. induction n as [|n IH]; intros x y Hb; cbn [popcount]; [lia|].
  assert (popcount n (Z.div2 x) <= popcount n (Z.div2 y)).
  { apply IH. intros j. destruct (Z.ltb_spec j 0); [by rewrite !Z.testbit_neg_r by lia|].
    rewrite !Z.div2_spec, !Z.shiftr_spec by lia. apply Hb. }
  pose proof (Hb 0) as H0. rewrite !Z.bit0_odd in H0. destruct (Z.odd x); [rewrite H0 by done; lia|].
  destruct (Z.odd y); lia.
Qed.

Section Properties.
Context {E : Type} {ok : E -> Prop} `{EfuseLaws E ok} (app_sec_ver_size : Z).
Abbreviation size := (sec_ver_size app_sec_ver_size).
Abbreviation version := (esp_efuse_read_secure_version app_sec_ver_size).

(** The field is a row of ones from bit 0, as this code leaves it. *)
Definition thermometer (e : E) : Prop :=
  ok e /\ 0 <= size e <= 32 /\ exists v, 0 <= v <= size e /\ ef_read e (size e) = Z.ones v.

Lemma size_le e : size e <= ef_size e.
Proof. unfold sec_ver_size. lia. Qed.

Lemma land_size e : ok e -> 0 <= size e <= 32 -> Z.land (ef_read e (size e)) (2 ^ size e - 1) = ef_read e (size e).
Proof.
  intros Ho Hs. pose proof (size_le e). replace (2 ^ size e - 1) with (Z.ones (size e)) by (rewrite Z.ones_equiv; lia).
  rewrite Z.land_ones by lia. apply Z.mod_small, ef_read_range; [done|lia|lia].
Qed.

Lemma thermometer_version e v : ok e -> 0 <= size e <= 32 -> 0 <= v <= size e ->
  ef_read e (size e) = Z.ones v -> version e = v.
Proof.
  intros Ho Hs Hv Er. unfold esp_efuse_read_secure_version. rewrite land_size, Er by (done || lia). apply popcount_ones. lia.
Qed.

Lemma new_bits_shift a b : 0 <= a <= b -> Z.ones b - Z.ones a = Z.shiftl (Z.ones (b - a)) a.
Proof.
  intros Hab. rewrite Z.shiftl_mul_pow2, !Z.ones_equiv by lia.
  replace (2 ^ b) with (2 ^ (b - a) * 2 ^ a) by (rewrite <- Z.pow_add_r by lia; f_equal; lia). lia.
Qed.

(** The new bits are not set yet. *)
Lemma new_bits_land a b : 0 <= a <= b -> Z.land (Z.ones a) (Z.ones b - Z.ones a) = 0.
Proof.
  intros Hab. rewrite new_bits_shift by lia. apply Z.bits_inj'. intros j Hj. rewrite Z.land_spec, Z.testbit_0_l, Z.testbit_ones_nonneg by lia.
  destruct (Z.ltb_spec j a); [|done]. by rewrite Z.shiftl_spec_low by lia.
Qed.

Lemma new_bits_lor a b : 0 <= a <= b -> Z.lor (Z.ones a) (Z.ones b - Z.ones a) = Z.ones b.
Proof.
  intros Hab. rewrite new_bits_shift by lia. apply Z.bits_inj'. intros j Hj. rewrite Z.lor_spec.
  destruct (Z.ltb_spec j a).
  - rewrite Z.shiftl_spec_low, !Z.testbit_ones_nonneg by lia. repeat zcase; lia.
  - rewrite Z.shiftl_spec_high, !Z.testbit_ones_nonneg by lia. repeat zcase; simpl; lia.
Qed.

(** Updating the secure version in eFuse raises it to the requested
    version, never lowers it, reports a lower request as a failure, keeps the
    unary encoding, and rejects versions the field cannot hold. *)
Lemma secure_version_update e secure_version :
  thermometer e -> ef_scheme_none e = true -> 0 <= secure_version ->
  let res := esp_efuse_update_secure_version app_sec_ver_size e secure_version in
  (secure_version <= size e ->
     res.1 = (if version e <=? secure_version then ESP_OK else ESP_FAIL) /\
     version res.2 = Z.max (version e) secure_version /\ thermometer res.2) /\
  (size e < secure_version -> res = (ESP_ERR_INVALID_ARG, e)).
Proof.
  intros (Ho & Hs & v & Hv & Er) Hn Hsv res. subst res.
  pose proof (thermometer_version e v Ho Hs Hv Er) as Ev. pose proof (size_le e).
  unfold esp_efuse_update_secure_version. rewrite Hn, Ev. simpl.
  destruct (Z.ltb_spec (size e) secure_version); [split; [lia|done]|]. split; [intros _|lia].
  destruct (Z.ltb_spec v secure_version).
  - rewrite (proj2 (Z.leb_le _ _)) by lia. cbn [fst snd].
    assert (P : forall k, 0 <= k <= 32 -> 2 ^ k - 1 = Z.ones k /\ u32 (2 ^ k - 1) = 2 ^ k - 1).
    { intros k Hk. rewrite Z.ones_equiv. split; [lia|]. apply u32_small.
      assert (2 ^ 0 <= 2 ^ k <= 2 ^ 32) by (split; apply Z.pow_le_mono_r; lia). lia. }
    destruct (P v) as [Pv ->]; [lia|]. destruct (P secure_version) as [Ps ->]; [lia|].
    assert (2 ^ v <= 2 ^ secure_version) by (apply Z.pow_le_mono_r; lia).
    assert (2 ^ secure_version <= 2 ^ size e) by (apply Z.pow_le_mono_r; lia).
    assert (2 ^ size e <= 2 ^ 32) by (apply Z.pow_le_mono_r; lia).
    assert (0 < 2 ^ v) by (apply Z.pow_pos_nonneg; lia).
    rewrite u32_small by lia. set (e' := ef_write e _ _).
    destruct (ef_write_read e (2 ^ secure_version - 1 - (2 ^ v - 1)) (size e)) as [Ho' Ew]; [done|lia|lia|lia| |].
    { rewrite Er, Ps, Pv. apply new_bits_land. lia. }
    fold e' in Ho'.
    assert (Es : size e' = size e) by (unfold sec_ver_size, e'; by rewrite ef_write_size).
    assert (Er' : ef_read e' (size e') = Z.ones secure_version).
    { rewrite Es. unfold e'. rewrite Ew, Er, Ps, Pv. apply new_bits_lor. lia. }
    split_and!; [done| |].
    + rewrite (thermometer_version e' secure_version Ho' ltac:(lia) ltac:(lia) Er'). lia.
    + split; [done|]. split; [lia|]. exists secure_version. split; [lia|done].
  - destruct (Z.ltb_spec secure_version v); cbn [fst snd].
    + rewrite (proj2 (Z.leb_gt _ _)), Ev by lia. split_and!; [done|lia|]. split; [done|]. split; [lia|]. by exists v.
    + rewrite (proj2 (Z.leb_le _ _)), Ev by lia. split_and!; [done|lia|]. split; [done|]. split; [lia|]. by exists v.
Qed.
End Properties.

(** ** An instance: a field of 32 fuses *)

#[export] Instance fuses32 : EfuseDev Z := {|
  ef_size _ := 32;
  ef_read e n := e mod 2 ^ n;
  ef_write e v n := Z.lor e (v mod 2 ^ n);
  ef_scheme_none _ := true
|}.
