(* ===== verification/Efuse.v ===== *)
(** * eFuses

    components/efuse/src/esp_efuse_api.c and esp_efuse_utility.c, with the
    functions of esp32c3/esp_efuse_utility.c they call: fields of one-time
    programmable bits are read and counted, staged in write registers, and
    burned, at once or at the end of a batch.  The coding schemes are those of
    the chips with Reed-Solomon coding.  The controller that burns a block is
    a parameter.

    Reading takes no lock: it is repeated when a counter shows that another
    task was burning meanwhile.  What other tasks do is [ef_env]: the steps
    they take before each of the next accesses of a reader to the registers or
    the counter, increments of the counter and loads of registers in any
    order.  Writing takes a recursive lock, so no other task burns
    meanwhile. *)

From S2P Require Import Prelude Flash SecureVersion.

(** ** Data *)

Inductive esp_efuse_coding_scheme_t := EFUSE_CODING_SCHEME_NONE | EFUSE_CODING_SCHEME_RS.

#[export] Instance scheme_eq_dec : EqDecision esp_efuse_coding_scheme_t.
Proof. solve_decision. Defined.

Record esp_efuse_desc_t := mkDesc { efuse_block : Z; bit_start : Z; bit_count : Z }.

(** Registers, by block and number. *)
Definition regs : Type := Z -> Z -> Z.

Record efuse_chip := mkEfuseChip {
  EFUSE_BLK_MAX : Z;
  rd_regs : Z -> Z; (* registers in [range_read_addr_blocks] *)
  wr_regs : Z -> Z; (* registers in [range_write_addr_blocks] *)
  CONFIG_EFUSE_VIRTUAL : bool;
  hal_reload : regs -> regs (* the read registers after the controller's read command *)
}.

(** The tables of esp32c3/esp_efuse_utility.c: the blocks 0 and 1 have 6
    registers, the others 8; reading the eFuses again shows the same. *)
Definition esp32c3_efuse (virtual : bool) : efuse_chip :=
  let range blk := if blk <=? 1 then 6 else 8 in mkEfuseChip 11 range range virtual (fun r => r).

(** Another task increments the counter, or a read register of a block gets
    a value, by a burn or because the controller reads the eFuses again. *)
Inductive env_step := Count | Load (blk reg v : Z).

Record efuse := mkEfuse {
  ef_blocks : regs; (* [virt_blocks], or the read registers *)
  ef_wdata : regs; (* the write registers *)
  s_burn_counter : Z;
  s_batch_writing_mode : Z;
  s_efuse_lock : Z; (* how often this task holds it *)
  ef_env : list (list env_step)
}.

Definition set_blocks (b : regs) (s : efuse) : efuse :=
  mkEfuse b (ef_wdata s) (s_burn_counter s) (s_batch_writing_mode s) (s_efuse_lock s) (ef_env s).
Definition set_wdata (w : regs) (s : efuse) : efuse :=
  mkEfuse (ef_blocks s) w (s_burn_counter s) (s_batch_writing_mode s) (s_efuse_lock s) (ef_env s).
Definition set_burn_counter (c : Z) (s : efuse) : efuse :=
  mkEfuse (ef_blocks s) (ef_wdata s) c (s_batch_writing_mode s) (s_efuse_lock s) (ef_env s).
Definition set_batch (n : Z) (s : efuse) : efuse :=
  mkEfuse (ef_blocks s) (ef_wdata s) (s_burn_counter s) n (s_efuse_lock s) (ef_env s).
Definition set_lock (n : Z) (s : efuse) : efuse :=
  mkEfuse (ef_blocks s) (ef_wdata s) (s_burn_counter s) (s_batch_writing_mode s) n (ef_env s).
Definition set_env (l : list (list env_step)) (s : efuse) : efuse :=
  mkEfuse (ef_blocks s) (ef_wdata s) (s_burn_counter s) (s_batch_writing_mode s) (s_efuse_lock s) l.

Definition upd (m : regs) (blk reg v : Z) : regs := fun b r => if (b =? blk) && (r =? reg) then v else m b r.

Definition env_apply (e : env_step) (s : efuse) : efuse :=
  match e with
  | Count => set_burn_counter (u32 (s_burn_counter s + 1)) s
  | Load blk reg v => if v =? ef_blocks s blk reg then s else set_blocks (upd (ef_blocks s) blk reg v) s
  end.

(** A word in memory, the lowest byte first. *)
Definition word_bytes (v : Z) : list Z := [u8 v; u8 (Z.shiftr v 8); u8 (Z.shiftr v 16); u8 (Z.shiftr v 24)].
Definition bytes_word (l : list Z) : Z := foldr (fun b v => b + 256 * v) 0 l.

(** Time passes. *)
Definition tick : M efuse unit :=
  modify (fun s => match ef_env s with [] => s | es :: l => foldl (fun s e => env_apply e s) (set_env l s) es end).

(** Before an access outside of the lock. *)
Definition pass (unlocked : bool) : M efuse unit := if unlocked then tick else mret ().

Section Efuse.
Context (chip : efuse_chip).
(** [hal_program n r blk data]: the registers after the [n]-th attempt of
    [efuse_hal_program] to burn [data] into block [blk]; [coding_error n r blk]
    is what the [n]-th call of [efuse_hal_is_coding_error_in_block] shows. *)
Context (hal_program : Z -> regs -> Z -> (Z -> Z) -> regs) (coding_error : Z -> regs -> Z -> bool).

(** esp_efuse_api_key.c of the chips with key purposes. *)
Definition esp_efuse_get_coding_scheme (blk : Z) : esp_efuse_coding_scheme_t :=
  if blk =? 0 then EFUSE_CODING_SCHEME_NONE else EFUSE_CODING_SCHEME_RS.

(** ** Registers (esp_efuse_utility.c) *)

Definition esp_efuse_utility_read_reg (blk num_reg : Z) : M efuse Z :=
  _ ← assert_ ((0 <=? blk) && (blk <? EFUSE_BLK_MAX chip));
  _ ← assert_ (u32 num_reg <? rd_regs chip blk);
  gets (fun s => ef_blocks s blk num_reg).

Definition write_reg (blk num_reg value : Z) : M efuse unit :=
  _ ← assert_ ((0 <=? blk) && (blk <? EFUSE_BLK_MAX chip));
  _ ← assert_ (u32 num_reg <? rd_regs chip blk);
  modify (fun s => set_wdata (upd (ef_wdata s) blk num_reg (Z.lor (ef_wdata s blk num_reg) value)) s).

Definition esp_efuse_utility_write_reg (blk num_reg reg_to_write : Z) : M efuse esp_err_t :=
  reg ← esp_efuse_utility_read_reg blk num_reg;
  if negb (Z.land reg reg_to_write =? 0) then mret ESP_ERR_EFUSE_REPEATED_PROG
  else _ ← write_reg blk num_reg reg_to_write; mret ESP_OK.

Definition get_mask (bit_count shift : Z) : Z :=
  let mask := if negb (bit_count =? 32) then u32 (2 ^ bit_count - 1) else 0xFFFFFFFF in
  u32 (Z.shiftl mask shift).

Definition get_reg_num (bit_start bit_count i_reg : Z) : Z :=
  let num_reg := i_reg + Z.quot bit_start 32 in
  if Z.quot (bit_start + bit_count - 1) 32 <? num_reg then -1 else num_reg.

Definition get_starting_bit_num_in_reg (bit_start i_reg : Z) : Z := if i_reg =? 0 then bit_start mod 32 else 0.

(** The loop from [num_bit] on, for [n] more bits. *)
Fixpoint count_bits_loop (n : nat) (num_bit last_used_bit i_reg ret_count num_reg : Z) : Z :=
  match n with
  | O => 0
  | S n =>
      let ret_count := ret_count + 1 in
      if ((num_bit + 1) mod 32 =? 0) || (num_bit =? last_used_bit) then
        if i_reg =? num_reg then ret_count else count_bits_loop n (num_bit + 1) last_used_bit i_reg 0 (num_reg + 1)
      else count_bits_loop n (num_bit + 1) last_used_bit i_reg ret_count num_reg
  end.

Definition get_count_bits_in_reg (bit_start bit_count i_reg : Z) : Z :=
  count_bits_loop (Z.to_nat bit_count) bit_start (bit_start + bit_count - 1) i_reg 0 0.

(** ** Buffers *)

(** [blob[i]]; outside of the array is an invalid access. *)
Definition blob_get (blob : list Z) (i : Z) : M efuse Z :=
  match blob !! Z.to_nat i with Some b => mret b | None => abort end.
(** [blob[i] |= v] *)
Definition blob_or (blob : list Z) (i v : Z) : M efuse (list Z) :=
  b ← blob_get blob i; mret (<[Z.to_nat i := Z.lor b (u8 v)]> blob).

(** The loop of [esp_efuse_utility_fill_buff]; every round takes a bit. *)
Fixpoint fill_loop (fuel : nat) (bits sum_shift shift_bit bit_count : Z) (blob : list Z) (bits_counter : Z) : M efuse (list Z * Z) :=
  match fuel with
  | O => abort
  | S fuel =>
      if 0 <? bit_count then
        let sum_shift := sum_shift + shift_bit in
        blob ← blob_or blob (bits_counter / 8) (Z.shiftr bits sum_shift);
        let shift_bit := if 8 <? bit_count then 8 else bit_count in
        fill_loop fuel bits sum_shift shift_bit (bit_count - shift_bit) blob (bits_counter + shift_bit)
      else mret (blob, bits_counter)
  end.

Definition esp_efuse_utility_fill_buff (num_reg blk bit_start bit_count : Z) (blob : list Z) (bits_counter : Z) : M efuse (esp_err_t * list Z * Z) :=
  _ ← tick;
  reg ← esp_efuse_utility_read_reg blk num_reg;
  let bits := Z.land (Z.shiftr reg bit_start) (get_mask bit_count 0) in
  let shift_bit := bits_counter mod 8 in
  r ← (if negb (shift_bit =? 0) then
         blob ← blob_or blob (bits_counter / 8) (Z.shiftl bits shift_bit);
         let shift_bit := if 8 - shift_bit <? bit_count then 8 - shift_bit else bit_count in
         mret (blob, bits_counter + shift_bit, bit_count - shift_bit, shift_bit)
       else mret (blob, bits_counter, bit_count, shift_bit));
  let '(blob, bits_counter, bit_count, shift_bit) := r in
  r ← fill_loop (S (Z.to_nat bit_count)) bits 0 shift_bit bit_count blob bits_counter;
  let '(blob, bits_counter) := r in
  mret (ESP_OK, blob, bits_counter).

Definition esp_efuse_utility_count_once (num_reg blk bit_start bit_count : Z) (out_cnt : Z) (bits_counter : Z) : M efuse (esp_err_t * Z * Z) :=
  _ ← tick;
  reg ← esp_efuse_utility_read_reg blk num_reg;
  mret (ESP_OK, u32 (out_cnt + popcount 32 (Z.land reg (get_mask bit_count bit_start))), bits_counter + bit_count).

(** The loop of [fill_reg]. *)
Fixpoint fill_reg_loop (fuel : nat) (blob : list Z) (reg_to_write shift_reg bit_count filled_bits_blob : Z) : M efuse (Z * Z) :=
  match fuel with
  | O => abort
  | S fuel =>
      if 0 <? bit_count then
        temp_blob_32 ← blob_get blob (filled_bits_blob / 8);
        let shift_bit := if 8 <? bit_count then 8 else bit_count in
        fill_reg_loop fuel blob (Z.lor reg_to_write (u32 (Z.shiftl (Z.land temp_blob_32 (get_mask shift_bit 0)) shift_reg)))
          (shift_reg + 8) (bit_count - shift_bit) (filled_bits_blob + shift_bit)
      else mret (reg_to_write, filled_bits_blob)
  end.

Definition fill_reg (bit_start_in_reg bit_count_in_reg : Z) (blob : list Z) (filled_bits_blob : Z) : M efuse (Z * Z) :=
  let shift_bit := filled_bits_blob mod 8 in
  r ← (if negb (shift_bit =? 0) then
         b ← blob_get blob (filled_bits_blob / 8);
         let temp_blob_32 := Z.shiftr b shift_bit in
         let shift_bit := if 8 - shift_bit <? bit_count_in_reg then 8 - shift_bit else bit_count_in_reg in
         mret (Z.land temp_blob_32 (get_mask shift_bit 0), shift_bit, bit_count_in_reg - shift_bit, filled_bits_blob + shift_bit)
       else mret (0, shift_bit, bit_count_in_reg, filled_bits_blob));
  let '(reg_to_write, shift_bit, bit_count_in_reg, filled_bits_blob) := r in
  r ← fill_reg_loop (S (Z.to_nat bit_count_in_reg)) blob reg_to_write shift_bit bit_count_in_reg filled_bits_blob;
  let '(reg_to_write, filled_bits_blob) := r in
  mret (u32 (Z.shiftl reg_to_write bit_start_in_reg), filled_bits_blob).

Definition esp_efuse_utility_write_blob (num_reg blk bit_start bit_count : Z) (arr_in : list Z) (bits_counter : Z) : M efuse (esp_err_t * list Z * Z) :=
  r ← fill_reg bit_start bit_count arr_in bits_counter;
  let '(reg_to_write, bits_counter) := r in
  err ← esp_efuse_utility_write_reg blk num_reg reg_to_write;
  mret (err, arr_in, bits_counter).

(** The loop of [set_cnt_in_reg] from bit [i] on, for [n] more bits. *)
Fixpoint set_cnt_loop (n : nat) (i reg_masked reg_to_write cnt : Z) : Z * Z :=
  match n with
  | O => (reg_to_write, cnt)
  | S n =>
      if negb (Z.testbit reg_masked i) then
        let reg_to_write := Z.lor reg_to_write (u32 (Z.shiftl 1 i)) in
        let cnt := u32 (cnt - 1) in
        if cnt =? 0 then (reg_to_write, cnt) else set_cnt_loop n (i + 1) reg_masked reg_to_write cnt
      else set_cnt_loop n (i + 1) reg_masked reg_to_write cnt
  end.

Definition set_cnt_in_reg (bit_start_in_reg bit_count_used_in_reg reg_masked cnt : Z) : M efuse (Z * Z) :=
  _ ← assert_ (bit_start_in_reg + bit_count_used_in_reg <=? 32);
  mret (set_cnt_loop (Z.to_nat bit_count_used_in_reg) bit_start_in_reg reg_masked 0 cnt).

Definition esp_efuse_utility_write_cnt (num_reg blk bit_start bit_count : Z) (set_bits : Z) (bits_counter : Z) : M efuse (esp_err_t * Z * Z) :=
  reg ← esp_efuse_utility_read_reg blk num_reg;
  let mask := get_mask bit_count bit_start in
  let reg_masked_bits := Z.land reg mask in
  set_bits ← (if negb (Z.lxor reg_masked_bits mask =? 0) then
                r ← set_cnt_in_reg bit_start bit_count reg_masked_bits set_bits;
                let '(reg_to_write, set_bits) := r in
                _ ← write_reg blk num_reg reg_to_write; mret set_bits
              else mret set_bits);
  mret (if set_bits =? 0 then ESP_OK_EFUSE_CNT else ESP_OK, set_bits, bits_counter + bit_count).

(** ** Fields *)

Definition esp_efuse_get_field_size (field : list esp_efuse_desc_t) : Z := foldl (fun n d => n + bit_count d) 0 field.

Definition check_range_of_bits (blk offset_in_bits size_bits : Z) : bool := negb (256 <? offset_in_bits + size_bits).

Section Process.
Context {A : Type} (func_proc : Z -> Z -> Z -> Z -> A -> Z -> M efuse (esp_err_t * A * Z)).

(** The inner loop of [esp_efuse_utility_process]. *)
Fixpoint process_regs (fuel : nat) (d : esp_efuse_desc_t) (req_size i_reg : Z) (err : esp_err_t) (ptr : A) (bits_counter : Z) : M efuse (esp_err_t * A * Z) :=
  match fuel with
  | O => abort
  | S fuel =>
      let num_reg := get_reg_num (bit_start d) (bit_count d) i_reg in
      if is_ok err && (bits_counter <? req_size) && negb (num_reg =? -1) then
        let start_bit := get_starting_bit_num_in_reg (bit_start d) i_reg in
        let num_bits := get_count_bits_in_reg (bit_start d) (bit_count d) i_reg in
        let num_bits := if req_size <? bits_counter + num_bits then req_size - bits_counter else num_bits in
        r ← func_proc num_reg (efuse_block d) start_bit num_bits ptr bits_counter;
        let '(err, ptr, bits_counter) := r in
        process_regs fuel d req_size (i_reg + 1) err ptr bits_counter
      else mret (err, ptr, bits_counter)
  end.

(** A range that passed the check has at most 8 registers. *)
Definition regs_fuel : nat := 9.

(** The outer loop. *)
Fixpoint process_fields (field : list esp_efuse_desc_t) (req_size : Z) (err : esp_err_t) (ptr : A) (bits_counter : Z) : M efuse (esp_err_t * A * Z) :=
  match field with
  | [] => mret (err, ptr, bits_counter)
  | d :: field =>
      if is_ok err && (bits_counter <? req_size) then
        let err := if check_range_of_bits (efuse_block d) (bit_start d) (bit_count d) then err else ESP_ERR_CODING in
        r ← process_regs regs_fuel d req_size 0 err ptr bits_counter;
        let '(err, ptr, bits_counter) := r in
        process_fields field req_size err ptr bits_counter
      else mret (err, ptr, bits_counter)
  end.

(** [is_read] says that [func_proc] is one of the two reading functions. *)
Definition esp_efuse_utility_process (is_read : bool) (field : list esp_efuse_desc_t) (ptr : A) (ptr_size_bits : Z) : M efuse (esp_err_t * A) :=
  let field_len := esp_efuse_get_field_size field in
  let req_size := if ptr_size_bits =? 0 then field_len else Z.min ptr_size_bits field_len in
  _ ← pass is_read;
  count_before ← gets s_burn_counter;
  r ← process_fields field req_size ESP_OK ptr 0;
  let '(err, ptr, bits_counter) := r in
  _ ← pass is_read;
  count_after ← gets s_burn_counter;
  let err := if is_ok err && is_read && (negb (count_before =? count_after) || (Z.land count_after 1 =? 1)) then ESP_ERR_DAMAGED_READING else err in
  _ ← assert_ (bits_counter <=? req_size);
  mret (err, ptr).
End Process.

(** ** Burning (esp_efuse_utility.c, esp32c3/esp_efuse_utility.c) *)

Definition esp_efuse_utility_get_number_of_items (bits size_of_base : Z) : Z :=
  bits / size_of_base + (if 0 <? bits mod size_of_base then 1 else 0).

(** The write register exists. *)
Definition wr_exists (blk reg : Z) : bool := (0 <=? blk) && (blk <? EFUSE_BLK_MAX chip) && (0 <=? reg) && (reg <? wr_regs chip blk).

Definition burn_counter_inc : M efuse unit := modify (fun s => set_burn_counter (u32 (s_burn_counter s + 1)) s).

(** The controller copies the eFuses to the read registers. *)
Definition efuse_hal_read : M efuse unit :=
  modify (fun s => if CONFIG_EFUSE_VIRTUAL chip then s else set_blocks (hal_reload chip (ef_blocks s)) s).

(** The programming registers of the controller that it also clears are not
    part of the state: burning a block writes all of them. *)
Definition esp_efuse_utility_clear_program_registers : M efuse unit := efuse_hal_read.

Definition esp_efuse_utility_reset : M efuse unit :=
  _ ← burn_counter_inc;
  _ ← esp_efuse_utility_clear_program_registers;
  _ ← burn_counter_inc;
  modify (fun s => set_wdata (fun b r => if wr_exists b r then 0 else ef_wdata s b r) s).

(** The numbers of [n] registers. *)
Definition reg_list (n : Z) : list Z := seqZ 0 n.

Definition esp_efuse_utility_is_correct_written_data (w r : Z -> Z) (n : Z) : bool :=
  if forallb (fun i => w i =? r i) (reg_list n) then true else forallb (fun i => Z.land (r i) (w i) =? w i) (reg_list n).

(** The [do] loop of [esp_efuse_utility_burn_chip], from attempt
    [repeat_burn_op] on: whether the data are correct, whether there is a new
    coding error, and the registers. *)
Fixpoint burn_attempts (fuel : nat) (repeat_burn_op blk : Z) (data : Z -> Z) (coding_error_before : bool) (r : regs) : bool * bool * regs :=
  let r := hal_program repeat_burn_op r blk data in
  let coding_error_after := existsb (fun i => coding_error i r blk) [1; 2; 3; 4; 5] in
  let coding_error_occurred := xorb coding_error_before coding_error_after && negb coding_error_before in
  let correct_written_data := esp_efuse_utility_is_correct_written_data data (r blk) (rd_regs chip blk) in
  match fuel with
  | O => (correct_written_data, coding_error_occurred, r)
  | S fuel =>
      if negb correct_written_data || coding_error_occurred then burn_attempts fuel (repeat_burn_op + 1) blk data coding_error_before r
      else (correct_written_data, coding_error_occurred, r)
  end.

(** The blocks [n - 1] down to 0. *)
Fixpoint burn_blocks (n : nat) (error : esp_err_t) : M efuse esp_err_t :=
  match n with
  | O => mret error
  | S n =>
      let num_block := Z.of_nat n in
      w ← gets ef_wdata;
      let need_burn_block := existsb (fun i => negb (w num_block i =? 0)) (reg_list (wr_regs chip num_block)) in
      if negb need_burn_block then burn_blocks n error
      else if negb (is_ok error) then burn_blocks n error
      else
        r ← gets ef_blocks;
        let data := fun i => if wr_exists num_block i then w num_block i else 0 in
        let '(correct_written_data, coding_error_occurred, r) := burn_attempts 2 1 num_block data (coding_error 0 r num_block) r in
        _ ← modify (set_blocks r);
        let error := if coding_error_occurred && (num_block =? 0) then ESP_FAIL else error in
        burn_blocks n (if negb correct_written_data then ESP_FAIL else error)
  end.

Definition esp_efuse_utility_burn_chip : M efuse esp_err_t :=
  error ← (if CONFIG_EFUSE_VIRTUAL chip then
             _ ← modify (fun s => set_blocks (fun b r => if wr_exists b r then Z.lor (ef_blocks s b r) (ef_wdata s b r) else ef_blocks s b r) s);
             mret ESP_OK
           else burn_blocks (Z.to_nat (EFUSE_BLK_MAX chip)) ESP_OK);
  _ ← esp_efuse_utility_reset;
  mret error.

Definition esp_efuse_utility_burn_efuses : M efuse esp_err_t :=
  _ ← burn_counter_inc;
  err ← esp_efuse_utility_burn_chip;
  _ ← burn_counter_inc;
  mret err.

(** Blocks with a coding scheme are written once. *)
Definition block_conflict (s : efuse) (num_block : Z) : bool :=
  match esp_efuse_get_coding_scheme num_block with
  | EFUSE_CODING_SCHEME_RS =>
      existsb (fun i => negb (ef_wdata s num_block i =? 0)) (reg_list (wr_regs chip num_block)) &&
      existsb (fun i => negb (ef_blocks s num_block i =? 0)) (reg_list (rd_regs chip num_block))
  | EFUSE_CODING_SCHEME_NONE => false
  end.

Definition esp_efuse_utility_apply_new_coding_scheme : M efuse esp_err_t :=
  gets (fun s => if existsb (block_conflict s) (seqZ 1 (EFUSE_BLK_MAX chip - 1)) then ESP_ERR_CODING else ESP_OK).

(** ** The API (esp_efuse_api.c) *)

Definition EFUSE_LOCK_ACQUIRE_RECURSIVE : M efuse unit := modify (fun s => set_lock (s_efuse_lock s + 1) s).
Definition EFUSE_LOCK_RELEASE_RECURSIVE : M efuse unit := modify (fun s => set_lock (s_efuse_lock s - 1) s).

(** The [do] loops of the reading functions; [vTaskDelay] lets other tasks run. *)
Fixpoint read_retry {A} (fuel : nat) (once : M efuse (esp_err_t * A)) : M efuse (esp_err_t * A) :=
  match fuel with
  | O => abort
  | S fuel =>
      r ← once;
      if decide (r.1 = ESP_ERR_DAMAGED_READING) then _ ← tick; read_retry fuel once else mret r
  end.

(** Every round uses up a member of [ef_env]. *)
Definition read_fuel (s : efuse) : nat := S (length (ef_env s)).

(** [memset(dst, 0, n)] on the buffer [dst]. *)
Definition memset0 (n : Z) (dst : list Z) : M efuse (list Z) :=
  _ ← assert_ (n <=? Z.of_nat (length dst));
  mret (replicate (Z.to_nat n) 0 ++ drop (Z.to_nat n) dst).

Definition esp_efuse_read_field_blob (field : option (list esp_efuse_desc_t)) (dst : option (list Z)) (dst_size_bits : Z) : M efuse (esp_err_t * option (list Z)) :=
  match field, dst with
  | Some field, Some dst =>
      if dst_size_bits =? 0 then mret (ESP_ERR_INVALID_ARG, Some dst)
      else
        fuel ← gets read_fuel;
        r ← read_retry fuel
          (blob ← memset0 (esp_efuse_utility_get_number_of_items dst_size_bits 8) dst;
           esp_efuse_utility_process esp_efuse_utility_fill_buff true field blob dst_size_bits);
        mret (r.1, Some r.2)
  | _, _ => mret (ESP_ERR_INVALID_ARG, dst)
  end.

Definition esp_efuse_read_field_bit (field : option (list esp_efuse_desc_t)) : M efuse bool :=
  r ← esp_efuse_read_field_blob field (Some [0]) 1;
  let '(err, value) := r in
  _ ← assert_ (is_ok err);
  mret (is_ok err && negb (default 0 (value ≫= head) =? 0)).

(** [out_cnt] points to a variable; the result is its value. *)
Definition esp_efuse_read_field_cnt (field : option (list esp_efuse_desc_t)) : M efuse (esp_err_t * Z) :=
  match field with
  | None => mret (ESP_ERR_INVALID_ARG, 0)
  | Some field =>
      fuel ← gets read_fuel;
      read_retry fuel (esp_efuse_utility_process esp_efuse_utility_count_once true field 0 0)
  end.

(** [s_batch_writing_mode == 0]. *)
Definition burn_at_once : M efuse bool := gets (fun s => s_batch_writing_mode s =? 0).

(** What the writing functions do around staging: reset before, and apply the
    coding scheme, burn and reset afterwards, unless in batch mode. *)
Definition write_with (stage : M efuse esp_err_t) : M efuse esp_err_t :=
  once ← burn_at_once;
  _ ← (if (once : bool) then esp_efuse_utility_reset else mret ());
  err ← stage;
  once ← burn_at_once;
  if (once : bool) then
    err ← (if is_ok err then
             err ← esp_efuse_utility_apply_new_coding_scheme;
             if is_ok err then esp_efuse_utility_burn_efuses else mret err
           else mret err);
    _ ← esp_efuse_utility_reset;
    mret err
  else mret err.

Definition esp_efuse_write_field_blob (field : option (list esp_efuse_desc_t)) (src : option (list Z)) (src_size_bits : Z) : M efuse esp_err_t :=
  _ ← EFUSE_LOCK_ACQUIRE_RECURSIVE;
  err ← match field, src with
        | Some field, Some src =>
            if src_size_bits =? 0 then mret ESP_ERR_INVALID_ARG
            else write_with (r ← esp_efuse_utility_process esp_efuse_utility_write_blob false field src src_size_bits; mret r.1)
        | _, _ => mret ESP_ERR_INVALID_ARG
        end;
  _ ← EFUSE_LOCK_RELEASE_RECURSIVE;
  mret err.

Definition esp_efuse_write_field_cnt (field : option (list esp_efuse_desc_t)) (cnt : Z) : M efuse esp_err_t :=
  _ ← EFUSE_LOCK_ACQUIRE_RECURSIVE;
  err ← match field with
        | Some field =>
            if cnt =? 0 then mret ESP_ERR_INVALID_ARG
            else write_with
              (r ← esp_efuse_utility_process esp_efuse_utility_write_cnt false field cnt 0;
               let '(err, cnt) := r in
               let err := if negb (cnt =? 0) then ESP_ERR_EFUSE_CNT_IS_FULL else err in
               mret (if decide (err = ESP_OK_EFUSE_CNT) then ESP_OK else err))
        | None => mret ESP_ERR_INVALID_ARG
        end;
  _ ← EFUSE_LOCK_RELEASE_RECURSIVE;
  mret err.

Definition esp_efuse_write_field_bit (field : option (list esp_efuse_desc_t)) : M efuse esp_err_t :=
  match field with
  | Some (d :: _) =>
      if negb (bit_count d =? 1) then mret ESP_ERR_INVALID_ARG
      else
        r ← esp_efuse_read_field_blob field (Some [0]) 1;
        let '(err, existing) := r in
        if negb (is_ok err) || negb (default 0 (existing ≫= head) =? 0) then mret err
        else esp_efuse_write_field_blob field (Some [1]) 1
  | Some [] => abort
  | None => mret ESP_ERR_INVALID_ARG
  end.

Definition block_field (blk offset_in_bits size_bits : Z) : list esp_efuse_desc_t := [mkDesc blk (u8 offset_in_bits) (u16 size_bits)].

Definition esp_efuse_read_block (blk : Z) (dst_key : option (list Z)) (offset_in_bits size_bits : Z) : M efuse (esp_err_t * option (list Z)) :=
  if (blk =? 0) || (EFUSE_BLK_MAX chip <=? blk) || negb (bool_decide (is_Some dst_key)) || (size_bits =? 0) then mret (ESP_ERR_INVALID_ARG, dst_key)
  else esp_efuse_read_field_blob (Some (block_field blk offset_in_bits size_bits)) dst_key size_bits.

Definition esp_efuse_write_block (blk : Z) (src_key : option (list Z)) (offset_in_bits size_bits : Z) : M efuse esp_err_t :=
  if (blk =? 0) || (EFUSE_BLK_MAX chip <=? blk) || negb (bool_decide (is_Some src_key)) || (size_bits =? 0) then mret ESP_ERR_INVALID_ARG
  else esp_efuse_write_field_blob (Some (block_field blk offset_in_bits size_bits)) src_key size_bits.

Definition esp_efuse_read_reg (blk num_reg : Z) : M efuse Z :=
  r ← esp_efuse_read_block blk (Some (word_bytes 0)) (u32 (num_reg * 32)) 32;
  let '(err, ret_val) := r in
  _ ← assert_ (is_ok err);
  mret (bytes_word (default [] ret_val)).

Definition esp_efuse_write_reg (blk num_reg val : Z) : M efuse esp_err_t :=
  _ ← EFUSE_LOCK_ACQUIRE_RECURSIVE;
  err ← write_with (esp_efuse_utility_write_reg blk num_reg val);
  _ ← EFUSE_LOCK_RELEASE_RECURSIVE;
  mret err.

Definition esp_efuse_batch_write_begin : M efuse esp_err_t :=
  _ ← EFUSE_LOCK_ACQUIRE_RECURSIVE;
  mode ← gets s_batch_writing_mode;
  _ ← assert_ (0 <=? mode);
  _ ← modify (set_batch (mode + 1));
  _ ← (if mode + 1 =? 1 then esp_efuse_utility_reset else mret ());
  mret ESP_OK.

Definition esp_efuse_batch_write_cancel : M efuse esp_err_t :=
  mode ← gets s_batch_writing_mode;
  if mode =? 0 then mret ESP_ERR_INVALID_STATE
  else
    _ ← modify (set_batch (mode - 1));
    _ ← (if mode - 1 =? 0 then _ ← esp_efuse_utility_reset; EFUSE_LOCK_RELEASE_RECURSIVE else mret ());
    mret ESP_OK.

Definition esp_efuse_batch_write_commit : M efuse esp_err_t :=
  mode ← gets s_batch_writing_mode;
  if mode =? 0 then mret ESP_ERR_INVALID_STATE
  else
    _ ← modify (set_batch (mode - 1));
    if mode - 1 =? 0 then
      err ← esp_efuse_utility_apply_new_coding_scheme;
      err ← (if is_ok err then esp_efuse_utility_burn_efuses else _ ← esp_efuse_utility_reset; mret err);
      _ ← EFUSE_LOCK_RELEASE_RECURSIVE;
      mret err
    else mret ESP_OK.
End Efuse.
