(* ===== verification/EfuseSpec.v ===== *)
(** * eFuse fields as sequences of bits

    A field is the sequence of the bits of its descriptors.  The functions of
    esp_efuse_utility.c go through it register by register; this file has the
    rule for that loop and what each of the four functions that it calls does
    to the bits of one register. *)

From S2P Require Import Prelude Flash SecureVersion Efuse.

(** ** Bits *)

Definition reg_bit (r : regs) (blk p : Z) : bool := Z.testbit (r blk (p / 32)) (p mod 32).

(** Bit [i] of a buffer. *)
Definition blob_bit (blob : list Z) (i : Z) : bool := Z.testbit (default 0 (blob !! Z.to_nat (i / 8))) (i mod 8).

(** The bits of a field: block and number in the block. *)
Definition desc_pos (d : esp_efuse_desc_t) : list (Z * Z) := (fun p => (efuse_block d, p)) <$> seqZ (bit_start d) (bit_count d).
Definition field_pos (field : list esp_efuse_desc_t) : list (Z * Z) := field ≫= desc_pos.

Definition bit_at (r : regs) (x : Z * Z) : bool := reg_bit r x.1 x.2.

Definition words (r : regs) : Prop := forall blk i, is_u32 (r blk i).
Definition bytes (blob : list Z) : Prop := forall i b, blob !! i = Some b -> is_byte b.

Section Chip.
Context (chip : efuse_chip).

(** The blocks have at most 8 registers, and as many to write as to read;
    reading the eFuses again shows the same. *)
Definition chip_ok : Prop :=
  (0 < EFUSE_BLK_MAX chip /\ forall r, hal_reload chip r = r) /\
  forall blk, 0 <= blk < EFUSE_BLK_MAX chip -> 0 < rd_regs chip blk <= 8 /\ wr_regs chip blk = rd_regs chip blk.

(** A descriptor of the chip's table: bits that the block has. *)
Definition desc_ok (d : esp_efuse_desc_t) : Prop :=
  0 <= efuse_block d < EFUSE_BLK_MAX chip /\ 0 <= bit_start d /\ 0 < bit_count d /\
  bit_start d + bit_count d <= 32 * rd_regs chip (efuse_block d).
Definition field_ok (field : list esp_efuse_desc_t) : Prop := Forall desc_ok field.
End Chip.

Lemma esp32c3_efuse_ok virtual : chip_ok (esp32c3_efuse virtual).
Proof. split; [by split|]. intros blk _. cbn. zcase; lia. Qed.

(** ** The registers of a descriptor *)

(** Register [i_reg] of a field takes the positions from [piece_start] up to
    [piece_start] of the next. *)
Definition piece_start (s n k : Z) : Z := Z.min (Z.max s (32 * (s / 32 + k))) (s + n).

Lemma get_reg_num_spec s n k : 0 <= s -> 0 < n -> 0 <= k ->
  get_reg_num s n k = if piece_start s n k <? s + n then s / 32 + k else -1.
Proof.
  intros. unfold get_reg_num, piece_start. rewrite !Z.quot_div_nonneg by lia.
  repeat zcase; try lia; exfalso; Z.to_euclidean_division_equations; lia.
Qed.

Lemma count_bits_loop_spec n b last i r j : 0 <= b <= last -> Z.of_nat n = last + 1 - b -> 0 <= j <= i ->
  count_bits_loop n b last i r j =
    if b / 32 + (i - j) <=? last / 32 then
      (if i =? j then r - b else - (32 * (b / 32 + (i - j)))) + Z.min (32 * (b / 32 + (i - j) + 1)) (last + 1)
    else 0.
Proof.
  revert b r j. induction n as [|n IH]; intros b r j Hb Hn Hj; [lia|]. cbn [count_bits_loop].
  destruct (decide (b = last)) as [->|Hne].
  { rewrite (Z.eqb_refl last), orb_true_r. assert (n = O) as -> by lia. cbn [count_bits_loop].
    repeat zcase; try lia; Z.to_euclidean_division_equations; lia. }
  rewrite (proj2 (Z.eqb_neq b last)) by lia. rewrite orb_false_r.
  destruct (Z.eqb_spec ((b + 1) mod 32) 0) as [Em|Em].
  - assert ((b + 1) / 32 = b / 32 + 1) by (Z.to_euclidean_division_equations; lia).
    destruct (Z.eqb_spec i j) as [->|]; [repeat zcase; try lia; Z.to_euclidean_division_equations; lia|].
    rewrite IH by lia. repeat zcase; try lia; Z.to_euclidean_division_equations; lia.
  - assert ((b + 1) / 32 = b / 32) by (Z.to_euclidean_division_equations; lia).
    rewrite IH by lia. repeat zcase; try lia; Z.to_euclidean_division_equations; lia.
Qed.

Lemma get_count_bits_in_reg_spec s n k : 0 <= s -> 0 < n -> 0 <= k ->
  get_count_bits_in_reg s n k = piece_start s n (k + 1) - piece_start s n k.
Proof.
  intros. unfold get_count_bits_in_reg. rewrite count_bits_loop_spec by lia. unfold piece_start.
  repeat zcase; try lia; Z.to_euclidean_division_equations; lia.
Qed.

Lemma get_starting_bit_num_in_reg_spec s n k : 0 <= s -> 0 < n -> 0 <= k -> piece_start s n k < s + n ->
  get_starting_bit_num_in_reg s k = piece_start s n k mod 32 /\ piece_start s n k / 32 = s / 32 + k.
Proof.
  intros ? ? ? Hp. unfold get_starting_bit_num_in_reg, piece_start in *.
  assert (E : Z.min (Z.max s (32 * (s / 32 + k))) (s + n) = Z.max s (32 * (s / 32 + k))) by lia. rewrite E.
  destruct (Z.eqb_spec k 0) as [->|].
  - rewrite Z.add_0_r, Z.max_l by (Z.to_euclidean_division_equations; lia). done.
  - rewrite Z.max_r by (Z.to_euclidean_division_equations; lia). Z.to_euclidean_division_equations; lia.
Qed.

Lemma length_desc_pos d : 0 <= bit_count d -> Z.of_nat (length (desc_pos d)) = bit_count d.
Proof. intros. unfold desc_pos. rewrite length_fmap, length_seqZ. lia. Qed.

Lemma field_size_spec chip field : field_ok chip field -> esp_efuse_get_field_size field = Z.of_nat (length (field_pos field)).
Proof.
  unfold esp_efuse_get_field_size. intros Hf.
  assert (G : forall n, foldl (fun n d => n + bit_count d) n field = n + Z.of_nat (length (field_pos field))).
  { induction Hf as [|d field Hd Hf IH]; intros n; cbn; [lia|]. rewrite IH, length_app, Nat2Z.inj_add.
    fold (field_pos field). destruct Hd as (_ & _ & ? & _). rewrite length_desc_pos by lia. lia. }
  apply G.
Qed.

(** The positions of the descriptor after [l1]. *)
Lemma field_pos_lookup l1 d l2 j : 0 <= j < bit_count d ->
  field_pos (l1 ++ d :: l2) !! Z.to_nat (Z.of_nat (length (field_pos l1)) + j) = Some (efuse_block d, bit_start d + j).
Proof.
  intros Hj. unfold field_pos. rewrite bind_app, lookup_app_r by lia. cbn.
  rewrite lookup_app_l.
  2: { unfold desc_pos. rewrite length_fmap, length_seqZ. lia. }
  unfold desc_pos. rewrite list_lookup_fmap, lookup_seqZ_lt by lia. cbn. do 2 f_equal. lia.
Qed.

Lemma is_ok_false err : err <> ESP_OK -> is_ok err = false.
Proof. by destruct err. Qed.

(** ** The rule of [esp_efuse_utility_process]

    [I c ptr s]: the first [c] bits of the field are done; [E err c ptr s]: the
    function failed.  It is enough to look at ranges of bits of one register. *)
Section Rule.
Context (chip : efuse_chip) (Hchip : chip_ok chip) {A : Type}.
Context (func_proc : Z -> Z -> Z -> Z -> A -> Z -> M efuse (esp_err_t * A * Z)).
Context (field : list esp_efuse_desc_t) (Hfield : field_ok chip field) (req_size : Z) (Hreq : req_size <= Z.of_nat (length (field_pos field))).
Context (I : Z -> A -> efuse -> Prop) (E : esp_err_t -> Z -> A -> efuse -> Prop).

Definition done_with (c : Z) (o : outcome efuse (esp_err_t * A * Z)) : Prop :=
  exists err ptr c' s, o = RET (err, ptr, c') s /\
    (if is_ok err then c' = c /\ I c ptr s else 0 <= c' <= req_size /\ E err c' ptr s).

Context (step : forall blk p n c ptr s,
  0 <= blk < EFUSE_BLK_MAX chip -> 0 <= p -> 0 < n -> p mod 32 + n <= 32 -> p / 32 < rd_regs chip blk ->
  0 <= c -> c + n <= req_size ->
  (forall j, 0 <= j < n -> field_pos field !! Z.to_nat (c + j) = Some (blk, p + j)) ->
  I c ptr s -> done_with (c + n) (func_proc (p / 32) blk (p mod 32) n ptr c s)).

Lemma process_regs_stop fuel d k err ptr c s : is_ok err = false \/ req_size <= c ->
  process_regs func_proc (S fuel) d req_size k err ptr c s = RET (err, ptr, c) s.
Proof.
  intros H. cbn [process_regs]. assert (is_ok err && (c <? req_size) = false) as ->; [|done].
  destruct H as [->|]; [done|]. rewrite (proj2 (Z.ltb_ge _ _)) by lia. apply andb_false_r.
Qed.

Lemma process_regs_rule l1 d l2 : field = l1 ++ d :: l2 -> forall fuel k ptr s,
  let o := Z.of_nat (length (field_pos l1)) in
  let c := o + (piece_start (bit_start d) (bit_count d) k - bit_start d) in
  0 <= k <= 8 -> 9 <= Z.of_nat fuel + k -> c <= req_size -> I c ptr s ->
  done_with (Z.min req_size (o + bit_count d)) (process_regs func_proc fuel d req_size k ESP_OK ptr c s).
Proof.
  intros Ef. assert (Hd : desc_ok chip d) by (rewrite Ef in Hfield; by apply Forall_app in Hfield as [_ ?%Forall_inv]).
  destruct Hd as (Hb & Hs & Hn & Hm). destruct (proj2 Hchip _ Hb) as [H8 _].
  induction fuel as [|fuel IH]; intros k ptr s o c Hk Hfuel Hc HI; [lia|].
  set (S := bit_start d) in *. set (N := bit_count d) in *.
  assert (P : S <= piece_start S N k <= S + N) by (unfold piece_start; lia).
  assert (P' : piece_start S N k < S + N -> piece_start S N k < piece_start S N (k + 1) <= S + N /\ k < 8 /\
    piece_start S N (k + 1) <= 32 * (S / 32 + k + 1)).
  { unfold piece_start. Z.to_euclidean_division_equations; lia. }
  destruct (decide (req_size <= c)) as [Hstop|Hgo].
  { rewrite process_regs_stop by auto. exists ESP_OK, ptr, c, s. split; [done|]. cbn.
    assert (Ec : c = Z.min req_size (o + N)) by lia. by rewrite <- Ec. }
  cbn [process_regs]. fold S N. rewrite get_reg_num_spec by lia. cbn [is_ok]. rewrite (proj2 (Z.ltb_lt c req_size)) by lia. cbn [andb].
  destruct (Z.ltb_spec (piece_start S N k) (S + N)) as [Hp|Hp].
  2: { cbn. exists ESP_OK, ptr, c, s. split; [done|]. cbn. assert (Ec : c = Z.min req_size (o + N)) by lia. by rewrite <- Ec. }
  destruct (P' Hp) as (P1 & P2 & P3). destruct (get_starting_bit_num_in_reg_spec S N k) as [Es Ed]; [lia..|].
  rewrite (proj2 (Z.eqb_neq (S / 32 + k) (-1))) by (Z.to_euclidean_division_equations; lia). cbn [negb].
  rewrite get_count_bits_in_reg_spec, Es, <- Ed by lia. set (p := piece_start S N k) in *.
  set (n := if _ <? _ then _ else _).
  assert (Hnn : n = Z.min (piece_start S N (k + 1) - p) (req_size - c)) by (unfold n; zcase; lia).
  destruct (step (efuse_block d) p n c ptr s) as (err & ptr' & c' & s' & Er & Hpost); try lia; try done.
  { Z.to_euclidean_division_equations; lia. }
  { Z.to_euclidean_division_equations; lia. }
  { intros j Hj. rewrite Ef. replace (c + j) with (Z.of_nat (length (field_pos l1)) + (p - S + j)) by (unfold c, o; lia).
    rewrite field_pos_lookup by (fold N; lia). fold S. do 2 f_equal. lia. }
  rewrite (bind_RET _ _ _ _ _ Er). cbn beta iota.
  destruct fuel as [|fuel]; [lia|].
  destruct (is_ok_spec err) as [->|He].
  2: { rewrite process_regs_stop by (left; by apply is_ok_false).
       exists err, ptr', c', s'. split; [done|]. rewrite is_ok_false by done. exact Hpost. }
  destruct Hpost as [-> HI']. destruct (decide (c + n = req_size)) as [Ereq|].
  - rewrite process_regs_stop by lia. exists ESP_OK, ptr', (c + n), s'. split; [done|]. cbn.
    assert (Ec : c + n = Z.min req_size (o + N)) by lia. by rewrite <- Ec.
  - assert (Ec : c + n = o + (piece_start S N (k + 1) - S)) by (unfold c; lia).
    rewrite Ec in HI' |- *. apply IH; [lia|lia|fold o; lia|done].
Qed.

Lemma process_fields_stop field' err ptr c s : is_ok err = false \/ req_size <= c ->
  process_fields func_proc field' req_size err ptr c s = RET (err, ptr, c) s.
Proof.
  intros H. destruct field' as [|d field']; [done|]. cbn [process_fields].
  assert (is_ok err && (c <? req_size) = false) as ->; [|done].
  destruct H as [->|]; [done|]. rewrite (proj2 (Z.ltb_ge _ _)) by lia. apply andb_false_r.
Qed.

Lemma process_fields_rule l1 l2 ptr s : field = l1 ++ l2 -> let c := Z.of_nat (length (field_pos l1)) in
  c <= req_size -> I c ptr s -> done_with req_size (process_fields func_proc l2 req_size ESP_OK ptr c s).
Proof.
  revert l1 ptr s. induction l2 as [|d l2 IH]; intros l1 ptr s Ef c Hc HI.
  { cbn. exists ESP_OK, ptr, c, s. split; [done|]. cbn. rewrite app_nil_r in Ef. subst l1.
    assert (Ec : c = req_size) by lia. by rewrite <- Ec. }
  assert (Hd : desc_ok chip d) by (rewrite Ef in Hfield; by apply Forall_app in Hfield as [_ ?%Forall_inv]).
  destruct Hd as (Hb & Hs & Hn & Hm). destruct (proj2 Hchip _ Hb) as [H8 _].
  destruct (decide (req_size <= c)) as [Hstop|Hgo].
  { rewrite process_fields_stop by auto. exists ESP_OK, ptr, c, s. split; [done|]. cbn.
    assert (Ec : c = req_size) by lia. by rewrite <- Ec. }
  cbn [process_fields]. cbn [is_ok]. rewrite (proj2 (Z.ltb_lt c req_size)) by lia. cbn [andb].
  unfold check_range_of_bits. rewrite (proj2 (Z.ltb_ge _ _)) by lia. cbn [negb].
  assert (P0 : piece_start (bit_start d) (bit_count d) 0 = bit_start d) by (unfold piece_start; Z.to_euclidean_division_equations; lia).
  destruct (process_regs_rule l1 d l2 Ef regs_fuel 0 ptr s) as (err & ptr' & c' & s' & Er & Hpost);
    [lia|done|rewrite P0; fold c; lia|rewrite P0; fold c; by replace (c + (bit_start d - bit_start d)) with c by lia|].
  replace (Z.of_nat (length (field_pos l1)) + (piece_start (bit_start d) (bit_count d) 0 - bit_start d)) with c in Er by (unfold c; lia).
  rewrite (bind_RET _ _ _ _ _ Er). cbn beta iota.
  destruct (is_ok_spec err) as [->|He].
  2: { rewrite process_fields_stop by (left; by apply is_ok_false).
       exists err, ptr', c', s'. split; [done|]. rewrite is_ok_false by done. exact Hpost. }
  destruct Hpost as [-> HI']. fold c in HI' |- *.
  destruct (decide (req_size <= c + bit_count d)) as [Hall|].
  - replace (Z.min req_size (c + bit_count d)) with req_size in * by lia. rewrite process_fields_stop by lia.
    by exists ESP_OK, ptr', req_size, s'.
  - replace (Z.min req_size (c + bit_count d)) with (Z.of_nat (length (field_pos (l1 ++ [d])))) in *.
    2: { unfold field_pos. rewrite bind_app, length_app. cbn. rewrite app_nil_r, Nat2Z.inj_add, length_desc_pos by lia. unfold c, field_pos in *. lia. }
    apply IH; [by rewrite <- app_assoc|..]; [|done].
    unfold field_pos. rewrite bind_app, length_app. cbn. rewrite app_nil_r, Nat2Z.inj_add, length_desc_pos by lia. unfold c, field_pos in *. lia.
Qed.

Lemma process_rule ptr s : 0 <= req_size -> I 0 ptr s -> done_with req_size (process_fields func_proc field req_size ESP_OK ptr 0 s).
Proof. intros. by apply (process_fields_rule []). Qed.
End Rule.

(** ** Buffers *)

Lemma testbit_u8 v j : 0 <= j < 8 -> Z.testbit (u8 v) j = Z.testbit v j.
Proof. intros. unfold u8. rewrite Z.testbit_mod_pow2 by lia. by rewrite (proj2 (Z.ltb_lt j 8)) by lia. Qed.

Lemma lor_byte a b : is_byte a -> is_byte b -> is_byte (Z.lor a b).
Proof.
  unfold is_byte. intros. assert (0 <= Z.lor a b) by (apply Z.lor_nonneg; lia). split; [done|].
  apply (lt_pow2_bits _ 8); [lia|done|]. intros j Hj. by rewrite Z.lor_spec, !(high_bits_zero _ 8) by lia.
Qed.

Lemma blob_or_spec blob j v s : bytes blob -> 0 <= j < Z.of_nat (length blob) ->
  exists blob', blob_or blob j v s = RET blob' s /\ bytes blob' /\ length blob' = length blob /\
    forall i, 0 <= i -> blob_bit blob' i = blob_bit blob i || ((i / 8 =? j) && Z.testbit v (i mod 8)).
Proof.
  intros Hb Hj. destruct (lookup_lt_is_Some_2 blob (Z.to_nat j)) as [b Eb]; [lia|].
  exists (<[Z.to_nat j := Z.lor b (u8 v)]> blob). unfold blob_or, blob_get. rewrite Eb. split_and!; [done| | |].
  - intros k c. destruct (decide (k = Z.to_nat j)) as [->|].
    + rewrite list_lookup_insert_eq by lia. intros [= <-]. apply lor_byte; [by eapply Hb|]. apply u8_range.
    + rewrite list_lookup_insert_ne by done. apply Hb.
  - apply length_insert.
  - intros i Hi. assert (0 <= i mod 8 < 8) by (apply Z.mod_pos_bound; lia). assert (0 <= i / 8) by (apply Z.div_pos; lia).
    unfold blob_bit. destruct (Z.eqb_spec (i / 8) j) as [<-|].
    + rewrite list_lookup_insert_eq, Eb by lia. cbn. by rewrite Z.lor_spec, testbit_u8.
    + rewrite list_lookup_insert_ne by lia. by rewrite orb_false_r.
Qed.

Lemma fill_loop_spec fuel bits sum_shift shift_bit n blob c s :
  0 <= bits < 2 ^ (sum_shift + shift_bit + n) -> 0 <= sum_shift + shift_bit -> 0 <= n < Z.of_nat fuel -> 0 <= c -> (0 < n -> c mod 8 = 0) ->
  bytes blob -> c + n <= 8 * Z.of_nat (length blob) ->
  exists blob', fill_loop fuel bits sum_shift shift_bit n blob c s = RET (blob', c + n) s /\ bytes blob' /\ length blob' = length blob /\
    forall i, 0 <= i -> blob_bit blob' i = blob_bit blob i || ((c <=? i) && Z.testbit bits (sum_shift + shift_bit + (i - c))).
Proof.
  revert sum_shift shift_bit n blob c. induction fuel as [|fuel IH]; intros sum_shift shift_bit n blob c Hbits Hsh Hn Hc Hm Hb Hl; [lia|].
  cbn [fill_loop]. set (k := sum_shift + shift_bit) in *.
  destruct (Z.ltb_spec 0 n).
  2: { exists blob. replace (c + n) with c by lia. split_and!; [done..|]. intros i Hi.
       zcase; cbn; rewrite ?orb_false_r; [|done]. rewrite (high_bits_zero bits (k + n)) by lia. by rewrite orb_false_r. }
  destruct (blob_or_spec blob (c / 8) (Z.shiftr bits k) s) as (b1 & E1 & B1 & L1 & G1); [done|Z.to_euclidean_division_equations; lia|].
  rewrite (bind_RET _ _ _ _ _ E1). set (sb := if 8 <? n then 8 else n). assert (Hsb : sb = Z.min 8 n) by (unfold sb; zcase; lia).
  destruct (IH k sb (n - sb) b1 (c + sb)) as (b2 & E2 & B2 & L2 & G2); try lia; try done.
  { replace (k + sb + (n - sb)) with (k + n) by lia. done. }
  { intros. specialize (Hm ltac:(lia)). Z.to_euclidean_division_equations; lia. }
  exists b2. rewrite E2. split_and!; [by replace (c + sb + (n - sb)) with (c + n) by lia|done|congruence|].
  intros i Hi. rewrite G2, G1, <- orb_assoc by done. f_equal.
  specialize (Hm ltac:(lia)). assert (0 <= i mod 8 < 8) by (apply Z.mod_pos_bound; lia).
  rewrite Z.shiftr_spec by lia.
  destruct (Z.leb_spec c i) as [Hci|Hci].
  2: { rewrite (proj2 (Z.leb_gt (c + sb) i)) by lia. destruct (Z.eqb_spec (i / 8) (c / 8)); [|done]. Z.to_euclidean_division_equations; lia. }
  cbn [andb]. replace (k + sb + (i - (c + sb))) with (k + (i - c)) by lia.
  destruct (Z.eqb_spec (i / 8) (c / 8)) as [Eq|Eq].
  - replace (i mod 8 + k) with (k + (i - c)) by (Z.to_euclidean_division_equations; lia). cbn [andb].
    destruct (Z.testbit bits (k + (i - c))); [done|]. by rewrite andb_false_r.
  - cbn [andb orb]. destruct (Z.leb_spec (c + sb) i); [done|].
    assert (8 <= i - c) by (Z.to_euclidean_division_equations; lia). lia.
Qed.

(** ** Masks and registers *)

Lemma bind_mret {S A B} (a : A) (k : A -> M S B) s : (mret a ≫= k) s = k a s.
Proof. done. Qed.

Lemma bind_assoc {S A B C} (m : M S A) (k : A -> M S B) (h : B -> M S C) s : ((m ≫= k) ≫= h) s = (m ≫= (fun a => k a ≫= h)) s.
Proof. unfold mbind, M_bind. by destruct (m s). Qed.

Lemma get_mask_0 n : 0 <= n <= 32 -> get_mask n 0 = Z.ones n.
Proof.
  intros. unfold get_mask. rewrite Z.shiftl_0_r, Z.ones_equiv.
  assert (2 ^ 0 <= 2 ^ n <= 2 ^ 32) by (split; apply Z.pow_le_mono_r; lia).
  destruct (Z.eqb_spec n 32) as [->|]; cbn [negb]; [done|].
  rewrite (u32_small (2 ^ n - 1)) by lia. rewrite u32_small by lia. lia.
Qed.

Lemma get_mask_spec n b j : 0 <= n -> 0 <= b -> b + n <= 32 -> 0 <= j -> Z.testbit (get_mask n b) j = (b <=? j) && (j <? b + n).
Proof.
  intros. assert (E : get_mask n b = u32 (Z.shiftl (Z.ones n) b)).
  { pose proof (get_mask_0 n ltac:(lia)) as E0. unfold get_mask in *. rewrite Z.shiftl_0_r in E0.
    rewrite <- E0. f_equal. f_equal. destruct (n =? 32); cbn [negb]; [done|]. by rewrite (u32_small (u32 _)) by apply u32_range. }
  rewrite E. unfold u32. rewrite Z.testbit_mod_pow2, Z.shiftl_spec by lia.
  destruct (Z.leb_spec b j).
  - rewrite Z.testbit_ones_nonneg by lia. repeat zcase; cbn; lia.
  - rewrite Z.testbit_neg_r by lia. by rewrite andb_false_r.
Qed.

Lemma testbit_land_ones x n j : 0 <= n -> 0 <= j -> Z.testbit (Z.land x (Z.ones n)) j = (j <? n) && Z.testbit x j.
Proof. intros. rewrite Z.land_spec, Z.testbit_ones_nonneg by lia. apply andb_comm. Qed.

Lemma land_ones_range x n : 0 <= n -> 0 <= Z.land x (Z.ones n) < 2 ^ n.
Proof. intros. rewrite Z.land_ones by lia. apply Z.mod_pos_bound. apply Z.pow_pos_nonneg; lia. Qed.

(** The state after the steps that [tick] takes. *)
Definition ticked (s : efuse) : efuse :=
  match ef_env s with [] => s | es :: l => foldl (fun s e => env_apply e s) (set_env l s) es end.

(** Bit [j] of the range in its register. *)
Lemma range_bit blk p n (r : regs) j : p mod 32 + n <= 32 -> 0 <= j < n -> Z.testbit (r blk (p / 32)) (p mod 32 + j) = reg_bit r blk (p + j).
Proof.
  intros H32 Hj. assert (0 <= p mod 32 < 32) by (apply Z.mod_pos_bound; lia). unfold reg_bit.
  replace ((p + j) / 32) with (p / 32) by (Z.to_euclidean_division_equations; lia).
  by replace ((p + j) mod 32) with (p mod 32 + j) by (Z.to_euclidean_division_equations; lia).
Qed.

Section Functions.
Context (chip : efuse_chip) (Hchip : chip_ok chip).
Context (blk p n c : Z) (Hblk : 0 <= blk < EFUSE_BLK_MAX chip) (Hp : 0 <= p) (Hn : 0 < n) (H32 : p mod 32 + n <= 32).
Context (Hr : p / 32 < rd_regs chip blk) (Hc : 0 <= c).

Lemma read_reg_spec s : esp_efuse_utility_read_reg chip blk (p / 32) s = RET (ef_blocks s blk (p / 32)) s.
Proof.
  destruct (proj2 Hchip _ Hblk). assert (0 <= p / 32) by (apply Z.div_pos; lia).
  unfold esp_efuse_utility_read_reg, assert_, gets. unfold mbind, M_bind.
  rewrite (proj2 (Z.leb_le _ _)), (proj2 (Z.ltb_lt blk _)), u32_small, (proj2 (Z.ltb_lt (p / 32) _)) by lia. done.
Qed.

Lemma write_reg_spec v s :
  write_reg chip blk (p / 32) v s = RET tt (set_wdata (upd (ef_wdata s) blk (p / 32) (Z.lor (ef_wdata s blk (p / 32)) v)) s).
Proof.
  destruct (proj2 Hchip _ Hblk). assert (0 <= p / 32) by (apply Z.div_pos; lia).
  unfold write_reg, assert_, modify. unfold mbind, M_bind.
  rewrite (proj2 (Z.leb_le _ _)), (proj2 (Z.ltb_lt blk _)), u32_small, (proj2 (Z.ltb_lt (p / 32) _)) by lia. done.
Qed.

(** The bits are appended to the buffer. *)
Lemma fill_buff_spec blob s : bytes blob -> c + n <= 8 * Z.of_nat (length blob) ->
  exists blob', esp_efuse_utility_fill_buff chip (p / 32) blk (p mod 32) n blob c s = RET (ESP_OK, blob', c + n) (ticked s) /\
    bytes blob' /\ length blob' = length blob /\
    forall i, 0 <= i -> blob_bit blob' i =
      blob_bit blob i || ((c <=? i) && (i <? c + n) && reg_bit (ef_blocks (ticked s)) blk (p + (i - c))).
Proof.
  intros Hb Hl. assert (0 <= p mod 32 < 32) by (apply Z.mod_pos_bound; lia).
  unfold esp_efuse_utility_fill_buff. rewrite (bind_RET tick _ s tt (ticked s) eq_refl).
  rewrite (bind_RET _ _ _ _ _ (read_reg_spec (ticked s))). set (r := ef_blocks (ticked s)).
  rewrite get_mask_0 by lia. set (bits := Z.land _ _).
  assert (Hbits : 0 <= bits < 2 ^ n) by (apply land_ones_range; lia).
  assert (Tb : forall i, c <= i -> Z.testbit bits (i - c) = (i <? c + n) && reg_bit r blk (p + (i - c))).
  { intros i Hi. unfold bits. rewrite testbit_land_ones by lia. replace (i - c <? n) with (i <? c + n) by (repeat zcase; lia).
    zcase; cbn [andb]; [|done]. rewrite Z.shiftr_spec by lia. rewrite <- (range_bit blk p n r) by lia. f_equal. lia. }
  destruct (Z.eqb_spec (c mod 8) 0) as [Em|Em]; cbn [negb].
  - destruct (fill_loop_spec (S (Z.to_nat n)) bits 0 (c mod 8) n blob c (ticked s)) as (b1 & E1 & B1 & L1 & G1);
      rewrite ?Em; try lia; try done. rewrite Em in E1.
    exists b1. rewrite bind_mret, (bind_RET _ _ _ _ _ E1). split_and!; [done..|].
    intros i Hi. rewrite G1 by done. f_equal. rewrite <- andb_assoc. destruct (Z.leb_spec c i); cbn [andb]; [|done].
    rewrite Em. replace (0 + 0 + (i - c)) with (i - c) by lia. apply Tb. lia.
  - assert (0 <= c mod 8 < 8) by (apply Z.mod_pos_bound; lia). set (m := c mod 8) in *.
    destruct (blob_or_spec blob (c / 8) (Z.shiftl bits m) (ticked s)) as (b1 & E1 & B1 & L1 & G1); [done|Z.to_euclidean_division_equations; lia|].
    set (sb := if 8 - m <? n then 8 - m else n). assert (Hsb : sb = Z.min (8 - m) n) by (unfold sb; zcase; lia).
    destruct (fill_loop_spec (S (Z.to_nat (n - sb))) bits 0 sb (n - sb) b1 (c + sb) (ticked s)) as (b2 & E2 & B2 & L2 & G2); try lia; try done.
    { replace (0 + sb + (n - sb)) with n by lia. done. }
    { intros. replace sb with (8 - m) by lia. unfold m. Z.to_euclidean_division_equations; lia. }
    exists b2. rewrite bind_assoc, (bind_RET _ _ _ _ _ E1), bind_mret. fold sb.
    rewrite (bind_RET _ _ _ _ _ E2). split_and!; [by replace (c + sb + (n - sb)) with (c + n) by lia|done|congruence|].
    intros i Hi. rewrite G2, G1, <- orb_assoc by done. f_equal. assert (0 <= i mod 8 < 8) by (apply Z.mod_pos_bound; lia).
    rewrite Z.shiftl_spec by lia. rewrite <- andb_assoc. destruct (Z.leb_spec c i) as [Hci|Hci]; cbn [andb].
    + rewrite <- Tb by lia. replace (0 + sb + (i - (c + sb))) with (i - c) by lia.
      destruct (Z.eqb_spec (i / 8) (c / 8)) as [Eq|Eq]; cbn [andb orb].
      * replace (i mod 8 - m) with (i - c) by (unfold m; Z.to_euclidean_division_equations; lia).
        destruct (Z.testbit bits (i - c)); [done|]. apply andb_false_r.
      * destruct (Z.leb_spec (c + sb) i); [done|]. exfalso. assert (8 <= i - c + m) by (unfold m; Z.to_euclidean_division_equations; lia). lia.
    + rewrite (proj2 (Z.leb_gt (c + sb) i)), orb_false_r by lia.
      destruct (Z.eqb_spec (i / 8) (c / 8)); [|done]. cbn [andb]. apply Z.testbit_neg_r. unfold m. Z.to_euclidean_division_equations; lia.
Qed.
End Functions.

(** ** Words in memory *)

Lemma bytes_Forall l : Forall is_byte l -> bytes l.
Proof. intros H i b Hi%list_elem_of_lookup_2%list_elem_of_In. by apply (proj1 (List.Forall_forall _ _) H). Qed.

Lemma testbit_bytes_word l i : bytes l -> 0 <= i -> Z.testbit (bytes_word l) i = blob_bit l i.
Proof.
  revert i. induction l as [|b l IH]; intros i Hb Hi; [unfold blob_bit; rewrite lookup_nil; cbn; by rewrite !Z.testbit_0_l|]. cbn [bytes_word foldr]. fold (bytes_word l).
  assert (Hb0 : is_byte b) by (by apply (Hb 0%nat)). unfold is_byte in Hb0.
  assert (Hbl : bytes l) by (intros j x Hj; by apply (Hb (S j))).
  destruct (Z.ltb_spec i 8).
  - unfold blob_bit. rewrite Z.div_small, Z.mod_small by lia. cbn.
    rewrite <- (Z.mod_pow2_bits_low _ 8) by lia. change (2 ^ 8) with 256. replace (b + 256 * bytes_word l) with (b + bytes_word l * 256) by lia.
    by rewrite Z.mod_add, Z.mod_small by lia.
  - replace i with (i - 8 + 8) at 1 by lia. rewrite <- (Z.div_pow2_bits _ 8) by lia. change (2 ^ 8) with 256.
    replace (b + 256 * bytes_word l) with (bytes_word l * 256 + b) by lia. rewrite Z.div_add_l, Z.div_small, Z.add_0_r, IH by (lia || done).
    unfold blob_bit. replace ((i - 8) mod 8) with (i mod 8) by (Z.to_euclidean_division_equations; lia).
    replace (Z.to_nat (i / 8)) with (S (Z.to_nat ((i - 8) / 8))) by (Z.to_euclidean_division_equations; lia). done.
Qed.

Lemma word_bytes_bytes v : bytes (word_bytes v).
Proof. apply bytes_Forall. repeat constructor; unfold is_byte; apply u8_range. Qed.

Lemma word_bytes_bit v i : 0 <= i < 32 -> blob_bit (word_bytes v) i = Z.testbit v i.
Proof.
  intros Hi. assert (0 <= i mod 8 < 8) by (apply Z.mod_pos_bound; lia). unfold blob_bit, word_bytes.
  assert (i / 8 = 0 \/ i / 8 = 1 \/ i / 8 = 2 \/ i / 8 = 3) as C by (Z.to_euclidean_division_equations; lia).
  destruct C as [E|[E|[E|E]]]; rewrite E;
    [change (Z.testbit (u8 v) (i mod 8) = Z.testbit v i)
    |change (Z.testbit (u8 (Z.shiftr v 8)) (i mod 8) = Z.testbit v i)
    |change (Z.testbit (u8 (Z.shiftr v 16)) (i mod 8) = Z.testbit v i)
    |change (Z.testbit (u8 (Z.shiftr v 24)) (i mod 8) = Z.testbit v i)];
    rewrite testbit_u8, ?Z.shiftr_spec by lia; f_equal; Z.to_euclidean_division_equations; lia.
Qed.
