(* ===== verification/EfuseRead.v ===== *)
(** * Reading eFuse fields while other tasks burn

    Readers take no lock.  The counter that burning makes odd and then even
    again tells them that what they read is not of one moment; they repeat. *)

From S2P Require Import Prelude Flash SecureVersion Efuse EfuseSpec.

(** ** What other tasks do *)

(** The state after [k] accesses. *)
Definition after (k : nat) (s : efuse) : efuse := Nat.iter k ticked s.

Definition steps_left (s : efuse) : Z := Z.of_nat (length (concat (ef_env s))).

(** A register that is loaded while the counter is even keeps its value. *)
Fixpoint marked (es : list env_step) (s : efuse) : Prop :=
  match es with
  | [] => True
  | e :: es =>
      match e with
      | Load blk reg v => Z.even (s_burn_counter s) = true -> v = ef_blocks s blk reg
      | Count => True
      end /\ marked es (env_apply e s)
  end.

(** The counter does not come around while a reader looks, and registers
    change only while it is odd. *)
Definition counter_ok (s : efuse) : Prop :=
  is_u32 (s_burn_counter s) /\ steps_left s < 2 ^ 32 /\ marked (concat (ef_env s)) s.

Lemma env_apply_env e l s : env_apply e (set_env l s) = set_env l (env_apply e s).
Proof. destruct e; cbn; [done|]. by case_match. Qed.

Lemma marked_env es l s : marked es (set_env l s) <-> marked es s.
Proof.
  revert s. induction es as [|e es IH]; intros s; [done|]. cbn [marked]. rewrite env_apply_env, IH. done.
Qed.

Lemma marked_app es es' s : marked (es ++ es') s <-> marked es s /\ marked es' (foldl (fun s e => env_apply e s) s es).
Proof. revert s. induction es as [|e es IH]; intros s; cbn; [tauto|]. rewrite IH. tauto. Qed.

(** Everything but the registers, the counter and the steps to come. *)
Definition same_task (s s' : efuse) : Prop :=
  ef_wdata s' = ef_wdata s /\ s_batch_writing_mode s' = s_batch_writing_mode s /\ s_efuse_lock s' = s_efuse_lock s.

(** [d] steps counted on the way from [s] to [s']; with none, a quiet state
    has kept its registers. *)
Definition counts (d : Z) (s s' : efuse) : Prop :=
  is_u32 (s_burn_counter s') /\ s_burn_counter s' = u32 (s_burn_counter s + d) /\ same_task s s' /\
  (d = 0 -> Z.even (s_burn_counter s) = true -> ef_blocks s' = ef_blocks s).

Lemma counts_refl s : is_u32 (s_burn_counter s) -> counts 0 s s.
Proof. intros H. split_and!; [done| |done|done]. rewrite Z.add_0_r. by rewrite u32_small. Qed.

Lemma counts_trans d1 d2 s1 s2 s3 : 0 <= d1 -> 0 <= d2 -> is_u32 (s_burn_counter s1) ->
  counts d1 s1 s2 -> counts d2 s2 s3 -> counts (d1 + d2) s1 s3.
Proof.
  intros H1 H2 Hu (U2 & E2 & T2 & B2) (U3 & E3 & T3 & B3). split_and!; [done| | |].
  - rewrite E3, E2. unfold u32. rewrite Zplus_mod_idemp_l. f_equal. lia.
  - destruct T2 as (? & ? & ?), T3 as (? & ? & ?). split_and!; congruence.
  - intros Hd He. assert (d1 = 0) as -> by lia. assert (d2 = 0) as -> by lia.
    rewrite Z.add_0_r, u32_small in E2 by done. rewrite B3, B2; [done|done|done|done|congruence].
Qed.

Lemma env_apply_counts e s : is_u32 (s_burn_counter s) -> marked [e] s -> exists d, 0 <= d <= 1 /\ counts d s (env_apply e s).
Proof.
  intros Hu [Hm _]. pose proof (counts_refl s Hu) as R. destruct e as [|blk reg v]; cbn [env_apply].
  { exists 1. split; [lia|]. split_and!; [apply u32_range|done|done|lia]. }
  exists 0. split; [lia|]. destruct (Z.eqb_spec v (ef_blocks s blk reg)) as [|Hne]; [done|].
  destruct R as (R1 & R2 & R3 & _). split_and!; [done..|]. intros _ He. by specialize (Hm He).
Qed.

Lemma run_counts es s : is_u32 (s_burn_counter s) -> marked es s ->
  exists d, 0 <= d <= Z.of_nat (length es) /\ counts d s (foldl (fun s e => env_apply e s) s es).
Proof.
  revert s. induction es as [|e es IH]; intros s Hu Hm; [exists 0; split; [done|by apply counts_refl]|]. destruct Hm as [Hm1 Hm2].
  destruct (env_apply_counts e s Hu) as (d1 & R1 & C1); [by split|]. destruct (IH (env_apply e s)) as (d2 & R2 & C2); [apply C1|done|].
  exists (d1 + d2). cbn [foldl length]. split; [lia|]. apply (counts_trans _ _ _ (env_apply e s)); auto with lia.
Qed.

Lemma run_env es s : ef_env (foldl (fun s e => env_apply e s) s es) = ef_env s.
Proof.
  revert s. induction es as [|e es IH]; intros s; [done|]. cbn [foldl]. rewrite IH. destruct e; cbn; [done|]. by case_match.
Qed.

Lemma tick_counts s : is_u32 (s_burn_counter s) -> marked (concat (ef_env s)) s ->
  exists d, 0 <= d <= steps_left s - steps_left (ticked s) /\ counts d s (ticked s) /\ length (ef_env (ticked s)) = pred (length (ef_env s)) /\
    marked (concat (ef_env (ticked s))) (ticked s).
Proof.
  intros Hu Hm. unfold ticked, steps_left. destruct (ef_env s) as [|es l] eqn:Ee.
  { exists 0. rewrite Ee. split_and!; [lia|lia|by apply counts_refl|done|done]. }
  cbn [concat] in Hm. rewrite <- (marked_env _ l), marked_app in Hm. destruct Hm as [Hm1 Hm2].
  destruct (run_counts es (set_env l s) Hu Hm1) as (d & R & C). exists d. rewrite run_env. cbn [concat length set_env ef_env pred].
  rewrite length_app. split_and!; [lia|lia|done|done|done].
Qed.

Lemma after_counts k s : is_u32 (s_burn_counter s) -> marked (concat (ef_env s)) s ->
  exists d, 0 <= d <= steps_left s - steps_left (after k s) /\ counts d s (after k s) /\
    length (ef_env (after k s)) = (length (ef_env s) - k)%nat /\ marked (concat (ef_env (after k s))) (after k s).
Proof.
  intros Hu Hm. induction k as [|k (d1 & R1 & C1 & L1 & M1)]; [exists 0; split_and!; [cbn; lia..|by apply counts_refl|cbn; lia|done]|].
  destruct (tick_counts (after k s)) as (d2 & R2 & C2 & L2 & M2); [apply C1|done|]. exists (d1 + d2).
  change (after (S k) s) with (ticked (after k s)). split_and!; [lia|lia| |lia|done]. apply (counts_trans _ _ _ (after k s)); auto with lia.
Qed.

Lemma after_add j k s : after (j + k) s = after k (after j s).
Proof. unfold after. rewrite Nat.add_comm. apply Nat.iter_add. Qed.

(** ** Undisturbed reads *)

(** The test of [esp_efuse_utility_process]. *)
Definition calm (s s' : efuse) : bool :=
  (s_burn_counter s =? s_burn_counter s') && negb (Z.land (s_burn_counter s') 1 =? 1).

Lemma land_1_even z : negb (Z.land z 1 =? 1) = Z.even z.
Proof.
  change 1 with (Z.ones 1) at 1. rewrite Z.land_ones, Z.pow_1_r, Zmod_even by lia. by destruct (Z.even z).
Qed.

Lemma calm_after j k s : counter_ok s -> (j <= k)%nat -> calm s (after k s) = true ->
  calm s (after j s) = true /\ ef_blocks (after j s) = ef_blocks s.
Proof.
  intros (Hu & Hl & Hm) Hjk [Ec Ev]%andb_true_iff. apply Z.eqb_eq in Ec. rewrite land_1_even in Ev.
  destruct (after_counts j s Hu Hm) as (d1 & R1 & C1 & _ & M1). destruct (after_counts (k - j) (after j s)) as (d2 & R2 & C2 & _); [apply C1|done|].
  rewrite <- after_add in C2, R2. replace (j + (k - j))%nat with k in * by lia.
  pose proof (counts_trans _ _ _ _ _ (proj1 R1) (proj1 R2) Hu C1 C2) as (_ & E & _).
  assert (0 <= steps_left (after k s)) by (unfold steps_left; lia).
  assert (d1 = 0) as ->.
  { rewrite <- Ec in E. unfold u32, is_u32 in *. Z.to_euclidean_division_equations; lia. }
  destruct C1 as (_ & E1 & _ & B1). rewrite Z.add_0_r, u32_small in E1 by done.
  rewrite <- Ec in Ev. split; [|by apply B1]. unfold calm. by rewrite E1, Z.eqb_refl, land_1_even, Ev.
Qed.

(** When all is done and nothing burns, a read is undisturbed. *)
Lemma after_end k s : (length (ef_env s) <= k)%nat -> after k s = after (length (ef_env s)) s.
Proof.
  intros Hk. replace k with (length (ef_env s) + (k - length (ef_env s)))%nat by lia. rewrite after_add.
  assert (G : forall t, ef_env t = [] -> forall n, after n t = t).
  { intros t Ht n. induction n as [|n IH]; [done|]. change (after (S n) t) with (ticked (after n t)). rewrite IH. unfold ticked. by rewrite Ht. }
  apply G. clear. assert (H : forall n t, length (ef_env t) = n -> ef_env (after n t) = []).
  { induction n as [|n IH]; intros t Hn; [by apply length_zero_iff_nil|]. change (S n) with (1 + n)%nat. rewrite after_add. apply IH.
    cbn. unfold ticked. destruct (ef_env t) as [|es l]; [done|]. rewrite run_env. cbn in *. lia. }
  by apply H.
Qed.

(** ** One reading *)

Lemma take_piece {X} (f : Z -> X) (l : list X) c n : 0 <= c -> 0 < n ->
  (forall j, 0 <= j < n -> l !! Z.to_nat (c + j) = Some (f j)) ->
  take (Z.to_nat (c + n)) l = take (Z.to_nat c) l ++ (f <$> seqZ 0 n).
Proof.
  intros Hc Hn Hl. assert (L : (Z.to_nat (c + n) <= length l)%nat).
  { pose proof (Hl (n - 1) ltac:(lia)) as E%lookup_lt_Some. lia. }
  apply list_eq. intros i. destruct (decide (i < Z.to_nat (c + n))%nat).
  - rewrite lookup_take_lt by lia. destruct (decide (i < Z.to_nat c)%nat).
    + rewrite lookup_app_l by (rewrite length_take; lia). by rewrite lookup_take_lt by lia.
    + rewrite lookup_app_r, length_take by (rewrite length_take; lia).
      rewrite list_lookup_fmap, lookup_seqZ_lt by lia. cbn. rewrite <- Hl by lia. f_equal. lia.
  - rewrite lookup_take_ge by lia. symmetry. apply lookup_ge_None. rewrite length_app, length_fmap, length_seqZ, length_take. lia.
Qed.

(** The number of bits that are set. *)
Definition count_set (r : regs) (l : list (Z * Z)) : Z := Z.of_nat (length (filter (fun x => bit_at r x = true) l)).

Lemma popcount_filter n x : popcount n x = Z.of_nat (length (filter (fun j => Z.testbit x j = true) (seqZ 0 (Z.of_nat n)))).
Proof.
  revert x. induction n as [|n IH]; intros x; [done|]. cbn [popcount]. rewrite IH, Z.div2_spec, (seqZ_cons 0 (Z.of_nat (S n))), filter_cons by lia.
  replace (seqZ (Z.succ 0) (Z.pred (Z.of_nat (S n)))) with (Z.add 1 <$> seqZ 0 (Z.of_nat n)) by (rewrite fmap_add_seqZ; f_equal; lia).
  assert (length (filter (fun j => Z.testbit (Z.shiftr x 1) j = true) (seqZ 0 (Z.of_nat n))) =
    length (filter (fun j => Z.testbit x j = true) (Z.add 1 <$> seqZ 0 (Z.of_nat n)))) as ->.
  { assert (G : Forall (fun j => 0 <= j) (seqZ 0 (Z.of_nat n))) by (apply Forall_seqZ; lia).
    clear IH. induction G as [|j l Hj G IHG]; [done|]. rewrite fmap_cons, !filter_cons, Z.shiftr_spec by lia.
    replace (j + 1) with (1 + j) by lia. repeat case_decide; cbn [length]; congruence. }
  rewrite <- Z.bit0_odd. destruct (Z.testbit x 0); case_decide; try done; cbn [length]; lia.
Qed.

Lemma filter_none {X} (P : X -> Prop) `{forall x, Decision (P x)} l : Forall (fun x => ~ P x) l -> filter P l = [].
Proof. induction 1 as [|x l Hx _ IH]; [done|]. rewrite filter_cons. by case_decide. Qed.

Lemma filter_all {X} (P : X -> Prop) `{forall x, Decision (P x)} l : Forall P l -> filter P l = l.
Proof. induction 1 as [|x l Hx _ IH]; [done|]. rewrite filter_cons, IH. by case_decide. Qed.

Lemma popcount_range x b n : 0 <= b -> 0 <= n -> b + n <= 32 ->
  popcount 32 (Z.land x (get_mask n b)) = Z.of_nat (length (filter (fun j => Z.testbit x (b + j) = true) (seqZ 0 n))).
Proof.
  intros. rewrite popcount_filter. change (Z.of_nat 32) with 32. replace 32 with (b + (n + (32 - b - n))) by lia.
  rewrite !seqZ_app, !list.filter_app, !length_app by lia.
  assert (T : forall j, 0 <= j -> Z.testbit (Z.land x (get_mask n b)) j = Z.testbit x j && ((b <=? j) && (j <? b + n))).
  { intros. by rewrite Z.land_spec, get_mask_spec by lia. }
  assert (Z0 : forall m k, 0 <= m -> (m + k <= b \/ b + n <= m) ->
    filter (fun j => Z.testbit (Z.land x (get_mask n b)) j = true) (seqZ m k) = []).
  { intros m k Hm Hk. apply filter_none, Forall_seqZ. intros j Hj. rewrite T by lia.
    destruct (Z.testbit x j); cbn; repeat zcase; cbn; lia. }
  rewrite (Z0 0 b), (Z0 (0 + b + n)) by lia. cbn [length Nat.add].
  replace (seqZ (0 + b) n) with (Z.add b <$> seqZ 0 n) by (rewrite fmap_add_seqZ; f_equal; lia).
  assert (G : Forall (fun j => 0 <= j < n) (seqZ 0 n)) by (apply Forall_seqZ; lia).
  rewrite Nat.add_0_r. f_equal. induction G as [|j l Hj G IHG]; [done|]. rewrite fmap_cons, !filter_cons, T by lia.
  rewrite (proj2 (Z.leb_le _ _)), (proj2 (Z.ltb_lt _ _)), andb_true_r by lia.
  repeat case_decide; cbn [length]; congruence.
Qed.

(** What a read of the first [n] bits of a field is to give, in a buffer that
    had the bits [rest]. *)
Definition shows (r : regs) (pos : list (Z * Z)) (n : Z) (rest : Z -> bool) (blob : list Z) : Prop :=
  forall i, 0 <= i -> blob_bit blob i = rest i || match pos !! Z.to_nat i with Some x => (i <? n) && bit_at r x | None => false end.

Section Reading.
Context (chip : efuse_chip) (Hchip : chip_ok chip) (field : list esp_efuse_desc_t) (Hfield : field_ok chip field).
Abbreviation pos := (field_pos field).

(** A reading of [A]: it takes its time, and when it is undisturbed it shows
    the registers of one moment. *)
Definition reading {A} (content : regs -> A -> Prop) (once : M efuse (esp_err_t * A)) : Prop :=
  forall s, counter_ok s -> exists k a, once s = RET (if calm (after 1 s) (after k s) then ESP_OK else ESP_ERR_DAMAGED_READING, a) (after k s) /\
    (1 <= k)%nat /\ (calm (after 1 s) (after k s) = true -> content (ef_blocks (after 1 s)) a).

Lemma counter_ok_after k s : counter_ok s -> counter_ok (after k s).
Proof.
  intros (Hu & Hl & Hm). destruct (after_counts k s Hu Hm) as (d & R & C & _ & M). split; [apply C|]. split; [lia|done].
Qed.

(** From the functions of one register to the field. *)
Lemma reading_process {A} (func_proc : Z -> Z -> Z -> Z -> A -> Z -> M efuse (esp_err_t * A * Z)) (V : A -> Prop) (Q : regs -> Z -> A -> Prop) (ptr : A) (size : Z) :
  let req := if size =? 0 then Z.of_nat (length pos) else Z.min size (Z.of_nat (length pos)) in
  0 <= size ->
  V ptr -> (forall r, Q r 0 ptr) ->
  (forall blk p n c ptr s,
    0 <= blk < EFUSE_BLK_MAX chip -> 0 <= p -> 0 < n -> p mod 32 + n <= 32 -> p / 32 < rd_regs chip blk -> 0 <= c -> c + n <= req ->
    (forall j, 0 <= j < n -> pos !! Z.to_nat (c + j) = Some (blk, p + j)) -> V ptr ->
    exists ptr', func_proc (p / 32) blk (p mod 32) n ptr c s = RET (ESP_OK, ptr', c + n) (ticked s) /\ V ptr' /\
      (Q (ef_blocks (ticked s)) c ptr -> Q (ef_blocks (ticked s)) (c + n) ptr')) ->
  reading (fun r a => V a /\ Q r req a) (esp_efuse_utility_process func_proc true field ptr size).
Proof.
  intros req Hsize V0 Q0 Hstep s Hs. unfold esp_efuse_utility_process.
  rewrite (field_size_spec chip field Hfield). fold req.
  rewrite (bind_RET (pass true) _ s tt (after 1 s) eq_refl). rewrite (bind_RET (gets s_burn_counter) _ _ _ _ eq_refl).
  set (s1 := after 1 s). assert (Hs1 : counter_ok s1) by by apply counter_ok_after.
  assert (Hreq : 0 <= req <= Z.of_nat (length pos)) by (unfold req; case_match; lia).
  destruct (process_rule chip Hchip func_proc field Hfield req (proj2 Hreq)
    (fun c a t => exists k, t = after k s1 /\ V a /\ (calm s1 t = true -> Q (ef_blocks s1) c a)) (fun _ _ _ _ => False))
    with (ptr := ptr) (s := s1) as (err & a & c' & t & Er & Hpost); [|lia|by exists 0%nat|].
  - intros blk p n c a t Hblk Hp Hn H32 Hr Hc Hcn Hpos (k & -> & HV & HQ).
    destruct (Hstep blk p n c a (after k s1)) as (a' & Ea & HV' & HQ'); try done.
    exists ESP_OK, a', (c + n), (ticked (after k s1)). split; [done|]. cbn [is_ok]. split; [done|]. exists (S k). split; [done|]. split; [done|].
    intros Hcalm. destruct (calm_after k (S k) s1 Hs1 ltac:(lia) Hcalm) as [C1 _].
    destruct (calm_after (S k) (S k) s1 Hs1 ltac:(lia) Hcalm) as [_ B]. change (after (S k) s1) with (ticked (after k s1)) in B.
    rewrite B in HQ'. by apply HQ', HQ.
  - destruct (is_ok err) eqn:Ee; [|by destruct Hpost]. destruct (is_ok_spec err) as [->|]; [|done].
    destruct Hpost as (-> & k & -> & HV & HQ). cbn [length] in Er.
    exists (1 + S k)%nat, a. rewrite after_add. fold s1.
    rewrite (bind_RET _ _ _ _ _ Er). cbn beta iota.
    rewrite (bind_RET (pass true) _ _ tt (after (S k) s1) eq_refl). rewrite (bind_RET (gets s_burn_counter) _ _ _ _ eq_refl).
    cbn [is_ok andb]. unfold assert_, mbind, M_bind. rewrite Z.leb_refl. split; [|split; [lia|]].
    + unfold calm. by destruct (s_burn_counter s1 =? _), (_ =? 1).
    + intros Hcalm. destruct (calm_after k (S k) s1 Hs1 ltac:(lia) Hcalm) as [C1 _]. auto.
Qed.

Lemma reading_blob (blob : list Z) (size : Z) :
  0 < size -> bytes blob -> size <= 8 * Z.of_nat (length blob) ->
  reading (fun r b => (bytes b /\ length b = length blob) /\ shows r pos (Z.min size (Z.of_nat (length pos))) (blob_bit blob) b)
    (esp_efuse_utility_process (esp_efuse_utility_fill_buff chip) true field blob size).
Proof.
  intros Hsize Hb Hl.
  pose proof (reading_process (esp_efuse_utility_fill_buff chip) (fun b => bytes b /\ length b = length blob) (fun r c b => shows r pos c (blob_bit blob) b) blob size) as R.
  cbn zeta in R. rewrite (proj2 (Z.eqb_neq size 0)) in R by lia. apply R; clear R; [lia|done| |].
  - intros r i Hi. destruct (pos !! _); rewrite ?(proj2 (Z.ltb_ge i 0)) by lia; by rewrite orb_false_r.
  - intros blk p n c b s Hblk Hp Hn H32 Hr Hc Hcn Hpos [HB HL].
    destruct (fill_buff_spec chip Hchip blk p n c Hblk Hp Hn H32 Hr Hc b s) as (b' & E & B' & L' & G); [done|lia|].
    exists b'. split; [done|]. split; [split; [done|congruence]|]. intros Hshow i Hi. rewrite G, Hshow, <- orb_assoc by done. f_equal.
    destruct (decide (c <= i < c + n)) as [Hin|Hout].
    + pose proof (Hpos (i - c) ltac:(lia)) as E'. replace (c + (i - c)) with i in E' by lia. rewrite E'.
      by rewrite (proj2 (Z.ltb_ge i c)), (proj2 (Z.leb_le c i)), (proj2 (Z.ltb_lt i (c + n))) by lia.
    + assert ((c <=? i) && (i <? c + n) = false) as -> by (repeat zcase; cbn; lia). rewrite orb_false_r.
      destruct (pos !! Z.to_nat i); [|done]. f_equal. repeat zcase; lia.
Qed.

Lemma reading_cnt : Z.of_nat (length pos) < 2 ^ 32 ->
  reading (fun r n => n = count_set r pos) (esp_efuse_utility_process (esp_efuse_utility_count_once chip) true field 0 0).
Proof.
  intros Hlen.
  pose proof (reading_process (esp_efuse_utility_count_once chip) (fun _ => True)
    (fun r c n => n = count_set r (take (Z.to_nat c) pos)) 0 0) as R. cbn zeta in R. cbn [Z.eqb] in R.
  intros s Hs. destruct R with (s := s) as (k & a & E & Hk & Hc); try done.
  2: { exists k, a. split_and!; [done..|]. intros Hcalm. destruct (Hc Hcalm) as [_ ->]. rewrite Nat2Z.id. by rewrite firstn_all. }
  intros blk p n c m t Hblk Hp Hn H32 Hr Hc Hcn Hpos _. eexists. unfold esp_efuse_utility_count_once.
  rewrite (bind_RET tick _ t tt (ticked t) eq_refl).
  rewrite (bind_RET _ _ _ _ _ (read_reg_spec chip Hchip blk p Hblk Hp Hr (ticked t))). split; [done|]. split; [done|]. intros ->.
  assert (0 <= p mod 32) by (apply Z.mod_pos_bound; lia). rewrite popcount_range by lia.
  rewrite (take_piece (fun j => (blk, p + j)) pos c n) by (lia || done).
  unfold count_set. rewrite list.filter_app, length_app, Nat2Z.inj_add.
  assert (length (filter (fun j => Z.testbit (ef_blocks (ticked t) blk (p / 32)) (p mod 32 + j) = true) (seqZ 0 n)) =
    length (filter (fun x => bit_at (ef_blocks (ticked t)) x = true) ((fun j => (blk, p + j)) <$> seqZ 0 n))) as ->.
  { assert (G : Forall (fun j => 0 <= j < n) (seqZ 0 n)) by (apply Forall_seqZ; lia).
    induction G as [|j l Hj G IHG]; [done|]. rewrite fmap_cons, !filter_cons.
    rewrite (range_bit blk p n) by lia. unfold bit_at at 1. cbn [fst snd]. repeat case_decide; cbn [length]; congruence. }
  apply u32_small.
  pose proof (length_filter (fun x => bit_at (ef_blocks (ticked t)) x = true) (take (Z.to_nat c) pos)).
  pose proof (length_filter (fun x => bit_at (ef_blocks (ticked t)) x = true) ((fun j => (blk, p + j)) <$> seqZ 0 n)) as L2.
  rewrite length_fmap, length_seqZ in L2. rewrite length_take in *. lia.
Qed.
End Reading.

(** ** Repeated reading *)

(** The other tasks finish what they began. *)
Definition env_ends (s : efuse) : Prop := Z.even (s_burn_counter (after (length (ef_env s)) s)) = true.

Lemma read_retry_spec {A} (content : regs -> A -> Prop) once fuel s :
  reading content once -> counter_ok s -> env_ends s -> (length (ef_env s) < fuel)%nat ->
  exists j k a, (j <= k)%nat /\ read_retry fuel once s = RET (ESP_OK, a) (after k s) /\ content (ef_blocks (after j s)) a.
Proof.
  intros Honce. revert s. induction fuel as [|fuel IH]; intros s Hs He Hf; [lia|].
  destruct (Honce s Hs) as (k & a & E & Hk & Hc). cbn [read_retry]. rewrite (bind_RET _ _ _ _ _ E). cbn [fst].
  destruct (calm (after 1 s) (after k s)) eqn:Ecalm.
  { exists 1%nat, k, a. rewrite decide_False by done. auto. }
  rewrite decide_True by done. rewrite (bind_RET tick _ _ tt (after (S k) s) eq_refl).
  destruct (after_counts (S k) s (proj1 Hs) (proj2 (proj2 Hs))) as (_ & _ & _ & L & _).
  destruct (decide (length (ef_env s) = 0)%nat) as [E0|].
  { exfalso. unfold env_ends in He. rewrite E0 in He. rewrite (after_end 1 s), (after_end k s), E0 in Ecalm by lia.
    unfold calm in Ecalm. by rewrite Z.eqb_refl, land_1_even, He in Ecalm. }
  destruct (IH (after (S k) s)) as (j & k' & a' & Hj & E' & C'); [by apply counter_ok_after| |lia|].
  - unfold env_ends in *. rewrite <- after_add, after_end by lia. done.
  - exists (S k + j)%nat, (S k + k')%nat, a'. rewrite !after_add. split_and!; [lia|done|done].
Qed.

Lemma number_of_items_spec size : 0 <= size ->
  0 <= esp_efuse_utility_get_number_of_items size 8 /\ size <= 8 * esp_efuse_utility_get_number_of_items size 8 < size + 8.
Proof. intros. unfold esp_efuse_utility_get_number_of_items. zcase; Z.to_euclidean_division_equations; lia. Qed.

Lemma memset0_spec n dst s : bytes dst -> 0 <= n <= Z.of_nat (length dst) ->
  exists blob, memset0 n dst s = RET blob s /\ bytes blob /\ length blob = length dst /\
    forall i, 0 <= i -> blob_bit blob i = (8 * n <=? i) && blob_bit dst i.
Proof.
  intros Hb Hn. unfold memset0, assert_. unfold mbind, M_bind. rewrite (proj2 (Z.leb_le _ _)) by lia.
  eexists. split; [done|]. split_and!.
  - intros i b. rewrite lookup_app. destruct (replicate _ 0 !! i) eqn:E.
    + apply lookup_replicate in E as [-> _]. intros [= <-]. by unfold is_byte.
    + rewrite length_replicate, lookup_drop. apply Hb.
  - rewrite length_app, length_replicate, length_drop. lia.
  - intros i Hi. unfold blob_bit. rewrite lookup_app. destruct (Z.leb_spec (8 * n) i); cbn.
    + rewrite (proj1 (lookup_replicate_None _ _ _)) by (Z.to_euclidean_division_equations; lia). rewrite length_replicate, lookup_drop. do 3 f_equal.
      Z.to_euclidean_division_equations; lia.
    + rewrite lookup_replicate_2 by (Z.to_euclidean_division_equations; lia). apply Z.testbit_0_l.
Qed.

Section ReadApi.
Context (chip : efuse_chip) (Hchip : chip_ok chip) (field : list esp_efuse_desc_t) (Hfield : field_ok chip field).
Abbreviation pos := (field_pos field).

(** The bits of [dst] that a read of [size] bits does not clear. *)
Definition beyond (dst : list Z) (size i : Z) : bool := (8 * esp_efuse_utility_get_number_of_items size 8 <=? i) && blob_bit dst i.

Lemma read_field_blob_spec dst size s :
  bytes dst -> 0 < size -> esp_efuse_utility_get_number_of_items size 8 <= Z.of_nat (length dst) -> counter_ok s -> env_ends s ->
  exists j k dst', (j <= k)%nat /\ esp_efuse_read_field_blob chip (Some field) (Some dst) size s = RET (ESP_OK, Some dst') (after k s) /\
    bytes dst' /\ length dst' = length dst /\
    shows (ef_blocks (after j s)) pos (Z.min size (Z.of_nat (length pos))) (beyond dst size) dst'.
Proof.
  intros Hb Hsize Hl Hs He. destruct (number_of_items_spec size ltac:(lia)) as [N0 N1].
  destruct (memset0_spec (esp_efuse_utility_get_number_of_items size 8) dst s) as (blob & _ & B & L & G); [done|lia|].
  destruct (read_retry_spec (fun r b => (bytes b /\ length b = length blob) /\ shows r pos (Z.min size (Z.of_nat (length pos))) (blob_bit blob) b)
    (blob ← memset0 (esp_efuse_utility_get_number_of_items size 8) dst;
     esp_efuse_utility_process (esp_efuse_utility_fill_buff chip) true field blob size) (read_fuel s) s) as (j & k & b & Hj & E & (Hb' & Hl') & Hshow);
    [|done|done|unfold read_fuel; lia|].
  - intros t Ht. destruct (memset0_spec (esp_efuse_utility_get_number_of_items size 8) dst t) as (blob' & E' & B' & L' & G'); [done|lia|].
    destruct (reading_blob chip Hchip field Hfield blob' size) with (s := t) as (k & b & E & Hk & Hc); [lia|done|lia|done|].
    exists k, b. rewrite (bind_RET _ _ _ _ _ E'). split_and!; [done..|]. intros Hcalm.
    destruct (Hc Hcalm) as [[? ?] Hshow]. split; [split; [done|congruence]|]. intros i Hi. rewrite Hshow, G, G' by done. done.
  - exists j, k, b. split; [done|]. split; [|split_and!; [done|congruence|]].
    + unfold esp_efuse_read_field_blob. rewrite (proj2 (Z.eqb_neq _ _)) by lia.
      rewrite (bind_RET (gets read_fuel) _ _ _ _ eq_refl). by rewrite (bind_RET _ _ _ _ _ E).
    + intros i Hi. by rewrite Hshow, G by done.
Qed.

Lemma read_field_cnt_spec s : Z.of_nat (length pos) < 2 ^ 32 -> counter_ok s -> env_ends s ->
  exists j k, (j <= k)%nat /\ esp_efuse_read_field_cnt chip (Some field) s = RET (ESP_OK, count_set (ef_blocks (after j s)) pos) (after k s).
Proof.
  intros Hl Hs He. destruct (read_retry_spec (fun r n => n = count_set r pos) _ (read_fuel s) s (reading_cnt chip Hchip field Hfield Hl))
    as (j & k & a & Hj & E & ->); [done|done|unfold read_fuel; lia|]. by exists j, k.
Qed.
End ReadApi.

(** C18: Reading a field takes no lock and looks at a counter before and
    after. Let other tasks increment the counter and change registers between
    any two accesses of the reader, but a register only while the counter is
    odd, fewer than 2^32 steps in all, with the counter even at the end: then
    the read returns ESP_OK and gives exactly the bits of the field, or their
    number, at one moment of the call; the rest of the buffer is cleared up to
    the last byte and kept after it. A complete write of another task makes
    such steps (write_marked), except that the registers are read again by the
    controller at the end of the burn, while the counter is even; if they
    change their values during that, a read can return a mixture (see the
    findings). *)
Theorem efuse_read_snapshot chip field dst size s :
  chip_ok chip -> field_ok chip field -> Z.of_nat (length (field_pos field)) < 2 ^ 32 ->
  bytes dst -> 0 < size -> esp_efuse_utility_get_number_of_items size 8 <= Z.of_nat (length dst) -> counter_ok s -> env_ends s ->
  (exists j k dst', (j <= k)%nat /\ esp_efuse_read_field_blob chip (Some field) (Some dst) size s = RET (ESP_OK, Some dst') (after k s) /\
     length dst' = length dst /\
     forall i, 0 <= i -> blob_bit dst' i = beyond dst size i ||
       match field_pos field !! Z.to_nat i with Some x => (i <? size) && bit_at (ef_blocks (after j s)) x | None => false end) /\
  (exists j k, (j <= k)%nat /\ esp_efuse_read_field_cnt chip (Some field) s =
     RET (ESP_OK, count_set (ef_blocks (after j s)) (field_pos field)) (after k s)).
Proof.
  intros Hchip Hfield Hlen Hb Hsize Hl Hs He. split; [|by apply read_field_cnt_spec].
  destruct (read_field_blob_spec chip Hchip field Hfield dst size s) as (j & k & b & Hj & E & _ & L & G); [done..|].
  exists j, k, b. split_and!; [done..|]. intros i Hi. rewrite G by done. f_equal.
  destruct (field_pos field !! Z.to_nat i) eqn:Ep; [|done]. apply lookup_lt_Some in Ep. f_equal. repeat zcase; lia.
Qed.

(** *** The steps of another task that writes

    The writing functions of esp_efuse_api.c reset the write registers, burn,
    and reset again; every reset makes the controller read the eFuses again
    between two increments of the counter, and so does the end of a burn. *)
Definition reset_steps (reload : list env_step) : list env_step := Count :: reload ++ [Count].
Definition burn_steps (program reload : list env_step) : list env_step := Count :: program ++ reset_steps reload ++ [Count].
Definition write_steps (reload1 program reload2 reload3 : list env_step) : list env_step :=
  reset_steps reload1 ++ burn_steps program reload2 ++ reset_steps reload3.

Definition is_load (e : env_step) : Prop := match e with Load _ _ _ => True | Count => False end.
Abbreviation run es s := (foldl (fun s e => env_apply e s) s es).

Lemma loads_counter es s : Forall is_load es -> s_burn_counter (run es s) = s_burn_counter s.
Proof. revert s. induction es as [|e es IH]; intros s H; [done|]. inversion_clear H. cbn. rewrite IH by done. destruct e; [done|]. cbn. by case_match. Qed.

Lemma loads_odd_marked es s : Forall is_load es -> Z.odd (s_burn_counter s) = true -> marked es s.
Proof.
  revert s. induction es as [|e es IH]; intros s H Ho; [done|]. inversion_clear H as [|? ? He Hes]. destruct e as [|blk reg v]; [done|]. cbn [marked]. split.
  - rewrite <- Z.negb_odd, Ho. done.
  - apply IH; [done|]. cbn. by case_match.
Qed.

Lemma odd_next c : Z.odd (u32 (c + 1)) = Z.even c.
Proof. unfold u32. rewrite <- !Z.bit0_odd, Z.testbit_mod_pow2, Z.bit0_odd, Z.odd_add by lia. cbn. rewrite <- Z.negb_odd. by destruct (Z.odd c). Qed.

Lemma marked_count es s : marked (Count :: es) s <-> marked es (set_burn_counter (u32 (s_burn_counter s + 1)) s).
Proof. cbn. tauto. Qed.

(** Outside of a burn the counter is odd while the controller reads. *)
Lemma reset_marked reload s : Forall is_load reload -> Z.even (s_burn_counter s) = true ->
  marked (reset_steps reload) s /\ Z.even (s_burn_counter (run (reset_steps reload) s)) = true.
Proof.
  intros Hl He. unfold reset_steps. set (s1 := set_burn_counter (u32 (s_burn_counter s + 1)) s).
  assert (Ho : Z.odd (s_burn_counter s1) = true) by (cbn; by rewrite odd_next). rewrite marked_count, marked_app. fold s1. split.
  - split; [by apply loads_odd_marked|done].
  - cbn [foldl env_apply]. fold s1. rewrite foldl_app. cbn. rewrite loads_counter, <- Z.negb_odd, odd_next, <- Z.negb_odd by done.
    by rewrite Ho.
Qed.

(** A write changes registers only while the counter is odd, provided that the
    controller's reading at the end of the burn, when the counter is even,
    leaves the registers as they are. *)
Lemma write_marked reload1 program reload2 reload3 s :
  Forall is_load reload1 -> Forall is_load program -> Forall is_load reload2 -> Forall is_load reload3 -> Z.even (s_burn_counter s) = true ->
  (forall t, t = run (reset_steps reload1 ++ Count :: program ++ [Count]) s -> marked reload2 t) ->
  marked (write_steps reload1 program reload2 reload3) s /\ Z.even (s_burn_counter (run (write_steps reload1 program reload2 reload3) s)) = true.
Proof.
  intros H1 Hp H2 H3 He Hkeep. destruct (reset_marked reload1 s H1 He) as [M1 E1]. set (s1 := run (reset_steps reload1) s) in *.
  specialize (Hkeep _ eq_refl). rewrite foldl_app in Hkeep. fold s1 in Hkeep. cbn [foldl env_apply] in Hkeep.
  set (s2 := set_burn_counter (u32 (s_burn_counter s1 + 1)) s1) in *. rewrite foldl_app in Hkeep.
  assert (O2 : Z.odd (s_burn_counter s2) = true) by (cbn; by rewrite odd_next).
  set (s3 := run program s2) in *. assert (O3 : Z.odd (s_burn_counter s3) = true) by (unfold s3; by rewrite loads_counter).
  cbn [foldl env_apply] in Hkeep. set (s4 := set_burn_counter (u32 (s_burn_counter s3 + 1)) s3) in *.
  assert (E4 : Z.even (s_burn_counter s4) = true) by (cbn; by rewrite <- Z.negb_odd, odd_next, <- Z.negb_odd, O3).
  set (s5 := run reload2 s4). assert (E5 : Z.even (s_burn_counter s5) = true) by (unfold s5; by rewrite loads_counter).
  set (s6 := set_burn_counter (u32 (s_burn_counter s5 + 1)) s5). assert (O6 : Z.odd (s_burn_counter s6) = true) by (cbn; by rewrite odd_next).
  set (s7 := set_burn_counter (u32 (s_burn_counter s6 + 1)) s6).
  assert (E7 : Z.even (s_burn_counter s7) = true) by (cbn [s7 set_burn_counter s_burn_counter]; by rewrite <- Z.negb_odd, odd_next, <- Z.negb_odd, O6).
  assert (Er : run (burn_steps program reload2) s1 = s7).
  { unfold burn_steps, reset_steps. cbn [foldl env_apply]. fold s2. rewrite foldl_app. fold s3. cbn [foldl env_apply app]. fold s4. rewrite !foldl_app.
    fold s5. done. }
  unfold write_steps. rewrite !marked_app, !foldl_app. fold s1. rewrite Er. destruct (reset_marked reload3 s7 H3 E7) as [M3 E3].
  split; [|done]. split; [done|]. split; [|done]. unfold burn_steps, reset_steps. rewrite marked_count, marked_app. fold s2. split; [by apply loads_odd_marked|].
  fold s3. cbn [app]. rewrite marked_count, !marked_app. fold s4. split; [|done]. by split.
Qed.

(** A field of 40 bits in two blocks is read while another task burns it: the
    first round sees half of the change, the second all of it. *)
Definition xf_field : list esp_efuse_desc_t := [mkDesc 3 16 32; mkDesc 0 40 8].
Definition xf_env : list (list env_step) :=
  [[]; [Count; Count; Count]; [Load 3 0 0xAB0000]; [Load 0 1 0x4200; Count; Load 3 0 0xAB0000; Load 0 1 0x4200; Count]; [Count]; []].
Definition xf_state : efuse := mkEfuse (fun _ _ => 0) (fun _ _ => 0) 0 0 0 xf_env.

Lemma xf_field_ok : field_ok (esp32c3_efuse false) xf_field.
Proof. repeat constructor; cbn; lia. Qed.

Lemma efuse_read_snapshot_witness :
  (exists k dst', esp_efuse_read_field_blob (esp32c3_efuse false) (Some xf_field) (Some (replicate 5 0xEE)) 40 xf_state =
     RET (ESP_OK, Some dst') (after k xf_state) /\ length dst' = 5%nat) /\
  esp_efuse_read_field_blob (esp32c3_efuse false) (Some xf_field) (Some (replicate 5 0xEE)) 40 xf_state =
    RET (ESP_OK, Some [0xAB; 0; 0; 0; 0x42]) (after 11 xf_state).
Proof.
  split; [|vm_compute; reflexivity].
  destruct (efuse_read_snapshot (esp32c3_efuse false) xf_field (replicate 5 0xEE) 40 xf_state) as [(j & k & dst' & _ & E & L & _) _].
  - apply esp32c3_efuse_ok.
  - apply xf_field_ok.
  - reflexivity.
  - intros i b [-> _]%lookup_replicate. by unfold is_byte.
  - lia.
  - vm_compute. discriminate.
  - split; [by unfold is_u32|]. split; [reflexivity|]. vm_compute. by repeat split.
  - reflexivity.
  - exists k, dst'. split; [exact E|exact L].
Defined.

(** The reading at the end of a burn is not covered by the counter: a reader
    that comes then, when the counter is even, and finds the second register
    in the middle of being loaded returns ESP_OK with bits that the field has
    neither before nor after the burn. *)
Definition xr_env : list (list env_step) :=
  [[Count; Count; Count; Load 3 1 0x12; Load 3 0 0xAB0000; Count]; []; [Load 3 1 0]; [Load 3 1 0x12]; [Count; Count]].
Definition xr_state : efuse := mkEfuse (fun _ _ => 0) (fun _ _ => 0) 0 0 0 xr_env.

Fact reload_read_not_repeated :
  esp_efuse_read_field_blob (esp32c3_efuse false) (Some [mkDesc 3 16 24]) (Some [0; 0; 0]) 24 xr_state =
    RET (ESP_OK, Some [0xAB; 0; 0]) (after 4 xr_state) /\
  concat xr_env = reset_steps [] ++ burn_steps [Load 3 1 0x12; Load 3 0 0xAB0000] [Load 3 1 0; Load 3 1 0x12] /\
  ~ marked (concat xr_env) xr_state.
Proof. split; [vm_compute; reflexivity|]. split; [reflexivity|]. vm_compute. intuition discriminate. Qed.
