(* ===== verification/EfuseStage.v ===== *)
(** * Staging bits of eFuse fields

    What [esp_efuse_utility_write_blob] and [esp_efuse_utility_write_cnt] put
    into the write registers, for the bits of one register and for a field. *)

From S2P Require Import Prelude Flash SecureVersion Efuse EfuseSpec EfuseRead.

(** ** Bits from a buffer *)

Lemma blob_get_spec blob c s : bytes blob -> 0 <= c < 8 * Z.of_nat (length blob) ->
  exists b, blob_get blob (c / 8) s = RET b s /\ is_byte b /\ forall i, 0 <= i -> i / 8 = c / 8 -> blob_bit blob i = Z.testbit b (i mod 8).
Proof.
  intros Hb Hc. destruct (lookup_lt_is_Some_2 blob (Z.to_nat (c / 8))) as [b Eb]; [Z.to_euclidean_division_equations; lia|].
  exists b. unfold blob_get. rewrite Eb. split_and!; [done|by eapply Hb|]. intros i Hi E. unfold blob_bit. by rewrite E, Eb.
Qed.

Lemma fill_reg_loop_spec fuel blob v shift n c s :
  0 <= v < 2 ^ 32 -> 0 <= shift -> 0 <= n < Z.of_nat fuel -> (0 < n -> shift + n <= 32) -> 0 <= c -> (0 < n -> c mod 8 = 0) ->
  bytes blob -> c + n <= 8 * Z.of_nat (length blob) ->
  exists v', fill_reg_loop fuel blob v shift n c s = RET (v', c + n) s /\ 0 <= v' < 2 ^ 32 /\
    forall j, 0 <= j -> Z.testbit v' j = Z.testbit v j || ((shift <=? j) && (j <? shift + n) && blob_bit blob (c + (j - shift))).
Proof.
  revert v shift n c. induction fuel as [|fuel IH]; intros v shift n c Hv Hsh Hn H32 Hc Hm Hb Hl; [lia|].
  cbn [fill_reg_loop]. destruct (Z.ltb_spec 0 n).
  2: { exists v. replace (c + n) with c by lia. split_and!; [done|lia..|]. intros j Hj.
       assert ((shift <=? j) && (j <? shift + n) = false) as -> by (repeat zcase; cbn; lia). by rewrite orb_false_r. }
  destruct (blob_get_spec blob c s) as (b & Eb & Hbb & Gb); [done|lia|]. rewrite (bind_RET _ _ _ _ _ Eb).
  set (sb := if 8 <? n then 8 else n). assert (Hsb : sb = Z.min 8 n) by (unfold sb; zcase; lia).
  rewrite get_mask_0 by lia. set (w := Z.land b (Z.ones sb)). specialize (Hm ltac:(lia)). specialize (H32 ltac:(lia)).
  assert (Hw : 0 <= w < 2 ^ sb) by (apply land_ones_range; lia).
  assert (Tw : forall j, 0 <= j -> Z.testbit (u32 (Z.shiftl w shift)) j = (shift <=? j) && (j <? shift + sb) && blob_bit blob (c + (j - shift))).
  { intros j Hj. unfold u32. rewrite Z.testbit_mod_pow2, Z.shiftl_spec by lia. destruct (Z.leb_spec shift j); cbn [andb].
    - unfold w. rewrite testbit_land_ones by lia. destruct (Z.ltb_spec (j - shift) sb).
      + rewrite (proj2 (Z.ltb_lt j 32)), (proj2 (Z.ltb_lt j (shift + sb))) by lia. cbn [andb]. rewrite Gb by (Z.to_euclidean_division_equations; lia).
        f_equal. Z.to_euclidean_division_equations; lia.
      + rewrite (proj2 (Z.ltb_ge j (shift + sb))) by lia. apply andb_false_r.
    - rewrite Z.testbit_neg_r by lia. apply andb_false_r. }
  destruct (IH (Z.lor v (u32 (Z.shiftl w shift))) (shift + 8) (n - sb) (c + sb)) as (v' & E & R & G); try lia.
  { pose proof (u32_range (Z.shiftl w shift)). split; [apply Z.lor_nonneg; lia|]. apply lt_pow2_bits; [lia|apply Z.lor_nonneg; lia|].
    intros j Hj. by rewrite Z.lor_spec, !(high_bits_zero _ 32) by lia. }
  { Z.to_euclidean_division_equations; lia. }
  { done. }
  exists v'. rewrite E. split_and!; [by replace (c + sb + (n - sb)) with (c + n) by lia|lia..|].
  intros j Hj. rewrite G, Z.lor_spec, Tw, <- orb_assoc by lia. f_equal.
  destruct (Z.leb_spec (shift + 8) j); cbn [andb].
  - rewrite (proj2 (Z.ltb_ge j (shift + sb))), andb_false_r by lia. cbn [andb orb].
    rewrite (proj2 (Z.leb_le shift j)) by lia. cbn [andb]. destruct (decide (sb = 8)) as [E8|].
    + f_equal; [repeat zcase; lia|]. f_equal. lia.
    + rewrite (proj2 (Z.ltb_ge j (shift + 8 + (n - sb)))), (proj2 (Z.ltb_ge j (shift + n))) by lia. done.
  - rewrite orb_false_r. f_equal. f_equal. repeat zcase; lia.
Qed.

(** The bits of the buffer from [c] on, at [b] in the register. *)
Lemma fill_reg_spec blob b n c s :
  0 <= b -> 0 < n -> b + n <= 32 -> 0 <= c -> bytes blob -> c + n <= 8 * Z.of_nat (length blob) ->
  exists v, fill_reg b n blob c s = RET (v, c + n) s /\ 0 <= v < 2 ^ 32 /\
    forall j, 0 <= j -> Z.testbit v j = (b <=? j) && (j <? b + n) && blob_bit blob (c + (j - b)).
Proof.
  intros Hb0 Hn H32 Hc Hb Hl. unfold fill_reg. set (m := c mod 8). assert (0 <= m < 8) by (apply Z.mod_pos_bound; lia).
  assert (Hend : forall v0 sb, 0 <= sb <= n -> 0 <= v0 < 2 ^ 32 -> (0 < n - sb -> (c + sb) mod 8 = 0) ->
    (forall j, 0 <= j -> Z.testbit v0 j = (j <? sb) && blob_bit blob (c + j)) ->
    exists v, (r ← fill_reg_loop (S (Z.to_nat (n - sb))) blob v0 sb (n - sb) (c + sb);
       let '(reg_to_write, filled_bits_blob) := r in mret (u32 (Z.shiftl reg_to_write b), filled_bits_blob)) s = RET (v, c + n) s /\
      0 <= v < 2 ^ 32 /\ forall j, 0 <= j -> Z.testbit v j = (b <=? j) && (j <? b + n) && blob_bit blob (c + (j - b))).
  { intros v0 sb Hsb Hv0 Hal T0.
    destruct (fill_reg_loop_spec (S (Z.to_nat (n - sb))) blob v0 sb (n - sb) (c + sb) s) as (v1 & E1 & R1 & G1); try lia; try done.
    exists (u32 (Z.shiftl v1 b)). rewrite (bind_RET _ _ _ _ _ E1). split_and!; [|apply u32_range..|].
    - by replace (c + sb + (n - sb)) with (c + n) by lia.
    - intros j Hj. unfold u32. rewrite Z.testbit_mod_pow2, Z.shiftl_spec by lia. destruct (Z.leb_spec b j); cbn [andb].
      2: { rewrite Z.testbit_neg_r by lia. apply andb_false_r. }
      rewrite G1, T0 by lia. replace (c + sb + (j - b - sb)) with (c + (j - b)) by lia.
      destruct (blob_bit blob (c + (j - b))); rewrite ?andb_false_r, ?andb_true_r; [|done]. repeat zcase; cbn; lia. }
  destruct (Z.eqb_spec m 0) as [Em|Em]; cbn [negb].
  - rewrite bind_mret. cbn beta iota. rewrite Em. specialize (Hend 0 0). rewrite !Z.sub_0_r, !Z.add_0_r in Hend.
    apply Hend; [lia|lia|by fold m|]. intros j Hj. rewrite Z.testbit_0_l. by rewrite (proj2 (Z.ltb_ge j 0)) by lia.
  - destruct (blob_get_spec blob c s) as (x & Ex & Hx & Gx); [done|lia|].
    rewrite bind_assoc, (bind_RET _ _ _ _ _ Ex), bind_mret. cbn beta iota.
    set (sb := if 8 - m <? n then 8 - m else n). assert (Hsb : sb = Z.min (8 - m) n) by (unfold sb; zcase; lia).
    rewrite get_mask_0 by lia. apply Hend; [lia| | |].
    + pose proof (land_ones_range (Z.shiftr x m) sb ltac:(lia)). assert (2 ^ sb <= 2 ^ 32) by (apply Z.pow_le_mono_r; lia). lia.
    + intros. replace sb with (8 - m) by lia. unfold m. Z.to_euclidean_division_equations; lia.
    + intros j Hj. rewrite testbit_land_ones by lia. destruct (Z.ltb_spec j sb); cbn [andb]; [|done].
      rewrite Z.shiftr_spec by lia. rewrite Gx by (unfold m in *; Z.to_euclidean_division_equations; lia). f_equal.
      unfold m in *. Z.to_euclidean_division_equations; lia.
Qed.

(** ** Staged bits *)

(** [w'] has the bits of [w] and those of the list. *)
Definition adds (w w' : regs) (l : list (Z * Z)) : Prop :=
  forall blk q, 0 <= q -> reg_bit w' blk q = reg_bit w blk q || bool_decide ((blk, q) ∈ l).

(** The state with bits of the list staged. *)
Definition stages (s t : efuse) (l : list (Z * Z)) : Prop :=
  exists w, t = set_wdata w s /\ words w /\ adds (ef_wdata s) w l.

Lemma lor_u32 a b : is_u32 a -> is_u32 b -> is_u32 (Z.lor a b).
Proof.
  unfold is_u32. intros. assert (0 <= Z.lor a b) by (apply Z.lor_nonneg; lia). split; [done|].
  apply lt_pow2_bits; [lia|done|]. intros j Hj. by rewrite Z.lor_spec, !(high_bits_zero _ 32) by lia.
Qed.

Lemma stages_nil s : words (ef_wdata s) -> stages s s [].
Proof. intros Hw. exists (ef_wdata s). split_and!; [by destruct s|done|]. intros blk q _. by rewrite orb_false_r. Qed.

Lemma stages_blocks s t l : stages s t l -> ef_blocks t = ef_blocks s.
Proof. by intros (w & -> & _). Qed.

(** One register more. *)
Lemma stages_reg s t l l' blk p n v :
  stages s t l -> 0 <= p -> 0 < n -> p mod 32 + n <= 32 -> is_u32 v ->
  (forall j, 0 <= j -> Z.testbit v j = (p mod 32 <=? j) && (j <? p mod 32 + n) && bool_decide ((blk, p + (j - p mod 32)) ∈ l')) ->
  (forall x, x ∈ l' -> exists j, 0 <= j < n /\ x = (blk, p + j)) ->
  stages s (set_wdata (upd (ef_wdata t) blk (p / 32) (Z.lor (ef_wdata t blk (p / 32)) v)) t) (l ++ l').
Proof.
  intros (w & -> & Hw & Ha) Hp Hn H32 Hv Tv Hin. cbn. eexists. split_and!; [reflexivity| |].
  - intros b i. unfold upd. case_match; [|apply Hw]. apply lor_u32; [apply Hw|done].
  - intros b q Hq. assert (0 <= q mod 32 < 32) by (apply Z.mod_pos_bound; lia).
    assert (Eq : reg_bit (upd w blk (p / 32) (Z.lor (w blk (p / 32)) v)) b q =
      reg_bit w b q || ((b =? blk) && (q / 32 =? p / 32) && Z.testbit v (q mod 32))).
    { unfold reg_bit, upd. destruct (Z.eqb_spec b blk) as [->|]; cbn [andb]; [|by rewrite orb_false_r].
      destruct (Z.eqb_spec (q / 32) (p / 32)) as [->|]; cbn [andb]; [|by rewrite orb_false_r]. apply Z.lor_spec. }
    rewrite Eq, Ha, <- orb_assoc by done. f_equal.
    assert (Em : (b =? blk) && (q / 32 =? p / 32) && Z.testbit v (q mod 32) = bool_decide ((b, q) ∈ l')).
    { rewrite Tv by lia. destruct (bool_decide_reflect ((b, q) ∈ l')) as [Hm|Hm].
      - destruct (Hin _ Hm) as (j & Hj & [= -> ->]).
        replace ((p + j) mod 32) with (p mod 32 + j) by (Z.to_euclidean_division_equations; lia).
        replace ((p + j) / 32) with (p / 32) by (Z.to_euclidean_division_equations; lia).
        rewrite !Z.eqb_refl, (proj2 (Z.leb_le _ _)), (proj2 (Z.ltb_lt _ _)) by lia. cbn [andb].
        replace (p + (p mod 32 + j - p mod 32)) with (p + j) by lia. by apply bool_decide_eq_true.
      - destruct (Z.eqb_spec b blk) as [->|]; [|done]. destruct (Z.eqb_spec (q / 32) (p / 32)) as [E|]; [|done]. cbn [andb].
        replace (p + (q mod 32 - p mod 32)) with q by (Z.to_euclidean_division_equations; lia).
        rewrite (bool_decide_eq_false_2 _ Hm). apply andb_false_r. }
    rewrite Em. destruct (bool_decide_reflect ((b, q) ∈ l)), (bool_decide_reflect ((b, q) ∈ l')); symmetry;
      (apply bool_decide_eq_true || apply bool_decide_eq_false); rewrite elem_of_app; tauto.
Qed.

(** ** Writing a buffer *)

(** The bits of a field where the buffer has a one. *)
Definition ones_of (src : list Z) (pos : list (Z * Z)) (c n : Z) : list (Z * Z) :=
  omap (fun i => if blob_bit src i then pos !! Z.to_nat i else None) (seqZ c n).

Lemma elem_of_ones_of src pos c n x : x ∈ ones_of src pos c n <-> exists i, c <= i < c + n /\ blob_bit src i = true /\ pos !! Z.to_nat i = Some x.
Proof.
  unfold ones_of. rewrite list_elem_of_omap. split.
  - intros (i & Hi%elem_of_seqZ & E). exists i. destruct (blob_bit src i); [|done]. auto.
  - intros (i & Hi & E1 & E2). exists i. rewrite E1. split; [by apply elem_of_seqZ|done].
Qed.

Lemma ones_of_app src pos c n : 0 <= c -> 0 <= n -> ones_of src pos 0 (c + n) = ones_of src pos 0 c ++ ones_of src pos c n.
Proof. intros. unfold ones_of. by rewrite seqZ_app, omap_app by lia. Qed.

Section Process.
Context (chip : efuse_chip) (Hchip : chip_ok chip) (field : list esp_efuse_desc_t) (Hfield : field_ok chip field).
Abbreviation pos := (field_pos field).

(** The field with a function that is not a reading function. *)
Lemma process_locked {A} (func_proc : Z -> Z -> Z -> Z -> A -> Z -> M efuse (esp_err_t * A * Z)) (size : Z) I E ptr s :
  let req := if size =? 0 then Z.of_nat (length pos) else Z.min size (Z.of_nat (length pos)) in
  0 <= size ->
  (forall blk p n c ptr s,
    0 <= blk < EFUSE_BLK_MAX chip -> 0 <= p -> 0 < n -> p mod 32 + n <= 32 -> p / 32 < rd_regs chip blk -> 0 <= c -> c + n <= req ->
    (forall j, 0 <= j < n -> pos !! Z.to_nat (c + j) = Some (blk, p + j)) ->
    I c ptr s -> done_with req I E (c + n) (func_proc (p / 32) blk (p mod 32) n ptr c s)) ->
  I 0 ptr s ->
  exists err ptr' t, esp_efuse_utility_process func_proc false field ptr size s = RET (err, ptr') t /\
    (if is_ok err then I req ptr' t else exists c, 0 <= c <= req /\ E err c ptr' t).
Proof.
  intros req Hsize Hstep HI. assert (Hreq : 0 <= req <= Z.of_nat (length pos)) by (unfold req; case_match; lia).
  destruct (process_rule chip Hchip func_proc field Hfield req (proj2 Hreq) I E Hstep ptr s (proj1 Hreq) HI)
    as (err & a & c & t & Er & Hpost).
  exists err, a, t. unfold esp_efuse_utility_process. rewrite (field_size_spec chip field Hfield). fold req.
  rewrite (bind_RET (pass false) _ s tt s eq_refl), (bind_RET (gets s_burn_counter) _ _ _ _ eq_refl), (bind_RET _ _ _ _ _ Er).
  rewrite (bind_RET (pass false) _ _ tt t eq_refl), (bind_RET (gets s_burn_counter) _ _ _ _ eq_refl).
  rewrite andb_false_r. cbn [andb]. unfold assert_, mbind, M_bind. destruct (is_ok err).
  - destruct Hpost as [-> HI']. by rewrite Z.leb_refl.
  - destruct Hpost as [Hc HE]. rewrite (proj2 (Z.leb_le c req)) by lia. split; [done|]. by exists c.
Qed.

(** A bit of the list is programmed already. *)
Definition conflict (r : regs) (l : list (Z * Z)) : bool := existsb (bit_at r) l.

Section Piece.
Context (src : list Z) (blk p n c : Z) (Hp : 0 <= p) (Hn : 0 < n) (H32 : p mod 32 + n <= 32) (Hc : 0 <= c).
Context (Hpos : forall j, 0 <= j < n -> pos !! Z.to_nat (c + j) = Some (blk, p + j)).

Lemma piece_ones x : x ∈ ones_of src pos c n <-> exists j, 0 <= j < n /\ x = (blk, p + j) /\ blob_bit src (c + j) = true.
Proof.
  rewrite elem_of_ones_of. split.
  - intros (i & Hi & E1 & E2). exists (i - c). split; [lia|]. replace i with (c + (i - c)) in E2 by lia. rewrite Hpos in E2 by lia.
    injection E2 as <-. by replace (c + (i - c)) with i by lia.
  - intros (j & Hj & -> & E1). exists (c + j). split_and!; [lia..|done|by apply Hpos].
Qed.

Lemma piece_mem j : 0 <= j < n -> bool_decide ((blk, p + j) ∈ ones_of src pos c n) = blob_bit src (c + j).
Proof.
  intros Hj. destruct (blob_bit src (c + j)) eqn:Eb.
  - apply bool_decide_eq_true, piece_ones. by exists j.
  - apply bool_decide_eq_false. intros (j' & _ & [= E'] & E2)%piece_ones. assert (j' = j) as -> by lia. congruence.
Qed.

(** The test of [esp_efuse_utility_write_reg]. *)
Lemma piece_conflict r v :
  (forall j, 0 <= j -> Z.testbit v j = (p mod 32 <=? j) && (j <? p mod 32 + n) && blob_bit src (c + (j - p mod 32))) ->
  negb (Z.land (r blk (p / 32)) v =? 0) = conflict r (ones_of src pos c n).
Proof using Hpos Hp Hn H32.
  intros Tv. assert (0 <= p mod 32 < 32) by (apply Z.mod_pos_bound; lia). unfold conflict.
  destruct (existsb _ _) eqn:Ex.
  - apply existsb_exists in Ex as (x & Hx%list_elem_of_In & Hbx). apply piece_ones in Hx as (j & Hj & -> & Eb).
    apply negb_true_iff, Z.eqb_neq. intros E0.
    assert (Z.testbit (Z.land (r blk (p / 32)) v) (p mod 32 + j) = false) as H0 by (rewrite E0; apply Z.testbit_0_l).
    rewrite Z.land_spec, (range_bit blk p n), Tv in H0 by lia. unfold bit_at in Hbx. cbn in Hbx. rewrite Hbx in H0.
    replace (c + (p mod 32 + j - p mod 32)) with (c + j) in H0 by lia. rewrite Eb in H0.
    rewrite (proj2 (Z.leb_le _ _)), (proj2 (Z.ltb_lt _ _)) in H0 by lia. done.
  - apply negb_false_iff, Z.eqb_eq, Z.bits_inj'. intros j Hj. rewrite Z.testbit_0_l, Z.land_spec, Tv by lia.
    destruct (decide (p mod 32 <= j < p mod 32 + n)).
    + replace j with (p mod 32 + (j - p mod 32)) at 1 by lia. rewrite (range_bit blk p n) by lia.
      destruct (reg_bit r blk _) eqn:Ebit; [|done]. destruct (blob_bit src (c + (j - p mod 32))) eqn:Eb; [|by rewrite !andb_false_r].
      exfalso. apply not_true_iff_false in Ex. apply Ex, existsb_exists. exists (blk, p + (j - p mod 32)).
      split; [|done]. apply list_elem_of_In, piece_ones. exists (j - p mod 32). split; [lia|done].
    + assert ((p mod 32 <=? j) && (j <? p mod 32 + n) = false) as -> by (repeat zcase; cbn; lia). by rewrite andb_false_r.
Qed.
End Piece.

(** Staging the bits of a buffer fails at a bit that is programmed. *)
Lemma stage_blob src size s : bytes src -> words (ef_wdata s) -> 0 < size ->
  let req := Z.min size (Z.of_nat (length pos)) in req <= 8 * Z.of_nat (length src) ->
  exists err t, esp_efuse_utility_process (esp_efuse_utility_write_blob chip) false field src size s = RET (err, src) t /\
    err = (if conflict (ef_blocks s) (ones_of src pos 0 req) then ESP_ERR_EFUSE_REPEATED_PROG else ESP_OK) /\
    exists c, 0 <= c <= req /\ stages s t (ones_of src pos 0 c) /\ (err = ESP_OK -> c = req).
Proof.
  intros Hb Hw Hsize req Hl.
  pose proof (process_locked (esp_efuse_utility_write_blob chip) size
    (fun c ptr t => ptr = src /\ conflict (ef_blocks s) (ones_of src pos 0 c) = false /\ stages s t (ones_of src pos 0 c))
    (fun err c ptr t => ptr = src /\ err = ESP_ERR_EFUSE_REPEATED_PROG /\ conflict (ef_blocks s) (ones_of src pos 0 c) = true /\
       exists c0, 0 <= c0 <= req /\ stages s t (ones_of src pos 0 c0)) src s) as P.
  cbn zeta in P. rewrite (proj2 (Z.eqb_neq size 0)) in P by lia. fold req in P.
  destruct P as (err & a & t & E & Hpost); [lia| | |].
  - intros blk p n c ptr t Hblk Hp Hn H32 Hrd Hc Hcn Hpos (-> & Hnc & Hst). assert (0 <= p mod 32 < 32) by (apply Z.mod_pos_bound; lia).
    destruct (fill_reg_spec src (p mod 32) n c t) as (v & Ev & Rv & Tv); [lia..|done|lia|].
    unfold esp_efuse_utility_write_blob. rewrite (bind_RET _ _ _ _ _ Ev). cbn beta iota.
    unfold esp_efuse_utility_write_reg. rewrite bind_assoc, (bind_RET _ _ _ _ _ (read_reg_spec chip Hchip blk p Hblk Hp Hrd t)).
    rewrite (piece_conflict src blk p n c), (stages_blocks _ _ _ Hst) by done.
    assert (Ec : conflict (ef_blocks s) (ones_of src pos 0 (c + n)) = conflict (ef_blocks s) (ones_of src pos c n)).
    { rewrite ones_of_app by lia. unfold conflict in *. by rewrite existsb_app, Hnc. }
    destruct (conflict (ef_blocks s) (ones_of src pos c n)).
    + do 4 eexists. split; [reflexivity|]. cbn [is_ok]. split; [lia|]. split_and!; [done..|]. exists c. split; [lia|done].
    + rewrite bind_assoc, (bind_RET _ _ _ _ _ (write_reg_spec chip Hchip blk p Hblk Hp Hrd v t)).
      do 4 eexists. split; [reflexivity|]. cbn [is_ok]. split_and!; [done..|]. rewrite ones_of_app by lia.
      apply (stages_reg _ _ _ _ blk p n); try done.
      * intros j Hj. rewrite Tv by lia. destruct (decide (p mod 32 <= j < p mod 32 + n)).
        { by rewrite (piece_mem src blk p n c) by (done || lia). }
        { by assert ((p mod 32 <=? j) && (j <? p mod 32 + n) = false) as -> by (repeat zcase; cbn; lia). }
      * intros x (j & Hj & -> & _)%(piece_ones src blk p n c); [by exists j|done].
  - split_and!; [done..|]. by apply stages_nil.
  - exists err, t. destruct (is_ok_spec err) as [->|Hne].
    + destruct Hpost as (-> & -> & Hst). split_and!; [done..|]. exists req. split; [lia|]. done.
    + destruct Hpost as (c & Hcr & -> & -> & Hco & c0 & Hc0 & Hst). split; [done|]. split.
      * replace req with (c + (req - c)) by lia. rewrite ones_of_app by lia. unfold conflict in *. by rewrite existsb_app, Hco.
      * exists c0. split; [done|]. by split.
Qed.

(** ** Setting a number of bits *)

(** The bits that are not programmed. *)
Definition free (r : regs) (l : list (Z * Z)) : list (Z * Z) := filter (fun x => bit_at r x = false) l.

Lemma bool_decide_cons {X} `{EqDecision X} (x y : X) l : bool_decide (x ∈ y :: l) = bool_decide (x = y) || bool_decide (x ∈ l).
Proof.
  destruct (bool_decide_reflect (x = y)), (bool_decide_reflect (x ∈ l)); cbn;
    (apply bool_decide_eq_true || apply bool_decide_eq_false); rewrite elem_of_cons; tauto.
Qed.

Lemma set_cnt_loop_spec n i masked v cnt :
  let unset := filter (fun j => Z.testbit masked j = false) (seqZ i (Z.of_nat n)) in
  0 <= i -> i + Z.of_nat n <= 32 -> is_u32 v -> 0 < cnt < 2 ^ 32 ->
  exists v', set_cnt_loop n i masked v cnt = (v', cnt - Z.min cnt (Z.of_nat (length unset))) /\ is_u32 v' /\
    forall j, 0 <= j -> Z.testbit v' j = Z.testbit v j || bool_decide (j ∈ take (Z.to_nat cnt) unset).
Proof.
  revert i v cnt. induction n as [|n IH]; intros i v cnt unset Hi H32 Hv Hcnt.
  { exists v. subst unset. rewrite seqZ_nil, list.filter_nil, take_nil by lia. cbn [length set_cnt_loop]. split_and!; [f_equal; lia|apply Hv..|]. intros j Hj. by rewrite orb_false_r. }
  subst unset. rewrite seqZ_cons, filter_cons by lia. cbn [set_cnt_loop].
  replace (seqZ (Z.succ i) (Z.pred (Z.of_nat (S n)))) with (seqZ (i + 1) (Z.of_nat n)) by (f_equal; lia).
  destruct (Z.testbit masked i) eqn:Et; cbn [negb]; [rewrite decide_False by done; apply IH; first [done|lia]|].
  rewrite decide_True by done. set (unset := filter _ _). rewrite (u32_small (cnt - 1)) by lia.
  set (w := Z.lor v (u32 (Z.shiftl 1 i))).
  assert (Tw : forall j, 0 <= j -> Z.testbit w j = Z.testbit v j || bool_decide (j = i)).
  { intros j Hj. unfold w, u32. rewrite Z.lor_spec, Z.testbit_mod_pow2, Z.shiftl_1_l, Z.pow2_bits_eqb by lia. f_equal.
    destruct (bool_decide_reflect (j = i)) as [->|]; [rewrite Z.eqb_refl, (proj2 (Z.ltb_lt _ _)) by lia; done|].
    rewrite (proj2 (Z.eqb_neq i j)) by lia. apply andb_false_r. }
  assert (Hw : is_u32 w) by (apply lor_u32; [done|apply u32_range]).
  destruct (Z.eqb_spec (cnt - 1) 0).
  - exists w. assert (cnt = 1) as -> by lia. split_and!; [f_equal; cbn [length]; lia|apply Hw..|]. intros j Hj. rewrite Tw by done. f_equal.
    change (Z.to_nat 1) with 1%nat. rewrite firstn_cons, firstn_O, bool_decide_cons. by rewrite orb_false_r.
  - destruct (IH (i + 1) w (cnt - 1)) as (v' & E & R & G); [lia..|done|lia|]. fold unset in E, G.
    exists v'. rewrite E. split_and!; [f_equal; cbn [length]; lia|apply R..|]. intros j Hj. rewrite G, Tw, <- orb_assoc by done. f_equal.
    replace (Z.to_nat cnt) with (S (Z.to_nat (cnt - 1))) by lia. by rewrite firstn_cons, bool_decide_cons.
Qed.

Lemma free_app r l1 l2 : free r (l1 ++ l2) = free r l1 ++ free r l2.
Proof. apply list.filter_app. Qed.

(** The free bits of a range, from its register. *)
Lemma piece_free blk p n (r : regs) : p mod 32 + n <= 32 -> 0 < n -> 0 <= p ->
  free r ((fun j => (blk, p + j)) <$> seqZ 0 n) =
  (fun j => (blk, p + (j - p mod 32))) <$> filter (fun j => Z.testbit (Z.land (r blk (p / 32)) (get_mask n (p mod 32))) j = false) (seqZ (p mod 32) n).
Proof.
  intros H32 Hn Hp. assert (0 <= p mod 32 < 32) by (apply Z.mod_pos_bound; lia). set (b := p mod 32) in *.
  replace (seqZ b n) with (Z.add b <$> seqZ 0 n) by (rewrite fmap_add_seqZ; f_equal; lia).
  assert (G : Forall (fun j => 0 <= j < n) (seqZ 0 n)) by (apply Forall_seqZ; lia). unfold free.
  induction G as [|j l Hj G IH]; [done|]. rewrite !fmap_cons, !filter_cons, IH. unfold bit_at at 1. cbn [fst snd].
  rewrite Z.land_spec, get_mask_spec by lia. rewrite (proj2 (Z.leb_le _ _)), (proj2 (Z.ltb_lt _ _)), andb_true_r by lia.
  unfold b. rewrite (range_bit blk p n) by (fold b; lia). fold b. repeat case_decide; try congruence.
  rewrite fmap_cons. f_equal. f_equal. lia.
Qed.

Lemma write_cnt_spec blk p n c cnt s t l :
  0 <= blk < EFUSE_BLK_MAX chip -> 0 <= p -> 0 < n -> p mod 32 + n <= 32 -> p / 32 < rd_regs chip blk -> 0 < cnt < 2 ^ 32 -> stages s t l ->
  let new := free (ef_blocks t) ((fun j => (blk, p + j)) <$> seqZ 0 n) in
  let cnt' := cnt - Z.min cnt (Z.of_nat (length new)) in
  exists t', esp_efuse_utility_write_cnt chip (p / 32) blk (p mod 32) n cnt c t =
    RET (if cnt' =? 0 then ESP_OK_EFUSE_CNT else ESP_OK, cnt', c + n) t' /\ stages s t' (l ++ take (Z.to_nat cnt) new).
Proof.
  intros Hblk Hp Hn H32 Hr Hcnt Hst new cnt'. assert (0 <= p mod 32 < 32) by (apply Z.mod_pos_bound; lia).
  subst cnt'. unfold new. rewrite piece_free by done. set (b := p mod 32) in *. set (r := ef_blocks t blk (p / 32)).
  set (unset := filter _ _). rewrite length_fmap, <- fmap_take. set (cnt' := cnt - _). unfold esp_efuse_utility_write_cnt.
  rewrite (bind_RET _ _ _ _ _ (read_reg_spec chip Hchip blk p Hblk Hp Hr t)). fold r.
  assert (Hun : forall j, j ∈ take (Z.to_nat cnt) unset -> b <= j < b + n).
  { intros j (i & Hj%list_elem_of_lookup_2 & _)%elem_of_take. unfold unset in Hj. apply list_elem_of_filter in Hj as [_ Hj%elem_of_seqZ]. done. }
  destruct (Z.eqb_spec (Z.lxor (Z.land r (get_mask n b)) (get_mask n b)) 0) as [E0|E0]; cbn [negb].
  - assert (unset = []) as Eun.
    { apply filter_none, Forall_seqZ. intros j Hj. apply Z.lxor_eq in E0. rewrite E0, get_mask_spec by lia. repeat zcase; cbn; lia. }
    rewrite bind_mret. unfold cnt'. rewrite Eun, take_nil. cbn [length]. rewrite Z.min_r, Z.sub_0_r by lia.
    exists t. split; [done|]. cbn. by rewrite app_nil_r.
  - unfold set_cnt_in_reg, assert_. rewrite (proj2 (Z.leb_le _ _)) by lia.
    destruct (set_cnt_loop_spec (Z.to_nat n) b (Z.land r (get_mask n b)) 0 cnt) as (v & Ev & Rv & Gv); [lia..|done|done|].
    rewrite Z2Nat.id in Ev, Gv by lia. fold unset in Ev, Gv.
    eexists. split.
    + rewrite !bind_assoc. unfold mbind at 1, M_bind at 1. cbn beta iota. rewrite bind_mret. rewrite Ev. cbn beta iota.
      rewrite bind_assoc, (bind_RET _ _ _ _ _ (write_reg_spec chip Hchip blk p Hblk Hp Hr v t)). reflexivity.
    + apply (stages_reg _ _ _ _ blk p n); try done; fold b.
      * intros j Hj. rewrite Gv, Z.testbit_0_l by lia. cbn [orb].
        destruct (bool_decide_reflect (j ∈ take (Z.to_nat cnt) unset)) as [Hm|Hm].
        { pose proof (Hun _ Hm). rewrite (proj2 (Z.leb_le _ _)), (proj2 (Z.ltb_lt _ _)) by lia. cbn [andb]. symmetry.
          apply bool_decide_eq_true, list_elem_of_fmap. by exists j. }
        { symmetry. apply andb_false_iff. right. apply bool_decide_eq_false. intros (j' & [= E'] & Hj')%list_elem_of_fmap.
          assert (j' = j) as -> by lia. done. }
      * intros x (j & -> & Hj)%list_elem_of_fmap. pose proof (Hun _ Hj). exists (j - b). split; [lia|done].
Qed.

(** Staging a number of bits takes the first free ones. *)
Lemma stage_cnt cnt s : words (ef_wdata s) -> 0 < cnt < 2 ^ 32 ->
  let all := free (ef_blocks s) pos in
  exists err t, esp_efuse_utility_process (esp_efuse_utility_write_cnt chip) false field cnt 0 s =
      RET (err, Z.max 0 (cnt - Z.of_nat (length all))) t /\
    err = (if cnt <=? Z.of_nat (length all) then ESP_OK_EFUSE_CNT else ESP_OK) /\ stages s t (take (Z.to_nat cnt) all).
Proof.
  intros Hw Hcnt all. set (done_at := fun c => free (ef_blocks s) (take (Z.to_nat c) pos)).
  pose proof (process_locked (esp_efuse_utility_write_cnt chip) 0
    (fun c m t => 0 < m /\ m = cnt - Z.of_nat (length (done_at c)) /\ stages s t (done_at c))
    (fun err c m t => err = ESP_OK_EFUSE_CNT /\ m = 0 /\ cnt <= Z.of_nat (length all) /\ stages s t (take (Z.to_nat cnt) all)) cnt s) as P.
  cbn zeta in P. cbn [Z.eqb] in P. destruct P as (err & m & t & E & Hpost); [lia| | |].
  - intros blk p n c m t Hblk Hp Hn H32 Hr Hc Hcn Hpos (Hm & Em & Hst).
    destruct (write_cnt_spec blk p n c m s t (done_at c)) as (t' & Et & Hst'); [done..|lia|done|].
    rewrite (stages_blocks _ _ _ Hst) in Et, Hst'.
    set (new := free (ef_blocks s) ((fun j => (blk, p + j)) <$> seqZ 0 n)) in *.
    assert (Ed : done_at (c + n) = done_at c ++ new).
    { unfold done_at. rewrite (take_piece (fun j => (blk, p + j)) pos c n) by (done || lia). apply free_app. }
    do 4 eexists. split; [exact Et|]. destruct (Z.eqb_spec (m - Z.min m (Z.of_nat (length new))) 0) as [E0|E0]; cbn [is_ok].
    + split; [lia|]. split_and!; [done|done| |].
      * unfold all. rewrite <- (take_drop (Z.to_nat (c + n)) pos), free_app, length_app. fold (done_at (c + n)). rewrite Ed, length_app. lia.
      * replace (take (Z.to_nat cnt) all) with (done_at c ++ take (Z.to_nat m) new); [done|].
        unfold all. rewrite <- (take_drop (Z.to_nat (c + n)) pos), free_app. fold (done_at (c + n)). rewrite Ed, <- app_assoc.
        rewrite take_app, (take_ge (done_at c)) by lia. f_equal. rewrite take_app_le by lia. f_equal. lia.
    + split; [done|]. rewrite Ed. split_and!; [lia|rewrite length_app; lia|]. by rewrite take_ge in Hst' by lia.
  - change (done_at 0) with (@nil (Z * Z)). cbn [length]. split_and!; [lia|lia|]. by apply stages_nil.
  - exists err, t. assert (Ea : done_at (Z.of_nat (length pos)) = all) by (unfold done_at; by rewrite Nat2Z.id, firstn_all).
    destruct (is_ok_spec err) as [->|Hne].
    + destruct Hpost as (Hm & -> & Hst). rewrite Ea in *. rewrite Z.max_r by lia. rewrite (proj2 (Z.leb_gt _ _)), take_ge by lia. done.
    + destruct Hpost as (c & Hc & -> & -> & Hle & Hst). rewrite Z.max_l, (proj2 (Z.leb_le _ _)) by lia. done.
Qed.
End Process.
