(* ===== verification/EfuseWrite.v ===== *)
(** * Burning eFuses

    What reaches the eFuses when the staged bits are burned, and what the
    writing functions of esp_efuse_api.c do as a whole. *)

From S2P Require Import Prelude Flash SecureVersion Efuse EfuseSpec EfuseRead EfuseStage.

(** ** The controller *)

(** [r'] has the bits of [r] and maybe some of [d]. *)
Definition grows (r r' : regs) (d : Z -> Z -> bool) : Prop :=
  words r' /\ forall blk q, 0 <= q ->
    (reg_bit r blk q = true -> reg_bit r' blk q = true) /\
    (reg_bit r' blk q = true -> reg_bit r blk q = true \/ d blk q = true).

(** [data] of block 0 sets bits of [RD_DIS] (esp32c3/esp_efuse_table.c), which
    hide other blocks. *)
Definition hides (blk : Z) (data : Z -> Z) : bool := (blk =? 0) && negb (Z.land (data 1) 0x7F =? 0).

(** Programming sets bits that are asked for and clears none. *)
Class HalLaws (hal_program : Z -> regs -> Z -> (Z -> Z) -> regs) : Prop := {
  hal_grows : forall n r blk data, words r -> hides blk data = false ->
    grows r (hal_program n r blk data) (fun b q => (b =? blk) && Z.testbit (data (q / 32)) (q mod 32))
}.

(** The controller sets all bits at the first attempt. *)
Definition hal_works (hal_program : Z -> regs -> Z -> (Z -> Z) -> regs) (coding_error : Z -> regs -> Z -> bool) : Prop :=
  (forall r blk data q, 0 <= q -> Z.testbit (data (q / 32)) (q mod 32) = true -> reg_bit (hal_program 1 r blk data) blk q = true) /\
  (forall n r blk, coding_error n r blk = false).

Lemma grows_refl r d : words r -> grows r r d.
Proof. intros Hr. split; [done|]. auto. Qed.

Lemma grows_trans r1 r2 r3 d : grows r1 r2 d -> grows r2 r3 d -> grows r1 r3 d.
Proof.
  intros [_ H1] [W H2]. split; [done|]. intros blk q Hq. specialize (H1 blk q Hq). specialize (H2 blk q Hq). tauto.
Qed.

Lemma grows_mono r r' (d d' : Z -> Z -> bool) : (forall blk q, 0 <= q -> d blk q = true -> d' blk q = true) -> grows r r' d -> grows r r' d'.
Proof. intros Hd [W H]. split; [done|]. intros blk q Hq. specialize (H blk q Hq). specialize (Hd blk q Hq). tauto. Qed.

(** Words and their bits. *)
Lemma land_self x y : 0 <= x < 2 ^ 32 -> (Z.land y x = x <-> forall j, 0 <= j < 32 -> Z.testbit x j = true -> Z.testbit y j = true).
Proof.
  intros Hx. split.
  - intros E j Hj Ht. rewrite <- E, Z.land_spec in Ht. by apply andb_true_iff in Ht as [? _].
  - intros H. apply Z.bits_inj'. intros j Hj. rewrite Z.land_spec. destruct (Z.testbit x j) eqn:E; [|apply andb_false_r].
    destruct (decide (j < 32)); [by rewrite H by (done || lia)|]. rewrite (high_bits_zero x 32) in E by lia. done.
Qed.

(** ** Attempts *)

Section Burn.
Context (chip : efuse_chip) (Hchip : chip_ok chip).
Context (hal_program : Z -> regs -> Z -> (Z -> Z) -> regs) (coding_error : Z -> regs -> Z -> bool) `{Hal : !HalLaws hal_program}.

Lemma correct_written_data_spec (w r : Z -> Z) n : (forall i, is_u32 (w i)) ->
  esp_efuse_utility_is_correct_written_data w r n = true <->
  forall q, 0 <= q -> q / 32 < n -> Z.testbit (w (q / 32)) (q mod 32) = true -> Z.testbit (r (q / 32)) (q mod 32) = true.
Proof.
  intros Hw. unfold esp_efuse_utility_is_correct_written_data, reg_list.
  assert (L : forallb (fun i => Z.land (r i) (w i) =? w i) (seqZ 0 n) = true <->
    forall q, 0 <= q -> q / 32 < n -> Z.testbit (w (q / 32)) (q mod 32) = true -> Z.testbit (r (q / 32)) (q mod 32) = true).
  { rewrite forallb_forall. split.
    - intros H q Hq Hn. assert (E : Z.land (r (q / 32)) (w (q / 32)) = w (q / 32)).
      { apply Z.eqb_eq, H, list_elem_of_In, elem_of_seqZ. split; [apply Z.div_pos; lia|lia]. }
      apply land_self; [apply Hw|done|]. apply Z.mod_pos_bound. lia.
    - intros H i Hi%list_elem_of_In%elem_of_seqZ. apply Z.eqb_eq, land_self; [apply Hw|]. intros j Hj.
      specialize (H (32 * i + j)). replace ((32 * i + j) / 32) with i in H by (Z.to_euclidean_division_equations; lia).
      replace ((32 * i + j) mod 32) with j in H by (Z.to_euclidean_division_equations; lia). apply H; lia. }
  destruct (forallb (fun i => w i =? r i) (seqZ 0 n)) eqn:Ef; [|done]. split; [intros _|done].
  intros q Hq Hn Ht. rewrite forallb_forall in Ef. assert (E : w (q / 32) = r (q / 32)); [|by rewrite <- E].
  apply Z.eqb_eq, Ef, list_elem_of_In, elem_of_seqZ. split; [apply Z.div_pos; lia|lia].
Qed.

(** The attempts are related as one attempt is. *)
Lemma burn_attempts_rel (R : regs -> regs -> Prop) fuel n blk data before r :
  (forall m r, words r -> R r (hal_program m r blk data) /\ words (hal_program m r blk data)) -> (forall a b c, R a b -> R b c -> R a c) ->
  words r -> (forall i, is_u32 (data i)) ->
  let '(ok, occurred, r') := burn_attempts chip hal_program coding_error fuel n blk data before r in
  R r r' /\ words r' /\
  (ok = true -> forall q, 0 <= q -> q / 32 < rd_regs chip blk -> Z.testbit (data (q / 32)) (q mod 32) = true -> reg_bit r' blk q = true) /\
  (hal_works hal_program coding_error -> n = 1 -> ok = true /\ occurred = false).
Proof.
  clear Hal. intros HR Ht Hr Hd. revert n r Hr. induction fuel as [|fuel IH]; intros n r Hr; destruct (HR n r Hr) as [G W'].
  - cbn [burn_attempts]. set (r' := hal_program n r blk data). split_and!; [done..| |].
    + intros Hok. by apply (correct_written_data_spec data (r' blk) _ Hd).
    + intros [W1 W2] ->. split; [apply correct_written_data_spec; [done|]; intros q Hq _; by apply W1|]. cbn. rewrite !W2. by destruct before.
  - cbn [burn_attempts]. set (r' := hal_program n r blk data) in *.
    set (ok := esp_efuse_utility_is_correct_written_data _ _ _). set (occ := xorb _ _ && _).
    assert (W : hal_works hal_program coding_error -> n = 1 -> ok = true /\ occ = false).
    { intros [W1 W2] ->. split; [apply correct_written_data_spec; [done|]; intros q Hq _; by apply W1|]. unfold occ. cbn. rewrite !W2. by destruct before. }
    destruct (negb ok || occ) eqn:Eg.
    + specialize (IH (n + 1) r' W'). destruct (burn_attempts _ _ _ _ _ _ _ _ _) as [[ok' occ'] r''].
      destruct IH as (I1 & I2 & I3 & _). split_and!; [by eapply Ht|done|done|]. intros HW Hn. destruct (W HW Hn) as [E1 E2]. by rewrite E1, E2 in Eg.
    + split_and!; [done|done| |done]. intros Hok. by apply (correct_written_data_spec data (r' blk) _ Hd).
Qed.

(** A staged bit that exists. *)
Definition staged (w : regs) (blk q : Z) : bool := wr_exists chip blk (q / 32) && reg_bit w blk q.

(** What is programmed into a block. *)
Definition wdata (w : regs) (blk i : Z) : Z := if wr_exists chip blk i then w blk i else 0.

Lemma wdata_bit w blk q : Z.testbit (wdata w blk (q / 32)) (q mod 32) = staged w blk q.
Proof. unfold wdata, staged, reg_bit. destruct (wr_exists chip blk (q / 32)); [done|apply Z.testbit_0_l]. Qed.

(** No bit of [RD_DIS] is staged. *)
Definition no_rd_dis (w : regs) : Prop := wr_exists chip 0 1 = true -> Z.land (w 0 1) 0x7F = 0.

(** One block; the registers change as programming it changes them. *)
Lemma burn_block_step (R : regs -> regs -> Prop) n err s :
  (forall m r, words r -> R r (hal_program m r (Z.of_nat n) (wdata (ef_wdata s) (Z.of_nat n))) /\ words (hal_program m r (Z.of_nat n) (wdata (ef_wdata s) (Z.of_nat n)))) ->
  (forall r, words r -> R r r) -> (forall a b c, R a b -> R b c -> R a c) ->
  words (ef_blocks s) -> words (ef_wdata s) -> Z.of_nat n < EFUSE_BLK_MAX chip -> err = ESP_OK \/ err = ESP_FAIL ->
  exists err1 r1, burn_blocks chip hal_program coding_error (S n) err s = burn_blocks chip hal_program coding_error n err1 (set_blocks r1 s) /\
    R (ef_blocks s) r1 /\ words r1 /\ (err1 = ESP_OK \/ err1 = ESP_FAIL) /\ (err = ESP_FAIL -> err1 = ESP_FAIL /\ r1 = ef_blocks s) /\
    (err1 = ESP_OK -> err = ESP_OK /\ forall q, 0 <= q -> staged (ef_wdata s) (Z.of_nat n) q = true -> reg_bit r1 (Z.of_nat n) q = true) /\
    (hal_works hal_program coding_error -> err = ESP_OK -> err1 = ESP_OK).
Proof.
  clear Hal. intros HR Hrefl Ht Hr Hw Hn He. cbn [burn_blocks]. rewrite (bind_RET (gets ef_wdata) _ _ _ _ eq_refl).
  set (blk := Z.of_nat n) in *. set (w := ef_wdata s) in *. destruct (proj2 Hchip blk) as [R8 Ew]; [lia|].
  assert (Es : set_blocks (ef_blocks s) s = s) by by destruct s.
  destruct (existsb _ _) eqn:Eneed; cbn [negb].
  2: { exists err, (ef_blocks s). rewrite Es. split_and!; [done|by apply Hrefl|done|done|done| |done].
       intros ->. split; [done|]. intros q Hq Hst. exfalso.
       unfold staged, wr_exists in Hst. zbool. apply not_true_iff_false in Eneed. apply Eneed, existsb_exists. exists (q / 32). split.
       - apply list_elem_of_In. unfold reg_list. apply elem_of_seqZ. lia.
       - apply negb_true_iff, Z.eqb_neq. intros E0. unfold reg_bit in *. rewrite E0, Z.testbit_0_l in *. done. }
  destruct (is_ok_spec err) as [->|Hne]; cbn [negb].
  2: { exists err, (ef_blocks s). rewrite Es. by split_and!; [|apply Hrefl|..]. }
  rewrite (bind_RET (gets ef_blocks) _ _ _ _ eq_refl). change (fun i => if wr_exists chip blk i then w blk i else 0) with (wdata w blk).
  assert (Hdata : forall i, is_u32 (wdata w blk i)) by (intros i; unfold wdata; case_match; [apply Hw|by unfold is_u32]).
  pose proof (burn_attempts_rel R 2 1 blk (wdata w blk) (coding_error 0 (ef_blocks s) blk) (ef_blocks s) HR Ht Hr Hdata) as B.
  destruct (burn_attempts _ _ _ _ _ _ _ _ _) as [[ok occ] r1]. destruct B as (G1 & W1 & Hok & Hwk1).
  rewrite (bind_RET (modify (set_blocks r1)) _ _ tt (set_blocks r1 s) eq_refl). eexists _, r1. split; [reflexivity|].
  split_and!; [done|done|destruct ok, (occ && _); auto|done| |].
  - intros Hok'. split; [done|]. intros q Hq Hst. apply Hok; [by destruct ok|done|unfold staged, wr_exists in Hst; zbool; lia|]. by rewrite wdata_bit.
  - intros HW _. by destruct (Hwk1 HW eq_refl) as [-> ->].
Qed.

(** Programming a block that hides nothing. *)
Lemma hal_grows_staged w blk m r : words r -> hides blk (wdata w blk) = false -> let r' := hal_program m r blk (wdata w blk) in
  grows r r' (fun b q => (b =? blk) && staged w b q) /\ words r'.
Proof.
  intros Hr Hh r'. pose proof (hal_grows m r blk _ Hr Hh) as G. split; [|apply G]. eapply grows_mono; [|exact G].
  intros b q _ [Hb%Z.eqb_eq Hs]%andb_true_iff. subst b. by rewrite Z.eqb_refl, <- wdata_bit.
Qed.

(** The blocks above block 0. *)
Lemma burn_blocks_upper n err s :
  words (ef_blocks s) -> words (ef_wdata s) -> Z.of_nat (S n) <= EFUSE_BLK_MAX chip -> err = ESP_OK \/ err = ESP_FAIL ->
  exists err1 r1, burn_blocks chip hal_program coding_error (S n) err s = burn_blocks chip hal_program coding_error 1 err1 (set_blocks r1 s) /\
    grows (ef_blocks s) r1 (fun b q => negb (b =? 0) && staged (ef_wdata s) b q) /\ (err1 = ESP_OK \/ err1 = ESP_FAIL) /\
    (err1 = ESP_OK -> err = ESP_OK /\ forall b q, 0 <= q -> 0 < b < Z.of_nat (S n) -> staged (ef_wdata s) b q = true -> reg_bit r1 b q = true) /\
    (hal_works hal_program coding_error -> err = ESP_OK -> err1 = ESP_OK).
Proof using Hchip Hal.
  revert err s. induction n as [|n IH]; intros err s Hr Hw Hn He.
  { exists err, (ef_blocks s). split_and!; [by destruct s|by apply grows_refl|done| |done]. intros ->. split; [done|]. lia. }
  set (m := S n) in *. set (w := ef_wdata s) in *.
  destruct (burn_block_step (fun r r' => grows r r' (fun b q => (b =? Z.of_nat m) && staged w b q)) m err s)
    as (err1 & r1 & E1 & G1 & W1 & He1 & _ & Hok1 & Hwk1); [|by intros; apply grows_refl|by intros; eapply grows_trans|done..|lia|done|].
  { intros k r Hr'. apply hal_grows_staged; [done|]. unfold hides. by rewrite (proj2 (Z.eqb_neq _ 0)) by lia. }
  destruct (IH err1 (set_blocks r1 s) W1 Hw ltac:(lia) He1) as (err2 & r2 & E2 & G2 & He2 & Hok2 & Hwk2).
  cbn [set_blocks ef_blocks ef_wdata] in *. fold w in G2, Hok2, Hok1.
  exists err2, r2. rewrite E1, E2. split; [done|]. split.
  { eapply grows_trans; [|exact G2]. eapply grows_mono; [|exact G1]. intros b q _ [Hb%Z.eqb_eq Hs]%andb_true_iff.
    by rewrite (proj2 (Z.eqb_neq b 0)), Hs by lia. }
  split_and!; [done| |by auto]. intros Ho. destruct (Hok2 Ho) as [Ho1 A]. destruct (Hok1 Ho1) as [Ho0 A1]. split; [done|].
  intros b q Hq Hb Hs. destruct (decide (b = Z.of_nat m)) as [->|]; [apply G2; [done|by apply A1]|apply A; [done|lia|done]].
Qed.

Lemma burn_blocks_spec n err s :
  words (ef_blocks s) -> words (ef_wdata s) -> no_rd_dis (ef_wdata s) -> Z.of_nat n <= EFUSE_BLK_MAX chip -> err = ESP_OK \/ err = ESP_FAIL ->
  exists err' r, burn_blocks chip hal_program coding_error n err s = RET err' (set_blocks r s) /\
    grows (ef_blocks s) r (staged (ef_wdata s)) /\ (err' = ESP_OK \/ err' = ESP_FAIL) /\
    (err' = ESP_OK -> err = ESP_OK /\ forall blk q, 0 <= q -> blk < Z.of_nat n -> staged (ef_wdata s) blk q = true -> reg_bit r blk q = true) /\
    (hal_works hal_program coding_error -> err = ESP_OK -> err' = ESP_OK).
Proof using Hchip Hal.
  intros Hr Hw Hh Hn He. assert (Hneg : forall b q, staged (ef_wdata s) b q = true -> 0 <= b) by (intros b q Hst; unfold staged, wr_exists in Hst; zbool; lia).
  destruct n as [|n].
  { exists err, (ef_blocks s). split_and!; [by destruct s|by apply grows_refl|done| |done]. intros Hok. split; [done|]. intros b q _ Hb Hs%Hneg. lia. }
  destruct (burn_blocks_upper n err s Hr Hw Hn He) as (err1 & r1 & E1 & G1 & He1 & Hok1 & Hwk1). set (w := ef_wdata s) in *.
  destruct (burn_block_step (fun r r' => grows r r' (fun b q => (b =? 0) && staged w b q)) 0 err1 (set_blocks r1 s))
    as (err2 & r2 & E2 & G2 & W2 & He2 & _ & Hok2 & Hwk2); [|by intros; apply grows_refl|by intros; eapply grows_trans|apply G1|done|lia|done|].
  { intros k r Hr'. apply hal_grows_staged; [done|]. change (hides 0 (fun i => if wr_exists chip 0 i then w 0 i else 0) = false).
    unfold hides. cbn [Z.eqb andb]. destruct (wr_exists chip 0 1) eqn:Ex; [by rewrite (Hh Ex)|done]. }
  cbn [set_blocks ef_blocks ef_wdata] in *. fold w in Hok2. exists err2, r2. rewrite E1, E2. split; [done|]. split.
  { eapply grows_trans; (eapply grows_mono; [|eassumption]); intros b q _ Hb; by apply andb_true_iff in Hb as [_ ?]. }
  split_and!; [done| |by auto]. intros Ho. destruct (Hok2 Ho) as [Ho1 A0]. destruct (Hok1 Ho1) as [-> A]. split; [done|].
  intros b q Hq Hb Hs. specialize (Hneg b q Hs). destruct (decide (b = 0)) as [->|]; [by apply A0|]. apply G2; [done|]. apply A; [done|lia|done].
Qed.

(** ** Burning all blocks *)

(** The modes and the lock are kept, and the counter has moved by an even
    number. *)
Definition same_modes (s s' : efuse) : Prop :=
  s_batch_writing_mode s' = s_batch_writing_mode s /\ s_efuse_lock s' = s_efuse_lock s /\ ef_env s' = ef_env s /\
  (is_u32 (s_burn_counter s) -> is_u32 (s_burn_counter s') /\ Z.even (s_burn_counter s') = Z.even (s_burn_counter s)).

Lemma even_u32 z : Z.even (u32 z) = Z.even z.
Proof.
  unfold u32. rewrite <- !Z.negb_odd, <- !Z.bit0_odd, Z.testbit_mod_pow2 by lia. done.
Qed.

Lemma same_modes_refl s : same_modes s s.
Proof. by split_and!. Qed.

Lemma same_modes_trans s1 s2 s3 : same_modes s1 s2 -> same_modes s2 s3 -> same_modes s1 s3.
Proof.
  intros (A1 & A2 & A3 & A4) (B1 & B2 & B3 & B4). split_and!; [congruence..|]. intros Hu. destruct (A4 Hu) as [U E].
  destruct (B4 U) as [U' E']. split; [done|congruence].
Qed.

Lemma even_step2 c : Z.even (u32 (u32 (c + 1) + 1)) = Z.even c.
Proof. by rewrite even_u32, Z.even_add, even_u32, Z.even_add; destruct (Z.even c). Qed.

(** Nothing is staged. *)
Definition unstaged (s : efuse) : Prop := words (ef_wdata s) /\ forall blk q, staged (ef_wdata s) blk q = false.

Definition reset_of (s : efuse) : efuse :=
  set_wdata (fun b r => if wr_exists chip b r then 0 else ef_wdata s b r)
    (set_burn_counter (u32 (u32 (s_burn_counter s + 1) + 1)) s).

Lemma reset_spec s : esp_efuse_utility_reset chip s = RET tt (reset_of s).
Proof using Hchip.
  unfold esp_efuse_utility_reset, esp_efuse_utility_clear_program_registers, efuse_hal_read, burn_counter_inc, modify, mbind, M_bind.
  rewrite (proj2 (proj1 Hchip)). destruct (CONFIG_EFUSE_VIRTUAL chip); done.
Qed.

Lemma reset_of_modes s : same_modes s (reset_of s).
Proof. split_and!; [done..|]. intros _. cbn. split; [apply u32_range|apply even_step2]. Qed.

Lemma reset_of_unstaged s : words (ef_wdata s) -> unstaged (reset_of s).
Proof.
  intros Hw. split.
  - intros b i. cbn. case_match; [by unfold is_u32|apply Hw].
  - intros b q. unfold staged, reg_bit. cbn. destruct (wr_exists chip b (q / 32)); [apply Z.testbit_0_l|done].
Qed.

(** The effect of burning what is staged: all of it, or in an error some. *)
Definition burned (err : esp_err_t) (s s' : efuse) : Prop :=
  (err = ESP_OK \/ err = ESP_FAIL) /\ grows (ef_blocks s) (ef_blocks s') (staged (ef_wdata s)) /\
  (err = ESP_OK -> forall blk q, 0 <= q -> staged (ef_wdata s) blk q = true -> reg_bit (ef_blocks s') blk q = true) /\
  (hal_works hal_program coding_error \/ CONFIG_EFUSE_VIRTUAL chip = true -> err = ESP_OK).

(** Burning the blocks and all that follows. *)
Lemma burn_efuses_run s err r : words (ef_wdata s) -> let s1 := set_burn_counter (u32 (s_burn_counter s + 1)) s in
  (if CONFIG_EFUSE_VIRTUAL chip then
     _ ← modify (fun s => set_blocks (fun b r => if wr_exists chip b r then Z.lor (ef_blocks s b r) (ef_wdata s b r) else ef_blocks s b r) s);
     mret ESP_OK
   else burn_blocks chip hal_program coding_error (Z.to_nat (EFUSE_BLK_MAX chip)) ESP_OK) s1 = RET err (set_blocks r s1) ->
  exists s', esp_efuse_utility_burn_efuses chip hal_program coding_error s = RET err s' /\ same_modes s s' /\ unstaged s' /\ ef_blocks s' = r.
Proof using Hchip.
  clear Hal. intros Hw s1 E. unfold esp_efuse_utility_burn_efuses, esp_efuse_utility_burn_chip.
  rewrite (bind_RET burn_counter_inc _ s tt s1 eq_refl), bind_assoc, (bind_RET _ _ _ _ _ E), bind_assoc, (bind_RET _ _ _ _ _ (reset_spec _)), bind_mret.
  eexists _. split; [reflexivity|]. cbn. split; [|split; [|done]].
  - split_and!; [done..|]. intros _. cbn. split; [apply u32_range|].
    by rewrite even_u32, Z.even_add, !even_step2, even_u32, Z.even_add; destruct (Z.even (s_burn_counter s)).
  - destruct (reset_of_unstaged s Hw) as [U1 U2]. split; [exact U1|exact U2].
Qed.

Lemma burn_efuses_spec s : words (ef_blocks s) -> words (ef_wdata s) -> (CONFIG_EFUSE_VIRTUAL chip = false -> no_rd_dis (ef_wdata s)) ->
  exists err s', esp_efuse_utility_burn_efuses chip hal_program coding_error s = RET err s' /\ same_modes s s' /\ unstaged s' /\ burned err s s'.
Proof.
  intros Hr Hw Hh. set (s1 := set_burn_counter (u32 (s_burn_counter s + 1)) s).
  assert (B : exists err r, (if CONFIG_EFUSE_VIRTUAL chip then
             _ ← modify (fun s => set_blocks (fun b r => if wr_exists chip b r then Z.lor (ef_blocks s b r) (ef_wdata s b r) else ef_blocks s b r) s);
             mret ESP_OK
           else burn_blocks chip hal_program coding_error (Z.to_nat (EFUSE_BLK_MAX chip)) ESP_OK) s1 = RET err (set_blocks r s1) /\
    burned err s (set_blocks r s)).
  { destruct (CONFIG_EFUSE_VIRTUAL chip) eqn:Ev.
    - eexists ESP_OK, _. split; [reflexivity|]. cbn.
      assert (Hbit : forall b q, reg_bit (fun b r => if wr_exists chip b r then Z.lor (ef_blocks s b r) (ef_wdata s b r) else ef_blocks s b r) b q =
        reg_bit (ef_blocks s) b q || staged (ef_wdata s) b q).
      { intros b q. unfold staged, reg_bit. destruct (wr_exists chip b (q / 32)); [apply Z.lor_spec|by rewrite orb_false_r]. }
      split_and!; [by left| | |done].
      + split; [intros b i; cbn; destruct (wr_exists chip b i); [by apply lor_u32|apply Hr]|]. intros b q Hq. cbn. rewrite Hbit.
        destruct (reg_bit (ef_blocks s) b q), (staged (ef_wdata s) b q); cbn; auto.
      + intros _ b q Hq Hs. cbn. by rewrite Hbit, Hs, orb_true_r.
    - pose proof (proj1 (proj1 Hchip)). destruct (burn_blocks_spec (Z.to_nat (EFUSE_BLK_MAX chip)) ESP_OK s1) as (err & r & E & G & Er & Hall & Hwk); try done; [by apply Hh|lia|by left|].
      exists err, r. split; [done|]. split_and!; [done|done| |].
      + intros Hok b q Hq Hs. apply Hall; [done|done| |done]. unfold staged, wr_exists in Hs. zbool. lia.
      + intros [HW|]; [by apply Hwk|congruence]. }
  destruct B as (err & r & E & HB). destruct (burn_efuses_run s err r Hw E) as (s' & E' & Hm & Hu & Er).
  exists err, s'. split; [done|]. split; [done|]. split; [done|]. unfold burned in HB |- *. by rewrite Er.
Qed.

(** ** Coding schemes *)

(** The bits exist. *)
Definition in_chip (l : list (Z * Z)) : Prop := forall x, x ∈ l -> 0 <= x.2 /\ wr_exists chip x.1 (x.2 / 32) = true.

(** Exactly the bits of the list are staged. *)
Definition staged_are (s : efuse) (l : list (Z * Z)) : Prop :=
  words (ef_wdata s) /\ forall blk q, 0 <= q -> staged (ef_wdata s) blk q = bool_decide ((blk, q) ∈ l).

(** A bit of the list is in a block that has a coding scheme and is not empty. *)
Definition recoded (r : regs) (l : list (Z * Z)) : bool :=
  existsb (fun blk => existsb (fun x => x.1 =? blk) l && existsb (fun i => negb (r blk i =? 0)) (reg_list (rd_regs chip blk)))
    (seqZ 1 (EFUSE_BLK_MAX chip - 1)).

Lemma existsb_ext_in {X} (f g : X -> bool) l : (forall x, x ∈ l -> f x = g x) -> existsb f l = existsb g l.
Proof. induction l as [|x l IH]; intros H; [done|]. cbn. f_equal; [apply H; by left|]. apply IH. intros. apply H. by right. Qed.

Lemma staged_block s l blk : staged_are s l -> in_chip l -> 0 <= blk < EFUSE_BLK_MAX chip ->
  existsb (fun i => negb (ef_wdata s blk i =? 0)) (reg_list (wr_regs chip blk)) = existsb (fun x => x.1 =? blk) l.
Proof.
  clear Hal coding_error hal_program.
  intros [Hw Hs] Hin Hblk. apply eq_true_iff_eq. rewrite !existsb_exists. split.
  - intros (i & Hi%list_elem_of_In%elem_of_seqZ & Hne%negb_true_iff%Z.eqb_neq).
    assert (Hx : exists j, 0 <= j < 32 /\ Z.testbit (ef_wdata s blk i) j = true).
    { specialize (Hw blk i). unfold is_u32 in Hw. exists (Z.log2 (ef_wdata s blk i)). split; [|apply Z.bit_log2; lia].
      split; [apply Z.log2_nonneg|]. apply Z.log2_lt_pow2; lia. }
    destruct Hx as (j & Hj & Ht). exists (blk, 32 * i + j). split; [|apply Z.eqb_refl]. apply list_elem_of_In, (bool_decide_eq_true_1 _).
    rewrite <- Hs by lia. unfold staged, reg_bit, wr_exists.
    replace ((32 * i + j) / 32) with i by (Z.to_euclidean_division_equations; lia).
    replace ((32 * i + j) mod 32) with j by (Z.to_euclidean_division_equations; lia). rewrite Ht.
    repeat (zcase; cbn; try lia).
  - intros ([b q] & Hx%list_elem_of_In & Eb%Z.eqb_eq). cbn in Eb. subst b. destruct (Hin _ Hx) as [Hq Hex]. cbn in Hq, Hex.
    exists (q / 32). split.
    + apply list_elem_of_In, elem_of_seqZ. unfold wr_exists in Hex. zbool. lia.
    + apply negb_true_iff, Z.eqb_neq. intros E0. pose proof (Hs blk q Hq) as E. rewrite (bool_decide_eq_true_2 _ Hx) in E.
      unfold staged, reg_bit in E. rewrite E0, Z.testbit_0_l, andb_false_r in E. done.
Qed.

Lemma apply_coding_spec s l : staged_are s l -> in_chip l ->
  esp_efuse_utility_apply_new_coding_scheme chip s = RET (if recoded (ef_blocks s) l then ESP_ERR_CODING else ESP_OK) s.
Proof.
  intros Hs Hin. unfold esp_efuse_utility_apply_new_coding_scheme, gets, recoded. f_equal.
  rewrite (existsb_ext_in (block_conflict chip s) (fun blk => existsb (fun x => x.1 =? blk) l &&
    existsb (fun i => negb (ef_blocks s blk i =? 0)) (reg_list (rd_regs chip blk)))); [done|].
  intros blk Hb%elem_of_seqZ. unfold block_conflict, esp_efuse_get_coding_scheme. rewrite (proj2 (Z.eqb_neq blk 0)) by lia.
  by rewrite (staged_block s l) by (done || lia).
Qed.

(** ** Writing at once *)

Lemma stages_from_reset s t l : words (ef_wdata s) -> stages (reset_of s) t l -> in_chip l -> staged_are t l.
Proof.
  intros Hw (w & -> & Hww & Ha) Hin. destruct (reset_of_unstaged s Hw) as [_ U]. split; [done|]. intros blk q Hq. cbn.
  unfold staged. rewrite Ha by done. specialize (U blk q). unfold staged in U.
  destruct (wr_exists chip blk (q / 32)) eqn:Ex; cbn [andb] in *; [by rewrite U|].
  symmetry. apply bool_decide_eq_false. intros [_ Hx]%Hin. cbn in Hx. congruence.
Qed.

(** No bit of the list hides a block; the emulation does not hide blocks. *)
Definition rd_dis_free (l : list (Z * Z)) : Prop := CONFIG_EFUSE_VIRTUAL chip = false -> forall q, 32 <= q < 39 -> (0, q) ∉ l.

Lemma rd_dis_free_spec s l : staged_are s l -> rd_dis_free l -> CONFIG_EFUSE_VIRTUAL chip = false -> no_rd_dis (ef_wdata s).
Proof.
  intros [Hw Hs] Hf Hv Hex. specialize (Hf Hv). apply Z.bits_inj'. intros j Hj. rewrite Z.testbit_0_l, Z.land_spec. change 0x7F with (Z.ones 7).
  rewrite Z.testbit_ones_nonneg by lia. destruct (Z.ltb_spec j 7); [|apply andb_false_r]. rewrite andb_true_r.
  pose proof (Hs 0 (32 + j) ltac:(lia)) as E. rewrite (bool_decide_eq_false_2 _ (Hf (32 + j) ltac:(lia))) in E.
  unfold staged, reg_bit in E. replace ((32 + j) / 32) with 1 in E by (Z.to_euclidean_division_equations; lia).
  replace ((32 + j) mod 32) with j in E by (Z.to_euclidean_division_equations; lia). by rewrite Hex in E.
Qed.

(** The result of writing the bits of [l]. *)
Definition written (err : esp_err_t) (l : list (Z * Z)) (s s' : efuse) : Prop :=
  same_modes s s' /\ unstaged s' /\ words (ef_blocks s') /\
  (if recoded (ef_blocks s) l then err = ESP_ERR_CODING
   else (err = ESP_OK \/ err = ESP_FAIL) /\ (hal_works hal_program coding_error \/ CONFIG_EFUSE_VIRTUAL chip = true -> err = ESP_OK)) /\
  (err = ESP_ERR_CODING -> ef_blocks s' = ef_blocks s) /\
  (err = ESP_OK -> adds (ef_blocks s) (ef_blocks s') l) /\
  (err = ESP_FAIL -> grows (ef_blocks s) (ef_blocks s') (fun blk q => bool_decide ((blk, q) ∈ l))).

(** What follows staging: the coding scheme is applied and the bits burned. *)
Definition finish (err : esp_err_t) : M efuse esp_err_t :=
  if is_ok err then
    err ← esp_efuse_utility_apply_new_coding_scheme chip;
    if is_ok err then esp_efuse_utility_burn_efuses chip hal_program coding_error else mret err
  else mret err.

Lemma finish_spec s l : words (ef_blocks s) -> staged_are s l -> in_chip l -> rd_dis_free l ->
  exists err s', finish ESP_OK s = RET err s' /\
    same_modes s s' /\ words (ef_wdata s') /\ words (ef_blocks s') /\
    (if recoded (ef_blocks s) l then err = ESP_ERR_CODING /\ s' = s
     else unstaged s' /\ (err = ESP_OK \/ err = ESP_FAIL) /\ (hal_works hal_program coding_error \/ CONFIG_EFUSE_VIRTUAL chip = true -> err = ESP_OK)) /\
    (err = ESP_OK -> adds (ef_blocks s) (ef_blocks s') l) /\
    (err = ESP_FAIL -> grows (ef_blocks s) (ef_blocks s') (fun blk q => bool_decide ((blk, q) ∈ l))).
Proof.
  intros Hr Hs Hin Hf. unfold finish. cbn [is_ok]. rewrite (bind_RET _ _ _ _ _ (apply_coding_spec s l Hs Hin)).
  destruct (recoded (ef_blocks s) l); cbn [is_ok]; [exists ESP_ERR_CODING, s; split_and!; try done; by apply Hs|].
  destruct (burn_efuses_spec s Hr (proj1 Hs) (rd_dis_free_spec s l Hs Hf)) as (err & s' & E & Hm & Hu & Her & G & Hall & Hwk).
  assert (G' : grows (ef_blocks s) (ef_blocks s') (fun blk q => bool_decide ((blk, q) ∈ l))).
  { eapply grows_mono; [|exact G]. intros b q Hq. by rewrite (proj2 Hs b q Hq). }
  exists err, s'. split; [done|]. split; [done|]. split_and!; [apply Hu|apply G|done|done|done| |done].
  intros Hok b q Hq. pose proof (proj2 G' b q Hq) as [G1 G2]. specialize (Hall Hok b q Hq). rewrite (proj2 Hs b q Hq) in Hall.
  destruct (reg_bit (ef_blocks s') b q) eqn:E'.
  - destruct (G2 eq_refl) as [->| ->]; [done|by rewrite orb_true_r].
  - destruct (reg_bit (ef_blocks s) b q); [by specialize (G1 eq_refl)|]. destruct (bool_decide _); [by specialize (Hall eq_refl)|done].
Qed.

(** A writing function outside of a batch. *)
Lemma write_with_spec stage s t err0 l :
  words (ef_blocks s) -> words (ef_wdata s) -> s_batch_writing_mode s = 0 ->
  stage (reset_of s) = RET err0 t -> stages (reset_of s) t l -> in_chip l -> rd_dis_free l ->
  exists err s', write_with chip hal_program coding_error stage s = RET err s' /\
    (if is_ok err0 then written err l s s' else err = err0 /\ same_modes s s' /\ unstaged s' /\ ef_blocks s' = ef_blocks s).
Proof.
  intros Hr Hw Hb Est Hst Hin Hf. pose proof (stages_from_reset s t l Hw Hst Hin) as Hsa.
  assert (Et : ef_blocks t = ef_blocks s /\ same_modes s t) by (destruct Hst as (w & -> & _); split; [done|apply reset_of_modes]).
  destruct Et as [Eb Hm]. pose proof (proj1 Hm) as M1.
  unfold write_with. rewrite (bind_RET burn_at_once _ s true s) by (unfold burn_at_once, gets; by rewrite Hb).
  rewrite (bind_RET _ _ _ _ _ (reset_spec s)), (bind_RET _ _ _ _ _ Est).
  rewrite (bind_RET burn_at_once _ t true t) by (unfold burn_at_once, gets; by rewrite M1, Hb). fold (finish err0).
  destruct (is_ok_spec err0) as [->|Hne].
  - destruct (finish_spec t l) as (err & s' & E & Hn & Hww & Hrr & Hcase & Hok & Hfail); [by rewrite Eb|done..|].
    rewrite (bind_RET _ _ _ _ _ E), (bind_RET _ _ _ _ _ (reset_spec s')). rewrite Eb in *.
    exists err, (reset_of s'). split; [done|]. split.
    { eapply same_modes_trans; [exact Hm|]. eapply same_modes_trans; [exact Hn|apply reset_of_modes]. }
    split; [by apply reset_of_unstaged|]. split_and!; try done.
    + destruct (recoded _ l); [by destruct Hcase|]. by destruct Hcase as (_ & ? & ?).
    + intros Ec. destruct (recoded _ l); [destruct Hcase as [_ ->]; done|]. destruct Hcase as (_ & [->| ->] & _); done.
  - unfold finish. rewrite is_ok_false by done. rewrite bind_mret, (bind_RET _ _ _ _ _ (reset_spec t)).
    exists err0, (reset_of t). split_and!; try done; [|by apply reset_of_unstaged, Hsa].
    eapply same_modes_trans; [exact Hm|apply reset_of_modes].
Qed.
End Burn.
