(* ===== verification/EfuseTheorems.v ===== *)
(** * What the eFuse API promises

    Writing a field, setting a number of bits, batches, and reading back what
    was written. *)

From S2P Require Import Prelude Flash SecureVersion Efuse EfuseSpec EfuseRead EfuseStage EfuseWrite.

Lemma field_pos_in_chip chip field : chip_ok chip -> field_ok chip field -> in_chip chip (field_pos field).
Proof.
  intros Hchip Hf x (d & Hx & Hd)%list_elem_of_bind. pose proof (proj1 (List.Forall_forall _ _) Hf d (proj1 (list_elem_of_In _ _) Hd)) as (Hb & Hs & Hn & Hm).
  unfold desc_pos in Hx. apply list_elem_of_fmap in Hx as (q & -> & Hq%elem_of_seqZ). cbn. destruct (proj2 Hchip _ Hb) as [H8 E].
  split; [lia|]. unfold wr_exists. rewrite E. assert (0 <= q / 32 < rd_regs chip (efuse_block d)) by (Z.to_euclidean_division_equations; lia).
  repeat (zcase; cbn; try lia).
Qed.

Lemma in_chip_sub chip l l' : (forall x, x ∈ l' -> x ∈ l) -> in_chip chip l -> in_chip chip l'.
Proof. intros Hs Hin x Hx. by apply Hin, Hs. Qed.

Lemma ones_of_sub src pos c n x : x ∈ ones_of src pos c n -> x ∈ pos.
Proof. intros (i & _ & _ & E)%elem_of_ones_of. by eapply list_elem_of_lookup_2. Qed.

Lemma take_free_sub r pos k x : x ∈ take k (free r pos) -> x ∈ pos /\ bit_at r x = false.
Proof. intros (i & E%list_elem_of_lookup_2 & _)%elem_of_take. by apply list_elem_of_filter in E as [? ?]. Qed.

(** ** Writing at once *)

Section Write.
Context (chip : efuse_chip) (Hchip : chip_ok chip).
Context (hal_program : Z -> regs -> Z -> (Z -> Z) -> regs) (coding_error : Z -> regs -> Z -> bool) `{Hal : !HalLaws hal_program}.
Context (field : list esp_efuse_desc_t) (Hfield : field_ok chip field).
Abbreviation pos := (field_pos field).
Abbreviation written := (written chip hal_program coding_error).

(** Nothing was burned. *)
Definition refused (s s' : efuse) : Prop := same_modes s s' /\ unstaged chip s' /\ ef_blocks s' = ef_blocks s.

(** The registers hold words and no batch is open. *)
Definition ready (s : efuse) : Prop := words (ef_blocks s) /\ words (ef_wdata s) /\ s_batch_writing_mode s = 0.

Lemma lock_release (m : M efuse esp_err_t) s err s' :
  m (set_lock (s_efuse_lock s + 1) s) = RET err s' -> same_modes (set_lock (s_efuse_lock s + 1) s) s' ->
  (_ ← EFUSE_LOCK_ACQUIRE_RECURSIVE; err ← m; _ ← EFUSE_LOCK_RELEASE_RECURSIVE; mret err) s =
    RET err (set_lock (s_efuse_lock s) s') /\ same_modes s (set_lock (s_efuse_lock s) s').
Proof.
  intros E (M1 & M2 & M3 & M4). cbn in M2. split; [|by split_and!].
  rewrite (bind_RET EFUSE_LOCK_ACQUIRE_RECURSIVE _ s tt _ eq_refl), (bind_RET _ _ _ _ _ E).
  rewrite (bind_RET EFUSE_LOCK_RELEASE_RECURSIVE _ _ tt (set_lock (s_efuse_lock s' - 1) s') eq_refl), M2.
  by replace (s_efuse_lock s + 1 - 1) with (s_efuse_lock s) by lia.
Qed.

Lemma write_field_blob_spec src size s : ready s -> bytes src -> 0 < size ->
  let req := Z.min size (Z.of_nat (length pos)) in let l := ones_of src pos 0 req in
  req <= 8 * Z.of_nat (length src) -> rd_dis_free chip l ->
  exists err s', esp_efuse_write_field_blob chip hal_program coding_error (Some field) (Some src) size s = RET err s' /\
    if conflict (ef_blocks s) l then err = ESP_ERR_EFUSE_REPEATED_PROG /\ refused s s' else written err l s s'.
Proof using Hchip Hal Hfield.
  intros (Hr & Hw & Hb) Hsrc Hsize req l Hl Hrd. set (s1 := set_lock (s_efuse_lock s + 1) s).
  destruct (stage_blob chip Hchip field Hfield src size (reset_of chip s1)) as (err0 & t & E0 & Er & c & Hc & Hst & Hall);
    [done|by apply reset_of_unstaged|done|done|]. fold req in Er, Hc, Hall. fold l in Er.
  assert (Hsub : forall x, x ∈ ones_of src pos 0 c -> x ∈ l).
  { intros x. unfold l. rewrite !elem_of_ones_of. intros (i & Hi & ? & ?). exists i. split; [lia|done]. }
  assert (Hcl : err0 = ESP_OK -> ones_of src pos 0 c = l) by (intros ->; unfold l; by rewrite Hall).
  destruct (write_with_spec chip Hchip hal_program coding_error
    (r ← esp_efuse_utility_process (esp_efuse_utility_write_blob chip) false field src size; mret r.1) s1 t err0 (ones_of src pos 0 c))
    as (err & s' & E & Hpost); [done|done|done|by rewrite (bind_RET _ _ _ _ _ E0)|done| | |].
  { eapply in_chip_sub; [|by apply (field_pos_in_chip chip field)]. intros x. apply ones_of_sub. }
  { intros Hvirt q Hq Hx. by apply (Hrd Hvirt q Hq), Hsub. }
  assert (Hm : same_modes s1 s') by (destruct (is_ok err0); [apply Hpost|apply Hpost]).
  destruct (lock_release _ s err s' E Hm) as [E' Hm'].
  exists err, (set_lock (s_efuse_lock s) s'). split.
  { unfold esp_efuse_write_field_blob. rewrite (proj2 (Z.eqb_neq size 0)) by lia. exact E'. }
  cbn [reset_of set_wdata set_burn_counter ef_blocks set_lock s1] in Er. change (ef_blocks (reset_of chip s1)) with (ef_blocks s) in Er.
  destruct (conflict (ef_blocks s) l).
  - subst err0. cbn [is_ok] in Hpost. destruct Hpost as (-> & _ & Hu & Hbl). split_and!; [done|split_and!; [done|exact Hu|exact Hbl]].
  - subst err0. cbn [is_ok] in Hpost. rewrite (Hcl eq_refl) in Hpost. destruct Hpost as (_ & Hu & Hrest). split; [done|]. split; [exact Hu|exact Hrest].
Qed.

Lemma write_field_cnt_spec cnt s : ready s -> 0 < cnt < 2 ^ 32 ->
  let l := take (Z.to_nat cnt) (free (ef_blocks s) pos) in rd_dis_free chip l ->
  exists err s', esp_efuse_write_field_cnt chip hal_program coding_error (Some field) cnt s = RET err s' /\
    if Z.of_nat (length (free (ef_blocks s) pos)) <? cnt then err = ESP_ERR_EFUSE_CNT_IS_FULL /\ refused s s' else written err l s s'.
Proof using Hchip Hal Hfield.
  intros (Hr & Hw & Hb) Hcnt l Hrd. set (s1 := set_lock (s_efuse_lock s + 1) s). set (all := free (ef_blocks s) pos) in *.
  destruct (stage_cnt chip Hchip field Hfield cnt (reset_of chip s1)) as (err0 & t & E0 & Er & Hst); [by apply reset_of_unstaged|done|].
  change (ef_blocks (reset_of chip s1)) with (ef_blocks s) in E0, Er, Hst. fold all in E0, Er, Hst. fold l in Hst.
  set (err1 := if Z.of_nat (length all) <? cnt then ESP_ERR_EFUSE_CNT_IS_FULL else ESP_OK).
  destruct (write_with_spec chip Hchip hal_program coding_error
    (r ← esp_efuse_utility_process (esp_efuse_utility_write_cnt chip) false field cnt 0;
     let '(err, cnt) := r in
     let err := if negb (cnt =? 0) then ESP_ERR_EFUSE_CNT_IS_FULL else err in
     mret (if decide (err = ESP_OK_EFUSE_CNT) then ESP_OK else err)) s1 t err1 l)
    as (err & s' & E & Hpost); [done|done|done| |done| |done|].
  { rewrite (bind_RET _ _ _ _ _ E0). unfold mret, M_ret, err1. f_equal. rewrite Er.
    destruct (Z.ltb_spec (Z.of_nat (length all)) cnt).
    - rewrite (proj2 (Z.eqb_neq _ _)) by lia. by rewrite decide_False by done.
    - rewrite Z.max_l, (proj2 (Z.leb_le _ _)) by lia. done. }
  { eapply in_chip_sub; [|by apply (field_pos_in_chip chip field)]. intros x Hx. by apply take_free_sub in Hx as [? _]. }
  assert (Hm : same_modes s1 s') by (destruct (is_ok err1); apply Hpost).
  destruct (lock_release _ s err s' E Hm) as [E' Hm'].
  exists err, (set_lock (s_efuse_lock s) s'). split.
  { unfold esp_efuse_write_field_cnt. rewrite (proj2 (Z.eqb_neq cnt 0)) by lia. exact E'. }
  unfold err1 in Hpost. destruct (Z.of_nat (length all) <? cnt); cbn [is_ok] in Hpost.
  - destruct Hpost as (-> & _ & Hu & Hbl). split_and!; [done|split_and!; [done|exact Hu|exact Hbl]].
  - destruct Hpost as (_ & Hu & Hrest). split; [done|]. split; [exact Hu|exact Hrest].
Qed.
End Write.

(** C19: While no batch is open, writing a buffer to a field (on real eFuses
    the bits must not include a read protection bit) gives one of these
    results: ESP_OK, and exactly the bits of the field where the buffer has
    ones have been added to the eFuses; ESP_FAIL when the controller fails,
    and only some of these bits have been added; an error when such a bit is
    set already or a written block with a coding scheme is not empty, and
    nothing has been burned. With a working controller, or virtual eFuses, it
    depends only on the eFuses and the bits which of the three it is. In all
    cases nothing stays staged and the lock is released. *)
Theorem efuse_write_blob chip hal_program coding_error field src size s :
  chip_ok chip -> HalLaws hal_program -> field_ok chip field -> ready s -> bytes src -> 0 < size ->
  let req := Z.min size (Z.of_nat (length (field_pos field))) in let l := ones_of src (field_pos field) 0 req in
  req <= 8 * Z.of_nat (length src) -> rd_dis_free chip l ->
  exists err s', esp_efuse_write_field_blob chip hal_program coding_error (Some field) (Some src) size s = RET err s' /\
    (err = ESP_OK -> forall blk q, 0 <= q -> reg_bit (ef_blocks s') blk q = reg_bit (ef_blocks s) blk q || bool_decide ((blk, q) ∈ l)) /\
    (err = ESP_FAIL -> grows (ef_blocks s) (ef_blocks s') (fun blk q => bool_decide ((blk, q) ∈ l))) /\
    (err <> ESP_OK -> err <> ESP_FAIL -> ef_blocks s' = ef_blocks s) /\
    (hal_works hal_program coding_error \/ CONFIG_EFUSE_VIRTUAL chip = true ->
       err = if conflict (ef_blocks s) l then ESP_ERR_EFUSE_REPEATED_PROG else if recoded chip (ef_blocks s) l then ESP_ERR_CODING else ESP_OK) /\
    same_modes s s' /\ unstaged chip s'.
Proof.
  intros Hchip Hal Hfield Hs Hsrc Hsize req l Hl Hrd.
  destruct (write_field_blob_spec chip Hchip hal_program coding_error field Hfield src size s Hs Hsrc Hsize Hl Hrd) as (err & s' & E & Hpost).
  fold req in Hpost. fold l in Hpost. exists err, s'. split; [done|]. destruct (conflict (ef_blocks s) l).
  - destruct Hpost as (-> & Hm & Hu & Hbl). by split_and!.
  - destruct Hpost as (Hm & Hu & _ & Hcase & Hcod & Hok & Hfail). split; [exact Hok|]. split; [exact Hfail|]. split; [|split; [|done]].
    + intros N1 N2. destruct (recoded chip (ef_blocks s) l); [by apply Hcod|]. by destruct Hcase as [[->| ->] _].
    + intros HW. destruct (recoded chip (ef_blocks s) l); [done|]. by apply Hcase.
Qed.

(** Counting after new bits were set. *)
Lemma count_set_adds r r' pos k : NoDup pos -> (forall x, x ∈ pos -> 0 <= x.2) -> adds r r' (take k (free r pos)) ->
  count_set r' pos = count_set r pos + Z.of_nat (length (take k (free r pos))).
Proof.
  intros Hnd Hq Ha. set (l := take k (free r pos)) in *.
  assert (H1 : forall m, (forall x, x ∈ m -> 0 <= x.2) ->
    length (filter (fun x => bit_at r' x = true) m) = (length (filter (fun x => bit_at r x = true) m) + length (filter (fun x => x ∈ l) (free r m)))%nat).
  { induction m as [|x m IH]; intros Hm; [done|]. unfold free. rewrite !filter_cons. fold (free r m).
    specialize (IH (fun y Hy => Hm y (list_elem_of_further _ _ _ Hy))).
    pose proof (Ha x.1 x.2 (Hm x (list_elem_of_here _ _))) as E. rewrite <- surjective_pairing in E. fold (bit_at r' x) (bit_at r x) in E. rewrite E.
    destruct (bit_at r x) eqn:Eb; cbn [orb].
    - rewrite !decide_True, decide_False by done. cbn [length]. lia.
    - rewrite (decide_False (P := false = true)), (decide_True (P := false = false)) by done. rewrite filter_cons.
      destruct (bool_decide_reflect (x ∈ l)); [rewrite !decide_True by done; cbn [length]; lia|rewrite !decide_False by done; lia]. }
  unfold count_set. rewrite H1 by done. rewrite Nat2Z.inj_add. do 2 f_equal.
  assert (Hf : NoDup (free r pos)) by by apply list.NoDup_filter.
  rewrite <- (take_drop k (free r pos)) in Hf |- *. rewrite list.filter_app. apply list.NoDup_app in Hf as (_ & Hd & _). fold l in Hd |- *.
  rewrite (filter_none _ (drop k (free r pos))), app_nil_r.
  - rewrite filter_all; [done|]. by apply List.Forall_forall; intros x Hx%list_elem_of_In.
  - apply List.Forall_forall. intros x Hx%list_elem_of_In Hl. by eapply Hd.
Qed.

(** Setting a number of bits sets exactly that many more bits of the
    field, the first free ones, and nothing else; if the field has not enough
    free bits the call reports that it is full and burns nothing. *)
Theorem efuse_write_cnt chip hal_program coding_error field cnt s :
  chip_ok chip -> HalLaws hal_program -> field_ok chip field -> NoDup (field_pos field) -> ready s -> 0 < cnt < 2 ^ 32 ->
  let all := free (ef_blocks s) (field_pos field) in let l := take (Z.to_nat cnt) all in rd_dis_free chip l ->
  exists err s', esp_efuse_write_field_cnt chip hal_program coding_error (Some field) cnt s = RET err s' /\
    (err = ESP_OK -> count_set (ef_blocks s') (field_pos field) = count_set (ef_blocks s) (field_pos field) + cnt /\
       forall blk q, 0 <= q -> reg_bit (ef_blocks s') blk q = reg_bit (ef_blocks s) blk q || bool_decide ((blk, q) ∈ l)) /\
    (err <> ESP_OK -> err <> ESP_FAIL -> ef_blocks s' = ef_blocks s) /\
    (hal_works hal_program coding_error \/ CONFIG_EFUSE_VIRTUAL chip = true ->
       err = if Z.of_nat (length all) <? cnt then ESP_ERR_EFUSE_CNT_IS_FULL else if recoded chip (ef_blocks s) l then ESP_ERR_CODING else ESP_OK).
Proof.
  intros Hchip Hal Hfield Hnd Hs Hcnt all l Hrd.
  destruct (write_field_cnt_spec chip Hchip hal_program coding_error field Hfield cnt s Hs Hcnt Hrd) as (err & s' & E & Hpost).
  fold all in Hpost. fold l in Hpost. exists err, s'. split; [done|]. destruct (Z.ltb_spec (Z.of_nat (length all)) cnt).
  - destruct Hpost as (-> & Hm & Hu & Hbl). by split_and!.
  - destruct Hpost as (Hm & Hu & _ & Hcase & Hcod & Hok & Hfail). split; [|split].
    + intros Ho. specialize (Hok Ho). split; [|exact Hok]. rewrite (count_set_adds (ef_blocks s) _ _ (Z.to_nat cnt) Hnd); [|intros x Hx; by apply (field_pos_in_chip chip field)|exact Hok].
      fold all. rewrite length_take. lia.
    + intros N1 N2. destruct (recoded chip (ef_blocks s) l); [by apply Hcod|]. by destruct Hcase as [[->| ->] _].
    + intros HW. destruct (recoded chip (ef_blocks s) l); [done|]. by apply Hcase.
Qed.

(** ** Reading back *)

Lemma ones_of_nth src pos n i x : NoDup pos -> 0 <= i < n -> pos !! Z.to_nat i = Some x -> bool_decide (x ∈ ones_of src pos 0 n) = blob_bit src i.
Proof.
  intros Hnd Hi Hx. destruct (blob_bit src i) eqn:Eb.
  - apply bool_decide_eq_true, elem_of_ones_of. exists i. split; [lia|done].
  - apply bool_decide_eq_false. intros (j & Hj & Ej & Hx')%elem_of_ones_of.
    assert (Z.to_nat i = Z.to_nat j) by (by eapply NoDup_lookup). assert (i = j) as -> by lia. congruence.
Qed.

(** C23: After a buffer was written to a field with ESP_OK while no batch was
    open, reading the field, while no other task burns, gives the buffer,
    combined with the bits that were set before (on real eFuses the bits must
    not include a read protection bit). *)
Theorem efuse_write_read chip hal_program coding_error field src size dst s s' :
  chip_ok chip -> HalLaws hal_program -> field_ok chip field -> NoDup (field_pos field) -> ready s -> bytes src -> bytes dst ->
  0 < size <= Z.of_nat (length (field_pos field)) ->
  esp_efuse_utility_get_number_of_items size 8 <= Z.of_nat (length src) -> esp_efuse_utility_get_number_of_items size 8 <= Z.of_nat (length dst) ->
  rd_dis_free chip (ones_of src (field_pos field) 0 size) -> ef_env s = [] -> is_u32 (s_burn_counter s) -> Z.even (s_burn_counter s) = true ->
  esp_efuse_write_field_blob chip hal_program coding_error (Some field) (Some src) size s = RET ESP_OK s' ->
  exists dst', esp_efuse_read_field_blob chip (Some field) (Some dst) size s' = RET (ESP_OK, Some dst') s' /\
    forall i x, 0 <= i < size -> field_pos field !! Z.to_nat i = Some x -> blob_bit dst' i = bit_at (ef_blocks s) x || blob_bit src i.
Proof.
  intros Hchip Hal Hfield Hnd Hs Hsrc Hdst Hsize Hl Hl' Hrd He Hu Hev E.
  destruct (number_of_items_spec size ltac:(lia)) as [N0 N1].
  destruct (write_field_blob_spec chip Hchip hal_program coding_error field Hfield src size s Hs Hsrc) as (err & s2 & E2 & Hpost); [lia|lia|by rewrite Z.min_l by lia|].
  rewrite E in E2. injection E2 as <- <-. rewrite Z.min_l in Hpost by lia.
  destruct (conflict _ _); [by destruct Hpost|]. destruct Hpost as ((_ & _ & Me & Mc) & _ & _ & _ & _ & Hok & _).
  specialize (Hok eq_refl). destruct (Mc Hu) as [Hu' Hev']. rewrite He in Me.
  assert (A : forall k, after k s' = s') by (intros k; rewrite after_end; rewrite Me; [done|cbn; lia]).
  destruct (read_field_blob_spec chip Hchip field Hfield dst size s') as (j & k & dst' & _ & Er & _ & _ & G); [done|lia|lia| | |].
  { split; [done|]. unfold steps_left. by rewrite Me. }
  { unfold env_ends. by rewrite Me, A, Hev'. }
  rewrite !A in *. exists dst'. split; [done|]. intros i x Hi Hx. rewrite G, Hx by lia. unfold beyond.
  rewrite (proj2 (Z.leb_gt _ _)), (proj2 (Z.ltb_lt i _)) by lia. cbn [andb orb].
  destruct x as [b q]. pose proof (Hok b q) as E'. unfold bit_at. cbn. rewrite E'.
  - by rewrite (ones_of_nth src (field_pos field) size i).
  - apply (field_pos_in_chip chip field Hchip Hfield (b, q)). by eapply list_elem_of_lookup_2.
Qed.

(** ** Batches *)

(** A write of a field: descriptor, buffer, size. *)
Definition efuse_write : Type := list esp_efuse_desc_t * list Z * Z.

Definition write_ok (chip : efuse_chip) (w : efuse_write) : Prop :=
  let '(field, src, size) := w in
  field_ok chip field /\ bytes src /\ 0 < size /\ Z.min size (Z.of_nat (length (field_pos field))) <= 8 * Z.of_nat (length src).

(** The bits that it sets. *)
Definition write_bits (w : efuse_write) : list (Z * Z) :=
  let '(field, src, size) := w in ones_of src (field_pos field) 0 (Z.min size (Z.of_nat (length (field_pos field)))).

Section Batch.
Context (chip : efuse_chip) (Hchip : chip_ok chip).
Context (hal_program : Z -> regs -> Z -> (Z -> Z) -> regs) (coding_error : Z -> regs -> Z -> bool) `{Hal : !HalLaws hal_program}.

Fixpoint run_writes (ws : list efuse_write) : M efuse (list esp_err_t) :=
  match ws with
  | [] => mret []
  | (field, src, size) :: ws =>
      err ← esp_efuse_write_field_blob chip hal_program coding_error (Some field) (Some src) size;
      errs ← run_writes ws;
      mret (err :: errs)
  end.

(** A batch that ends with [close]. *)
Definition batch (ws : list efuse_write) (close : M efuse esp_err_t) : M efuse (list esp_err_t * esp_err_t) :=
  _ ← esp_efuse_batch_write_begin chip;
  errs ← run_writes ws;
  err ← close;
  mret (errs, err).

Lemma stages_trans s t u l1 l2 : stages s t l1 -> stages t u l2 -> stages s u (l1 ++ l2).
Proof.
  intros (w1 & -> & _ & A1) (w2 & -> & W2 & A2). exists w2. split_and!; [done|done|]. intros b q Hq. rewrite A2 by done. cbn. rewrite A1, <- orb_assoc by done.
  f_equal. destruct (bool_decide_reflect ((b, q) ∈ l1)), (bool_decide_reflect ((b, q) ∈ l2)); symmetry;
    (apply bool_decide_eq_true || apply bool_decide_eq_false); rewrite elem_of_app; tauto.
Qed.

(** In a batch a write only stages, or reports a programmed bit. *)
Lemma batch_write_spec field src size s : write_ok chip (field, src, size) -> words (ef_wdata s) -> s_batch_writing_mode s <> 0 ->
  let l := write_bits (field, src, size) in
  exists t err, esp_efuse_write_field_blob chip hal_program coding_error (Some field) (Some src) size s = RET err t /\
    err = (if conflict (ef_blocks s) l then ESP_ERR_EFUSE_REPEATED_PROG else ESP_OK) /\
    exists l', (forall x, x ∈ l' -> x ∈ l) /\ (err = ESP_OK -> l' = l) /\ stages s t l'.
Proof using Hchip.
  intros (Hfield & Hsrc & Hsize & Hl) Hw Hb l. set (s1 := set_lock (s_efuse_lock s + 1) s).
  destruct (stage_blob chip Hchip field Hfield src size s1) as (err & t & E & Er & c & Hc & Hst & Hall); [done|done|done|done|].
  change (ef_blocks s1) with (ef_blocks s) in Er. fold (write_bits (field, src, size)) in Er. fold l in Er.
  destruct Hst as (w & -> & Hww & Ha).
  assert (Ew : write_with chip hal_program coding_error
    (r ← esp_efuse_utility_process (esp_efuse_utility_write_blob chip) false field src size; mret r.1) s1 = RET err (set_wdata w s1)).
  { unfold write_with. rewrite (bind_RET burn_at_once _ s1 false s1) by (unfold burn_at_once, gets; cbn; by rewrite (proj2 (Z.eqb_neq _ _)) by done).
    rewrite bind_mret, (bind_RET _ _ s1 err (set_wdata w s1)) by (by rewrite (bind_RET _ _ _ _ _ E)).
    by rewrite (bind_RET burn_at_once _ _ false (set_wdata w s1)) by (unfold burn_at_once, gets; cbn; by rewrite (proj2 (Z.eqb_neq _ _)) by done). }
  destruct (lock_release _ s err _ Ew) as [E' _]; [by split_and!|].
  exists (set_lock (s_efuse_lock s) (set_wdata w s1)), err. split.
  { unfold esp_efuse_write_field_blob. rewrite (proj2 (Z.eqb_neq size 0)) by lia. exact E'. }
  split; [done|]. exists (ones_of src (field_pos field) 0 c). split_and!.
  - intros x. unfold l, write_bits. rewrite !elem_of_ones_of. intros (i & Hi & ? & ?). exists i. split; [lia|done].
  - intros Ho. unfold l, write_bits. by rewrite (Hall Ho).
  - exists w. split_and!; [by destruct s|done|exact Ha].
Qed.

Lemma run_writes_spec ws s : Forall (write_ok chip) ws -> words (ef_wdata s) -> s_batch_writing_mode s <> 0 ->
  Forall (fun w => conflict (ef_blocks s) (write_bits w) = false) ws ->
  exists t, run_writes ws s = RET (replicate (length ws) ESP_OK) t /\ stages s t (ws ≫= write_bits).
Proof using Hchip.
  revert s. induction ws as [|[[field src] size] ws IH]; intros s Hok Hw Hb Hnc; [exists s; split; [done|by apply stages_nil]|].
  destruct (batch_write_spec field src size s (Forall_inv Hok) Hw Hb) as (t & err & E & Er & l' & _ & Hl' & Hst).
  rewrite (Forall_inv Hnc) in Er. specialize (Hl' Er). subst err l'.
  assert (Ht : words (ef_wdata t) /\ s_batch_writing_mode t = s_batch_writing_mode s /\ ef_blocks t = ef_blocks s) by (by destruct Hst as (w & -> & ? & _)).
  destruct Ht as (Hwt & Hbt & Hrt). rewrite <- Hbt in Hb.
  destruct (IH t (Forall_inv_tail Hok) Hwt Hb) as (u & Eu & Hu); [rewrite Hrt; exact (Forall_inv_tail Hnc)|].
  exists u. cbn [run_writes]. rewrite (bind_RET _ _ _ _ _ E), (bind_RET _ _ _ _ _ Eu). split; [done|]. by eapply stages_trans.
Qed.

(** The state in which a batch starts. *)
Definition batch_start (s : efuse) : efuse := reset_of chip (set_batch 1 (set_lock (s_efuse_lock s + 1) s)).

Lemma batch_begin_spec s : s_batch_writing_mode s = 0 -> esp_efuse_batch_write_begin chip s = RET ESP_OK (batch_start s).
Proof.
  intros Hb. unfold esp_efuse_batch_write_begin. rewrite (bind_RET EFUSE_LOCK_ACQUIRE_RECURSIVE _ s tt _ eq_refl).
  rewrite (bind_RET (gets s_batch_writing_mode) _ _ 0 (set_lock (s_efuse_lock s + 1) s)) by (unfold gets; cbn; by rewrite Hb).
  transitivity ((esp_efuse_utility_reset chip ≫= fun _ => mret ESP_OK) (set_batch 1 (set_lock (s_efuse_lock s + 1) s))); [done|].
  by rewrite (bind_RET _ _ _ _ _ (reset_spec chip Hchip _)).
Qed.

Lemma bits_in_chip ws : Forall (write_ok chip) ws -> in_chip chip (ws ≫= write_bits).
Proof.
  intros Hok x (w & Hx & Hw)%list_elem_of_bind. pose proof (proj1 (List.Forall_forall _ _) Hok w (proj1 (list_elem_of_In _ _) Hw)) as H.
  destruct w as [[field src] size]. destruct H as (Hf & _). apply (field_pos_in_chip chip field Hchip Hf). by eapply ones_of_sub.
Qed.

Lemma batch_commit_spec s l : words (ef_blocks s) -> staged_are chip s l -> in_chip chip l -> rd_dis_free chip l -> s_batch_writing_mode s = 1 ->
  exists err s', esp_efuse_batch_write_commit chip hal_program coding_error s = RET err s' /\
    written chip hal_program coding_error err l (set_batch 0 (set_lock (s_efuse_lock s - 1) s)) s'.
Proof using Hchip Hal.
  intros Hr Hsa Hin Hrd Hb. set (s1 := set_batch 0 s).
  destruct (finish_spec chip Hchip hal_program coding_error s1 l Hr Hsa Hin Hrd) as (err & s' & E & Hm & Hww & Hrr & Hcase & Hok & Hfail).
  unfold finish in E. cbn [is_ok] in E. pose proof (apply_coding_spec chip s1 l Hsa Hin) as Ea.
  rewrite (bind_RET _ _ _ _ _ Ea) in E. unfold esp_efuse_batch_write_commit.
  rewrite (bind_RET (gets s_batch_writing_mode) _ _ 1 s) by (unfold gets; by rewrite Hb).
  cbn [Z.eqb]. rewrite (bind_RET (modify (set_batch (1 - 1))) _ _ tt s1 eq_refl). change (1 - 1 =? 0) with true. cbv iota.
  rewrite (bind_RET _ _ _ _ _ Ea). change (ef_blocks s1) with (ef_blocks s) in *.
  destruct (recoded chip (ef_blocks s) l) eqn:Erc; cbn [is_ok] in E |- *.
  - destruct Hcase as [-> ->]. rewrite bind_assoc, (bind_RET _ _ _ _ _ (reset_spec chip Hchip s1)), bind_mret.
    eexists ESP_ERR_CODING, _. split; [reflexivity|]. split; [|split; [|split; [done|]]].
    + destruct (reset_of_modes chip s1) as (M1 & M2 & M3 & M4). split_and!; [done..|exact M4].
    + apply (reset_of_unstaged chip). apply Hsa.
    + split; [|done]. cbn. by rewrite Erc.
  - rewrite (bind_RET _ _ _ _ _ E). destruct Hcase as (Hu & Her & Hwk). destruct Hm as (M1 & M2 & M3 & M4).
    eexists err, _. split; [reflexivity|]. split; [|split; [exact Hu|split; [exact Hrr|]]].
    + split_and!; [exact M1|cbn in *; by rewrite M2|exact M3|exact M4].
    + split_and!; [cbn; by rewrite Erc| |exact Hok|exact Hfail]. intros ->. by destruct Her.
Qed.

(** The end of a batch in which the bits of [l] were staged. *)
Lemma batch_closes s t l : ready s -> stages (batch_start s) t l -> in_chip chip l -> rd_dis_free chip l ->
  (exists err s', esp_efuse_batch_write_commit chip hal_program coding_error t = RET err s' /\ written chip hal_program coding_error err l s s') /\
  (exists s', esp_efuse_batch_write_cancel chip t = RET ESP_OK s' /\ refused chip s s').
Proof using Hchip Hal.
  intros (Hr & Hw & Hb) Hst Hin Hrd. set (s1 := set_batch 1 (set_lock (s_efuse_lock s + 1) s)).
  assert (Hsa : staged_are chip t l) by (apply (stages_from_reset chip s1); done).
  assert (Et : ef_blocks t = ef_blocks s /\ same_modes s1 t) by (destruct Hst as (w & -> & _); split; [done|apply reset_of_modes]).
  destruct Et as [Eb (M1 & M2 & M3 & M4)]. split.
  - destruct (batch_commit_spec t l) as (err & s' & Ec & Hwr); [by rewrite Eb|done..|].
    exists err, s'. split; [done|]. destruct Hwr as ((N1 & N2 & N3 & N4) & Hu & Hrest). cbn in N1, N2, N3, N4.
    split; [|split; [exact Hu|cbn in Hrest; by rewrite Eb in Hrest]].
    split_and!; [congruence|rewrite N2, M2; cbn; lia|rewrite N3, M3; done|]. intros Hu0. destruct (M4 Hu0) as [U V]. destruct (N4 U) as [U' V'].
    split; [done|]. rewrite V'. exact V.
  - unfold esp_efuse_batch_write_cancel. rewrite (bind_RET (gets s_batch_writing_mode) _ _ 1 t) by (unfold gets; by rewrite M1).
    exists (set_lock (s_efuse_lock t - 1) (reset_of chip (set_batch 0 t))). split; [|split; [|split]].
    + transitivity (((esp_efuse_utility_reset chip ≫= fun _ => EFUSE_LOCK_RELEASE_RECURSIVE) ≫= fun _ => mret ESP_OK) (set_batch 0 t)); [done|].
      by rewrite bind_assoc, (bind_RET _ _ _ _ _ (reset_spec chip Hchip _)).
    + split_and!; [by cbn|cbn; rewrite M2; cbn; lia|cbn; by rewrite M3|]. intros Hu0. cbn. destruct (M4 Hu0) as [U V]. cbn in V.
      split; [apply u32_range|]. by rewrite even_step2, V.
    + apply (reset_of_unstaged chip). apply Hsa.
    + exact Eb.
Qed.
End Batch.

(** C22: A batch that is not nested in another one and whose writes each set
    no bit that was set before the batch (on real eFuses the bits must not
    include a read protection bit): every write returns ESP_OK and burns
    nothing. The commit returns ESP_OK and has then burned exactly the bits of
    all writes; or ESP_ERR_CODING, when a written block with a coding scheme
    is not empty, and has burned nothing; or ESP_FAIL, only when the
    controller fails, and some of these bits have been burned. A cancel
    instead of the commit burns nothing. Afterwards the batch is closed, the
    lock is held as often as before, and nothing is staged. (Nested batches
    and failed writes in a batch behave differently, see the findings.) *)
Theorem efuse_batch_atomic chip hal_program coding_error ws s :
  chip_ok chip -> HalLaws hal_program -> ready s -> Forall (write_ok chip) ws ->
  Forall (fun w => conflict (ef_blocks s) (write_bits w) = false) ws -> rd_dis_free chip (ws ≫= write_bits) ->
  (exists err s', batch chip hal_program coding_error ws (esp_efuse_batch_write_commit chip hal_program coding_error) s =
     RET (replicate (length ws) ESP_OK, err) s' /\ written chip hal_program coding_error err (ws ≫= write_bits) s s') /\
  (exists s', batch chip hal_program coding_error ws (esp_efuse_batch_write_cancel chip) s =
     RET (replicate (length ws) ESP_OK, ESP_OK) s' /\ refused chip s s').
Proof.
  intros Hchip Hal Hs Hok Hnc Hrd. pose proof Hs as (_ & Hw & Hb).
  destruct (run_writes_spec chip Hchip hal_program coding_error ws (batch_start chip s)) as (t & E & Hst);
    [done|by apply reset_of_unstaged|done|done|].
  pose proof (bits_in_chip chip Hchip ws Hok) as Hin.
  destruct (batch_closes chip Hchip hal_program coding_error s t _ Hs Hst Hin Hrd) as [(err & s1 & E1 & W) (s2 & E2 & R)].
  unfold batch. rewrite !(bind_RET _ _ _ _ _ (batch_begin_spec chip Hchip s Hb)), !(bind_RET _ _ _ _ _ E).
  rewrite (bind_RET _ _ _ _ _ E1), (bind_RET _ _ _ _ _ E2). split; [by exists err, s1|by exists s2].
Qed.

(** ** A controller and examples *)

(** It sets the bits at once. *)
Definition xf_hal (n : Z) (r : regs) (blk : Z) (data : Z -> Z) : regs := fun b i => if b =? blk then Z.lor (r b i) (u32 (data i)) else r b i.
Definition xf_coding (n : Z) (r : regs) (blk : Z) : bool := false.

Lemma xf_hal_bit n r blk data b q : 0 <= q ->
  reg_bit (xf_hal n r blk data) b q = reg_bit r b q || ((b =? blk) && Z.testbit (data (q / 32)) (q mod 32)).
Proof.
  intros Hq. unfold reg_bit, xf_hal. destruct (b =? blk); [|by rewrite orb_false_r]. rewrite Z.lor_spec. f_equal. cbn.
  unfold u32. rewrite Z.testbit_mod_pow2 by (try apply Z.mod_pos_bound; lia).
  by rewrite (proj2 (Z.ltb_lt _ _)) by (apply Z.mod_pos_bound; lia).
Qed.

#[export] Instance xf_hal_laws : HalLaws xf_hal.
Proof.
  split. intros n r blk data Hr _. split.
  - intros b i. unfold xf_hal. case_match; [|apply Hr]. apply lor_u32; [apply Hr|apply u32_range].
  - intros b q Hq. rewrite xf_hal_bit by done. destruct (reg_bit r b q), (_ && _); cbn; auto.
Qed.

Lemma xf_hal_works : hal_works xf_hal xf_coding.
Proof. split; [|done]. intros r blk data q Hq Ht. rewrite xf_hal_bit by done. by rewrite Z.eqb_refl, Ht, orb_true_r. Qed.

(** Blank fuses. *)
Definition xf_blank : efuse := mkEfuse (fun _ _ => 0) (fun _ _ => 0) 0 0 0 [].

Lemma xf_blank_ready : ready xf_blank.
Proof. by repeat split. Qed.

Ltac xf_bytes := apply bytes_Forall; repeat constructor; unfold is_byte; lia.
Ltac xf_rd_dis := intros _ q Hq Hx; apply (bool_decide_eq_true_2 _) in Hx;
  assert (q = 32 \/ q = 33 \/ q = 34 \/ q = 35 \/ q = 36 \/ q = 37 \/ q = 38) as C by lia;
  repeat (destruct C as [->|C]; [vm_compute in Hx; discriminate|]); subst q; vm_compute in Hx; discriminate.

(** The 40 bits of [xf_field] are written; the blocks 3 and 0 change. *)
Lemma efuse_write_blob_witness : exists s',
  esp_efuse_write_field_blob (esp32c3_efuse false) xf_hal xf_coding (Some xf_field) (Some [0xCD; 0xAB; 0x34; 0x12; 0x81]) 40 xf_blank = RET ESP_OK s' /\
  reg_bit (ef_blocks s') 3 16 = true /\ ef_blocks s' 3 0 = 0xABCD0000.
Proof.
  destruct (efuse_write_blob (esp32c3_efuse false) xf_hal xf_coding xf_field [0xCD; 0xAB; 0x34; 0x12; 0x81] 40 xf_blank)
    as (err & s' & E & Hok & _ & _ & Hwk & _).
  - apply esp32c3_efuse_ok.
  - apply xf_hal_laws.
  - apply xf_field_ok.
  - apply xf_blank_ready.
  - xf_bytes.
  - lia.
  - vm_compute. discriminate.
  - xf_rd_dis.
  - assert (err = ESP_OK) as -> by (rewrite (Hwk (or_introl xf_hal_works)); vm_compute; reflexivity).
    exists s'. split; [exact E|]. split; [rewrite (Hok eq_refl) by lia; vm_compute; reflexivity|].
    assert (C : match esp_efuse_write_field_blob (esp32c3_efuse false) xf_hal xf_coding (Some xf_field) (Some [0xCD; 0xAB; 0x34; 0x12; 0x81]) 40 xf_blank
      with RET _ t => ef_blocks t 3 0 | _ => 0 end = 0xABCD0000) by (vm_compute; reflexivity).
    rewrite E in C. exact C.
Defined.

(** Three more bits of a field that has one. *)
Lemma efuse_write_cnt_witness : exists s',
  let s := set_blocks (upd (fun _ _ => 0) 0 1 0x200) xf_blank in
  esp_efuse_write_field_cnt (esp32c3_efuse false) xf_hal xf_coding (Some [mkDesc 0 40 8]) 3 s = RET ESP_OK s' /\
  count_set (ef_blocks s') (field_pos [mkDesc 0 40 8]) = 4.
Proof.
  set (s := set_blocks (upd (fun _ _ => 0) 0 1 0x200) xf_blank).
  destruct (efuse_write_cnt (esp32c3_efuse false) xf_hal xf_coding [mkDesc 0 40 8] 3 s) as (err & s' & E & Hok & _ & Hwk).
  - apply esp32c3_efuse_ok.
  - apply xf_hal_laws.
  - repeat constructor; cbn; lia.
  - apply (bool_decide_eq_true_1 _). vm_compute. reflexivity.
  - split; [|by repeat split]. intros b i. cbn. unfold upd. destruct (_ && _); unfold is_u32; lia.
  - lia.
  - xf_rd_dis.
  - assert (err = ESP_OK) as -> by (rewrite (Hwk (or_introl xf_hal_works)); vm_compute; reflexivity).
    exists s'. split; [exact E|]. rewrite (proj1 (Hok eq_refl)). vm_compute. reflexivity.
Defined.

Definition xf_src : list Z := [0xCD; 0xAB; 0x34; 0x12; 0x81].

Lemma xf_write_read :
  match esp_efuse_write_field_blob (esp32c3_efuse true) xf_hal xf_coding (Some xf_field) (Some xf_src) 40 xf_blank with
  | RET err s => is_ok err && match esp_efuse_read_field_blob (esp32c3_efuse true) (Some xf_field) (Some (replicate 5 0)) 40 s with
                              | RET (_, Some d) _ => bool_decide (d = xf_src) | _ => false end
  | _ => false
  end = true.
Proof. vm_compute. reflexivity. Qed.

Lemma efuse_write_read_witness : exists s' dst',
  esp_efuse_write_field_blob (esp32c3_efuse true) xf_hal xf_coding (Some xf_field) (Some xf_src) 40 xf_blank = RET ESP_OK s' /\
  esp_efuse_read_field_blob (esp32c3_efuse true) (Some xf_field) (Some (replicate 5 0)) 40 s' = RET (ESP_OK, Some dst') s' /\ dst' = xf_src.
Proof.
  pose proof xf_write_read as C.
  destruct (esp_efuse_write_field_blob (esp32c3_efuse true) xf_hal xf_coding (Some xf_field) (Some xf_src) 40 xf_blank) as [err s'| |] eqn:Ew; [|discriminate|discriminate].
  apply andb_true_iff in C as [C1 C2]. destruct (is_ok_spec err) as [->|]; [|discriminate]. exists s'.
  destruct (efuse_write_read (esp32c3_efuse true) xf_hal xf_coding xf_field xf_src 40 (replicate 5 0) xf_blank s') as (dst' & E & _).
  - apply esp32c3_efuse_ok.
  - apply xf_hal_laws.
  - apply xf_field_ok.
  - apply (bool_decide_eq_true_1 _). vm_compute. reflexivity.
  - apply xf_blank_ready.
  - xf_bytes.
  - xf_bytes.
  - split; [lia|vm_compute; discriminate].
  - vm_compute. discriminate.
  - vm_compute. discriminate.
  - xf_rd_dis.
  - reflexivity.
  - split; vm_compute; [discriminate|reflexivity].
  - reflexivity.
  - exact Ew.
  - exists dst'. rewrite E in C2 |- *. split; [reflexivity|]. split; [reflexivity|]. exact (bool_decide_eq_true_1 _ C2).
Defined.

(** Two fields in a batch. *)
Definition xf_writes : list efuse_write := [(xf_field, xf_src, 40); ([mkDesc 4 0 16], [0x55; 0xAA], 16)].

Lemma efuse_batch_atomic_witness :
  (exists s', batch (esp32c3_efuse false) xf_hal xf_coding xf_writes (esp_efuse_batch_write_commit (esp32c3_efuse false) xf_hal xf_coding) xf_blank =
     RET ([ESP_OK; ESP_OK], ESP_OK) s' /\ reg_bit (ef_blocks s') 4 0 = true) /\
  exists s', batch (esp32c3_efuse false) xf_hal xf_coding xf_writes (esp_efuse_batch_write_cancel (esp32c3_efuse false)) xf_blank =
     RET ([ESP_OK; ESP_OK], ESP_OK) s'.
Proof.
  destruct (efuse_batch_atomic (esp32c3_efuse false) xf_hal xf_coding xf_writes xf_blank) as [(err & s1 & E1 & W) (s2 & E2 & _)].
  - apply esp32c3_efuse_ok.
  - apply xf_hal_laws.
  - apply xf_blank_ready.
  - constructor; [split_and!; [apply xf_field_ok|xf_bytes|lia|vm_compute; discriminate]|]. constructor; [|constructor].
    split_and!; [repeat constructor; cbn; lia|xf_bytes|lia|vm_compute; discriminate].
  - repeat constructor.
  - xf_rd_dis.
  - split; [|by exists s2]. destruct W as (_ & _ & _ & Hc & _ & Hok & _).
    assert (R : recoded (esp32c3_efuse false) (ef_blocks xf_blank) (xf_writes ≫= write_bits) = false) by (vm_compute; reflexivity).
    rewrite R in Hc. assert (err = ESP_OK) as -> by (apply Hc; left; apply xf_hal_works).
    exists s1. split; [exact E1|]. rewrite (Hok eq_refl) by lia. vm_compute. reflexivity.
Defined.
