(* ===== verification/EfuseVersion.v ===== *)
(** * The secure version on the eFuse API

    The functions of esp_efuse_fields.c work on the field
    [ESP_EFUSE_SECURE_VERSION] through [esp_efuse_read_field_blob] and
    [esp_efuse_write_field_blob]; here these are the functions of [Efuse], and
    the laws that [SecureVersion] relies on are proved of them. *)

From S2P Require Import Prelude Flash SecureVersion Efuse EfuseSpec EfuseRead EfuseStage EfuseWrite EfuseTheorems.

Section Device.
Context (chip : efuse_chip) (hal_program : Z -> regs -> Z -> (Z -> Z) -> regs) (coding_error : Z -> regs -> Z -> bool).
(** [ESP_EFUSE_SECURE_VERSION] and [ESP_EFUSE_SECURE_VERSION_NUM_BLOCK]. *)
Context (field : list esp_efuse_desc_t) (num_block : Z).

(** The calls of [esp_efuse_read_secure_version] and
    [esp_efuse_update_secure_version]; the return value of the second is not
    looked at. *)
Definition version_dev : EfuseDev efuse := {|
  ef_size _ := esp_efuse_get_field_size field;
  ef_read s n := match esp_efuse_read_field_blob chip (Some field) (Some (word_bytes 0)) n s with RET (_, Some dst) _ => bytes_word dst | _ => 0 end;
  ef_write s v n := match esp_efuse_write_field_blob chip hal_program coding_error (Some field) (Some (word_bytes v)) n s with RET _ s' => s' | _ => s end;
  ef_scheme_none _ := bool_decide (esp_efuse_get_coding_scheme num_block = EFUSE_CODING_SCHEME_NONE)
|}.
#[local] Existing Instance version_dev.

Context (Hchip : chip_ok chip) `{Hal : !HalLaws hal_program} (Hworks : hal_works hal_program coding_error \/ CONFIG_EFUSE_VIRTUAL chip = true).
Context (Hfield : field_ok chip field) (Hnd : NoDup (field_pos field)).
(** The field is in block 0 and has no bit of [RD_DIS]. *)
Context (Hblk : forall x, x ∈ field_pos field -> x.1 = 0) (Hrd : rd_dis_free chip (field_pos field)).

(** No batch is open and no other task burns. *)
Definition idle (s : efuse) : Prop := ready s /\ ef_env s = [] /\ is_u32 (s_burn_counter s) /\ Z.even (s_burn_counter s) = true.

Lemma ef_size_eq s : ef_size s = Z.of_nat (length (field_pos field)).
Proof. apply (field_size_spec chip field Hfield). Qed.

Lemma ef_read_eq s n dst s' : esp_efuse_read_field_blob chip (Some field) (Some (word_bytes 0)) n s = RET (ESP_OK, Some dst) s' -> ef_read s n = bytes_word dst.
Proof. intros E. unfold ef_read, version_dev. by rewrite E. Qed.

Lemma ef_write_eq s v n err s' : esp_efuse_write_field_blob chip hal_program coding_error (Some field) (Some (word_bytes v)) n s = RET err s' -> ef_write s v n = s'.
Proof. intros E. unfold ef_write, version_dev. by rewrite E. Qed.

Lemma idle_after s k : idle s -> after k s = s.
Proof. intros (_ & He & _). rewrite after_end; rewrite He; [done|cbn; lia]. Qed.

(** The bits of the number that is read. *)
Lemma ef_read_bits s n i : idle s -> 0 < n <= ef_size s -> n <= 32 -> 0 <= i ->
  Z.testbit (ef_read s n) i = match field_pos field !! Z.to_nat i with Some x => (i <? n) && bit_at (ef_blocks s) x | None => false end.
Proof.
  intros Hs Hn H32 Hi. pose proof Hs as (_ & He & Hu & Hev). rewrite ef_size_eq in Hn.
  destruct (number_of_items_spec n ltac:(lia)) as [N0 N1].
  destruct (read_field_blob_spec chip Hchip field Hfield (word_bytes 0) n s) as (j & k & dst & _ & E & Hb & _ & G);
    [apply word_bytes_bytes|lia|cbn; lia| | |].
  { split; [done|]. unfold steps_left. by rewrite He. }
  { unfold env_ends. by rewrite idle_after. }
  rewrite !idle_after in * by done. rewrite (ef_read_eq _ _ _ _ E), testbit_bytes_word, G, Z.min_l by (done || lia).
  unfold beyond. assert (blob_bit (word_bytes 0) i = false) as ->; [|by rewrite andb_false_r].
  destruct (decide (i < 32)); [rewrite word_bytes_bit by lia; apply Z.testbit_0_l|]. unfold blob_bit.
  rewrite lookup_ge_None_2; [apply Z.testbit_0_l|cbn; Z.to_euclidean_division_equations; lia].
Qed.

Lemma ef_read_0 s : ef_read s 0 = 0.
Proof. reflexivity. Qed.

#[export] Instance version_laws : EfuseLaws efuse idle.
Proof using Hchip Hal Hworks Hfield Hnd Hblk Hrd.
  split; [| |done].
  - intros s n Hs Hn H32. destruct (decide (n = 0)) as [->|]; [by rewrite ef_read_0|].
    assert (0 <= ef_read s n) by (apply Z.bits_iff_nonneg_ex; exists 32; intros i Hi; rewrite ef_read_bits by (done || lia);
      destruct (field_pos field !! _); [|done]; by rewrite (proj2 (Z.ltb_ge i n)) by lia).
    split; [done|]. apply lt_pow2_bits; [lia|done|]. intros i Hi. rewrite ef_read_bits by (done || lia).
    destruct (field_pos field !! _); [|done]. by rewrite (proj2 (Z.ltb_ge i n)) by lia.
  - intros s v n Hs Hn H32 Hv Hland. destruct (decide (n = 0)) as [->|].
    { rewrite !ef_read_0. assert (v = 0) as -> by lia. split; [|done]. exact Hs. }
    pose proof Hs as (Hrdy & He & Hu & Hev). pose proof Hn as Hlen. rewrite ef_size_eq in Hlen.
    set (l := ones_of (word_bytes v) (field_pos field) 0 n).
    destruct (write_field_blob_spec chip Hchip hal_program coding_error field Hfield (word_bytes v) n s) as (err & s' & E & Hpost); [done|apply word_bytes_bytes|lia|cbn; lia| |].
    { intros Hvirt q Hq Hx. by apply (Hrd Hvirt q Hq), (ones_of_sub _ _ _ _ _ Hx). }
    rewrite Z.min_l in Hpost by lia. fold l in Hpost.
    assert (Hc : conflict (ef_blocks s) l = false).
    { apply not_true_iff_false. intros (x & Hx%list_elem_of_In & Hbx)%existsb_exists. apply elem_of_ones_of in Hx as (i & Hi & Eb & Ex).
      rewrite word_bytes_bit in Eb by lia. assert (Z.testbit (Z.land (ef_read s n) v) i = false) as H0 by (rewrite Hland; apply Z.testbit_0_l).
      rewrite Z.land_spec, Eb, andb_true_r, ef_read_bits, Ex in H0 by (done || lia). rewrite (proj2 (Z.ltb_lt i n)) in H0 by lia. cbn in H0. congruence. }
    rewrite Hc in Hpost. destruct Hpost as ((M1 & M2 & M3 & M4) & Hun & Hwr & Hcase & _ & Hok & _).
    assert (Hrc : recoded chip (ef_blocks s) l = false).
    { apply not_true_iff_false. intros (b & Hb%list_elem_of_In%elem_of_seqZ & [Hl _]%andb_true_iff)%existsb_exists.
      apply existsb_exists in Hl as (x & Hx%list_elem_of_In & Exb%Z.eqb_eq). rewrite (Hblk x) in Exb by (by apply (ones_of_sub _ _ _ _ _ Hx)). lia. }
    rewrite Hrc in Hcase. specialize (Hok (proj2 Hcase Hworks)).
    rewrite (ef_write_eq _ _ _ _ _ E). assert (Hs' : idle s').
    { split; [split_and!; [done|apply Hun|by rewrite M1; apply Hrdy]|]. split; [by rewrite M3|]. destruct (M4 Hu) as [U V]. by rewrite V. }
    split; [done|]. apply Z.bits_inj'. intros i Hi. rewrite Z.lor_spec, !ef_read_bits by (done || rewrite ?ef_size_eq; lia).
    destruct (field_pos field !! Z.to_nat i) as [x|] eqn:Ex.
    2: { cbn. symmetry. apply lookup_ge_None in Ex. apply (high_bits_zero v n); lia. }
    destruct (Z.ltb_spec i n); cbn [andb orb].
    2: { symmetry. apply (high_bits_zero v n); lia. }
    destruct x as [b q]. unfold bit_at. cbn [fst snd]. rewrite Hok.
    + unfold l. rewrite (ones_of_nth (word_bytes v) (field_pos field) n i) by (done || lia). by rewrite word_bytes_bit by lia.
    + apply (field_pos_in_chip chip field Hchip Hfield (b, q)). by eapply list_elem_of_lookup_2.
Qed.

(** The first [size] bits of the field are [u] ones and then zeros. *)
Definition holds_version (size : Z) (s : efuse) (u : Z) : Prop :=
  forall i x, 0 <= i < size -> field_pos field !! Z.to_nat i = Some x -> bit_at (ef_blocks s) x = (i <? u).

Lemma holds_version_read size s u : idle s -> 0 <= size <= Z.of_nat (length (field_pos field)) -> size <= 32 -> 0 <= u <= size ->
  holds_version size s u <-> ef_read s size = Z.ones u.
Proof using Hchip Hfield.
  intros Hs Hl H32 Hu. destruct (decide (size = 0)) as [->|].
  { rewrite ef_read_0. assert (u = 0) as -> by lia. split; [done|]. intros _ i x Hi. lia. }
  split.
  - intros Hh. apply Z.bits_inj'. intros i Hi. rewrite ef_read_bits, Z.testbit_ones_nonneg by (done || rewrite ?ef_size_eq; lia).
    destruct (field_pos field !! Z.to_nat i) as [x|] eqn:Ex.
    + destruct (Z.ltb_spec i size); cbn [andb]; [apply Hh; [lia|done]|]. repeat zcase; lia.
    + apply lookup_ge_None in Ex. repeat zcase; lia.
  - intros E i x Hi Ex. assert (Z.testbit (ef_read s size) i = (i <? u)) as H by (rewrite E; apply Z.testbit_ones_nonneg; lia).
    rewrite ef_read_bits, Ex, (proj2 (Z.ltb_lt i size)) in H by (done || rewrite ?ef_size_eq; lia). exact H.
Qed.
End Device.

(** C20: While no batch is open, no other task burns, and with virtual eFuses
    or a controller that sets all bits: on a field of block 0 without read
    protection bits, of which at most 32 bits are used, that holds a version
    as a row of ones, updating the secure version raises the number of ones to
    the requested version, never lowers it, reports a lower request as a
    failure and a version that the field cannot hold as an invalid argument,
    and keeps the field a row of ones. (When the controller fails, ESP_OK is
    returned all the same, see the findings.) *)
Theorem secure_version_in_efuse chip hal_program coding_error field num_block app_sec_ver_size s u v :
  chip_ok chip -> HalLaws hal_program -> hal_works hal_program coding_error \/ CONFIG_EFUSE_VIRTUAL chip = true ->
  field_ok chip field -> NoDup (field_pos field) -> (forall x, x ∈ field_pos field -> x.1 = 0) -> rd_dis_free chip (field_pos field) -> num_block = 0 ->
  let D := version_dev chip hal_program coding_error field num_block in
  let size := Z.min app_sec_ver_size (Z.of_nat (length (field_pos field))) in
  0 <= size <= 32 -> idle s -> 0 <= u <= size -> holds_version field size s u -> 0 <= v ->
  let res := esp_efuse_update_secure_version (H := D) app_sec_ver_size s v in
  esp_efuse_read_secure_version (H := D) app_sec_ver_size s = u /\
  (v <= size ->
     res.1 = (if u <=? v then ESP_OK else ESP_FAIL) /\ idle res.2 /\ holds_version field size res.2 (Z.max u v) /\
     esp_efuse_read_secure_version (H := D) app_sec_ver_size res.2 = Z.max u v) /\
  (size < v -> res = (ESP_ERR_INVALID_ARG, s)).
Proof.
  intros Hchip Hal Hworks Hfield Hnd Hblk Hrd -> D size Hsize Hs Hu Hh Hv res.
  pose proof (version_laws chip hal_program coding_error field 0 Hchip Hworks Hfield Hnd Hblk Hrd) as Laws. fold D in Laws.
  assert (Esz : forall t, sec_ver_size (H := D) app_sec_ver_size t = size) by (intros t; unfold sec_ver_size, size; f_equal; by apply (ef_size_eq chip hal_program coding_error field 0 Hfield)).
  assert (Hl : 0 <= size <= Z.of_nat (length (field_pos field))) by (unfold size in *; lia).
  assert (Hread : forall t w, idle t -> 0 <= w <= size -> holds_version field size t w <-> ef_read (EfuseDev := D) t size = Z.ones w).
  { intros t w Ht Hw. apply holds_version_read; try done; lia. }
  assert (Hth : thermometer (ok := idle) app_sec_ver_size s).
  { split; [done|]. rewrite Esz. split; [lia|]. exists u. split; [lia|]. by apply Hread. }
  assert (Ev : esp_efuse_read_secure_version (H := D) app_sec_ver_size s = u).
  { apply (thermometer_version (ok := idle)); [done|rewrite Esz; lia|rewrite Esz; lia|rewrite Esz; by apply Hread]. }
  destruct (secure_version_update (ok := idle) app_sec_ver_size s v Hth eq_refl Hv) as [U1 U2]. rewrite Esz in U1, U2. fold res in U1, U2.
  split; [done|]. split; [|done]. intros Hvs. destruct (U1 Hvs) as (E1 & E2 & (Ho & _ & w & Hw & Er)). rewrite Ev in E1, E2. rewrite Esz in Hw, Er.
  assert (w = Z.max u v) as ->.
  { rewrite <- E2. symmetry. apply (thermometer_version (ok := idle)); [done|rewrite Esz; lia..|by rewrite Esz]. }
  split_and!; [done|apply Ho..|by apply Hread|done].
Qed.

(** The field of esp32c3/esp_efuse_table.c. *)
Definition ESP_EFUSE_SECURE_VERSION : list esp_efuse_desc_t := [mkDesc 0 142 16].

(** Three versions are counted. *)
Definition xf_version3 : efuse := set_blocks (upd (fun _ _ => 0) 0 4 0x1C000) xf_blank.

Lemma secure_version_in_efuse_witness :
  let D := version_dev (esp32c3_efuse false) xf_hal xf_coding ESP_EFUSE_SECURE_VERSION 0 in
  (esp_efuse_update_secure_version (H := D) 16 xf_version3 5).1 = ESP_OK /\
  esp_efuse_read_secure_version (H := D) 16 (esp_efuse_update_secure_version (H := D) 16 xf_version3 5).2 = 5.
Proof.
  intros D.
  destruct (secure_version_in_efuse (esp32c3_efuse false) xf_hal xf_coding ESP_EFUSE_SECURE_VERSION 0 16 xf_version3 3 5) as (_ & U & _).
  - apply esp32c3_efuse_ok.
  - apply xf_hal_laws.
  - left. apply xf_hal_works.
  - repeat constructor; cbn; lia.
  - apply (bool_decide_eq_true_1 _). vm_compute. reflexivity.
  - intros x Hx. unfold field_pos, ESP_EFUSE_SECURE_VERSION, desc_pos in Hx. cbn [mbind list_bind app efuse_block] in Hx.
    rewrite app_nil_r in Hx. apply list_elem_of_fmap in Hx as (q & -> & _). reflexivity.
  - xf_rd_dis.
  - reflexivity.
  - vm_compute. split; discriminate.
  - split; [split; [|by repeat split]|by repeat split]. intros b i. cbn. unfold upd. destruct (_ && _); unfold is_u32; lia.
  - vm_compute. split; discriminate.
  - intros i x Hi Hx. change (0 <= i < 16) in Hi.
    assert (G : forallb (fun i => Bool.eqb (reg_bit (ef_blocks xf_version3) 0 (142 + i)) (i <? 3)) (seqZ 0 16) = true) by (vm_compute; reflexivity).
    pose proof (field_pos_lookup [] (mkDesc 0 142 16) [] i Hi) as Ex.
    change (field_pos ESP_EFUSE_SECURE_VERSION !! Z.to_nat i = Some (0, 142 + i)) in Ex.
    rewrite Hx in Ex. injection Ex as ->.
    apply Bool.eqb_prop. rewrite forallb_forall in G. apply G, list_elem_of_In, elem_of_seqZ. lia.
  - lia.
  - destruct U as (U1 & _ & _ & U4); [vm_compute; discriminate|]. split; [exact U1|exact U4].
Defined.
