(* ===== verification/EfuseProtect.v ===== *)
(** * Burning bits that hide blocks

    Bits of [RD_DIS] in block 0 hide key blocks from software: they read as
    zero from then on.  esp_efuse_utility_burn_chip burns block 0 last; this
    file shows what that means for a batch that contains such bits. *)

From S2P Require Import Prelude Flash SecureVersion Efuse EfuseSpec EfuseRead EfuseStage EfuseWrite EfuseTheorems.

(** [r'] has the bits of [r], in block 0 also some of [d]; a block with [h]
    may be hidden. *)
Definition protected (h : Z -> bool) (d : Z -> bool) (r r' : regs) : Prop :=
  words r' /\
  (forall q, 0 <= q -> (reg_bit r 0 q = true -> reg_bit r' 0 q = true) /\ (reg_bit r' 0 q = true -> reg_bit r 0 q = true \/ d q = true)) /\
  forall blk, blk <> 0 -> (forall q, 0 <= q -> reg_bit r' blk q = reg_bit r blk q) \/ (h blk = true /\ forall q, 0 <= q -> reg_bit r' blk q = false).

(** The data for block 0 sets the bit of [RD_DIS] of the block. *)
Definition hides_block (data : Z -> Z) (blk : Z) : bool := (4 <=? blk) && (blk <=? 10) && Z.testbit (data 1) (blk - 4).

(** Programming block 0 sets bits that are asked for and clears none; a block
    whose bit of [RD_DIS] is among them may be hidden. *)
Class HalProtects (hal_program : Z -> regs -> Z -> (Z -> Z) -> regs) : Prop := {
  hal_protects : forall n r data, words r ->
    protected (hides_block data) (fun q => Z.testbit (data (q / 32)) (q mod 32)) r (hal_program n r 0 data)
}.

Lemma protected_refl h d r : words r -> protected h d r r.
Proof. intros Hr. split; [done|]. split; [auto|]. by left. Qed.

Lemma protected_trans h d r1 r2 r3 : protected h d r1 r2 -> protected h d r2 r3 -> protected h d r1 r3.
Proof.
  intros (_ & A & B) (W & A' & B'). split; [done|]. split; [intros q Hq; specialize (A q Hq); specialize (A' q Hq); tauto|].
  intros blk Hb. specialize (B blk Hb). destruct (B' blk Hb) as [E'|[H' E']]; [|by right].
  destruct B as [E|[H E]]; [left|right; split; [done|]]; intros q Hq; rewrite E' by done; auto.
Qed.

Lemma protected_mono h h' d d' r r' : (forall blk, h blk = true -> h' blk = true) -> (forall q, 0 <= q -> d q = true -> d' q = true) ->
  protected h d r r' -> protected h' d' r r'.
Proof.
  intros Hh Hd (W & A & B). split; [done|]. split; [intros q Hq; specialize (A q Hq); specialize (Hd q Hq); tauto|].
  intros blk Hb. destruct (B blk Hb) as [E|[H E]]; [by left|right; auto].
Qed.

(** What burning the bits of the list does: first those outside of block 0;
    if that fails nothing else. *)
Definition burned_in_order (err : esp_err_t) (l : list (Z * Z)) (r r' : regs) : Prop :=
  exists r1, grows r r1 (fun b q => negb (b =? 0) && bool_decide ((b, q) ∈ l)) /\
  let all := forall b q, b <> 0 -> 0 <= q -> (b, q) ∈ l -> reg_bit r1 b q = true in
  let last := protected (fun b => bool_decide (4 <= b <= 10 /\ (0, 28 + b) ∈ l)) (fun q => bool_decide ((0, q) ∈ l)) r1 r' in
  match err with
  | ESP_OK => all /\ last /\ forall q, 0 <= q -> (0, q) ∈ l -> reg_bit r' 0 q = true
  | _ => r' = r1 \/ (all /\ last)
  end.

(** The bits of blocks that are not hidden. *)
Lemma in_order_bits l r r' blk q : words r -> burned_in_order ESP_OK l r r' -> 0 <= q -> ~ (4 <= blk <= 10 /\ (0, 28 + blk) ∈ l) ->
  reg_bit r' blk q = reg_bit r blk q || bool_decide ((blk, q) ∈ l).
Proof.
  intros Hr (r1 & [_ G] & Hall & (_ & P0 & P) & Hlow) Hq Hh. specialize (G blk q Hq). apply eq_true_iff_eq. rewrite orb_true_iff, bool_decide_eq_true.
  destruct (decide (blk = 0)) as [->|Hb].
  - cbn [Z.eqb negb andb] in G. specialize (P0 q Hq). specialize (Hlow q Hq). rewrite bool_decide_eq_true in P0. destruct G as [G1 G2], P0 as [P1 P2]. split; [intros Hx; destruct (P2 Hx) as [Hx1|]; [|by right]; destruct (G2 Hx1) as [|?]; [by left|done]|intros [Hx|Hx]; [by apply P1, G1|by apply Hlow]].
  - destruct (P blk Hb) as [E|[H _]]; [|by apply bool_decide_eq_true in H]. rewrite E by done. specialize (Hall blk q Hb Hq).
    rewrite andb_true_iff, bool_decide_eq_true in G. tauto.
Qed.

(** The emulation burns all blocks at once. *)
Lemma adds_in_order l r r' : words r -> words r' -> adds r r' l -> burned_in_order ESP_OK l r r'.
Proof.
  intros Hr Hr' Ha. exists (fun b i => if b =? 0 then r b i else r' b i).
  assert (E0 : forall b q, reg_bit (fun b i => if b =? 0 then r b i else r' b i) b q = if b =? 0 then reg_bit r b q else reg_bit r' b q) by (intros b q; unfold reg_bit; by destruct (b =? 0)).
  split; [split|split; [|split; [split; [done|split]|]]].
  - intros b i. destruct (b =? 0); [apply Hr|apply Hr'].
  - intros b q Hq. rewrite E0. destruct (b =? 0); [auto|]. rewrite Ha, orb_true_iff by done. cbn. tauto.
  - intros b q Hb Hq Hx. rewrite E0, (proj2 (Z.eqb_neq _ _)), Ha, (bool_decide_eq_true_2 _ Hx) by done. apply orb_true_r.
  - intros q Hq. rewrite E0. cbn. rewrite Ha, orb_true_iff by done. tauto.
  - intros b Hb. left. intros q Hq. by rewrite E0, (proj2 (Z.eqb_neq _ _)).
  - intros q Hq Hx. rewrite Ha, (bool_decide_eq_true_2 _ Hx) by done. apply orb_true_r.
Qed.

Section Protect.
Context (chip : efuse_chip) (Hchip : chip_ok chip) (Hreal : CONFIG_EFUSE_VIRTUAL chip = false).
Context (hal_program : Z -> regs -> Z -> (Z -> Z) -> regs) (coding_error : Z -> regs -> Z -> bool) `{Hal : !HalLaws hal_program, Hprot : !HalProtects hal_program}.

Lemma burn_efuses_in_order s l : words (ef_blocks s) -> staged_are chip s l ->
  exists err s', esp_efuse_utility_burn_efuses chip hal_program coding_error s = RET err s' /\ same_modes s s' /\ unstaged chip s' /\
    words (ef_blocks s') /\ (err = ESP_OK \/ err = ESP_FAIL) /\ (hal_works hal_program coding_error -> err = ESP_OK) /\
    burned_in_order err l (ef_blocks s) (ef_blocks s').
Proof using Hchip Hreal Hal Hprot.
  intros Hr [Hw Hl]. set (s1 := set_burn_counter (u32 (s_burn_counter s + 1)) s). set (w := ef_wdata s) in *.
  pose proof (proj1 (proj1 Hchip)) as Hmax. destruct (Z.to_nat (EFUSE_BLK_MAX chip)) as [|n] eqn:En; [lia|].
  destruct (burn_blocks_upper chip Hchip hal_program coding_error n ESP_OK s1 Hr Hw) as (err1 & r1 & E1 & G1 & He1 & Hok1 & Hwk1); [lia|by left|].
  assert (Hall : err1 = ESP_OK -> forall b q, b <> 0 -> 0 <= q -> (b, q) ∈ l -> reg_bit r1 b q = true).
  { intros Ho b q Hb Hq Hx. apply (bool_decide_eq_true_2 _) in Hx. rewrite <- Hl in Hx by done. apply Hok1; [done|done| |done].
    unfold staged, wr_exists in Hx. zbool. lia. }
  set (P := protected (fun b => bool_decide (4 <= b <= 10 /\ (0, 28 + b) ∈ l)) (fun q => bool_decide ((0, q) ∈ l))).
  destruct (burn_block_step chip Hchip hal_program coding_error P 0 err1 (set_blocks r1 s1))
    as (err & r & E & G & Wr & He & Hskip & Hok & Hwk); [|by intros; apply protected_refl|intros a b c; apply protected_trans|apply G1|done|lia|done|].
  { intros m r0 Hr0. pose proof (hal_protects m r0 (wdata chip w 0) Hr0) as G. split; [|apply G]. eapply protected_mono; [| |exact G].
    - intros b Hb. unfold hides_block in Hb. zbool. apply bool_decide_eq_true_2. split; [lia|]. apply (bool_decide_eq_true_1 _).
      rewrite <- Hl, <- wdata_bit by lia. replace ((28 + b) / 32) with 1 by (Z.to_euclidean_division_equations; lia).
      by replace ((28 + b) mod 32) with (b - 4) by (Z.to_euclidean_division_equations; lia).
    - intros q Hq Hb. cbn beta in Hb. by rewrite wdata_bit, Hl in Hb. }
  destruct (burn_efuses_run chip Hchip hal_program coding_error s err r Hw) as (s' & E' & Hm & Hu & Er).
  { rewrite Hreal, En. fold s1. by rewrite E1, E. }
  exists err, s'. rewrite Er. split_and!; [done..|auto|]. exists r1. split.
  { eapply grows_mono; [|exact G1]. intros b q Hq Hb. by rewrite <- Hl. }
  cbn [set_blocks ef_blocks ef_wdata] in *. destruct He as [-> | ->].
  - destruct (Hok eq_refl) as [-> A]. split; [by apply Hall|]. split; [exact G|]. intros q Hq Hx.
    apply A; [done|]. change (staged chip w 0 q = true). rewrite Hl by done. by apply bool_decide_eq_true_2.
  - destruct He1 as [-> | ->]; [right; split; [by apply Hall|exact G]|left; by apply Hskip].
Qed.

(** The end of a batch in which the bits of [l] were staged. *)
Lemma batch_closes_in_order s t l : ready s -> stages (batch_start chip s) t l -> in_chip chip l -> recoded chip (ef_blocks s) l = false ->
  exists err s', esp_efuse_batch_write_commit chip hal_program coding_error t = RET err s' /\ same_modes s s' /\ unstaged chip s' /\
    words (ef_blocks s') /\ (err = ESP_OK \/ err = ESP_FAIL) /\ (hal_works hal_program coding_error -> err = ESP_OK) /\
    burned_in_order err l (ef_blocks s) (ef_blocks s').
Proof using Hchip Hreal Hal Hprot.
  intros (Hr & Hw & Hb) Hst Hin Hrec. set (s1 := set_batch 1 (set_lock (s_efuse_lock s + 1) s)).
  assert (Hsa : staged_are chip t l) by (apply (stages_from_reset chip s1); done).
  assert (Et : ef_blocks t = ef_blocks s /\ same_modes s1 t) by (destruct Hst as (w & -> & _); split; [done|apply reset_of_modes]).
  destruct Et as [Eb (M1 & M2 & M3 & M4)]. rewrite <- Eb in Hr, Hrec |- *.
  destruct (burn_efuses_in_order (set_batch 0 t) l Hr Hsa) as (err & s' & E & (N1 & N2 & N3 & N4) & Hu & Hrest).
  exists err, (set_lock (s_efuse_lock s' - 1) s'). split; [|split; [|split; [exact Hu|exact Hrest]]].
  - unfold esp_efuse_batch_write_commit. rewrite (bind_RET (gets s_batch_writing_mode) _ _ 1 t) by (unfold gets; by rewrite M1). cbn [Z.eqb].
    rewrite (bind_RET (modify (set_batch (1 - 1))) _ _ tt (set_batch 0 t) eq_refl). change (1 - 1 =? 0) with true. cbv iota.
    rewrite (bind_RET _ _ _ _ _ (apply_coding_spec chip (set_batch 0 t) l Hsa Hin)). change (ef_blocks (set_batch 0 t)) with (ef_blocks t).
    rewrite Hrec. cbn [is_ok]. by rewrite (bind_RET _ _ _ _ _ E).
  - cbn in *. split_and!; [cbn; by rewrite N1|cbn; rewrite N2, M2; lia|cbn; by rewrite N3, M3|]. intros Hu0. destruct (M4 Hu0) as [U V]. destruct (N4 U) as [U' V'].
    cbn. split; [done|]. rewrite V'. exact V.
Qed.
End Protect.

(** A controller that hides a block as soon as its bit of [RD_DIS] is set. *)
Definition xf_hiding_hal (n : Z) (r : regs) (blk : Z) (data : Z -> Z) : regs :=
  fun b i => if (blk =? 0) && hides_block data b then 0 else xf_hal n r blk data b i.

Lemma xf_hiding_hal_bit n r blk data b q :
  reg_bit (xf_hiding_hal n r blk data) b q = negb ((blk =? 0) && hides_block data b) && reg_bit (xf_hal n r blk data) b q.
Proof. unfold reg_bit, xf_hiding_hal. destruct (_ && _); [apply Z.testbit_0_l|done]. Qed.

Lemma hides_block_hides data b : hides 0 data = false -> hides_block data b = false.
Proof.
  unfold hides, hides_block. cbn [Z.eqb andb]. intros H%negb_false_iff%Z.eqb_eq. destruct (4 <=? b) eqn:E1, (b <=? 10) eqn:E2; try done. zbool.
  assert (T : Z.testbit (Z.land (data 1) 0x7F) (b - 4) = false) by (rewrite H; apply Z.testbit_0_l).
  rewrite Z.land_spec in T. change 0x7F with (Z.ones 7) in T. by rewrite Z.ones_spec_low, andb_true_r in T by lia.
Qed.

#[export] Instance xf_hiding_hal_laws : HalLaws xf_hiding_hal.
Proof.
  split. intros n r blk data Hr Hh. assert (E : forall b, (blk =? 0) && hides_block data b = false).
  { intros b. destruct (Z.eqb_spec blk 0) as [->|]; [by apply hides_block_hides|done]. }
  destruct (hal_grows (HalLaws := xf_hal_laws) n r blk data Hr Hh) as [W G]. split.
  - intros b i. unfold xf_hiding_hal. rewrite E. apply W.
  - intros b q Hq. rewrite xf_hiding_hal_bit, E. by apply G.
Qed.

#[export] Instance xf_hiding_hal_protects : HalProtects xf_hiding_hal.
Proof.
  split. intros n r data Hr. split; [|split].
  - intros b i. unfold xf_hiding_hal, xf_hal. repeat case_match; try apply Hr; [by unfold is_u32|]. apply lor_u32; [apply Hr|apply u32_range].
  - intros q Hq. rewrite xf_hiding_hal_bit, xf_hal_bit by done. change (hides_block data 0) with false. cbn.
    destruct (reg_bit r 0 q), (Z.testbit _ _); cbn; auto.
  - intros blk Hb. destruct (hides_block data blk) eqn:E; [right; split; [done|]|left]; intros q Hq; rewrite xf_hiding_hal_bit, E; [done|].
    rewrite xf_hal_bit, (proj2 (Z.eqb_neq blk 0)) by done. apply orb_false_r.
Qed.

Lemma xf_hiding_hal_works : hal_works xf_hiding_hal xf_coding.
Proof.
  split; [|done]. intros r blk data q Hq Ht. rewrite xf_hiding_hal_bit. rewrite (proj1 xf_hal_works) by done.
  destruct (Z.eqb_spec blk 0) as [->|]; done.
Qed.
