(* ===== verification/EfuseKeys.v ===== *)
(** * Keys in eFuse

    components/efuse/src/efuse_controller/keys/with_key_purposes/esp_efuse_api_key.c:
    six key blocks, each with a purpose and protection bits in block 0, and the
    digests of secure boot keys with their revocation bits.  The fields are
    those of esp32c3/esp_efuse_table.c. *)

From S2P Require Import Prelude Flash SecureVersion Efuse.

(** ** Data *)

Definition EFUSE_BLK_KEY0 : Z := 4.
Definition EFUSE_BLK_KEY_MAX : Z := 10.

Definition ESP_EFUSE_KEY_PURPOSE_USER : Z := 0.
Definition ESP_EFUSE_KEY_PURPOSE_XTS_AES_128_KEY : Z := 4.
Definition ESP_EFUSE_KEY_PURPOSE_HMAC_DOWN_ALL : Z := 5.
Definition ESP_EFUSE_KEY_PURPOSE_HMAC_DOWN_JTAG : Z := 6.
Definition ESP_EFUSE_KEY_PURPOSE_HMAC_DOWN_DIGITAL_SIGNATURE : Z := 7.
Definition ESP_EFUSE_KEY_PURPOSE_HMAC_UP : Z := 8.
Definition ESP_EFUSE_KEY_PURPOSE_SECURE_BOOT_DIGEST0 : Z := 9.
Definition ESP_EFUSE_KEY_PURPOSE_MAX : Z := 12.

Record esp_efuse_keys_t := mkKeys {
  key : list esp_efuse_desc_t;
  keypurpose : list esp_efuse_desc_t;
  key_rd_dis : list esp_efuse_desc_t;
  key_wr_dis : list esp_efuse_desc_t;
  keypurpose_wr_dis : list esp_efuse_desc_t
}.

(** Entry [idx] of [s_table]. *)
Definition s_table (idx : Z) : esp_efuse_keys_t :=
  mkKeys [mkDesc (4 + idx) 0 256] [mkDesc 0 (88 + 4 * idx) 4] [mkDesc 0 (32 + idx) 1] [mkDesc 0 (23 + idx) 1] [mkDesc 0 (8 + idx) 1].

Record esp_efuse_revokes_t := mkRevokes {
  revoke : list esp_efuse_desc_t;
  revoke_wr_dis : list esp_efuse_desc_t;
  digest_purpose : Z
}.

(** Entry [idx] of [s_revoke_table]. *)
Definition s_revoke_table (idx : Z) : esp_efuse_revokes_t :=
  mkRevokes [mkDesc 0 (85 + idx) 1] [mkDesc 0 (5 + idx) 1] (ESP_EFUSE_KEY_PURPOSE_SECURE_BOOT_DIGEST0 + idx).
Definition SOC_EFUSE_SECURE_BOOT_KEY_DIGESTS : Z := 3.

Definition is_key_block (block : Z) : bool := (EFUSE_BLK_KEY0 <=? block) && (block <? EFUSE_BLK_KEY_MAX).
Definition keys_of (block : Z) : esp_efuse_keys_t := s_table (block - EFUSE_BLK_KEY0).

Section Keys.
Context (chip : efuse_chip) (hal_program : Z -> regs -> Z -> (Z -> Z) -> regs) (coding_error : Z -> regs -> Z -> bool).
Abbreviation write_field_blob := (esp_efuse_write_field_blob chip hal_program coding_error).
Abbreviation write_field_cnt := (esp_efuse_write_field_cnt chip hal_program coding_error).
Abbreviation write_field_bit := (esp_efuse_write_field_bit chip hal_program coding_error).
Abbreviation read_field_bit := (esp_efuse_read_field_bit chip).
Abbreviation begin := (esp_efuse_batch_write_begin chip).
Abbreviation commit := (esp_efuse_batch_write_commit chip hal_program coding_error).
Abbreviation cancel := (esp_efuse_batch_write_cancel chip).

(** ** Blocks *)

(** Word [i] of the 32 bytes. *)
Definition key_word (k : list Z) (i : Z) : Z := bytes_word (take 4 (drop (Z.to_nat (4 * i)) k)).

Definition esp_efuse_block_is_empty (block : Z) : M efuse bool :=
  r ← esp_efuse_read_block chip block (Some (replicate 32 0)) 0 256;
  let '(err, k) := r in
  if negb (is_ok err) then mret false
  else
    let zeros := foldl (fun zeros i => if key_word (default [] k) i =? 0 then zeros + 1 else zeros) 0 (seqZ 0 8) in
    mret (zeros =? 8).

Definition esp_efuse_set_write_protect (blk : Z) : M efuse esp_err_t :=
  if blk =? 1 then write_field_cnt (Some [mkDesc 0 20 1]) 1
  else if blk =? 2 then write_field_cnt (Some [mkDesc 0 21 1]) 1
  else if blk =? 3 then write_field_cnt (Some [mkDesc 0 22 1]) 1
  else if blk =? 10 then write_field_cnt (Some [mkDesc 0 29 1]) 1
  else if is_key_block blk then write_field_cnt (Some (key_wr_dis (keys_of blk))) 1
  else mret ESP_ERR_NOT_SUPPORTED.

Definition esp_efuse_set_read_protect (blk : Z) : M efuse esp_err_t :=
  if is_key_block blk then write_field_cnt (Some (key_rd_dis (keys_of blk))) 1
  else if blk =? 10 then write_field_cnt (Some [mkDesc 0 38 1]) 1
  else mret ESP_ERR_NOT_SUPPORTED.

(** ** The attributes of a key *)

Definition esp_efuse_get_purpose_field (block : Z) : option (list esp_efuse_desc_t) :=
  if negb (is_key_block block) then None else Some (keypurpose (keys_of block)).

Definition esp_efuse_get_key (block : Z) : option (list esp_efuse_desc_t) :=
  if negb (is_key_block block) then None else Some (key (keys_of block)).

Definition esp_efuse_get_key_dis_read (block : Z) : M efuse bool :=
  _ ← assert_ (is_key_block block); read_field_bit (Some (key_rd_dis (keys_of block))).

Definition esp_efuse_set_key_dis_read (block : Z) : M efuse esp_err_t :=
  if negb (is_key_block block) then mret ESP_ERR_INVALID_ARG else write_field_bit (Some (key_rd_dis (keys_of block))).

Definition esp_efuse_get_key_dis_write (block : Z) : M efuse bool :=
  _ ← assert_ (is_key_block block); read_field_bit (Some (key_wr_dis (keys_of block))).

Definition esp_efuse_set_key_dis_write (block : Z) : M efuse esp_err_t :=
  if negb (is_key_block block) then mret ESP_ERR_INVALID_ARG else write_field_bit (Some (key_wr_dis (keys_of block))).

(** [keypurpose[0]->bit_count]. *)
Definition purpose_bits (block : Z) : Z := match keypurpose (keys_of block) with d :: _ => bit_count d | [] => 0 end.

Definition esp_efuse_get_key_purpose (block : Z) : M efuse Z :=
  if negb (is_key_block block) then mret ESP_EFUSE_KEY_PURPOSE_MAX
  else
    r ← esp_efuse_read_field_blob chip (Some (keypurpose (keys_of block))) (Some [0]) (purpose_bits block);
    let '(err, value) := r in
    mret (if negb (is_ok err) then ESP_EFUSE_KEY_PURPOSE_MAX else default 0 (value ≫= head)).

Definition esp_efuse_set_key_purpose (block purpose : Z) : M efuse esp_err_t :=
  if negb (is_key_block block) then mret ESP_ERR_INVALID_ARG
  else write_field_blob (Some (keypurpose (keys_of block))) (Some (word_bytes purpose)) (purpose_bits block).

Definition esp_efuse_get_keypurpose_dis_write (block : Z) : M efuse bool :=
  _ ← assert_ (is_key_block block); read_field_bit (Some (keypurpose_wr_dis (keys_of block))).

Definition esp_efuse_set_keypurpose_dis_write (block : Z) : M efuse esp_err_t :=
  if negb (is_key_block block) then mret ESP_ERR_INVALID_ARG else write_field_bit (Some (keypurpose_wr_dis (keys_of block))).

(** ** Searching the key blocks *)

(** [esp_efuse_key_block_unused]; the conditions are tested in order. *)
Definition esp_efuse_key_block_unused (block : Z) : M efuse bool :=
  if negb (is_key_block block) then mret false
  else
    purpose ← esp_efuse_get_key_purpose block;
    if negb (purpose =? ESP_EFUSE_KEY_PURPOSE_USER) then mret false
    else
      p_wr_dis ← esp_efuse_get_keypurpose_dis_write block;
      if (p_wr_dis : bool) then mret false
      else
        rd_dis ← esp_efuse_get_key_dis_read block;
        if (rd_dis : bool) then mret false
        else
          wr_dis ← esp_efuse_get_key_dis_write block;
          if (wr_dis : bool) then mret false
          else esp_efuse_block_is_empty block.

(** The loops go through the blocks from [EFUSE_BLK_KEY_MAX - n] on. *)
Fixpoint find_purpose_loop (n : nat) (purpose : Z) : M efuse (option Z) :=
  match n with
  | O => mret None
  | S n' =>
      let b := EFUSE_BLK_KEY_MAX - Z.of_nat n in
      p ← esp_efuse_get_key_purpose b;
      if p =? purpose then mret (Some b) else find_purpose_loop n' purpose
  end.

(** The number of key blocks. *)
Definition key_blocks : nat := Z.to_nat (EFUSE_BLK_KEY_MAX - EFUSE_BLK_KEY0).

(** The result is the block, if it is found. *)
Definition esp_efuse_find_purpose (purpose : Z) : M efuse (option Z) := find_purpose_loop key_blocks purpose.

Fixpoint find_unused_loop (n : nat) : M efuse Z :=
  match n with
  | O => mret EFUSE_BLK_KEY_MAX
  | S n' =>
      let b := EFUSE_BLK_KEY_MAX - Z.of_nat n in
      u ← esp_efuse_key_block_unused b;
      if (u : bool) then mret b else find_unused_loop n'
  end.

Definition esp_efuse_find_unused_key_block : M efuse Z := find_unused_loop key_blocks.

Fixpoint count_unused_loop (n : nat) (r : Z) : M efuse Z :=
  match n with
  | O => mret r
  | S n' =>
      u ← esp_efuse_key_block_unused (EFUSE_BLK_KEY_MAX - Z.of_nat n);
      count_unused_loop n' (if (u : bool) then r + 1 else r)
  end.

Definition esp_efuse_count_unused_key_blocks : M efuse Z := count_unused_loop key_blocks 0.

(** ** Writing keys *)

(** The label [err_exit]. *)
Definition err_exit (err : esp_err_t) : M efuse esp_err_t := _ ← cancel; mret err.

(** [ESP_EFUSE_CHK]: an error leads to [err_exit]. *)
Definition ESP_EFUSE_CHK (ret k : M efuse esp_err_t) : M efuse esp_err_t :=
  err ← ret; if negb (is_ok err) then err_exit err else k.

(** The purposes of keys that software must not read. *)
Definition is_secret (purpose : Z) : bool :=
  (purpose =? ESP_EFUSE_KEY_PURPOSE_XTS_AES_128_KEY) || (purpose =? ESP_EFUSE_KEY_PURPOSE_HMAC_DOWN_ALL) ||
  (purpose =? ESP_EFUSE_KEY_PURPOSE_HMAC_DOWN_JTAG) || (purpose =? ESP_EFUSE_KEY_PURPOSE_HMAC_DOWN_DIGITAL_SIGNATURE) ||
  (purpose =? ESP_EFUSE_KEY_PURPOSE_HMAC_UP).

Definition esp_efuse_write_key (block purpose : Z) (k : option (list Z)) (key_size_bytes : Z) : M efuse esp_err_t :=
  if negb (is_key_block block) || (32 <? key_size_bytes) || (ESP_EFUSE_KEY_PURPOSE_MAX <=? purpose) then mret ESP_ERR_INVALID_ARG
  else
    _ ← begin;
    unused ← esp_efuse_key_block_unused block;
    if negb unused then err_exit ESP_ERR_INVALID_STATE
    else
      ESP_EFUSE_CHK (write_field_blob (Some (key (keys_of block))) k (key_size_bytes * 8))
      (ESP_EFUSE_CHK (esp_efuse_set_key_dis_write block)
      (let rest :=
         ESP_EFUSE_CHK (esp_efuse_set_key_purpose block purpose)
         (ESP_EFUSE_CHK (esp_efuse_set_keypurpose_dis_write block) commit) in
       if is_secret purpose then ESP_EFUSE_CHK (esp_efuse_set_key_dis_read block) rest else rest)).

(** The loop of [esp_efuse_write_keys], from block [EFUSE_BLK_KEY_MAX - n] on. *)
Fixpoint write_keys_loop (n : nat) (purposes : list Z) (keys : list (list Z)) (number_of_keys i_key : Z) : M efuse esp_err_t :=
  match n with
  | O => commit
  | S n' =>
      if negb (i_key <? number_of_keys) then commit
      else
        let block := EFUSE_BLK_KEY_MAX - Z.of_nat n in
        unused ← esp_efuse_key_block_unused block;
        if (unused : bool) then
          match purposes !! Z.to_nat i_key, keys !! Z.to_nat i_key with
          | Some purpose, Some k =>
              ESP_EFUSE_CHK (esp_efuse_write_key block purpose (Some k) 32) (write_keys_loop n' purposes keys number_of_keys (i_key + 1))
          | _, _ => abort
          end
        else write_keys_loop n' purposes keys number_of_keys i_key
  end.

Definition esp_efuse_write_keys (purposes : option (list Z)) (keys : option (list (list Z))) (number_of_keys : Z) : M efuse esp_err_t :=
  match keys, purposes with
  | Some keys, Some purposes =>
      if (number_of_keys =? 0) || (EFUSE_BLK_KEY_MAX - EFUSE_BLK_KEY0 <? number_of_keys) then mret ESP_ERR_INVALID_ARG
      else
        _ ← begin;
        unused_keys ← esp_efuse_count_unused_key_blocks;
        if unused_keys <? number_of_keys then err_exit ESP_ERR_NOT_ENOUGH_UNUSED_KEY_BLOCKS
        else write_keys_loop key_blocks purposes keys number_of_keys 0
  | _, _ => mret ESP_ERR_INVALID_ARG
  end.

(** ** Digests of secure boot keys *)

Definition is_digest (num_digest : Z) : bool := num_digest <? SOC_EFUSE_SECURE_BOOT_KEY_DIGESTS.

Definition esp_efuse_get_digest_revoke (num_digest : Z) : M efuse bool :=
  _ ← assert_ (is_digest num_digest); read_field_bit (Some (revoke (s_revoke_table num_digest))).

Definition esp_efuse_set_digest_revoke (num_digest : Z) : M efuse esp_err_t :=
  if negb (is_digest num_digest) then mret ESP_ERR_INVALID_ARG else write_field_bit (Some (revoke (s_revoke_table num_digest))).

Definition esp_efuse_get_write_protect_of_digest_revoke (num_digest : Z) : M efuse bool :=
  _ ← assert_ (is_digest num_digest); read_field_bit (Some (revoke_wr_dis (s_revoke_table num_digest))).

Definition esp_efuse_set_write_protect_of_digest_revoke (num_digest : Z) : M efuse esp_err_t :=
  if negb (is_digest num_digest) then mret ESP_ERR_INVALID_ARG else write_field_bit (Some (revoke_wr_dis (s_revoke_table num_digest))).

(** The loop of [esp_secure_boot_read_key_digests] for the digests of the list; a
    digest is given by its block, whose registers it is in. *)
Fixpoint digests_loop (l : list Z) : M efuse (list (option Z)) :=
  match l with
  | [] => mret []
  | i :: l =>
      revoked ← esp_efuse_get_digest_revoke i;
      d ← (if (revoked : bool) then mret None
           else
             again ← esp_efuse_get_digest_revoke i;
             _ ← assert_ (negb again);
             esp_efuse_find_purpose (digest_purpose (s_revoke_table i)));
      ds ← digests_loop l;
      mret (d :: ds)
  end.

(** [trusted_keys] points to a structure; the result is what is stored there. *)
Definition esp_secure_boot_read_key_digests : M efuse (esp_err_t * list (option Z)) :=
  ds ← digests_loop (seqZ 0 SOC_EFUSE_SECURE_BOOT_KEY_DIGESTS);
  mret (if existsb (fun d => bool_decide (is_Some d)) ds then ESP_OK else ESP_FAIL, ds).
End Keys.
