(* ===== verification/EfuseKeyTheorems.v ===== *)
(** * What writing a key does

    [esp_efuse_write_key] burns a key with its purpose and its protection bits
    in one batch, or nothing. *)

From S2P Require Import Prelude Flash SecureVersion Efuse EfuseSpec EfuseRead EfuseStage EfuseWrite EfuseTheorems EfuseVersion EfuseProtect EfuseKeys.

(** No other task burns. *)
Definition quiet (s : efuse) : Prop := ef_env s = [] /\ is_u32 (s_burn_counter s) /\ Z.even (s_burn_counter s) = true.

Lemma quiet_after s k : quiet s -> after k s = s.
Proof. intros (He & _). rewrite after_end; rewrite He; [done|cbn; lia]. Qed.

(** No bit of the list is set. *)
Definition blank (r : regs) (l : list (Z * Z)) : bool := forallb (fun x => negb (bit_at r x)) l.

Lemma bytes_zeros n : bytes (replicate n 0).
Proof. intros i b [-> _]%lookup_replicate. by unfold is_byte. Qed.

Lemma field_pos1 d : field_pos [d] = desc_pos d.
Proof. unfold field_pos. cbn. apply app_nil_r. Qed.

Lemma length_field1 d : 0 <= bit_count d -> Z.of_nat (length (field_pos [d])) = bit_count d.
Proof. intros. rewrite field_pos1. by apply length_desc_pos. Qed.

Lemma field_pos_bit blk q : field_pos [mkDesc blk q 1] = [(blk, q)].
Proof. rewrite field_pos1. unfold desc_pos. cbn [bit_start bit_count efuse_block]. by rewrite seqZ_cons, seqZ_nil by lia. Qed.

(** Bit [i] of a field of one descriptor. *)
Lemma field_pos1_lookup d i : 0 <= i ->
  field_pos [d] !! Z.to_nat i = if i <? bit_count d then Some (efuse_block d, bit_start d + i) else None.
Proof.
  intros Hi. destruct (Z.ltb_spec i (bit_count d)).
  - pose proof (field_pos_lookup [] d [] i) as E. cbn [app] in E. rewrite <- E by lia. done.
  - apply lookup_ge_None_2. rewrite field_pos1. unfold desc_pos. rewrite length_fmap, length_seqZ. lia.
Qed.

Section Keys.
Context (chip : efuse_chip) (Hchip : chip_ok chip).

(** ** Reading in a quiet state *)

Lemma read_quiet field dst size s : field_ok chip field -> bytes dst -> 0 < size <= Z.of_nat (length (field_pos field)) ->
  esp_efuse_utility_get_number_of_items size 8 = Z.of_nat (length dst) -> quiet s ->
  exists dst', esp_efuse_read_field_blob chip (Some field) (Some dst) size s = RET (ESP_OK, Some dst') s /\ bytes dst' /\ length dst' = length dst /\
    forall i, 0 <= i -> blob_bit dst' i = match field_pos field !! Z.to_nat i with Some x => (i <? size) && bit_at (ef_blocks s) x | None => false end.
Proof.
  intros Hf Hb Hsize Hl Hs. pose proof Hs as (He & Hu & Hev).
  destruct (read_field_blob_spec chip Hchip field Hf dst size s) as (j & k & dst' & _ & E & Hb' & L & G); [done|lia|lia| | |].
  { split; [done|]. unfold steps_left. by rewrite He. }
  { unfold env_ends. by rewrite quiet_after. }
  rewrite !quiet_after in * by done. exists dst'. split_and!; [done..|]. intros i Hi. rewrite G, Z.min_l by lia.
  unfold beyond. assert (blob_bit dst i = false \/ i < 8 * esp_efuse_utility_get_number_of_items size 8) as [->|Hi'].
  { destruct (decide (i < 8 * Z.of_nat (length dst))); [right; lia|left]. unfold blob_bit.
    rewrite lookup_ge_None_2; [apply Z.testbit_0_l|]. Z.to_euclidean_division_equations; lia. }
  { by rewrite andb_false_r. }
  by rewrite (proj2 (Z.leb_gt _ _)) by lia.
Qed.

(** A byte is zero if its bits are. *)
Lemma byte_zero b : is_byte b -> (b =? 0) = forallb (fun j => negb (Z.testbit b j)) (seqZ 0 8).
Proof.
  intros Hb. apply eq_true_iff_eq. rewrite Z.eqb_eq, forallb_forall. split.
  - intros -> j _. by rewrite Z.testbit_0_l.
  - intros H. apply Z.bits_inj'. intros j Hj. rewrite Z.testbit_0_l. destruct (decide (j < 8)).
    + apply negb_true_iff, H, list_elem_of_In, elem_of_seqZ. lia.
    + apply (high_bits_zero b 8); [done|lia].
Qed.

Lemma read_bit_quiet blk q s : field_ok chip [mkDesc blk q 1] -> quiet s ->
  esp_efuse_read_field_blob chip (Some [mkDesc blk q 1]) (Some [0]) 1 s = RET (ESP_OK, Some [if reg_bit (ef_blocks s) blk q then 1 else 0]) s.
Proof.
  intros Hf Hs. destruct (read_quiet [mkDesc blk q 1] (replicate 1 0) 1 s) as (dst & E & Hb & Hl & G); [done|apply bytes_zeros|rewrite length_field1; cbn; lia|done|done|].
  change (replicate 1 0) with [0] in E. rewrite E. do 3 f_equal. destruct dst as [|b [|? ?]]; [done| |done]. f_equal. specialize (Hb 0%nat b eq_refl). unfold is_byte in Hb.
  apply Z.bits_inj'. intros j Hj. destruct (decide (j < 8)).
  - assert (E' : blob_bit [b] j = Z.testbit b j) by (unfold blob_bit; rewrite Z.div_small, Z.mod_small by lia; done).
    rewrite <- E', G, field_pos1_lookup by done. cbn [bit_count efuse_block bit_start].
    destruct (Z.ltb_spec j 1).
    + assert (j = 0) as -> by lia. unfold bit_at. cbn [fst snd andb]. rewrite Z.add_0_r. by destruct (reg_bit _ blk q).
    + symmetry. destruct (reg_bit _ blk q); [|apply Z.testbit_0_l]. change 1 with (2 ^ 0). apply Z.pow2_bits_false. lia.
  - rewrite (high_bits_zero b 8) by lia. symmetry. apply (high_bits_zero _ 8); [|lia]. destruct (reg_bit _ blk q); lia.
Qed.

Lemma read_field_bit_quiet blk q s : field_ok chip [mkDesc blk q 1] -> quiet s ->
  esp_efuse_read_field_bit chip (Some [mkDesc blk q 1]) s = RET (reg_bit (ef_blocks s) blk q) s.
Proof.
  intros Hf Hs. unfold esp_efuse_read_field_bit. rewrite (bind_RET _ _ _ _ _ (read_bit_quiet blk q s Hf Hs)). by destruct (reg_bit _ blk q).
Qed.

(** ** Unused key blocks *)

Lemma blank_spec r l : blank r l = true <-> forall x, x ∈ l -> bit_at r x = false.
Proof.
  unfold blank. rewrite forallb_forall. split.
  - intros H x Hx. by apply negb_true_iff, H, list_elem_of_In.
  - intros H x Hx. apply negb_true_iff, H. by apply list_elem_of_In.
Qed.

Lemma blank_field r d : 0 <= bit_count d ->
  blank r (field_pos [d]) = true <-> forall i, 0 <= i < bit_count d -> reg_bit r (efuse_block d) (bit_start d + i) = false.
Proof.
  intros Hn. rewrite blank_spec. split.
  - intros H i Hi. apply (H (efuse_block d, bit_start d + i)), (list_elem_of_lookup_2 _ (Z.to_nat i)).
    rewrite field_pos1_lookup by lia. by rewrite (proj2 (Z.ltb_lt _ _)) by lia.
  - intros H x Hx. rewrite field_pos1 in Hx. apply list_elem_of_fmap in Hx as (q & -> & Hq%elem_of_seqZ).
    unfold bit_at. cbn. replace q with (bit_start d + (q - bit_start d)) by lia. apply H. lia.
Qed.

Lemma foldl_count (f : Z -> bool) l z :
  foldl (fun z i => if f i then z + 1 else z) z l <= z + Z.of_nat (length l) /\
  (foldl (fun z i => if f i then z + 1 else z) z l = z + Z.of_nat (length l) <-> forallb f l = true).
Proof.
  revert z. induction l as [|i l IH]; intros z; [cbn; split; [lia|split; [done|lia]]|]. cbn [foldl forallb length].
  destruct (f i); [destruct (IH (z + 1)) as [I1 I2]|destruct (IH z) as [I1 I2]].
  - split; [lia|]. cbn [andb]. rewrite <- I2. lia.
  - cbn [andb]. split; [lia|split; [lia|done]].
Qed.

Lemma blob_bit_chunk k i j : 0 <= i -> 0 <= j ->
  blob_bit (take 4 (drop (Z.to_nat (4 * i)) k)) j = (j <? 32) && blob_bit k (32 * i + j).
Proof.
  intros Hi Hj. unfold blob_bit. replace ((32 * i + j) mod 8) with (j mod 8) by (Z.to_euclidean_division_equations; lia).
  destruct (Z.ltb_spec j 32); cbn [andb].
  - rewrite lookup_take_lt, lookup_drop by (Z.to_euclidean_division_equations; lia). do 3 f_equal. Z.to_euclidean_division_equations; lia.
  - rewrite lookup_take_ge by (Z.to_euclidean_division_equations; lia). apply Z.testbit_0_l.
Qed.

Lemma key_words_zero k : bytes k ->
  forallb (fun i => key_word k i =? 0) (seqZ 0 8) = true <-> forall p, 0 <= p < 256 -> blob_bit k p = false.
Proof.
  intros Hk. assert (Hb : forall i, bytes (take 4 (drop i k))).
  { intros i j b (Hj & _)%lookup_take_Some. rewrite lookup_drop in Hj. by eapply Hk. }
  rewrite forallb_forall. split.
  - intros H p Hp. assert (E : key_word k (p / 32) = 0).
    { apply Z.eqb_eq, H, list_elem_of_In, elem_of_seqZ. Z.to_euclidean_division_equations; lia. }
    assert (T : Z.testbit (key_word k (p / 32)) (p mod 32) = false) by (rewrite E; apply Z.testbit_0_l).
    unfold key_word in T. rewrite testbit_bytes_word, blob_bit_chunk in T by (try apply Hb; Z.to_euclidean_division_equations; lia).
    rewrite (proj2 (Z.ltb_lt _ _)) in T by (apply Z.mod_pos_bound; lia). cbn [andb] in T. by rewrite <- Z.div_mod in T by lia.
  - intros H i Hi%list_elem_of_In%elem_of_seqZ. apply Z.eqb_eq, Z.bits_inj'. intros j Hj. rewrite Z.testbit_0_l.
    unfold key_word. rewrite testbit_bytes_word, blob_bit_chunk by (try apply Hb; lia).
    destruct (Z.ltb_spec j 32); [|done]. cbn [andb]. apply H. lia.
Qed.

(** The chip has the key blocks. *)
Definition has_keys : Prop :=
  10 <= EFUSE_BLK_MAX chip /\ 4 <= rd_regs chip 0 /\ forall blk, 4 <= blk < 10 -> rd_regs chip blk = 8.
Context (Hkeys : has_keys).

Lemma key_fields_ok block : is_key_block block = true ->
  field_ok chip (key (keys_of block)) /\ field_ok chip (keypurpose (keys_of block)) /\ field_ok chip (key_rd_dis (keys_of block)) /\
  field_ok chip (key_wr_dis (keys_of block)) /\ field_ok chip (keypurpose_wr_dis (keys_of block)).
Proof.
  intros Hk. unfold is_key_block, EFUSE_BLK_KEY0, EFUSE_BLK_KEY_MAX in Hk. zbool. destruct Hkeys as (H1 & H2 & H3).
  unfold keys_of, s_table, EFUSE_BLK_KEY0. cbn. assert (F : forall d, desc_ok chip d -> field_ok chip [d]) by (intros d Hd; constructor; [done|constructor]).
  split_and!; apply F; unfold desc_ok; cbn; rewrite ?H3 by lia; lia.
Qed.

Lemma block_is_empty_spec block s : is_key_block block = true -> quiet s ->
  esp_efuse_block_is_empty chip block s = RET (blank (ef_blocks s) (field_pos (key (keys_of block)))) s.
Proof.
  intros Hk Hs. destruct (key_fields_ok block Hk) as (Hf & _). unfold is_key_block, EFUSE_BLK_KEY0, EFUSE_BLK_KEY_MAX in Hk. zbool.
  destruct Hkeys as (H1 & _ & _).
  assert (Ek : key (keys_of block) = [mkDesc block 0 256]) by (unfold keys_of, s_table, EFUSE_BLK_KEY0; cbn; do 2 f_equal; lia).
  rewrite Ek in *. destruct (read_quiet [mkDesc block 0 256] (replicate 32 0) 256 s) as (dst & E & Hb & Hl & G);
    [done|apply bytes_zeros|rewrite length_field1; cbn; lia|done|done|].
  unfold esp_efuse_block_is_empty, esp_efuse_read_block. rewrite (proj2 (Z.eqb_neq block 0)), (proj2 (Z.leb_gt (EFUSE_BLK_MAX chip) block)) by lia.
  cbn [orb negb bool_decide]. change (block_field block 0 256) with [mkDesc block 0 256]. change (256 =? 0) with false. cbn [orb].
  rewrite (bind_RET _ _ _ _ _ E). cbn [is_ok negb default]. unfold mret, M_ret. f_equal. apply eq_true_iff_eq.
  destruct (foldl_count (fun i => key_word dst i =? 0) (seqZ 0 8) 0) as [_ F]. rewrite length_seqZ in F. change (0 + Z.of_nat (Z.to_nat 8)) with 8 in F.
  unfold default, id. rewrite Z.eqb_eq, F, key_words_zero, blank_field by (done || cbn; lia). cbn.
  split; intros Hall i Hi; specialize (Hall i Hi).
  - rewrite G, field_pos1_lookup in Hall by lia. cbn in Hall. rewrite (proj2 (Z.ltb_lt i 256)) in Hall by lia. exact Hall.
  - rewrite G, field_pos1_lookup by lia. cbn. by rewrite (proj2 (Z.ltb_lt i 256)) by lia.
Qed.

Lemma get_key_purpose_spec block s : is_key_block block = true -> quiet s ->
  exists v, esp_efuse_get_key_purpose chip block s = RET v s /\ is_byte v /\
    forall j, 0 <= j -> Z.testbit v j = (j <? 4) && reg_bit (ef_blocks s) 0 (88 + 4 * (block - 4) + j).
Proof.
  intros Hk Hs. destruct (key_fields_ok block Hk) as (_ & Hf & _). unfold esp_efuse_get_key_purpose. rewrite Hk. cbn [negb].
  change (purpose_bits block) with 4. change (keypurpose (keys_of block)) with [mkDesc 0 (88 + 4 * (block - 4)) 4] in *.
  destruct (read_quiet [mkDesc 0 (88 + 4 * (block - 4)) 4] (replicate 1 0) 4 s) as (dst & E & Hb & Hl & G);
    [done|apply bytes_zeros|rewrite length_field1; cbn; lia|done|done|].
  change (replicate 1 0) with [0] in E. rewrite (bind_RET _ _ _ _ _ E). destruct dst as [|b [|? ?]]; [done| |done]. cbn.
  exists b. pose proof (Hb 0%nat b eq_refl) as Hbb. split_and!; [done|apply Hbb..|]. intros j Hj. destruct (decide (j < 8)).
  - assert (E' : blob_bit [b] j = Z.testbit b j) by (unfold blob_bit; rewrite Z.div_small, Z.mod_small by lia; done).
    rewrite <- E', G, field_pos1_lookup by done. cbn. by destruct (j <? 4).
  - rewrite (high_bits_zero b 8) by (unfold is_byte in Hbb; lia). by rewrite (proj2 (Z.ltb_ge j 4)) by lia.
Qed.

(** The key block, its purpose and its protection bits are blank. *)
Definition key_unused (r : regs) (block : Z) : bool :=
  blank r (field_pos (keypurpose (keys_of block))) && blank r (field_pos (keypurpose_wr_dis (keys_of block))) &&
  blank r (field_pos (key_rd_dis (keys_of block))) && blank r (field_pos (key_wr_dis (keys_of block))) &&
  blank r (field_pos (key (keys_of block))).

Lemma blank_bit r blk q : blank r (field_pos [mkDesc blk q 1]) = negb (reg_bit r blk q).
Proof.
  apply eq_true_iff_eq. rewrite blank_field, negb_true_iff by (cbn; lia). cbn. split.
  - intros H. rewrite <- (H 0) by lia. f_equal. lia.
  - intros H i Hi. rewrite <- H. f_equal. lia.
Qed.

Lemma key_block_unused_spec block s : is_key_block block = true -> quiet s ->
  esp_efuse_key_block_unused chip block s = RET (key_unused (ef_blocks s) block) s.
Proof.
  intros Hk Hs. destruct (key_fields_ok block Hk) as (_ & _ & Hr & Hw & Hp). unfold esp_efuse_key_block_unused, key_unused. rewrite Hk. cbn [negb].
  destruct (get_key_purpose_spec block s Hk Hs) as (v & Ev & Hv & Gv). rewrite (bind_RET _ _ _ _ _ Ev).
  assert (Ez : (v =? ESP_EFUSE_KEY_PURPOSE_USER) = blank (ef_blocks s) (field_pos (keypurpose (keys_of block)))).
  { unfold ESP_EFUSE_KEY_PURPOSE_USER. rewrite byte_zero by done. apply eq_true_iff_eq.
    change (keypurpose (keys_of block)) with [mkDesc 0 (88 + 4 * (block - 4)) 4]. rewrite blank_field, forallb_forall by (cbn; lia). cbn. split.
    - intros H i Hi. specialize (H i). rewrite Gv, (proj2 (Z.ltb_lt i 4)) in H by lia. apply negb_true_iff, H, list_elem_of_In, elem_of_seqZ. lia.
    - intros H i Hi%list_elem_of_In%elem_of_seqZ. rewrite Gv by lia. destruct (Z.ltb_spec i 4); [|done]. cbn. by rewrite H by lia. }
  rewrite Ez. destruct (blank _ (field_pos (keypurpose _))); cbn [negb andb]; [|done].
  unfold esp_efuse_get_keypurpose_dis_write, esp_efuse_get_key_dis_read, esp_efuse_get_key_dis_write, assert_. rewrite Hk.
  rewrite !bind_assoc. unfold mbind at 1, M_bind at 1. cbn beta iota.
  change (keypurpose_wr_dis (keys_of block)) with [mkDesc 0 (8 + (block - 4)) 1] in *.
  change (key_rd_dis (keys_of block)) with [mkDesc 0 (32 + (block - 4)) 1] in *.
  change (key_wr_dis (keys_of block)) with [mkDesc 0 (23 + (block - 4)) 1] in *. rewrite !blank_bit.
  rewrite (bind_RET _ _ _ _ _ (read_field_bit_quiet _ _ s Hp Hs)). destruct (reg_bit _ 0 (8 + _)); cbn [negb andb]; [done|].
  rewrite !bind_assoc. unfold mbind at 1, M_bind at 1. cbn beta iota.
  rewrite (bind_RET _ _ _ _ _ (read_field_bit_quiet _ _ s Hr Hs)). destruct (reg_bit _ 0 (32 + _)); cbn [negb andb]; [done|].
  rewrite !bind_assoc. unfold mbind at 1, M_bind at 1. cbn beta iota.
  rewrite (bind_RET _ _ _ _ _ (read_field_bit_quiet _ _ s Hw Hs)). destruct (reg_bit _ 0 (23 + _)); cbn [negb andb]; [done|].
  by apply block_is_empty_spec.
Qed.

(** ** The batch of [esp_efuse_write_key] *)

Context (hal_program : Z -> regs -> Z -> (Z -> Z) -> regs) (coding_error : Z -> regs -> Z -> bool) `{Hal : !HalLaws hal_program}.
Abbreviation chk := (ESP_EFUSE_CHK chip).

Lemma chk_ok (m k : M efuse esp_err_t) t t' : m t = RET ESP_OK t' -> chk m k t = k t'.
Proof. intros E. unfold ESP_EFUSE_CHK. by rewrite (bind_RET _ _ _ _ _ E). Qed.

Lemma batch_quiet s t l : idle s -> stages (batch_start chip s) t l -> quiet t /\ words (ef_wdata t) /\ s_batch_writing_mode t = 1 /\ ef_blocks t = ef_blocks s.
Proof.
  intros (_ & He & Hu & Hev) (w & -> & Hw & _). destruct (reset_of_modes chip (set_batch 1 (set_lock (s_efuse_lock s + 1) s))) as (_ & _ & _ & M).
  destruct (M Hu) as [U V]. cbn in V. rewrite Hev in V. split_and!; [split_and!; [exact He|apply U..|exact V]|exact Hw|done|done].
Qed.

Lemma batch_stage s t l field src size : idle s -> stages (batch_start chip s) t l -> write_ok chip (field, src, size) ->
  conflict (ef_blocks s) (write_bits (field, src, size)) = false ->
  exists t', esp_efuse_write_field_blob chip hal_program coding_error (Some field) (Some src) size t = RET ESP_OK t' /\
    stages (batch_start chip s) t' (l ++ write_bits (field, src, size)).
Proof.
  intros Hs Hst Hw Hc. destruct (batch_quiet s t l Hs Hst) as (_ & Hwt & Hm & Eb).
  destruct (batch_write_spec chip Hchip hal_program coding_error field src size t Hw Hwt) as (t' & err & E & Er & l' & _ & Hl & Hst'); [lia|].
  rewrite Eb, Hc in Er. exists t'. rewrite E, Er. split; [done|]. rewrite <- (Hl Er). by eapply stages_trans.
Qed.

(** One bit that is not set. *)
Lemma batch_stage_bit s t l blk q : idle s -> stages (batch_start chip s) t l -> field_ok chip [mkDesc blk q 1] -> reg_bit (ef_blocks s) blk q = false ->
  exists t', esp_efuse_write_field_bit chip hal_program coding_error (Some [mkDesc blk q 1]) t = RET ESP_OK t' /\
    stages (batch_start chip s) t' (l ++ field_pos [mkDesc blk q 1]).
Proof.
  intros Hs Hst Hf Hbit. destruct (batch_quiet s t l Hs Hst) as (Hq & _ & _ & Eb).
  assert (Eones : write_bits ([mkDesc blk q 1], [1], 1) = field_pos [mkDesc blk q 1]).
  { unfold write_bits. rewrite field_pos_bit. reflexivity. }
  destruct (batch_stage s t l [mkDesc blk q 1] [1] 1 Hs Hst) as (t' & E & Hst').
  { split_and!; [done|apply bytes_Forall; constructor; [unfold is_byte; lia|constructor]|lia|rewrite length_field1; cbn; lia]. }
  { rewrite Eones. pose proof (blank_bit (ef_blocks s) blk q) as B. rewrite Hbit in B. cbn [negb] in B. apply not_true_iff_false.
    intros (x & Hx%list_elem_of_In & Hb)%existsb_exists. rewrite (proj1 (blank_spec _ _) B x Hx) in Hb. done. }
  exists t'. rewrite Eones in Hst'. split; [|done]. unfold esp_efuse_write_field_bit. cbn [bit_count negb Z.eqb Pos.eqb].
  change (1 =? 1) with true. cbn [negb]. rewrite (bind_RET _ _ _ _ _ (read_bit_quiet blk q t Hf Hq)), Eb, Hbit. exact E.
Qed.

(** The bits that a key sets: the key, its write protection, the read
    protection of a secret, the purpose and the write protection of the purpose. *)
Definition key_bits (block purpose : Z) (k : list Z) (size : Z) : list (Z * Z) :=
  write_bits (key (keys_of block), k, size * 8) ++ field_pos (key_wr_dis (keys_of block)) ++
  (if is_secret purpose then field_pos (key_rd_dis (keys_of block)) else []) ++
  write_bits (keypurpose (keys_of block), word_bytes purpose, 4) ++ field_pos (keypurpose_wr_dis (keys_of block)).

Lemma blank_conflict r pos src c n : blank r pos = true -> conflict r (ones_of src pos c n) = false.
Proof.
  intros B. apply not_true_iff_false. intros (x & Hx%list_elem_of_In%ones_of_sub & Hb)%existsb_exists.
  rewrite (proj1 (blank_spec _ _) B x Hx) in Hb. done.
Qed.

Lemma write_key_runs block purpose k size s :
  idle s -> is_key_block block = true -> 1 <= size <= 32 -> bytes k -> size <= Z.of_nat (length k) -> 0 <= purpose < 12 ->
  key_unused (ef_blocks s) block = true ->
  exists t, stages (batch_start chip s) t (key_bits block purpose k size) /\
    esp_efuse_write_key chip hal_program coding_error block purpose (Some k) size s = esp_efuse_batch_write_commit chip hal_program coding_error t.
Proof.
  intros Hs Hk Hsize Hb Hl Hp Hun. pose proof (key_block_unused_spec block) as Hus.
  destruct (key_fields_ok block Hk) as (Fk & Fp & Fr & Fw & Fpw).
  pose proof Hun as Hun'. unfold key_unused in Hun'. apply andb_true_iff in Hun' as [Hun' Bk]. apply andb_true_iff in Hun' as [Hun' Bw].
  apply andb_true_iff in Hun' as [Hun' Br]. apply andb_true_iff in Hun' as [Bp Bpw].
  change (keypurpose_wr_dis (keys_of block)) with [mkDesc 0 (8 + (block - 4)) 1] in *.
  change (key_rd_dis (keys_of block)) with [mkDesc 0 (32 + (block - 4)) 1] in *.
  change (key_wr_dis (keys_of block)) with [mkDesc 0 (23 + (block - 4)) 1] in *.
  rewrite blank_bit, negb_true_iff in Bw, Br, Bpw.
  assert (S0 : stages (batch_start chip s) (batch_start chip s) []) by (apply stages_nil, reset_of_unstaged, Hs).
  destruct (batch_stage s _ _ (key (keys_of block)) k (size * 8) Hs S0) as (t1 & E1 & S1).
  { split_and!; [done|done|lia|]. lia. }
  { apply blank_conflict. exact Bk. }
  destruct (batch_stage_bit s t1 _ 0 (23 + (block - 4)) Hs S1 Fw Bw) as (t2 & E2 & S2).
  assert (H3 : exists t3, stages (batch_start chip s) t3
      ((([] ++ write_bits (key (keys_of block), k, size * 8)) ++ field_pos [mkDesc 0 (23 + (block - 4)) 1]) ++ (if is_secret purpose then field_pos [mkDesc 0 (32 + (block - 4)) 1] else [])) /\
      forall rest, (if is_secret purpose then chk (esp_efuse_set_key_dis_read chip hal_program coding_error block) rest else rest) t2 = rest t3).
  { destruct (is_secret purpose).
    - destruct (batch_stage_bit s t2 _ 0 (32 + (block - 4)) Hs S2 Fr Br) as (t3 & E3 & S3). exists t3. split; [exact S3|].
      intros rest. apply chk_ok. unfold esp_efuse_set_key_dis_read. rewrite Hk. exact E3.
    - exists t2. split; [by rewrite app_nil_r|done]. }
  destruct H3 as (t3 & S3 & E3).
  destruct (batch_stage s t3 _ (keypurpose (keys_of block)) (word_bytes purpose) 4 Hs S3) as (t4 & E4 & S4).
  { split_and!; [done|apply word_bytes_bytes|lia|]. cbn [length word_bytes]. lia. }
  { apply blank_conflict. exact Bp. }
  destruct (batch_stage_bit s t4 _ 0 (8 + (block - 4)) Hs S4 Fpw Bpw) as (t5 & E5 & S5).
  exists t5. split; [unfold key_bits; rewrite !app_assoc; exact S5|].
  unfold esp_efuse_write_key. rewrite Hk, (proj2 (Z.ltb_ge 32 size)), (proj2 (Z.leb_gt ESP_EFUSE_KEY_PURPOSE_MAX purpose)) by (unfold ESP_EFUSE_KEY_PURPOSE_MAX; lia).
  cbn [negb orb]. rewrite (bind_RET _ _ _ _ _ (batch_begin_spec chip Hchip s (proj2 (proj2 (proj1 Hs))))).
  destruct (batch_quiet s _ _ Hs S0) as (Hq & _). rewrite (bind_RET _ _ _ _ _ (Hus _ Hk Hq)).
  change (ef_blocks (batch_start chip s)) with (ef_blocks s). rewrite Hun. cbn [negb].
  rewrite (chk_ok _ _ _ _ E1). rewrite (chk_ok _ _ t1 t2) by (unfold esp_efuse_set_key_dis_write; rewrite Hk; exact E2).
  cbv zeta. rewrite E3. rewrite (chk_ok _ _ t3 t4) by (unfold esp_efuse_set_key_purpose; rewrite Hk; exact E4).
  apply chk_ok. unfold esp_efuse_set_keypurpose_dis_write. rewrite Hk. exact E5.
Qed.

(** Where the bits of a key are. *)
Lemma key_bits_where block purpose k size x : is_key_block block = true -> x ∈ key_bits block purpose k size ->
  x ∈ field_pos (key (keys_of block)) \/ x = (0, 23 + (block - 4)) \/ (is_secret purpose = true /\ x = (0, 32 + (block - 4))) \/
  x ∈ field_pos (keypurpose (keys_of block)) \/ x = (0, 8 + (block - 4)).
Proof.
  intros Hk Hx. unfold key_bits in Hx. rewrite !elem_of_app in Hx.
  change (key_wr_dis (keys_of block)) with [mkDesc 0 (23 + (block - 4)) 1] in Hx. change (key_rd_dis (keys_of block)) with [mkDesc 0 (32 + (block - 4)) 1] in Hx.
  change (keypurpose_wr_dis (keys_of block)) with [mkDesc 0 (8 + (block - 4)) 1] in Hx. rewrite !field_pos_bit, !list_elem_of_singleton in Hx.
  destruct Hx as [Hx|[Hx|[Hx|[Hx|Hx]]]]; [left; by eapply ones_of_sub|auto| |do 3 right; left; by eapply ones_of_sub|auto].
  destruct (is_secret purpose); [|by apply elem_of_nil in Hx]. apply list_elem_of_singleton in Hx. auto.
Qed.

Lemma key_bits_in_chip block purpose k size : is_key_block block = true -> in_chip chip (key_bits block purpose k size).
Proof.
  intros Hk x Hx. destruct (key_fields_ok block Hk) as (Fk & Fp & Fr & Fw & Fpw).
  assert (P : forall f, field_ok chip f -> x ∈ field_pos f -> 0 <= x.2 /\ wr_exists chip x.1 (x.2 / 32) = true) by (intros f Hf Hxf; by apply (field_pos_in_chip chip f)).
  destruct (key_bits_where block purpose k size x Hk Hx) as [H|[->|[[_ ->]|[H| ->]]]]; [exact (P _ Fk H)| | |exact (P _ Fp H)|].
  - apply (P _ Fw). change (key_wr_dis (keys_of block)) with [mkDesc 0 (23 + (block - 4)) 1]. rewrite field_pos_bit. by left.
  - apply (P _ Fr). change (key_rd_dis (keys_of block)) with [mkDesc 0 (32 + (block - 4)) 1]. rewrite field_pos_bit. by left.
  - apply (P _ Fpw). change (keypurpose_wr_dis (keys_of block)) with [mkDesc 0 (8 + (block - 4)) 1]. rewrite field_pos_bit. by left.
Qed.

Lemma in_key_field block x : x ∈ field_pos (key (keys_of block)) -> x.1 = block /\ 0 <= x.2 < 256.
Proof.
  change (key (keys_of block)) with [mkDesc (4 + (block - 4)) 0 256]. rewrite field_pos1. intros (q & -> & Hq%elem_of_seqZ)%list_elem_of_fmap. cbn in *. lia.
Qed.

Lemma in_purpose_field block x : x ∈ field_pos (keypurpose (keys_of block)) -> x.1 = 0 /\ 88 + 4 * (block - 4) <= x.2 < 92 + 4 * (block - 4).
Proof.
  change (keypurpose (keys_of block)) with [mkDesc 0 (88 + 4 * (block - 4)) 4]. rewrite field_pos1. intros (q & -> & Hq%elem_of_seqZ)%list_elem_of_fmap. cbn in *. lia.
Qed.

Lemma key_bits_not_recoded block purpose k size r : is_key_block block = true -> words r -> key_unused r block = true ->
  recoded chip r (key_bits block purpose k size) = false.
Proof.
  intros Hk Hr Hun. pose proof Hk as Hk'. unfold is_key_block, EFUSE_BLK_KEY0, EFUSE_BLK_KEY_MAX in Hk'. zbool. apply not_true_iff_false.
  intros (b & Hb%list_elem_of_In%elem_of_seqZ & [Hl Hne]%andb_true_iff)%existsb_exists.
  apply existsb_exists in Hl as (x & Hx%list_elem_of_In & Exb%Z.eqb_eq). apply existsb_exists in Hne as (i & Hi%list_elem_of_In%elem_of_seqZ & Hnz%negb_true_iff%Z.eqb_neq).
  assert (b = block) as ->.
  { destruct (key_bits_where block purpose k size x Hk Hx) as [C%in_key_field|[->|[[_ ->]|[C%in_purpose_field| ->]]]]; cbn in *; lia. }
  apply Hnz. unfold key_unused in Hun. apply andb_true_iff in Hun as [_ Bk].
  change (key (keys_of block)) with [mkDesc (4 + (block - 4)) 0 256] in Bk. rewrite blank_field in Bk by (cbn; lia). cbn in Bk.
  replace (4 + (block - 4)) with block in Bk by lia. destruct Hkeys as (_ & _ & H8). rewrite (H8 block) in Hi by lia.
  apply Z.bits_inj'. intros j Hj. rewrite Z.testbit_0_l. destruct (decide (j < 32)); [|apply (high_bits_zero _ 32); [apply Hr|lia]].
  specialize (Bk (32 * i + j) ltac:(lia)). rewrite Z.add_0_l in Bk. unfold reg_bit in Bk.
  replace ((32 * i + j) / 32) with i in Bk by (Z.to_euclidean_division_equations; lia).
  by replace ((32 * i + j) mod 32) with j in Bk by (Z.to_euclidean_division_equations; lia).
Qed.

(** The purpose can be read back. *)
Lemma key_purpose_written block purpose k size s s' : is_key_block block = true -> 0 <= purpose < 12 -> key_unused (ef_blocks s) block = true ->
  (forall q, 0 <= q -> reg_bit (ef_blocks s') 0 q = reg_bit (ef_blocks s) 0 q || bool_decide ((0, q) ∈ key_bits block purpose k size)) ->
  quiet s' -> esp_efuse_get_key_purpose chip block s' = RET purpose s'.
Proof.
  intros Hk Hp Hun Ha Hq. pose proof Hk as Hk'. unfold is_key_block, EFUSE_BLK_KEY0, EFUSE_BLK_KEY_MAX in Hk'. zbool.
  destruct (get_key_purpose_spec block s' Hk Hq) as (v & E & _ & G). rewrite E. f_equal. apply Z.bits_inj'. intros j Hj. rewrite G by done.
  destruct (Z.ltb_spec j 4); cbn [andb]; [|symmetry; apply (high_bits_zero purpose 4); lia].
  rewrite Ha by lia. unfold key_unused in Hun. do 4 apply andb_true_iff in Hun as [Hun _].
  change (keypurpose (keys_of block)) with [mkDesc 0 (88 + 4 * (block - 4)) 4] in Hun. rewrite blank_field in Hun by (cbn; lia). cbn in Hun.
  rewrite Hun by lia. cbn [orb]. rewrite <- (word_bytes_bit purpose j) by lia.
  set (x := (0, 88 + 4 * (block - 4) + j)).
  assert (Hpos : field_pos (keypurpose (keys_of block)) !! Z.to_nat j = Some x).
  { change (keypurpose (keys_of block)) with [mkDesc 0 (88 + 4 * (block - 4)) 4]. rewrite field_pos1_lookup by done. cbn. by rewrite (proj2 (Z.ltb_lt j 4)) by lia. }
  destruct (blob_bit (word_bytes purpose) j) eqn:Eb.
  - apply bool_decide_eq_true. unfold key_bits. rewrite !elem_of_app. do 3 right. left. apply elem_of_ones_of. exists j. split; [|done]. change (keypurpose (keys_of block)) with [mkDesc 0 (88 + 4 * (block - 4)) 4]. rewrite length_field1; cbn [bit_count]; lia.
  - apply bool_decide_eq_false. unfold key_bits. rewrite !elem_of_app.
    change (key_wr_dis (keys_of block)) with [mkDesc 0 (23 + (block - 4)) 1]. change (key_rd_dis (keys_of block)) with [mkDesc 0 (32 + (block - 4)) 1].
    change (keypurpose_wr_dis (keys_of block)) with [mkDesc 0 (8 + (block - 4)) 1]. rewrite !field_pos_bit, !list_elem_of_singleton. unfold x.
    intros [C%ones_of_sub%in_key_field|[[= C]|[C|[(i & Hi & Ei & Ep)%elem_of_ones_of|[= C]]]]]; cbn [fst snd] in *; try lia.
    + destruct (is_secret purpose); [apply list_elem_of_singleton in C; injection C; lia|by apply elem_of_nil in C].
    + change (keypurpose (keys_of block)) with [mkDesc 0 (88 + 4 * (block - 4)) 4] in Ep. rewrite field_pos1_lookup in Ep by lia. cbn in Ep.
      destruct (i <? 4); [|done]. injection Ep as Ep. assert (i = j) as -> by lia. congruence.
Qed.
(** Which block the bits hide. *)
Lemma key_bits_hide block purpose k size blk : is_key_block block = true ->
  4 <= blk <= 10 -> (0, 28 + blk) ∈ key_bits block purpose k size -> blk = block /\ is_secret purpose = true.
Proof.
  intros Hk Hb Hx. pose proof Hk as Hk'. unfold is_key_block, EFUSE_BLK_KEY0, EFUSE_BLK_KEY_MAX in Hk'. zbool.
  destruct (key_bits_where block purpose k size _ Hk Hx) as [C%in_key_field|[[= C]|[[Hsec [= C]]|[C%in_purpose_field|[= C]]]]]; cbn in *; try lia.
  split; [lia|done].
Qed.

(** The whole of [esp_efuse_write_key] for an unused block. *)
Lemma write_key_closes `{Hprot : !HalProtects hal_program} block purpose k size s : let l := key_bits block purpose k size in
  idle s -> is_key_block block = true -> 1 <= size <= 32 -> bytes k -> size <= Z.of_nat (length k) -> 0 <= purpose < 12 ->
  key_unused (ef_blocks s) block = true ->
  exists err s', esp_efuse_write_key chip hal_program coding_error block purpose (Some k) size s = RET err s' /\ same_modes s s' /\ unstaged chip s' /\
    words (ef_blocks s') /\ (err = ESP_OK \/ err = ESP_FAIL) /\ (hal_works hal_program coding_error \/ CONFIG_EFUSE_VIRTUAL chip = true -> err = ESP_OK) /\
    burned_in_order err l (ef_blocks s) (ef_blocks s') /\
    (err = ESP_OK -> forall blk q, 0 <= q -> blk <> block \/ CONFIG_EFUSE_VIRTUAL chip = true \/ is_secret purpose = false ->
      reg_bit (ef_blocks s') blk q = reg_bit (ef_blocks s) blk q || bool_decide ((blk, q) ∈ l)).
Proof using Hchip Hkeys Hal.
  intros l Hs Hk Hsize Hb Hl Hp Hun. destruct (write_key_runs block purpose k size s) as (t & Hst & E); try done.
  pose proof (key_bits_in_chip block purpose k size Hk) as Hin. pose proof (proj1 (proj1 Hs)) as Hr.
  pose proof (key_bits_not_recoded block purpose k size _ Hk Hr Hun) as Hrec. rewrite E. destruct (CONFIG_EFUSE_VIRTUAL chip) eqn:Hv.
  - destruct (batch_closes chip Hchip hal_program coding_error s t l (proj1 Hs) Hst Hin) as [(err & s' & Ec & (Hm & Hu & Hw & Hcase & _ & Hok & _)) _].
    { intros Hv'. congruence. }
    unfold l in Hcase. rewrite Hrec in Hcase. destruct Hcase as [_ He]. assert (err = ESP_OK) as -> by (apply He; by right). specialize (Hok eq_refl).
    exists ESP_OK, s'. split_and!; [done|done|done|done|by left|done|by apply adds_in_order|]. intros _ blk q Hq _. by apply Hok.
  - destruct (batch_closes_in_order chip Hchip Hv hal_program coding_error s t l (proj1 Hs) Hst Hin Hrec) as (err & s' & Ec & Hm & Hu & Hw & He & Hwk & Ho).
    exists err, s'. split_and!; [done..| |done|]; [intros [?|?]; [by apply Hwk|done]|]. intros -> blk q Hq Hcase. apply in_order_bits; [done|done|done|].
    intros [Hb' Hx]. destruct (key_bits_hide block purpose k size blk Hk Hb' Hx) as [-> Hsec]. destruct Hcase as [?|[?|?]]; congruence.
Qed.

(** For a block in use. *)
Lemma write_key_refused block purpose k size s : idle s -> is_key_block block = true -> size <= 32 -> purpose < 12 -> key_unused (ef_blocks s) block = false ->
  exists s', esp_efuse_write_key chip hal_program coding_error block purpose k size s = RET ESP_ERR_INVALID_STATE s' /\ same_modes s s' /\ unstaged chip s' /\
    ESP_ERR_INVALID_STATE = ESP_ERR_INVALID_STATE /\ ef_blocks s' = ef_blocks s.
Proof using Hchip Hkeys Hal.
  intros Hs Hk Hsize Hp Hun. assert (S0 : stages (batch_start chip s) (batch_start chip s) []) by (apply stages_nil, reset_of_unstaged, Hs).
  destruct (batch_closes chip Hchip hal_program coding_error s _ [] (proj1 Hs) S0) as [_ (s' & Ec & Hm & Hu & Hbl)].
  { intros x Hx. by apply elem_of_nil in Hx. } { intros _ q _ Hx. by apply elem_of_nil in Hx. }
  exists s'. split; [|done]. unfold esp_efuse_write_key.
  rewrite Hk, (proj2 (Z.ltb_ge 32 size)), (proj2 (Z.leb_gt ESP_EFUSE_KEY_PURPOSE_MAX purpose)) by (unfold ESP_EFUSE_KEY_PURPOSE_MAX; lia).
  cbn [negb orb]. rewrite (bind_RET _ _ _ _ _ (batch_begin_spec chip Hchip s (proj2 (proj2 (proj1 Hs))))).
  destruct (batch_quiet s _ _ Hs S0) as (Hq & _). rewrite (bind_RET _ _ _ _ _ (key_block_unused_spec block _ Hk Hq)).
  change (ef_blocks (batch_start chip s)) with (ef_blocks s). rewrite Hun. cbn [negb]. unfold err_exit. by rewrite (bind_RET _ _ _ _ _ Ec).
Qed.
End Keys.

(** C21: Writing a key of 1 to 32 bytes to an unused block, while no batch is
    open and no other task burns, with virtual or real eFuses: first the key
    is burned, and only when all of its bits can be read are the purpose and
    the protection bits burned, the read protection exactly for secret
    purposes. With a working controller (or virtual eFuses) the call returns
    ESP_OK; then all of these bits and no others have been added, the purpose
    can be read back, and only a key block that got its read protection on
    real eFuses may read as zeros. When the controller fails the call returns
    ESP_FAIL, and only some bits have been added, none of them in block 0 as
    long as the key is not complete. For a block of which any of these bits is
    set the call fails with ESP_ERR_INVALID_STATE and burns nothing. Nothing
    stays staged and the lock is released. *)
Theorem write_key_all_or_nothing chip hal_program coding_error block purpose k size s :
  chip_ok chip -> has_keys chip -> HalLaws hal_program -> HalProtects hal_program -> idle s -> is_key_block block = true -> 1 <= size <= 32 ->
  bytes k -> size <= Z.of_nat (length k) -> 0 <= purpose < 12 ->
  let l := key_bits block purpose k size in
  exists err s', esp_efuse_write_key chip hal_program coding_error block purpose (Some k) size s = RET err s' /\ same_modes s s' /\ unstaged chip s' /\
    if key_unused (ef_blocks s) block then
      (err = ESP_OK \/ err = ESP_FAIL) /\ (hal_works hal_program coding_error \/ CONFIG_EFUSE_VIRTUAL chip = true -> err = ESP_OK) /\
      burned_in_order err l (ef_blocks s) (ef_blocks s') /\
      (err = ESP_OK -> esp_efuse_get_key_purpose chip block s' = RET purpose s' /\
        forall blk q, 0 <= q -> blk <> block \/ CONFIG_EFUSE_VIRTUAL chip = true \/ is_secret purpose = false ->
          reg_bit (ef_blocks s') blk q = reg_bit (ef_blocks s) blk q || bool_decide ((blk, q) ∈ l))
    else err = ESP_ERR_INVALID_STATE /\ ef_blocks s' = ef_blocks s.
Proof.
  intros Hchip Hkeys Hal Hpr Hs Hk Hsize Hb Hl Hp l. destruct (key_unused (ef_blocks s) block) eqn:Hun.
  - destruct (write_key_closes chip Hchip Hkeys hal_program coding_error block purpose k size s) as (err & s' & E & Hm & Hu & _ & He & Hw & Ho & Hbits); try done.
    exists err, s'. split; [done|]. split; [done|]. split; [done|]. split; [done|]. split; [done|]. split; [done|].
    intros Hok. specialize (Hbits Hok). split; [|done]. apply (key_purpose_written chip Hchip Hkeys block purpose k size s); try done.
    + intros q Hq. apply Hbits; [done|]. left. intros E0. rewrite <- E0 in Hk. vm_compute in Hk. discriminate.
    + destruct Hm as (_ & _ & M3 & M4). destruct Hs as (_ & He0 & Hu0 & Hev). destruct (M4 Hu0) as [U V]. split_and!; [congruence|apply U..|congruence].
  - exists ESP_ERR_INVALID_STATE. apply write_key_refused; done || lia.
Qed.

(** ** Digests of secure boot keys *)

(** The purpose of a key block is [v]. *)
Definition has_purpose (chip : efuse_chip) (s : efuse) (block v : Z) : Prop := esp_efuse_get_key_purpose chip block s = RET v s.

(** The digest [i] is revoked. *)
Definition revoked (r : regs) (i : Z) : bool := reg_bit r 0 (85 + i).

Section Digests.
Context (chip : efuse_chip) (Hchip : chip_ok chip) (Hkeys : has_keys chip) (s : efuse) (Hs : quiet s).

Lemma find_purpose_loop_spec n purpose : (n <= key_blocks)%nat ->
  exists r, find_purpose_loop chip n purpose s = RET r s /\
    match r with
    | Some b => 10 - Z.of_nat n <= b < 10 /\ has_purpose chip s b purpose /\ forall b', 10 - Z.of_nat n <= b' < b -> ~ has_purpose chip s b' purpose
    | None => forall b, 10 - Z.of_nat n <= b < 10 -> ~ has_purpose chip s b purpose
    end.
Proof.
  change key_blocks with 6%nat. induction n as [|n IH]; intros Hn; [exists None; split; [done|lia]|]. cbn [find_purpose_loop].
  set (b := EFUSE_BLK_KEY_MAX - Z.of_nat (S n)). change EFUSE_BLK_KEY_MAX with 10 in b.
  assert (Hk : is_key_block b = true) by (unfold is_key_block, EFUSE_BLK_KEY0, EFUSE_BLK_KEY_MAX, b; repeat (zcase; cbn; try lia)).
  destruct (get_key_purpose_spec chip Hchip Hkeys b s Hk Hs) as (v & E & _). rewrite (bind_RET _ _ _ _ _ E).
  destruct (Z.eqb_spec v purpose) as [->|Hne].
  - exists (Some b). split; [done|]. split_and!; [unfold b; lia..|done|]. intros b' Hb'. lia.
  - destruct (IH ltac:(lia)) as (r & Er & Hr). exists r. split; [done|].
    assert (Hnb : ~ has_purpose chip s b purpose) by (unfold has_purpose; rewrite E; congruence).
    destruct r as [b0|].
    + destruct Hr as (Hb0 & Hp & Hno). split_and!; [lia..|done|]. intros b' Hb'. destruct (decide (b' = b)) as [->|]; [done|]. apply Hno. unfold b in *. lia.
    + intros b' Hb'. destruct (decide (b' = b)) as [->|]; [done|]. apply Hr. unfold b in *. lia.
Qed.

Lemma get_digest_revoke_spec i : 0 <= i < 3 -> esp_efuse_get_digest_revoke chip i s = RET (revoked (ef_blocks s) i) s.
Proof.
  intros Hi. unfold esp_efuse_get_digest_revoke, is_digest, SOC_EFUSE_SECURE_BOOT_KEY_DIGESTS, assert_, mbind, M_bind. rewrite (proj2 (Z.ltb_lt _ _)) by lia.
  apply (read_field_bit_quiet chip Hchip 0 (85 + i)); [|done]. destruct Hkeys as (H1 & H2 & _).
  constructor; [|constructor]. split_and!; cbn; lia.
Qed.

(** What the search for digest [i] finds. *)
Definition trusted_digest (i : Z) (d : option Z) : Prop :=
  match d with
  | Some b => revoked (ef_blocks s) i = false /\ 4 <= b < 10 /\ has_purpose chip s b (9 + i) /\ forall b', 4 <= b' < b -> ~ has_purpose chip s b' (9 + i)
  | None => revoked (ef_blocks s) i = true \/ forall b, 4 <= b < 10 -> ~ has_purpose chip s b (9 + i)
  end.

Lemma digests_loop_spec l : Forall (fun i => 0 <= i < 3) l -> exists ds, digests_loop chip l s = RET ds s /\ Forall2 trusted_digest l ds.
Proof.
  induction 1 as [|i l Hi _ IH]; [by exists []|]. destruct IH as (ds & E & F). cbn [digests_loop].
  rewrite (bind_RET _ _ _ _ _ (get_digest_revoke_spec i Hi)).
  assert (D : exists d, (if revoked (ef_blocks s) i then mret None
      else again ← esp_efuse_get_digest_revoke chip i; _ ← assert_ (negb again); esp_efuse_find_purpose chip (digest_purpose (s_revoke_table i))) s = RET d s /\ trusted_digest i d).
  { destruct (revoked (ef_blocks s) i) eqn:Er; [exists None; split; [done|by left]|].
    rewrite (bind_RET _ _ _ _ _ (get_digest_revoke_spec i Hi)), Er. destruct (find_purpose_loop_spec key_blocks (9 + i)) as (d & Ed & Hd); [done|].
    exists d. split; [exact Ed|]. change (10 - Z.of_nat key_blocks) with 4 in Hd. unfold trusted_digest. rewrite Er. destruct d; [done|by right]. }
  destruct D as (d & Ed & Hd). rewrite (bind_RET _ _ _ _ _ Ed), (bind_RET _ _ _ _ _ E). exists (d :: ds). split; [done|]. by constructor.
Qed.
End Digests.

(** The secure boot digests that are returned are those that are not
    revoked and have a key block with their purpose, each in the first such
    block; the call fails exactly when there is none. *)
Theorem key_digests_trusted chip s :
  chip_ok chip -> has_keys chip -> quiet s ->
  exists err d0 d1 d2, esp_secure_boot_read_key_digests chip s = RET (err, [d0; d1; d2]) s /\
    trusted_digest chip s 0 d0 /\ trusted_digest chip s 1 d1 /\ trusted_digest chip s 2 d2 /\
    err = (if decide (d0 = None /\ d1 = None /\ d2 = None) then ESP_FAIL else ESP_OK).
Proof.
  intros Hchip Hkeys Hs. unfold esp_secure_boot_read_key_digests.
  destruct (digests_loop_spec chip Hchip Hkeys s Hs (seqZ 0 3)) as (ds & E & F); [apply Forall_seqZ; lia|].
  change (seqZ 0 SOC_EFUSE_SECURE_BOOT_KEY_DIGESTS) with (seqZ 0 3). rewrite (bind_RET _ _ _ _ _ E).
  change (seqZ 0 3) with [0; 1; 2] in F. inversion F as [|? d0 ? ds1 T0 F1]; subst. inversion F1 as [|? d1 ? ds2 T1 F2]; subst.
  inversion F2 as [|? d2 ? ds3 T2 F3]; subst. inversion F3; subst.
  eexists _, d0, d1, d2. split; [reflexivity|]. split_and!; [done..|]. by destruct d0, d1, d2.
Qed.

Lemma esp32c3_has_keys virtual : has_keys (esp32c3_efuse virtual).
Proof. split_and!; [cbn; lia..|]. intros blk Hb. cbn. by rewrite (proj2 (Z.leb_gt blk 1)) by lia. Qed.

(** A flash encryption key in the first key block of real eFuses; the
    controller hides it. *)
Lemma write_key_all_or_nothing_witness : exists s',
  esp_efuse_write_key (esp32c3_efuse false) xf_hiding_hal xf_coding 4 4 (Some (replicate 32 0x5A)) 32 xf_blank = RET ESP_OK s' /\
  esp_efuse_get_key_purpose (esp32c3_efuse false) 4 s' = RET 4 s' /\ reg_bit (ef_blocks s') 0 32 = true /\ reg_bit (ef_blocks s') 5 1 = false /\
  exists r1, reg_bit r1 4 1 = true /\ reg_bit r1 0 32 = false.
Proof.
  destruct (write_key_all_or_nothing (esp32c3_efuse false) xf_hiding_hal xf_coding 4 4 (replicate 32 0x5A) 32 xf_blank) as (err & s' & E & _ & _ & U).
  - apply esp32c3_efuse_ok.
  - apply esp32c3_has_keys.
  - apply xf_hiding_hal_laws.
  - apply xf_hiding_hal_protects.
  - split; [apply xf_blank_ready|]. repeat split; vm_compute; discriminate.
  - reflexivity.
  - lia.
  - intros i b [-> _]%lookup_replicate. by unfold is_byte.
  - vm_compute. discriminate.
  - lia.
  - assert (B : key_unused (ef_blocks xf_blank) 4 = true) by (vm_compute; reflexivity). rewrite B in U.
    destruct U as (_ & W & (r1 & G & Hall) & Hok). assert (err = ESP_OK) as -> by (apply W; left; apply xf_hiding_hal_works).
    destruct (Hok eq_refl) as [Hp Ha]. exists s'. split; [exact E|]. split; [exact Hp|].
    split; [rewrite Ha by (lia || (left; discriminate)); vm_compute; reflexivity|].
    split; [rewrite Ha by (lia || (left; discriminate)); vm_compute; reflexivity|]. exists r1. split.
    + apply (proj1 Hall); [lia|lia|]. apply (bool_decide_eq_true_1 _). vm_compute. reflexivity.
    + apply not_true_iff_false. intros C. apply G in C; [|lia]. destruct C as [C|C]; vm_compute in C; discriminate.
Defined.

Lemma key_digests_trusted_witness : exists err d0 d1 d2,
  let s := set_blocks (upd (upd (fun _ _ => 0) 0 2 0xA9400000) 0 3 0) xf_blank in
  esp_secure_boot_read_key_digests (esp32c3_efuse false) s = RET (err, [d0; d1; d2]) s /\ d0 = Some 4 /\ d1 = None /\ err = ESP_OK.
Proof.
  set (s := set_blocks _ _).
  destruct (key_digests_trusted (esp32c3_efuse false) s) as (err & d0 & d1 & d2 & E & _).
  - apply esp32c3_efuse_ok.
  - apply esp32c3_has_keys.
  - repeat split; vm_compute; discriminate.
  - exists err, d0, d1, d2. split; [exact E|].
    assert (C : match esp_secure_boot_read_key_digests (esp32c3_efuse false) s with RET (err, d0 :: d1 :: _) _ => (err, d0, d1) | _ => (ESP_FAIL, None, None) end =
      (ESP_OK, Some 4, None)) by (vm_compute; reflexivity).
    rewrite E in C. injection C as -> -> ->. repeat split.
Defined.
