(* ===== verification/EfuseFaults.v ===== *)
(** * eFuse functions that do not do what their documentation says *)

From S2P Require Import Prelude Flash SecureVersion Efuse EfuseSpec EfuseRead EfuseTheorems EfuseVersion EfuseKeys.

Abbreviation virt := (esp32c3_efuse true).
Abbreviation begin := (esp_efuse_batch_write_begin virt).
Abbreviation commit := (esp_efuse_batch_write_commit virt xf_hal xf_coding).
Abbreviation cancel := (esp_efuse_batch_write_cancel virt).

(** What a run leaves of the value [f]. *)
Definition left_by {A B} (m : M efuse A) (f : efuse -> B) (s : efuse) : option (A * B) :=
  match m s with RET a s' => Some (a, f s') | _ => None end.

(** Every [begin] takes the lock, but only the last [commit] gives it back, and
    only once: after a nested batch the task still holds it. *)
Lemma nested_batch_keeps_lock :
  left_by (_ ← begin; _ ← begin; _ ← commit; commit) s_efuse_lock xf_blank = Some (ESP_OK, 1).
Proof. vm_compute. reflexivity. Qed.

(** [esp_efuse_write_keys] opens a batch and every [esp_efuse_write_key] another
    one: after two keys the lock is still held twice, and no other task can
    write eFuses any more. *)
Lemma write_keys_keeps_lock :
  left_by (esp_efuse_write_keys virt xf_hal xf_coding (Some [9; 10]) (Some [replicate 32 0x11; replicate 32 0x22]) 2) s_efuse_lock xf_blank = Some (ESP_OK, 2).
Proof. vm_compute. reflexivity. Qed.

(** A [cancel] inside of another batch drops nothing. *)
Lemma nested_cancel_keeps_changes :
  left_by (_ ← begin; _ ← begin; _ ← esp_efuse_write_field_blob virt xf_hal xf_coding (Some [mkDesc 0 40 8]) (Some [0x42]) 8; err ← cancel; err' ← commit; mret (err, err'))
    (fun s => ef_blocks s 0 1) xf_blank = Some ((ESP_OK, ESP_OK), 0x4200).
Proof. vm_compute. reflexivity. Qed.

(** In a batch, a count that the field cannot hold is an error, but the bits
    that were free are burned at the end. *)
Lemma full_count_is_recorded :
  left_by (_ ← begin; err ← esp_efuse_write_field_cnt virt xf_hal xf_coding (Some [mkDesc 0 40 8]) 9; err' ← commit; mret (err, err'))
    (fun s => ef_blocks s 0 1) xf_blank = Some ((ESP_ERR_EFUSE_CNT_IS_FULL, ESP_OK), 0xFF00).
Proof. vm_compute. reflexivity. Qed.

(** The same for a buffer with a bit that is programmed: the registers before
    it are burned. *)
Lemma repeated_write_is_recorded :
  left_by (_ ← begin; err ← esp_efuse_write_field_blob virt xf_hal xf_coding (Some [mkDesc 0 40 8; mkDesc 0 64 8]) (Some [0x42; 0x01]) 16; err' ← commit; mret (err, err'))
    (fun s => ef_blocks s 0 1) (set_blocks (upd (fun _ _ => 0) 0 2 1) xf_blank) = Some ((ESP_ERR_EFUSE_REPEATED_PROG, ESP_OK), 0x4200).
Proof. vm_compute. reflexivity. Qed.

(** The offset of [esp_efuse_read_block] is cut to 8 bits: register 8 of a block
    of 8 registers is read as register 0, without an error. *)
Lemma register_8_is_register_0 chip blk s : esp_efuse_read_reg chip blk 8 s = esp_efuse_read_reg chip blk 0 s.
Proof. reflexivity. Qed.

(** A controller that burns nothing. *)
Definition dead_hal (n : Z) (r : regs) (blk : Z) (data : Z -> Z) : regs := r.

(** The error of the write is dropped: the update is reported as done and the
    version is the old one. *)
Lemma version_not_burned :
  let D := version_dev (esp32c3_efuse false) dead_hal xf_coding ESP_EFUSE_SECURE_VERSION 0 in
  let res := esp_efuse_update_secure_version (H := D) 16 xf_version3 5 in
  res.1 = ESP_OK /\ esp_efuse_read_secure_version (H := D) 16 res.2 = 3.
Proof. vm_compute. split; reflexivity. Qed.
