(* ===== verification/Bootloader.v ===== *)
(** * Choosing and booting an application

    The selection part of components/bootloader_support/src/bootloader_utility.c,
    the retained RTC memory of bootloader_common_loader.c and the boot flow
    of components/bootloader/subproject/main/bootloader_start.c.  The
    configuration options are the record [boot_config]; image verification
    and loading (esp_image_format.c) is the parameter [image_valid], the
    application descriptor is read from flash. *)

From S2P Require Import Prelude CMem Crc Flash OtaData PartitionTable SecureVersion.

(** ** Configuration and state *)

Record boot_config := mkCfg {
  CONFIG_BOOTLOADER_APP_ROLLBACK_ENABLE : bool;
  CONFIG_BOOTLOADER_APP_ANTI_ROLLBACK : bool;
  CONFIG_BOOTLOADER_SKIP_VALIDATE_IN_DEEP_SLEEP : bool;
  CONFIG_BOOTLOADER_CUSTOM_RESERVE_RTC : bool;
  CONFIG_PARTITION_TABLE_OFFSET : Z;
  CONFIG_APP_SEC_VER_SIZE : Z;
  cfg_chip_size : Z;
  cfg_encrypted : bool (* esp_flash_encryption_enabled() *)
}.

Definition MAX_OTA_SLOTS : Z := 16.
Definition SPI_SEC_SIZE : Z := 0x1000.
Definition FLASH_SECTOR_SIZE : Z := 0x1000.
Definition FACTORY_INDEX : Z := -1.
Definition TEST_APP_INDEX : Z := -2.
Definition INVALID_INDEX : Z := -99.

Record bootloader_state_t := mkBs {
  bs_ota_info : esp_partition_pos_t;
  bs_factory : esp_partition_pos_t;
  bs_test : esp_partition_pos_t;
  bs_ota : list esp_partition_pos_t;
  bs_app_count : Z
}.

Definition no_pos : esp_partition_pos_t := mkPos 0 0.
Definition bs_zero : bootloader_state_t := mkBs no_pos no_pos no_pos (repeat no_pos 16) 0.

(** [rtc_retain_mem_t], without the custom field. *)
Record rtc_retain_mem_t := mkRtc { rtc_partition : esp_partition_pos_t; rtc_counter : Z; rtc_reserve : Z; rtc_crc : Z }.

(** [ota_has_initial_contents] is the static variable of the file. *)
Record boot_state (F E : Type) := mkBoot {
  bt_flash : F;
  bt_efuse : E;
  bt_initial : bool;
  bt_rtc : rtc_retain_mem_t
}.
Arguments mkBoot {F E}.
Arguments bt_flash {F E}.
Arguments bt_efuse {F E}.
Arguments bt_initial {F E}.
Arguments bt_rtc {F E}.

(** ** Retained RTC memory *)

Section Rtc.
(** The bytes in front of [custom] and [crc]; the CRC covers them in both
    configurations. *)
Definition rtc_bytes (r : rtc_retain_mem_t) : list Z :=
  le32 (pos_offset (rtc_partition r)) ++ le32 (pos_size (rtc_partition r)) ++
  [u8 (rtc_counter r); u8 (rtc_counter r / 2 ^ 8)] ++ [u8 (rtc_reserve r); u8 (rtc_reserve r / 2 ^ 8)].

Definition check_rtc_retain_mem (r : rtc_retain_mem_t) : bool :=
  (esp_rom_crc32_le UINT32_MAX (rtc_bytes r) =? rtc_crc r) && negb (rtc_crc r =? UINT32_MAX).

Definition update_rtc_retain_mem_crc (r : rtc_retain_mem_t) : rtc_retain_mem_t :=
  mkRtc (rtc_partition r) (rtc_counter r) (rtc_reserve r) (esp_rom_crc32_le UINT32_MAX (rtc_bytes r)).

Definition bootloader_common_reset_rtc_retain_mem : rtc_retain_mem_t := mkRtc no_pos 0 0 0.

Definition bootloader_common_get_rtc_retain_mem_reboot_counter (r : rtc_retain_mem_t) : Z :=
  if check_rtc_retain_mem r then rtc_counter r else 0.

Definition bootloader_common_get_rtc_retain_mem_partition (r : rtc_retain_mem_t) : option esp_partition_pos_t :=
  if check_rtc_retain_mem r then Some (rtc_partition r) else None.

Definition bootloader_common_update_rtc_retain_mem (partition : option esp_partition_pos_t)
    (reboot_counter : bool) (r : rtc_retain_mem_t) : rtc_retain_mem_t :=
  let r :=
    if reboot_counter then
      let r := if negb (check_rtc_retain_mem r) then bootloader_common_reset_rtc_retain_mem else r in
      let c := u16 (rtc_counter r + 1) in
      (* do not allow to overflow *)
      let c := if c =? 0 then u16 (c - 1) else c in
      mkRtc (rtc_partition r) c (rtc_reserve r) (rtc_crc r)
    else r in
  let r := match partition with
           | Some p => mkRtc p (rtc_counter r) (rtc_reserve r) (rtc_crc r)
           | None => r
           end in
  update_rtc_retain_mem_crc r.
End Rtc.

Section Bootloader.
Context {F E : Type} `{FlashDev F} `{EfuseDev E}.
Context (cfg : boot_config) (md5 : list Z -> list Z).
(** [bootloader_load_image(part, &data) == ESP_OK]. *)
Context (image_valid : F -> esp_partition_pos_t -> bool).

Abbreviation bst := (boot_state F E).
Definition set_flash (f : F) (s : bst) : bst := mkBoot f (bt_efuse s) (bt_initial s) (bt_rtc s).
Definition set_efuse (e : E) (s : bst) : bst := mkBoot (bt_flash s) e (bt_initial s) (bt_rtc s).
Definition set_initial (b : bool) (s : bst) : bst := mkBoot (bt_flash s) (bt_efuse s) b (bt_rtc s).
Definition set_rtc (r : rtc_retain_mem_t) (s : bst) : bst := mkBoot (bt_flash s) (bt_efuse s) (bt_initial s) r.

(** The flash as the bootloader maps it. *)
Definition boot_view (f : F) : mem := view (cfg_encrypted cfg) f.

(** ** The partition table *)

(** One pass of the loop of [bootloader_utility_load_partition_table]. *)
Definition load_entry (bs : bootloader_state_t) (partition : esp_partition_info_t) : bootloader_state_t :=
  if pi_type partition =? PART_TYPE_APP then
    if pi_subtype partition =? PART_SUBTYPE_FACTORY then
      mkBs (bs_ota_info bs) (pi_pos partition) (bs_test bs) (bs_ota bs) (bs_app_count bs)
    else if pi_subtype partition =? PART_SUBTYPE_TEST then
      mkBs (bs_ota_info bs) (bs_factory bs) (pi_pos partition) (bs_ota bs) (bs_app_count bs)
    else if Z.land (pi_subtype partition) (Z.lnot PART_SUBTYPE_OTA_MASK) =? PART_SUBTYPE_OTA_FLAG then
      mkBs (bs_ota_info bs) (bs_factory bs) (bs_test bs)
        (<[Z.to_nat (Z.land (pi_subtype partition) PART_SUBTYPE_OTA_MASK) := pi_pos partition]> (bs_ota bs))
        (u32 (bs_app_count bs + 1))
    else bs
  else if pi_type partition =? PART_TYPE_DATA then
    if pi_subtype partition =? PART_SUBTYPE_DATA_OTA then
      mkBs (pi_pos partition) (bs_factory bs) (bs_test bs) (bs_ota bs) (bs_app_count bs)
    else bs
  else bs.

(** The first [n] entries of the mapped table. *)
Definition table_entries (f : F) (n : Z) : list esp_partition_info_t :=
  (fun i => info_at (boot_view f) (CONFIG_PARTITION_TABLE_OFFSET cfg) (Z.of_nat i)) <$> seq 0 (Z.to_nat n).

Definition bootloader_utility_load_partition_table (f : F) (bs : bootloader_state_t) : bool * bootloader_state_t :=
  if is_ok (fl_mmap f (CONFIG_PARTITION_TABLE_OFFSET cfg) ESP_PARTITION_TABLE_MAX_LEN) then
    let '(err, num_partitions) :=
      esp_partition_table_verify md5 (cfg_chip_size cfg) (boot_view f) (CONFIG_PARTITION_TABLE_OFFSET cfg) in
    if is_ok err then (true, fold_left load_entry (table_entries f num_partitions) bs)
    else (false, bs)
  else (false, bs).

Definition index_to_partition (bs : bootloader_state_t) (index : Z) : esp_partition_pos_t :=
  if index =? FACTORY_INDEX then bs_factory bs
  else if index =? TEST_APP_INDEX then bs_test bs
  else if (0 <=? index) && (index <? MAX_OTA_SLOTS) && (index <? i32 (bs_app_count bs)) then
    nth (Z.to_nat index) (bs_ota bs) no_pos
  else no_pos.

(** ** OTA data *)

Definition read_otadata (f : F) (ota_info : esp_partition_pos_t)
    : esp_err_t * (esp_ota_select_entry_t * esp_ota_select_entry_t) :=
  let none := decode_entry [] in
  if pos_offset ota_info =? 0 then (ESP_ERR_NOT_FOUND, (none, none))
  else if pos_size ota_info <? 2 * SPI_SEC_SIZE then (ESP_FAIL, (none, none))
  else if is_ok (fl_mmap f (pos_offset ota_info) (pos_size ota_info)) then
    (ESP_OK, (decode_entry (read_bytes (boot_view f) (pos_offset ota_info) SELECT_ENTRY_SIZE),
              decode_entry (read_bytes (boot_view f) (pos_offset ota_info + SPI_SEC_SIZE) SELECT_ENTRY_SIZE)))
  else (ESP_FAIL, (none, none)).

(** [bootloader_flash_erase_sector], then [bootloader_flash_write]. *)
Definition write_otadata (f : F) (otadata : esp_ota_select_entry_t) (offset : Z) (write_encrypted : bool)
    : esp_err_t * F :=
  let '(err, f) := fl_erase f (offset / FLASH_SECTOR_SIZE * FLASH_SECTOR_SIZE) FLASH_SECTOR_SIZE in
  if is_ok err then fl_write write_encrypted f offset (encode_entry otadata) else (err, f).

(** ** Application descriptors and anti-rollback *)

Definition ESP_APP_DESC_MAGIC_WORD : Z := 0xABCD5432.
(** [sizeof(esp_image_header_t) + sizeof(esp_image_segment_header_t)] *)
Definition app_desc_offset : Z := 24 + 8.
Definition app_desc_size : Z := 256.
Record esp_app_desc_t := mkDesc { magic_word : Z; secure_version : Z }.

Definition bootloader_common_get_partition_description (f : F) (partition : esp_partition_pos_t)
    : esp_err_t * esp_app_desc_t :=
  if pos_offset partition =? 0 then (ESP_ERR_INVALID_ARG, mkDesc 0 0)
  else if is_ok (fl_mmap f (pos_offset partition) (app_desc_offset + app_desc_size)) then
    let bs := read_bytes (boot_view f) (pos_offset partition + app_desc_offset) (Z.to_nat app_desc_size) in
    let app_desc := mkDesc (get32 bs 0) (get32 bs 4) in
    if negb (magic_word app_desc =? ESP_APP_DESC_MAGIC_WORD) then (ESP_ERR_NOT_FOUND, app_desc)
    else (ESP_OK, app_desc)
  else (ESP_FAIL, mkDesc 0 0).

Definition check_anti_rollback (s : bst) (partition : esp_partition_pos_t) : bool :=
  if CONFIG_BOOTLOADER_APP_ANTI_ROLLBACK cfg then
    let '(err, app_desc) := bootloader_common_get_partition_description (bt_flash s) partition in
    if is_ok err then esp_efuse_check_secure_version (CONFIG_APP_SEC_VER_SIZE cfg) (bt_efuse s) (secure_version app_desc)
    else false
  else true.

Definition update_anti_rollback (s : bst) (partition : esp_partition_pos_t) : bst :=
  let '(err, app_desc) := bootloader_common_get_partition_description (bt_flash s) partition in
  if is_ok err then
    set_efuse (esp_efuse_update_secure_version (CONFIG_APP_SEC_VER_SIZE cfg) (bt_efuse s) (secure_version app_desc)).2 s
  else s.

(** [ota_seq % bs->app_count]: [None] is a division by zero. *)
Definition ota_slot_of (seq app_count : Z) : option Z :=
  if app_count =? 0 then None else Some (u32 (seq - 1) mod app_count).

Definition get_active_otadata_with_check_anti_rollback (s : bst) (bs : bootloader_state_t)
    (two_otadata : esp_ota_select_entry_t * esp_ota_select_entry_t) : option Z :=
  let check i :=
    let e := sel_get two_otadata i in
    if bootloader_common_ota_select_valid e then
      do* ota_slot <- ota_slot_of (ota_seq e) (bs_app_count bs);
      Some (check_anti_rollback s (nth (Z.to_nat ota_slot) (bs_ota bs) no_pos))
    else Some false in
  do* v0 <- check 0;
  do* v1 <- check 1;
  Some (bootloader_common_select_otadata two_otadata (v0, v1) true).

(** ** Selecting the partition *)

Definition ota_sector (bs : bootloader_state_t) (i : Z) : Z :=
  u32 (pos_offset (bs_ota_info bs) + FLASH_SECTOR_SIZE * i).

(** Under the rollback option, applications that were not confirmed are
    given up. *)
Definition abort_pending (bs : bootloader_state_t) (i : Z)
    (st : bst * (esp_ota_select_entry_t * esp_ota_select_entry_t))
    : bst * (esp_ota_select_entry_t * esp_ota_select_entry_t) :=
  let '(s, otadata) := st in
  let e := sel_get otadata i in
  if ota_state e =? ESP_OTA_IMG_PENDING_VERIFY then
    let e := set_state e ESP_OTA_IMG_ABORTED in
    (set_flash (write_otadata (bt_flash s) e (ota_sector bs i) (cfg_encrypted cfg)).2 s, sel_set otadata i e)
  else (s, otadata).

(** [ota_seq == UINT32_MAX || crc != ...]: the entry was never written. *)
Definition initial_entry (e : esp_ota_select_entry_t) : bool :=
  (ota_seq e =? UINT32_MAX) || negb (sel_crc e =? bootloader_common_ota_select_crc e).

(** The branch for the active entry. *)
Definition boot_active (bs : bootloader_state_t) (s : bst)
    (otadata : esp_ota_select_entry_t * esp_ota_select_entry_t) (active_otadata : Z) : option (Z * bst) :=
  if active_otadata =? -1 then Some (FACTORY_INDEX, s)
  else
    let e := sel_get otadata active_otadata in
    do* boot_index <- ota_slot_of (ota_seq e) (bs_app_count bs);
    let '(s, e) :=
      if CONFIG_BOOTLOADER_APP_ROLLBACK_ENABLE cfg && (ota_state e =? ESP_OTA_IMG_NEW) then
        let e := set_state e ESP_OTA_IMG_PENDING_VERIFY in
        (set_flash (write_otadata (bt_flash s) e (ota_sector bs active_otadata) (cfg_encrypted cfg)).2 s, e)
      else (s, e) in
    let s :=
      if CONFIG_BOOTLOADER_APP_ANTI_ROLLBACK cfg && (ota_state e =? ESP_OTA_IMG_VALID) then
        update_anti_rollback s (nth (Z.to_nat boot_index) (bs_ota bs) no_pos)
      else s in
    Some (boot_index, s).

(** [None] is a division by zero. *)
Definition bootloader_utility_get_selected_boot_partition (bs : bootloader_state_t) (s : bst) : option (Z * bst) :=
  if pos_offset (bs_ota_info bs) =? 0 then Some (FACTORY_INDEX, s)
  else
    let '(err, otadata) := read_otadata (bt_flash s) (bs_ota_info bs) in
    if negb (is_ok err) then Some (INVALID_INDEX, s)
    else
      let s := set_initial false s in
      let '(s, otadata) :=
        if CONFIG_BOOTLOADER_APP_ROLLBACK_ENABLE cfg
        then abort_pending bs 1 (abort_pending bs 0 (s, otadata)) else (s, otadata) in
      if negb (CONFIG_BOOTLOADER_APP_ANTI_ROLLBACK cfg) then
        if (bootloader_common_ota_select_invalid (fst otadata) && bootloader_common_ota_select_invalid (snd otadata))
           || (bs_app_count bs =? 0) then
          if negb (pos_offset (bs_factory bs) =? 0) then Some (FACTORY_INDEX, s)
          else Some (0, if initial_entry (fst otadata) && initial_entry (snd otadata)
                        then set_initial true s else s)
        else boot_active bs s otadata (bootloader_common_get_active_otadata otadata)
      else if initial_entry (fst otadata) && initial_entry (snd otadata) then
        Some (FACTORY_INDEX, set_initial true s)
      else
        do* active_otadata <- get_active_otadata_with_check_anti_rollback s bs otadata;
        boot_active bs s otadata active_otadata.

(** ** Booting *)

Definition try_load_partition (s : bst) (partition : esp_partition_pos_t) : bool :=
  if pos_size partition =? 0 then false else image_valid (bt_flash s) partition.

Definition set_actual_ota_seq (bs : bootloader_state_t) (index : Z) (s : bst) : bst :=
  let s :=
    if (FACTORY_INDEX <? index) && bt_initial s then
      let e := mkSel (u32 (index + 1)) (repeat 0xFF 20) ESP_OTA_IMG_VALID UINT32_MAX in
      let otadata := set_seq e (ota_seq e) (bootloader_common_ota_select_crc e) in
      let s := set_flash (write_otadata (bt_flash s) otadata (ota_sector bs 0) (cfg_encrypted cfg)).2 s in
      if CONFIG_BOOTLOADER_APP_ANTI_ROLLBACK cfg
      then update_anti_rollback s (nth (Z.to_nat index) (bs_ota bs) no_pos) else s
    else s in
  if CONFIG_BOOTLOADER_SKIP_VALIDATE_IN_DEEP_SLEEP cfg || CONFIG_BOOTLOADER_CUSTOM_RESERVE_RTC cfg then
    set_rtc (bootloader_common_update_rtc_retain_mem (Some (index_to_partition bs index)) true (bt_rtc s)) s
  else s.

(** The end of the boot: an application runs, or the chip is reset. *)
Inductive boot_outcome := BOOT (part : esp_partition_pos_t) (s : bst) | RESET (s : bst).

Definition bootable (s : bst) (part : esp_partition_pos_t) : bool :=
  check_anti_rollback s part && try_load_partition s part.

(** The two loops over partition indices. *)
Fixpoint try_indices (bs : bootloader_state_t) (s : bst) (l : list Z) : option boot_outcome :=
  match l with
  | [] => None
  | index :: l =>
      let part := index_to_partition bs index in
      if pos_size part =? 0 then try_indices bs s l
      else if bootable s part then Some (BOOT part (set_actual_ota_seq bs index s))
      else try_indices bs s l
  end.

(** [start_index, start_index - 1, ..., FACTORY_INDEX] and
    [start_index + 1, ..., app_count - 1]. *)
Definition indices_down (start_index : Z) : list Z :=
  (fun i => start_index - Z.of_nat i) <$> seq 0 (Z.to_nat (start_index - FACTORY_INDEX + 1)).
Definition indices_up (bs : bootloader_state_t) (start_index : Z) : list Z :=
  (fun i => start_index + 1 + Z.of_nat i) <$> seq 0 (Z.to_nat (i32 (bs_app_count bs) - (start_index + 1))).

Definition bootloader_utility_load_boot_image (bs : bootloader_state_t) (start_index : Z) (s : bst) : boot_outcome :=
  if start_index =? TEST_APP_INDEX then
    if bootable s (bs_test bs) then BOOT (bs_test bs) s else RESET s
  else
    match try_indices bs s (indices_down start_index) with
    | Some o => o
    | None =>
        match try_indices bs s (indices_up bs start_index) with
        | Some o => o
        | None => if bootable s (bs_test bs) then BOOT (bs_test bs) s else RESET s
        end
    end.

(** [call_start_cpu0] after the hardware initialisation, with no GPIO held:
    no factory reset, no test firmware. *)
Definition boot (s : bst) : option boot_outcome :=
  let '(ok, bs) := bootloader_utility_load_partition_table (bt_flash s) bs_zero in
  if negb ok then Some (RESET s)
  else
    do* (boot_index, s) <- bootloader_utility_get_selected_boot_partition bs s;
    if boot_index =? INVALID_INDEX then Some (RESET s)
    else Some (bootloader_utility_load_boot_image bs boot_index s).
End Bootloader.
