(* ===== verification/BootTheorems.v ===== *)
(** * The bootloader's choice

    [select] is the choice of [bootloader_utility_get_selected_boot_partition]
    as a function of the two OTA data entries; the code refines it on flash
    that works.  The rollback protocol is then a property of [select].  The
    second part is about [bootloader_utility_load_boot_image]. *)

From S2P Require Import Prelude CMem Crc Flash OtaData PartitionTable SecureVersion Bootloader.

(** ** The specification *)

Definition abort_entry (e : esp_ota_select_entry_t) : esp_ota_select_entry_t :=
  if ota_state e =? ESP_OTA_IMG_PENDING_VERIFY then set_state e ESP_OTA_IMG_ABORTED else e.

Abbreviation two_entries := (esp_ota_select_entry_t * esp_ota_select_entry_t)%type.

Definition slot_of (e : esp_ota_select_entry_t) (app_count : Z) : Z := u32 (ota_seq e - 1) mod app_count.

Definition aborted (rollback : bool) (t : two_entries) : two_entries :=
  if rollback then (abort_entry (fst t), abort_entry (snd t)) else t.

(** Neither entry says anything, or there is no slot to boot from. *)
Definition no_choice (bs : bootloader_state_t) (t : two_entries) : bool :=
  bootloader_common_ota_select_invalid (fst t) && bootloader_common_ota_select_invalid (snd t)
  || (bs_app_count bs =? 0).

Definition mark_pending (rollback : bool) (t : two_entries) (i : Z) : two_entries :=
  let e := sel_get t i in
  if rollback && (ota_state e =? ESP_OTA_IMG_NEW) then sel_set t i (set_state e ESP_OTA_IMG_PENDING_VERIFY) else t.

(** Boot index, entries afterwards, [ota_has_initial_contents]. *)
Definition select (rollback : bool) (bs : bootloader_state_t) (t : two_entries) : Z * two_entries * bool :=
  let t := aborted rollback t in
  if no_choice bs t then
    if negb (pos_offset (bs_factory bs) =? 0) then (FACTORY_INDEX, t, false)
    else (0, t, initial_entry (fst t) && initial_entry (snd t))
  else
    let i := bootloader_common_get_active_otadata t in
    if i =? -1 then (FACTORY_INDEX, t, false)
    else (slot_of (sel_get t i) (bs_app_count bs), mark_pending rollback t i, false).

(** ** The code refines it *)

Section Refinement.
Context {F E : Type} `{FlashLaws F} `{EfuseDev E}.
Context (cfg : boot_config) (bs : bootloader_state_t).
Abbreviation off := (pos_offset (bs_ota_info bs)).
Abbreviation enc := (cfg_encrypted cfg).

(** An OTA data partition on flash whose erases and writes succeed. *)
Record ota_flash (works : F -> Prop) : Prop := {
  of_off : 0 < off;
  of_align : off mod 4096 = 0;
  of_size : 2 * SPI_SEC_SIZE <= pos_size (bs_ota_info bs);
  of_end : off + 2 * SPI_SEC_SIZE <= 2 ^ 32;
  of_mmap : forall f, works f -> fl_mmap f off (pos_size (bs_ota_info bs)) = ESP_OK;
  of_erase : forall f i, works f -> i = 0 \/ i = 1 ->
    (fl_erase f (off + 4096 * i) 4096).1 = ESP_OK /\ works (fl_erase f (off + 4096 * i) 4096).2;
  of_write : forall f i bytes, works f -> i = 0 \/ i = 1 -> length bytes = SELECT_ENTRY_SIZE -> Forall is_byte bytes ->
    (fl_write enc f (off + 4096 * i) bytes).1 = ESP_OK /\ works (fl_write enc f (off + 4096 * i) bytes).2
}.

Context (works : F -> Prop) (OF : ota_flash works).

Lemma encode_bytes e : Forall is_byte (seq_label e) -> Forall is_byte (encode_entry e).
Proof. intros Hl. unfold encode_entry. rewrite !Forall_app. split_and!; try apply le32_bytes; done. Qed.

Lemma ota_sector_eq i : i = 0 \/ i = 1 -> ota_sector bs i = off + 4096 * i.
Proof.
  intros Hi. destruct OF. unfold ota_sector, FLASH_SECTOR_SIZE, SPI_SEC_SIZE in *. apply u32_small. lia.
Qed.

(** Writing an entry. *)
Lemma write_otadata_spec f e i :
  works f -> i = 0 \/ i = 1 -> entry_ok e -> Forall is_byte (seq_label e) ->
  let res := write_otadata f e (ota_sector bs i) enc in
  res.1 = ESP_OK /\ works res.2 /\ entries enc off res.2 = sel_set (entries enc off f) i e /\
  only_changes off (2 * 4096) f res.2.
Proof.
  intros Hw Hi He Hb res. subst res. rewrite ota_sector_eq by done. unfold write_otadata, FLASH_SECTOR_SIZE.
  assert (Ea : (off + 4096 * i) / 4096 * 4096 = off + 4096 * i).
  { pose proof (of_align _ OF). Z.to_euclidean_division_equations. lia. }
  change 0x1000 with 4096. rewrite Ea.
  destruct (of_erase _ OF f i Hw Hi) as [E1 W1]. pose proof (law_erase_frame f (off + 4096 * i) 4096) as C1.
  pose proof (law_erase f (off + 4096 * i) 4096) as L1.
  destruct (fl_erase f (off + 4096 * i) 4096) as [err1 f1]. cbn [fst snd] in *. subst err1. cbn [is_ok].
  destruct (of_write _ OF f1 i (encode_entry e) W1 Hi (encode_length e He) (encode_bytes e Hb)) as [E2 W2].
  pose proof (law_write_frame enc f1 (off + 4096 * i) (encode_entry e)) as C2.
  pose proof (law_write enc f1 (off + 4096 * i) (encode_entry e)) as L2.
  destruct (fl_write enc f1 (off + 4096 * i) (encode_entry e)) as [err2 f2]. cbn [fst snd] in *. subst err2.
  rewrite (encode_length e He) in *. unfold SELECT_ENTRY_SIZE in *.
  assert (C : only_changes (off + 4096 * i) 4096 f f2).
  { replace 4096 with ((off + 4096 * i + 4096) - (off + 4096 * i)) at 2 by lia.
    apply (only_changes_trans (off + 4096 * i) 4096 (off + 4096 * i) (Z.of_nat 32) f f1 f2); (done || lia). }
  split_and!; try done.
  - apply (entries_update enc off f f2 i e Hi He); [done|].
    apply L2; [done|]. intros x Hx. apply (L1 f1 eq_refl). lia.
  - apply (only_changes_wider _ _ off (2 * 4096) f f2 C); lia.
Qed.

Lemma label_bytes f i : Forall is_byte (seq_label (sel_get (entries enc off f) i)).
Proof.
  unfold sel_get, entries. destruct (i =? 0); cbn [fst snd decode_entry seq_label];
    apply Forall_take, Forall_drop, read_bytes_byte.
Qed.

(** Rewriting the state of an entry. *)
Lemma write_state_spec f v i :
  works f -> i = 0 \/ i = 1 -> is_u32 v ->
  let e := set_state (sel_get (entries enc off f) i) v in
  let f' := (write_otadata f e (ota_sector bs i) enc).2 in
  works f' /\ entries enc off f' = sel_set (entries enc off f) i e /\ only_changes off (2 * 4096) f f'.
Proof.
  intros Hw Hi Hv e f'. subst e f'.
  destruct (write_otadata_spec f (set_state (sel_get (entries enc off f) i) v) i Hw Hi) as (_ & ? & ? & ?); [|..|done].
  - apply set_state_ok; [apply entries_ok|done].
  - apply label_bytes.
Qed.

Lemma read_otadata_entries f : works f -> read_otadata cfg f (bs_ota_info bs) = (ESP_OK, entries enc off f).
Proof.
  intros Hw. destruct OF. unfold read_otadata.
  replace (off =? 0) with false by (symmetry; apply Z.eqb_neq; lia).
  replace (pos_size (bs_ota_info bs) <? 2 * SPI_SEC_SIZE) with false by (symmetry; apply Z.ltb_ge; lia).
  by rewrite of_mmap0.
Qed.

Lemma only_changes_then (f1 f2 f3 : F) :
  only_changes off (2 * 4096) f1 f2 -> only_changes off (2 * 4096) f2 f3 -> only_changes off (2 * 4096) f1 f3.
Proof. intros C1 C2 ? x Hx. by rewrite C2, C1. Qed.

(** A state of the boot code and the entries it has in memory agree. *)
Definition synced (f0 : F) (s : boot_state F E) (t : two_entries) : Prop :=
  works (bt_flash s) /\ entries enc off (bt_flash s) = t /\ only_changes off (2 * 4096) f0 (bt_flash s).

Lemma abort_pending_spec f0 i s t : i = 0 \/ i = 1 -> synced f0 s t ->
  let '(s', t') := abort_pending cfg bs i (s, t) in
  synced f0 s' t' /\ t' = sel_set t i (abort_entry (sel_get t i)) /\ bt_initial s' = bt_initial s.
Proof.
  intros Hi (Hw & Et & Hc). unfold abort_pending, abort_entry.
  destruct (_ =? ESP_OTA_IMG_PENDING_VERIFY).
  - subst t. destruct (write_state_spec (bt_flash s) ESP_OTA_IMG_ABORTED i Hw Hi) as (? & ? & ?); [done|].
    split; [|done]. split_and!; [done..|]. by apply (only_changes_then _ (bt_flash s)).
  - split; [done|]. destruct t as [a b], Hi as [-> | ->]; done.
Qed.

Lemma boot_active_spec f0 s t i :
  synced f0 s t -> bs_app_count bs <> 0 -> CONFIG_BOOTLOADER_APP_ANTI_ROLLBACK cfg = false ->
  i = -1 \/ i = 0 \/ i = 1 ->
  exists s', boot_active cfg bs s t i =
    Some (if i =? -1 then FACTORY_INDEX else slot_of (sel_get t i) (bs_app_count bs), s') /\
    synced f0 s' (if i =? -1 then t else mark_pending (CONFIG_BOOTLOADER_APP_ROLLBACK_ENABLE cfg) t i) /\
    bt_initial s' = bt_initial s.
Proof.
  intros Hs Ha Hanti Hi. unfold boot_active. destruct (Z.eqb_spec i (-1)) as [->|Hne]; [by exists s|].
  unfold ota_slot_of. rewrite (proj2 (Z.eqb_neq _ _) Ha), Hanti. cbn [andb]. unfold mark_pending.
  destruct (CONFIG_BOOTLOADER_APP_ROLLBACK_ENABLE cfg && _); [|by exists s].
  destruct Hs as (Hw & Et & Hc). subst t.
  destruct (write_state_spec (bt_flash s) ESP_OTA_IMG_PENDING_VERIFY i Hw) as (? & ? & ?); [lia|done|].
  eexists. split; [done|]. split; [|done]. split_and!; [done..|]. by apply (only_changes_then _ (bt_flash s)).
Qed.

Lemma active_cases t : let i := bootloader_common_get_active_otadata t in i = -1 \/ i = 0 \/ i = 1.
Proof. destruct (active_spec t) as [[? _]|[? _]]; [by left|right; done]. Qed.

Lemma boot_selection_refines s :
  CONFIG_BOOTLOADER_APP_ANTI_ROLLBACK cfg = false -> works (bt_flash s) ->
  let '(index, t, initial) := select (CONFIG_BOOTLOADER_APP_ROLLBACK_ENABLE cfg) bs (entries enc off (bt_flash s)) in
  exists s', bootloader_utility_get_selected_boot_partition cfg bs s = Some (index, s') /\
    works (bt_flash s') /\ entries enc off (bt_flash s') = t /\
    only_changes off (2 * 4096) (bt_flash s) (bt_flash s') /\ bt_initial s' = initial.
Proof.
  intros Hanti Hw. unfold bootloader_utility_get_selected_boot_partition, select.
  replace (off =? 0) with false by (symmetry; apply Z.eqb_neq; pose proof (of_off _ OF); lia).
  rewrite read_otadata_entries, Hanti by done. cbn [is_ok negb].
  set (rb := CONFIG_BOOTLOADER_APP_ROLLBACK_ENABLE cfg). set (t0 := entries enc off (bt_flash s)).
  assert (A : let '(s1, t1) := if rb then abort_pending cfg bs 1 (abort_pending cfg bs 0 (set_initial false s, t0))
                               else (set_initial false s, t0) in
              synced (bt_flash s) s1 t1 /\ t1 = aborted rb t0 /\ bt_initial s1 = false).
  { assert (S0 : synced (bt_flash s) (set_initial false s) t0) by done.
    unfold aborted. destruct rb; [|done].
    pose proof (abort_pending_spec _ 0 _ _ ltac:(auto) S0) as A0.
    destruct (abort_pending cfg bs 0 _) as [s1 t1]. destruct A0 as (S1 & E1 & I1).
    pose proof (abort_pending_spec _ 1 _ _ ltac:(auto) S1) as A1.
    destruct (abort_pending cfg bs 1 _) as [s2 t2]. destruct A1 as (S2 & E2 & I2).
    split_and!; [done| |by rewrite I2, I1]. rewrite E2, E1. by destruct t0. }
  destruct (if rb then _ else _) as [s1 t1]. destruct A as (S1 & <- & I1).
  unfold no_choice. destruct (_ || (bs_app_count bs =? 0)) eqn:Hn.
  - destruct (negb (pos_offset (bs_factory bs) =? 0)).
    + exists s1. destruct S1 as (? & ? & ?). done.
    + eexists. split; [done|]. destruct S1 as (? & ? & ?). destruct (_ && initial_entry (snd t1)); done.
  - apply orb_false_iff in Hn as [_ Hn]. apply Z.eqb_neq in Hn.
    destruct (boot_active_spec _ s1 t1 _ S1 Hn Hanti (active_cases t1)) as (s2 & -> & (? & ? & ?) & I2).
    destruct (bootloader_common_get_active_otadata t1 =? -1); exists s2; split_and!; try done; by rewrite I2.
Qed.

(** C9: Without anti-rollback, with an OTA data partition of at least two
    sectors, aligned to a sector and not at address 0, on flash whose erases
    and writes of its two sectors succeed,
    bootloader_utility_get_selected_boot_partition implements the abstract
    selection on the two OTA data entries: it returns the selected index,
    leaves the selected entries in flash, changes nothing else, and does not
    divide by zero. *)
Theorem selected_boot_partition_refines s :
  CONFIG_BOOTLOADER_APP_ANTI_ROLLBACK cfg = false -> works (bt_flash s) ->
  let '(index, t, initial) := select (CONFIG_BOOTLOADER_APP_ROLLBACK_ENABLE cfg) bs (entries enc off (bt_flash s)) in
  exists s', bootloader_utility_get_selected_boot_partition cfg bs s = Some (index, s') /\
    works (bt_flash s') /\ entries enc off (bt_flash s') = t /\
    only_changes off (2 * 4096) (bt_flash s) (bt_flash s') /\ bt_initial s' = initial.
Proof. apply boot_selection_refines. Qed.
End Refinement.

(** ** The rollback protocol *)

Lemma valid_not_invalid e : bootloader_common_ota_select_valid e = true -> bootloader_common_ota_select_invalid e = false.
Proof. unfold bootloader_common_ota_select_valid. by destruct (bootloader_common_ota_select_invalid e). Qed.

Lemma aborted_get rb t i : sel_get (aborted rb t) i = if rb then abort_entry (sel_get t i) else sel_get t i.
Proof. unfold aborted, sel_get. by destruct rb, (i =? 0). Qed.

Lemma abort_not_pending e : ota_state (abort_entry e) <> ESP_OTA_IMG_PENDING_VERIFY.
Proof.
  unfold abort_entry. destruct (Z.eqb_spec (ota_state e) ESP_OTA_IMG_PENDING_VERIFY); [done|assumption].
Qed.

Lemma abort_id e : ota_state e <> ESP_OTA_IMG_PENDING_VERIFY -> abort_entry e = e.
Proof. intros H. unfold abort_entry. by destruct (Z.eqb_spec (ota_state e) ESP_OTA_IMG_PENDING_VERIFY). Qed.

(** The choice when entry [i] is invalid depends on the other entry alone. *)
Lemma choose_other bs t i : i = 0 \/ i = 1 ->
  bootloader_common_ota_select_invalid (sel_get t i) = true -> bs_app_count bs <> 0 ->
  let j := 1 - i in
  (bootloader_common_ota_select_valid (sel_get t j) = true ->
     no_choice bs t = false /\ bootloader_common_get_active_otadata t = j) /\
  (bootloader_common_ota_select_valid (sel_get t j) = false ->
     no_choice bs t = true \/ bootloader_common_get_active_otadata t = -1).
Proof.
  intros Hi Hinv Ha j. unfold no_choice. rewrite (proj2 (Z.eqb_neq _ _) Ha), orb_false_r.
  unfold bootloader_common_get_active_otadata, bootloader_common_select_otadata.
  assert (Hv : bootloader_common_ota_select_valid (sel_get t i) = false)
    by (unfold bootloader_common_ota_select_valid; by rewrite Hinv).
  split; intros Hj.
  - pose proof (valid_not_invalid _ Hj) as Hji. subst j.
    destruct t as [a b], Hi as [-> | ->]; unfold sel_get in *; simpl in *; rewrite ?Hji, ?Hv, ?Hj, ?andb_false_r; done.
  - right. subst j. destruct t as [a b], Hi as [-> | ->]; unfold sel_get in *; simpl in *; rewrite ?Hv, ?Hj; done.
Qed.

(** An entry that was marked pending is given up at the next boot. *)
Lemma select_unconfirmed bs t i :
  let t0 := aborted true t in
  no_choice bs t0 = false -> bootloader_common_get_active_otadata t0 = i -> i <> -1 ->
  ota_state (sel_get t0 i) = ESP_OTA_IMG_NEW ->
  let t1 := (select true bs t).1.2 in
  let '(index, t2, _) := select true bs t1 in
  ota_state (sel_get t1 i) = ESP_OTA_IMG_PENDING_VERIFY /\
  ota_state (sel_get t2 i) = ESP_OTA_IMG_ABORTED /\
  (if bootloader_common_ota_select_valid (sel_get t0 (1 - i))
   then index = slot_of (sel_get t0 (1 - i)) (bs_app_count bs)
   else index = FACTORY_INDEX \/ (pos_offset (bs_factory bs) = 0 /\ index = 0)).
Proof.
  intros t0 Hn Hact Hi1 Hst. assert (Hi : i = 0 \/ i = 1) by (pose proof (active_cases t0) as A; cbv zeta in A; rewrite Hact in A; lia).
  assert (Ha : bs_app_count bs <> 0) by (unfold no_choice in Hn; apply orb_false_iff in Hn as [_ Hn]; by apply Z.eqb_neq).
  unfold select at 1. fold t0. rewrite Hn, Hact, (proj2 (Z.eqb_neq _ _) Hi1). cbn [fst snd].
  unfold mark_pending. rewrite Hst. cbn [andb Z.eqb ESP_OTA_IMG_NEW].
  set (e := set_state (sel_get t0 i) ESP_OTA_IMG_PENDING_VERIFY). set (t1 := sel_set t0 i e).
  destruct (sel_get_set t0 i e Hi) as [G1 G2]. fold t1 in G1, G2.
  assert (O : forall j, j = 0 \/ j = 1 -> ota_state (sel_get t0 j) <> ESP_OTA_IMG_PENDING_VERIFY).
  { intros j _. unfold t0. rewrite aborted_get. apply abort_not_pending. }
  (* the entries the second boot sees *)
  set (t2 := aborted true t1).
  assert (A1 : sel_get t2 i = set_state e ESP_OTA_IMG_ABORTED).
  { unfold t2. rewrite aborted_get, G1. done. }
  assert (A2 : sel_get t2 (1 - i) = sel_get t0 (1 - i)).
  { unfold t2. rewrite aborted_get, G2. apply abort_id, O. lia. }
  destruct (choose_other bs t2 i Hi) as [C1 C2]; [rewrite A1; unfold bootloader_common_ota_select_invalid; by rewrite orb_true_r|done|].
  unfold select. fold t2. rewrite A2 in *.
  destruct (bootloader_common_ota_select_valid (sel_get t0 (1 - i))) eqn:Hv.
  - destruct (C1 eq_refl) as [-> ->]. assert (Hj : 1 - i <> -1) by lia.
    rewrite (proj2 (Z.eqb_neq _ _) Hj), A2. split_and!; [by rewrite G1| |done].
    unfold mark_pending. destruct (_ && _); [|by rewrite A1].
    destruct (sel_get_set t2 (1 - i) (set_state (sel_get t2 (1 - i)) ESP_OTA_IMG_PENDING_VERIFY)) as [_ G]; [lia|].
    replace (1 - (1 - i)) with i in G by lia. by rewrite G, A1.
  - destruct (C2 eq_refl) as [-> | ->].
    + destruct (Z.eqb_spec (pos_offset (bs_factory bs)) 0); simpl; rewrite G1, A1; split_and!; try done; [by right|by left].
    + destruct (no_choice bs t2); [destruct (Z.eqb_spec (pos_offset (bs_factory bs)) 0)|]; simpl; rewrite G1, A1;
        split_and!; try done; [by right|by left|by left].
Qed.

Section Rollback.
Context {F E : Type} `{FlashLaws F} `{EfuseDev E}.
Context (cfg : boot_config) (bs : bootloader_state_t) (works : F -> Prop).

(** C31: With rollback enabled and without anti-rollback, with an OTA data
    partition of at least two sectors, aligned to a sector and not at address
    0 and a table with OTA slots, on flash whose erases and writes of the OTA
    data succeed, when, after pending entries have been marked aborted, the
    active entry belongs to a new application: this application is selected
    once and marked as pending; if it was not confirmed, the next boot marks
    it aborted and selects the other slot if its entry is valid, or else the
    factory application or, without one, slot 0. *)
Theorem unconfirmed_app_rolled_back (s : boot_state F E) i :
  ota_flash cfg bs works -> works (bt_flash s) ->
  CONFIG_BOOTLOADER_APP_ANTI_ROLLBACK cfg = false -> CONFIG_BOOTLOADER_APP_ROLLBACK_ENABLE cfg = true ->
  let look s := entries (cfg_encrypted cfg) (pos_offset (bs_ota_info bs)) (bt_flash s) in
  let t0 := aborted true (look s) in
  no_choice bs t0 = false -> bootloader_common_get_active_otadata t0 = i -> i <> -1 ->
  ota_state (sel_get t0 i) = ESP_OTA_IMG_NEW ->
  exists s1 index s2,
    bootloader_utility_get_selected_boot_partition cfg bs s =
      Some (slot_of (sel_get t0 i) (bs_app_count bs), s1) /\
    bootloader_utility_get_selected_boot_partition cfg bs s1 = Some (index, s2) /\
    ota_state (sel_get (look s1) i) = ESP_OTA_IMG_PENDING_VERIFY /\
    ota_state (sel_get (look s2) i) = ESP_OTA_IMG_ABORTED /\
    (if bootloader_common_ota_select_valid (sel_get t0 (1 - i))
     then index = slot_of (sel_get t0 (1 - i)) (bs_app_count bs)
     else index = FACTORY_INDEX \/ (pos_offset (bs_factory bs) = 0 /\ index = 0)).
Proof.
  intros OF Hw Hanti Hrb look t0 Hn Hact Hi Hst.
  pose proof (select_unconfirmed bs (look s) i Hn Hact Hi Hst) as S.
  pose proof (boot_selection_refines cfg bs works OF s Hanti Hw) as R1. rewrite Hrb in R1. fold (look s) in R1.
  assert (E1 : (select true bs (look s)).1.1 = slot_of (sel_get t0 i) (bs_app_count bs)).
  { unfold select. fold t0. rewrite Hn, Hact, (proj2 (Z.eqb_neq _ _) Hi). done. }
  destruct (select true bs (look s)) as [[idx1 t1] b1]. cbn [fst snd] in *.
  destruct R1 as (s1 & G1 & W1 & L1 & _). fold (look s1) in L1.
  pose proof (boot_selection_refines cfg bs works OF s1 Hanti W1) as R2. rewrite Hrb in R2.
  fold (look s1) in R2. rewrite L1 in R2.
  destruct (select true bs t1) as [[idx2 t2] b2]. destruct R2 as (s2 & G2 & _ & L2 & _). fold (look s2) in L2.
  exists s1, idx2, s2. rewrite L1, L2. split_and!; try done; try apply S. by rewrite G1, E1.
Qed.
End Rollback.

(** ** Loading an image *)

Section LoadImage.
Context {F E : Type} `{FlashDev F} `{EfuseDev E}.
Context (cfg : boot_config) (image_valid : F -> esp_partition_pos_t -> bool) (bs : bootloader_state_t).
Abbreviation bootable := (bootable cfg image_valid).

Lemma not_bootable_empty s part : pos_size part = 0 -> bootable s part = false.
Proof. intros E0. unfold Bootloader.bootable, try_load_partition. by rewrite E0, andb_false_r. Qed.

(** The loops boot the first bootable partition of the list. *)
Lemma try_indices_spec s l :
  match try_indices cfg image_valid bs s l with
  | Some o => exists l1 i l2, l = l1 ++ i :: l2 /\
      o = BOOT (index_to_partition bs i) (set_actual_ota_seq cfg bs i s) /\
      bootable s (index_to_partition bs i) = true /\
      (forall j, List.In j l1 -> bootable s (index_to_partition bs j) = false)
  | None => forall j, List.In j l -> bootable s (index_to_partition bs j) = false
  end.
Proof.
  induction l as [|i l IH]; [by intros j []|]. cbn [try_indices].
  assert (Skip : bootable s (index_to_partition bs i) = false ->
    match try_indices cfg image_valid bs s l with
    | Some o => exists l1 j l2, i :: l = l1 ++ j :: l2 /\
        o = BOOT (index_to_partition bs j) (set_actual_ota_seq cfg bs j s) /\
        bootable s (index_to_partition bs j) = true /\
        (forall k, List.In k l1 -> bootable s (index_to_partition bs k) = false)
    | None => forall k, List.In k (i :: l) -> bootable s (index_to_partition bs k) = false
    end).
  { intros Hf. destruct (try_indices cfg image_valid bs s l) as [o|].
    - destruct IH as (l1 & j & l2 & -> & Eo & Hb & Hl). exists (i :: l1), j, l2. split_and!; try done.
      intros k [<-|Hk]; [done|by apply Hl].
    - intros k [<-|Hk]; [done|by apply IH]. }
  destruct (Z.eqb_spec (pos_size (index_to_partition bs i)) 0) as [E0|E0]; [by apply Skip, not_bootable_empty|].
  destruct (bootable s (index_to_partition bs i)) eqn:Hb; [|by apply Skip].
  by exists [], i, l.
Qed.

Lemma in_indices_down start i : FACTORY_INDEX <= i <= start -> List.In i (indices_down start).
Proof.
  intros Hi. unfold indices_down. apply in_map_iff. exists (Z.to_nat (start - i)). split; [lia|]. apply in_seq. lia.
Qed.

Lemma in_indices_up start i : start < i < i32 (bs_app_count bs) -> List.In i (indices_up bs start).
Proof.
  intros Hi. unfold indices_up. apply in_map_iff. exists (Z.to_nat (i - start - 1)). split; [lia|]. apply in_seq. lia.
Qed.

(** Neither a slot, the factory application, the selected partition nor the
    test application can be booted. *)
Definition nothing_bootable (start : Z) (s : boot_state F E) : Prop :=
  bootable s (bs_test bs) = false /\
  forall i, FACTORY_INDEX <= i < i32 (bs_app_count bs) \/ i = start -> bootable s (index_to_partition bs i) = false.

End LoadImage.

(** ** Retained RTC memory *)

Lemma check_update r : rtc_crc (update_rtc_retain_mem_crc r) <> UINT32_MAX ->
  check_rtc_retain_mem (update_rtc_retain_mem_crc r) = true.
Proof.
  intros Hne. unfold check_rtc_retain_mem. apply andb_true_iff. split; [|by apply negb_true_iff, Z.eqb_neq].
  apply Z.eqb_eq. cbn [update_rtc_retain_mem_crc rtc_crc]. f_equal.
Qed.

(** One more, up to the largest 16-bit value. *)
Definition saturated (c : Z) : Z := Z.min (c + 1) (2 ^ 16 - 1).

(** The reboot counter in retained RTC memory grows by one per boot and
    stays at its maximum instead of wrapping around; unless its checksum
    happens to be the reserved value, it and the partition are read back as
    stored. *)
Theorem reboot_counter_saturates r p :
  0 <= rtc_counter r < 2 ^ 16 ->
  let r' := bootloader_common_update_rtc_retain_mem (Some p) true r in
  let before := bootloader_common_get_rtc_retain_mem_reboot_counter r in
  rtc_counter r' = saturated before /\
  (rtc_crc r' <> UINT32_MAX ->
     bootloader_common_get_rtc_retain_mem_reboot_counter r' = saturated before /\
     bootloader_common_get_rtc_retain_mem_partition r' = Some p).
Proof.
  intros Hc r' before.
  assert (Ec : rtc_counter r' = saturated before).
  { unfold r', before, bootloader_common_update_rtc_retain_mem, bootloader_common_get_rtc_retain_mem_reboot_counter.
    destruct (check_rtc_retain_mem r); cbn [negb update_rtc_retain_mem_crc rtc_counter bootloader_common_reset_rtc_retain_mem].
    - unfold u16. destruct (decide (rtc_counter r = 2 ^ 16 - 1)) as [->|]; [done|].
      rewrite (Z.mod_small (rtc_counter r + 1)) by lia. unfold saturated. zcase; lia.
    - done. }
  split; [done|]. intros Hne.
  assert (Hk : check_rtc_retain_mem r' = true).
  { revert Hne. apply check_update. }
  unfold bootloader_common_get_rtc_retain_mem_reboot_counter at 1, bootloader_common_get_rtc_retain_mem_partition.
  rewrite Hk. done.
Qed.

(** ** Loading the partition table *)

(** The last entry of a table of a kind. *)
Definition last_of (P : esp_partition_info_t -> bool) (l : list esp_partition_info_t) (d : esp_partition_pos_t) : esp_partition_pos_t :=
  fold_left (fun p e => if P e then pi_pos e else p) l d.

Definition is_app (st : Z) (e : esp_partition_info_t) : bool := (pi_type e =? PART_TYPE_APP) && (pi_subtype e =? st).
Definition is_ota_app (e : esp_partition_info_t) : bool :=
  (pi_type e =? PART_TYPE_APP) && (PART_SUBTYPE_OTA_FLAG <=? pi_subtype e) && (pi_subtype e <? PART_SUBTYPE_OTA_FLAG + 16).
Definition is_otadata (e : esp_partition_info_t) : bool :=
  (pi_type e =? PART_TYPE_DATA) && (pi_subtype e =? PART_SUBTYPE_DATA_OTA).

Lemma ota_subtype st : 0 <= st < 256 ->
  (Z.land st (Z.lnot PART_SUBTYPE_OTA_MASK) =? PART_SUBTYPE_OTA_FLAG) =
    (PART_SUBTYPE_OTA_FLAG <=? st) && (st <? PART_SUBTYPE_OTA_FLAG + 16) /\
  (PART_SUBTYPE_OTA_FLAG <= st < PART_SUBTYPE_OTA_FLAG + 16 -> Z.land st PART_SUBTYPE_OTA_MASK = st - PART_SUBTYPE_OTA_FLAG).
Proof.
  intros Hst. unfold PART_SUBTYPE_OTA_MASK, PART_SUBTYPE_OTA_FLAG. change 15 with (Z.ones 4).
  rewrite <- Z.ldiff_land, Z.ldiff_ones_r, Z.shiftr_div_pow2, Z.shiftl_mul_pow2, Z.land_ones by lia.
  change (2 ^ 4) with 16. split.
  - repeat zcase; simpl; try done; exfalso; Z.to_euclidean_division_equations; lia.
  - intros H. Z.to_euclidean_division_equations. lia.
Qed.

Lemma load_entry_spec bs e : 0 <= pi_subtype e < 256 -> length (bs_ota bs) = 16%nat ->
  let bs' := load_entry bs e in
  bs_factory bs' = last_of (is_app PART_SUBTYPE_FACTORY) [e] (bs_factory bs) /\
  bs_test bs' = last_of (is_app PART_SUBTYPE_TEST) [e] (bs_test bs) /\
  bs_ota_info bs' = last_of is_otadata [e] (bs_ota_info bs) /\
  bs_app_count bs' = (if is_ota_app e then u32 (bs_app_count bs + 1) else bs_app_count bs) /\
  length (bs_ota bs') = 16%nat /\
  (forall i, 0 <= i < 16 -> nth (Z.to_nat i) (bs_ota bs') no_pos =
     last_of (is_app (PART_SUBTYPE_OTA_FLAG + i)) [e] (nth (Z.to_nat i) (bs_ota bs) no_pos)).
Proof.
  intros Hst Hlen bs'. destruct (ota_subtype _ Hst) as [Eo Em].
  unfold bs', load_entry, last_of, is_app, is_ota_app, is_otadata. cbn [fold_left]. rewrite Eo. clear Eo.
  unfold PART_SUBTYPE_FACTORY, PART_SUBTYPE_TEST, PART_SUBTYPE_OTA_FLAG, PART_TYPE_APP, PART_TYPE_DATA, PART_SUBTYPE_DATA_OTA in *.
  destruct (Z.eqb_spec (pi_type e) 0) as [Et|Et]; cbn [andb].
  - rewrite Et. cbn [Z.eqb andb].
    destruct (Z.eqb_spec (pi_subtype e) 0) as [E0|E0]; [rewrite E0; cbn [andb]; split_and!; try done; intros i Hi; by zcase; [lia|]|].
    destruct (Z.eqb_spec (pi_subtype e) 32) as [E1|E1]; [rewrite E1; cbn [andb]; split_and!; try done; intros i Hi; by zcase; [lia|]|].
    destruct (Z.leb_spec 16 (pi_subtype e)), (Z.ltb_spec (pi_subtype e) (16 + 16)); cbn [andb bs_factory bs_test bs_ota_info bs_app_count bs_ota];
      split_and!; try done; try (intros i Hi; by zcase; [lia|]).
    + by rewrite length_insert.
    + intros i Hi. rewrite Em by lia. rewrite !nth_lookup. zcase.
      * replace (pi_subtype e - 16) with i by lia. by rewrite list_lookup_insert_eq by lia.
      * rewrite list_lookup_insert_ne by lia. done.
  - destruct (Z.eqb_spec (pi_type e) 1); cbn [andb]; [|split_and!; done].
    destruct (Z.eqb_spec (pi_subtype e) 0); cbn [andb]; split_and!; done.
Qed.

Lemma load_table_spec (l : list esp_partition_info_t) :
  Forall (fun e => 0 <= pi_subtype e < 256) l -> Z.of_nat (length l) < 2 ^ 32 ->
  let bs := fold_left load_entry l bs_zero in
  bs_factory bs = last_of (is_app PART_SUBTYPE_FACTORY) l no_pos /\
  bs_test bs = last_of (is_app PART_SUBTYPE_TEST) l no_pos /\
  bs_ota_info bs = last_of is_otadata l no_pos /\
  bs_app_count bs = Z.of_nat (length (List.filter is_ota_app l)) /\
  (forall i, 0 <= i < 16 -> nth (Z.to_nat i) (bs_ota bs) no_pos = last_of (is_app (PART_SUBTYPE_OTA_FLAG + i)) l no_pos).
Proof.
  intros Hl Hlen bs.
  assert (length (bs_ota bs) = 16%nat /\
    bs_factory bs = last_of (is_app PART_SUBTYPE_FACTORY) l no_pos /\
    bs_test bs = last_of (is_app PART_SUBTYPE_TEST) l no_pos /\
    bs_ota_info bs = last_of is_otadata l no_pos /\
    bs_app_count bs = Z.of_nat (length (List.filter is_ota_app l)) /\
    (forall i, 0 <= i < 16 -> nth (Z.to_nat i) (bs_ota bs) no_pos = last_of (is_app (PART_SUBTYPE_OTA_FLAG + i)) l no_pos)) as [_ ?]; [|done].
  unfold bs. clear bs. induction l as [|e l IH] using rev_ind.
  { split_and!; try done. intros i Hi. unfold bs_zero, last_of. simpl.
    assert (In : forall n, nth n (repeat no_pos 16) no_pos = no_pos) by (intros n; apply nth_repeat). apply In. }
  apply Forall_app in Hl as [Hl He]. apply Forall_cons_iff in He as [He _]. rewrite length_app in Hlen. simpl in Hlen.
  destruct (IH Hl ltac:(lia)) as (I0 & I1 & I2 & I3 & I4 & I5). rewrite fold_left_app.
  destruct (load_entry_spec (fold_left load_entry l bs_zero) e He I0) as (L1 & L2 & L3 & L4 & L0 & L5).
  unfold last_of in *. rewrite !fold_left_app. cbn [fold_left] in *.
  rewrite L1, L2, L3, L4, I1, I2, I3, I4, List.filter_app, length_app. split_and!; try done.
  - cbn [List.filter]. pose proof (List.filter_length_le is_ota_app l). destruct (is_ota_app e); simpl; [|lia].
    rewrite u32_small; lia.
  - intros i Hi. rewrite fold_left_app. cbn [fold_left]. by rewrite L5, I5.
Qed.

(** Loading a partition table leaves in the bootloader state the last
    factory, test and OTA data entries, the last entry of each OTA slot, and
    the number of OTA entries. *)
Theorem load_partition_table_spec (l : list esp_partition_info_t) :
  Forall (fun e => 0 <= pi_subtype e < 256) l -> Z.of_nat (length l) < 2 ^ 32 ->
  let bs := fold_left load_entry l bs_zero in
  bs_factory bs = last_of (is_app PART_SUBTYPE_FACTORY) l no_pos /\
  bs_test bs = last_of (is_app PART_SUBTYPE_TEST) l no_pos /\
  bs_ota_info bs = last_of is_otadata l no_pos /\
  bs_app_count bs = Z.of_nat (length (List.filter is_ota_app l)) /\
  (forall i, 0 <= i < 16 -> nth (Z.to_nat i) (bs_ota bs) no_pos = last_of (is_app (PART_SUBTYPE_OTA_FLAG + i)) l no_pos).
Proof. apply load_table_spec. Qed.

(** ** Examples *)

(** A device of 4 MiB with two slots, no factory application, OTA data at
    [0xd000]; slot 0 is confirmed, slot 1 is new. *)
Definition ex_cfg : boot_config := mkCfg true false false true 0x8000 16 0x400000 false.
Definition ex_bs : bootloader_state_t :=
  mkBs (mkPos 0xd000 0x2000) no_pos no_pos (mkPos 0x10000 0x100000 :: mkPos 0x110000 0x100000 :: repeat no_pos 14) 2.
Definition ex_entry (seq state : Z) : esp_ota_select_entry_t :=
  let e := mkSel seq (repeat 0xFF 20) state 0 in set_seq e seq (bootloader_common_ota_select_crc e).
Definition ex_nor : nor :=
  mkNor (memcpy (memcpy (fun _ => 0xFF) 0xd000 (encode_entry (ex_entry 1 ESP_OTA_IMG_VALID)))
           0xe000 (encode_entry (ex_entry 2 ESP_OTA_IMG_NEW))) 0x400000.
Definition ex_rtc : rtc_retain_mem_t := mkRtc no_pos 7 0 0.
Definition ex_boot : boot_state nor Z := mkBoot ex_nor 0 false ex_rtc.
Definition ex_works (f : nor) : Prop := nor_size f = 0x400000.

Lemma ex_ota_flash (cfg : boot_config) (bs : bootloader_state_t) :
  bs_ota_info bs = mkPos 0xd000 0x2000 -> ota_flash cfg bs ex_works.
Proof.
  intros E. split; rewrite ?E; unfold ex_works; cbn [pos_offset pos_size]; try done.
  - intros f Hf. cbn [fl_mmap nor_dev]. unfold in_range. by rewrite Hf.
  - intros f i Hf [-> | ->]; cbn [fl_erase nor_dev]; unfold in_range; rewrite Hf; done.
  - intros f i bytes Hf Hi Hl Hb. cbn [fl_write nor_dev]. unfold in_range. rewrite Hf, Hl.
    assert (Eb : forallb (fun b => (0 <=? b) && (b <? 256)) bytes = true).
    { apply forallb_forall. intros x Hx. rewrite Forall_forall in Hb. specialize (Hb x Hx). unfold is_byte in Hb.
      apply andb_true_iff. split; [apply Z.leb_le|apply Z.ltb_lt]; lia. }
    rewrite Eb. by destruct Hi as [-> | ->].
Qed.

Lemma selected_boot_partition_refines_witness :
  exists s', bootloader_utility_get_selected_boot_partition ex_cfg ex_bs ex_boot = Some (1, s') /\ bt_initial s' = false.
Proof.
  pose proof (selected_boot_partition_refines ex_cfg ex_bs ex_works (ex_ota_flash ex_cfg ex_bs eq_refl) ex_boot eq_refl eq_refl) as R.
  assert (E1 : (select true ex_bs (entries false 0xd000 ex_nor)).1.1 = 1) by (vm_compute; reflexivity).
  assert (E2 : (select true ex_bs (entries false 0xd000 ex_nor)).2 = false) by (vm_compute; reflexivity).
  change (CONFIG_BOOTLOADER_APP_ROLLBACK_ENABLE ex_cfg) with true in R. change (cfg_encrypted ex_cfg) with false in R.
  change (pos_offset (bs_ota_info ex_bs)) with 0xd000 in R. change (bt_flash ex_boot) with ex_nor in R.
  destruct (select true ex_bs (entries false 0xd000 ex_nor)) as [[i t] b]. cbn [fst snd] in E1, E2. subst i b.
  destruct R as (s' & R1 & _ & _ & _ & R2). exists s'. split; assumption.
Defined.

Lemma unconfirmed_app_rolled_back_witness : exists s1 index s2,
  bootloader_utility_get_selected_boot_partition ex_cfg ex_bs ex_boot = Some (1, s1) /\
  bootloader_utility_get_selected_boot_partition ex_cfg ex_bs s1 = Some (index, s2) /\ index = 0.
Proof.
  destruct (unconfirmed_app_rolled_back ex_cfg ex_bs ex_works ex_boot 1 (ex_ota_flash ex_cfg ex_bs eq_refl) eq_refl eq_refl eq_refl)
    as (s1 & index & s2 & R1 & R2 & _ & _ & R3).
  - vm_compute. reflexivity.
  - vm_compute. reflexivity.
  - discriminate.
  - vm_compute. reflexivity.
  - exists s1, index, s2. split; [|split; [exact R2|]].
    + rewrite R1. repeat f_equal. 
    + revert R3. match goal with |- (if ?b then _ else _) -> _ => assert (Eb : b = true) by (vm_compute; reflexivity); rewrite Eb end.
      intros ->. vm_compute. reflexivity.
Defined.

(** Only slot 0 holds an image. *)
Definition ex_valid (f : nor) (p : esp_partition_pos_t) : bool := pos_offset p =? 0x10000.


Lemma reboot_counter_saturates_witness :
  rtc_counter (bootloader_common_update_rtc_retain_mem (Some (mkPos 1 2)) true (update_rtc_retain_mem_crc (mkRtc no_pos 65535 0 0))) = 65535.
Proof.
  destruct (reboot_counter_saturates (update_rtc_retain_mem_crc (mkRtc no_pos 65535 0 0)) (mkPos 1 2)) as [R _].
  - vm_compute. split; [discriminate|reflexivity].
  - rewrite R. vm_compute. reflexivity.
Defined.

Definition ex_table : list esp_partition_info_t :=
  [mkInfo ESP_PARTITION_MAGIC PART_TYPE_DATA PART_SUBTYPE_DATA_OTA (mkPos 0xd000 0x2000) [] 0;
   mkInfo ESP_PARTITION_MAGIC PART_TYPE_APP 0x10 (mkPos 0x10000 0x100000) [] 0;
   mkInfo ESP_PARTITION_MAGIC PART_TYPE_APP 0x11 (mkPos 0x110000 0x100000) [] 0].

Lemma load_partition_table_spec_witness :
  bs_app_count (fold_left load_entry ex_table bs_zero) = 2 /\
  bs_ota_info (fold_left load_entry ex_table bs_zero) = mkPos 0xd000 0x2000.
Proof.
  destruct (load_partition_table_spec ex_table) as (_ & _ & R3 & R4 & _).
  - repeat constructor; vm_compute; (discriminate || reflexivity).
  - reflexivity.
  - split; [rewrite R4|rewrite R3]; vm_compute; reflexivity.
Defined.
