(* ===== verification/Partitions.v ===== *)
(** * Partitions of the running application

    components/esp_partition/partition.c (the list of partitions, iterators,
    external partitions) and partition_target.c (reads, writes, erases and
    mappings within a partition).  All static variables of partition.c and of
    app_update/esp_ota_ops.c are fields of [app_state].

    Heap blocks are named by numbers, so that pointers can be compared; the
    parameter [malloc] says which allocations succeed.  A flash chip is named
    by a number too, [DEFAULT_CHIP] is [esp_flash_default_chip]. *)

From S2P Require Import Prelude CMem Flash OtaData PartitionTable Bootloader.

(** ** Data *)

Definition ESP_PARTITION_TYPE_APP : Z := 0x00.
Definition ESP_PARTITION_TYPE_DATA : Z := 0x01.
Definition ESP_PARTITION_TYPE_ANY : Z := 0xff.
Definition ESP_PARTITION_SUBTYPE_APP_FACTORY : Z := 0x00.
Definition ESP_PARTITION_SUBTYPE_APP_OTA_MIN : Z := 0x10.
Definition ESP_PARTITION_SUBTYPE_APP_OTA_0 : Z := ESP_PARTITION_SUBTYPE_APP_OTA_MIN + 0.
Definition ESP_PARTITION_SUBTYPE_APP_OTA_MAX : Z := ESP_PARTITION_SUBTYPE_APP_OTA_MIN + 16.
Definition ESP_PARTITION_SUBTYPE_APP_TEST : Z := 0x20.
Definition ESP_PARTITION_SUBTYPE_DATA_OTA : Z := 0x00.
Definition ESP_PARTITION_SUBTYPE_DATA_NVS : Z := 0x02.
Definition ESP_PARTITION_SUBTYPE_DATA_NVS_KEYS : Z := 0x04.
Definition ESP_PARTITION_SUBTYPE_ANY : Z := 0xff.
Definition DEFAULT_CHIP : Z := 0.

Record part_config := mkPcfg {
  pc_boot :> boot_config;
  CONFIG_PARTITION_TABLE_MD5 : bool;
  CONFIG_NVS_COMPATIBLE_PRE_V4_3_ENCRYPTION_FLAG : bool;
  CONFIG_SPI_FLASH_ENABLE_ENCRYPTED_READ_WRITE : bool;
  CONFIG_MMU_PAGE_SIZE : Z
}.

Record esp_partition_t := mkPart {
  flash_chip : Z;
  address : Z;
  size : Z;
  erase_size : Z;
  type : Z;
  subtype : Z;
  label : list Z; (* the characters in front of the terminating zero *)
  encrypted : bool
}.

(** An element of the list, with the address [item_id] of the block. *)
Record partition_list_item_t := mkItem { item_id : Z; info : esp_partition_t; user_registered : bool }.

#[export] Instance part_eq_dec : EqDecision esp_partition_t.
Proof. solve_decision. Defined.
#[export] Instance item_eq_dec : EqDecision partition_list_item_t.
Proof. solve_decision. Defined.

(** [next_item] is a pointer into the list, [None] is [NULL]. *)
Record esp_partition_iterator_opaque_t := mkIt {
  it_type : Z;
  it_subtype : Z;
  it_label : option (list Z);
  next_item : option Z;
  it_info : option partition_list_item_t
}.

(** An open update of esp_ota_ops.c; [part] points into the list. *)
Record ota_ops_entry_t := mkOps {
  handle : Z;
  part : partition_list_item_t;
  need_erase : bool;
  wrote_size : Z;
  partial_bytes : Z;
  partial_data : list Z
}.

Record app_state (F E : Type) := mkApp {
  ap_flash : Z -> F;
  ap_efuse : E;
  ap_blocks : Z; (* the next heap block *)
  s_partition_list : list partition_list_item_t;
  s_ota_ops_entries : list ota_ops_entry_t;
  s_ota_ops_last_handle : Z;
  curr_partition : option partition_list_item_t
}.
Arguments mkApp {F E}.
Arguments ap_flash {F E}.
Arguments ap_efuse {F E}.
Arguments ap_blocks {F E}.
Arguments s_partition_list {F E}.
Arguments s_ota_ops_entries {F E}.
Arguments s_ota_ops_last_handle {F E}.
Arguments curr_partition {F E}.

(** [strncpy] into a zeroed buffer: up to [n] characters, up to a zero. *)
Fixpoint strncpy (n : nat) (s : list Z) : list Z :=
  match n, s with
  | S n, c :: s => if c =? 0 then [] else c :: strncpy n s
  | _, _ => []
  end.

(** bootloader_util.h; [None] is a failed assertion.  The arguments are
    [intptr_t]. *)
Definition bootloader_util_regions_overlap (start1 end1 start2 end2 : Z) : option bool :=
  let start1 := i32 start1 in let end1 := i32 end1 in
  let start2 := i32 start2 in let end2 := i32 end2 in
  if negb (start1 <? end1) then None
  else if negb (start2 <? end2) then None
  else Some ((start2 <? end1) && (start1 <? end2)).

Definition head_id (l : list partition_list_item_t) : option Z := item_id <$> head l.

(** The list from the item at address [p] on. *)
Fixpoint list_from (p : Z) (l : list partition_list_item_t) : option (list partition_list_item_t) :=
  match l with
  | [] => None
  | item :: l' => if item_id item =? p then Some l else list_from p l'
  end.

Section Partitions.
Context {F E : Type} `{FlashDev F}.
Context (cfg : part_config) (md5 : list Z -> list Z) (malloc : Z -> bool) (chip_size : Z -> Z).
Abbreviation st := (app_state F E).

Definition set_list (l : list partition_list_item_t) (s : st) : st :=
  mkApp (ap_flash s) (ap_efuse s) (ap_blocks s) l (s_ota_ops_entries s) (s_ota_ops_last_handle s) (curr_partition s).
Definition set_blocks (b : Z) (s : st) : st :=
  mkApp (ap_flash s) (ap_efuse s) b (s_partition_list s) (s_ota_ops_entries s) (s_ota_ops_last_handle s) (curr_partition s).
Definition set_chip (c : Z) (f : F) (s : st) : st :=
  mkApp (fun c' => if c' =? c then f else ap_flash s c') (ap_efuse s) (ap_blocks s) (s_partition_list s)
    (s_ota_ops_entries s) (s_ota_ops_last_handle s) (curr_partition s).

(** ** Loading the table *)

(** The item the loop of [load_partitions] builds from an entry. *)
Definition partition_of (entry : esp_partition_info_t) : esp_partition_t :=
  let encrypted := flag_test (pi_flags entry) PART_FLAG_ENCRYPTED in
  let encrypted :=
    if negb (cfg_encrypted cfg) then false
    else if (pi_type entry =? ESP_PARTITION_TYPE_APP)
            || ((pi_type entry =? ESP_PARTITION_TYPE_DATA) && (pi_subtype entry =? ESP_PARTITION_SUBTYPE_DATA_OTA))
            || ((pi_type entry =? ESP_PARTITION_TYPE_DATA) && (pi_subtype entry =? ESP_PARTITION_SUBTYPE_DATA_NVS_KEYS))
    then true else encrypted in
  let encrypted :=
    if CONFIG_NVS_COMPATIBLE_PRE_V4_3_ENCRYPTION_FLAG cfg && (pi_type entry =? ESP_PARTITION_TYPE_DATA)
       && (pi_subtype entry =? ESP_PARTITION_SUBTYPE_DATA_NVS) && flag_test (pi_flags entry) PART_FLAG_ENCRYPTED
    then false else encrypted in
  mkPart DEFAULT_CHIP (pos_offset (pi_pos entry)) (pos_size (pi_pos entry)) SPI_FLASH_SEC_SIZE
    (pi_type entry) (pi_subtype entry) (strncpy 16 (pi_label entry)) encrypted.

(** The entries from the [i]-th on: the error, [md5_part] (as an index) and
    the new items. [next] is the next heap block. *)
Fixpoint load_loop (fuel : nat) (m : mem) (p_start i next : Z) : esp_err_t * option Z * list partition_list_item_t :=
  match fuel with
  | O => (ESP_OK, None, [])
  | S fuel =>
      let entry := info_at m p_start i in
      if CONFIG_PARTITION_TABLE_MD5 cfg && (pi_magic entry =? ESP_PARTITION_MAGIC_MD5) then (ESP_OK, Some i, [])
      else if negb (pi_magic entry =? ESP_PARTITION_MAGIC) then (ESP_OK, None, [])
      else if malloc next then
        let '(err, md5_part, l) := load_loop fuel m p_start (i + 1) (next + 1) in
        (err, md5_part, mkItem next (partition_of entry) false :: l)
      else (ESP_ERR_NO_MEM, None, [])
  end.

Definition load_partitions : M st esp_err_t := fun s =>
  let f := ap_flash s DEFAULT_CHIP in
  let offset := CONFIG_PARTITION_TABLE_OFFSET cfg in
  let partition_align_pg_size := Z.land offset (Z.lnot (CONFIG_MMU_PAGE_SIZE cfg - 1)) in
  let partition_pad := offset - partition_align_pg_size in
  let err := fl_mmap f partition_align_pg_size SPI_FLASH_SEC_SIZE in
  if negb (is_ok err) then RET err s
  else
    let m := view (cfg_encrypted cfg) f in
    let p_start := partition_align_pg_size + partition_pad in
    let '(err, md5_part, new_partitions_list) :=
      load_loop (Z.to_nat (SPI_FLASH_SEC_SIZE / PARTITION_INFO_SIZE)) m p_start 0 (ap_blocks s) in
    let s := set_blocks (ap_blocks s + Z.of_nat (length new_partitions_list)) s in
    let err :=
      if CONFIG_PARTITION_TABLE_MD5 cfg then
        match md5_part with
        | None => ESP_ERR_NOT_FOUND
        | Some i =>
            if negb (bool_decide (table_md5 md5 m p_start i = stored_md5 m p_start i))
            then ESP_ERR_INVALID_STATE else err
        end
      else err in
    if is_ok err then RET err (set_list new_partitions_list s) else RET err s.

Definition ensure_partitions_loaded : M st esp_err_t := fun s =>
  match s_partition_list s with
  | [] => load_partitions s
  | _ => RET ESP_OK s
  end.

(** ** Iterators *)

Definition iterator_create (type subtype : Z) (label : option (list Z)) : M st (option esp_partition_iterator_opaque_t) :=
  fun s =>
    if malloc (ap_blocks s) then
      RET (Some (mkIt type subtype label (head_id (s_partition_list s)) None)) s
    else RET None s.

(** The conditions under which [esp_partition_next] does not skip [p]. *)
Definition matches (type' subtype' : Z) (label' : option (list Z)) (p : esp_partition_t) : bool :=
  if negb (type' =? ESP_PARTITION_TYPE_ANY) && negb (type' =? type p) then false
  else if negb (subtype' =? ESP_PARTITION_SUBTYPE_ANY) && negb (subtype' =? subtype p) then false
  else match label' with
       | Some lbl => bool_decide (lbl = label p)
       | None => true
       end.

(** The loop of [esp_partition_next]. *)
Fixpoint skip (it : esp_partition_iterator_opaque_t) (l : list partition_list_item_t) : list partition_list_item_t :=
  match l with
  | [] => []
  | item :: l' => if matches (it_type it) (it_subtype it) (it_label it) (info item) then l else skip it l'
  end.

(** A pointer to an item that is no longer in the list is invalid. *)
Definition esp_partition_next (it : esp_partition_iterator_opaque_t) : M st (option esp_partition_iterator_opaque_t) :=
  match next_item it with
  | None => mret None
  | Some p => fun s =>
      match list_from p (s_partition_list s) with
      | None => ABORT
      | Some l =>
          match skip it l with
          | [] => RET None s
          | item :: l' => RET (Some (mkIt (it_type it) (it_subtype it) (it_label it) (head_id l') (Some item))) s
          end
      end
  end.

Definition esp_partition_find (type subtype : Z) (label : option (list Z)) : M st (option esp_partition_iterator_opaque_t) :=
  err ← ensure_partitions_loaded;
  if negb (is_ok err) then mret None
  else if (type =? ESP_PARTITION_TYPE_ANY) && negb (subtype =? ESP_PARTITION_SUBTYPE_ANY) then mret None
  else
    it ← iterator_create type subtype label;
    match it with
    | None => mret None
    | Some it => esp_partition_next it
    end.

Definition esp_partition_get (it : esp_partition_iterator_opaque_t) : option partition_list_item_t := it_info it.

Definition esp_partition_find_first (type subtype : Z) (label : option (list Z)) : M st (option partition_list_item_t) :=
  it ← esp_partition_find type subtype label;
  match it with
  | None => mret None
  | Some it => mret (esp_partition_get it)
  end.

(** [while (it != NULL)]: the first item for which [found] holds. *)
Fixpoint scan (fuel : nat) (found : esp_partition_t -> bool) (it : option esp_partition_iterator_opaque_t)
    : M st (option partition_list_item_t) :=
  match it with
  | None => mret None
  | Some it =>
      match fuel, esp_partition_get it with
      | S fuel, Some p =>
          if found (info p) then mret (Some p)
          else it ← esp_partition_next it; scan fuel found it
      | _, _ => abort
      end
  end.

Definition same_region (partition p : esp_partition_t) : bool :=
  (flash_chip p =? flash_chip partition) && (address p =? address partition)
  && (size partition =? size p) && eqb (encrypted partition) (encrypted p).

Definition esp_partition_verify (partition : esp_partition_t) : M st (option partition_list_item_t) :=
  let lbl := match label partition with [] => None | _ => Some (label partition) end in
  it ← esp_partition_find (type partition) (subtype partition) lbl;
  fuel ← gets (fun s => S (length (s_partition_list s)));
  scan fuel (same_region partition) it.

(** ** External partitions *)

Fixpoint overlaps (chip offset sz : Z) (l : list partition_list_item_t) : option bool :=
  match l with
  | [] => Some false
  | it :: l =>
      do* o <- (if flash_chip (info it) =? chip then
                  bootloader_util_regions_overlap offset (u32 (offset + sz))
                    (address (info it)) (u32 (address (info it) + size (info it)))
                else Some false);
      if o then Some true else overlaps chip offset sz l
  end.

(** The result and [*out_partition]. *)
Definition esp_partition_register_external (chip offset sz : Z) (lbl : list Z) (type subtype : Z)
    : M st (esp_err_t * option partition_list_item_t) :=
  if chip_size chip <? u32 (offset + sz) then mret (ESP_ERR_INVALID_SIZE, None)
  else
    err ← ensure_partitions_loaded;
    if negb (is_ok err) then mret (err, None)
    else fun s =>
      if negb (malloc (ap_blocks s)) then RET (ESP_ERR_NO_MEM, None) s
      else
        let item := mkItem (ap_blocks s) (mkPart chip offset sz 0 type subtype (strncpy 16 lbl) false) true in
        let s := set_blocks (ap_blocks s + 1) s in
        match overlaps chip offset sz (s_partition_list s) with
        | None => ABORT
        | Some true => RET (ESP_ERR_INVALID_ARG, None) s
        | Some false => RET (ESP_OK, Some item) (set_list (s_partition_list s ++ [item]) s)
        end.

(** The loop of [esp_partition_deregister_external]. *)
Fixpoint deregister (partition : Z) (l : list partition_list_item_t) : esp_err_t * list partition_list_item_t :=
  match l with
  | [] => (ESP_ERR_NOT_FOUND, [])
  | it :: l' =>
      if item_id it =? partition then
        if negb (user_registered it) then (ESP_ERR_INVALID_ARG, l) else (ESP_OK, l')
      else let '(err, l'') := deregister partition l' in (err, it :: l'')
  end.

Definition esp_partition_deregister_external (partition : Z) : M st esp_err_t := fun s =>
  let '(err, l) := deregister partition (s_partition_list s) in RET err (set_list l s).

(** ** Access to a partition (partition_target.c) *)

(** The two range checks that open every function. *)
Definition range_check (p : esp_partition_t) (offset sz : Z) : option esp_err_t :=
  if size p <? offset then Some ESP_ERR_INVALID_ARG
  else if size p <? u32 (offset + sz) then Some ESP_ERR_INVALID_SIZE
  else None.

(** The result and the flash address [*out_ptr] shows. *)
Definition esp_partition_mmap (p : esp_partition_t) (offset sz : Z) : M st (esp_err_t * Z) := fun s =>
  match range_check p offset sz with
  | Some err => RET (err, 0) s
  | None =>
      if negb (flash_chip p =? DEFAULT_CHIP) then RET (ESP_ERR_NOT_SUPPORTED, 0) s
      else
        let phys_addr := u32 (address p + offset) in
        let region_offset := Z.land phys_addr (CONFIG_MMU_PAGE_SIZE cfg - 1) in
        let mmap_addr := Z.land phys_addr (Z.lnot (CONFIG_MMU_PAGE_SIZE cfg - 1)) in
        let rc := fl_mmap (ap_flash s (flash_chip p)) mmap_addr (u32 (sz + region_offset)) in
        RET (rc, mmap_addr + region_offset) s
  end.

(** What a mapping of the default chip shows. *)
Definition mapped (s : st) : mem := view (cfg_encrypted cfg) (ap_flash s DEFAULT_CHIP).

Definition esp_partition_read (p : esp_partition_t) (src_offset sz : Z) : M st (esp_err_t * list Z) :=
  match range_check p src_offset sz with
  | Some err => mret (err, [])
  | None =>
      if negb (encrypted p) then
        gets (fun s => fl_read (ap_flash s (flash_chip p)) (u32 (address p + src_offset)) sz)
      else if CONFIG_SPI_FLASH_ENABLE_ENCRYPTED_READ_WRITE cfg then
        if negb (flash_chip p =? DEFAULT_CHIP) then mret (ESP_ERR_NOT_SUPPORTED, [])
        else
          r ← esp_partition_mmap p src_offset sz;
          let '(err, buf) := r in
          if negb (is_ok err) then mret (err, [])
          else gets (fun s => (ESP_OK, read_bytes (mapped s) buf (Z.to_nat sz)))
      else mret (ESP_ERR_NOT_SUPPORTED, [])
  end.

(** A call of the flash driver on the chip of [p]. *)
Definition on_chip (p : esp_partition_t) (op : F -> esp_err_t * F) : M st esp_err_t := fun s =>
  let '(err, f) := op (ap_flash s (flash_chip p)) in RET err (set_chip (flash_chip p) f s).

Definition esp_partition_write (p : esp_partition_t) (dst_offset : Z) (src : list Z) : M st esp_err_t :=
  match range_check p dst_offset (Z.of_nat (length src)) with
  | Some err => mret err
  | None =>
      let dst_offset := u32 (address p + dst_offset) in
      if negb (encrypted p) then on_chip p (fun f => fl_write false f dst_offset src)
      else if CONFIG_SPI_FLASH_ENABLE_ENCRYPTED_READ_WRITE cfg then
        if negb (flash_chip p =? DEFAULT_CHIP) then mret ESP_ERR_NOT_SUPPORTED
        else on_chip p (fun f => fl_write true f dst_offset src)
      else mret ESP_ERR_NOT_SUPPORTED
  end.

Definition esp_partition_read_raw (p : esp_partition_t) (src_offset sz : Z) : M st (esp_err_t * list Z) :=
  match range_check p src_offset sz with
  | Some err => mret (err, [])
  | None => gets (fun s => fl_read (ap_flash s (flash_chip p)) (u32 (address p + src_offset)) sz)
  end.

Definition esp_partition_write_raw (p : esp_partition_t) (dst_offset : Z) (src : list Z) : M st esp_err_t :=
  match range_check p dst_offset (Z.of_nat (length src)) with
  | Some err => mret err
  | None => on_chip p (fun f => fl_write false f (u32 (address p + dst_offset)) src)
  end.

Definition esp_partition_erase_range (p : esp_partition_t) (offset sz : Z) : M st esp_err_t :=
  match range_check p offset sz with
  | Some err => mret err
  | None =>
      if negb (sz mod SPI_FLASH_SEC_SIZE =? 0) then mret ESP_ERR_INVALID_SIZE
      else if negb (offset mod SPI_FLASH_SEC_SIZE =? 0) then mret ESP_ERR_INVALID_ARG
      else on_chip p (fun f => fl_erase f (u32 (address p + offset)) sz)
  end.
End Partitions.
