(* ===== verification/PartitionTheorems.v ===== *)
(** * Properties of the partition API

    Searching and iterating, the list after loading the table, external
    partitions, and the bounds of partition access. *)

From S2P Require Import Prelude CMem Flash OtaData PartitionTable Bootloader BootTheorems Partitions.

(** ** Searching *)

Lemma list_from_app pre (item : partition_list_item_t) l :
  NoDup (item_id <$> pre ++ item :: l) -> list_from (item_id item) (pre ++ item :: l) = Some (item :: l).
Proof.
  induction pre as [|e pre IH]; simpl; intros Hn; [by rewrite Z.eqb_refl|].
  inversion_clear Hn as [|? ? Hnot Hn']. destruct (Z.eqb_spec (item_id e) (item_id item)) as [E|]; [|by apply IH].
  exfalso. apply Hnot. rewrite E, fmap_app. apply elem_of_app. right. by left.
Qed.

Section Search.
Context {F E : Type} `{FlashDev F}.
Context (cfg : part_config) (md5 : list Z -> list Z) (malloc : Z -> bool).
Abbreviation st := (app_state F E).

(** The list was loaded, and an iterator can be allocated. *)
Record loaded (s : st) : Prop := {
  ld_nonempty : s_partition_list s <> [];
  ld_ids : NoDup (item_id <$> s_partition_list s);
  ld_malloc : malloc (ap_blocks s) = true
}.

Definition wanted (ty sub : Z) (lbl : option (list Z)) (i : partition_list_item_t) : bool := matches ty sub lbl (info i).

(** The iterator that stands in front of [l], after [item]. *)
Definition it_at (ty sub : Z) (lbl : option (list Z)) (item : option partition_list_item_t) (l : list partition_list_item_t) :=
  mkIt ty sub lbl (head_id l) item.

Definition advance (ty sub : Z) (lbl : option (list Z)) (l : list partition_list_item_t) : option esp_partition_iterator_opaque_t :=
  match skip (it_at ty sub lbl None l) l with
  | [] => None
  | item :: l' => Some (it_at ty sub lbl (Some item) l')
  end.

Lemma skip_it ty sub lbl item item' l0 l1 l : skip (it_at ty sub lbl item l0) l = skip (it_at ty sub lbl item' l1) l.
Proof. induction l as [|e l IH]; simpl; [done|]. by destruct (matches _ _ _ _). Qed.

Lemma next_spec (s : st) ty sub lbl item pre l :
  s_partition_list s = pre ++ l -> NoDup (item_id <$> s_partition_list s) ->
  esp_partition_next (it_at ty sub lbl item l) s = RET (advance ty sub lbl l) s.
Proof.
  intros El Hn. unfold esp_partition_next, advance. cbn [next_item it_at].
  destruct l as [|e l]; [done|]. cbn [head_id head fmap option_fmap option_map].
  rewrite El in *. rewrite list_from_app by done. rewrite (skip_it ty sub lbl item None _ (e :: l)).
  by destruct (skip _ _).
Qed.

Lemma skip_suffix it l : exists pre, l = pre ++ skip it l.
Proof.
  induction l as [|e l [pre IH]]; [by exists []|]. cbn [skip].
  destruct (matches _ _ _ _); [by exists []|]. exists (e :: pre). simpl. by f_equal.
Qed.

Lemma skip_find ty sub lbl item l0 P l :
  List.find (fun i => wanted ty sub lbl i && P (info i)) l =
  match skip (it_at ty sub lbl item l0) l with
  | [] => None
  | i :: l' => if P (info i) then Some i else List.find (fun i => wanted ty sub lbl i && P (info i)) l'
  end.
Proof.
  unfold wanted. induction l as [|e l IH]; [done|]. cbn [List.find skip it_at it_type it_subtype it_label].
  destruct (matches ty sub lbl (info e)); [done|]. by rewrite IH.
Qed.

Lemma skip_length it l : (length (skip it l) <= length l)%nat.
Proof. destruct (skip_suffix it l) as [pre E1]. apply (f_equal length) in E1. rewrite length_app in E1. lia. Qed.

(** The loops over an iterator find the first item with the property. *)
Lemma scan_spec (s : st) ty sub lbl P fuel pre l :
  s_partition_list s = pre ++ l -> NoDup (item_id <$> s_partition_list s) -> (length l < fuel)%nat ->
  scan fuel P (advance ty sub lbl l) s =
    RET (List.find (fun i => wanted ty sub lbl i && P (info i)) l) s.
Proof.
  revert pre l. induction fuel as [|fuel IH]; intros pre l El Hn Hf; [lia|].
  rewrite (skip_find ty sub lbl None l P l). unfold advance.
  destruct (skip_suffix (it_at ty sub lbl None l) l) as [pre' Ep].
  pose proof (skip_length (it_at ty sub lbl None l) l) as Hs.
  destruct (skip (it_at ty sub lbl None l) l) as [|i l']; [done|]. cbn [length] in Hs.
  cbn [scan esp_partition_get it_at it_info]. destruct (P (info i)); [done|].
  assert (El' : s_partition_list s = (pre ++ pre' ++ [i]) ++ l') by (rewrite El, Ep, <- !app_assoc; done).
  unfold mbind, M_bind. fold (it_at ty sub lbl (Some i) l').
  rewrite (next_spec s ty sub lbl (Some i) _ l' El' Hn). apply (IH _ l' El' Hn). lia.
Qed.

Lemma find_spec (s : st) ty sub lbl :
  loaded s -> (ty <> ESP_PARTITION_TYPE_ANY \/ sub = ESP_PARTITION_SUBTYPE_ANY) ->
  esp_partition_find cfg md5 malloc ty sub lbl s = RET (advance ty sub lbl (s_partition_list s)) s.
Proof.
  intros [Hne Hn Hm] Hty. unfold esp_partition_find.
  assert (El : ensure_partitions_loaded cfg md5 malloc s = RET ESP_OK s)
    by (unfold ensure_partitions_loaded; destruct (s_partition_list s); done).
  rewrite (bind_RET _ _ _ _ _ El). cbn [is_ok negb].
  replace ((ty =? ESP_PARTITION_TYPE_ANY) && negb (sub =? ESP_PARTITION_SUBTYPE_ANY)) with false
    by (symmetry; apply andb_false_iff; destruct Hty as [Hty| ->]; [left; by apply Z.eqb_neq|by right]).
  unfold mbind, M_bind, iterator_create. rewrite Hm.
  apply (next_spec s ty sub lbl None [] (s_partition_list s)); done.
Qed.

Lemma find_first_spec (s : st) ty sub lbl :
  loaded s -> (ty <> ESP_PARTITION_TYPE_ANY \/ sub = ESP_PARTITION_SUBTYPE_ANY) ->
  esp_partition_find_first cfg md5 malloc ty sub lbl s = RET (List.find (wanted ty sub lbl) (s_partition_list s)) s.
Proof.
  intros Hl Hty. unfold esp_partition_find_first. rewrite (bind_RET _ _ _ _ _ (find_spec s ty sub lbl Hl Hty)).
  pose proof (skip_find ty sub lbl None (s_partition_list s) (fun _ => true) (s_partition_list s)) as Sf.
  unfold advance. assert (Ef : forall l, List.find (wanted ty sub lbl) l = List.find (fun i => wanted ty sub lbl i && true) l).
  { intros l. induction l as [|e l IH]; [done|]. cbn [List.find]. rewrite andb_true_r. by destruct (wanted _ _ _ e). }
  rewrite Ef, Sf. by destruct (skip _ _).
Qed.

(** The loop over all matching partitions that the header recommends:
    [for (it = find(...); it != NULL; it = next(it))]. *)
Fixpoint collect (fuel : nat) (it : option esp_partition_iterator_opaque_t) : M st (list partition_list_item_t) :=
  match it, fuel with
  | None, _ => mret []
  | Some it, S fuel =>
      it' ← esp_partition_next it;
      l ← collect fuel it';
      mret (match esp_partition_get it with Some p => p :: l | None => l end)
  | Some _, O => abort
  end.

Lemma collect_spec (s : st) ty sub lbl fuel pre l :
  s_partition_list s = pre ++ l -> NoDup (item_id <$> s_partition_list s) -> (length l < fuel)%nat ->
  collect fuel (advance ty sub lbl l) s = RET (List.filter (wanted ty sub lbl) l) s.
Proof.
  revert pre l. induction fuel as [|fuel IH]; intros pre l El Hn Hf; [lia|].
  assert (Ef : List.filter (wanted ty sub lbl) l =
    match skip (it_at ty sub lbl None l) l with [] => [] | i :: l' => i :: List.filter (wanted ty sub lbl) l' end).
  { generalize l at 2. intros l0. clear -l. unfold wanted. induction l as [|e l IH]; [done|].
    cbn [List.filter skip it_at it_type it_subtype it_label]. by destruct (matches ty sub lbl (info e)). }
  rewrite Ef. unfold advance. destruct (skip_suffix (it_at ty sub lbl None l) l) as [pre' Ep].
  pose proof (skip_length (it_at ty sub lbl None l) l) as Hs.
  destruct (skip (it_at ty sub lbl None l) l) as [|i l']; [done|]. cbn [length] in Hs.
  assert (El' : s_partition_list s = (pre ++ pre' ++ [i]) ++ l') by (rewrite El, Ep, <- !app_assoc; done).
  cbn [collect]. rewrite (bind_RET _ _ _ _ _ (next_spec s ty sub lbl (Some i) _ l' El' Hn)).
  by rewrite (bind_RET _ _ _ _ _ (IH _ l' El' Hn ltac:(lia))).
Qed.

(** Iterating with esp_partition_find and esp_partition_next visits
    exactly the partitions that match, each once, in the order of the list,
    and ends. *)
Theorem partition_iteration_complete (s : st) ty sub lbl :
  loaded s -> (ty <> ESP_PARTITION_TYPE_ANY \/ sub = ESP_PARTITION_SUBTYPE_ANY) ->
  exists it,
    esp_partition_find cfg md5 malloc ty sub lbl s = RET it s /\
    collect (S (length (s_partition_list s))) it s =
      RET (List.filter (wanted ty sub lbl) (s_partition_list s)) s.
Proof.
  intros Hl Hty. exists (advance ty sub lbl (s_partition_list s)). split; [by apply find_spec|].
  destruct Hl. apply (collect_spec s ty sub lbl _ [] (s_partition_list s)); [done..|lia].
Qed.

Definition label_of (p : esp_partition_t) : option (list Z) := match label p with [] => None | _ => Some (label p) end.

Lemma verify_find (s : st) p : loaded s -> type p <> ESP_PARTITION_TYPE_ANY ->
  esp_partition_verify cfg md5 malloc p s =
    RET (List.find (fun i => wanted (type p) (subtype p) (label_of p) i && same_region p (info i)) (s_partition_list s)) s.
Proof.
  intros Hl Hty. unfold esp_partition_verify. fold (label_of p).
  rewrite (bind_RET _ _ _ _ _ (find_spec s _ _ _ Hl (or_introl Hty))).
  unfold gets, mbind, M_bind. destruct Hl. apply (scan_spec s _ _ _ _ _ [] (s_partition_list s)); [done..|lia].
Qed.
End Search.

(** ** Loading the table *)

Lemma find_fmap {A B} (f : A -> B) P l : List.find P (f <$> l) = f <$> List.find (fun a => P (f a)) l.
Proof. induction l as [|a l IH]; [done|]. simpl. by destruct (P (f a)). Qed.

Lemma find_ext {A} (P Q : A -> bool) l : (forall a, P a = Q a) -> List.find P l = List.find Q l.
Proof. intros HPQ. induction l as [|a l IH]; [done|]. simpl. rewrite HPQ, IH. done. Qed.

Section Load.
Context {F E : Type} `{FlashDev F}.
Context (cfg : part_config) (md5 : list Z -> list Z) (malloc : Z -> bool).
Context (heap : forall b, malloc b = true).
Abbreviation st := (app_state F E).

(** The items of [n] entries from the [i]-th on. *)
Definition items_of (m : mem) (p i next : Z) (n : nat) : list partition_list_item_t :=
  (fun j => mkItem (next + Z.of_nat j) (partition_of cfg (info_at m p (i + Z.of_nat j))) false) <$> seq 0 n.

Lemma items_of_S m p i next n :
  items_of m p i next (S n) = mkItem next (partition_of cfg (info_at m p i)) false :: items_of m p (i + 1) (next + 1) n.
Proof.
  unfold items_of. cbn [seq fmap list_fmap]. rewrite !Z.add_0_r. f_equal.
  rewrite <- seq_shift. change (map S (seq 0 n)) with (S <$> seq 0 n). rewrite <- list_fmap_compose. apply list_fmap_ext. intros j x _.
  unfold compose. f_equal; [lia|]. do 2 f_equal. lia.
Qed.

Lemma load_loop_spec m p n fuel i next :
  (n < fuel)%nat ->
  (forall j, 0 <= j < Z.of_nat n -> pi_magic (info_at m p (i + j)) = ESP_PARTITION_MAGIC) ->
  pi_magic (info_at m p (i + Z.of_nat n)) <> ESP_PARTITION_MAGIC ->
  load_loop cfg malloc fuel m p i next =
    (ESP_OK, if CONFIG_PARTITION_TABLE_MD5 cfg && (pi_magic (info_at m p (i + Z.of_nat n)) =? ESP_PARTITION_MAGIC_MD5)
             then Some (i + Z.of_nat n) else None, items_of m p i next n).
Proof.
  revert n i next. induction fuel as [|fuel IH]; intros n i next Hf Hp He; [lia|].
  cbn [load_loop]. destruct n as [|n].
  - change (Z.of_nat 0) with 0 in *. rewrite Z.add_0_r in *. rewrite (proj2 (Z.eqb_neq _ _) He).
    by destruct (_ && _).
  - pose proof (Hp 0 ltac:(lia)) as H0. rewrite Z.add_0_r in H0. rewrite H0.
    change (ESP_PARTITION_MAGIC =? ESP_PARTITION_MAGIC_MD5) with false. rewrite andb_false_r, Z.eqb_refl, heap. cbn [negb].
    assert (Ei : i + Z.of_nat (S n) = (i + 1) + Z.of_nat n) by lia. rewrite Ei in *.
    rewrite (IH n (i + 1) (next + 1)); [|lia| |done].
    + by rewrite items_of_S.
    + intros j Hj. replace (i + 1 + j) with (i + (1 + j)) by lia. apply Hp. lia.
Qed.

Lemma items_of_info m p i next n :
  info <$> items_of m p i next n = partition_of cfg <$> ((fun j => info_at m p (i + Z.of_nat j)) <$> seq 0 n).
Proof. unfold items_of. rewrite <- !list_fmap_compose. done. Qed.

(** The table of the bootloader, and what [load_partitions] makes of it. *)
Lemma load_partitions_spec (s : st) n :
  let f := ap_flash s DEFAULT_CHIP in
  let off := CONFIG_PARTITION_TABLE_OFFSET cfg in
  let m := view (cfg_encrypted cfg) f in
  fl_mmap f (Z.land off (Z.lnot (CONFIG_MMU_PAGE_SIZE cfg - 1))) SPI_FLASH_SEC_SIZE = ESP_OK ->
  esp_partition_table_verify md5 (cfg_chip_size cfg) m off = (ESP_OK, n) ->
  pi_magic (info_at m off n) <> ESP_PARTITION_MAGIC ->
  (CONFIG_PARTITION_TABLE_MD5 cfg = true -> pi_magic (info_at m off n) = ESP_PARTITION_MAGIC_MD5) ->
  let items := items_of m off 0 (ap_blocks s) (Z.to_nat n) in
  0 <= n /\ load_partitions cfg md5 malloc s = RET ESP_OK (set_list items (set_blocks (ap_blocks s + n) s)).
Proof.
  intros f off m Hmap Hv Hend Hmd5 items. apply partition_table_accepts in Hv as (k & mi & A & En).
  destruct A as ([Hk0 Hk1] & Hek & Hm & Hp).
  assert (Hn : 0 <= n <= k /\ (forall j, 0 <= j < n -> pi_magic (info_at m off j) = ESP_PARTITION_MAGIC) /\
               (pi_magic (info_at m off n) = ESP_PARTITION_MAGIC_MD5 -> stored_md5 m off n = table_md5 md5 m off n)).
  { destruct mi as [i|].
    - destruct (Hm i eq_refl) as [Hi [_ Hd]]. assert (i = n) as ->.
      { destruct (decide (i = n)) as [|Hne]; [done|]. exfalso. apply Hend.
        apply (Hp n); [lia|]. intros [= ->]. done. }
      split_and!; [lia..| |done]. intros j Hj. apply (Hp j); [lia|]. intros [= ->]. lia.
    - split_and!; [lia..| |].
      + intros j Hj. apply (Hp j); [lia|done].
      + destruct Hek as [Hek _]. rewrite En, Z.sub_0_r. rewrite Hek. done. }
  destruct Hn as (Hn & Hparts & Hdig). split; [lia|].
  unfold load_partitions. fold f off. rewrite Hmap. cbn [is_ok negb]. fold m.
  replace (Z.land off (Z.lnot (CONFIG_MMU_PAGE_SIZE cfg - 1)) + (off - Z.land off (Z.lnot (CONFIG_MMU_PAGE_SIZE cfg - 1))))
    with off by lia.
  assert (Efuel : (Z.to_nat n < Z.to_nat (SPI_FLASH_SEC_SIZE / PARTITION_INFO_SIZE))%nat).
  { change (SPI_FLASH_SEC_SIZE / PARTITION_INFO_SIZE) with 128. change ESP_PARTITION_TABLE_MAX_ENTRIES with 96 in Hk1. lia. }
  rewrite (load_loop_spec m off (Z.to_nat n) _ 0 (ap_blocks s) Efuel); rewrite ?Z.add_0_l, ?Z2Nat.id by lia; [|intros j Hj; rewrite Z.add_0_l; apply Hparts; lia|done].
  fold items. assert (El : Z.of_nat (length items) = n) by (unfold items, items_of; rewrite length_fmap, length_seq; lia).
  rewrite El. destruct (CONFIG_PARTITION_TABLE_MD5 cfg); [|done].
  rewrite (Hmd5 eq_refl), Z.eqb_refl. cbn [andb]. rewrite Hdig by (by apply Hmd5).
  rewrite bool_decide_true by done. done.
Qed.
End Load.

(** ** The application and the bootloader see the same partitions *)

Definition pos_of (p : esp_partition_t) : esp_partition_pos_t := mkPos (address p) (size p).

Abbreviation app_part st l := (List.find (wanted ESP_PARTITION_TYPE_APP st None) l).
Abbreviation ota_part j l := (app_part (ESP_PARTITION_SUBTYPE_APP_OTA_MIN + j) l).

(** The list [l] of the application and the state [bs] of the bootloader
    describe the same flash: the OTA data partition, the slots [0 .. c - 1]
    where [c] is [app_count], and the factory and test partitions. *)
Record same_partitions (enc : bool) (bs : bootloader_state_t) (l : list partition_list_item_t) : Prop := {
  sp_otadata : exists i, List.find (wanted ESP_PARTITION_TYPE_DATA ESP_PARTITION_SUBTYPE_DATA_OTA None) l = Some i /\
    pos_of (info i) = bs_ota_info bs /\ flash_chip (info i) = DEFAULT_CHIP /\ encrypted (info i) = enc;
  sp_count : 0 <= bs_app_count bs <= 16;
  sp_slot : forall j, 0 <= j < bs_app_count bs ->
    exists i, ota_part j l = Some i /\ pos_of (info i) = nth (Z.to_nat j) (bs_ota bs) no_pos;
  sp_end : forall j, bs_app_count bs <= j < 16 -> ota_part j l = None;
  sp_full : bs_app_count bs = 16 -> ota_part 16 l = None;
  sp_factory : from_option (fun i => pos_of (info i)) no_pos (app_part ESP_PARTITION_SUBTYPE_APP_FACTORY l) = bs_factory bs;
  sp_test : from_option (fun i => pos_of (info i)) no_pos (app_part ESP_PARTITION_SUBTYPE_APP_TEST l) = bs_test bs
}.

Abbreviation number P l := (length (List.filter P l)).

(** A table as the documentation wants it: one OTA data partition, the slots
    [0 .. c - 1] once each, at most one factory and one test partition. *)
Record documented_table (l : list esp_partition_info_t) (c : Z) : Prop := {
  dt_subtypes : Forall (fun e => 0 <= pi_subtype e < 256) l;
  dt_count : 0 <= c <= 16;
  dt_slots : forall j, 0 <= j < 16 -> number (is_app (PART_SUBTYPE_OTA_FLAG + j)) l = if j <? c then 1%nat else 0%nat;
  dt_factory : (number (is_app PART_SUBTYPE_FACTORY) l <= 1)%nat;
  dt_test : (number (is_app PART_SUBTYPE_TEST) l <= if Z.eqb c 16 then 0 else 1)%nat;
  dt_otadata : number is_otadata l = 1%nat
}.

Lemma number_0 {A} (P : A -> bool) l : number P l = 0%nat -> List.find P l = None.
Proof. induction l as [|e l IH]; [done|]. simpl. destruct (P e); [done|]. apply IH. Qed.

Lemma last_of_find P l d : (number P l <= 1)%nat -> last_of P l d = from_option pi_pos d (List.find P l).
Proof.
  assert (N : forall l' d', number P l' = 0%nat -> last_of P l' d' = d').
  { unfold last_of. induction l' as [|e l' IH]; intros d'; [done|]. simpl. destruct (P e); [done|]. apply IH. }
  revert d. unfold last_of in *. induction l as [|e l IH]; intros d Hn; [done|].
  simpl in *. destruct (P e); simpl in *; [|by apply IH]. apply N. lia.
Qed.

(** Counting the slots one by one. *)
Lemma number_slots l c : documented_table l c -> Z.of_nat (number is_ota_app l) = c.
Proof.
  intros [_ Hc Hs _ _ _].
  set (below := fun k e => (pi_type e =? PART_TYPE_APP) && (PART_SUBTYPE_OTA_FLAG <=? pi_subtype e)
                           && (pi_subtype e <? PART_SUBTYPE_OTA_FLAG + k)).
  assert (St : forall k l', 0 <= k -> number (below (k + 1)) l' = (number (below k) l' + number (is_app (PART_SUBTYPE_OTA_FLAG + k)%Z) l')%nat).
  { intros k l' Hk. induction l' as [|e l' IH]; [done|]. cbn [List.filter].
    assert (Eb : below (k + 1) e = below k e || is_app (PART_SUBTYPE_OTA_FLAG + k) e /\
                 (below k e = true -> is_app (PART_SUBTYPE_OTA_FLAG + k) e = false)).
    { unfold below, is_app. destruct (pi_type e =? PART_TYPE_APP); [|done]. unfold PART_SUBTYPE_OTA_FLAG. cbn [andb].
      split; repeat zcase; simpl; try done; lia. }
    destruct Eb as [-> Ed]. destruct (below k e); [rewrite Ed by done; simpl; lia|].
    destruct (is_app _ e); simpl; lia. }
  assert (Hk : forall k : nat, (k <= 16)%nat -> Z.of_nat (number (below (Z.of_nat k)) l) = Z.min (Z.of_nat k) c).
  { induction k as [|k IH]; intros Hk.
    - replace (number (below (Z.of_nat 0)) l) with 0%nat; [lia|]. symmetry.
      clear -l. induction l as [|e l IH]; [done|]. cbn [List.filter].
      replace (below (Z.of_nat 0) e) with false; [done|]. symmetry. unfold below.
      destruct (Z.leb_spec PART_SUBTYPE_OTA_FLAG (pi_subtype e)), (Z.ltb_spec (pi_subtype e) (PART_SUBTYPE_OTA_FLAG + Z.of_nat 0));
        rewrite ?andb_false_r; try done. lia.
    - rewrite Nat2Z.inj_succ, <- Z.add_1_r, St, Nat2Z.inj_add, IH, Hs by lia. zcase; lia. }
  etransitivity; [apply (Hk 16%nat); lia|lia].
Qed.

Section SameTable.
Context {F E : Type} `{FlashDev F}.
Context (cfg : part_config) (md5 : list Z -> list Z) (malloc : Z -> bool).
Context (heap : forall b, malloc b = true).

Lemma wanted_app st e : 0 <= st < 255 -> matches ESP_PARTITION_TYPE_APP st None (partition_of cfg e) = is_app st e.
Proof.
  intros Hst. unfold matches, is_app. cbn [type subtype partition_of]. unfold ESP_PARTITION_SUBTYPE_ANY, ESP_PARTITION_TYPE_APP, PART_TYPE_APP.
  rewrite (Z.eqb_sym 0 (pi_type e)), (Z.eqb_sym st (pi_subtype e)). repeat zcase; simpl; try done; lia.
Qed.

Lemma wanted_otadata e : matches ESP_PARTITION_TYPE_DATA ESP_PARTITION_SUBTYPE_DATA_OTA None (partition_of cfg e) = is_otadata e.
Proof.
  unfold matches, is_otadata. cbn [type subtype partition_of].
  rewrite (Z.eqb_sym ESP_PARTITION_TYPE_DATA), (Z.eqb_sym ESP_PARTITION_SUBTYPE_DATA_OTA).
  unfold ESP_PARTITION_TYPE_DATA, ESP_PARTITION_SUBTYPE_DATA_OTA, PART_TYPE_DATA, PART_SUBTYPE_DATA_OTA. repeat zcase; done.
Qed.

(** A search in the list is a search in the table. *)
Lemma find_info P Q l entries : info <$> l = partition_of cfg <$> entries ->
  (forall e, P (partition_of cfg e) = Q e) ->
  info <$> List.find (fun i => P (info i)) l = partition_of cfg <$> List.find Q entries.
Proof. intros El HPQ. rewrite <- find_fmap, El, find_fmap. f_equal. by apply find_ext. Qed.

Lemma find_pos P Q l entries : info <$> l = partition_of cfg <$> entries ->
  (forall e, P (partition_of cfg e) = Q e) ->
  from_option (fun i => pos_of (info i)) no_pos (List.find (fun i => P (info i)) l) = from_option pi_pos no_pos (List.find Q entries).
Proof.
  intros El HPQ. pose proof (find_info P Q l entries El HPQ) as E1.
  destruct (List.find (fun i => P (info i)) l) as [i|], (List.find Q entries) as [e|]; try done.
  simpl in *. injection E1 as ->. unfold pos_of. cbn. by destruct (pi_pos e).
Qed.

Lemma documented_same l entries c :
  info <$> l = partition_of cfg <$> entries -> documented_table entries c -> Z.of_nat (length entries) < 2 ^ 32 ->
  same_partitions (cfg_encrypted cfg) (fold_left load_entry entries bs_zero) l.
Proof.
  intros El D Hlen. pose proof (number_slots entries c D) as Hnum. destruct D as [Hsub Hc Hslots Hfac Htest Hota].
  destruct (load_table_spec entries Hsub Hlen) as (B1 & B2 & B3 & B4 & B5). rewrite Hnum in B4.
  assert (Slot : forall j, 0 <= j <= 16 ->
    from_option (fun i => pos_of (info i)) no_pos (ota_part j l) = from_option pi_pos no_pos (List.find (is_app (PART_SUBTYPE_OTA_FLAG + j)) entries) /\
    (List.find (is_app (PART_SUBTYPE_OTA_FLAG + j)) entries = None -> ota_part j l = None) /\
    (ota_part j l = None -> List.find (is_app (PART_SUBTYPE_OTA_FLAG + j)) entries = None)).
  { intros j Hj. assert (HPQ : forall e, matches ESP_PARTITION_TYPE_APP (ESP_PARTITION_SUBTYPE_APP_OTA_MIN + j) None (partition_of cfg e)
        = is_app (PART_SUBTYPE_OTA_FLAG + j) e) by (intros e; apply wanted_app; unfold ESP_PARTITION_SUBTYPE_APP_OTA_MIN, PART_SUBTYPE_OTA_FLAG; lia).
    split; [by apply (find_pos _ _ l entries El)|].
    pose proof (find_info _ _ l entries El HPQ) as E1. unfold wanted.
    destruct (List.find (fun i => matches _ _ _ (info i)) l), (List.find (is_app _) entries); done. }
  split; rewrite ?B4.
  - pose proof (find_info _ is_otadata l entries El wanted_otadata) as E1. unfold wanted.
    rewrite B3, last_of_find by lia.
    destruct (List.find is_otadata entries) as [e|] eqn:Ee.
    + destruct (List.find _ l) as [i|]; [|done]. injection E1 as E1. exists i. split; [done|]. rewrite E1.
      apply List.find_some in Ee as [_ Ee]. unfold is_otadata in Ee. apply andb_true_iff in Ee as [E2 E3].
      split_and!; [by destruct e as [? ? ? []]|done|].
      cbn [encrypted partition_of].
      unfold ESP_PARTITION_TYPE_DATA, ESP_PARTITION_SUBTYPE_DATA_OTA, PART_TYPE_DATA, PART_SUBTYPE_DATA_OTA in *.
      rewrite E2, E3. apply Z.eqb_eq in E2, E3. rewrite E2, E3. cbn [Z.eqb orb andb ESP_PARTITION_TYPE_APP ESP_PARTITION_SUBTYPE_DATA_NVS].
      rewrite !andb_false_r. by destruct (cfg_encrypted cfg).
    + exfalso. assert (number is_otadata entries = 0%nat); [|lia].
      clear -Ee. induction entries as [|e l IH]; [done|]. simpl in *. destruct (is_otadata e); [done|by apply IH].
  - lia.
  - intros j Hj. rewrite B5 by lia. specialize (Hslots j ltac:(lia)). rewrite (proj2 (Z.ltb_lt j c)) in Hslots by lia.
    rewrite last_of_find by lia. destruct (Slot j ltac:(lia)) as (Es & _ & En). rewrite <- Es.
    destruct (ota_part j l) as [i|]; [by exists i|]. exfalso. specialize (En eq_refl).
    revert Hslots En. clear. induction entries as [|e l IH]; [done|]. simpl. destruct (is_app _ e); [done|]. apply IH.
  - intros j Hj. apply (proj1 (proj2 (Slot j ltac:(lia)))), number_0.
    specialize (Hslots j ltac:(lia)). rewrite (proj2 (Z.ltb_ge j c)) in Hslots by lia. done.
  - intros ->. apply (proj1 (proj2 (Slot 16 ltac:(lia)))), number_0.
    change (PART_SUBTYPE_OTA_FLAG + 16) with PART_SUBTYPE_TEST. simpl in Htest. lia.
  - rewrite B1, last_of_find by lia. apply (find_pos _ _ l entries El). intros e. by apply wanted_app.
  - rewrite B2, last_of_find by (destruct (c =? 16); lia). apply (find_pos _ _ l entries El). intros e. by apply wanted_app.
Qed.

(** C32: For a documented table that the bootloader accepts, load_partitions
    of the application succeeds with the same entries, and both sides agree on
    the OTA data, OTA slot, factory and test partitions. *)
Theorem application_sees_bootloader_table (s : app_state F E) bs n c :
  let f := ap_flash s DEFAULT_CHIP in
  let off := CONFIG_PARTITION_TABLE_OFFSET cfg in
  let m := view (cfg_encrypted cfg) f in
  fl_mmap f (Z.land off (Z.lnot (CONFIG_MMU_PAGE_SIZE cfg - 1))) SPI_FLASH_SEC_SIZE = ESP_OK ->
  bootloader_utility_load_partition_table cfg md5 f bs_zero = (true, bs) ->
  esp_partition_table_verify md5 (cfg_chip_size cfg) m off = (ESP_OK, n) ->
  pi_magic (info_at m off n) <> ESP_PARTITION_MAGIC ->
  (CONFIG_PARTITION_TABLE_MD5 cfg = true -> pi_magic (info_at m off n) = ESP_PARTITION_MAGIC_MD5) ->
  documented_table (table_entries cfg f n) c ->
  exists s', load_partitions cfg md5 malloc s = RET ESP_OK s' /\
    same_partitions (cfg_encrypted cfg) bs (s_partition_list s') /\
    info <$> s_partition_list s' = partition_of cfg <$> table_entries cfg f n /\
    ap_flash s' = ap_flash s.
Proof.
  intros f off m Hmap Hboot Hv Hend Hmd5 Hdoc.
  destruct (load_partitions_spec cfg md5 malloc heap s n Hmap Hv Hend Hmd5) as [Hn Hl].
  eexists. split; [exact Hl|]. cbn [s_partition_list set_list ap_flash set_blocks].
  assert (Ei : info <$> items_of cfg m off 0 (ap_blocks s) (Z.to_nat n) = partition_of cfg <$> table_entries cfg f n)
    by (rewrite items_of_info; do 2 f_equal).
  split_and!; [|done..].
  apply partition_table_accepts in Hv as Hacc. destruct Hacc as (k & mi & ([_ Hk] & _) & En).
  change ESP_PARTITION_TABLE_MAX_ENTRIES with 96 in Hk.
  revert Hboot. unfold bootloader_utility_load_partition_table. destruct (is_ok _); [|done].
  unfold boot_view. fold f off m. rewrite Hv. cbn [is_ok]. intros [= <-].
  apply (documented_same _ _ c Ei Hdoc). unfold table_entries. rewrite length_fmap, length_seq. destruct mi; lia.
Qed.
End SameTable.

(** ** External partitions *)

Definition part_end (p : esp_partition_t) : Z := address p + size p.

(** Regions on the same chip do not overlap. *)
Definition apart (p q : esp_partition_t) : Prop :=
  flash_chip p = flash_chip q -> part_end p <= address q \/ part_end q <= address p.

#[export] Instance apart_dec p q : Decision (apart p q).
Proof. unfold apart. apply _. Defined.

(** A region of positive size in the first 2 GiB. *)
Definition region_ok (p : esp_partition_t) : Prop := 0 <= address p /\ 0 < size p /\ part_end p < 2 ^ 31.

Lemma ordpairs_snoc {A} (R : A -> A -> Prop) l x :
  ForallOrdPairs R l -> Forall (fun y => R y x) l -> ForallOrdPairs R (l ++ [x]).
Proof.
  induction 1 as [|a l Ha Hl IH]; intros Hx; simpl.
  - constructor; [constructor|constructor].
  - apply Forall_cons_iff in Hx as [Hax Hx]. constructor; [|by apply IH].
    apply Forall_app. split; [done|]. by constructor.
Qed.

Section External.
Context {F E : Type} `{FlashDev F}.
Context (cfg : part_config) (md5 : list Z -> list Z) (malloc : Z -> bool) (chip_size : Z -> Z).
Abbreviation st := (app_state F E).

(** The invariant of the list: proper regions that do not overlap, items at
    different addresses. *)
Record list_ok (s : st) : Prop := {
  lo_region : Forall (fun i => region_ok (info i)) (s_partition_list s);
  lo_apart : ForallOrdPairs (fun i j => apart (info i) (info j)) (s_partition_list s);
  lo_ids : NoDup (item_id <$> s_partition_list s);
  lo_fresh : Forall (fun i => item_id i < ap_blocks s) (s_partition_list s)
}.

Lemma overlaps_spec new l : Forall (fun i => region_ok (info i)) l -> region_ok new ->
  exists b, overlaps (flash_chip new) (address new) (size new) l = Some b /\
    (if b then exists i, List.In i l /\ ~ apart (info i) new else Forall (fun i => apart (info i) new) l).
Proof.
  intros Hl (Hn1 & Hn2 & Hn3). unfold part_end in *. induction l as [|i l IH]; [by exists false|].
  apply Forall_cons_iff in Hl as [(Hi1 & Hi2 & Hi3) Hl]. unfold part_end in *. cbn [overlaps].
  assert (Eo : exists o, (if flash_chip (info i) =? flash_chip new then
      bootloader_util_regions_overlap (address new) (u32 (address new + size new)) (address (info i)) (u32 (address (info i) + size (info i)))
      else Some false) = Some o /\ (if o then ~ apart (info i) new else apart (info i) new)).
  { unfold apart, part_end, bootloader_util_regions_overlap. rewrite !u32_small, !i32_small by lia.
    destruct (Z.eqb_spec (flash_chip (info i)) (flash_chip new)) as [Ec|Ec]; [|by exists false].
    rewrite (proj2 (Z.ltb_lt (address new) _)), (proj2 (Z.ltb_lt (address (info i)) _)) by lia. cbn [negb].
    eexists. split; [done|]. repeat zcase; cbn [andb]; lia. }
  destruct Eo as (o & -> & Ho). destruct o.
  - exists true. split; [done|]. exists i. split; [by left|done].
  - destruct (IH Hl) as (b & -> & Hb). exists b. split; [done|]. destruct b; [|by constructor].
    destruct Hb as (j & Hj & Hna). exists j. split; [by right|done].
Qed.

Lemma deregister_last l item : (forall i, List.In i l -> item_id i <> item_id item) -> user_registered item = true ->
  deregister (item_id item) (l ++ [item]) = (ESP_OK, l).
Proof.
  intros Hl Hu. induction l as [|i l IH]; cbn [deregister app].
  - by rewrite Z.eqb_refl, Hu.
  - rewrite (proj2 (Z.eqb_neq _ _) (Hl i (or_introl eq_refl))), IH; [done|]. intros j Hj. apply Hl. by right.
Qed.

(** esp_partition_register_external keeps the partitions of a chip
    disjoint: it refuses regions outside the chip and regions that overlap,
    otherwise appends the partition, and esp_partition_deregister_external
    then restores the list. *)
Theorem register_external_spec (s : st) chip offset sz lbl ty sub :
  list_ok s -> s_partition_list s <> [] -> malloc (ap_blocks s) = true ->
  0 <= offset -> 0 < sz -> offset + sz < 2 ^ 32 -> chip_size chip < 2 ^ 31 ->
  let new := mkPart chip offset sz 0 ty sub (strncpy 16 lbl) false in
  exists r s', esp_partition_register_external cfg md5 malloc chip_size chip offset sz lbl ty sub s = RET r s' /\
    list_ok s' /\
    ((r = (ESP_ERR_INVALID_SIZE, None) /\ chip_size chip < offset + sz /\ s' = s) \/
     (r = (ESP_ERR_INVALID_ARG, None) /\ s_partition_list s' = s_partition_list s /\
      exists i, List.In i (s_partition_list s) /\ ~ apart (info i) new) \/
     (exists item, r = (ESP_OK, Some item) /\ info item = new /\
        s_partition_list s' = s_partition_list s ++ [item] /\
        exists s'', esp_partition_deregister_external (item_id item) s' = RET ESP_OK s'' /\
          s_partition_list s'' = s_partition_list s)).
Proof.
  intros Hok Hne Hm Ho Hs Hov Hchip new. unfold esp_partition_register_external.
  rewrite u32_small by lia. destruct (Z.ltb_spec (chip_size chip) (offset + sz)) as [Hbig|Hfit].
  { exists (ESP_ERR_INVALID_SIZE, None), s. split; [done|]. split; [done|]. by left. }
  assert (El : ensure_partitions_loaded cfg md5 malloc s = RET ESP_OK s)
    by (unfold ensure_partitions_loaded; destruct (s_partition_list s); done).
  rewrite (bind_RET _ _ _ _ _ El). cbn [is_ok negb]. rewrite Hm. cbn [negb s_partition_list set_blocks].
  assert (Hr : region_ok new) by (unfold region_ok, part_end; simpl; lia).
  destruct Hok as [L1 L2 L3 L4].
  assert (Hfresh : forall b, Forall (fun i => item_id i < ap_blocks s) b -> Forall (fun i => item_id i < ap_blocks s + 1) b)
    by (intros b; apply Forall_impl; lia).
  destruct (overlaps_spec new (s_partition_list s) L1 Hr) as (b & Eb & Hb). cbn [flash_chip address size new] in Eb.
  rewrite Eb. destruct b.
  - eexists _, _. split; [done|]. split; [split; simpl; by auto|]. right; left. by split_and!.
  - set (item := mkItem (ap_blocks s) new true). eexists _, _. split; [done|].
    assert (Hids : forall i, List.In i (s_partition_list s) -> item_id i <> item_id item).
    { intros i Hi. rewrite Forall_forall in L4. specialize (L4 i Hi). simpl. lia. }
    split.
    + split; cbn [s_partition_list set_list set_blocks ap_blocks].
      * apply Forall_app. split; [done|]. by constructor.
      * by apply ordpairs_snoc.
      * rewrite fmap_app. apply list.NoDup_app. split_and!; [done| |by apply NoDup_singleton].
        intros x Hx Hx'. apply list_elem_of_fmap in Hx as (i & -> & Hi). apply list_elem_of_singleton in Hx'.
        apply (Hids i); [by apply list_elem_of_In|done].
      * apply Forall_app. split; [by apply Hfresh|]. constructor; [simpl; lia|done].
    + right; right. exists item. split_and!; [done..|].
      pose proof (deregister_last (s_partition_list s) item Hids eq_refl) as D.
      unfold esp_partition_deregister_external. cbn [s_partition_list set_list set_blocks].
      fold new. fold item. rewrite D. by eexists.
Qed.
End External.

(** ** Access to a partition *)

(** The address of a mapping. *)
Lemma land_split a m : Z.land a (Z.lnot m) + Z.land a m = a.
Proof.
  rewrite Z.add_nocarry_lxor.
  - apply Z.bits_inj'. intros j Hj. rewrite Z.lxor_spec, !Z.land_spec, Z.lnot_spec by done.
    by destruct (Z.testbit a j), (Z.testbit m j).
  - apply Z.bits_inj'. intros j Hj. rewrite !Z.land_spec, Z.lnot_spec, Z.testbit_0_l by done.
    by destruct (Z.testbit a j), (Z.testbit m j).
Qed.

Section Access.
Context {F E : Type} `{FlashLaws F}.
Context (cfg : part_config).
Abbreviation st := (app_state F E).

(** Only flash of the partition [p] differs. *)
Record stays_in (p : esp_partition_t) (s s' : st) : Prop := {
  si_chip : only_changes (address p) (size p) (ap_flash s (flash_chip p)) (ap_flash s' (flash_chip p));
  si_other : forall c, c <> flash_chip p -> ap_flash s' c = ap_flash s c;
  si_efuse : ap_efuse s' = ap_efuse s;
  si_blocks : ap_blocks s' = ap_blocks s;
  si_list : s_partition_list s' = s_partition_list s;
  si_entries : s_ota_ops_entries s' = s_ota_ops_entries s;
  si_handle : s_ota_ops_last_handle s' = s_ota_ops_last_handle s;
  si_curr : curr_partition s' = curr_partition s
}.

Lemma stays_in_refl p s : stays_in p s s.
Proof. by split. Qed.

Lemma on_chip_spec p op (s : st) :
  (forall f, only_changes (address p) (size p) f (op f).2) ->
  exists s', on_chip p op s = RET (op (ap_flash s (flash_chip p))).1 s' /\ stays_in p s s' /\
    ap_flash s' (flash_chip p) = (op (ap_flash s (flash_chip p))).2.
Proof.
  intros Hop. unfold on_chip. pose proof (Hop (ap_flash s (flash_chip p))) as Hc.
  destruct (op (ap_flash s (flash_chip p))) as [err f]. eexists. split; [done|].
  cbn [fst snd] in *. cbn [ap_flash set_chip]. rewrite Z.eqb_refl. split; [|done]. split; cbn [ap_flash set_chip]; try done.
  - by rewrite Z.eqb_refl.
  - intros c Hc'. by rewrite (proj2 (Z.eqb_neq _ _) Hc').
Qed.

(** A partition within the address space. *)
Definition addressable (p : esp_partition_t) : Prop := 0 <= address p /\ 0 <= size p /\ part_end p < 2 ^ 32.

Lemma range_check_None p off n : 0 <= off -> 0 <= n -> off + n < 2 ^ 32 ->
  range_check p off n = None <-> off + n <= size p.
Proof.
  intros. unfold range_check. rewrite u32_small by lia. repeat zcase; split; intros; try done; lia.
Qed.

Lemma write_frame p enc off src : addressable p -> 0 <= off -> off + Z.of_nat (length src) <= size p ->
  forall f, only_changes (address p) (size p) f (fl_write enc f (u32 (address p + off)) src).2.
Proof.
  intros (? & ? & ?) ?? f. unfold part_end in *. rewrite u32_small by lia.
  apply (only_changes_wider _ _ _ _ _ _ (law_write_frame enc f _ src)); lia.
Qed.

Lemma erase_frame p off n : addressable p -> 0 <= off -> 0 <= n -> off + n <= size p ->
  forall f, only_changes (address p) (size p) f (fl_erase f (u32 (address p + off)) n).2.
Proof.
  intros (? & ? & ?) ??? f. unfold part_end in *. rewrite u32_small by lia.
  apply (only_changes_wider _ _ _ _ _ _ (law_erase_frame f _ n)); lia.
Qed.

(** A write that succeeds is one of the driver, at the right address and
    with the right encryption. *)
Lemma partition_write_spec p off src (s : st) :
  addressable p -> 0 <= off -> off + Z.of_nat (length src) < 2 ^ 32 ->
  exists err s', esp_partition_write cfg p off src s = RET err s' /\ stays_in p s s' /\
    (err = ESP_OK -> off + Z.of_nat (length src) <= size p /\
       fl_write (encrypted p) (ap_flash s (flash_chip p)) (address p + off) src = (ESP_OK, ap_flash s' (flash_chip p))).
Proof.
  intros Ha Ho Hn. pose proof (range_check_None p off (Z.of_nat (length src)) Ho ltac:(lia) Hn) as Hr.
  unfold esp_partition_write. destruct (range_check p off _) as [e|] eqn:Ee.
  { exists e, s. split; [done|]. split; [apply stays_in_refl|]. unfold range_check in Ee. repeat case_match; simplify_eq; done. }
  assert (Hin : off + Z.of_nat (length src) <= size p) by by apply Hr.
  assert (Ea : u32 (address p + off) = address p + off) by (destruct Ha as (? & ? & ?); unfold part_end in *; apply u32_small; lia).
  assert (Go : forall enc, exists s', on_chip p (fun f => fl_write enc f (u32 (address p + off)) src) s =
      RET (fl_write enc (ap_flash s (flash_chip p)) (u32 (address p + off)) src).1 s' /\ stays_in p s s' /\
      ap_flash s' (flash_chip p) = (fl_write enc (ap_flash s (flash_chip p)) (u32 (address p + off)) src).2).
  { intros enc. by apply (on_chip_spec p (fun f => fl_write enc f (u32 (address p + off)) src)), write_frame. }
  destruct (encrypted p); cbn [negb].
  - destruct (CONFIG_SPI_FLASH_ENABLE_ENCRYPTED_READ_WRITE cfg);
      [destruct (flash_chip p =? DEFAULT_CHIP); cbn [negb]|].
    + destruct (Go true) as (s' & G1 & G2 & G3). eexists _, s'. split; [exact G1|]. split; [done|].
      intros E1. rewrite Ea in *. split; [done|]. rewrite G3, <- E1. by destruct (fl_write true _ _ _).
    + eexists _, s. split; [done|]. split; [apply stays_in_refl|done].
    + eexists _, s. split; [done|]. split; [apply stays_in_refl|done].
  - destruct (Go false) as (s' & G1 & G2 & G3). eexists _, s'. split; [exact G1|]. split; [done|].
    intros E1. rewrite Ea in *. split; [done|]. rewrite G3, <- E1. by destruct (fl_write false _ _ _).
Qed.

Lemma partition_erase_spec p off n (s : st) :
  addressable p -> 0 <= off -> 0 <= n -> off + n < 2 ^ 32 ->
  exists err s', esp_partition_erase_range p off n s = RET err s' /\ stays_in p s s' /\
    (err = ESP_OK -> off + n <= size p /\ n mod SPI_FLASH_SEC_SIZE = 0 /\ off mod SPI_FLASH_SEC_SIZE = 0 /\
       fl_erase (ap_flash s (flash_chip p)) (address p + off) n = (ESP_OK, ap_flash s' (flash_chip p))).
Proof.
  intros Ha Ho Hn0 Hn. pose proof (range_check_None p off n Ho Hn0 Hn) as Hr.
  unfold esp_partition_erase_range. destruct (range_check p off _) as [e|] eqn:Ee.
  { exists e, s. split; [done|]. split; [apply stays_in_refl|]. unfold range_check in Ee. repeat case_match; simplify_eq; done. }
  destruct (Z.eqb_spec (n mod SPI_FLASH_SEC_SIZE) 0) as [E1|E1]; cbn [negb];
    [|eexists _, s; split; [done|]; split; [apply stays_in_refl|done]].
  destruct (Z.eqb_spec (off mod SPI_FLASH_SEC_SIZE) 0) as [E2|E2]; cbn [negb];
    [|eexists _, s; split; [done|]; split; [apply stays_in_refl|done]].
  assert (Hin : off + n <= size p) by by apply Hr.
  assert (Ea : u32 (address p + off) = address p + off) by (destruct Ha as (? & ? & ?); unfold part_end in *; apply u32_small; lia).
  destruct (on_chip_spec p (fun f => fl_erase f (u32 (address p + off)) n) s) as (s' & G1 & G2 & G3);
    [by apply erase_frame|].
  eexists _, s'. split; [exact G1|]. split; [done|]. intros E3. rewrite Ea in *. split_and!; [done..|].
  cbn beta in *. rewrite G3, <- E3. by destruct (fl_erase _ _ _).
Qed.

(** C33: When offset and size do not overflow 32 bits, writes and erases
    change only flash bytes of the partition and no other state, and a range
    that leaves the partition is refused. *)
Theorem partition_access_in_bounds p off src n (s : st) :
  addressable p -> 0 <= off -> 0 <= n -> off + n < 2 ^ 32 -> Z.of_nat (length src) = n ->
  (exists err s', esp_partition_write cfg p off src s = RET err s' /\ stays_in p s s' /\ (size p < off + n -> err <> ESP_OK)) /\
  (exists err s', esp_partition_write_raw p off src s = RET err s' /\ stays_in p s s' /\ (size p < off + n -> err <> ESP_OK)) /\
  (exists err s', esp_partition_erase_range p off n s = RET err s' /\ stays_in p s s' /\ (size p < off + n -> err <> ESP_OK)).
Proof.
  intros Ha Ho Hn0 Hn Hlen. subst n. split_and!.
  - destruct (partition_write_spec p off src s Ha Ho Hn) as (err & s' & E1 & E2 & E3). exists err, s'.
    split_and!; [done..|]. intros Hbig ->. destruct E3; [done|lia].
  - pose proof (range_check_None p off (Z.of_nat (length src)) Ho ltac:(lia) Hn) as Hr.
    unfold esp_partition_write_raw. destruct (range_check p off _) as [e|] eqn:Ee.
    { exists e, s. split; [done|]. split; [apply stays_in_refl|]. intros _ ->. unfold range_check in Ee. repeat case_match; done. }
    destruct (on_chip_spec p (fun f => fl_write false f (u32 (address p + off)) src) s) as (s' & G1 & G2 & _);
      [by apply write_frame; [..|apply Hr]|].
    eexists _, s'. split; [exact G1|]. split; [done|]. intros Hbig. exfalso. pose proof (proj1 Hr eq_refl). lia.
  - destruct (partition_erase_spec p off (Z.of_nat (length src)) s Ha Ho Hn0 Hn) as (err & s' & E1 & E2 & E3). exists err, s'.
    split_and!; [done..|]. intros Hbig ->. destruct E3; [done|lia].
Qed.

(** Reading gives the contents of the flash, decrypted for an encrypted
    partition. *)
Lemma partition_read_spec p off n (s : st) bs s' :
  addressable p -> (encrypted p = true -> cfg_encrypted cfg = true) -> 0 <= off -> 0 <= n -> off + n < 2 ^ 32 ->
  esp_partition_read cfg p off n s = RET (ESP_OK, bs) s' ->
  s' = s /\ bs = read_bytes (view (encrypted p) (ap_flash s (flash_chip p))) (address p + off) (Z.to_nat n).
Proof.
  intros Ha Henc Ho Hn0 Hn. pose proof (range_check_None p off n Ho Hn0 Hn) as Hr.
  unfold esp_partition_read. destruct (range_check p off n) as [e|] eqn:Ee.
  { unfold range_check in Ee. intros [= ->]. repeat case_match; done. }
  assert (Ea : u32 (address p + off) = address p + off).
  { destruct Ha as (? & ? & ?). unfold part_end in *. pose proof (proj1 Hr eq_refl). apply u32_small. lia. }
  rewrite Ea. destruct (encrypted p); cbn [negb].
  - destruct (CONFIG_SPI_FLASH_ENABLE_ENCRYPTED_READ_WRITE cfg); [|done].
    destruct (Z.eqb_spec (flash_chip p) DEFAULT_CHIP) as [Ec|]; cbn [negb]; [|done].
    unfold mbind, M_bind, esp_partition_mmap. rewrite Ee, Ec, Z.eqb_refl. cbn [negb]. rewrite Ea, land_split.
    match goal with |- context [is_ok ?e] => destruct (is_ok_spec e) as [|Hno] end; cbn [negb];
      [|intros [= Hok ?]; by rewrite Hok in Hno].
    unfold gets. intros [= <- <-]. split; [done|]. unfold mapped. by rewrite (Henc eq_refl).
  - unfold gets. intros [= E1 <-]. split; [done|]. by apply law_read in E1.
Qed.

(** C34: What is written to an erased range of a partition, encrypted or not,
    is what a later read of the range returns. *)
Theorem partition_write_read p off src bs (s s1 s2 s3 : st) n :
  addressable p -> (encrypted p = true -> cfg_encrypted cfg = true) ->
  0 <= off -> off + n < 2 ^ 32 -> Z.of_nat (length src) <= n ->
  esp_partition_erase_range p off n s = RET ESP_OK s1 ->
  esp_partition_write cfg p off src s1 = RET ESP_OK s2 ->
  esp_partition_read cfg p off (Z.of_nat (length src)) s2 = RET (ESP_OK, bs) s3 ->
  bs = src.
Proof.
  intros Ha Henc Ho Hn Hlen He Hw Hr.
  destruct (partition_erase_spec p off n s Ha Ho ltac:(lia) Hn) as (? & ? & He' & _ & He2). rewrite He in He'. injection He' as <- <-.
  destruct (He2 eq_refl) as (_ & _ & _ & Hfe). apply law_erase in Hfe.
  destruct (partition_write_spec p off src s1 Ha Ho ltac:(lia)) as (? & ? & Hw' & _ & Hw2). rewrite Hw in Hw'. injection Hw' as <- <-.
  destruct (Hw2 eq_refl) as [_ Hfw]. apply law_write in Hfw; [|intros x Hx; apply Hfe; lia].
  destruct (partition_read_spec p off (Z.of_nat (length src)) s2 bs s3 Ha Henc Ho ltac:(lia) ltac:(lia) Hr) as [_ ->].
  by rewrite Nat2Z.id.
Qed.
End Access.

(** [offset + size] is a 32-bit sum: a range behind the end of the partition
    passes the check when the sum wraps around. *)
Lemma range_check_wraps :
  let p := mkPart DEFAULT_CHIP 0x10000 0x1000 0x1000 1 2 [] false in
  range_check p 0x1000 0xFFFFF000 = None /\ size p < 0x1000 + 0xFFFFF000.
Proof. done. Qed.

(** An external partition reports an erase size of zero. *)
Lemma external_erase_size :
  let malloc := fun _ : Z => true in
  let s := mkApp (F := nor) (E := unit) (fun _ => mkNor (fun _ => 0xFF) 0x400000) tt 1
             [mkItem 0 (mkPart DEFAULT_CHIP 0x10000 0x1000 0x1000 1 2 [] false) false] [] 0 None in
  exists item s', esp_partition_register_external
      (mkPcfg (mkCfg false false false false 0x8000 32 0x400000 false) true false true 0x10000) (fun _ => []) malloc
      (fun _ => 0x200000) 1 0 0x100000 [65] 1 2 s = RET (ESP_OK, Some item) s' /\ erase_size (info item) = 0.
Proof. vm_compute. by eexists _, _. Qed.

(** ** Examples *)

Definition ex_pcfg : part_config := mkPcfg ex_cfg true false true 0x10000.
Definition ex_md5 (_ : list Z) : list Z := repeat 0 16.
Definition ex_heap (_ : Z) : bool := true.
Definition ex_item (id ty sub addr sz : Z) : partition_list_item_t :=
  mkItem id (mkPart DEFAULT_CHIP addr sz 0x1000 ty sub [] false) false.
Definition ex_list : list partition_list_item_t :=
  [ex_item 0 1 0 0xd000 0x2000; ex_item 1 0 0x10 0x10000 0x100000; ex_item 2 0 0x11 0x110000 0x100000].
Definition ex_app : app_state nor Z := mkApp (fun _ => ex_nor) 0 3 ex_list [] 0 None.

Lemma ex_loaded : loaded ex_heap ex_app.
Proof. split; [done| |done]. by apply (bool_decide_unpack (NoDup [0; 1; 2])). Qed.

Lemma partition_iteration_complete_witness : exists it,
  esp_partition_find ex_pcfg ex_md5 ex_heap ESP_PARTITION_TYPE_APP ESP_PARTITION_SUBTYPE_ANY None ex_app = RET it ex_app /\
  collect 4 it ex_app = RET [ex_item 1 0 0x10 0x10000 0x100000; ex_item 2 0 0x11 0x110000 0x100000] ex_app.
Proof.
  exact (partition_iteration_complete ex_pcfg ex_md5 ex_heap ex_app ESP_PARTITION_TYPE_APP ESP_PARTITION_SUBTYPE_ANY None
    ex_loaded (or_intror eq_refl)).
Defined.

(** A flash with a partition table of three entries and a checksum entry. *)
Definition ex_table_bytes : list Z :=
  entry_bytes ESP_PARTITION_MAGIC 1 0 0xd000 0x2000 0 ++ entry_bytes ESP_PARTITION_MAGIC 0 0x10 0x10000 0x100000 0 ++
  entry_bytes ESP_PARTITION_MAGIC 0 0x11 0x110000 0x100000 0 ++ ([0xEB; 0xEB] ++ repeat 0xFF 14 ++ repeat 0 16).
Definition ex_image : nor := mkNor (memcpy (fun _ => 0xFF) 0x8000 ex_table_bytes) 0x400000.
Definition ex_start : app_state nor Z := mkApp (fun _ => ex_image) 0 0 [] [] 0 None.

Lemma ex_slots_16 (P : Z -> Prop) : Forall P (Z.of_nat <$> seq 0 16) -> forall j, 0 <= j < 16 -> P j.
Proof.
  rewrite Forall_forall. intros HP j Hj. apply HP. apply in_map_iff. exists (Z.to_nat j). split; [lia|]. apply in_seq. lia.
Qed.

Lemma ex_documented : documented_table (table_entries ex_pcfg ex_image 3) 2.
Proof.
  split.
  - vm_compute. repeat constructor; discriminate.
  - lia.
  - apply ex_slots_16. vm_compute. repeat constructor.
  - vm_compute. lia.
  - vm_compute. lia.
  - vm_compute. done.
Qed.

Lemma application_sees_bootloader_table_witness : exists s' bs,
  bootloader_utility_load_partition_table ex_pcfg ex_md5 ex_image bs_zero = (true, bs) /\
  load_partitions ex_pcfg ex_md5 ex_heap ex_start = RET ESP_OK s' /\
  same_partitions false bs (s_partition_list s').
Proof.
  set (bs := (bootloader_utility_load_partition_table ex_pcfg ex_md5 ex_image bs_zero).2).
  assert (Eb : bootloader_utility_load_partition_table ex_pcfg ex_md5 ex_image bs_zero = (true, bs)) by (vm_compute; reflexivity).
  destruct (application_sees_bootloader_table ex_pcfg ex_md5 ex_heap (fun _ => eq_refl) ex_start bs 3 2) as (s' & R1 & R2 & _).
  - vm_compute. reflexivity.
  - exact Eb.
  - vm_compute. reflexivity.
  - vm_compute. discriminate.
  - vm_compute. reflexivity.
  - exact ex_documented.
  - exists s', bs. split; [exact Eb|]. split; [exact R1|exact R2].
Defined.

Lemma ex_list_ok : list_ok ex_app.
Proof.
  split.
  - repeat constructor; vm_compute; (discriminate || reflexivity).
  - repeat first [apply FOP_nil | apply FOP_cons | apply List.Forall_nil | apply List.Forall_cons];
      intros _; vm_compute; first [left; discriminate | right; discriminate].
  - apply (ld_ids _ _ ex_loaded).
  - repeat constructor; vm_compute; reflexivity.
Qed.

Lemma register_external_spec_witness :
  exists r s', esp_partition_register_external ex_pcfg ex_md5 ex_heap (fun _ => 0x800000) 1 0 0x100000 [65] 1 2 ex_app = RET r s' /\
    list_ok s'.
Proof.
  destruct (register_external_spec ex_pcfg ex_md5 ex_heap (fun _ => 0x800000) ex_app 1 0 0x100000 [65] 1 2) as (r & s' & R1 & R2 & _).
  - exact ex_list_ok.
  - discriminate.
  - reflexivity.
  - lia.
  - lia.
  - lia.
  - lia.
  - exists r, s'. split; [exact R1|exact R2].
Defined.

Definition ex_part : esp_partition_t := mkPart DEFAULT_CHIP 0x110000 0x100000 0x1000 0 0x11 [] false.

Lemma ex_addressable : addressable ex_part.
Proof. unfold addressable, part_end. simpl. lia. Qed.

Lemma partition_access_in_bounds_witness :
  exists err s', esp_partition_write ex_pcfg ex_part 0xFFFFE [1; 2; 3] ex_app = RET err s' /\ stays_in ex_part ex_app s' /\ err <> ESP_OK.
Proof.
  destruct (partition_access_in_bounds ex_pcfg ex_part 0xFFFFE [1; 2; 3] 3 ex_app ex_addressable) as [(err & s' & R1 & R2 & R3) _].
  - lia.
  - lia.
  - lia.
  - reflexivity.
  - exists err, s'. split; [exact R1|]. split; [exact R2|]. apply R3. vm_compute. reflexivity.
Defined.

Definition ex_result {S A} (o : outcome S A) (d : S) : S := match o with RET _ s => s | _ => d end.
Definition ex_value {S A} (o : outcome S A) : option A := match o with RET a _ => Some a | _ => None end.

Lemma ex_ret {S A} (o : outcome S A) a d : ex_value o = Some a -> o = RET a (ex_result o d).
Proof. destruct o; by intros [= ->]. Qed.

Definition ex_erased : app_state nor Z := ex_result (esp_partition_erase_range ex_part 0 0x1000 ex_app) ex_app.
Definition ex_written : app_state nor Z := ex_result (esp_partition_write ex_pcfg ex_part 0 [1; 2; 3] ex_erased) ex_app.

Lemma partition_write_read_witness :
  exists bs s', esp_partition_read ex_pcfg ex_part 0 3 ex_written = RET (ESP_OK, bs) s' /\ bs = [1; 2; 3].
Proof.
  eexists _, (ex_result _ ex_app). split; [apply ex_ret; vm_compute; reflexivity|].
  refine (partition_write_read ex_pcfg ex_part 0 [1; 2; 3] _ ex_app ex_erased ex_written (ex_result _ ex_app) 0x1000
    ex_addressable _ _ _ _ _ _ (ex_ret (esp_partition_read ex_pcfg ex_part 0 3 ex_written) _ ex_app _)).
  - discriminate.
  - lia.
  - lia.
  - simpl. lia.
  - apply ex_ret. vm_compute. reflexivity.
  - apply ex_ret. vm_compute. reflexivity.
  - vm_compute. reflexivity.
Defined.
