(* ===== verification/OtaOps.v ===== *)
(** * Over-the-air updates

    components/app_update/esp_ota_ops.c.  Image verification
    (esp_image_format.c) is the parameter [image_verify]; [phys_offs] is the
    flash address of the running code, [spi_flash_cache2phys] of
    [esp_ota_get_running_partition]. *)

From S2P Require Import Prelude CMem Flash OtaData PartitionTable SecureVersion Bootloader Partitions.

Definition OTA_SIZE_UNKNOWN : Z := 0xffffffff.
Definition OTA_WITH_SEQUENTIAL_WRITES : Z := 0xfffffffe.
Definition ESP_IMAGE_HEADER_MAGIC : Z := 0xE9.
Definition SPI_FLASH_CACHE2PHYS_FAIL : Z := UINT32_MAX.
Definition SUB_TYPE_ID (i : Z) : Z := Z.land i 0x0F.

(** The C expression [(~i) & 1]. *)
Definition other_copy (i : Z) : Z := Z.land (Z.lnot i) 1.

Definition is_ota_partition (p : esp_partition_t) : bool :=
  (type p =? ESP_PARTITION_TYPE_APP) && (ESP_PARTITION_SUBTYPE_APP_OTA_0 <=? subtype p)
  && (subtype p <? ESP_PARTITION_SUBTYPE_APP_OTA_MAX).

(** The loop of [esp_rewrite_ota_data] that looks for the new sequence
    number; [i] has [2 ^ 32] values, so a loop that is longer does not end. *)
Definition next_seq (seq subtype_id ota_app_count : Z) : option Z :=
  let value i := u32 ((subtype_id + 1) mod ota_app_count + u32 (i * ota_app_count)) in
  match loop_pos (fun i => if value i <? seq then inl (u32 (i + 1)) else inr i) (2 ^ 32) 0 with
  | inl _ => None
  | inr i => Some (value i)
  end.

(** The list of open updates: the entry of a handle, the list with that entry
    changed, the list without it. *)
Definition get_ota_ops_entry (h : Z) (l : list ota_ops_entry_t) : option ota_ops_entry_t :=
  List.find (fun it => handle it =? h) l.

Fixpoint store_entry (it : ota_ops_entry_t) (l : list ota_ops_entry_t) : list ota_ops_entry_t :=
  match l with
  | [] => []
  | e :: l => if handle e =? handle it then it :: l else e :: store_entry it l
  end.

Fixpoint remove_entry (h : Z) (l : list ota_ops_entry_t) : list ota_ops_entry_t :=
  match l with
  | [] => []
  | e :: l => if handle e =? h then l else e :: remove_entry h l
  end.

(** [memcpy(dst + at, src, length src)] within an array. *)
Definition blit (dst : list Z) (at_ : nat) (src : list Z) : list Z :=
  take at_ dst ++ src ++ drop (at_ + length src) dst.

Section OtaOps.
Context {F E : Type} `{FlashDev F} `{EfuseDev E}.
Context (cfg : part_config) (md5 : list Z -> list Z) (malloc : Z -> bool).
(** [esp_image_verify(mode, pos, &data) == ESP_OK] *)
Context (image_verify : F -> esp_partition_pos_t -> bool).
Context (phys_offs : Z).

Abbreviation st := (app_state F E).
Abbreviation esp_partition_find := (esp_partition_find cfg md5 malloc).
Abbreviation esp_partition_find_first := (esp_partition_find_first cfg md5 malloc).
Abbreviation esp_partition_verify := (esp_partition_verify cfg md5 malloc).
Abbreviation item := partition_list_item_t.

Definition set_entries (l : list ota_ops_entry_t) (s : st) : st :=
  mkApp (ap_flash s) (ap_efuse s) (ap_blocks s) (s_partition_list s) l (s_ota_ops_last_handle s) (curr_partition s).
Definition set_last_handle (h : Z) (s : st) : st :=
  mkApp (ap_flash s) (ap_efuse s) (ap_blocks s) (s_partition_list s) (s_ota_ops_entries s) h (curr_partition s).
Definition set_curr (c : option item) (s : st) : st :=
  mkApp (ap_flash s) (ap_efuse s) (ap_blocks s) (s_partition_list s) (s_ota_ops_entries s) (s_ota_ops_last_handle s) c.
Definition set_ap_efuse (e : E) (s : st) : st :=
  mkApp (ap_flash s) e (ap_blocks s) (s_partition_list s) (s_ota_ops_entries s) (s_ota_ops_last_handle s) (curr_partition s).

(** The partition and [two_otadata]. *)
Definition read_otadata : M st (option (item * (esp_ota_select_entry_t * esp_ota_select_entry_t))) :=
  otadata_partition ← esp_partition_find_first ESP_PARTITION_TYPE_DATA ESP_PARTITION_SUBTYPE_DATA_OTA None;
  match otadata_partition with
  | None => mret None
  | Some p =>
      r ← esp_partition_mmap cfg (info p) 0 (size (info p));
      let '(err, result) := r in
      if negb (is_ok err) then mret None
      else gets (fun s => Some (p,
        (decode_entry (read_bytes (mapped cfg s) result SELECT_ENTRY_SIZE),
         decode_entry (read_bytes (mapped cfg s) (result + SPI_FLASH_SEC_SIZE) SELECT_ENTRY_SIZE))))
  end.

Definition image_validate (partition : esp_partition_t) : M st esp_err_t :=
  ok ← gets (fun s => image_verify (ap_flash s DEFAULT_CHIP) (mkPos (address partition) (size partition)));
  mret (if negb ok then ESP_ERR_OTA_VALIDATE_FAILED else ESP_OK).

Definition set_new_state_otadata : Z :=
  if CONFIG_BOOTLOADER_APP_ROLLBACK_ENABLE cfg then ESP_OTA_IMG_NEW else ESP_OTA_IMG_UNDEFINED.

(** ** Which partition *)

Fixpoint count_loop (fuel : nat) (ota_app_count : Z) : M st Z :=
  match fuel with
  | O => abort
  | S fuel =>
      p ← esp_partition_find_first ESP_PARTITION_TYPE_APP (ESP_PARTITION_SUBTYPE_APP_OTA_MIN + ota_app_count) None;
      match p with
      | None => mret (u8 ota_app_count)
      | Some _ => _ ← assert_ (ota_app_count <? 16); count_loop fuel (u16 (ota_app_count + 1))
      end
  end.

(** The assertion ends the loop after 17 rounds. *)
Definition esp_ota_get_app_partition_count : M st Z := count_loop 17 0.

Definition esp_ota_get_running_partition : M st item :=
  c ← gets curr_partition;
  match c with
  | Some p => mret p
  | None =>
      _ ← assert_ (negb (phys_offs =? SPI_FLASH_CACHE2PHYS_FAIL));
      it ← esp_partition_find ESP_PARTITION_TYPE_APP ESP_PARTITION_SUBTYPE_ANY None;
      _ ← assert_ (match it with Some _ => true | None => false end);
      fuel ← gets (fun s => S (length (s_partition_list s)));
      p ← scan fuel (fun p => (address p <=? phys_offs) && (phys_offs <? u32 (address p + size p))) it;
      match p with
      | None => abort
      | Some p => _ ← modify (set_curr (Some p)); mret p
      end
  end.

(** The first partition of the subtypes [s], [s + 1], ... below
    [ESP_PARTITION_SUBTYPE_APP_OTA_MAX]; [n] subtypes are left. *)
Fixpoint first_ota (n : nat) (s : Z) : M st (option item) :=
  match n with
  | O => mret None
  | S n =>
      result ← esp_partition_find_first ESP_PARTITION_TYPE_APP s None;
      match result with
      | Some p => mret (Some p)
      | None => first_ota n (s + 1)
      end
  end.

Definition find_default_boot_partition : M st (option item) :=
  result ← esp_partition_find_first ESP_PARTITION_TYPE_APP ESP_PARTITION_SUBTYPE_APP_FACTORY None;
  match result with
  | Some p => mret (Some p)
  | None =>
      result ← first_ota 16 ESP_PARTITION_SUBTYPE_APP_OTA_MIN;
      match result with
      | Some p => mret (Some p)
      | None => esp_partition_find_first ESP_PARTITION_TYPE_APP ESP_PARTITION_SUBTYPE_APP_TEST None
      end
  end.

Definition find_slot (slot : Z) : M st (option item) :=
  esp_partition_find_first ESP_PARTITION_TYPE_APP (ESP_PARTITION_SUBTYPE_APP_OTA_MIN + slot) None.

Definition esp_ota_get_boot_partition : M st (option item) :=
  r ← read_otadata;
  match r with
  | None => mret None
  | Some (_, otadata) =>
      ota_app_count ← esp_ota_get_app_partition_count;
      if (bootloader_common_ota_select_invalid (fst otadata) && bootloader_common_ota_select_invalid (snd otadata))
         || (ota_app_count =? 0)
      then find_default_boot_partition
      else
        let active_otadata := bootloader_common_get_active_otadata otadata in
        if negb (active_otadata =? -1) then
          find_slot (u32 (ota_seq (sel_get otadata active_otadata) - 1) mod ota_app_count)
        else find_default_boot_partition
  end.

(** The loop over the subtypes from [t] on. *)
Fixpoint update_loop (n : nat) (t : Z) (start_from : item) (default_ota : option item) (next_is_result : bool)
    : M st (option item) :=
  match n with
  | O => mret default_ota
  | S n =>
      p ← esp_partition_find_first ESP_PARTITION_TYPE_APP t None;
      match p with
      | None => update_loop n (t + 1) start_from default_ota next_is_result
      | Some p =>
          let default_ota := match default_ota with None => Some p | Some _ => default_ota end in
          if item_id p =? item_id start_from then update_loop n (t + 1) start_from default_ota true
          else if next_is_result then mret (Some p)
          else update_loop n (t + 1) start_from default_ota next_is_result
      end
  end.

Definition esp_ota_get_next_update_partition (start_from : option esp_partition_t) : M st (option item) :=
  start_from ← match start_from with
               | None => p ← esp_ota_get_running_partition; mret (Some p)
               | Some p => esp_partition_verify p
               end;
  match start_from with
  | None => abort
  | Some start_from => update_loop 16 ESP_PARTITION_SUBTYPE_APP_OTA_0 start_from None false
  end.

Definition esp_ota_get_partition_description (partition : esp_partition_t) : M st (esp_err_t * esp_app_desc_t) :=
  if negb (type partition =? ESP_PARTITION_TYPE_APP) then mret (ESP_ERR_NOT_SUPPORTED, mkDesc 0 0)
  else
    r ← esp_partition_read cfg partition app_desc_offset app_desc_size;
    let '(err, bytes) := r in
    if negb (is_ok err) then mret (err, mkDesc 0 0)
    else
      let app_desc := mkDesc (get32 bytes 0) (get32 bytes 4) in
      mret (if negb (magic_word app_desc =? ESP_APP_DESC_MAGIC_WORD) then ESP_ERR_NOT_FOUND else ESP_OK, app_desc).

Definition esp_ota_get_state_partition (partition : esp_partition_t) : M st (esp_err_t * Z) :=
  if negb (is_ota_partition partition) then mret (ESP_ERR_NOT_SUPPORTED, 0)
  else
    ota_app_count ← esp_ota_get_app_partition_count;
    r ← read_otadata;
    match r with
    | None => mret (ESP_ERR_NOT_FOUND, 0)
    | Some (_, otadata) =>
        if ota_app_count =? 0 then mret (ESP_ERR_NOT_FOUND, 0)
        else
          let req_ota_slot := subtype partition - ESP_PARTITION_SUBTYPE_APP_OTA_MIN in
          let is_slot e := (u32 (ota_seq e - 1) mod ota_app_count =? req_ota_slot)
                           && (sel_crc e =? bootloader_common_ota_select_crc e) in
          if is_slot (fst otadata) then mret (ESP_OK, ota_state (fst otadata))
          else if is_slot (snd otadata) then mret (ESP_OK, ota_state (snd otadata))
          else mret (ESP_ERR_NOT_FOUND, 0)
    end.

(** ** Writing an update *)

(** The running application has not been confirmed. *)
Definition unconfirmed (running_partition : esp_partition_t) : M st bool :=
  if CONFIG_BOOTLOADER_APP_ROLLBACK_ENABLE cfg then
    r ← esp_ota_get_state_partition running_partition;
    mret (is_ok (fst r) && (snd r =? ESP_OTA_IMG_PENDING_VERIFY))
  else mret false.

Definition erase_for (partition : esp_partition_t) (image_size : Z) : M st esp_err_t :=
  if negb (image_size =? OTA_WITH_SEQUENTIAL_WRITES) then
    if (image_size =? 0) || (image_size =? OTA_SIZE_UNKNOWN) then
      esp_partition_erase_range partition 0 (size partition)
    else
      let aligned_erase_size :=
        Z.land (u32 (image_size + SPI_FLASH_SEC_SIZE - 1)) (Z.lnot (SPI_FLASH_SEC_SIZE - 1)) in
      esp_partition_erase_range partition 0 aligned_erase_size
  else mret ESP_OK.

Definition new_entry (partition : item) (image_size : Z) : M st (esp_err_t * Z) := fun s =>
  if negb (malloc (ap_blocks s)) then RET (ESP_ERR_NO_MEM, 0) s
  else
    let h := u32 (s_ota_ops_last_handle s + 1) in
    let e := mkOps h partition (image_size =? OTA_WITH_SEQUENTIAL_WRITES) 0 0 (repeat 0 16) in
    RET (ESP_OK, h) (set_last_handle h (set_entries (e :: s_ota_ops_entries s) (set_blocks (ap_blocks s + 1) s))).

(** The result and [*out_handle]. *)
Definition esp_ota_begin (partition : option esp_partition_t) (image_size : Z) : M st (esp_err_t * Z) :=
  match partition with
  | None => mret (ESP_ERR_INVALID_ARG, 0)
  | Some partition =>
      partition ← esp_partition_verify partition;
      match partition with
      | None => mret (ESP_ERR_NOT_FOUND, 0)
      | Some partition =>
          if negb (is_ota_partition (info partition)) then mret (ESP_ERR_INVALID_ARG, 0)
          else
            running_partition ← esp_ota_get_running_partition;
            if item_id partition =? item_id running_partition then mret (ESP_ERR_OTA_PARTITION_CONFLICT, 0)
            else
              pending ← unconfirmed (info running_partition);
              if (pending : bool) then mret (ESP_ERR_OTA_ROLLBACK_INVALID_STATE, 0)
              else
                ret ← erase_for (info partition) image_size;
                if negb (is_ok ret) then mret (ret, 0) else new_entry partition image_size
      end
  end.

(** Storing a changed entry. *)
Definition keep (it : ota_ops_entry_t) : M st unit := modify (fun s => set_entries (store_entry it (s_ota_ops_entries s)) s).

(** The erase in front of a sequential write. *)
Definition erase_ahead (it : ota_ops_entry_t) (sz : Z) : M st esp_err_t :=
  let first_sector := wrote_size it / SPI_FLASH_SEC_SIZE in
  let last_sector := u32 (wrote_size it + sz) / SPI_FLASH_SEC_SIZE in
  if wrote_size it mod SPI_FLASH_SEC_SIZE =? 0 then
    esp_partition_erase_range (info (part it)) (wrote_size it)
      (u32 (u32 (last_sector - first_sector + 1) * SPI_FLASH_SEC_SIZE))
  else if negb (first_sector =? last_sector) then
    esp_partition_erase_range (info (part it)) (u32 ((first_sector + 1) * SPI_FLASH_SEC_SIZE))
      (u32 (u32 (last_sector - first_sector) * SPI_FLASH_SEC_SIZE))
  else mret ESP_OK.

(** The last step: what is left of the data goes to flash. *)
Definition write_data (it : ota_ops_entry_t) (data_bytes : list Z) : M st esp_err_t :=
  ret ← esp_partition_write cfg (info (part it)) (wrote_size it) data_bytes;
  _ ← (if is_ok ret then
         keep (mkOps (handle it) (part it) (need_erase it) (u32 (wrote_size it + Z.of_nat (length data_bytes)))
                 (partial_bytes it) (partial_data it))
       else mret tt);
  mret ret.

(** With flash encryption, the last [size % 16] bytes are kept back. *)
Definition write_blocks (it : ota_ops_entry_t) (data_bytes : list Z) : M st esp_err_t :=
  let rest := (length data_bytes mod 16)%nat in
  let sz := (length data_bytes - rest)%nat in
  let partial := if (rest =? 0)%nat then partial_data it else blit (partial_data it) 0 (drop sz data_bytes) in
  let it := mkOps (handle it) (part it) (need_erase it) (wrote_size it) (Z.of_nat rest) partial in
  _ ← keep it;
  write_data it (take sz data_bytes).

Definition write_encrypted (it : ota_ops_entry_t) (data_bytes : list Z) : M st esp_err_t :=
  if negb (partial_bytes it =? 0) then
    let copy_len := Nat.min (Z.to_nat (16 - partial_bytes it)) (length data_bytes) in
    let it := mkOps (handle it) (part it) (need_erase it) (wrote_size it) (partial_bytes it + Z.of_nat copy_len)
                (blit (partial_data it) (Z.to_nat (partial_bytes it)) (take copy_len data_bytes)) in
    _ ← keep it;
    if negb (partial_bytes it =? 16) then mret ESP_OK
    else
      ret ← esp_partition_write cfg (info (part it)) (wrote_size it) (partial_data it);
      if negb (is_ok ret) then mret ret
      else
        let it := mkOps (handle it) (part it) (need_erase it) (u32 (wrote_size it + 16)) 0 (repeat 0xFF 16) in
        _ ← keep it;
        write_blocks it (drop copy_len data_bytes)
  else write_blocks it data_bytes.

Definition esp_ota_write (h : Z) (data : option (list Z)) : M st esp_err_t :=
  match data with
  | None => mret ESP_ERR_INVALID_ARG
  | Some data_bytes =>
      it ← gets (fun s => get_ota_ops_entry h (s_ota_ops_entries s));
      match it with
      | None => mret ESP_ERR_INVALID_ARG
      | Some it =>
          ret ← (if need_erase it then erase_ahead it (Z.of_nat (length data_bytes)) else mret ESP_OK);
          if negb (is_ok ret) then mret ret
          else if (wrote_size it =? 0) && (partial_bytes it =? 0) &&
                  match data_bytes with b :: _ => negb (b =? ESP_IMAGE_HEADER_MAGIC) | [] => false end
          then mret ESP_ERR_OTA_VALIDATE_FAILED
          else if cfg_encrypted cfg then write_encrypted it data_bytes
          else write_data it data_bytes
      end
  end.

Definition esp_ota_write_with_offset (h : Z) (data : option (list Z)) (offset : Z) : M st esp_err_t :=
  match data with
  | None => mret ESP_ERR_INVALID_ARG
  | Some data_bytes =>
      it ← gets (fun s => get_ota_ops_entry h (s_ota_ops_entries s));
      match it with
      | None => mret ESP_ERR_INVALID_ARG
      | Some it =>
          _ ← assert_ (negb (need_erase it));
          if cfg_encrypted cfg && negb (length data_bytes mod 16 =? 0)%nat then mret ESP_ERR_INVALID_ARG
          else
            ret ← esp_partition_write cfg (info (part it)) offset data_bytes;
            _ ← (if is_ok ret then
                   keep (mkOps (handle it) (part it) (need_erase it) (u32 (wrote_size it + Z.of_nat (length data_bytes)))
                           (partial_bytes it) (partial_data it))
                 else mret tt);
            mret ret
      end
  end.

Definition esp_ota_abort (h : Z) : M st esp_err_t :=
  it ← gets (fun s => get_ota_ops_entry h (s_ota_ops_entries s));
  match it with
  | None => mret ESP_ERR_NOT_FOUND
  | Some it => _ ← modify (fun s => set_entries (remove_entry h (s_ota_ops_entries s)) s); mret ESP_OK
  end.

Definition esp_ota_end (h : Z) : M st esp_err_t :=
  it ← gets (fun s => get_ota_ops_entry h (s_ota_ops_entries s));
  match it with
  | None => mret ESP_ERR_NOT_FOUND
  | Some it =>
      ret ← (if wrote_size it =? 0 then mret ESP_ERR_INVALID_ARG
             else
               ret ← (if 0 <? partial_bytes it
                      then esp_partition_write cfg (info (part it)) (wrote_size it) (partial_data it) else mret ESP_OK);
               if negb (is_ok ret) then mret ESP_ERR_INVALID_STATE
               else image_validate (info (part it)));
      _ ← modify (fun s => set_entries (remove_entry h (s_ota_ops_entries s)) s);
      mret ret
  end.

(** ** Selecting what boots next *)

Definition rewrite_ota_seq (two_otadata : esp_ota_select_entry_t * esp_ota_select_entry_t) (seq sec_id : Z)
    (ota_data_partition : esp_partition_t) : M st esp_err_t :=
  if 1 <? sec_id then mret ESP_ERR_INVALID_ARG
  else
    let e := set_seq (sel_get two_otadata sec_id) seq 0 in
    let e := set_seq e seq (bootloader_common_ota_select_crc e) in
    ret ← esp_partition_erase_range ota_data_partition (sec_id * SPI_FLASH_SEC_SIZE) SPI_FLASH_SEC_SIZE;
    if negb (is_ok ret) then mret ret
    else esp_partition_write cfg ota_data_partition (SPI_FLASH_SEC_SIZE * sec_id) (encode_entry e).

(** An endless loop is an [ABORT] of the model. *)
Definition esp_rewrite_ota_data (subtype : Z) : M st esp_err_t :=
  r ← read_otadata;
  match r with
  | None => mret ESP_ERR_NOT_FOUND
  | Some (otadata_partition, otadata) =>
      ota_app_count ← esp_ota_get_app_partition_count;
      if ota_app_count <=? SUB_TYPE_ID subtype then mret ESP_ERR_INVALID_ARG
      else
        let active_otadata := bootloader_common_get_active_otadata otadata in
        let with_new i := sel_set otadata i (set_state (sel_get otadata i) set_new_state_otadata) in
        if negb (active_otadata =? -1) then
          let seq := ota_seq (sel_get otadata active_otadata) in
          match next_seq seq (SUB_TYPE_ID subtype) ota_app_count with
          | None => abort
          | Some v =>
              let next_otadata := other_copy active_otadata in
              rewrite_ota_seq (with_new next_otadata) v next_otadata (info otadata_partition)
          end
        else rewrite_ota_seq (with_new 0) (SUB_TYPE_ID subtype + 1) 0 (info otadata_partition)
  end.

Definition esp_ota_set_boot_partition (partition : option esp_partition_t) : M st esp_err_t :=
  match partition with
  | None => mret ESP_ERR_INVALID_ARG
  | Some partition =>
      ok ← image_validate partition;
      if negb (is_ok ok) then mret ESP_ERR_OTA_VALIDATE_FAILED
      else if type partition =? ESP_PARTITION_TYPE_APP then
        if subtype partition =? ESP_PARTITION_SUBTYPE_APP_FACTORY then
          find_partition ← esp_partition_find_first ESP_PARTITION_TYPE_DATA ESP_PARTITION_SUBTYPE_DATA_OTA None;
          match find_partition with
          | Some p => esp_partition_erase_range (info p) 0 (size (info p))
          | None => mret ESP_ERR_NOT_FOUND
          end
        else if CONFIG_BOOTLOADER_APP_ANTI_ROLLBACK cfg then
          r ← esp_ota_get_partition_description partition;
          let '(err, partition_app_desc) := r in
          if negb (is_ok err) then mret err
          else
            allowed ← gets (fun s => esp_efuse_check_secure_version (CONFIG_APP_SEC_VER_SIZE cfg) (ap_efuse s)
                                       (secure_version partition_app_desc));
            if negb allowed then
              err ← esp_partition_erase_range partition 0 (size partition);
              mret (if negb (is_ok err) then err else ESP_ERR_OTA_SMALL_SEC_VER)
            else esp_rewrite_ota_data (subtype partition)
        else esp_rewrite_ota_data (subtype partition)
      else mret ESP_ERR_INVALID_ARG
  end.

(** ** Rollback *)

Definition update_secure_version (version : Z) : M st esp_err_t := fun s =>
  let '(err, e) := esp_efuse_update_secure_version (CONFIG_APP_SEC_VER_SIZE cfg) (ap_efuse s) version in
  RET err (set_ap_efuse e s).

Definition esp_ota_set_anti_rollback : M st esp_err_t :=
  partition ← esp_ota_get_running_partition;
  r ← esp_ota_get_partition_description (info partition);
  let '(err, app_desc) := r in
  if is_ok err then update_secure_version (secure_version app_desc) else mret err.

(** [image_validate(partition) == ESP_OK] for a partition that was found. *)
Definition has_image (partition : option item) : M st bool :=
  match partition with
  | None => mret false
  | Some p => err ← image_validate (info p); mret (is_ok err)
  end.

(** Without a valid last entry, the factory application would boot. *)
Definition factory_image (last_valid : bool) : M st bool :=
  if negb (CONFIG_BOOTLOADER_APP_ANTI_ROLLBACK cfg) && negb last_valid then
    partition ← esp_partition_find_first ESP_PARTITION_TYPE_APP ESP_PARTITION_SUBTYPE_APP_FACTORY None;
    has_image partition
  else mret false.

Definition esp_ota_check_rollback_is_possible : M st bool :=
  r ← read_otadata;
  match r with
  | None => mret false
  | Some (_, otadata) =>
      ota_app_count ← esp_ota_get_app_partition_count;
      if ota_app_count =? 0 then mret false
      else
        let valid_otadata :=
          (bootloader_common_ota_select_valid (fst otadata), bootloader_common_ota_select_valid (snd otadata)) in
        let active_ota := bootloader_common_select_otadata otadata valid_otadata true in
        if active_ota =? -1 then mret false
        else
          let last_active_ota := other_copy active_ota in
          let last_valid := if last_active_ota =? 0 then fst valid_otadata else snd valid_otadata in
          factory ← factory_image last_valid;
          if (factory : bool) then mret true
          else if last_valid then
            partition ← find_slot (u32 (ota_seq (sel_get otadata last_active_ota) - 1) mod ota_app_count);
            ok ← has_image partition;
            if negb ok then mret false
            else if CONFIG_BOOTLOADER_APP_ANTI_ROLLBACK cfg then
              match partition with
              | None => mret false
              | Some p =>
                  r ← esp_ota_get_partition_description (info p);
                  gets (fun s => is_ok (fst r) && esp_efuse_check_secure_version (CONFIG_APP_SEC_VER_SIZE cfg) (ap_efuse s)
                                                    (secure_version (snd r)))
              end
            else mret true
          else mret false
  end.

Definition esp_restart {A} : M st A := fun s => RESTART s.

Definition esp_ota_current_ota_is_workable (valid : bool) : M st esp_err_t :=
  r ← read_otadata;
  match r with
  | None => mret ESP_ERR_NOT_FOUND
  | Some (otadata_partition, otadata) =>
      let active_otadata := bootloader_common_get_active_otadata otadata in
      ota_app_count ← (if negb (active_otadata =? -1) then esp_ota_get_app_partition_count else mret 0);
      if negb (active_otadata =? -1) && negb (ota_app_count =? 0) then
        let e := sel_get otadata active_otadata in
        let mark v := rewrite_ota_seq (sel_set otadata active_otadata (set_state e v)) (ota_seq e) active_otadata
                        (info otadata_partition) in
        if valid && negb (ota_state e =? ESP_OTA_IMG_VALID) then
          err ← mark ESP_OTA_IMG_VALID;
          if CONFIG_BOOTLOADER_APP_ANTI_ROLLBACK cfg && is_ok err then esp_ota_set_anti_rollback else mret err
        else if negb valid then
          possible ← esp_ota_check_rollback_is_possible;
          if negb possible then mret ESP_ERR_OTA_ROLLBACK_FAILED
          else
            err ← mark ESP_OTA_IMG_INVALID;
            if negb (is_ok err) then mret err else esp_restart
        else mret ESP_OK
      else mret ESP_FAIL
  end.

Definition esp_ota_mark_app_valid_cancel_rollback : M st esp_err_t := esp_ota_current_ota_is_workable true.
Definition esp_ota_mark_app_invalid_rollback_and_reboot : M st esp_err_t := esp_ota_current_ota_is_workable false.

Definition check_invalid_otadata (s : esp_ota_select_entry_t) : bool :=
  negb (ota_seq s =? UINT32_MAX) && (sel_crc s =? bootloader_common_ota_select_crc s)
  && ((ota_state s =? ESP_OTA_IMG_INVALID) || (ota_state s =? ESP_OTA_IMG_ABORTED)).

Definition get_last_invalid_otadata (two_otadata : esp_ota_select_entry_t * esp_ota_select_entry_t) : Z :=
  bootloader_common_select_otadata two_otadata
    (check_invalid_otadata (fst two_otadata), check_invalid_otadata (snd two_otadata)) false.

Definition esp_ota_get_last_invalid_partition : M st (option item) :=
  r ← read_otadata;
  match r with
  | None => mret None
  | Some (_, otadata) =>
      let invalid_otadata := get_last_invalid_otadata otadata in
      ota_app_count ← esp_ota_get_app_partition_count;
      if negb (invalid_otadata =? -1) && negb (ota_app_count =? 0) then
        invalid_partition ← find_slot (u32 (ota_seq (sel_get otadata invalid_otadata) - 1) mod ota_app_count);
        match invalid_partition with
        | None => mret None
        | Some p => err ← image_validate (info p); mret (if negb (is_ok err) then None else Some p)
        end
      else mret None
  end.

Definition esp_ota_erase_last_boot_app_partition : M st esp_err_t :=
  r ← read_otadata;
  match r with
  | None => mret ESP_FAIL
  | Some (ota_data_partition, otadata) =>
      let active_otadata := bootloader_common_get_active_otadata otadata in
      ota_app_count ← esp_ota_get_app_partition_count;
      if (active_otadata =? -1) || (ota_app_count =? 0) then mret ESP_FAIL
      else
        let inactive_otadata := other_copy active_otadata in
        let e := sel_get otadata inactive_otadata in
        if (ota_seq e =? UINT32_MAX) || negb (sel_crc e =? bootloader_common_ota_select_crc e) then mret ESP_FAIL
        else
          last ← find_slot (u32 (ota_seq e - 1) mod ota_app_count);
          match last with
          | None => mret ESP_FAIL
          | Some last =>
              running_partition ← esp_ota_get_running_partition;
              if item_id last =? item_id running_partition then mret ESP_FAIL
              else
                err ← esp_partition_erase_range (info last) 0 (size (info last));
                if negb (is_ok err) then mret err
                else
                  esp_partition_erase_range (info ota_data_partition) (inactive_otadata * SPI_FLASH_SEC_SIZE) SPI_FLASH_SEC_SIZE
          end
  end.

(** partition_target.c *)
Definition esp_partition_main_flash_region_safe (addr sz : Z) : M st bool :=
  if addr <=? CONFIG_PARTITION_TABLE_OFFSET cfg + ESP_PARTITION_TABLE_MAX_LEN then mret false
  else
    p ← esp_ota_get_running_partition;
    let p := info p in
    if (address p <=? addr) && (addr <? u32 (address p + size p)) then mret false
    else if (addr <? address p) && (address p <? u32 (addr + sz)) then mret false
    else mret true.
End OtaOps.
