(* ===== verification/OtaBoot.v ===== *)
(** * The application and the bootloader agree on what boots

    What esp_ota_ops.c writes to the OTA data is what the bootloader acts on:
    [esp_ota_set_boot_partition], [esp_ota_get_boot_partition], confirming and
    rolling back an update, and the choice of the next slot. *)

From S2P Require Import Prelude CMem Crc Flash OtaData PartitionTable SecureVersion Bootloader BootTheorems.
From S2P Require Import Partitions PartitionTheorems OtaOps.

(** ** The next sequence number *)

Lemma next_seq_loop (value : Z -> Z) seq k i :
  0 <= i -> i + Z.of_nat k < 2 ^ 32 ->
  seq <= value (i + Z.of_nat k) -> (forall j, 0 <= j < i -> value j < seq) ->
  exists r, 0 <= r <= i + Z.of_nat k /\ seq <= value r /\ (forall j, 0 <= j < r -> value j < seq) /\
    forall n, (k < n)%nat -> loop_nat (fun i => if value i <? seq then inl (u32 (i + 1)) else inr i) n i = inr r.
Proof.
  revert i. induction k as [|k IH]; intros i Hi Hk Hle Hlt.
  - rewrite Z.add_0_r in *. exists i. split_and!; [lia..|done|]. intros [|n] Hn; [lia|]. cbn [loop_nat].
    by rewrite (proj2 (Z.ltb_ge _ _) Hle).
  - destruct (Z.ltb_spec (value i) seq) as [Hv|Hv].
    + destruct (IH (i + 1)) as (r & Hr & Hs & Hp & Hl);
        rewrite ?Nat2Z.inj_succ in *; replace (i + 1 + Z.of_nat k) with (i + Z.succ (Z.of_nat k)) in * by lia; try done; [lia| |].
      { intros j Hj. destruct (decide (j = i)) as [->|]; [done|]. apply Hlt. lia. }
      exists r. split_and!; [lia..|done|]. intros [|n] Hn; [lia|]. cbn [loop_nat].
      rewrite (proj2 (Z.ltb_lt _ _) Hv), u32_small by lia. apply Hl. lia.
    + exists i. split_and!; [lia..|done|]. intros [|n] Hn; [lia|]. cbn [loop_nat]. by rewrite (proj2 (Z.ltb_ge _ _) Hv).
Qed.

Lemma next_seq_spec seq id n : 0 < n <= 16 -> 0 <= id < n -> 0 < seq -> seq + n < 2 ^ 32 ->
  exists v, next_seq seq id n = Some v /\ seq <= v < seq + n /\ (v - 1) mod n = id.
Proof.
  intros Hn Hid Hs Ho. unfold next_seq. cbv zeta. set (value := fun i => u32 ((id + 1) mod n + u32 (i * n))).
  assert (Hb : 0 <= (id + 1) mod n < n) by (apply Z.mod_pos_bound; lia).
  set (b := (id + 1) mod n) in *.
  assert (Hval : forall j, 0 <= j -> b + j * n < 2 ^ 32 -> value j = b + j * n).
  { intros j Hj Hjn. unfold value. fold b. assert (0 <= j * n) by nia. rewrite (u32_small (j * n)), u32_small; lia. }
  set (q := Z.max 0 ((seq - b + n - 1) / n)).
  assert (Hq : 0 <= q /\ seq <= b + q * n /\ b + q * n < seq + n).
  { unfold q. assert (n * ((seq - b + n - 1) / n) <= seq - b + n - 1 < n * ((seq - b + n - 1) / n) + n)
      by (Z.to_euclidean_division_equations; nia). nia. }
  assert (Hk : Z.of_nat (Z.to_nat q) = q) by lia.
  destruct (next_seq_loop value seq (Z.to_nat q) 0) as (r & Hr & Hle & Hlt & Hl); rewrite ?Hk, ?Z.add_0_l; try nia.
  - rewrite Hval by lia. lia.
  - rewrite loop_pos_nat.
    change (exists v, match loop_nat (fun i => if value i <? seq then inl (u32 (i + 1)) else inr i) (Pos.to_nat (2 ^ 32)) 0 with
                      | inl _ => None | inr i => Some (value i) end = Some v /\ seq <= v < seq + n /\ (v - 1) mod n = id).
    rewrite (Hl (Pos.to_nat (2 ^ 32))).
    2:{ apply Nat2Z.inj_lt. rewrite Hk, positive_nat_Z. nia. }
    assert (Hrn : b + r * n <= b + q * n) by nia. exists (value r). split; [done|]. rewrite (Hval r) in * by lia. split.
    + split; [done|]. lia.
    + replace (b + r * n - 1) with (b - 1 + r * n) by lia. rewrite Z.mod_add by lia.
      unfold b. rewrite Zminus_mod_idemp_l. replace (id + 1 - 1) with id by lia. apply Z.mod_small. lia.
Qed.

(** ** What the application writes, what the bootloader selects *)

(** The entry [rewrite_ota_seq] writes: number [seq], with its checksum. *)
Definition sealed (e : esp_ota_select_entry_t) (seq : Z) : esp_ota_select_entry_t :=
  set_seq e seq (bootloader_common_ota_select_crc (set_seq e seq 0)).

Lemma crc_of_seq e e' : ota_seq e = ota_seq e' -> bootloader_common_ota_select_crc e = bootloader_common_ota_select_crc e'.
Proof. unfold bootloader_common_ota_select_crc. by intros ->. Qed.

Lemma sealed_valid e seq : seq <> UINT32_MAX -> ota_state e <> ESP_OTA_IMG_INVALID -> ota_state e <> ESP_OTA_IMG_ABORTED ->
  bootloader_common_ota_select_valid (sealed e seq) = true.
Proof.
  intros Hs Hi Ha. unfold bootloader_common_ota_select_valid, bootloader_common_ota_select_invalid.
  cbn [sealed set_seq ota_seq ota_state sel_crc]. rewrite !(proj2 (Z.eqb_neq _ _)) by done. cbn [orb eqb andb].
  by apply Z.eqb_eq, crc_of_seq.
Qed.

Lemma sealed_ok e seq : entry_ok e -> is_u32 seq -> entry_ok (sealed e seq).
Proof. intros [] Hs. split; try done. apply select_crc_range. Qed.

Lemma valid_crc e : bootloader_common_ota_select_valid e = true -> sealed e (ota_seq e) = e.
Proof.
  unfold bootloader_common_ota_select_valid. intros Hv. apply andb_true_iff in Hv as [_ Hc]. apply Z.eqb_eq in Hc.
  unfold sealed. rewrite (crc_of_seq (set_seq e (ota_seq e) 0) e), <- Hc by done. by destruct e.
Qed.

Lemma sealed_state e v : bootloader_common_ota_select_valid e = true -> sealed (set_state e v) (ota_seq e) = set_state e v.
Proof.
  unfold bootloader_common_ota_select_valid. intros Hv. apply andb_true_iff in Hv as [_ Hc]. apply Z.eqb_eq in Hc.
  unfold sealed. rewrite (crc_of_seq (set_seq (set_state e v) (ota_seq e) 0) e), <- Hc by done. by destruct e.
Qed.

Lemma valid_state e v : bootloader_common_ota_select_valid e = true -> v <> ESP_OTA_IMG_INVALID -> v <> ESP_OTA_IMG_ABORTED ->
  bootloader_common_ota_select_valid (set_state e v) = true.
Proof.
  intros Hv Hi Ha. rewrite <- (sealed_state e v Hv). apply sealed_valid; [|done..].
  unfold bootloader_common_ota_select_valid, bootloader_common_ota_select_invalid in Hv.
  intros E. rewrite E in Hv. done.
Qed.

Lemma set_state_same e : set_state e (ota_state e) = e.
Proof. by destruct e. Qed.

Lemma sel_set_same t i : sel_set t i (sel_get t i) = t.
Proof. unfold sel_set, sel_get. by destruct t, (i =? 0). Qed.

Lemma abort_valid e : bootloader_common_ota_select_valid (abort_entry e) = true -> abort_entry e = e.
Proof.
  unfold abort_entry. destruct (ota_state e =? ESP_OTA_IMG_PENDING_VERIFY); [|done].
  unfold bootloader_common_ota_select_valid, bootloader_common_ota_select_invalid. cbn [set_state ota_state].
  by rewrite !orb_true_r.
Qed.

Lemma aborted_valid rb t i : bootloader_common_ota_select_valid (sel_get (aborted rb t) i) = true ->
  sel_get (aborted rb t) i = sel_get t i.
Proof. rewrite aborted_get. destruct rb; [|done]. apply abort_valid. Qed.

(** An entry that is valid, not pending and not older than the other one
    decides, and keeps its state unless it is new. *)
Lemma select_entry rb bs t i : i = 0 \/ i = 1 -> bs_app_count bs <> 0 ->
  let e := sel_get t i in
  bootloader_common_ota_select_valid e = true -> (rb = true -> ota_state e <> ESP_OTA_IMG_PENDING_VERIFY) ->
  (bootloader_common_ota_select_valid (sel_get t (1 - i)) = true -> ota_seq (sel_get t (1 - i)) <= ota_seq e) ->
  let '(index, t', _) := select rb bs t in
  index = slot_of e (bs_app_count bs) /\ (ota_state e <> ESP_OTA_IMG_NEW -> sel_get t' i = e).
Proof.
  intros Hi Hc e Hv Hp Hle. unfold select. set (t0 := aborted rb t).
  assert (E0 : sel_get t0 i = e).
  { unfold t0. rewrite aborted_get. destruct rb; [|done]. apply abort_id. by apply Hp. }
  assert (Hn : no_choice bs t0 = false).
  { unfold no_choice. apply orb_false_iff. split; [|by apply Z.eqb_neq]. apply andb_false_iff.
    apply valid_not_invalid in Hv. rewrite <- E0 in Hv. destruct Hi as [-> | ->]; [by left|by right]. }
  rewrite Hn. destruct (active_spec t0) as [[_ Hnone]|(Hk & Hkv & Hkm)].
  { exfalso. specialize (Hnone i Hi). rewrite E0, Hv in Hnone. done. }
  set (k := bootloader_common_get_active_otadata t0) in *. assert (k <> -1) as Hk1 by lia.
  rewrite (proj2 (Z.eqb_neq _ _) Hk1). specialize (Hkm i Hi). rewrite E0 in Hkm. specialize (Hkm Hv).
  destruct (decide (k = i)) as [Eki|Hki].
  - rewrite Eki, E0. split; [done|]. intros Hnew. unfold mark_pending. rewrite E0, (proj2 (Z.eqb_neq _ _) Hnew), andb_false_r. done.
  - assert (Ek : k = 1 - i) by lia. pose proof (aborted_valid rb t k Hkv) as Ea. fold t0 in Ea.
    rewrite Ea in *. rewrite Ek in *. specialize (Hle Hkv). split.
    + unfold slot_of. f_equal. f_equal. lia.
    + intros _. unfold mark_pending. rewrite Ea. destruct (_ && _); [|done].
      destruct (sel_get_set t0 (1 - i) (set_state (sel_get t (1 - i)) ESP_OTA_IMG_PENDING_VERIFY)) as [_ G]; [lia|].
      replace (1 - (1 - i)) with i in G by lia. by rewrite G.
Qed.

Section OtaBoot.
Context {F E : Type} `{FlashLaws F} `{EfuseDev E}.
Context (cfg : part_config) (md5 : list Z -> list Z) (malloc : Z -> bool) (image_verify : F -> esp_partition_pos_t -> bool).
Context (phys_offs : Z) (bs : bootloader_state_t) (works : F -> Prop) (OF : ota_flash cfg bs works).
Abbreviation st := (app_state F E).
Abbreviation off := (pos_offset (bs_ota_info bs)).
Abbreviation enc := (cfg_encrypted cfg).
Abbreviation flash s := (ap_flash s DEFAULT_CHIP).
Abbreviation look f := (entries enc off f).

(** The application can map the OTA data partition, too. *)
Definition app_maps : Prop := forall f, works f ->
  fl_mmap f (Z.land off (Z.lnot (CONFIG_MMU_PAGE_SIZE cfg - 1)))
    (u32 (pos_size (bs_ota_info bs) + Z.land off (CONFIG_MMU_PAGE_SIZE cfg - 1))) = ESP_OK.

(** An application that runs from the flash the bootloader state describes. *)
Record ota_app (s : st) : Prop := {
  oa_loaded : loaded malloc s;
  oa_same : same_partitions enc bs (s_partition_list s);
  oa_works : works (flash s);
  oa_maps : app_maps;
  oa_rw : enc = true -> CONFIG_SPI_FLASH_ENABLE_ENCRYPTED_READ_WRITE cfg = true;
  oa_end : off + pos_size (bs_ota_info bs) < 2 ^ 32
}.

Definition otadata_item (s : st) : option partition_list_item_t :=
  List.find (wanted ESP_PARTITION_TYPE_DATA ESP_PARTITION_SUBTYPE_DATA_OTA None) (s_partition_list s).

Lemma otadata_item_spec s : ota_app s -> exists p, otadata_item s = Some p /\
  address (info p) = off /\ size (info p) = pos_size (bs_ota_info bs) /\ flash_chip (info p) = DEFAULT_CHIP /\
  encrypted (info p) = enc.
Proof.
  intros OA. destruct (sp_otadata _ _ _ (oa_same _ OA)) as (p & Ep & Epos & Ec & Ee). exists p.
  rewrite <- Epos. done.
Qed.

Lemma find_app s sub : ota_app s ->
  esp_partition_find_first cfg md5 malloc ESP_PARTITION_TYPE_APP sub None s = RET (app_part sub (s_partition_list s)) s.
Proof. intros OA. apply find_first_spec; [apply OA|by left]. Qed.

Lemma find_otadata s : ota_app s ->
  esp_partition_find_first cfg md5 malloc ESP_PARTITION_TYPE_DATA ESP_PARTITION_SUBTYPE_DATA_OTA None s = RET (otadata_item s) s.
Proof. intros OA. apply find_first_spec; [apply OA|by left]. Qed.

Lemma count_loop_spec s fuel c : ota_app s -> 0 <= c <= bs_app_count bs -> (Z.to_nat (bs_app_count bs - c) < fuel)%nat ->
  count_loop cfg md5 malloc fuel c s = RET (bs_app_count bs) s.
Proof.
  intros OA. pose proof (oa_same _ OA) as [_ Hn Hslot Hend Hfull _ _]. revert c.
  induction fuel as [|fuel IH]; intros c Hc Hf; [lia|]. cbn [count_loop].
  rewrite (bind_RET _ _ _ _ _ (find_app s _ OA)). destruct (decide (c = bs_app_count bs)) as [->|Hne].
  - assert (En : ota_part (bs_app_count bs) (s_partition_list s) = None).
    { destruct (decide (bs_app_count bs = 16)) as [E16|]; [rewrite E16; by apply Hfull|apply Hend; lia]. }
    rewrite En. by rewrite u8_small by lia.
  - destruct (Hslot c ltac:(lia)) as (i & -> & _). unfold assert_. rewrite (proj2 (Z.ltb_lt c 16)) by lia.
    rewrite (bind_RET _ _ s tt s) by done. unfold u16. rewrite Z.mod_small by lia. apply IH; lia.
Qed.

Lemma count_spec s : ota_app s -> esp_ota_get_app_partition_count cfg md5 malloc s = RET (bs_app_count bs) s.
Proof. intros OA. pose proof (sp_count _ _ _ (oa_same _ OA)). apply count_loop_spec; [done|lia..]. Qed.

Lemma read_spec s p : ota_app s -> otadata_item s = Some p ->
  OtaOps.read_otadata cfg md5 malloc s = RET (Some (p, look (flash s))) s.
Proof.
  intros OA Ep. destruct (otadata_item_spec s OA) as (p' & Ep' & Ha & Hs & Hc & He). rewrite Ep in Ep'. injection Ep' as <-.
  unfold OtaOps.read_otadata. rewrite (bind_RET _ _ _ _ _ (find_otadata s OA)), Ep.
  pose proof (oa_end _ OA). pose proof (of_off _ _ _ OF). pose proof (of_size _ _ _ OF). unfold SPI_SEC_SIZE in *.
  unfold mbind, M_bind, esp_partition_mmap, range_check. rewrite Hs, Hc, Ha, Z.add_0_l, Z.add_0_r, Z.eqb_refl, !u32_small by lia.
  rewrite (proj2 (Z.ltb_ge _ _)), Z.ltb_irrefl by lia. cbn [negb]. rewrite (oa_maps _ OA) by apply OA.
  cbn [is_ok negb]. rewrite land_split. done.
Qed.

(** The OTA data partition was changed and nothing else. *)
Record ota_changed (s s' : st) (t : two_entries) : Prop := {
  oc_app : ota_app s';
  oc_look : look (flash s') = t;
  oc_frame : forall p, otadata_item s = Some p -> stays_in (info p) s s'
}.

Lemma ota_app_frame s s' p : ota_app s -> stays_in (info p) s s' -> works (flash s') -> ota_app s'.
Proof.
  intros [[Hne Hnd Hml] Hsame _ Hm Hrw Hend] [] Hw. split; try done; [split; congruence|congruence].
Qed.

Lemma stays_in_trans p (s1 s2 s3 : st) : stays_in p s1 s2 -> stays_in p s2 s3 -> stays_in p s1 s3.
Proof.
  intros [C1 O1 ??????] [C2 O2 ??????]. split; try congruence.
  - intros en x Hx. etransitivity; [by apply C2|by apply C1].
  - intros c Hc. etransitivity; [by apply O2|by apply O1].
Qed.

Section Sector.
Context (s : st) (p : partition_list_item_t) (i : Z).
Context (OA : ota_app s) (Ep : otadata_item s = Some p) (Hi : i = 0 \/ i = 1).

Lemma item_facts : address (info p) = off /\ size (info p) = pos_size (bs_ota_info bs) /\
  flash_chip (info p) = DEFAULT_CHIP /\ encrypted (info p) = enc /\ addressable (info p) /\
  0 < off /\ 2 * 4096 <= size (info p) /\ off + size (info p) < 2 ^ 32.
Proof.
  destruct (otadata_item_spec s OA) as (p' & Ep' & Ha & Hs & Hc & He). rewrite Ep in Ep'. injection Ep' as <-.
  pose proof (oa_end _ OA). pose proof (of_off _ _ _ OF). pose proof (of_size _ _ _ OF) as Hsz. unfold SPI_SEC_SIZE in Hsz.
  split_and!; try done; try lia. unfold addressable, part_end. lia.
Qed.

Lemma erase_sector : exists s1,
  esp_partition_erase_range (info p) (i * SPI_FLASH_SEC_SIZE) SPI_FLASH_SEC_SIZE s = RET ESP_OK s1 /\
  stays_in (info p) s s1 /\ works (flash s1) /\ erased (off + 4096 * i) 4096 (flash s1) /\
  only_changes (off + 4096 * i) 4096 (flash s) (flash s1).
Proof.
  destruct item_facts as (Ha & _ & Hc & _ & Hadr & ? & ? & ?).
  destruct (of_erase _ _ _ OF (flash s) i (oa_works _ OA) Hi) as [E1 W1].
  unfold esp_partition_erase_range, SPI_FLASH_SEC_SIZE.
  rewrite (proj2 (range_check_None (info p) (i * 0x1000) 0x1000 ltac:(lia) ltac:(lia) ltac:(lia))) by lia.
  rewrite Z.mod_mul, Z_mod_same_full by lia. cbn [Z.eqb negb].
  destruct (on_chip_spec (info p) (fun f => fl_erase f (u32 (address (info p) + i * 0x1000)) 0x1000) s) as (s1 & G1 & G2 & G3).
  { apply erase_frame; [done|lia..]. }
  rewrite Ha, u32_small, Hc in * by lia. replace (off + i * 0x1000) with (off + 4096 * i) in * by lia.
  change 0x1000 with 4096 in *. exists s1. rewrite G1, E1, G3. split_and!; try done.
  - apply (law_erase (flash s)). rewrite <- E1. apply surjective_pairing.
  - apply law_erase_frame.
Qed.

Lemma write_sector bytes : length bytes = SELECT_ENTRY_SIZE -> Forall is_byte bytes ->
  erased (off + 4096 * i) 4096 (flash s) ->
  exists s2, esp_partition_write cfg (info p) (SPI_FLASH_SEC_SIZE * i) bytes s = RET ESP_OK s2 /\
  stays_in (info p) s s2 /\ works (flash s2) /\
  read_bytes (view enc (flash s2)) (off + 4096 * i) SELECT_ENTRY_SIZE = bytes /\
  only_changes (off + 4096 * i) 4096 (flash s) (flash s2).
Proof.
  intros Hlen Hb Her. destruct item_facts as (Ha & _ & Hc & He & Hadr & ? & ? & ?).
  destruct (of_write _ _ _ OF (flash s) i bytes (oa_works _ OA) Hi Hlen Hb) as [E2 W2].
  unfold esp_partition_write, SPI_FLASH_SEC_SIZE. pose proof Hlen as Hlen'. unfold SELECT_ENTRY_SIZE in *.
  rewrite (proj2 (range_check_None (info p) (0x1000 * i) (Z.of_nat (length bytes)) ltac:(lia) ltac:(lia) ltac:(lia))) by lia.
  destruct (on_chip_spec (info p) (fun f => fl_write enc f (u32 (address (info p) + 0x1000 * i)) bytes) s) as (s2 & G1 & G2 & G3).
  { apply write_frame; [done|lia..]. }
  exists s2. rewrite He. rewrite Ha, u32_small, Hc in * by lia. change 0x1000 with 4096 in *. rewrite E2 in G1. split_and!; try done.
  - destruct enc eqn:Eenc; cbn [negb]; [rewrite (oa_rw _ OA), Z.eqb_refl by done; cbn [negb]|]; by rewrite G1.
  - by rewrite G3.
  - rewrite <- Hlen. apply (law_write enc (flash s)).
    + rewrite G3, <- E2. apply surjective_pairing.
    + intros x Hx. apply Her. lia.
  - rewrite G3. apply (only_changes_wider _ _ _ _ _ _ (law_write_frame enc (flash s) (off + 4096 * i) bytes)); lia.
Qed.
End Sector.

Lemma rewrite_ota_seq_spec s t seq i p :
  ota_app s -> otadata_item s = Some p -> i = 0 \/ i = 1 -> is_u32 seq ->
  entry_ok (sel_get t i) -> Forall is_byte (seq_label (sel_get t i)) ->
  exists s', rewrite_ota_seq cfg t seq i (info p) s = RET ESP_OK s' /\
  ota_changed s s' (sel_set (look (flash s)) i (sealed (sel_get t i) seq)).
Proof.
  intros OA Ep Hi Hseq Hok Hb. set (e := sealed (sel_get t i) seq).
  assert (Hoe : entry_ok e) by by apply sealed_ok. pose proof (encode_length e Hoe) as Hlen.
  unfold rewrite_ota_seq. replace (1 <? i) with false by (symmetry; apply Z.ltb_ge; lia). cbv zeta. fold e.
  destruct (erase_sector s p i OA Ep Hi) as (s1 & R1 & F1 & W1 & Er & C1).
  rewrite (bind_RET _ _ _ _ _ R1). cbn [is_ok negb].
  pose proof (ota_app_frame s s1 p OA F1 W1) as OA1.
  assert (Ep1 : otadata_item s1 = Some p) by (unfold otadata_item; by rewrite (si_list _ _ _ F1)).
  destruct (write_sector s1 p i OA1 Ep1 Hi (encode_entry e) Hlen) as (s2 & R2 & F2 & W2 & Hr & C2); [by apply encode_bytes|done|].
  exists s2. split; [done|]. pose proof (stays_in_trans _ _ _ _ F1 F2) as F12. split.
  - by apply (ota_app_frame s s2 p).
  - apply (entries_update enc off (flash s) (flash s2) i e Hi Hoe); [|done].
    intros en x Hx. unfold SPI_FLASH_SEC_SIZE in Hx. rewrite C2, C1 by lia. done.
  - intros p' Ep'. rewrite Ep in Ep'. by injection Ep' as <-.
Qed.

(** What the bootloader does with the flash [f]. *)
Definition boots (f : F) (index : Z) (t : two_entries) : Prop :=
  forall b : boot_state F E, bt_flash b = f ->
  exists b', bootloader_utility_get_selected_boot_partition cfg bs b = Some (index, b') /\ look (bt_flash b') = t.

Lemma boots_select f : CONFIG_BOOTLOADER_APP_ANTI_ROLLBACK cfg = false -> works f ->
  let '(index, t, _) := select (CONFIG_BOOTLOADER_APP_ROLLBACK_ENABLE cfg) bs (look f) in boots f index t.
Proof.
  intros Hanti Hw. destruct (select _ bs (look f)) as [[index t] initial] eqn:Es. intros b <-.
  pose proof (boot_selection_refines cfg bs works OF b Hanti Hw) as R. rewrite Es in R.
  destruct R as (b' & Rb & _ & Rl & _). by exists b'.
Qed.

(** The numbers leave room for another round of updates. *)
Definition seq_room (t : two_entries) : Prop :=
  let i := bootloader_common_get_active_otadata t in
  i <> -1 -> 1 <= ota_seq (sel_get t i) /\ ota_seq (sel_get t i) + bs_app_count bs < UINT32_MAX.

Lemma new_state_u32 : is_u32 (set_new_state_otadata cfg).
Proof. unfold set_new_state_otadata. by destruct (CONFIG_BOOTLOADER_APP_ROLLBACK_ENABLE cfg). Qed.

Lemma new_state_fresh : let v := set_new_state_otadata cfg in
  v <> ESP_OTA_IMG_INVALID /\ v <> ESP_OTA_IMG_ABORTED /\ v <> ESP_OTA_IMG_PENDING_VERIFY.
Proof. unfold set_new_state_otadata. by destruct (CONFIG_BOOTLOADER_APP_ROLLBACK_ENABLE cfg). Qed.

Lemma sub_type_id j : 0 <= j < 16 -> SUB_TYPE_ID (ESP_PARTITION_SUBTYPE_APP_OTA_0 + j) = j.
Proof.
  intros Hj. unfold SUB_TYPE_ID, ESP_PARTITION_SUBTYPE_APP_OTA_0, ESP_PARTITION_SUBTYPE_APP_OTA_MIN.
  change 0x0F with (Z.ones 4). rewrite Z.land_ones by lia. change (2 ^ 4) with 16.
  replace (0x10 + 0 + j) with (j + 1 * 16) by lia. rewrite Z.mod_add, Z.mod_small by lia. done.
Qed.

(** The copy that is written, and the number it gets. *)
Lemma rewrite_ota_data_spec s slot :
  ota_app s -> 0 <= slot < bs_app_count bs -> seq_room (look (flash s)) ->
  exists s' i v, esp_rewrite_ota_data cfg md5 malloc (ESP_PARTITION_SUBTYPE_APP_OTA_0 + slot) s = RET ESP_OK s' /\
    (i = 0 \/ i = 1) /\ 0 < v < UINT32_MAX /\ slot = (v - 1) mod bs_app_count bs /\
    (bootloader_common_ota_select_valid (sel_get (look (flash s)) (1 - i)) = true -> ota_seq (sel_get (look (flash s)) (1 - i)) <= v) /\
    ota_changed s s' (sel_set (look (flash s)) i (sealed (set_state (sel_get (look (flash s)) i) (set_new_state_otadata cfg)) v)).
Proof.
  intros OA Hslot Hroom. destruct (otadata_item_spec s OA) as (p & Ep & _).
  pose proof (sp_count _ _ _ (oa_same _ OA)) as Hcount. set (t := look (flash s)) in *.
  assert (Go : forall i v, (i = 0 \/ i = 1) -> 0 < v < UINT32_MAX -> exists s',
    rewrite_ota_seq cfg (sel_set t i (set_state (sel_get t i) (set_new_state_otadata cfg))) v i (info p) s = RET ESP_OK s' /\
    ota_changed s s' (sel_set t i (sealed (set_state (sel_get t i) (set_new_state_otadata cfg)) v))).
  { intros i v Hi Hv. destruct (sel_get_set t i (set_state (sel_get t i) (set_new_state_otadata cfg)) Hi) as [G _].
    destruct (rewrite_ota_seq_spec s (sel_set t i (set_state (sel_get t i) (set_new_state_otadata cfg))) v i p OA Ep Hi) as (s' & R & C);
      rewrite ?G in *; [unfold UINT32_MAX, is_u32 in *; lia|apply set_state_ok; [apply entries_ok|apply new_state_u32]|apply label_bytes|].
    by exists s'. }
  unfold esp_rewrite_ota_data. rewrite (bind_RET _ _ _ _ _ (read_spec s p OA Ep)).
  rewrite (bind_RET _ _ _ _ _ (count_spec s OA)). fold t. rewrite sub_type_id by lia.
  rewrite (proj2 (Z.leb_gt _ _)) by lia. cbv zeta. unfold seq_room in Hroom.
  destruct (active_spec t) as [[Ei Hnone]|(Hi & Hv & _)].
  - rewrite Ei. cbn [Z.eqb negb]. destruct (Go 0 (slot + 1)) as (s' & R & C); [by left|unfold UINT32_MAX; lia|].
    exists s', 0, (slot + 1). split_and!; try done; try (unfold UINT32_MAX; lia).
    + rewrite Z.add_simpl_r, Z.mod_small by lia. done.
    + rewrite Hnone by by right. done.
  - set (k := bootloader_common_get_active_otadata t) in *. destruct Hroom as [Hseq1 Hseq2]; [lia|].
    rewrite (proj2 (Z.eqb_neq k (-1))) by lia. cbn [negb].
    destruct (next_seq_spec (ota_seq (sel_get t k)) slot (bs_app_count bs)) as (v & -> & Hvr & Hvm); [lia..|unfold UINT32_MAX in *; lia|].
    assert (Eo : other_copy k = 1 - k) by (destruct Hi as [-> | ->]; done). rewrite Eo.
    destruct (Go (1 - k) v) as (s' & R & C); [lia..|]. exists s', (1 - k), v.
    split_and!; try done; try lia. replace (1 - (1 - k)) with k by lia. lia.
Qed.


(** ** Which partition boots next *)

Lemma slot_item s e : ota_app s -> bs_app_count bs <> 0 ->
  exists p, find_slot cfg md5 malloc (slot_of e (bs_app_count bs)) s = RET (Some p) s /\
    pos_of (info p) = index_to_partition bs (slot_of e (bs_app_count bs)).
Proof.
  intros OA Hc. pose proof (sp_count _ _ _ (oa_same _ OA)) as Hcount.
  assert (Hs : 0 <= slot_of e (bs_app_count bs) < bs_app_count bs) by (apply Z.mod_pos_bound; lia).
  set (slot := slot_of e (bs_app_count bs)) in *.
  destruct (sp_slot _ _ _ (oa_same _ OA) slot Hs) as (p & Ep & Epos). exists p. split.
  - unfold find_slot. by rewrite find_app, Ep by done.
  - rewrite Epos. unfold index_to_partition, FACTORY_INDEX, TEST_APP_INDEX, MAX_OTA_SLOTS.
    rewrite !(proj2 (Z.eqb_neq slot _)) by lia. rewrite (i32_small (bs_app_count bs)) by lia.
    rewrite (proj2 (Z.leb_le _ _)), !(proj2 (Z.ltb_lt _ _)) by lia. done.
Qed.

Lemma factory_item s : ota_app s -> pos_offset (bs_factory bs) <> 0 ->
  exists p, esp_partition_find_first cfg md5 malloc ESP_PARTITION_TYPE_APP ESP_PARTITION_SUBTYPE_APP_FACTORY None s = RET (Some p) s /\
    pos_of (info p) = bs_factory bs.
Proof.
  intros OA Hf. pose proof (sp_factory _ _ _ (oa_same _ OA)) as E1. rewrite find_app by done.
  destruct (app_part ESP_PARTITION_SUBTYPE_APP_FACTORY (s_partition_list s)) as [p|]; simpl in E1; [by exists p|].
  by rewrite <- E1 in Hf.
Qed.

(** There is a factory application, or an entry that decides. *)
Definition decided (t : two_entries) : Prop :=
  pos_offset (bs_factory bs) <> 0 \/ (bootloader_common_get_active_otadata t <> -1 /\ bs_app_count bs <> 0).

Lemma active_choice t : bootloader_common_get_active_otadata t <> -1 -> bs_app_count bs <> 0 -> no_choice bs t = false.
Proof.
  intros Hact Hc. unfold no_choice. apply orb_false_iff. split; [|by apply Z.eqb_neq]. apply andb_false_iff.
  destruct (active_spec t) as [[? _]|(Hk & Hv & _)]; [done|].
  destruct Hk as [Ek|Ek]; rewrite Ek in Hv; apply valid_not_invalid in Hv; [by left|by right].
Qed.

(** When no entry waits for confirmation and there is a factory
    application or a valid entry, esp_ota_get_boot_partition returns the
    partition the bootloader would select from the same flash. *)
Theorem get_boot_partition_agrees s :
  ota_app s -> CONFIG_BOOTLOADER_APP_ANTI_ROLLBACK cfg = false ->
  let t := look (flash s) in
  aborted (CONFIG_BOOTLOADER_APP_ROLLBACK_ENABLE cfg) t = t -> decided t ->
  exists p index t', esp_ota_get_boot_partition cfg md5 malloc s = RET (Some p) s /\
    boots (flash s) index t' /\ pos_of (info p) = index_to_partition bs index.
Proof.
  intros OA Hanti t Hab Hd. pose proof (boots_select (flash s) Hanti (oa_works _ OA)) as B. fold t in B.
  destruct (otadata_item_spec s OA) as (q & Eq & _).
  unfold esp_ota_get_boot_partition. rewrite (bind_RET _ _ _ _ _ (read_spec s q OA Eq)), (bind_RET _ _ _ _ _ (count_spec s OA)).
  fold t. fold (no_choice bs t). unfold select in B. rewrite Hab in B.
  assert (Def : pos_offset (bs_factory bs) <> 0 -> exists p, find_default_boot_partition cfg md5 malloc s = RET (Some p) s /\
      pos_of (info p) = index_to_partition bs FACTORY_INDEX).
  { intros Hf. destruct (factory_item s OA Hf) as (p & Ep & Hp). exists p. split; [|done].
    unfold find_default_boot_partition. by rewrite (bind_RET _ _ _ _ _ Ep). }
  destruct (no_choice bs t) eqn:Hn.
  - destruct Hd as [Hf|[H1' H2']]; [|by rewrite active_choice in Hn].
    rewrite (proj2 (Z.eqb_neq _ _) Hf) in B. destruct (Def Hf) as (p & Ep & Hp). by exists p, FACTORY_INDEX, t.
  - destruct (Z.eqb_spec (bootloader_common_get_active_otadata t) (-1)) as [Ei|Ei]; cbn [negb].
    + destruct Hd as [Hf|[? _]]; [|done]. destruct (Def Hf) as (p & Ep & Hp). by exists p, FACTORY_INDEX, t.
    + unfold no_choice in Hn. apply orb_false_iff in Hn as [_ Hn]. apply Z.eqb_neq in Hn.
      destruct (slot_item s (sel_get t (bootloader_common_get_active_otadata t)) OA Hn) as (p & Ep & Hp). by eexists p, _, _.
Qed.

(** ** Confirming and giving up an update *)

(** The entry that decides. *)
Definition active_entry (t : two_entries) : esp_ota_select_entry_t := sel_get t (bootloader_common_get_active_otadata t).

Lemma mark_spec s p v i : ota_app s -> otadata_item s = Some p -> is_u32 v ->
  i = 0 \/ i = 1 -> bootloader_common_ota_select_valid (sel_get (look (flash s)) i) = true ->
  let e := sel_get (look (flash s)) i in
  exists s', rewrite_ota_seq cfg (sel_set (look (flash s)) i (set_state e v)) (ota_seq e) i (info p) s = RET ESP_OK s' /\
    ota_changed s s' (sel_set (look (flash s)) i (set_state e v)).
Proof.
  intros OA Ep Hv Hk Hval e. destruct (sel_get_set (look (flash s)) i (set_state e v) Hk) as [G _].
  destruct (rewrite_ota_seq_spec s (sel_set (look (flash s)) i (set_state e v)) (ota_seq e) i p OA Ep Hk) as (s' & R & C);
    rewrite ?G in *; [apply (eo_seq _ (entries_ok _ _ _ _))|apply set_state_ok; [apply entries_ok|done]|apply label_bytes|].
  exists s'. split; [done|]. by rewrite sealed_state in C.
Qed.

(** esp_ota_mark_app_valid_cancel_rollback marks the active entry valid
    and nothing else; the next boot selects the same slot and leaves its entry
    valid. *)
Theorem mark_valid_keeps_app s :
  ota_app s -> CONFIG_BOOTLOADER_APP_ANTI_ROLLBACK cfg = false ->
  let t := look (flash s) in
  let i := bootloader_common_get_active_otadata t in
  i <> -1 -> bs_app_count bs <> 0 ->
  exists s' t', esp_ota_mark_app_valid_cancel_rollback cfg md5 malloc image_verify phys_offs s = RET ESP_OK s' /\
    ota_changed s s' (sel_set t i (set_state (active_entry t) ESP_OTA_IMG_VALID)) /\
    boots (flash s') (slot_of (active_entry t) (bs_app_count bs)) t' /\
    ota_state (sel_get t' i) = ESP_OTA_IMG_VALID.
Proof.
  intros OA Hanti t i Hi Hc. destruct (otadata_item_spec s OA) as (p & Ep & _).
  destruct (active_spec t) as [[? _]|(Hk & Hval & Hmax)]; [done|]. fold i in Hk, Hval, Hmax.
  set (e := set_state (active_entry t) ESP_OTA_IMG_VALID).
  assert (Mark : exists s', esp_ota_mark_app_valid_cancel_rollback cfg md5 malloc image_verify phys_offs s = RET ESP_OK s' /\
     ota_changed s s' (sel_set t i e)).
  { unfold esp_ota_mark_app_valid_cancel_rollback, esp_ota_current_ota_is_workable.
    rewrite (bind_RET _ _ _ _ _ (read_spec s p OA Ep)). fold t i. rewrite (proj2 (Z.eqb_neq _ _) Hi). cbn [negb].
    rewrite (bind_RET _ _ _ _ _ (count_spec s OA)), (proj2 (Z.eqb_neq _ _) Hc). cbn [negb andb].
    destruct (Z.eqb_spec (ota_state (sel_get t i)) ESP_OTA_IMG_VALID) as [Es|Es]; cbn [negb].
    - exists s. split; [done|]. split; [done| |intros; apply stays_in_refl].
      unfold e, active_entry. fold i. by rewrite <- Es, set_state_same, sel_set_same.
    - destruct (mark_spec s p ESP_OTA_IMG_VALID i OA Ep) as (s' & R & C); [done..|]. fold t in R, C.
      exists s'. rewrite (bind_RET _ _ _ _ _ R), Hanti. done. }
  destruct Mark as (s' & R & C). destruct (sel_get_set t i e Hk) as [G1 G2].
  assert (Hev : bootloader_common_ota_select_valid e = true) by by apply valid_state.
  pose proof (select_entry (CONFIG_BOOTLOADER_APP_ROLLBACK_ENABLE cfg) bs (sel_set t i e) i Hk Hc) as S.
  cbv zeta in S. rewrite G1, G2 in S. specialize (S Hev ltac:(done) (Hmax (1 - i) ltac:(lia))).
  pose proof (boots_select (flash s') Hanti (oa_works _ (oc_app _ _ _ C))) as B. rewrite (oc_look _ _ _ C) in B.
  destruct (select _ bs _) as [[index t'] ?]. destruct S as [-> S2]. exists s', t'. split; [exact R|]. split; [exact C|]. split_and!; [done..|].
  by rewrite S2.
Qed.

(** Where a rollback leads when entry [i] is given up, and whether there is
    an image to go back to. *)
Definition rollback_index (t : two_entries) (i : Z) : Z :=
  if bootloader_common_ota_select_valid (sel_get t (1 - i)) then slot_of (sel_get t (1 - i)) (bs_app_count bs) else FACTORY_INDEX.
Definition rollback_image (f : F) (t : two_entries) (i : Z) : bool :=
  (bootloader_common_ota_select_valid (sel_get t (1 - i)) || negb (pos_offset (bs_factory bs) =? 0))
  && image_verify f (index_to_partition bs (rollback_index t i)).

(** The factory partition, if there is one, is not at address 0, where the
    bootloader is on the chips without an offset. *)
Definition factory_placed (s : st) : Prop :=
  forall p, app_part ESP_PARTITION_SUBTYPE_APP_FACTORY (s_partition_list s) = Some p -> address (info p) <> 0.

Lemma has_image_spec (s : st) p : has_image image_verify (Some p) s = RET (image_verify (flash s) (pos_of (info p))) s.
Proof. unfold has_image, image_validate, mbind, M_bind, gets. cbn. unfold pos_of. by destruct (image_verify _ _). Qed.

Lemma check_rollback_spec s : ota_app s -> CONFIG_BOOTLOADER_APP_ANTI_ROLLBACK cfg = false -> factory_placed s ->
  let t := look (flash s) in let i := bootloader_common_get_active_otadata t in
  i <> -1 -> bs_app_count bs <> 0 ->
  esp_ota_check_rollback_is_possible cfg md5 malloc image_verify s = RET (rollback_image (flash s) t i) s.
Proof.
  intros OA Hanti Hfac t i Hi Hc. destruct (otadata_item_spec s OA) as (p & Ep & _).
  destruct (active_spec t) as [[? _]|(Hk & _)]; [done|]. fold i in Hk.
  assert (Eo : other_copy i = 1 - i) by (destruct Hk as [-> | ->]; done).
  unfold esp_ota_check_rollback_is_possible. rewrite (bind_RET _ _ _ _ _ (read_spec s p OA Ep)), (bind_RET _ _ _ _ _ (count_spec s OA)).
  fold t. rewrite (proj2 (Z.eqb_neq _ _) Hc). cbv zeta. fold (bootloader_common_get_active_otadata t). fold i.
  rewrite (proj2 (Z.eqb_neq _ _) Hi), Eo.
  set (lv := bootloader_common_ota_select_valid (sel_get t (1 - i))).
  replace (if 1 - i =? 0 then _ else _) with lv by (unfold lv, sel_get; by destruct (1 - i =? 0)).
  unfold factory_image, rollback_image, rollback_index. fold lv. rewrite Hanti. cbn [negb andb].
  destruct lv; cbn [negb orb andb].
  - rewrite (bind_RET _ _ s false s) by done. destruct (slot_item s (sel_get t (1 - i)) OA Hc) as (q & Eq & Epos).
    unfold slot_of in Eq. rewrite (bind_RET _ _ _ _ _ Eq), (bind_RET _ _ _ _ _ (has_image_spec s q)), Epos.
    by destruct (image_verify _ _).
  - destruct (Z.eqb_spec (pos_offset (bs_factory bs)) 0) as [E0|E0]; cbn [negb andb].
    + assert (En : app_part ESP_PARTITION_SUBTYPE_APP_FACTORY (s_partition_list s) = None).
      { pose proof (sp_factory _ _ _ (oa_same _ OA)) as Ef. specialize (Hfac).
        destruct (app_part ESP_PARTITION_SUBTYPE_APP_FACTORY (s_partition_list s)) as [q|] eqn:Eq; [|done].
        exfalso. apply (Hfac q Eq). simpl in Ef. rewrite <- E0, <- Ef. done. }
      unfold mbind, M_bind. rewrite find_app, En by done. done.
    + destruct (factory_item s OA E0) as (q & Eq & Epos).
      unfold mbind, M_bind. rewrite Eq, has_image_spec, Epos. by destruct (image_verify _ _).
Qed.


(** ** The running partition and the next one to update *)

Definition contains (a : Z) (p : esp_partition_t) : bool := (address p <=? a) && (a <? u32 (address p + size p)).

Definition running (s : st) : option partition_list_item_t :=
  match curr_partition s with
  | Some p => Some p
  | None =>
      if phys_offs =? SPI_FLASH_CACHE2PHYS_FAIL then None
      else List.find (fun i => wanted ESP_PARTITION_TYPE_APP ESP_PARTITION_SUBTYPE_ANY None i && contains phys_offs (info i))
             (s_partition_list s)
  end.

Lemma get_running_spec s : loaded malloc s ->
  esp_ota_get_running_partition cfg md5 malloc phys_offs s =
  match running s with
  | Some r => RET r (match curr_partition s with Some _ => s | None => set_curr (Some r) s end)
  | None => ABORT
  end.
Proof.
  intros Hl. unfold esp_ota_get_running_partition, running, gets, mbind, M_bind.
  destruct (curr_partition s) as [c|]; [done|]. unfold assert_. destruct (phys_offs =? _); cbn [negb]; [done|].
  cbn [mret M_ret]. rewrite (find_spec cfg md5 malloc s ESP_PARTITION_TYPE_APP ESP_PARTITION_SUBTYPE_ANY None Hl) by by left.
  pose proof (scan_spec s ESP_PARTITION_TYPE_APP ESP_PARTITION_SUBTYPE_ANY None (contains phys_offs) (S (length (s_partition_list s)))
    [] (s_partition_list s) eq_refl (ld_ids _ _ Hl) ltac:(lia)) as S. unfold contains in *.
  destruct (advance _ _ _ _) as [it|].
  - rewrite S. by destruct (List.find _ _).
  - cbn in S. injection S as <-. done.
Qed.

Abbreviation slot j s := (ota_part j (s_partition_list s)).

Lemma slot_subtype (s : st) j q : 0 <= j < 16 -> slot j s = Some q -> List.In q (s_partition_list s) /\
  subtype (info q) = ESP_PARTITION_SUBTYPE_APP_OTA_MIN + j.
Proof.
  intros Hj Hq. apply List.find_some in Hq as [Hin Hw]. split; [done|]. unfold wanted, matches in Hw.
  replace (ESP_PARTITION_SUBTYPE_APP_OTA_MIN + j =? ESP_PARTITION_SUBTYPE_ANY) with false in Hw
    by (symmetry; apply Z.eqb_neq; unfold ESP_PARTITION_SUBTYPE_ANY, ESP_PARTITION_SUBTYPE_APP_OTA_MIN; lia).
  destruct (_ && _); [done|]. cbn [negb andb] in Hw.
  destruct (Z.eqb_spec (ESP_PARTITION_SUBTYPE_APP_OTA_MIN + j) (subtype (info q))); [done|done].
Qed.

Lemma same_item (s : st) p q : loaded malloc s -> List.In p (s_partition_list s) -> List.In q (s_partition_list s) ->
  item_id p = item_id q -> p = q.
Proof.
  intros [_ Hn _]. revert Hn. generalize (s_partition_list s). intros l Hn Hp Hq E1.
  induction l as [|e l IH]; [done|]. inversion_clear Hn as [|? ? Hnot Hn'].
  assert (Out : forall x, List.In x l -> item_id e <> item_id x).
  { intros x Hx E2. apply Hnot. rewrite E2. apply list_elem_of_fmap. exists x. split; [done|]. by apply list_elem_of_In. }
  destruct Hp as [<-|Hp], Hq as [<-|Hq]; [done|by destruct (Out q)|by destruct (Out p)|by apply IH].
Qed.

Section Next.
Context (s : st) (r : partition_list_item_t).
Context (OA : ota_app s) (Hr : List.In r (s_partition_list s)) (Hc : 0 < bs_app_count bs).
Abbreviation n := (bs_app_count bs).

Lemma slot_cases j : 0 <= j < 16 ->
  (j < n /\ exists q, slot j s = Some q /\ (item_id q = item_id r <-> q = r)) \/ (n <= j /\ slot j s = None).
Proof.
  intros Hj. destruct (decide (j < n)) as [Hlt|].
  - left. split; [done|]. destruct (sp_slot _ _ _ (oa_same _ OA) j ltac:(lia)) as (q & Eq & _). exists q. split; [done|].
    split; [|by intros ->]. apply (same_item s); [apply OA| |done]. by apply (slot_subtype s j).
  - right. split; [lia|]. apply (sp_end _ _ _ (oa_same _ OA)). lia.
Qed.

Lemma slot_inj j k q : 0 <= j < 16 -> 0 <= k < 16 -> slot j s = Some q -> slot k s = Some q -> j = k.
Proof. intros Hj Hk E1 E2. apply slot_subtype in E1 as [_ E1], E2 as [_ E2]; lia. Qed.

Lemma update_after m j k d : Z.of_nat m + j = 16 -> 0 <= k < j -> slot k s = Some r ->
  update_loop cfg md5 malloc m (ESP_PARTITION_SUBTYPE_APP_OTA_0 + j) r (Some d) true s = RET (if j <? n then slot j s else Some d) s.
Proof.
  revert j. induction m as [|m IH]; intros j Hm Hk Ek.
  - cbn [update_loop]. rewrite (proj2 (Z.ltb_ge _ _)); [done|]. pose proof (sp_count _ _ _ (oa_same _ OA)). lia.
  - cbn [update_loop]. rewrite (bind_RET _ _ _ _ _ (find_app s _ OA)).
    change (ESP_PARTITION_SUBTYPE_APP_OTA_0 + j) with (ESP_PARTITION_SUBTYPE_APP_OTA_MIN + j).
    destruct (slot_cases j ltac:(lia)) as [(Hlt & q & Eq & Hid)|[Hge En]].
    + rewrite Eq, (proj2 (Z.ltb_lt _ _) Hlt). destruct (Z.eqb_spec (item_id q) (item_id r)) as [E1|]; [|done].
      apply Hid in E1 as ->. pose proof (slot_inj j k r ltac:(lia) ltac:(lia) Eq Ek). lia.
    + rewrite En, (proj2 (Z.ltb_ge _ _) Hge). rewrite <- Z.add_assoc, IH by (done || lia).
      by rewrite (proj2 (Z.ltb_ge _ _)) by lia.
Qed.

(** The choice from slot [j] on. *)
Definition chosen (j : Z) (x : option partition_list_item_t) : Prop :=
  (forall k, j <= k < n -> slot k s = Some r -> x = slot ((k + 1) mod n) s) /\
  ((forall k, j <= k < n -> slot k s <> Some r) -> x = slot 0 s).

Lemma update_before m j : Z.of_nat m + j = 16 -> 0 <= j ->
  exists x, update_loop cfg md5 malloc m (ESP_PARTITION_SUBTYPE_APP_OTA_0 + j) r (if j =? 0 then None else slot 0 s) false s = RET x s /\ chosen j x.
Proof.
  pose proof (sp_count _ _ _ (oa_same _ OA)) as Hcount.
  revert j. induction m as [|m IH]; intros j Hm Hj.
  - cbn [update_loop]. rewrite (proj2 (Z.eqb_neq j 0)) by lia. exists (slot 0 s). split; [done|]. split; [lia|done].
  - cbn [update_loop]. rewrite (bind_RET _ _ _ _ _ (find_app s _ OA)).
    change (ESP_PARTITION_SUBTYPE_APP_OTA_0 + j) with (ESP_PARTITION_SUBTYPE_APP_OTA_MIN + j) at 1.
    destruct (IH (j + 1) ltac:(lia) ltac:(lia)) as (x & Ex & X1 & X2). rewrite (proj2 (Z.eqb_neq (j + 1) 0)) in Ex by lia.
    rewrite Z.add_assoc in Ex. destruct (slot_cases 0 ltac:(lia)) as [(_ & q0 & E0 & _)|[? _]]; [|lia].
    destruct (slot_cases j ltac:(lia)) as [(Hlt & q & Eq & Hid)|[Hge En]]; rewrite ?Eq, ?En.
    + assert (Ed : match (if j =? 0 then None else slot 0 s) with None => Some q | Some _ => (if j =? 0 then None else slot 0 s) end = slot 0 s).
      { destruct (Z.eqb_spec j 0) as [->|]; [done|]. by rewrite E0. }
      rewrite Ed. destruct (Z.eqb_spec (item_id q) (item_id r)) as [E1|E1].
      * apply Hid in E1 as ->. rewrite E0, <- Z.add_assoc, (update_after m (j + 1) j q0) by (done || lia).
        eexists. split; [done|]. split.
        -- intros k Hk Ek. rewrite (slot_inj k j r) by (done || lia). zcase.
           ++ by rewrite Z.mod_small by lia.
           ++ replace (j + 1) with n by lia. by rewrite Z_mod_same_full.
        -- intros Hno. by destruct (Hno j ltac:(lia)).
      * exists x. split; [done|]. assert (Hnr : slot j s <> Some r) by (rewrite Eq; intros [= ->]; done). split.
        -- intros k Hk Ek. apply X1; [|done]. destruct (decide (k = j)) as [->|]; [done|lia].
        -- intros Hno. apply X2. intros k Hk. apply Hno. lia.
    + exists x. rewrite (proj2 (Z.eqb_neq j 0)) in * by lia. split; [done|]. split; intros; [lia|]. apply X2. intros; lia.
Qed.
End Next.

Lemma chosen_slot s r x : ota_app s -> 0 < bs_app_count bs -> chosen s r 0 x ->
  exists j p, x = Some p /\ 0 <= j < bs_app_count bs /\ slot j s = Some p /\ (1 < bs_app_count bs -> slot j s <> Some r).
Proof.
  intros OA Hc [X1 X2]. pose proof (sp_count _ _ _ (oa_same _ OA)) as Hcount. set (k := subtype (info r) - ESP_PARTITION_SUBTYPE_APP_OTA_MIN).
  assert (Hk : forall j, 0 <= j < bs_app_count bs -> slot j s = Some r -> j = k).
  { intros j Hj Ej. apply slot_subtype in Ej as [_ Ej]; unfold k; lia. }
  destruct (decide (0 <= k < bs_app_count bs /\ slot k s = Some r)) as [[Hkr Ek]|Hno].
  - assert (Hj : 0 <= (k + 1) mod bs_app_count bs < bs_app_count bs) by (apply Z.mod_pos_bound; lia).
    destruct (sp_slot _ _ _ (oa_same _ OA) _ Hj) as (p & Ep & _). exists ((k + 1) mod bs_app_count bs), p.
    rewrite (X1 k), Ep by done. split_and!; try done; try lia. intros H2 [= ->]. specialize (Hk _ Hj Ep).
    destruct (decide (k + 1 = bs_app_count bs)) as [E1|]; [rewrite E1, Z_mod_same_full in Hk; lia|].
    rewrite Z.mod_small in Hk; lia.
  - assert (Hnone : forall j, 0 <= j < bs_app_count bs -> slot j s <> Some r).
    { intros j Hj Ej. apply Hno. rewrite <- (Hk j Hj Ej). done. }
    destruct (sp_slot _ _ _ (oa_same _ OA) 0 ltac:(lia)) as (p & Ep & _). exists 0, p.
    rewrite (X2 Hnone), Ep. split_and!; try done; try lia. intros _ [= ->]. by apply (Hnone 0 ltac:(lia)).
Qed.

(** esp_ota_get_next_update_partition returns the slot after the running
    one, cyclically, or slot 0 when the running application is in none; with
    two or more slots it is never the running partition. *)
Theorem next_update_partition_spec s r :
  ota_app s -> 0 < bs_app_count bs -> running s = Some r -> List.In r (s_partition_list s) ->
  exists p s', esp_ota_get_next_update_partition cfg md5 malloc phys_offs None s = RET (Some p) s' /\
    s_partition_list s' = s_partition_list s /\ ap_flash s' = ap_flash s /\
    chosen s r 0 (Some p) /\ (1 < bs_app_count bs -> item_id p <> item_id r).
Proof.
  intros OA Hc Hrun Hr. unfold esp_ota_get_next_update_partition. pose proof (get_running_spec s (oa_loaded _ OA)) as Eg.
  rewrite Hrun in Eg. set (s' := match curr_partition s with Some _ => s | None => set_curr (Some r) s end) in *.
  assert (OA' : ota_app s') by (destruct OA as [[] ? ? ? ?]; unfold s'; destruct (curr_partition s); by split).
  assert (El : s_partition_list s' = s_partition_list s /\ ap_flash s' = ap_flash s) by (unfold s'; by destruct (curr_partition s)).
  destruct El as [El Ef]. unfold mbind at 1 2, M_bind at 1 2. rewrite Eg. cbn [mret M_ret].
  destruct (update_before s' r OA' ltac:(by rewrite El) Hc 16 0 eq_refl ltac:(lia)) as (x & Ex & X).
  change (ESP_PARTITION_SUBTYPE_APP_OTA_0 + 0) with ESP_PARTITION_SUBTYPE_APP_OTA_0 in Ex. cbn [Z.eqb] in Ex. rewrite Ex.
  assert (X' : chosen s r 0 x) by (unfold chosen in *; by rewrite El in X). clear X.
  destruct (chosen_slot s r x OA Hc X') as (j & p & -> & Hj & Ep & Hne). exists p, s'.
  split; [done|]. split; [done|]. split; [done|]. split; [done|].
  intros Hc1 E1. apply Hne; [done|]. rewrite Ep. f_equal. apply (same_item s); [apply OA| |done..].
  apply (slot_subtype s j); [|done]. pose proof (sp_count _ _ _ (oa_same _ OA)). lia.
Qed.
End OtaBoot.

(** ** Limits *)

Lemma loop_nat_endless {A B} (f : A -> A + B) n a : (forall a, exists a', f a = inl a') -> exists a', loop_nat f n a = inl a'.
Proof.
  intros Hf. revert a. induction n as [|n IH]; intros a; [by exists a|]. cbn [loop_nat].
  destruct (Hf a) as [a' ->]. apply IH.
Qed.

(** At the end of the number space the search for the next number does not
    end: with four slots, the numbers of the last slot stop at
    [0xFFFFFFFC] and start again at 0. *)
Lemma next_seq_endless : next_seq 0xFFFFFFFE 3 4 = None.
Proof.
  unfold next_seq. cbv zeta. rewrite loop_pos_nat.
  match goal with |- match loop_nat ?f ?n ?a with _ => _ end = _ => destruct (loop_nat_endless f n a) as [a' ->]; [|done] end.
  intros i. exists (u32 (i + 1)). replace (_ <? 0xFFFFFFFE) with true; [done|]. symmetry. apply Z.ltb_lt.
  change ((3 + 1) mod 4) with 0. rewrite Z.add_0_l. unfold u32. rewrite Z.mod_mod by lia.
  Z.to_euclidean_division_equations. lia.
Qed.

(** Sixteen slots and a test application: the subtype of the test
    application follows that of the last slot, and the loop that counts the
    slots fails its assertion. *)
Lemma count_with_test_aborts :
  let l := (fun i => ex_item (Z.of_nat i) ESP_PARTITION_TYPE_APP (ESP_PARTITION_SUBTYPE_APP_OTA_MIN + Z.of_nat i)
                       (0x10000 * (1 + Z.of_nat i)) 0x10000) <$> seq 0 17 in
  subtype (info (nth 16 l (ex_item 0 0 0 0 0))) = ESP_PARTITION_SUBTYPE_APP_TEST /\
  esp_ota_get_app_partition_count ex_pcfg ex_md5 ex_heap (set_list l ex_app) = ABORT.
Proof. split; vm_compute; reflexivity. Qed.

(** ** Examples *)

Definition ex_of : ota_flash ex_pcfg ex_bs ex_works := ex_ota_flash ex_pcfg ex_bs eq_refl.

Lemma ex_same : same_partitions false ex_bs ex_list.
Proof.
  split; try (vm_compute; done).
  - eexists. split; [vm_compute; reflexivity|done].
  - intros j Hj. cbn [bs_app_count ex_bs] in Hj. assert (j = 0 \/ j = 1) as [-> | ->] by lia; eexists; (split; [vm_compute; reflexivity|done]).
  - intros j Hj. cbn [bs_app_count ex_bs] in Hj. revert j Hj. 
    assert (G : forall j, 0 <= j < 16 -> 2 <= j -> ota_part j ex_list = None).
    { apply (ex_slots_16 (fun j => 2 <= j -> ota_part j ex_list = None)).
      repeat constructor; intros Hj; first [exfalso; simpl in Hj; lia | vm_compute; reflexivity]. }
    intros j Hj. apply G; lia.
Qed.

Lemma ex_ota_app : ota_app ex_pcfg ex_heap ex_bs ex_works ex_app.
Proof.
  split; [exact ex_loaded|exact ex_same|done| |done|done].
  intros f Hf. unfold ex_works in Hf. cbn [fl_mmap nor_dev]. unfold in_range. by rewrite Hf.
Qed.

Definition ex_slot1 : esp_partition_t := info (ex_item 2 0 0x11 0x110000 0x100000).
Definition ex_slot0 : esp_partition_t := info (ex_item 1 0 0x10 0x10000 0x100000).
Definition ex_any (f : nor) (p : esp_partition_pos_t) : bool := true.


Lemma get_boot_partition_agrees_witness : exists p index t,
  esp_ota_get_boot_partition ex_pcfg ex_md5 ex_heap ex_app = RET (Some p) ex_app /\
  boots (E := Z) ex_pcfg ex_bs ex_nor index t /\ pos_of (info p) = index_to_partition ex_bs index.
Proof.
  apply (get_boot_partition_agrees ex_pcfg ex_md5 ex_heap ex_bs ex_works ex_of ex_app ex_ota_app eq_refl).
  - vm_compute. reflexivity.
  - right. vm_compute. split; discriminate.
Defined.

Lemma mark_valid_keeps_app_witness : exists s' t,
  esp_ota_mark_app_valid_cancel_rollback ex_pcfg ex_md5 ex_heap ex_any 0x120000 ex_app = RET ESP_OK s' /\
  boots (E := Z) ex_pcfg ex_bs (ap_flash s' DEFAULT_CHIP) 1 t /\ ota_state (sel_get t 1) = ESP_OTA_IMG_VALID.
Proof.
  destruct (mark_valid_keeps_app ex_pcfg ex_md5 ex_heap ex_any 0x120000 ex_bs ex_works ex_of ex_app ex_ota_app eq_refl)
    as (s' & t & R1 & _ & R2 & R3).
  - vm_compute. discriminate.
  - discriminate.
  - exists s', t. split; [exact R1|]. split.
    + revert R2. match goal with |- boots _ _ _ ?j _ -> _ => assert (Ej : j = 1) by (vm_compute; reflexivity); rewrite Ej end. done.
    + revert R3. match goal with |- ota_state (sel_get t ?j) = _ -> _ => assert (Ej : j = 1) by (vm_compute; reflexivity); rewrite Ej end. done.
Defined.


Lemma next_update_partition_spec_witness : exists p s',
  esp_ota_get_next_update_partition ex_pcfg ex_md5 ex_heap 0x120000 None ex_app = RET (Some p) s' /\ item_id p <> 2.
Proof.
  destruct (next_update_partition_spec ex_pcfg ex_md5 ex_heap 0x120000 ex_bs ex_works ex_app (ex_item 2 0 0x11 0x110000 0x100000) ex_ota_app)
    as (p & s' & R1 & _ & _ & _ & R2).
  - reflexivity.
  - vm_compute. reflexivity.
  - right. right. left. reflexivity.
  - exists p, s'. split; [exact R1|]. apply R2. reflexivity.
Defined.
