(* ===== verification/OtaUpdate.v ===== *)
(** * Writing an update

    From [esp_ota_begin] over any number of [esp_ota_write] calls to
    [esp_ota_end] (app_update/esp_ota_ops.c): the partition holds the
    concatenation of the chunks, in both erase modes and with the 16-byte
    buffering of flash encryption. *)

From S2P Require Import Prelude CMem Flash OtaData PartitionTable SecureVersion Bootloader BootTheorems.
From S2P Require Import Partitions PartitionTheorems OtaOps OtaBoot.

(** ** The list of open updates *)

Lemma get_store it l : get_ota_ops_entry (handle it) l <> None -> get_ota_ops_entry (handle it) (store_entry it l) = Some it.
Proof.
  unfold get_ota_ops_entry. induction l as [|e l IH]; [done|]. cbn [List.find store_entry].
  destruct (handle e =? handle it) eqn:E; cbn [List.find]; [by rewrite Z.eqb_refl|]. rewrite E. apply IH.
Qed.

Lemma get_handle h l it : get_ota_ops_entry h l = Some it -> handle it = h.
Proof. intros E. apply List.find_some in E as [_ E]. by apply Z.eqb_eq. Qed.

(** ** Blocks of sixteen *)

Lemma round16 (n : nat) : (n - n mod 16 = 16 * (n / 16))%nat.
Proof. pose proof (Nat.div_mod_eq n 16). lia. Qed.

Lemma take_blit (dst src : list Z) at_ : (at_ <= length dst)%nat ->
  take (at_ + length src) (blit dst at_ src) = take at_ dst ++ src.
Proof.
  intros Ha. unfold blit. rewrite app_assoc. apply take_app_length'.
  rewrite length_app, length_take. lia.
Qed.

Lemma length_blit (dst src : list Z) at_ : (at_ + length src <= length dst)%nat -> length (blit dst at_ src) = length dst.
Proof. intros Ha. unfold blit. rewrite !length_app, length_take, length_drop. lia. Qed.

Lemma blit_bytes dst at_ src : Forall is_byte dst -> Forall is_byte src -> Forall is_byte (blit dst at_ src).
Proof. intros Hd Hs. unfold blit. rewrite !Forall_app. split_and!; [by apply Forall_take|done|by apply Forall_drop]. Qed.

Lemma read_prefix m a l1 l2 : read_bytes m a (length (l1 ++ l2)) = l1 ++ l2 -> read_bytes m a (length l1) = l1.
Proof.
  rewrite length_app, read_bytes_app. intros E1. apply app_inj_1 in E1 as [E1 _]; [done|]. apply length_read_bytes.
Qed.

(** ** The partition during an update *)

Section Stream.
Context {F E : Type} `{FlashLaws F} `{EfuseDev E}.
Context (cfg : part_config) (h : Z) (p : partition_list_item_t) (good : F -> Prop).
Abbreviation st := (app_state F E).
Abbreviation P := (info p).
Abbreviation flash s := (ap_flash s DEFAULT_CHIP).
Abbreviation len l := (Z.of_nat (length l)).

(** A partition whose erases and writes succeed when they are within it and
    aligned: erases to sectors, encrypted writes to blocks of sixteen. *)
Record update_flash : Prop := {
  uf_addr : addressable P;
  uf_size : size P mod 4096 = 0;
  uf_chip : flash_chip P = DEFAULT_CHIP;
  uf_enc : encrypted P = cfg_encrypted cfg;
  uf_rw : encrypted P = true -> CONFIG_SPI_FLASH_ENABLE_ENCRYPTED_READ_WRITE cfg = true;
  uf_erase : forall f o n, good f -> 0 <= o -> 0 <= n -> o + n <= size P -> o mod 4096 = 0 -> n mod 4096 = 0 ->
    (fl_erase f (address P + o) n).1 = ESP_OK /\ good (fl_erase f (address P + o) n).2;
  uf_write : forall f o bytes, good f -> 0 <= o -> o + len bytes <= size P -> Forall is_byte bytes ->
    (encrypted P = true -> o mod 16 = 0 /\ (length bytes mod 16 = 0)%nat) ->
    (fl_write (encrypted P) f (address P + o) bytes).1 = ESP_OK /\ good (fl_write (encrypted P) f (address P + o) bytes).2
}.

Context (UF : update_flash).

(** The partition starts with [d]; what follows, up to [top], is erased. *)
Record holds (f : F) (d : list Z) (top : Z) : Prop := {
  ho_good : good f;
  ho_data : read_bytes (view (encrypted P) f) (address P) (length d) = d;
  ho_erased : erased (address P + len d) (top - len d) f;
  ho_top : top <= size P
}.

Lemma append_spec (s : st) d bytes top :
  holds (flash s) d top -> len d + len bytes <= top -> Forall is_byte bytes ->
  (encrypted P = true -> len d mod 16 = 0 /\ (length bytes mod 16 = 0)%nat) ->
  exists s', esp_partition_write cfg P (len d) bytes s = RET ESP_OK s' /\ stays_in P s s' /\ holds (flash s') (d ++ bytes) top.
Proof.
  intros [Hg Hd He Ht] Hle Hb Hal. destruct UF as [(Ha & Hs0 & Hend) _ Hchip Henc Hrw _ Hwr]. unfold part_end in Hend.
  destruct (Hwr (flash s) (len d) bytes Hg ltac:(lia) ltac:(lia) Hb Hal) as [E1 G1].
  unfold esp_partition_write.
  rewrite (proj2 (range_check_None P (len d) (len bytes) ltac:(lia) ltac:(lia) ltac:(lia))) by lia.
  destruct (on_chip_spec P (fun f => fl_write (encrypted P) f (u32 (address P + len d)) bytes) s) as (s' & R1 & R2 & R3).
  { apply write_frame; [done|lia..]. }
  rewrite u32_small, Hchip in * by lia. rewrite E1 in R1. exists s'. split_and!; [|done|].
  { destruct (encrypted P); cbn [negb]; [rewrite Hrw by done; rewrite Z.eqb_refl; cbn [negb]|]; by rewrite R1. }
  pose proof (law_write_frame (encrypted P) (flash s) (address P + len d) bytes) as Fr. rewrite <- R3 in Fr.
  split; rewrite ?length_app, ?Nat2Z.inj_add; [by rewrite R3| | |done].
  - rewrite read_bytes_app. f_equal.
    + rewrite (only_changes_read _ _ _ _ _ _ _ Fr) by lia. done.
    + apply (law_write (encrypted P) (flash s)).
      * rewrite R3, <- E1. apply surjective_pairing.
      * intros x Hx. apply He. lia.
  - intros x Hx. rewrite Fr by lia. apply He. lia.
Qed.

(** Erasing sectors behind the data. *)
Lemma erase_spec (s : st) d top o n :
  holds (flash s) d top -> 0 <= o -> 0 <= n -> o + n <= size P -> o mod 4096 = 0 -> n mod 4096 = 0 -> len d <= o <= top ->
  exists s', esp_partition_erase_range P o n s = RET ESP_OK s' /\ stays_in P s s' /\ holds (flash s') d (o + n).
Proof.
  intros [Hg Hd He Ht] Ho Hn Hon Hom Hnm Hdo. destruct UF as [(Ha & Hs0 & Hend) _ Hchip _ _ Her _]. unfold part_end in Hend.
  destruct (Her (flash s) o n Hg Ho Hn Hon Hom Hnm) as [E1 G1]. unfold esp_partition_erase_range.
  rewrite (proj2 (range_check_None P o n ltac:(lia) ltac:(lia) ltac:(lia))) by lia.
  unfold SPI_FLASH_SEC_SIZE. change 0x1000 with 4096. rewrite Hom, Hnm. cbn [Z.eqb negb].
  destruct (on_chip_spec P (fun f => fl_erase f (u32 (address P + o)) n) s) as (s' & R1 & R2 & R3).
  { apply erase_frame; [done|lia..]. }
  rewrite u32_small, Hchip in * by lia. rewrite E1 in R1. exists s'. split_and!; [done..|].
  pose proof (law_erase_frame (flash s) (address P + o) n) as Fr. rewrite <- R3 in Fr.
  assert (Er : erased (address P + o) n (flash s')).
  { rewrite R3. apply (law_erase (flash s)). rewrite <- E1. apply surjective_pairing. }
  split; [by rewrite R3| | |done].
  - by rewrite (only_changes_read _ _ _ _ _ _ _ Fr) by lia.
  - intros x Hx. destruct (decide (x < address P + o)); [rewrite Fr by lia; apply He; lia|apply Er; lia].
Qed.

(** ** One update *)

(** Erase ahead of the data ([OTA_WITH_SEQUENTIAL_WRITES]), or [lim] bytes
    erased by [esp_ota_begin]. *)
Context (sequential : bool) (lim : Z).

(** The entry of an update that wrote [d] and holds [pend] back. *)
Record entry_of (it : ota_ops_entry_t) (d pend : list Z) : Prop := {
  en_handle : handle it = h;
  en_part : part it = p;
  en_erase : need_erase it = sequential;
  en_wrote : wrote_size it = len d;
  en_partial : partial_bytes it = len pend;
  en_pend : take (length pend) (partial_data it) = pend;
  en_data : length (partial_data it) = 16%nat;
  en_bytes : Forall is_byte (partial_data it)
}.

Definition opened (s : st) (it : ota_ops_entry_t) : Prop := get_ota_ops_entry h (s_ota_ops_entries s) = Some it.

(** Between two states, only flash of the partition and the list of open
    updates differ. *)
Record moved (s s' : st) : Prop := {
  mv_chip : only_changes (address P) (size P) (flash s) (flash s');
  mv_other : forall c, c <> DEFAULT_CHIP -> ap_flash s' c = ap_flash s c;
  mv_efuse : ap_efuse s' = ap_efuse s;
  mv_list : s_partition_list s' = s_partition_list s
}.

Lemma moved_refl s : moved s s.
Proof. by split. Qed.

Lemma moved_trans s1 s2 s3 : moved s1 s2 -> moved s2 s3 -> moved s1 s3.
Proof.
  intros [C1 O1 ??] [C2 O2 ??]. split; try congruence.
  - intros en x Hx. etransitivity; [by apply C2|by apply C1].
  - intros c Hc. etransitivity; [by apply O2|by apply O1].
Qed.

Lemma stays_moved s s' : stays_in P s s' -> moved s s'.
Proof. intros []. rewrite (uf_chip UF) in *. by split. Qed.

Lemma stays_opened s s' it : stays_in P s s' -> opened s it -> opened s' it.
Proof. unfold opened. intros Hs Ho. by rewrite (si_entries _ _ _ Hs). Qed.

Lemma keep_spec s it it' : opened s it -> handle it' = h ->
  exists s', keep it' s = RET tt s' /\ opened s' it' /\ moved s s' /\ flash s' = flash s.
Proof.
  intros Ho Hh. unfold opened in *. eexists. split; [done|]. split_and!; [|by split|done]. cbn. rewrite <- Hh. apply get_store.
  rewrite Hh, Ho. done.
Qed.

(** The state of an update between two calls. *)
Record progress (s : st) (it : ota_ops_entry_t) (d pend : list Z) (top : Z) : Prop := {
  pg_entry : entry_of it d pend;
  pg_opened : opened s it;
  pg_holds : holds (flash s) d top;
  pg_le : len d <= top;
  pg_align : encrypted P = true -> len d mod 16 = 0
}.

Lemma write_data_spec s it d pend bytes top :
  progress s it d pend top -> len d + len bytes <= top -> Forall is_byte bytes ->
  (encrypted P = true -> (length bytes mod 16 = 0)%nat) ->
  exists s' it', write_data cfg it bytes s = RET ESP_OK s' /\ progress s' it' (d ++ bytes) pend top /\ moved s s'.
Proof.
  intros [En Ho Hh Hle Hal] Hlen Hb Hal'. destruct En. unfold write_data. rewrite en_part0, en_wrote0.
  destruct (append_spec s d bytes top Hh Hlen Hb) as (s1 & R1 & F1 & H1'); [by split; auto|].
  rewrite (bind_RET _ _ _ _ _ R1). cbn [is_ok].
  set (it' := mkOps _ _ _ _ _ _). destruct (keep_spec s1 it it' (stays_opened _ _ _ F1 Ho) en_handle0) as (s2 & R2 & O2 & M2 & F2).
  rewrite (bind_RET _ _ _ _ _ R2). exists s2, it'. split; [done|]. split; [|apply (moved_trans _ s1); [by apply stays_moved|done]].
  destruct (uf_addr UF) as (? & ? & ?). unfold part_end in *. pose proof (ho_top _ _ _ Hh).
  split; [|done|by rewrite F2|rewrite length_app; lia|].
  - split; try done. cbn [it' wrote_size]. rewrite length_app, u32_small by lia. lia.
  - intros He. rewrite length_app, Nat2Z.inj_add, Z.add_mod, Hal by (done || lia).
    specialize (Hal' He). apply (f_equal Z.of_nat) in Hal'. rewrite Nat2Z.inj_mod in Hal'. change (Z.of_nat 16) with 16 in Hal'.
    by rewrite Hal'.
Qed.

Lemma write_blocks_spec s it d bytes top :
  progress s it d [] top -> len d + 16 * (len bytes / 16) <= top -> Forall is_byte bytes ->
  exists s' it' d' pend', write_blocks cfg it bytes s = RET ESP_OK s' /\ progress s' it' d' pend' top /\ moved s s' /\
    d' ++ pend' = d ++ bytes /\ (length pend' < 16)%nat.
Proof.
  intros [En Ho Hh Hle Hal] Hlen Hb. destruct En. unfold write_blocks. cbv zeta.
  set (sz := (length bytes - length bytes mod 16)%nat).
  assert (Hrest : (length bytes mod 16 < 16)%nat) by (apply Nat.mod_upper_bound; lia).
  assert (Hsz : (sz <= length bytes)%nat) by (unfold sz; lia).
  assert (Hzs : Z.of_nat sz = 16 * (len bytes / 16)) by (unfold sz; rewrite round16, Nat2Z.inj_mul, Nat2Z.inj_div; lia).
  assert (Hd : length (drop sz bytes) = (length bytes mod 16)%nat) by (rewrite length_drop; unfold sz; pose proof (Nat.Div0.mod_le (length bytes) 16); lia).
  set (it' := mkOps _ _ _ _ _ _). destruct (keep_spec s it it' Ho en_handle0) as (s1 & R1 & O1 & M1 & F1).
  rewrite (bind_RET _ _ _ _ _ R1).
  assert (En' : entry_of it' d (drop sz bytes)).
  { split; try done; cbn [it' partial_bytes partial_data].
    - by rewrite Hd.
    - destruct (Nat.eqb_spec (length bytes mod 16) 0) as [E0|E0].
      + rewrite E0 in Hd. apply length_zero_iff_nil in Hd. by rewrite Hd.
      + apply (take_blit (partial_data it) (drop sz bytes) 0). lia.
    - destruct (length bytes mod 16 =? 0)%nat; [done|]. rewrite length_blit; [done|]. lia.
    - destruct (length bytes mod 16 =? 0)%nat; [done|]. apply blit_bytes; [done|]. by apply Forall_drop. }
  destruct (write_data_spec s1 it' d (drop sz bytes) (take sz bytes) top) as (s2 & it2 & R2 & P2 & M2).
  - split; [done..|by rewrite F1|done|done].
  - rewrite length_take, Nat.min_l by lia. lia.
  - by apply Forall_take.
  - intros _. rewrite length_take, Nat.min_l by lia. unfold sz. rewrite round16, Nat.mul_comm. by apply Nat.Div0.mod_mul.
  - exists s2, it2, (d ++ take sz bytes), (drop sz bytes). split_and!; [done..|by apply (moved_trans _ s1)| |lia].
    by rewrite <- app_assoc, take_drop.
Qed.

(** A full block goes to flash, then the rest of the chunk. *)
Lemma write_full_block s it d blk bytes top :
  progress s it d blk top -> encrypted P = true -> length blk = 16%nat ->
  len d + 16 * (1 + len bytes / 16) <= top -> Forall is_byte blk -> Forall is_byte bytes ->
  exists s' it' d' pend',
    (ret ← esp_partition_write cfg (info (part it)) (wrote_size it) (partial_data it);
     if negb (is_ok ret) then mret ret
     else
       let it := mkOps (handle it) (part it) (need_erase it) (u32 (wrote_size it + 16)) 0 (repeat 0xFF 16) in
       _ ← keep it; write_blocks cfg it bytes) s = RET ESP_OK s' /\
    progress s' it' d' pend' top /\ moved s s' /\ d' ++ pend' = d ++ blk ++ bytes /\ (length pend' < 16)%nat.
Proof.
  intros [[Eh Ep Ee Ew Epb Epd El Eby] Ho Hh Hle Hal] He L16 Hlen Hbb Hb.
  assert (Eblk : partial_data it = blk) by (rewrite <- Epd, L16, take_ge; [done|lia]). rewrite Ep, Ew, Eblk.
  assert (0 <= len bytes / 16) by (apply Z.div_pos; lia).
  destruct (append_spec s d blk top Hh) as (s2 & R2 & F2 & H2'); [lia|done|by rewrite L16; auto|].
  rewrite (bind_RET _ _ _ _ _ R2). cbn [is_ok negb]. cbv zeta.
  set (it2 := mkOps _ _ _ _ _ _). destruct (keep_spec s2 it it2 (stays_opened _ _ _ F2 Ho) Eh) as (s3 & R3 & O3 & M3 & F3).
  rewrite (bind_RET _ _ _ _ _ R3).
  assert (L2 : len (d ++ blk) = len d + 16) by (rewrite length_app; lia).
  destruct (uf_addr UF) as (? & ? & ?). unfold part_end in *. pose proof (ho_top _ _ _ Hh).
  destruct (write_blocks_spec s3 it2 (d ++ blk) bytes top) as (s4 & it4 & d4 & p4 & R4 & P4 & M4 & E4 & L4).
  - split; [|done|by rewrite F3|lia|].
    + split; try done; [cbn [it2 wrote_size]; by rewrite L2, u32_small by lia|]. by repeat constructor.
    + intros _. rewrite L2. rewrite Z.add_mod, Hal by (done || lia). done.
  - rewrite L2. lia.
  - done.
  - exists s4, it4, d4, p4. split_and!; try done; [|by rewrite E4, <- app_assoc].
    apply (moved_trans _ s2); [by apply stays_moved|]. by apply (moved_trans _ s3).
Qed.

(** Filling the buffer of sixteen bytes. *)
Lemma write_encrypted_spec s it d pend bytes top :
  progress s it d pend top -> (length pend < 16)%nat -> encrypted P = true ->
  len d + 16 * ((len pend + len bytes) / 16) <= top -> Forall is_byte bytes ->
  exists s' it' d' pend', write_encrypted cfg it bytes s = RET ESP_OK s' /\ progress s' it' d' pend' top /\ moved s s' /\
    d' ++ pend' = d ++ pend ++ bytes /\ (length pend' < 16)%nat.
Proof.
  intros Pg Hp He Hlen Hb. pose proof Pg as [[Eh Ep Ee Ew Epb Epd El Eby] Ho Hh Hle Hal]. unfold write_encrypted. rewrite Epb.
  assert (Hbp : Forall is_byte pend) by (rewrite <- Epd; by apply Forall_take).
  destruct pend as [|b0 pend0]; [by apply write_blocks_spec|]. set (pend := b0 :: pend0) in *.
  replace (len pend =? 0) with false by (symmetry; apply Z.eqb_neq; cbn; lia). cbn [negb]. cbv zeta.
  replace (Z.to_nat (16 - len pend)) with (16 - length pend)%nat by lia.
  set (n := Nat.min (16 - length pend) (length bytes)). rewrite Nat2Z.id.
  assert (Ln : length (take n bytes) = n) by (rewrite length_take; lia).
  set (it1 := mkOps _ _ _ _ _ _). destruct (keep_spec s it it1 Ho Eh) as (s1 & R1 & O1 & M1 & F1).
  rewrite (bind_RET _ _ _ _ _ R1).
  assert (Pg1 : progress s1 it1 d (pend ++ take n bytes) top).
  { split; [|done|by rewrite F1|done|done].
    split; try done; cbn [it1 partial_bytes partial_data]; rewrite ?length_app, ?Ln; [lia| | |by apply blit_bytes; [|apply Forall_take]].
    - pose proof (take_blit (partial_data it) (take n bytes) (length pend)) as T. rewrite Ln in T. rewrite T by lia. by rewrite Epd.
    - rewrite length_blit; [done|]. lia. }
  rewrite (en_partial _ _ _ (pg_entry _ _ _ _ _ Pg1)), length_app, Ln.
  destruct (Z.eqb_spec (Z.of_nat (length pend + n)) 16) as [E16|N16]; cbn [negb].
  - assert (Hdiv : (len pend + len bytes) / 16 = 1 + len (drop n bytes) / 16).
    { rewrite length_drop. replace (len pend + len bytes) with (1 * 16 + Z.of_nat (length bytes - n)) by lia.
      by rewrite Z.div_add_l by lia. }
    destruct (write_full_block s1 it1 d (pend ++ take n bytes) (drop n bytes) top Pg1 He) as (s4 & it4 & d4 & p4 & R4 & P4 & M4 & E4 & L4).
    + rewrite length_app, Ln. lia.
    + lia.
    + apply Forall_app. split; [done|]. by apply Forall_take.
    + by apply Forall_drop.
    + exists s4, it4, d4, p4. split_and!; try done; [by apply (moved_trans _ s1)|].
      rewrite E4, <- !app_assoc, take_drop. done.
  - assert (En : n = length bytes) by lia. rewrite (take_ge bytes) in * by lia.
    exists s1, it1, d, (pend ++ bytes). split_and!; try done. rewrite length_app. lia.
Qed.

(** ** Calls of the application *)

(** The end of the erased area between two calls. *)
Definition ahead (d : list Z) : Z := if sequential then (len d + 4095) / 4096 * 4096 else lim.

(** The chunks so far are [d ++ pend], [d] is in flash. *)
Record updating (s : st) (d pend : list Z) : Prop := {
  up_it : exists it, progress s it d pend (ahead d);
  up_small : (length pend < 16)%nat;
  up_plain : encrypted P = false -> pend = []
}.

(** Room for [n] bytes in all: sequential erasing needs one byte more. *)
Definition room (n : Z) : Prop := if sequential then n < size P else n <= lim.

Lemma erase_ahead_spec s it d pend n :
  progress s it d pend (ahead d) -> sequential = true -> 0 <= n -> len d + n < size P ->
  exists s', erase_ahead it n s = RET ESP_OK s' /\ stays_in P s s' /\ holds (flash s') d (((len d + n) / 4096 + 1) * 4096).
Proof.
  intros [[_ Ep _ Ew _ _ _ _] _ Hh _ _] Hs Hn Hr. unfold erase_ahead, ahead in *. rewrite Hs in Hh. rewrite Ep, Ew.
  destruct (uf_addr UF) as (? & ? & ?). pose proof (uf_size UF). unfold part_end in *. pose proof (ho_top _ _ _ Hh).
  unfold SPI_FLASH_SEC_SIZE. change 0x1000 with 4096. rewrite (u32_small (len d + n)) by lia.
  set (a := len d / 4096). set (b := (len d + n) / 4096).
  assert (Hab : 4096 * a <= len d < 4096 * a + 4096 /\ 4096 * b <= len d + n < 4096 * b + 4096)
    by (unfold a, b; Z.to_euclidean_division_equations; lia).
  assert (Hb : 4096 * b + 4096 <= size P) by (Z.to_euclidean_division_equations; lia).
  destruct (Z.eqb_spec (len d mod 4096) 0) as [E0|N0].
  - assert (Ea : len d = 4096 * a) by (unfold a; Z.to_euclidean_division_equations; lia).
    rewrite (u32_small (b - a + 1)), u32_small by lia.
    destruct (erase_spec s d _ (len d) ((b - a + 1) * 4096) Hh) as (s' & R1 & R2 & R3); try lia.
    { by rewrite Z.mod_mul by lia. }
    { split; [lia|]. Z.to_euclidean_division_equations. lia. }
    exists s'. split_and!; [done..|]. replace ((b + 1) * 4096) with (len d + (b - a + 1) * 4096) by lia. done.
  - assert (Eup : (len d + 4095) / 4096 * 4096 = (a + 1) * 4096) by (unfold a; Z.to_euclidean_division_equations; lia).
    rewrite Eup in Hh. destruct (Z.eqb_spec a b) as [Eab|Nab]; cbn [negb].
    + exists s. rewrite <- Eab. split_and!; [done|apply stays_in_refl|done].
    + rewrite (u32_small ((a + 1) * 4096)), (u32_small (b - a)), u32_small by lia.
      destruct (erase_spec s d _ ((a + 1) * 4096) ((b - a) * 4096) Hh) as (s' & R1 & R2 & R3); try lia.
      { by rewrite Z.mod_mul by lia. }
      { by rewrite Z.mod_mul by lia. }
      exists s'. split_and!; [done..|]. replace ((b + 1) * 4096) with ((a + 1) * 4096 + (b - a) * 4096) by lia. done.
Qed.

Lemma holds_le f d top top' : holds f d top -> top' <= top -> holds f d top'.
Proof. intros [Hg Hd He Ht] Hle. split; [done..| |lia]. intros x Hx. apply He. lia. Qed.

(** The first byte of an image. *)
Definition starts_ok (l : list Z) : Prop := match l with [] => True | b :: _ => b = ESP_IMAGE_HEADER_MAGIC end.

Lemma magic_test it d pend bytes : entry_of it d pend -> starts_ok (d ++ pend ++ bytes) ->
  (wrote_size it =? 0) && (partial_bytes it =? 0) && match bytes with b :: _ => negb (b =? ESP_IMAGE_HEADER_MAGIC) | [] => false end = false.
Proof.
  intros [_ _ _ Ew Ep _ _ _] Hm. rewrite Ew, Ep. destruct d; [|done]. destruct pend; [|done]. destruct bytes; [done|].
  simpl in Hm. subst. done.
Qed.

(** The erase in front of a chunk leaves room for what is written of it. *)
Lemma before_write s it d pend bytes : updating s d pend -> progress s it d pend (ahead d) -> room (len (d ++ pend ++ bytes)) ->
  exists s1 top, (if need_erase it then erase_ahead it (len bytes) else mret ESP_OK) s = RET ESP_OK s1 /\ moved s s1 /\
    progress s1 it d pend top /\ len d + len bytes <= top /\ (sequential = true -> top mod 4096 = 0) /\ (sequential = false -> top = lim) /\
    (encrypted P = true -> len d + 16 * ((len pend + len bytes) / 16) <= top).
Proof.
  intros [_ Hsm _] Pg Hroom. unfold room in Hroom. rewrite !length_app, !Nat2Z.inj_add in Hroom.
  pose proof Pg as [En Ho Hh Hle Hal]. rewrite (en_erase _ _ _ En). destruct sequential eqn:Hs.
  - destruct (erase_ahead_spec s it d pend (len bytes) Pg Hs) as (s1 & R1 & F1 & H1'); [lia..|].
    exists s1, (((len d + len bytes) / 4096 + 1) * 4096). split; [done|]. split; [by apply stays_moved|].
    assert (Htop : len d + len bytes < ((len d + len bytes) / 4096 + 1) * 4096) by (Z.to_euclidean_division_equations; lia).
    split_and!; try done; try lia.
    + split; [done|by apply (stays_opened s)|done|lia|done].
    + intros _. by rewrite Z.mod_mul by lia.
    + intros He. specialize (Hal He). Z.to_euclidean_division_equations. lia.
  - exists s, lim. unfold ahead in *. rewrite Hs in *. split_and!; try done; try lia.
    intros He. Z.to_euclidean_division_equations. lia.
Qed.

Lemma after_write s it d pend top : progress s it d pend top -> (sequential = true -> top mod 4096 = 0) ->
  (sequential = false -> top = lim) -> progress s it d pend (ahead d).
Proof.
  intros [En Ho Hh Hle Hal] Hs Hl. unfold ahead. destruct sequential eqn:Es.
  - specialize (Hs eq_refl). split; [done|done| |Z.to_euclidean_division_equations; lia|done].
    apply (holds_le _ _ top); [done|]. Z.to_euclidean_division_equations. lia.
  - rewrite <- (Hl eq_refl). by split.
Qed.

Lemma ota_write_spec s d pend bytes :
  updating s d pend -> room (len (d ++ pend ++ bytes)) -> Forall is_byte bytes -> starts_ok (d ++ pend ++ bytes) ->
  exists s' d' pend', esp_ota_write cfg h (Some bytes) s = RET ESP_OK s' /\ updating s' d' pend' /\ moved s s' /\
    d' ++ pend' = d ++ pend ++ bytes.
Proof.
  intros Up Hroom Hb Hm. pose proof Up as [[it Pg] Hsm Hpl].
  destruct (before_write s it d pend bytes Up Pg Hroom) as (s1 & top & R1 & M1 & Pg1 & Hle & Ht & Hl & Henc).
  unfold esp_ota_write, gets. rewrite (bind_RET _ _ s (Some it) s) by (by rewrite (pg_opened _ _ _ _ _ Pg)).
  rewrite (bind_RET _ _ _ _ _ R1). cbn [is_ok negb]. rewrite (magic_test it d pend bytes (pg_entry _ _ _ _ _ Pg) Hm).
  rewrite <- (uf_enc UF). destruct (encrypted P) eqn:He.
  - destruct (write_encrypted_spec s1 it d pend bytes top Pg1 Hsm He (Henc eq_refl) Hb) as (s2 & it2 & d2 & p2 & R2 & P2 & M2 & E2 & L2).
    exists s2, d2, p2. split_and!; [done| |by apply (moved_trans _ s1)|done].
    split; [|done|by rewrite He]. exists it2. by apply (after_write s2 it2 d2 p2 top).
  - rewrite (Hpl eq_refl) in *. destruct (write_data_spec s1 it d [] bytes top Pg1 Hle Hb) as (s2 & it2 & R2 & P2 & M2); [by rewrite He|].
    exists s2, (d ++ bytes), []. split_and!; [done| |by apply (moved_trans _ s1)|by rewrite app_nil_r].
    split; [|done|done]. exists it2. by apply (after_write s2 it2 (d ++ bytes) [] top).
Qed.

(** The loop of an application that feeds an update. *)
Fixpoint write_all (chunks : list (list Z)) : M st esp_err_t :=
  match chunks with
  | [] => mret ESP_OK
  | c :: chunks =>
      ret ← esp_ota_write cfg h (Some c);
      if negb (is_ok ret) then mret ret else write_all chunks
  end.

Lemma starts_prefix l k : starts_ok (l ++ k) -> starts_ok l.
Proof. by destruct l. Qed.

Lemma room_le a b : room b -> a <= b -> room a.
Proof. unfold room. destruct sequential; lia. Qed.

Lemma write_all_spec chunks s d pend :
  updating s d pend -> room (len (d ++ pend ++ concat chunks)) -> Forall (Forall is_byte) chunks ->
  starts_ok (d ++ pend ++ concat chunks) ->
  exists s' d' pend', write_all chunks s = RET ESP_OK s' /\ updating s' d' pend' /\ moved s s' /\
    d' ++ pend' = d ++ pend ++ concat chunks.
Proof.
  revert s d pend. induction chunks as [|c chunks IH]; intros s d pend Up Hr Hb Hm.
  - exists s, d, pend. simpl. rewrite app_nil_r. split_and!; [done..|apply moved_refl|done].
  - simpl concat in *. apply Forall_cons_iff in Hb as [Hc Hb].
    assert (Ea : d ++ pend ++ c ++ concat chunks = (d ++ pend ++ c) ++ concat chunks) by by rewrite <- !app_assoc.
    rewrite Ea in *.
    destruct (ota_write_spec s d pend c Up) as (s1 & d1 & p1 & R1 & U1 & M1 & E1);
      [by eapply room_le; [exact Hr|rewrite (length_app (d ++ pend ++ c)); lia]|done|by eapply starts_prefix|].
    rewrite <- E1, <- app_assoc in *.
    destruct (IH s1 d1 p1 U1 Hr Hb Hm) as (s2 & d2 & p2 & R2 & U2 & M2 & E2).
    exists s2, d2, p2. split_and!; [|done|by apply (moved_trans _ s1)|done].
    cbn [write_all]. rewrite (bind_RET _ _ _ _ _ R1). done.
Qed.

Context (image_verify : F -> esp_partition_pos_t -> bool).

(** In sequential mode nobody erases for the last partial block when it
    starts a sector. *)
Definition tail_erased (n : Z) : Prop := sequential = true -> encrypted P = true -> ~ (0 < n mod 4096 < 16).

Lemma ota_end_spec s d pend :
  updating s d pend -> room (len (d ++ pend)) -> 16 <= len (d ++ pend) -> tail_erased (len (d ++ pend)) -> (sequential = false -> lim mod 4096 = 0) ->
  exists s', esp_ota_end cfg image_verify h s =
      RET (if image_verify (flash s') (pos_of P) then ESP_OK else ESP_ERR_OTA_VALIDATE_FAILED) s' /\
    read_bytes (view (encrypted P) (flash s')) (address P) (length (d ++ pend)) = d ++ pend /\ moved s s' /\ good (flash s').
Proof.
  intros [[it Pg] Hsm Hpl] Hr H16 Ht Hlim. pose proof Pg as [[Eh Ep Ee Ew Epb Epd El Eby] Ho Hh Hle Hal].
  rewrite length_app, Nat2Z.inj_add in *. unfold esp_ota_end, gets. rewrite (bind_RET _ _ s (Some it) s) by (by rewrite Ho).
  rewrite Ew, Ep, Epb. replace (len d =? 0) with false by (symmetry; apply Z.eqb_neq; lia).
  assert (Fin : exists s1, (if 0 <? len pend then esp_partition_write cfg P (len d) (partial_data it) else mret ESP_OK) s = RET ESP_OK s1 /\
     moved s s1 /\ good (flash s1) /\ read_bytes (view (encrypted P) (flash s1)) (address P) (length (d ++ pend)) = d ++ pend).
  { destruct pend as [|b pend0].
    - exists s. split; [done|]. split; [apply moved_refl|]. split; [apply Hh|]. rewrite app_nil_r. apply Hh.
    - set (pend := b :: pend0) in *. rewrite (proj2 (Z.ltb_lt 0 (len pend))) by (cbn; lia).
      destruct (encrypted P) eqn:He; [|by specialize (Hpl eq_refl)]. specialize (Hal eq_refl).
      assert (Htop : len d + 16 <= ahead d).
      { unfold ahead, tail_erased, room in *. assert (1 <= len pend) by (cbn; lia). destruct sequential.
        - specialize (Ht eq_refl He). assert (len d mod 4096 <> 0); Z.to_euclidean_division_equations; lia.
        - specialize (Hlim eq_refl). Z.to_euclidean_division_equations. lia. }
      destruct (append_spec s d (partial_data it) (ahead d) Hh) as (s1 & R1 & F1 & H1'); [lia|done|by rewrite El|].
      exists s1. split; [done|]. split; [by apply stays_moved|]. split; [apply H1'|]. apply (read_prefix _ _ _ (drop (length pend) (partial_data it))).
      assert (Ea : pend ++ drop (length pend) (partial_data it) = partial_data it) by (rewrite <- Epd at 1; apply take_drop).
      rewrite <- app_assoc, Ea, <- He. apply H1'. }
  destruct Fin as (s1 & R1 & M1 & Hg & Hd). exists (set_entries (remove_entry h (s_ota_ops_entries s1)) s1).
  split; [|split; [rewrite <- length_app; exact Hd|split; [by apply (moved_trans _ s1); [|split]|exact Hg]]].
  unfold mbind, M_bind in *. rewrite R1. cbn [is_ok negb]. unfold image_validate, gets, mbind, M_bind, mret, M_ret, modify.
  fold (pos_of P). f_equal. by destruct (image_verify _ _).
Qed.
End Stream.

(** ** From begin to end *)

(** What [esp_ota_begin] erases. *)
Definition erased_size (p : esp_partition_t) (image_size : Z) : Z :=
  if (image_size =? 0) || (image_size =? OTA_SIZE_UNKNOWN) then size p
  else Z.land (u32 (image_size + SPI_FLASH_SEC_SIZE - 1)) (Z.lnot (SPI_FLASH_SEC_SIZE - 1)).

Lemma land_align x : Z.land x (Z.lnot 4095) = x / 4096 * 4096.
Proof.
  change 4095 with (Z.ones 12). rewrite <- Z.ldiff_land, Z.ldiff_ones_r, Z.shiftr_div_pow2, Z.shiftl_mul_pow2 by lia. done.
Qed.

Section Update.
Context {F E : Type} `{FlashLaws F} `{EfuseDev E}.
Context (cfg : part_config) (md5 : list Z -> list Z) (malloc : Z -> bool) (image_verify : F -> esp_partition_pos_t -> bool).
Context (phys_offs : Z) (bs : bootloader_state_t) (works : F -> Prop) (OF : ota_flash cfg bs works).
Context (p : partition_list_item_t) (good : F -> Prop) (UF : update_flash cfg p good).
Abbreviation st := (app_state F E).
Abbreviation P := (info p).
Abbreviation flash s := (ap_flash s DEFAULT_CHIP).
Abbreviation len l := (Z.of_nat (length l)).

(** A size the caller may pass: a marker, or the size of an image that fits. *)
Definition size_ok (image_size : Z) : Prop :=
  image_size = OTA_WITH_SEQUENTIAL_WRITES \/ image_size = OTA_SIZE_UNKNOWN \/ 0 <= image_size <= size P.

Lemma erased_size_ok image_size : size_ok image_size -> image_size <> OTA_WITH_SEQUENTIAL_WRITES ->
  0 <= erased_size P image_size <= size P /\ erased_size P image_size mod 4096 = 0 /\
  (image_size <> OTA_SIZE_UNKNOWN -> image_size <= erased_size P image_size).
Proof.
  intros Hs Hn. unfold erased_size, SPI_FLASH_SEC_SIZE. change (0x1000 - 1) with 4095. pose proof (uf_size _ _ _ UF) as Hm.
  destruct (uf_addr _ _ _ UF) as (? & ? & ?). unfold part_end in *.
  destruct (Z.eqb_spec image_size 0); cbn [orb]; [lia|]. destruct (Z.eqb_spec image_size OTA_SIZE_UNKNOWN); [lia|].
  destruct Hs as [?|[?|Hs]]; [done..|]. rewrite land_align. replace (image_size + 0x1000 - 1) with (image_size + 4095) by lia.
  destruct (decide (image_size + 4095 < 2 ^ 32)).
  - rewrite u32_small, Z.mod_mul by lia. split_and!; [| |done|]; Z.to_euclidean_division_equations; lia.
  - exfalso. Z.to_euclidean_division_equations. lia.
Qed.

Lemma state_partition_ret (s : st) q : ota_app cfg malloc bs works s ->
  exists r, esp_ota_get_state_partition cfg md5 malloc q s = RET r s.
Proof.
  intros OA. unfold esp_ota_get_state_partition. destruct (is_ota_partition q); cbn [negb]; [|by eexists].
  rewrite (bind_RET _ _ _ _ _ (count_spec cfg md5 malloc bs works s OA)).
  destruct (otadata_item_spec cfg malloc bs works s OA) as (i & Ei & _).
  rewrite (bind_RET _ _ _ _ _ (read_spec cfg md5 malloc bs works OF s i OA Ei)).
  repeat case_match; by eexists.
Qed.

Definition sequential_mode (image_size : Z) : bool := image_size =? OTA_WITH_SEQUENTIAL_WRITES.

Lemma erase_for_spec (s : st) image_size ret s' : good (flash s) -> size_ok image_size ->
  erase_for P image_size s = RET ret s' -> ret = ESP_OK ->
  moved p s s' /\ s_ota_ops_entries s' = s_ota_ops_entries s /\
  holds p good (flash s') [] (if sequential_mode image_size then 0 else erased_size P image_size).
Proof.
  intros Hg Hs. destruct (uf_addr _ _ _ UF) as (Ha & Hs0 & Hend).
  assert (H0' : holds p good (flash s) [] 0) by (split; [done|done|intros x Hx; simpl in Hx; lia|done]).
  unfold erase_for, sequential_mode. destruct (Z.eqb_spec image_size OTA_WITH_SEQUENTIAL_WRITES) as [|Hn]; cbn [negb].
  { intros [= <- <-] _. split; [apply moved_refl|done]. }
  pose proof (erased_size_ok image_size Hs Hn) as (Hb & Hm & _).
  assert (Er : forall R, esp_partition_erase_range P 0 (erased_size P image_size) s = R -> R = RET ret s' -> ret = ESP_OK ->
    moved p s s' /\ s_ota_ops_entries s' = s_ota_ops_entries s /\ holds p good (flash s') [] (erased_size P image_size)).
  { intros R ER ER' _. destruct (erase_spec cfg p good UF s [] 0 0 (erased_size P image_size) H0') as (s1 & R1 & F1 & H1'); [done|lia..|done|done|simpl; lia|].
    rewrite R1 in ER. rewrite <- ER in ER'. injection ER' as <- <-. split_and!; [by apply (stays_moved cfg p good UF)|apply F1|done]. }
  unfold erased_size in *. destruct ((image_size =? 0) || _); intros E1; by apply (Er _ eq_refl E1).
Qed.

Lemma begin_spec (s s0 : st) part0 image_size h :
  ota_app cfg malloc bs works s -> good (flash s) -> size_ok image_size ->
  esp_partition_verify cfg md5 malloc part0 s = RET (Some p) s ->
  esp_ota_begin cfg md5 malloc phys_offs (Some part0) image_size s = RET (ESP_OK, h) s0 ->
  updating h p good (sequential_mode image_size) (erased_size P image_size) s0 [] [] /\ moved p s s0 /\
  exists r, running phys_offs s = Some r /\ item_id p <> item_id r.
Proof.
  intros OA Hg Hs Hver Hbeg. unfold esp_ota_begin in Hbeg. rewrite (bind_RET _ _ _ _ _ Hver) in Hbeg.
  destruct (is_ota_partition P); cbn [negb] in Hbeg; [|done].
  apply bind_inv in Hbeg as (r & s1 & Hrun & Hbeg). rewrite (get_running_spec cfg md5 malloc phys_offs s (oa_loaded _ _ _ _ _ OA)) in Hrun.
  destruct (running phys_offs s) as [r'|] eqn:Er; [|done]. injection Hrun as -> Es1.
  destruct (Z.eqb_spec (item_id p) (item_id r)) as [|Hne]; [done|].
  assert (OA1 : ota_app cfg malloc bs works s1) by (rewrite <- Es1; destruct OA as [[] ? ? ? ?]; destruct (curr_partition s); by split).
  assert (M1 : moved p s s1) by (rewrite <- Es1; destruct (curr_partition s); by split).
  assert (Ef : flash s1 = flash s) by (rewrite <- Es1; by destruct (curr_partition s)). rewrite <- Ef in Hg.
  apply bind_inv in Hbeg as (pending & s2 & Hun & Hbeg). assert (s2 = s1) as ->.
  { unfold unconfirmed in Hun. destruct (CONFIG_BOOTLOADER_APP_ROLLBACK_ENABLE cfg); [|by injection Hun].
    destruct (state_partition_ret s1 (info r) OA1) as [res Er']. rewrite (bind_RET _ _ _ _ _ Er') in Hun. by injection Hun. }
  destruct pending; [done|]. apply bind_inv in Hbeg as (ret & s3 & Hera & Hbeg).
  destruct (is_ok_spec ret) as [->|Hno]; cbn [negb] in Hbeg; [|by injection Hbeg as ->].
  destruct (erase_for_spec s1 image_size ESP_OK s3 Hg Hs Hera eq_refl) as (M3 & El & Hh).
  unfold new_entry in Hbeg. destruct (malloc (ap_blocks s3)); cbn [negb] in Hbeg; [|done]. injection Hbeg as <- <-.
  split_and!; [|by apply (moved_trans _ _ s1); [|apply (moved_trans _ _ s3); [|split]]|by exists r].
  split; [|simpl; lia|done]. exists (mkOps (u32 (s_ota_ops_last_handle s3 + 1)) p (sequential_mode image_size) 0 0 (repeat 0 16)). split.
  - split; try done. by repeat constructor.
  - unfold opened. cbn. by rewrite Z.eqb_refl.
  - unfold ahead. cbn. destruct (sequential_mode image_size); apply Hh.
  - unfold ahead. pose proof (erased_size_ok image_size Hs) as Hb. unfold sequential_mode.
    destruct (Z.eqb_spec image_size OTA_WITH_SEQUENTIAL_WRITES) as [|Hn]; simpl; [done|]. by apply Hb.
  - done.
Qed.

(** The bytes of an image an update can take. *)
Record image_fits (image_size : Z) (data : list Z) : Prop := {
  if_magic : starts_ok data;
  if_min : 16 <= len data;
  if_room : if sequential_mode image_size then len data < size P else len data <= erased_size P image_size;
  if_tail : sequential_mode image_size = true -> encrypted P = true -> ~ (0 < len data mod 4096 < 16)
}.

Lemma update_spec (s s0 : st) part0 image_size h chunks :
  ota_app cfg malloc bs works s -> good (flash s) -> size_ok image_size ->
  esp_partition_verify cfg md5 malloc part0 s = RET (Some p) s ->
  esp_ota_begin cfg md5 malloc phys_offs (Some part0) image_size s = RET (ESP_OK, h) s0 ->
  Forall (Forall is_byte) chunks -> image_fits image_size (concat chunks) ->
  exists s1 s2,
    write_all cfg h chunks s0 = RET ESP_OK s1 /\
    esp_ota_end cfg image_verify h s1 =
      RET (if image_verify (flash s2) (pos_of P) then ESP_OK else ESP_ERR_OTA_VALIDATE_FAILED) s2 /\
    read_bytes (view (encrypted P) (flash s2)) (address P) (length (concat chunks)) = concat chunks /\
    moved p s s2 /\ good (flash s2) /\ exists r, running phys_offs s = Some r /\ item_id p <> item_id r.
Proof.
  intros OA Hg Hs Hver Hbeg Hb [Fm F16 Fr Ft].
  destruct (begin_spec s s0 part0 image_size h OA Hg Hs Hver Hbeg) as (Up & M0 & Hrun).
  assert (Hlim : sequential_mode image_size = false -> erased_size P image_size mod 4096 = 0).
  { intros Hn. apply erased_size_ok; [done|]. by apply Z.eqb_neq. }
  destruct (write_all_spec cfg h p good UF (sequential_mode image_size) (erased_size P image_size) chunks s0 [] [] Up Fr Hb Fm)
    as (s1 & d & pend & R1 & U1 & M1 & E1). cbn [app] in E1. rewrite <- E1 in *.
  destruct (ota_end_spec cfg h p good UF (sequential_mode image_size) (erased_size P image_size) image_verify s1 d pend U1 Fr F16 Ft Hlim)
    as (s2 & R2 & Hd & M2 & Hg2).
  exists s1, s2. split_and!; [done..| |done|done]. apply (moved_trans _ _ s1); [|done]. by apply (moved_trans _ _ s0).
Qed.

(** After a successful esp_ota_begin, writing the chunks of an image that
    fits and calling esp_ota_end succeed and leave the concatenation of the
    chunks in the partition, with or without flash encryption and in both
    erase modes; the result is that of the image verification, only this
    partition's flash changed, and it is not the running one. *)
Theorem update_stored (s s0 : st) part0 image_size h chunks :
  ota_app cfg malloc bs works s -> good (flash s) -> size_ok image_size ->
  esp_partition_verify cfg md5 malloc part0 s = RET (Some p) s ->
  esp_ota_begin cfg md5 malloc phys_offs (Some part0) image_size s = RET (ESP_OK, h) s0 ->
  Forall (Forall is_byte) chunks -> image_fits image_size (concat chunks) ->
  exists s1 s2,
    write_all cfg h chunks s0 = RET ESP_OK s1 /\
    esp_ota_end cfg image_verify h s1 =
      RET (if image_verify (flash s2) (pos_of P) then ESP_OK else ESP_ERR_OTA_VALIDATE_FAILED) s2 /\
    read_bytes (view (encrypted P) (flash s2)) (address P) (length (concat chunks)) = concat chunks /\
    moved p s s2 /\ exists r, running phys_offs s = Some r /\ item_id p <> item_id r.
Proof.
  intros OA Hg Hs Hver Hbeg Hb Hf. destruct (update_spec s s0 part0 image_size h chunks OA Hg Hs Hver Hbeg Hb Hf) as (s1 & s2 & R1 & R2 & R3 & M & _ & Hr).
  by exists s1, s2.
Qed.
End Update.

(** ** Limits *)

(** A partition of 1 MiB and a configuration with flash encryption. *)
Definition ex_dst : partition_list_item_t := ex_item 1 0 0x10 0x10000 0x100000.
Definition ex_dst_enc : partition_list_item_t := mkItem 1 (mkPart DEFAULT_CHIP 0x10000 0x100000 0x1000 0 0x10 [] true) false.
Definition ex_pcfg_enc : part_config :=
  mkPcfg (mkCfg true false false true 0x8000 16 0x400000 true) true false true 0x10000.
Definition ex_open (it : ota_ops_entry_t) : app_state nor Z := set_entries [it] ex_app.
Definition ex_zeros : app_state nor Z :=
  set_chip DEFAULT_CHIP (mkNor (fun _ => 0) 0x400000) (ex_open (mkOps 1 ex_dst_enc true 0 0 (repeat 0 16))).

(** Sequential erasing goes one sector too far when a chunk ends with a
    sector, so that an image cannot fill its partition. *)
Lemma sequential_cannot_fill :
  let it := mkOps 1 ex_dst true 0xFF000 0 (repeat 0 16) in
  wrote_size it + 4096 = size (info ex_dst) /\
  ex_value (esp_ota_write ex_pcfg 1 (Some (repeat 0xE9 4096)) (ex_open it)) = Some ESP_ERR_INVALID_SIZE.
Proof. split; vm_compute; reflexivity. Qed.

(** With flash encryption, the last block of an image may start a sector
    that sequential mode has not erased: every call succeeds, and the last
    byte of the image, 2, is stored as 0. *)
Definition ex_fed : app_state nor Z := ex_result (write_all ex_pcfg_enc 1 [repeat 0xE9 4095; [1; 2]] ex_zeros) ex_zeros.
Definition ex_ended : app_state nor Z := ex_result (esp_ota_end ex_pcfg_enc ex_any 1 ex_fed) ex_zeros.

Lemma sequential_tail_corrupted :
  write_all ex_pcfg_enc 1 [repeat 0xE9 4095; [1; 2]] ex_zeros = RET ESP_OK ex_fed /\
  esp_ota_end ex_pcfg_enc ex_any 1 ex_fed = RET ESP_OK ex_ended /\
  view true (ap_flash ex_ended DEFAULT_CHIP) (0x10000 + 4096) = 0.
Proof. split; [|split]; [apply ex_ret; vm_compute; reflexivity..|vm_compute; reflexivity]. Qed.

(** The size is rounded up in 32 bits: sizes above [0xFFFFF000] erase
    nothing. *)
Lemma huge_image_erases_nothing : erased_size (info ex_dst) 0xFFFFF001 = 0.
Proof. done. Qed.

(** ** Example *)

Lemma ex_update_flash : update_flash ex_pcfg ex_dst ex_works.
Proof.
  split; try done.
  - intros f o n Hf Ho Hn Hon _ _. unfold ex_works in *. cbn [fl_erase nor_dev]. unfold in_range. rewrite Hf. cbn [address size info ex_dst ex_item] in *.
    by rewrite !(proj2 (Z.leb_le _ _)) by lia.
  - intros f o bytes Hf Ho Hon Hb _. unfold ex_works in *. cbn [fl_write nor_dev]. unfold in_range. rewrite Hf. cbn [address size info ex_dst ex_item] in *.
    assert (Eb : forallb (fun b => (0 <=? b) && (b <? 256)) bytes = true).
    { apply forallb_forall. intros x Hx. rewrite Forall_forall in Hb. specialize (Hb x Hx). unfold is_byte in Hb.
      apply andb_true_iff. split; [apply Z.leb_le|apply Z.ltb_lt]; lia. }
    by rewrite Eb, !(proj2 (Z.leb_le _ _)) by lia.
Qed.

Definition ex_begun : app_state nor Z :=
  ex_result (esp_ota_begin ex_pcfg ex_md5 ex_heap 0x120000 (Some ex_slot0) OTA_WITH_SEQUENTIAL_WRITES ex_app) ex_app.

Lemma update_stored_witness : exists s1 s2,
  write_all ex_pcfg 1 [[0xE9; 1; 2; 3; 4; 5; 6; 7]; [8; 9; 10; 11; 12; 13; 14; 15; 16]] ex_begun = RET ESP_OK s1 /\
  esp_ota_end ex_pcfg ex_any 1 s1 = RET ESP_OK s2 /\
  read_bytes (view false (ap_flash s2 DEFAULT_CHIP)) 0x10000 17 = [0xE9; 1; 2; 3; 4; 5; 6; 7; 8; 9; 10; 11; 12; 13; 14; 15; 16].
Proof.
  destruct (update_stored ex_pcfg ex_md5 ex_heap ex_any 0x120000 ex_bs ex_works ex_of ex_dst ex_works ex_update_flash ex_app ex_begun
    ex_slot0 OTA_WITH_SEQUENTIAL_WRITES 1 [[0xE9; 1; 2; 3; 4; 5; 6; 7]; [8; 9; 10; 11; 12; 13; 14; 15; 16]] ex_ota_app)
    as (s1 & s2 & R1 & R2 & R3 & _).
  - reflexivity.
  - left. reflexivity.
  - assert (Ev : ex_value (esp_partition_verify ex_pcfg ex_md5 ex_heap ex_slot0 ex_app) = Some (Some ex_dst)) by (vm_compute; reflexivity).
    rewrite (ex_ret _ _ ex_app Ev). reflexivity.
  - apply ex_ret. vm_compute. reflexivity.
  - repeat constructor; discriminate.
  - split; [reflexivity|simpl; lia|reflexivity|discriminate].
  - exists s1, s2. split; [exact R1|]. split; [exact R2|exact R3].
Defined.
