(* ===== verification/ImageFormat.v ===== *)
(** * Verifying and loading application images

    components/bootloader_support/src/esp_image_format.c, in the build of the
    bootloader and in that of the application, with and without signature
    checks, and the functions of bootloader_flash.c and
    bootloader_common_loader.c it calls.  The options of the build and the
    facts of the chip are the record [image_config].  SHA-256, the check of a
    signature block and the random numbers that end the search for an
    obfuscation value are parameters.

    A call is a computation of the monad [M] on the state [img]: the metadata
    it fills in, the running hash and checksum, RAM, and the obfuscation value.
    [ABORT] is a failed assertion, an access outside an array or through
    [NULL], or a loop that does not end; [RESTART] is the reset of
    [ESP_FAULT_ASSERT]. *)

From S2P Require Import Prelude CMem Flash OtaData PartitionTable Partitions.

(** ** The format *)

Definition ESP_IMAGE_HEADER_MAGIC : Z := 0xE9.
Definition ESP_IMAGE_MAX_SEGMENTS : Z := 16.
Definition HASH_LEN : Z := 32.
Definition HEADER_SIZE : Z := 24.
Definition SEGMENT_HEADER_SIZE : Z := 8.
Definition SIXTEEN_MB : Z := 0x1000000.
Definition ESP_ROM_CHECKSUM_INITIAL : Z := 0xEF.
Definition STACK_LOAD_HEADROOM : Z := 32768.
Definition SPI_FLASH_MMU_PAGE_SIZE : Z := 0x10000.
Definition SIGNATURE_SECTOR : Z := 0x1000. (* FLASH_SECTOR_SIZE *)
Definition SIGNATURE_SIZE : Z := 4096. (* sizeof(ets_secure_boot_signature_t) *)
Definition SIG_BLOCK_SIZE : Z := 68. (* sizeof(esp_secure_boot_sig_block_t) *)

Record esp_image_header_t := mkHeader {
  magic : Z;
  segment_count : Z;
  spi_mode : Z;
  spi_speed_size : Z;
  entry_addr : Z;
  chip_id : Z;
  min_chip_rev_full : Z;
  max_chip_rev_full : Z;
  hash_appended : Z
}.

Definition byte_at (bs : list Z) (i : nat) : Z := nth i bs 0.

(** The packed structure. *)
Definition decode_header (bs : list Z) : esp_image_header_t :=
  mkHeader (byte_at bs 0) (byte_at bs 1) (byte_at bs 2) (byte_at bs 3) (get32 bs 4) (get16 bs 12)
    (get16 bs 15) (get16 bs 17) (byte_at bs 23).

Record esp_image_segment_header_t := mkSegHdr { load_addr : Z; data_len : Z }.

Definition decode_segment (bs : list Z) : esp_image_segment_header_t := mkSegHdr (get32 bs 0) (get32 bs 4).

Record esp_image_metadata_t := mkMeta {
  start_addr : Z;
  image : esp_image_header_t;
  segments : list esp_image_segment_header_t;
  segment_data : list Z;
  image_len : Z;
  image_digest : list Z
}.

Definition zero_header : esp_image_header_t := mkHeader 0 0 0 0 0 0 0 0 0.
(** After [bzero]. *)
Definition zero_metadata : esp_image_metadata_t :=
  mkMeta 0 zero_header (repeat (mkSegHdr 0 0) 16) (repeat 0 16) 0 (repeat 0 32).

Inductive esp_image_load_mode_t := ESP_IMAGE_VERIFY | ESP_IMAGE_VERIFY_SILENT | ESP_IMAGE_LOAD | ESP_IMAGE_LOAD_NO_VALIDATE.

#[export] Instance load_mode_eq_dec : EqDecision esp_image_load_mode_t.
Proof. solve_decision. Defined.

(** ** Configuration *)

(** An address range [[low, high)]. *)
Definition range : Type := Z * Z.

(** soc.h *)
Record soc := mkSoc {
  SOC_IROM : range;
  SOC_DROM : range;
  SOC_DRAM : range;
  SOC_IRAM : range;
  SOC_RTC_IRAM : range;
  SOC_RTC_DRAM : range;
  SOC_RTC_DATA : range;
  SOC_DIRAM_DRAM : range;
  SOC_DIRAM_IRAM : range;
  SOC_DIRAM_INVERTED : bool;
  SOC_RTC_FAST_MEM_SUPPORTED : bool;
  SOC_RTC_SLOW_MEM_SUPPORTED : bool;
  SOC_ROM_STACK_START : Z
}.

Record image_config := mkImgCfg {
  BOOTLOADER_BUILD : bool;
  SECURE_BOOT_CHECK_SIGNATURE : bool;
  CONFIG_SECURE_BOOT : bool;
  CONFIG_SECURE_SIGNED_APPS_NO_SECURE_BOOT : bool;
  CONFIG_SECURE_BOOT_V2_ENABLED : bool;
  CONFIG_SECURE_SIGNED_APPS_ECDSA_SCHEME : bool;
  CONFIG_SECURE_SIGNED_APPS_V2_SCHEME : bool; (* RSA_SCHEME or ECDSA_V2_SCHEME *)
  CONFIG_BOOTLOADER_SKIP_VALIDATE_ALWAYS : bool;
  CONFIG_BOOTLOADER_SKIP_VALIDATE_ON_POWER_ON : bool;
  ESP_BOOTLOADER_OFFSET : Z;
  ESP_PARTITION_TABLE_OFFSET : Z;
  CONFIG_IDF_FIRMWARE_CHIP_ID : Z;
  ic_encrypted : bool; (* esp_flash_encryption_enabled() *)
  ic_secure_boot_enabled : bool; (* esp_secure_boot_enabled() *)
  ic_revision : Z; (* efuse_hal_chip_revision() *)
  ic_ignore_max_rev : bool; (* efuse_ll_get_disable_wafer_version_major() *)
  ic_debugger : bool; (* esp_cpu_dbgr_is_attached() *)
  ic_deep_sleep : bool; (* the reset reason is RESET_REASON_CORE_DEEP_SLEEP *)
  ic_power_on : bool; (* the reset reason is RESET_REASON_CHIP_POWER_ON *)
  ic_soc : soc;
  ic_sp : Z; (* esp_cpu_get_sp() *)
  ic_dram : range; (* _dram_start, _dram_end *)
  ic_loader_text : range; (* _loader_text_start, _loader_text_end *)
  MMU_SIZE : Z;
  ic_free_pages : Z; (* spi_flash_mmap_get_free_pages(SPI_FLASH_MMAP_DATA) *)
  ic_vaddr_valid : Z -> bool; (* mmu_ll_check_valid_ext_vaddr_region *)
  ic_sha_ok : bool (* the hash context can be allocated *)
}.

(** ** State *)

Record img := mkImg {
  ld_data : esp_image_metadata_t;
  ld_sha : option (list Z); (* what was hashed, [None] for no handle *)
  ld_checksum : Z;
  ld_ram : mem;
  ram_obfs_value : Z * Z
}.

Definition set_data (d : esp_image_metadata_t) (s : img) : img := mkImg d (ld_sha s) (ld_checksum s) (ld_ram s) (ram_obfs_value s).
Definition set_sha (h : option (list Z)) (s : img) : img := mkImg (ld_data s) h (ld_checksum s) (ld_ram s) (ram_obfs_value s).
Definition set_checksum (c : Z) (s : img) : img := mkImg (ld_data s) (ld_sha s) c (ld_ram s) (ram_obfs_value s).
Definition set_ram (m : mem) (s : img) : img := mkImg (ld_data s) (ld_sha s) (ld_checksum s) m (ram_obfs_value s).
Definition set_obfs (v : Z * Z) (s : img) : img := mkImg (ld_data s) (ld_sha s) (ld_checksum s) (ld_ram s) v.

Definition set_image_len (n : Z) (d : esp_image_metadata_t) : esp_image_metadata_t :=
  mkMeta (start_addr d) (image d) (segments d) (segment_data d) n (image_digest d).

(** A failed [ESP_FAULT_ASSERT]. *)
Definition fault {A} : M img A := fun s => RESTART s.

(** [if ((err = m) != ESP_OK) goto err;] in a function that returns [err]. *)
Notation "'CHECK_ERR' m ; k" := (err ← m; if is_ok err then k else mret err)
  (at level 100, m at next level, k at level 200, right associativity) : c_scope.

Section Image.
Context {F : Type} `{FlashDev F}.
Context (cfg : image_config) (sha256 : list Z -> list Z).
(** [esp_secure_boot_verify_ecdsa_signature_block] or
    [esp_secure_boot_verify_sbv2_signature_block]: the block and the digest
    of the image; the result and the verified digest. *)
Context (verify_signature_block : list Z -> list Z -> esp_err_t * list Z).
(** The first random pair without a zero. *)
Context (random : Z * Z).
Context (f : F).

(** ** Flash access (bootloader_flash.c) *)

Definition img_view : mem := view (ic_encrypted cfg) f.

Definition bootloader_flash_read (src size : Z) : esp_err_t * list Z :=
  if BOOTLOADER_BUILD cfg then
    if negb (Z.land src 3 =? 0) || negb (Z.land size 3 =? 0) then (ESP_FAIL, [])
    else (ESP_OK, read_bytes img_view src (Z.to_nat size))
  else if ic_encrypted cfg then
    let err := fl_mmap f src size in
    (err, if is_ok err then read_bytes img_view src (Z.to_nat size) else [])
  else fl_read f src size.

Definition bootloader_mmap_get_free_pages : Z :=
  if BOOTLOADER_BUILD cfg then MMU_SIZE cfg / SPI_FLASH_MMU_PAGE_SIZE else ic_free_pages cfg.

(** Whether the mapping succeeds; every mapping is released before the
    next one.  What is mapped is [img_view]. *)
Definition bootloader_mmap (src size : Z) : bool :=
  let src_page := src - src mod SPI_FLASH_MMU_PAGE_SIZE in
  if BOOTLOADER_BUILD cfg then negb (MMU_SIZE cfg <? size) && ic_vaddr_valid cfg (u32 (src - src_page + size))
  else is_ok (fl_mmap f src_page (u32 (size + (src - src_page)))).

(** ** SHA-256 *)

(** [bootloader_sha256_data]; the version of the bootloader hashes words. *)
Definition bootloader_sha256_data (bs : list Z) : M img unit :=
  h ← gets ld_sha;
  match h with
  | None => abort
  | Some d =>
      _ ← assert_ (negb (BOOTLOADER_BUILD cfg) || (Z.of_nat (length bs) mod 4 =? 0));
      modify (set_sha (Some (d ++ bs)))
  end.

(** With the handle open only. *)
Definition sha_data_if (bs : list Z) : M img unit :=
  h ← gets ld_sha;
  match h with None => mret tt | Some _ => bootloader_sha256_data bs end.

Definition bootloader_sha256_finish : M img (list Z) :=
  h ← gets ld_sha;
  match h with
  | None => abort
  | Some d => _ ← modify (set_sha None); mret (sha256 d)
  end.

(** ** Load addresses *)

Definition in_range_ (r : range) (a : Z) : bool := (fst r <=? a) && (a <? snd r).
(** [(intptr_t)p >= LOW && (intptr_t)p < HIGH] *)
Definition ptr_in (r : range) (p : Z) : bool := in_range_ r (i32 p).

Definition should_map (load_addr : Z) : bool :=
  in_range_ (SOC_IROM (ic_soc cfg)) load_addr || in_range_ (SOC_DROM (ic_soc cfg)) load_addr.

Definition should_load (load_addr : Z) : bool :=
  let c := ic_soc cfg in
  let load_rtc_memory := negb (ic_deep_sleep cfg) in
  if should_map load_addr then false
  else if load_addr <? 0x10000000 then false
  else if negb load_rtc_memory then
    if SOC_RTC_FAST_MEM_SUPPORTED c && in_range_ (SOC_RTC_IRAM c) load_addr then false
    else if SOC_RTC_FAST_MEM_SUPPORTED c && in_range_ (SOC_RTC_DRAM c) load_addr then false
    else if SOC_RTC_SLOW_MEM_SUPPORTED c && in_range_ (SOC_RTC_DATA c) load_addr then false
    else true
  else true.

(** esp_memory_utils.h *)
Definition esp_ptr_diram_dram_to_iram (p : Z) : Z :=
  let c := ic_soc cfg in
  if SOC_DIRAM_INVERTED c then fst (SOC_DIRAM_IRAM c) + (snd (SOC_DIRAM_DRAM c) - p) - 4
  else fst (SOC_DIRAM_IRAM c) + (p - fst (SOC_DIRAM_DRAM c)).
Definition esp_ptr_diram_iram_to_dram (p : Z) : Z :=
  let c := ic_soc cfg in
  if SOC_DIRAM_INVERTED c then fst (SOC_DIRAM_DRAM c) + (snd (SOC_DIRAM_IRAM c) - p) - 4
  else fst (SOC_DIRAM_DRAM c) + (p - fst (SOC_DIRAM_IRAM c)).

(** The part of [[load_addr, load_end)] inside the window [r], converted. *)
Definition other_bus (r : range) (convert : Z -> Z) (load_addr load_end : Z) : Z * Z :=
  let a := convert (if ptr_in r load_addr then i32 load_addr else fst r) in
  let e := convert (if ptr_in r (load_end - 1) then i32 load_end else snd r) in
  if e <? a then (e, a) else (a, e).

(** [None] is a failed assertion.  The recursion is one level deep: [fuel] is
    1 for [no_recurse = false] and 0 for [no_recurse = true]. *)
Fixpoint verify_load_addresses (fuel : nat) (load_addr load_end : Z) : option bool :=
  let c := ic_soc cfg in
  let load_addr := i32 load_addr in
  let load_end := i32 load_end in
  if load_end =? load_addr then Some true
  else
    configASSERT (load_addr <? load_end);
    if ptr_in (SOC_DRAM c) load_addr && ptr_in (SOC_DRAM c) (load_end - 1) then
      do* stack <- bootloader_util_regions_overlap (ic_sp cfg - STACK_LOAD_HEADROOM) (SOC_ROM_STACK_START c) load_addr load_end;
      if stack then Some false
      else
        do* bss <- bootloader_util_regions_overlap (fst (ic_dram cfg)) (snd (ic_dram cfg)) load_addr load_end;
        if bss then Some false
        else
          match fuel with
          | O => Some true
          | S fuel =>
              do* diram <- bootloader_util_regions_overlap (fst (SOC_DIRAM_DRAM c)) (snd (SOC_DIRAM_DRAM c)) load_addr load_end;
              if diram then
                let '(a, e) := other_bus (SOC_DIRAM_DRAM c) esp_ptr_diram_dram_to_iram load_addr load_end in
                verify_load_addresses fuel a e
              else Some true
          end
    else if ptr_in (SOC_IRAM c) load_addr && ptr_in (SOC_IRAM c) (load_end - 1) then
      do* text <- bootloader_util_regions_overlap (fst (ic_loader_text cfg)) (snd (ic_loader_text cfg)) load_addr load_end;
      if text then Some false
      else
        match fuel with
        | O => Some true
        | S fuel =>
            do* diram <- bootloader_util_regions_overlap (fst (SOC_DIRAM_IRAM c)) (snd (SOC_DIRAM_IRAM c)) load_addr load_end;
            if diram then
              let '(a, e) := other_bus (SOC_DIRAM_IRAM c) esp_ptr_diram_iram_to_dram load_addr load_end in
              verify_load_addresses fuel a e
            else Some true
        end
    else if SOC_RTC_FAST_MEM_SUPPORTED c && ptr_in (SOC_RTC_IRAM c) load_addr && ptr_in (SOC_RTC_IRAM c) (load_end - 1) then Some true
    else if SOC_RTC_FAST_MEM_SUPPORTED c && ptr_in (SOC_RTC_DRAM c) load_addr && ptr_in (SOC_RTC_DRAM c) (load_end - 1) then Some true
    else if SOC_RTC_SLOW_MEM_SUPPORTED c && ptr_in (SOC_RTC_DATA c) load_addr && ptr_in (SOC_RTC_DATA c) (load_end - 1) then Some true
    else Some false.

(** The call as a computation. *)
Definition check_load_addresses (load_addr load_end : Z) : M img bool :=
  match verify_load_addresses 1 load_addr load_end with Some b => mret b | None => abort end.

(** ** Headers *)

(** bootloader_common_loader.c; [ESP_IMAGE_APPLICATION]. *)
Definition bootloader_common_check_chip_validity (img_hdr : esp_image_header_t) : esp_err_t :=
  if negb (CONFIG_IDF_FIRMWARE_CHIP_ID cfg =? chip_id img_hdr) then ESP_FAIL
  else
    let max_rev := max_chip_rev_full img_hdr in
    let err := if negb (min_chip_rev_full img_hdr <=? ic_revision cfg) then ESP_FAIL else ESP_OK in
    if negb (max_rev =? 65535) && negb (max_rev =? 0) && (max_rev <? ic_revision cfg) && negb (ic_ignore_max_rev cfg)
    then ESP_FAIL else err.

Definition verify_image_header (image : esp_image_header_t) : esp_err_t :=
  if negb (magic image =? ESP_IMAGE_HEADER_MAGIC) then ESP_ERR_IMAGE_INVALID
  else
    let err := bootloader_common_check_chip_validity image in
    if negb (is_ok err) then err
    else if ESP_IMAGE_MAX_SEGMENTS <? segment_count image then ESP_ERR_IMAGE_INVALID
    else ESP_OK.

Definition verify_segment_header (segment : esp_image_segment_header_t) (segment_data_offs : Z) : esp_err_t :=
  if negb (Z.land (data_len segment) 3 =? 0) || (SIXTEEN_MB <=? data_len segment) then ESP_ERR_IMAGE_INVALID
  else if should_map (load_addr segment)
          && negb (segment_data_offs mod SPI_FLASH_MMU_PAGE_SIZE =? load_addr segment mod SPI_FLASH_MMU_PAGE_SIZE)
  then ESP_ERR_IMAGE_INVALID
  else ESP_OK.

(** [want_sha]: [sha_handle != NULL]. *)
Definition process_image_header (part_offset : Z) (want_sha do_verify : bool) : M img esp_err_t :=
  let d := zero_metadata in
  _ ← modify (set_data (mkMeta part_offset (image d) (segments d) (segment_data d) (image_len d) (image_digest d)));
  let '(err, bs) := bootloader_flash_read part_offset HEADER_SIZE in
  if negb (is_ok err) then mret err
  else
    let hdr := decode_header bs in
    _ ← modify (set_data (mkMeta part_offset hdr (segments d) (segment_data d) (image_len d) (image_digest d)));
    let set_len := modify (fun s => set_data (set_image_len HEADER_SIZE (ld_data s)) s) in
    if do_verify then
      let check := CHECK_ERR mret (verify_image_header hdr); _ ← set_len; mret ESP_OK in
      if (SECURE_BOOT_CHECK_SIGNATURE cfg || negb (hash_appended hdr =? 0)) && want_sha then
        if negb (ic_sha_ok cfg) then mret ESP_ERR_NO_MEM
        else
          _ ← modify (set_sha (Some []));
          _ ← bootloader_sha256_data bs;
          check
      else check
    else _ ← set_len; mret ESP_OK.

(** ** Segment data *)

(** [for (size_t i = 0; i < data_len; i += 4)] from [i] on, for [words] more
    words; the data is mapped at [src] and loaded to [dest]. *)
Fixpoint data_loop (words : nat) (i src dest data_len : Z) (do_load with_checksum : bool) : M img unit :=
  match words with
  | O => mret tt
  | S words =>
      let w_i := i / 4 in
      let w := load32 img_view (src + i) in
      _ ← (if with_checksum then modify (fun s => set_checksum (Z.lxor (ld_checksum s) w) s) else mret tt);
      _ ← (if BOOTLOADER_BUILD cfg && do_load then
             modify (fun s =>
               let v := if negb (Z.land w_i 1 =? 0) then fst (ram_obfs_value s) else snd (ram_obfs_value s) in
               set_ram (store32 (ld_ram s) (u32 (dest + 4 * w_i)) (Z.lxor w v)) s)
           else mret tt);
      let SHA_CHUNK := 1024 in
      _ ← (if i mod SHA_CHUNK =? 0 then sha_data_if (read_bytes img_view (src + i) (Z.to_nat (Z.min SHA_CHUNK (data_len - i)))) else mret tt);
      data_loop words (i + 4) src dest data_len do_load with_checksum
  end.

(** [while (ram_obfs_value[0] == 0 || ram_obfs_value[1] == 0)] *)
Definition fill_obfs : M img unit :=
  modify (fun s => if (fst (ram_obfs_value s) =? 0) || (snd (ram_obfs_value s) =? 0) then set_obfs random s else s).

Definition process_segment_data (load_addr data_addr data_len : Z) (do_load with_checksum : bool) : M img esp_err_t :=
  if negb do_load && negb with_checksum then mret ESP_OK
  else if negb (bootloader_mmap data_addr data_len) then mret ESP_FAIL
  else
    h ← gets ld_sha;
    if negb with_checksum && bool_decide (h = None) then
      _ ← modify (fun s => set_ram (memcpy (ld_ram s) (u32 load_addr) (read_bytes img_view data_addr (Z.to_nat data_len))) s);
      mret ESP_OK
    else
      _ ← (if BOOTLOADER_BUILD cfg then fill_obfs else mret tt);
      _ ← data_loop (Z.to_nat ((data_len + 3) / 4)) 0 data_addr load_addr data_len do_load with_checksum;
      mret ESP_OK.

(** The loop over the parts of a segment that can be mapped at once. *)
Fixpoint segment_loop (fuel : nat) (load_addr data_addr data_len_remain : Z) (do_load with_checksum : bool) : M img esp_err_t :=
  match fuel with
  | O => abort
  | S fuel =>
      if 0 <? data_len_remain then
        ok ← (if SECURE_BOOT_CHECK_SIGNATURE cfg && BOOTLOADER_BUILD cfg && do_load
              then check_load_addresses load_addr (load_addr + data_len_remain) else mret true : M img bool);
        if negb ok then fault
        else
          let offset_page := if negb (data_addr mod SPI_FLASH_MMU_PAGE_SIZE =? 0) then 1 else 0 in
          let data_len := Z.min data_len_remain (u32 (u32 (bootloader_mmap_get_free_pages - offset_page) * SPI_FLASH_MMU_PAGE_SIZE)) in
          CHECK_ERR process_segment_data load_addr data_addr data_len do_load with_checksum;
          segment_loop fuel load_addr (u32 (data_addr + data_len)) (data_len_remain - data_len) do_load with_checksum
      else mret ESP_OK
  end.

(** A part is at least one page, or the rest; the loop ends after
    [data_len / SPI_FLASH_MMU_PAGE_SIZE + 1] parts. *)
Definition segment_fuel (data_len : Z) : nat := Z.to_nat (data_len / SPI_FLASH_MMU_PAGE_SIZE) + 2.

(** The result and [*header]. *)
Definition process_segment (flash_addr : Z) (do_load with_checksum : bool) : M img (esp_err_t * option esp_image_segment_header_t) :=
  let '(err, bs) := bootloader_flash_read flash_addr SEGMENT_HEADER_SIZE in
  if negb (is_ok err) then mret (err, None)
  else
    _ ← sha_data_if bs;
    let header := decode_segment bs in
    let data_addr := u32 (flash_addr + SEGMENT_HEADER_SIZE) in
    let err := verify_segment_header header data_addr in
    if negb (is_ok err) then mret (err, Some header)
    else if negb (data_len header mod 4 =? 0) then mret (ESP_ERR_IMAGE_INVALID, Some header)
    else
      let do_load := do_load && should_load (load_addr header) in
      ok ← (if BOOTLOADER_BUILD cfg && do_load && (0 <? data_len header)
            then check_load_addresses (load_addr header) (load_addr header + data_len header) else mret true);
      if negb ok then mret (ESP_ERR_IMAGE_INVALID, Some header)
      else
        err ← segment_loop (segment_fuel (data_len header)) (load_addr header) data_addr (data_len header) do_load with_checksum;
        mret (err, Some header).

(** [segments[i]] and [segment_data[i]]; outside of the arrays is an invalid
    access. *)
Definition set_segment (i : nat) (header : esp_image_segment_header_t) : M img unit :=
  _ ← assert_ (Z.of_nat i <? ESP_IMAGE_MAX_SEGMENTS);
  modify (fun s => let d := ld_data s in
    set_data (mkMeta (start_addr d) (image d) (<[i := header]> (segments d)) (segment_data d) (image_len d) (image_digest d)) s).
Definition set_segment_data (i : nat) (addr : Z) : M img unit :=
  _ ← assert_ (Z.of_nat i <? ESP_IMAGE_MAX_SEGMENTS);
  modify (fun s => let d := ld_data s in
    set_data (mkMeta (start_addr d) (image d) (segments d) (<[i := addr]> (segment_data d)) (image_len d) (image_digest d)) s).

(** The loop over [n] more segments from the [i]-th on; the result is the
    address after the last one. *)
Fixpoint segments_loop (n i : nat) (next_addr : Z) (do_load with_checksum : bool) : M img (esp_err_t * Z) :=
  match n with
  | O => mret (ESP_OK, next_addr)
  | S n =>
      r ← process_segment next_addr do_load with_checksum;
      let '(err, header) := r in
      _ ← (match header with Some h => set_segment i h | None => mret tt end);
      match header with
      | Some h =>
          if negb (is_ok err) then mret (err, next_addr)
          else
            let next_addr := u32 (next_addr + SEGMENT_HEADER_SIZE) in
            _ ← set_segment_data i next_addr;
            segments_loop n (S i) (u32 (next_addr + data_len h)) do_load with_checksum
      | None => mret (err, next_addr)
      end
  end.

Definition process_segments (do_load with_checksum : bool) : M img esp_err_t :=
  d ← gets ld_data;
  let start_segments := u32 (start_addr d + image_len d) in
  r ← segments_loop (Z.to_nat (segment_count (image d))) 0 start_segments do_load with_checksum;
  let '(err, end_addr) := r in
  if negb (is_ok err) then mret err
  else if end_addr <? start_addr d then mret ESP_ERR_IMAGE_INVALID
  else
    _ ← modify (fun s => set_data (set_image_len (u32 (image_len (ld_data s) + (end_addr - start_segments))) (ld_data s)) s);
    mret ESP_OK.

(** ** Checksum, hash and signature *)

(** The bytes up to the end of the 16-byte block that ends with the checksum. *)
Definition checksum_length (unpadded_length : Z) : Z :=
  let length := u32 (unpadded_length + 1) in
  let length := u32 (length + 15) - u32 (length + 15) mod 16 in
  u32 (length - unpadded_length).

Definition fold_checksum (w : Z) : Z :=
  u8 (Z.lxor (Z.lxor (Z.lxor (Z.shiftr w 24) (Z.shiftr w 16)) (Z.shiftr w 8)) w).

Definition process_checksum (checksum_word : Z) (skip_check_checksum : bool) : M img esp_err_t :=
  d ← gets ld_data;
  h ← gets ld_sha;
  let length := checksum_length (image_len d) in
  let '(err, buf) :=
    if negb skip_check_checksum || negb (bool_decide (h = None))
    then bootloader_flash_read (u32 (start_addr d + image_len d)) length
    else (ESP_OK, repeat 0 16) in
  if negb (is_ok err) then mret err
  else
    let read_checksum := byte_at buf (Z.to_nat (length - 1)) in
    if negb skip_check_checksum && negb (fold_checksum checksum_word =? read_checksum) then mret ESP_ERR_IMAGE_INVALID
    else
      _ ← sha_data_if (take (Z.to_nat length) buf);
      _ ← modify (fun s => set_data (set_image_len (u32 (image_len (ld_data s) + length)) (ld_data s)) s);
      mret ESP_OK.

(** [ALIGN_UP(end, FLASH_SECTOR_SIZE)] *)
Definition sector_up (e : Z) : Z := u32 (u32 (e + (SIGNATURE_SECTOR - 1)) - u32 (e + (SIGNATURE_SECTOR - 1)) mod SIGNATURE_SECTOR).

(** The length of what follows the image. *)
Definition sig_block_len (part_offset e : Z) : Z :=
  let v2_len := u32 (sector_up e - e + SIGNATURE_SIZE) in
  if CONFIG_SECURE_BOOT cfg || CONFIG_SECURE_SIGNED_APPS_NO_SECURE_BOOT cfg then
    if part_offset =? ESP_BOOTLOADER_OFFSET cfg then
      if CONFIG_SECURE_BOOT_V2_ENABLED cfg then v2_len else 0
    else if CONFIG_SECURE_SIGNED_APPS_ECDSA_SCHEME cfg then SIG_BLOCK_SIZE else v2_len
  else 0.

Definition process_appended_hash_and_sig (part_offset part_len : Z) (do_verify : bool) : M img esp_err_t :=
  d ← gets ld_data;
  let appended := negb (hash_appended (image d) =? 0) in
  let '(err, digest) :=
    if appended && do_verify then bootloader_flash_read (u32 (start_addr d + image_len d)) HASH_LEN
    else (ESP_OK, image_digest d) in
  if negb (is_ok err) then mret err
  else
    let len := if appended then u32 (image_len d + HASH_LEN) else image_len d in
    _ ← modify (set_data (mkMeta (start_addr d) (image d) (segments d) (segment_data d) len digest));
    let full_image_len := u32 (len + sig_block_len part_offset len) in
    mret (if part_len <? full_image_len then ESP_ERR_IMAGE_INVALID else ESP_OK).

Definition verify_simple_hash : M img esp_err_t :=
  image_hash ← bootloader_sha256_finish;
  d ← gets ld_data;
  mret (if bool_decide (image_digest d = image_hash) then ESP_OK else ESP_ERR_IMAGE_INVALID).

(** Data mapped for hashing or for the signature check; the code uses the
    pointer without looking at it. *)
Definition mapped_bytes (src size : Z) : M img (list Z) :=
  if bootloader_mmap src size then mret (read_bytes img_view src (Z.to_nat size)) else abort.

(** The initial values of [image_digest] and [verified_digest] in [image_load]. *)
Definition image_digest_init : list Z := repeat 0xEE 32.
Definition verified_digest_init : list Z := repeat 0x01 32.

(** The result, [image_digest] and [verified_digest].  After a failure the
    simple hash is computed again, for the log only. *)
Definition verify_secure_boot_signature : M img (esp_err_t * list Z * list Z) :=
  d ← gets ld_data;
  let e := u32 (start_addr d + image_len d) in
  _ ← (if negb (hash_appended (image d) =? 0)
       then bs ← mapped_bytes (u32 (e - HASH_LEN)) HASH_LEN; bootloader_sha256_data bs else mret tt);
  let padded_end := sector_up e in
  let pad := CONFIG_SECURE_BOOT_V2_ENABLED cfg && (e <? padded_end) in
  _ ← (if pad then bs ← mapped_bytes e (padded_end - e); bootloader_sha256_data bs else mret tt);
  let e := if pad then padded_end else e in
  digest ← bootloader_sha256_finish;
  if CONFIG_SECURE_BOOT cfg || CONFIG_SECURE_SIGNED_APPS_NO_SECURE_BOOT cfg then
    if bool_decide (digest = verified_digest_init) then fault
    else
      block ← (if CONFIG_SECURE_SIGNED_APPS_ECDSA_SCHEME cfg
               then mapped_bytes (u32 (start_addr d + image_len d)) SIG_BLOCK_SIZE
               else mapped_bytes e SIGNATURE_SIZE);
      let '(err, verified) := verify_signature_block block digest in
      if negb (is_ok err) then mret (ESP_ERR_IMAGE_INVALID, digest, verified)
      else
        _ ← (if CONFIG_SECURE_SIGNED_APPS_V2_SCHEME cfg
             then modify (fun s => set_data (set_image_len (u32 (e - start_addr d + SIGNATURE_SIZE)) (ld_data s)) s) else mret tt);
        mret (ESP_OK, digest, verified)
  else mret (ESP_ERR_IMAGE_INVALID, digest, verified_digest_init).

(** ** Images *)

Fixpoint deobfuscate_words (n : nat) (j addr : Z) (v : Z * Z) (m : mem) : mem :=
  match n with
  | O => m
  | S n =>
      let a := u32 (addr + 4 * j) in
      deobfuscate_words n (j + 1) addr v
        (store32 m a (Z.lxor (load32 m a) (if negb (Z.land j 1 =? 0) then fst v else snd v)))
  end.

(** The loop over the segments with [n] left. *)
Fixpoint deobfuscate (segs : list esp_image_segment_header_t) (v : Z * Z) (m : mem) : mem :=
  match segs with
  | [] => m
  | h :: segs =>
      deobfuscate segs v
        (if should_load (load_addr h) then deobfuscate_words (Z.to_nat (data_len h / 4)) 0 (load_addr h) v m else m)
  end.

(** The label [err]. *)
Definition load_failed (err : esp_err_t) : M img esp_err_t :=
  _ ← modify (fun s => set_data zero_metadata (set_sha None s));
  mret (if is_ok err then ESP_ERR_IMAGE_INVALID else err).

(** The hash or the signature; the result with the two digests. *)
Definition verify_hash_or_signature (verify_sha : bool) : M img (esp_err_t * list Z * list Z) :=
  let nothing e := (e, image_digest_init, verified_digest_init) in
  if negb verify_sha then mret (nothing ESP_OK)
  else if SECURE_BOOT_CHECK_SIGNATURE cfg then
    if BOOTLOADER_BUILD cfg && negb (CONFIG_SECURE_BOOT cfg) && ic_debugger cfg then mret (nothing ESP_OK)
    else verify_secure_boot_signature
  else
    h ← gets ld_sha;
    if negb (bool_decide (h = None)) && negb (ic_debugger cfg) then err ← verify_simple_hash; mret (nothing err)
    else mret (nothing ESP_OK).

(** After verification: the check against fault injection, and the plain
    contents of RAM. *)
Definition finish_load (do_load : bool) (digest verified : list Z) : M img esp_err_t :=
  d ← gets ld_data;
  if BOOTLOADER_BUILD cfg && SECURE_BOOT_CHECK_SIGNATURE cfg
     && negb (if CONFIG_SECURE_BOOT_V2_ENABLED cfg then negb (ic_secure_boot_enabled cfg) || bool_decide (digest = verified)
              else (start_addr d =? ESP_BOOTLOADER_OFFSET cfg) || bool_decide (digest = verified))
  then fault
  else
    _ ← modify (fun s =>
      if BOOTLOADER_BUILD cfg && do_load && negb (fst (ram_obfs_value s) =? 0) && negb (snd (ram_obfs_value s) =? 0)
      then set_ram (deobfuscate (take (Z.to_nat (segment_count (image d))) (segments d)) (ram_obfs_value s) (ld_ram s)) s else s);
    mret ESP_OK.

Definition image_load (mode : esp_image_load_mode_t) (part : option esp_partition_pos_t) (data : bool) : M img esp_err_t :=
  let do_load := BOOTLOADER_BUILD cfg && (bool_decide (mode = ESP_IMAGE_LOAD) || bool_decide (mode = ESP_IMAGE_LOAD_NO_VALIDATE)) in
  let do_verify := negb (BOOTLOADER_BUILD cfg) || negb (bool_decide (mode = ESP_IMAGE_LOAD_NO_VALIDATE)) in
  match part with
  | None => mret ESP_ERR_INVALID_ARG
  | Some part =>
      if negb data then mret ESP_ERR_INVALID_ARG
      else
        _ ← modify (fun s => set_checksum ESP_ROM_CHECKSUM_INITIAL (set_sha None s));
        let verify_sha :=
          if CONFIG_SECURE_BOOT_V2_ENABLED cfg then do_verify
          else negb (pos_offset part =? ESP_BOOTLOADER_OFFSET cfg) && do_verify in
        if SIXTEEN_MB <? pos_size part then load_failed ESP_ERR_INVALID_ARG
        else
          err ← (CHECK_ERR process_image_header (pos_offset part) verify_sha do_verify;
                 CHECK_ERR process_segments do_load do_verify;
                 checksum_word ← gets ld_checksum;
                 CHECK_ERR process_checksum checksum_word (negb do_verify || ic_debugger cfg);
                 process_appended_hash_and_sig (pos_offset part) (pos_size part) do_verify);
          if negb (is_ok err) then load_failed err
          else
            r ← verify_hash_or_signature verify_sha;
            let '(err, digest, verified) := r in
            _ ← modify (set_sha None);
            if negb (is_ok err) then load_failed err
            else finish_load do_load digest verified
  end.

Definition bootloader_load_image (part : option esp_partition_pos_t) (data : bool) : M img esp_err_t :=
  if negb (BOOTLOADER_BUILD cfg) then mret ESP_FAIL
  else
    let mode :=
      if negb (CONFIG_SECURE_BOOT cfg)
         && (CONFIG_BOOTLOADER_SKIP_VALIDATE_ALWAYS cfg || (CONFIG_BOOTLOADER_SKIP_VALIDATE_ON_POWER_ON cfg && ic_power_on cfg))
      then ESP_IMAGE_LOAD_NO_VALIDATE else ESP_IMAGE_LOAD in
    image_load mode part data.

Definition bootloader_load_image_no_verify (part : option esp_partition_pos_t) (data : bool) : M img esp_err_t :=
  if BOOTLOADER_BUILD cfg then image_load ESP_IMAGE_LOAD_NO_VALIDATE part data else mret ESP_FAIL.

Definition esp_image_verify (mode : esp_image_load_mode_t) (part : option esp_partition_pos_t) (data : bool) : M img esp_err_t :=
  image_load mode part data.

Definition esp_image_get_metadata (part : option esp_partition_pos_t) (metadata : bool) : M img esp_err_t :=
  match part with
  | None => mret ESP_ERR_INVALID_ARG
  | Some part =>
      if negb metadata || (SIXTEEN_MB <? pos_size part) then mret ESP_ERR_INVALID_ARG
      else
        _ ← modify (set_sha None);
        CHECK_ERR process_image_header (pos_offset part) false false;
        CHECK_ERR process_segments false false;
        CHECK_ERR process_checksum 0 true;
        CHECK_ERR process_appended_hash_and_sig (pos_offset part) (pos_size part) true;
        mret ESP_OK
  end.

Definition esp_image_verify_bootloader_data (data : bool) : M img esp_err_t :=
  if negb data then mret ESP_ERR_INVALID_ARG
  else esp_image_verify ESP_IMAGE_VERIFY
         (Some (mkPos (ESP_BOOTLOADER_OFFSET cfg) (ESP_PARTITION_TABLE_OFFSET cfg - ESP_BOOTLOADER_OFFSET cfg))) true.

(** The result and [*length]. *)
Definition esp_image_verify_bootloader : M img (esp_err_t * Z) :=
  err ← esp_image_verify_bootloader_data true;
  len ← gets (fun s => image_len (ld_data s));
  mret (err, if is_ok err then len else 0).
End Image.

Definition esp_image_get_flash_size (app_flash_size : Z) : Z :=
  match app_flash_size with
  | 0 => 1 * 1024 * 1024
  | 1 => 2 * 1024 * 1024
  | 2 => 4 * 1024 * 1024
  | 3 => 8 * 1024 * 1024
  | 4 => 16 * 1024 * 1024
  | 5 => 32 * 1024 * 1024
  | 6 => 64 * 1024 * 1024
  | 7 => 128 * 1024 * 1024
  | _ => 0
  end.
