(* ===== verification/ImageSegments.v ===== *)
(** * Processing the segments of an image

    What the loops of [process_segment_data], [process_segment] and
    [process_segments] do to the hash, the checksum and RAM, in closed form:
    the hash is fed with the bytes of the image in order, whatever the mapping
    windows and chunks are. *)

From S2P Require Import Prelude CMem Crc Flash OtaData PartitionTable Partitions ImageFormat.

(** ** The checksum *)

Definition xor_all (bs : list Z) : Z := foldr Z.lxor 0 bs.

Lemma xor_all_app l1 l2 : xor_all (l1 ++ l2) = Z.lxor (xor_all l1) (xor_all l2).
Proof. unfold xor_all. induction l1 as [|b l IH]; cbn; [by rewrite Z.lxor_0_l|]. by rewrite IH, Z.lxor_assoc. Qed.

Lemma u8_lxor a b : u8 (Z.lxor a b) = Z.lxor (u8 a) (u8 b).
Proof.
  unfold u8. apply Z.bits_inj'. intros n Hn. rewrite Z.lxor_spec. rewrite <- !Z.land_ones by lia. rewrite !Z.land_spec, Z.lxor_spec.
  rewrite Z.testbit_ones_nonneg by lia. by destruct (Z.testbit a n), (Z.testbit b n), (n <? 8).
Qed.

Lemma fold_checksum_lxor a b : fold_checksum (Z.lxor a b) = Z.lxor (fold_checksum a) (fold_checksum b).
Proof.
  unfold fold_checksum. rewrite !Z.shiftr_lxor, <- u8_lxor. f_equal. apply Z.bits_inj'. intros n Hn. rewrite !Z.lxor_spec.
  by destruct (Z.testbit (Z.shiftr a 24) n), (Z.testbit (Z.shiftr b 24) n), (Z.testbit (Z.shiftr a 16) n), (Z.testbit (Z.shiftr b 16) n),
    (Z.testbit (Z.shiftr a 8) n), (Z.testbit (Z.shiftr b 8) n), (Z.testbit a n), (Z.testbit b n).
Qed.

(** The bytes of a word. *)
Lemma load32_byte m a k : (forall x, is_byte (m x)) -> 0 <= k < 4 -> u8 (load32 m a / 2 ^ (8 * k)) = m (a + k).
Proof.
  intros Hb Hk. unfold load32, u8. pose proof (Hb a). pose proof (Hb (a + 1)). pose proof (Hb (a + 2)). pose proof (Hb (a + 3)). unfold is_byte in *.
  set (b0 := m a) in *. set (b1 := m (a + 1)) in *. set (b2 := m (a + 2)) in *. set (b3 := m (a + 3)) in *.
  assert (k = 0 \/ k = 1 \/ k = 2 \/ k = 3) as [->|[->|[->| ->]]] by lia.
  - rewrite Z.add_0_r. change (8 * 0) with 0. rewrite Z.div_1_r. symmetry. apply Z.mod_unique with (b1 + 2 ^ 8 * b2 + 2 ^ 16 * b3); unfold b0; lia.
  - change (8 * 1) with 8. replace (_ / 2 ^ 8) with (b1 + 2 ^ 8 * b2 + 2 ^ 16 * b3) by (apply Z.div_unique with b0; lia).
    symmetry. apply Z.mod_unique with (b2 + 2 ^ 8 * b3); unfold b1; lia.
  - change (8 * 2) with 16. replace (_ / 2 ^ 16) with (b2 + 2 ^ 8 * b3) by (apply Z.div_unique with (b0 + 2 ^ 8 * b1); lia).
    symmetry. apply Z.mod_unique with b3; unfold b2; lia.
  - change (8 * 3) with 24. replace (_ / 2 ^ 24) with b3 by (apply Z.div_unique with (b0 + 2 ^ 8 * b1 + 2 ^ 16 * b2); lia).
    apply Z.mod_small. lia.
Qed.

Lemma fold_checksum_word m a : (forall x, is_byte (m x)) -> fold_checksum (load32 m a) = xor_all (read_bytes m a 4).
Proof.
  intros Hb. unfold fold_checksum, xor_all. cbn [read_bytes foldr].
  replace (a + 1 + 1) with (a + 2) by lia. replace (a + 2 + 1) with (a + 3) by lia. rewrite !u8_lxor, !Z.shiftr_div_pow2 by lia.
  pose proof (load32_byte m a 0 Hb ltac:(lia)) as E0. pose proof (load32_byte m a 1 Hb ltac:(lia)) as E1.
  pose proof (load32_byte m a 2 Hb ltac:(lia)) as E2. pose proof (load32_byte m a 3 Hb ltac:(lia)) as E3.
  change (8 * 0) with 0 in E0. rewrite Z.div_1_r, Z.add_0_r in E0. change (8 * 1) with 8 in E1. change (8 * 2) with 16 in E2. change (8 * 3) with 24 in E3.
  rewrite E0, E1, E2, E3, Z.lxor_0_r, (Z.lxor_comm (m (a + 3)) (m (a + 2))), (Z.lxor_comm _ (m (a + 1))), (Z.lxor_comm _ (m a)). done.
Qed.

(** ** Words in RAM *)

(** [w] is stored at [a]. *)
Definition word_at (m : mem) (a w : Z) : Prop := forall k, 0 <= k < 4 -> m (a + k) = u8 (w / 2 ^ (8 * k)).

Lemma store32_word m a w : word_at (store32 m a w) a w.
Proof.
  intros k Hk. unfold store32.
  assert (k = 0 \/ k = 1 \/ k = 2 \/ k = 3) as [->|[->|[->| ->]]] by lia.
  - rewrite !store8_other by lia. replace (a + 0) with a by lia. rewrite store8_same. change (8 * 0) with 0. by rewrite Z.div_1_r.
  - rewrite 2!store8_other by lia. apply store8_same.
  - rewrite store8_other by lia. apply store8_same.
  - apply store8_same.
Qed.

Lemma word_at_load m a w : 0 <= w < 2 ^ 32 -> word_at m a w -> load32 m a = w.
Proof.
  intros Hw H. rewrite <- (load32_store32_same m a w Hw). apply load32_agree. intros x Hx.
  replace x with (a + (x - a)) by lia. rewrite H by lia. by rewrite store32_word by lia.
Qed.

Lemma word_at_store_other m a w b v : word_at m a w -> b + 4 <= a \/ a + 4 <= b -> word_at (store32 m b v) a w.
Proof. intros H Hd k Hk. rewrite store32_other by lia. by apply H. Qed.

Lemma word_at_bytes m a m' b : (forall x, is_byte (m' x)) -> word_at m a (load32 m' b) -> forall k, 0 <= k < 4 -> m (a + k) = m' (b + k).
Proof. intros Hb H k Hk. by rewrite H, load32_byte. Qed.

(** ** The data of a segment *)

Section Segments.
Context {F : Type} `{FlashLaws F}.
Context (cfg : image_config) (sha256 : list Z -> list Z).
Context (verify_signature_block : list Z -> list Z -> esp_err_t * list Z) (random : Z * Z) (f : F).
Abbreviation img_view := (img_view cfg f).

Lemma view_bytes x : is_byte (img_view x).
Proof. apply law_byte. Qed.

Definition obfs_word (v : Z * Z) (j : Z) : Z := if negb (Z.land j 1 =? 0) then fst v else snd v.

(** What [n] words from the [j]-th on do to RAM and to the checksum. *)
Fixpoint load_words (n : nat) (j src dest : Z) (v : Z * Z) (m : mem) : mem :=
  match n with
  | O => m
  | S n => load_words n (j + 1) src dest v (store32 m (u32 (dest + 4 * j)) (Z.lxor (load32 img_view (src + 4 * j)) (obfs_word v j)))
  end.
Fixpoint xor_words (n : nat) (j src c : Z) : Z :=
  match n with
  | O => c
  | S n => xor_words n (j + 1) src (Z.lxor c (load32 img_view (src + 4 * j)))
  end.

Definition feed (bs : list Z) (h : option (list Z)) : option (list Z) := (fun d => d ++ bs) <$> h.

Lemma feed_app l1 l2 h : feed l2 (feed l1 h) = feed (l1 ++ l2) h.
Proof. destruct h as [d|]; [|done]. cbn. by rewrite app_assoc. Qed.

Lemma feed_nil h : feed [] h = h.
Proof. destruct h as [d|]; [|done]. cbn. by rewrite app_nil_r. Qed.

Lemma sha_data_if_spec bs s : Z.of_nat (length bs) mod 4 = 0 -> sha_data_if cfg bs s = RET tt (set_sha (feed bs (ld_sha s)) s).
Proof.
  intros Hl. unfold sha_data_if, bootloader_sha256_data, mbind, M_bind, gets, assert_, modify. destruct s as [d [h|] c m v]; cbn; [|done].
  by rewrite Hl, orb_true_r.
Qed.

(** The bytes that are hashed before word [j]: full chunks. *)
Definition hashed_to (len j : Z) : Z := Z.min len (1024 * ((4 * j + 1023) / 1024)).

Lemma hashed_step len j : 0 <= j -> 4 * (j + 1) <= len ->
  (4 * j mod 1024 = 0 -> hashed_to len j = 4 * j /\ hashed_to len (j + 1) = 4 * j + Z.min 1024 (len - 4 * j)) /\
  (4 * j mod 1024 <> 0 -> hashed_to len (j + 1) = hashed_to len j).
Proof.
  intros Hj Hl. unfold hashed_to. pose proof (Z.div_mod (4 * j) 1024 ltac:(lia)) as D. pose proof (Z.mod_pos_bound (4 * j) 1024 ltac:(lia)) as B.
  set (q := 4 * j / 1024) in *. set (r := 4 * j mod 1024) in *. assert (r mod 4 = 0).
  { apply Z.mod_divide; [lia|]. exists (j - 256 * q). lia. }
  split; intros Hr.
  - rewrite <- (Z.div_unique (4 * j + 1023) 1024 q 1023), <- (Z.div_unique (4 * (j + 1) + 1023) 1024 (q + 1) 3) by lia. lia.
  - assert (4 <= r <= 1020) by (pose proof (Z.div_mod r 4 ltac:(lia)); lia).
    rewrite <- (Z.div_unique (4 * j + 1023) 1024 (q + 1) (r - 1)) by lia. rewrite <- (Z.div_unique (4 * (j + 1) + 1023) 1024 (q + 1) (r + 3)) by lia. done.
Qed.

Lemma data_loop_spec len do_load wc src dest n : forall j s, 0 <= j -> 4 * (j + Z.of_nat n) = len ->
  data_loop cfg f n (4 * j) src dest len do_load wc s =
    RET tt (mkImg (ld_data s)
      (feed (read_bytes img_view (src + hashed_to len j) (Z.to_nat (len - hashed_to len j))) (ld_sha s))
      (if wc then xor_words n j src (ld_checksum s) else ld_checksum s)
      (if BOOTLOADER_BUILD cfg && do_load then load_words n j src dest (ram_obfs_value s) (ld_ram s) else ld_ram s)
      (ram_obfs_value s)).
Proof.
  induction n as [|n IH]; intros j s Hj Hl.
  - cbn [data_loop xor_words load_words]. unfold mret, M_ret. f_equal. assert (hashed_to len j = len) as ->.
    { unfold hashed_to. rewrite Z.min_l; [done|]. pose proof (Z.div_mod (4 * j + 1023) 1024 ltac:(lia)).
      pose proof (Z.mod_pos_bound (4 * j + 1023) 1024 ltac:(lia)). lia. }
    rewrite Z.sub_diag. cbn. rewrite feed_nil. by destruct s, wc, (_ && _).
  - cbn [data_loop]. replace (4 * j / 4) with j by (rewrite Z.mul_comm, Z.div_mul; lia).
    set (s1 := if wc then set_checksum (Z.lxor (ld_checksum s) (load32 img_view (src + 4 * j))) s else s).
    set (s2 := if BOOTLOADER_BUILD cfg && do_load
      then set_ram (store32 (ld_ram s1) (u32 (dest + 4 * j)) (Z.lxor (load32 img_view (src + 4 * j)) (obfs_word (ram_obfs_value s1) j))) s1 else s1).
    destruct (hashed_step len j Hj ltac:(lia)) as [H1 H2].
    set (s3 := if 4 * j mod 1024 =? 0 then set_sha (feed (read_bytes img_view (src + 4 * j) (Z.to_nat (Z.min 1024 (len - 4 * j)))) (ld_sha s2)) s2 else s2).
    rewrite (bind_RET _ _ _ tt s1) by (unfold s1; by destruct wc).
    rewrite (bind_RET _ _ _ tt s2) by (unfold s2; by destruct (_ && _)).
    rewrite (bind_RET _ _ _ tt s3); cycle 1.
    { unfold s3. destruct (4 * j mod 1024 =? 0); [|done]. rewrite sha_data_if_spec; [done|]. rewrite length_read_bytes, Z2Nat.id by lia.
      apply Z.mod_divide; [lia|]. destruct (Z.min_spec 1024 (len - 4 * j)) as [[_ ->]|[_ ->]]; [by exists 256|exists (Z.of_nat (S n)); lia]. }
    replace (4 * j + 4) with (4 * (j + 1)) by lia. rewrite IH by lia. f_equal.
    assert (Es : ld_sha s2 = ld_sha s) by (unfold s2, s1; by destruct wc, (_ && _)).
    assert (Er : ram_obfs_value s3 = ram_obfs_value s) by (unfold s3, s2, s1; destruct (4 * j mod 1024 =? 0); by destruct wc, (_ && _)).
    f_equal.
    + unfold s3, s2, s1. destruct (4 * j mod 1024 =? 0); by destruct wc, (_ && _).
    + unfold s3. destruct (Z.eqb_spec (4 * j mod 1024) 0) as [E|E]; cbn [ld_sha set_sha]; rewrite ?Es; [|by rewrite H2].
      destruct (H1 E) as [-> ->]. rewrite feed_app. f_equal.
      replace (src + (4 * j + Z.min 1024 (len - 4 * j))) with (src + 4 * j + Z.of_nat (Z.to_nat (Z.min 1024 (len - 4 * j)))) by lia.
      rewrite <- read_bytes_app. f_equal. lia.
    + unfold s3, s2, s1. destruct wc; [|by destruct (_ && _), (4 * j mod 1024 =? 0)]. cbn [xor_words]. by destruct (_ && _), (4 * j mod 1024 =? 0).
    + rewrite Er. unfold s3, s2, s1. destruct (_ && _); [|by destruct wc, (4 * j mod 1024 =? 0)]. cbn [load_words].
      by destruct wc, (4 * j mod 1024 =? 0).
    + done.
Qed.

(** The checksum of the words is the exclusive or of the bytes. *)
Lemma xor_words_fold n : forall j src c, fold_checksum (xor_words n j src c) =
  Z.lxor (fold_checksum c) (xor_all (read_bytes img_view (src + 4 * j) (4 * n))).
Proof.
  induction n as [|n IH]; intros j src c; cbn [xor_words].
  - cbn. by rewrite Z.lxor_0_r.
  - rewrite IH, fold_checksum_lxor, (fold_checksum_word img_view) by apply view_bytes. rewrite Z.lxor_assoc. f_equal.
    replace (4 * S n)%nat with (4 + 4 * n)%nat by lia. rewrite (read_bytes_app img_view _ 4 (4 * n)), xor_all_app. do 3 f_equal. lia.
Qed.

(** ** Mapping windows *)

Hypothesis free_pages : 2 <= bootloader_mmap_get_free_pages cfg < 2 ^ 16.

(** The most that is mapped at once at [a]. *)
Definition part_limit (a : Z) : Z :=
  u32 (u32 (bootloader_mmap_get_free_pages cfg - (if negb (a mod SPI_FLASH_MMU_PAGE_SIZE =? 0) then 1 else 0)) * SPI_FLASH_MMU_PAGE_SIZE).

Lemma part_limit_range a : SPI_FLASH_MMU_PAGE_SIZE <= part_limit a /\ part_limit a mod 4 = 0.
Proof.
  unfold part_limit, SPI_FLASH_MMU_PAGE_SIZE in *. destruct (negb _); rewrite !u32_small by (rewrite ?u32_small by lia; lia).
  all: split; [lia|]; apply Z.mod_divide; [lia|].
  - exists ((bootloader_mmap_get_free_pages cfg - 1) * 16384). lia.
  - exists (bootloader_mmap_get_free_pages cfg * 16384). lia.
Qed.

(** What processing [len] bytes at [src] does to hash, checksum, and RAM. *)
Record processed (src len : Z) (s s' : img) : Prop := {
  pr_data : ld_data s' = ld_data s;
  pr_sha : ld_sha s' = feed (read_bytes img_view src (Z.to_nat len)) (ld_sha s);
  pr_checksum : fold_checksum (ld_checksum s') = Z.lxor (fold_checksum (ld_checksum s)) (xor_all (read_bytes img_view src (Z.to_nat len)))
}.

Definition filled (v : Z * Z) : Z * Z := if BOOTLOADER_BUILD cfg && ((fst v =? 0) || (snd v =? 0)) then random else v.

Hypothesis random_nonzero : fst random <> 0 /\ snd random <> 0.

Lemma filled_filled v : filled (filled v) = filled v.
Proof.
  unfold filled. destruct (BOOTLOADER_BUILD cfg); cbn [andb]; [|done]. destruct ((fst v =? 0) || (snd v =? 0)) eqn:E; [|by rewrite E].
  destruct random_nonzero as [H1%Z.eqb_neq H2%Z.eqb_neq]. by rewrite H1, H2.
Qed.

Lemma processed_trans src n k s1 s2 s3 : 0 <= n -> 0 <= k -> processed src n s1 s2 -> processed (src + n) k s2 s3 -> processed src (n + k) s1 s3.
Proof.
  intros Hn Hk [D1 S1 C1] [D2 S2 C2].
  assert (E : read_bytes img_view src (Z.to_nat (n + k)) = read_bytes img_view src (Z.to_nat n) ++ read_bytes img_view (src + n) (Z.to_nat k)).
  { rewrite Z2Nat.inj_add, read_bytes_app, Z2Nat.id by lia. done. }
  split; [congruence|..].
  - by rewrite S2, S1, feed_app, E.
  - by rewrite C2, C1, E, xor_all_app, Z.lxor_assoc.
Qed.

Lemma process_segment_data_spec load src len do_load s : 0 <= len -> len mod 4 = 0 ->
  if bootloader_mmap cfg f src len then
    exists s', process_segment_data cfg random f load src len do_load true s = RET ESP_OK s' /\ processed src len s s' /\
      ram_obfs_value s' = filled (ram_obfs_value s) /\
      ld_ram s' = (if BOOTLOADER_BUILD cfg && do_load then load_words (Z.to_nat (len / 4)) 0 src load (filled (ram_obfs_value s)) (ld_ram s) else ld_ram s)
  else process_segment_data cfg random f load src len do_load true s = RET ESP_FAIL s.
Proof.
  intros Hl Hm. unfold process_segment_data. rewrite andb_false_r. destruct (bootloader_mmap cfg f src len); cbn [negb]; [|done].
  unfold mbind at 1, M_bind at 1, gets. cbn [negb andb].
  set (s1 := set_obfs (filled (ram_obfs_value s)) s).
  rewrite (bind_RET _ _ _ tt s1); cycle 1.
  { unfold s1, filled, fill_obfs, modify. destruct (BOOTLOADER_BUILD cfg); cbn [andb]; [|by destruct s]. by destruct (_ || _), s. }
  assert (Elen : len = 4 * (len / 4)) by (apply Z_div_exact_full_2; lia).
  assert (En : (len + 3) / 4 = len / 4) by (symmetry; apply Z.div_unique with 3; lia). rewrite En.
  pose proof (data_loop_spec len do_load true src load (Z.to_nat (len / 4)) 0 s1 ltac:(lia)) as E.
  rewrite Z.mul_0_r in E. rewrite (bind_RET _ _ _ _ _ (E ltac:(lia))). eexists. split; [done|].
  assert (E0 : hashed_to len 0 = 0) by (unfold hashed_to; change (1024 * ((4 * 0 + 1023) / 1024)) with 0; lia).
  rewrite E0, Z.add_0_r, Z.sub_0_r. split; [|done]. split; cbn [ld_data ld_sha ld_checksum]; [done|done|].
  rewrite xor_words_fold. rewrite Z.mul_0_r, Z.add_0_r. do 3 f_equal. lia.
Qed.

Lemma load_words_other n : forall j src dest v m x, 0 <= j -> 0 <= dest -> dest + 4 * (j + Z.of_nat n) < 2 ^ 32 ->
  x < dest + 4 * j \/ dest + 4 * (j + Z.of_nat n) <= x -> load_words n j src dest v m x = m x.
Proof.
  induction n as [|n IH]; intros j src dest v m x Hj Hd Hw Hx; cbn [load_words]; [done|].
  rewrite IH by lia. rewrite u32_small by lia. apply store32_other. lia.
Qed.

(** RAM outside [[lo, lo + len)] is left alone. *)
Definition ram_frame (lo len : Z) (m m' : mem) : Prop := forall x, x < lo \/ lo + len <= x -> m' x = m x.

Lemma ram_frame_refl lo len m : ram_frame lo len m m.
Proof. done. Qed.

(** All mappings inside [[lo, hi)] succeed. *)
Definition mappable (lo hi : Z) : Prop := forall a n, lo <= a -> 0 < n -> a + n <= hi -> n <= part_limit a -> bootloader_mmap cfg f a n = true.

(** The segment can be loaded: it is mapped at once, and its addresses were
    checked. *)
Definition loadable (load src len : Z) : Prop :=
  0 <= load /\ load + len < 2 ^ 32 /\ len <= part_limit src /\ verify_load_addresses cfg 1 load (load + len) = Some true.

Lemma segment_loop_end fuel load src do_load wc s : segment_loop cfg random f (S fuel) load src 0 do_load wc s = RET ESP_OK s.
Proof. done. Qed.

Lemma segment_loop_spec fuel : forall load src remain do_load s, 0 <= remain -> remain mod 4 = 0 -> 0 <= src -> src + remain < 2 ^ 32 ->
  remain / SPI_FLASH_MMU_PAGE_SIZE + 2 <= Z.of_nat fuel -> (do_load = true -> loadable load src remain) ->
  exists err s', segment_loop cfg random f fuel load src remain do_load true s = RET err s' /\
    (mappable src (src + remain) -> err = ESP_OK) /\
    (if do_load then ram_frame load remain (ld_ram s) (ld_ram s') else ld_ram s' = ld_ram s) /\
    (err = ESP_OK -> processed src remain s s' /\
       ram_obfs_value s' = (if 0 <? remain then filled (ram_obfs_value s) else ram_obfs_value s) /\
       (do_load && BOOTLOADER_BUILD cfg = true -> ld_ram s' = load_words (Z.to_nat (remain / 4)) 0 src load (filled (ram_obfs_value s)) (ld_ram s))).
Proof.
  induction fuel as [|fuel IH]; intros load src remain do_load s Hr Hm Hs Hw Hf Hld.
  { pose proof (Z.div_pos remain SPI_FLASH_MMU_PAGE_SIZE Hr ltac:(done)). lia. }
  destruct (Z.eq_dec remain 0) as [->|Hne].
  { exists ESP_OK, s. split_and!; [done|done|by destruct do_load|]. intros _. split_and!; [|done|done].
    split; cbn; [done|by rewrite feed_nil|by rewrite Z.lxor_0_r]. }
  cbn [segment_loop]. rewrite (proj2 (Z.ltb_lt 0 remain)) by lia.
  rewrite (bind_RET _ _ _ true s); cycle 1.
  { destruct (_ && do_load) eqn:G; [|done]. apply andb_true_iff in G as [_ G]. destruct (Hld G) as (_ & _ & _ & V). unfold check_load_addresses. by rewrite V. }
  cbn [negb]. fold (part_limit src). destruct (part_limit_range src) as [L1 L2]. unfold SPI_FLASH_MMU_PAGE_SIZE in L1.
  set (n := Z.min remain (part_limit src)). assert (Hn : 0 < n <= remain) by lia.
  assert (Hn4 : n mod 4 = 0) by (unfold n; by destruct (Z.min_spec remain (part_limit src)) as [[_ ->]|[_ ->]]).
  pose proof (process_segment_data_spec load src n do_load s ltac:(lia) Hn4) as P.
  destruct (bootloader_mmap cfg f src n) eqn:Emap; cycle 1.
  { unfold mbind, M_bind. rewrite P. exists ESP_FAIL, s. split_and!; [done| |by destruct do_load|done].
    intros Hmap. rewrite (Hmap src n) in Emap by lia. done. }
  destruct P as (s1 & E1 & P1 & O1 & R1). rewrite (bind_RET _ _ _ _ _ E1). cbn [is_ok].
  assert (Hrest : (remain - n) mod 4 = 0) by (rewrite Zminus_mod, Hm, Hn4; done).
  assert (Hram : if do_load then ram_frame load remain (ld_ram s) (ld_ram s1) else ld_ram s1 = ld_ram s).
  { rewrite R1. destruct do_load; [|by rewrite andb_false_r]. rewrite andb_true_r. destruct (BOOTLOADER_BUILD cfg); [|done].
    destruct (Hld eq_refl) as (A1 & A2 & _). intros x Hx.
    assert (4 * (n / 4) = n) by (symmetry; apply Z_div_exact_full_2; lia). apply load_words_other; lia. }
  rewrite u32_small by lia. destruct (Z.eq_dec n remain) as [En|Enr].
  { replace (remain - n) with 0 by lia. destruct fuel as [|fuel]; [pose proof (Z.div_pos remain SPI_FLASH_MMU_PAGE_SIZE Hr ltac:(done)); lia|].
    rewrite segment_loop_end. exists ESP_OK, s1. clearbody n. subst n. split_and!; [done|done|done|]. intros _. split_and!; [done|..].
    - done.
    - rewrite R1. destruct do_load; [|done]. cbn [andb]. by intros ->. }
  assert (Hfuel : (remain - n) / SPI_FLASH_MMU_PAGE_SIZE + 2 <= Z.of_nat fuel).
  { assert ((remain - n) / SPI_FLASH_MMU_PAGE_SIZE <= remain / SPI_FLASH_MMU_PAGE_SIZE - 1); [|lia].
    replace (remain / SPI_FLASH_MMU_PAGE_SIZE - 1) with ((remain + -1 * SPI_FLASH_MMU_PAGE_SIZE) / SPI_FLASH_MMU_PAGE_SIZE) by (rewrite Z.div_add by done; lia).
    apply Z.div_le_mono; [done|]. unfold SPI_FLASH_MMU_PAGE_SIZE. lia. }
  destruct do_load; [destruct (Hld eq_refl) as (_ & _ & ? & _); unfold n in Enr; lia|].
  destruct (IH load (src + n) (remain - n) false s1) as (err & s2 & E2 & Hok & Hfr & Hres); [lia|done|lia|lia|done|done|].
  exists err, s2. rewrite E2. split_and!; [done| |congruence|].
  - intros Hmap. apply Hok. intros a k Ha Hk Hak. apply Hmap; lia.
  - intros Herr. destruct (Hres Herr) as (P2 & O2 & _). split_and!; [|by rewrite O2, (proj2 (Z.ltb_lt 0 (remain - n))), O1, filled_filled by lia|done].
    replace remain with (n + (remain - n)) by lia. by apply (processed_trans src n (remain - n) s s1 s2); try lia.
Qed.
End Segments.
