(* ===== verification/ImageSpec.v ===== *)
(** * The images that are accepted

    An application image is a header, a list of segments, padding, a checksum
    and, if the header says so, a SHA-256 hash of all that precedes.
    [esp_image_verify] accepts exactly the partitions that begin with such an
    image that fits. *)

From S2P Require Import Prelude CMem Crc Flash OtaData PartitionTable Partitions ImageFormat ImageSegments.

(** ** Images *)

Record segment := mkSegment { sg_addr : Z; sg_data : list Z }.

Definition zlen {A} (l : list A) : Z := Z.of_nat (length l).
Definition segment_bytes (sg : segment) : list Z := le32 (sg_addr sg) ++ le32 (zlen (sg_data sg)) ++ sg_data sg.
Definition segments_bytes (sgs : list segment) : list Z := concat (segment_bytes <$> sgs).
Definition seg_header (sg : segment) : esp_image_segment_header_t := mkSegHdr (sg_addr sg) (zlen (sg_data sg)).

Record app_image := mkImage {
  ai_header : list Z;
  ai_segments : list segment;
  ai_padding : list Z
}.

Definition image_checksum (im : app_image) : Z := Z.lxor ESP_ROM_CHECKSUM_INITIAL (xor_all (concat (sg_data <$> ai_segments im))).
(** What is hashed. *)
Definition image_body (im : app_image) : list Z :=
  ai_header im ++ segments_bytes (ai_segments im) ++ ai_padding im ++ [image_checksum im].

Section Spec.
Context (cfg : image_config) (sha256 : list Z -> list Z).

Definition has_hash (im : app_image) : bool := negb (hash_appended (decode_header (ai_header im)) =? 0).
Definition image_bytes (im : app_image) : list Z := image_body im ++ (if has_hash im then sha256 (image_body im) else []).

(** A segment whose data lies at [data_addr]: the data are whole words, and
    what is mapped by the cache has its place within a page. *)
Record segment_ok (data_addr : Z) (sg : segment) : Prop := {
  so_addr : is_u32 (sg_addr sg);
  so_bytes : Forall is_byte (sg_data sg);
  so_words : zlen (sg_data sg) mod 4 = 0;
  so_size : zlen (sg_data sg) < SIXTEEN_MB;
  so_page : should_map cfg (sg_addr sg) = true -> data_addr mod SPI_FLASH_MMU_PAGE_SIZE = sg_addr sg mod SPI_FLASH_MMU_PAGE_SIZE
}.

(** Segments one after the other from [addr] on. *)
Fixpoint segments_ok (addr : Z) (sgs : list segment) : Prop :=
  match sgs with
  | [] => True
  | sg :: sgs => segment_ok (addr + SEGMENT_HEADER_SIZE) sg /\ segments_ok (addr + zlen (segment_bytes sg)) sgs
  end.

(** A header for this chip. *)
Record header_ok (hdr : esp_image_header_t) : Prop := {
  ho_magic : magic hdr = ESP_IMAGE_HEADER_MAGIC;
  ho_chip : chip_id hdr = CONFIG_IDF_FIRMWARE_CHIP_ID cfg;
  ho_min : min_chip_rev_full hdr <= ic_revision cfg;
  ho_max : max_chip_rev_full hdr = 65535 \/ max_chip_rev_full hdr = 0 \/ ic_revision cfg <= max_chip_rev_full hdr \/ ic_ignore_max_rev cfg = true;
  ho_segments : segment_count hdr <= ESP_IMAGE_MAX_SEGMENTS
}.

(** An image in a partition. *)
Record image_ok (part : esp_partition_pos_t) (im : app_image) : Prop := {
  io_length : zlen (ai_header im) = HEADER_SIZE;
  io_header : header_ok (decode_header (ai_header im));
  io_count : segment_count (decode_header (ai_header im)) = zlen (ai_segments im);
  io_segments : segments_ok (pos_offset part + HEADER_SIZE) (ai_segments im);
  io_padding : zlen (ai_padding im) < 16 /\ zlen (image_body im) mod 16 = 0;
  io_fits : zlen (image_bytes im) + sig_block_len cfg (pos_offset part) (zlen (image_bytes im)) <= pos_size part
}.
End Spec.

Lemma zlen_app {A} (l1 l2 : list A) : zlen (l1 ++ l2) = zlen l1 + zlen l2.
Proof. unfold zlen. rewrite length_app. lia. Qed.

Lemma zlen_nonneg {A} (l : list A) : 0 <= zlen l.
Proof. unfold zlen. lia. Qed.

Lemma zlen_read_bytes m a n : zlen (read_bytes m a n) = Z.of_nat n.
Proof. unfold zlen. by rewrite length_read_bytes. Qed.

Lemma zlen_segment sg : zlen (segment_bytes sg) = SEGMENT_HEADER_SIZE + zlen (sg_data sg).
Proof. unfold segment_bytes. rewrite !zlen_app. change (4 + (4 + zlen (sg_data sg)) = 8 + zlen (sg_data sg)). lia. Qed.

Lemma zlen_segments_cons sg sgs : zlen (segments_bytes (sg :: sgs)) = zlen (segment_bytes sg) + zlen (segments_bytes sgs).
Proof. apply zlen_app. Qed.

(** ** Headers *)

Lemma header_ok_spec cfg hdr : is_ok (verify_image_header cfg hdr) = true <-> header_ok cfg hdr.
Proof.
  unfold verify_image_header, bootloader_common_check_chip_validity. split.
  - destruct (Z.eqb_spec (magic hdr) ESP_IMAGE_HEADER_MAGIC); [|done]. cbn [negb].
    destruct (Z.eqb_spec (CONFIG_IDF_FIRMWARE_CHIP_ID cfg) (chip_id hdr)); [|done]. cbn [negb].
    destruct (_ && _) eqn:E; [done|]. destruct (Z.leb_spec (min_chip_rev_full hdr) (ic_revision cfg)); cbn [negb]; [|done]. cbn [is_ok].
    destruct (Z.ltb_spec ESP_IMAGE_MAX_SEGMENTS (segment_count hdr)); [done|]. intros _. split; [done|done|done| |lia].
    destruct (Z.eqb_spec (max_chip_rev_full hdr) 65535); [by left|]. destruct (Z.eqb_spec (max_chip_rev_full hdr) 0); [by right; left|].
    destruct (Z.ltb_spec (max_chip_rev_full hdr) (ic_revision cfg)); [|by right; right; left]. cbn in E. right; right; right. by destruct (ic_ignore_max_rev cfg).
  - intros [Hm Hc Hmin Hmax Hs]. rewrite Hm, Hc, !Z.eqb_refl. cbn [negb]. rewrite (proj2 (Z.leb_le _ _) Hmin). cbn [negb].
    assert (E : negb (max_chip_rev_full hdr =? 65535) && negb (max_chip_rev_full hdr =? 0) && (max_chip_rev_full hdr <? ic_revision cfg) && negb (ic_ignore_max_rev cfg) = false).
    { destruct Hmax as [->|[->|[Hle| ->]]]; [done|by rewrite andb_false_r| |by rewrite andb_false_r]. rewrite (proj2 (Z.ltb_ge _ _) Hle). by rewrite andb_false_r. }
    rewrite E. cbn [is_ok negb]. by rewrite (proj2 (Z.ltb_ge _ _) Hs).
Qed.

Lemma land_3 z : Z.land z 3 = z mod 4.
Proof. change 3 with (Z.ones 2). by rewrite Z.land_ones. Qed.

Lemma segment_header_spec cfg addr len data_addr : is_ok (verify_segment_header cfg (mkSegHdr addr len) data_addr) = true <->
  len mod 4 = 0 /\ len < SIXTEEN_MB /\ (should_map cfg addr = true -> data_addr mod SPI_FLASH_MMU_PAGE_SIZE = addr mod SPI_FLASH_MMU_PAGE_SIZE).
Proof.
  unfold verify_segment_header. cbn [data_len load_addr]. rewrite land_3.
  destruct (Z.eqb_spec (len mod 4) 0); cbn [negb orb]; [|split; [done|]; by intros (? & _)].
  destruct (Z.leb_spec SIXTEEN_MB len); [split; [done|]; lia|].
  destruct (should_map cfg addr); cbn [andb]; [|by split].
  destruct (Z.eqb_spec (data_addr mod SPI_FLASH_MMU_PAGE_SIZE) (addr mod SPI_FLASH_MMU_PAGE_SIZE)) as [E|E]; cbn [negb]; [by split|].
  split; [done|]. intros (_ & _ & Hp). by destruct (E (Hp eq_refl)).
Qed.

(** ** Reading an image *)

Section Verify.
Context {F : Type} `{FlashLaws F}.
Context (cfg : image_config) (sha256 : list Z -> list Z).
Context (verify_signature_block : list Z -> list Z -> esp_err_t * list Z) (random : Z * Z) (f : F).
Hypothesis free_pages : 2 <= bootloader_mmap_get_free_pages cfg < 2 ^ 16.
Hypothesis random_nonzero : fst random <> 0 /\ snd random <> 0.
Abbreviation view_ := (img_view cfg f).

Lemma flash_read_sound a n bs : bootloader_flash_read cfg f a n = (ESP_OK, bs) -> bs = read_bytes view_ a (Z.to_nat n).
Proof.
  unfold bootloader_flash_read, img_view. destruct (BOOTLOADER_BUILD cfg).
  - destruct (_ || _); [done|]. by intros [= <-].
  - destruct (ic_encrypted cfg); [|by apply law_read]. destruct (fl_mmap f a n); cbn [is_ok]; intros [= <-]; done.
Qed.

(** Aligned reads inside [[lo, hi)] succeed. *)
Definition readable (lo hi : Z) : Prop := forall a n, lo <= a -> 0 <= n -> a + n <= hi -> a mod 4 = 0 -> n mod 4 = 0 ->
  fst (bootloader_flash_read cfg f a n) = ESP_OK.

Lemma flash_read_ok lo hi a n : readable lo hi -> lo <= a -> 0 <= n -> a + n <= hi -> a mod 4 = 0 -> n mod 4 = 0 ->
  bootloader_flash_read cfg f a n = (ESP_OK, read_bytes view_ a (Z.to_nat n)).
Proof.
  intros Hr H1 H2 H3 H4 H5. pose proof (Hr a n H1 H2 H3 H4 H5) as E. destruct (bootloader_flash_read cfg f a n) as [e bs] eqn:R.
  cbn in E. subst e. by rewrite (flash_read_sound a n bs).
Qed.

Lemma le32_load32 m a : (forall x, is_byte (m x)) -> le32 (load32 m a) = read_bytes m a 4.
Proof.
  intros Hb. unfold le32. cbn [read_bytes]. replace (a + 1 + 1) with (a + 2) by lia. replace (a + 2 + 1) with (a + 3) by lia.
  pose proof (load32_byte m a 0 Hb ltac:(lia)) as E0. pose proof (load32_byte m a 1 Hb ltac:(lia)) as E1.
  pose proof (load32_byte m a 2 Hb ltac:(lia)) as E2. pose proof (load32_byte m a 3 Hb ltac:(lia)) as E3.
  change (8 * 0) with 0 in E0. rewrite Z.div_1_r, Z.add_0_r in E0. change (8 * 1) with 8 in E1. change (8 * 2) with 16 in E2.
  change (8 * 3) with 24 in E3. by rewrite E0, E1, E2, E3.
Qed.

Lemma read_bytes_bytes a n : Forall is_byte (read_bytes view_ a n).
Proof. revert a. induction n as [|n IH]; intros a; cbn; constructor; [apply view_bytes|apply IH]. Qed.

(** The segment at [a]. *)
Definition seg_at (a : Z) : segment := mkSegment (load32 view_ a) (read_bytes view_ (a + SEGMENT_HEADER_SIZE) (Z.to_nat (load32 view_ (a + 4)))).

Lemma seg_at_len a : zlen (sg_data (seg_at a)) = load32 view_ (a + 4).
Proof. unfold zlen, seg_at. cbn. rewrite length_read_bytes, Z2Nat.id; [done|]. apply load32_range, view_bytes. Qed.

Lemma decode_seg_at a : decode_segment (read_bytes view_ a 8) = seg_header (seg_at a).
Proof.
  unfold seg_header. rewrite seg_at_len. unfold decode_segment, seg_at, get32, load32. cbn.
  repeat match goal with |- context [view_ (a + ?x + ?y)] => replace (a + x + y) with (a + (x + y)) by lia end. by cbn.
Qed.

Lemma seg_at_bytes a : segment_bytes (seg_at a) = read_bytes view_ a (Z.to_nat (zlen (segment_bytes (seg_at a)))).
Proof.
  rewrite zlen_segment, seg_at_len. pose proof (load32_range view_ (a + 4) (view_bytes cfg f)) as R. unfold SEGMENT_HEADER_SIZE.
  rewrite Z2Nat.inj_add by lia. change (Z.to_nat 8) with (4 + 4)%nat. rewrite <- Nat.add_assoc, read_bytes_app.
  rewrite read_bytes_app. unfold segment_bytes. rewrite seg_at_len. cbn [seg_at sg_addr sg_data].
  rewrite !(le32_load32 view_) by apply view_bytes. unfold SEGMENT_HEADER_SIZE. do 3 f_equal. lia.
Qed.

(** It is the only one. *)
Lemma seg_at_unique a sg : is_u32 (sg_addr sg) -> zlen (sg_data sg) < 2 ^ 32 ->
  read_bytes view_ a (length (segment_bytes sg)) = segment_bytes sg -> sg = seg_at a.
Proof.
  intros Ha Hl E. pose proof (zlen_nonneg (sg_data sg)) as Hn. unfold segment_bytes in E. rewrite !length_app in E.
  change (length (le32 (sg_addr sg))) with 4%nat in E. change (length (le32 (zlen (sg_data sg)))) with 4%nat in E.
  rewrite read_bytes_app in E. apply app_inj_1 in E as [E1 E]; [|by rewrite length_read_bytes].
  rewrite read_bytes_app in E. apply app_inj_1 in E as [E2 E3]; [|by rewrite length_read_bytes].
  rewrite <- (le32_load32 view_) in E1, E2 by apply view_bytes.
  apply le32_inj in E1; [|by apply load32_range, view_bytes|done]. apply le32_inj in E2; [|by apply load32_range, view_bytes|split; lia].
  destruct sg as [ad da]. unfold seg_at. cbn in *. change (a + Z.of_nat 4) with (a + 4) in *. rewrite E1, E2. f_equal. rewrite <- E3 at 1.
  unfold zlen, SEGMENT_HEADER_SIZE. rewrite Nat2Z.id. f_equal. lia.
Qed.

(** ** Segments *)

(** The segment is copied to RAM. *)
Definition loads (do_load : bool) (sg : segment) : bool := do_load && should_load cfg (sg_addr sg).
Definition load_check (sg : segment) : option bool :=
  if 0 <? zlen (sg_data sg) then verify_load_addresses cfg 1 (sg_addr sg) (sg_addr sg + zlen (sg_data sg)) else Some true.

(** Only RAM that [verify_load_addresses] accepts is written. *)
Definition safe_frame (do_load : bool) (m m' : mem) : Prop := forall x, m' x <> m x -> do_load = true /\ exists load len,
  0 <= load /\ load <= x < load + len /\ load + len < 2 ^ 32 /\ len < SIXTEEN_MB /\ verify_load_addresses cfg 1 load (load + len) = Some true.

Lemma safe_frame_refl do_load m : safe_frame do_load m m.
Proof. by intros x Hx. Qed.

Lemma safe_frame_trans do_load m1 m2 m3 : safe_frame do_load m1 m2 -> safe_frame do_load m2 m3 -> safe_frame do_load m1 m3.
Proof. intros H1 H2 x Hx. destruct (Z.eq_dec (m3 x) (m2 x)) as [E|E]; [apply H1; congruence|by apply H2]. Qed.

(** A range of RAM fits below 4 GB and is mapped at once. *)
Definition ram_fits : Prop := forall load len a, 0 <= load < 2 ^ 32 -> 0 < len < SIXTEEN_MB ->
  verify_load_addresses cfg 1 load (load + len) = Some true -> load + len < 2 ^ 32 /\ len <= part_limit cfg a.

(** What processing the segment [sg], at [a], does. *)
Record seg_done (do_load : bool) (a : Z) (sg : segment) (s s' : img) : Prop := {
  sd_data : ld_data s' = ld_data s;
  sd_sha : ld_sha s' = feed (segment_bytes sg) (ld_sha s);
  sd_checksum : fold_checksum (ld_checksum s') = Z.lxor (fold_checksum (ld_checksum s)) (xor_all (sg_data sg));
  sd_obfs : ram_obfs_value s' = (if 0 <? zlen (sg_data sg) then filled cfg random (ram_obfs_value s) else ram_obfs_value s);
  sd_ram : ld_ram s' = (if loads do_load sg
    then load_words cfg f (Z.to_nat (zlen (sg_data sg) / 4)) 0 (a + SEGMENT_HEADER_SIZE) (sg_addr sg) (filled cfg random (ram_obfs_value s)) (ld_ram s)
    else ld_ram s)
}.

(** The segment at [a] is accepted. *)
Definition accepted (do_load : bool) (a : Z) : Prop :=
  segment_ok cfg (a + SEGMENT_HEADER_SIZE) (seg_at a) /\ (loads do_load (seg_at a) = true -> load_check (seg_at a) = Some true).

Lemma seg_at_ok a : 0 <= a -> is_ok (verify_segment_header cfg (seg_header (seg_at a)) (a + SEGMENT_HEADER_SIZE)) = true <->
  segment_ok cfg (a + SEGMENT_HEADER_SIZE) (seg_at a).
Proof.
  intros Ha. unfold seg_header. rewrite segment_header_spec. split.
  - intros (H1 & H2 & H3). split; [|apply read_bytes_bytes|done|done|done]. apply load32_range, view_bytes.
  - by intros [_ _ H1 H2 H3].
Qed.

(** The loop over the mapping windows, after the checks. *)
Lemma process_segment_loop do_load a s : (do_load = true -> BOOTLOADER_BUILD cfg = true /\ ram_fits) ->
  0 <= a -> a + SEGMENT_HEADER_SIZE + SIXTEEN_MB < 2 ^ 32 -> segment_ok cfg (a + SEGMENT_HEADER_SIZE) (seg_at a) ->
  (loads do_load (seg_at a) = true -> load_check (seg_at a) = Some true) ->
  exists err s',
    (err ← segment_loop cfg random f (segment_fuel (zlen (sg_data (seg_at a)))) (sg_addr (seg_at a)) (a + SEGMENT_HEADER_SIZE) (zlen (sg_data (seg_at a)))
       (loads do_load (seg_at a)) true; mret (err, Some (seg_header (seg_at a)))) (set_sha (feed (read_bytes view_ a 8) (ld_sha s)) s) =
    RET (err, Some (seg_header (seg_at a))) s' /\
    safe_frame do_load (ld_ram s) (ld_ram s') /\ (mappable cfg f a (a + zlen (segment_bytes (seg_at a))) -> err = ESP_OK) /\
    (err = ESP_OK -> seg_done do_load a (seg_at a) s s').
Proof.
  intros Hbl Ha Hw [Hu _ Hwords Hsize _] Hck. pose proof (zlen_nonneg (sg_data (seg_at a))) as Hnn. set (n := zlen (sg_data (seg_at a))) in *.
  assert (Hld : loads do_load (seg_at a) = true -> BOOTLOADER_BUILD cfg = true /\ loadable cfg (sg_addr (seg_at a)) (a + SEGMENT_HEADER_SIZE) n).
  { intros El. specialize (Hck El). unfold loads in El. apply andb_true_iff in El as [Ed _]. destruct (Hbl Ed) as [Hb Hr]. split; [done|].
    unfold load_check in Hck. fold n in Hck. unfold is_u32 in Hu. destruct (Z.ltb_spec 0 n) as [Hn|Hn].
    - destruct (Hr (sg_addr (seg_at a)) n (a + SEGMENT_HEADER_SIZE)) as [R1 R2]; [lia|lia|done|]. unfold loadable. split_and!; [lia|done|done|done].
    - replace n with 0 by lia. unfold loadable. pose proof (part_limit_range cfg free_pages (a + SEGMENT_HEADER_SIZE)) as [L _].
      unfold SPI_FLASH_MMU_PAGE_SIZE in L. split_and!; [lia|lia|lia|]. rewrite Z.add_0_r. cbn. by rewrite Z.eqb_refl. }
  destruct (segment_loop_spec cfg random f free_pages random_nonzero (segment_fuel n) (sg_addr (seg_at a)) (a + SEGMENT_HEADER_SIZE) n
    (loads do_load (seg_at a)) (set_sha (feed (read_bytes view_ a 8) (ld_sha s)) s)) as (err & s' & E & Hok & Hfr & Hres).
  { lia. } { done. } { unfold SEGMENT_HEADER_SIZE. lia. } { lia. } { unfold segment_fuel. pose proof (Z.div_pos n SPI_FLASH_MMU_PAGE_SIZE Hnn ltac:(done)). lia. }
  { intros El. by apply Hld. }
  exists err, s'. rewrite (bind_RET _ _ _ _ _ E). split_and!; [done|..].
  - unfold loads in Hfr, Hld. destruct do_load; [|rewrite Hfr; apply safe_frame_refl]. destruct (true && _); [|rewrite Hfr; apply safe_frame_refl]. destruct (Hld eq_refl) as [_ (L1 & L2 & _ & L4)].
    intros x Hx. split; [done|]. exists (sg_addr (seg_at a)), n. split_and!; [done|..|done|done|done].
    all: destruct (Z_lt_dec x (sg_addr (seg_at a))); [exfalso; apply Hx, Hfr; by left|]; try lia.
    destruct (Z_lt_dec x (sg_addr (seg_at a) + n)); [done|]. exfalso. apply Hx, Hfr. right. lia.
  - intros Hm. apply Hok. intros b k H1 H2 H3 H4. apply Hm; [unfold SEGMENT_HEADER_SIZE in *; lia|done| |done]. rewrite zlen_segment. fold n. lia.
  - intros He. destruct (Hres He) as ([P1 P2 P3] & P4 & P5). cbn [ld_data ld_sha ld_checksum ld_ram ram_obfs_value set_sha] in *. split; [done| | |done|].
    + rewrite P2, feed_app, seg_at_bytes, zlen_segment. f_equal. fold n. unfold SEGMENT_HEADER_SIZE. rewrite Z2Nat.inj_add by lia.
      rewrite read_bytes_app. done.
    + rewrite P3. do 2 f_equal. unfold seg_at. cbn [sg_data]. f_equal. unfold n. by rewrite seg_at_len.
    + destruct (loads do_load (seg_at a)) eqn:El; [|done]. destruct (Hld eq_refl) as [Hb _]. apply P5. by rewrite Hb.
Qed.

Lemma process_segment_spec do_load a s : (do_load = true -> BOOTLOADER_BUILD cfg = true /\ ram_fits) ->
  0 <= a -> a + SEGMENT_HEADER_SIZE + SIXTEEN_MB < 2 ^ 32 ->
  match process_segment cfg random f a do_load true s with
  | RET (err, h) s' =>
      safe_frame do_load (ld_ram s) (ld_ram s') /\
      (err = ESP_OK -> h = Some (seg_header (seg_at a)) /\ accepted do_load a /\ seg_done do_load a (seg_at a) s s') /\
      (accepted do_load a -> a mod 4 = 0 -> readable a (a + zlen (segment_bytes (seg_at a))) ->
         mappable cfg f a (a + zlen (segment_bytes (seg_at a))) -> err = ESP_OK)
  | ABORT => loads do_load (seg_at a) = true /\ segment_ok cfg (a + SEGMENT_HEADER_SIZE) (seg_at a) /\ load_check (seg_at a) = None
  | RESTART _ => False
  end.
Proof.
  intros Hbl Ha Hw. unfold process_segment. pose proof (zlen_nonneg (sg_data (seg_at a))) as Hnn.
  destruct (bootloader_flash_read cfg f a SEGMENT_HEADER_SIZE) as [e bs] eqn:Er. destruct (is_ok_spec e) as [->|Ee]; cbn [negb]; cycle 1.
  { split_and!; [apply safe_frame_refl|done|]. intros _ H4 Hr _. destruct Ee.
    rewrite (flash_read_ok _ _ _ _ Hr) in Er; [by injection Er|lia|done|rewrite zlen_segment; lia|done|done]. }
  apply flash_read_sound in Er as ->. change (Z.to_nat SEGMENT_HEADER_SIZE) with 8%nat.
  rewrite (bind_RET _ _ _ _ _ (sha_data_if_spec cfg (read_bytes view_ a 8) s eq_refl)). rewrite decode_seg_at, u32_small by (unfold SIXTEEN_MB, SEGMENT_HEADER_SIZE in *; lia).
  pose proof (seg_at_ok a Ha) as Hh. destruct (is_ok_spec (verify_segment_header cfg (seg_header (seg_at a)) (a + SEGMENT_HEADER_SIZE))) as [E|E]; cbn [negb]; cycle 1.
  { split_and!; [apply safe_frame_refl|done|]. intros [Hok _]. apply Hh in Hok. done. }
  destruct Hh as [Hh _]. specialize (Hh eq_refl). pose proof Hh as [_ _ Hwords Hsize _].
  change (data_len (seg_header (seg_at a))) with (zlen (sg_data (seg_at a))). change (load_addr (seg_header (seg_at a))) with (sg_addr (seg_at a)).
  rewrite Hwords. cbn [Z.eqb negb]. fold (loads do_load (seg_at a)).
  set (s1 := set_sha (feed (read_bytes view_ a 8) (ld_sha s)) s).
  assert (Ec : (if BOOTLOADER_BUILD cfg && loads do_load (seg_at a) && (0 <? zlen (sg_data (seg_at a)))
      then check_load_addresses cfg (sg_addr (seg_at a)) (sg_addr (seg_at a) + zlen (sg_data (seg_at a))) else mret true) s1 =
    if loads do_load (seg_at a) then match load_check (seg_at a) with Some b => RET b s1 | None => ABORT end else RET true s1).
  { unfold load_check, check_load_addresses. destruct (loads do_load (seg_at a)) eqn:El; [|by rewrite andb_false_r].
    unfold loads in El. apply andb_true_iff in El as [Ed _]. destruct (Hbl Ed) as [-> _]. cbn [andb]. destruct (0 <? _); [|done]. by destruct (verify_load_addresses _ _ _ _). }
  unfold mbind at 1, M_bind at 1. rewrite Ec. clear Ec.
  assert (Hgo : (loads do_load (seg_at a) = true -> load_check (seg_at a) = Some true) -> exists err s',
    (err ← segment_loop cfg random f (segment_fuel (zlen (sg_data (seg_at a)))) (sg_addr (seg_at a)) (a + SEGMENT_HEADER_SIZE) (zlen (sg_data (seg_at a)))
       (loads do_load (seg_at a)) true; mret (err, Some (seg_header (seg_at a)))) s1 = RET (err, Some (seg_header (seg_at a))) s' /\
    safe_frame do_load (ld_ram s) (ld_ram s') /\ (mappable cfg f a (a + zlen (segment_bytes (seg_at a))) -> err = ESP_OK) /\
    (err = ESP_OK -> seg_done do_load a (seg_at a) s s')).
  { intros Hck. apply (process_segment_loop do_load a s); [done|lia|done|done|done]. }
  destruct (loads do_load (seg_at a)) eqn:El; [destruct (load_check (seg_at a)) as [[]|] eqn:Ek|]; cbn [negb].
  2: { split_and!; [apply safe_frame_refl|done|]. intros [_ Hck]. rewrite Hck in Ek by done. done. }
  2: { done. }
  all: destruct Hgo as (err & s' & -> & Hf & Hm & Hd); [done|]; split_and!; [done| |intros _ _ _; apply Hm].
  all: intros He; split_and!; [done|split; [done|by rewrite ?El]|by apply Hd].
Qed.

(** The [n] segments from [a] on, and where their data lie. *)
Fixpoint segs_at (n : nat) (a : Z) : list segment :=
  match n with
  | O => []
  | S n => seg_at a :: segs_at n (a + zlen (segment_bytes (seg_at a)))
  end.
Fixpoint data_addrs (a : Z) (sgs : list segment) : list Z :=
  match sgs with
  | [] => []
  | sg :: sgs => (a + SEGMENT_HEADER_SIZE) :: data_addrs (a + zlen (segment_bytes sg)) sgs
  end.
(** RAM after loading them. *)
Fixpoint load_segments (do_load : bool) (a : Z) (sgs : list segment) (v : Z * Z) (m : mem) : mem :=
  match sgs with
  | [] => m
  | sg :: sgs =>
      load_segments do_load (a + zlen (segment_bytes sg)) sgs v
        (if loads do_load sg then load_words cfg f (Z.to_nat (zlen (sg_data sg) / 4)) 0 (a + SEGMENT_HEADER_SIZE) (sg_addr sg) v m else m)
  end.

Definition with_segments (i : nat) (a : Z) (sgs : list segment) (d : esp_image_metadata_t) : esp_image_metadata_t :=
  mkMeta (start_addr d) (image d) (list_inserts i (seg_header <$> sgs) (segments d)) (list_inserts i (data_addrs a sgs) (segment_data d))
    (image_len d) (image_digest d).

Record segs_done (do_load : bool) (i : nat) (a : Z) (sgs : list segment) (s s' : img) : Prop := {
  ss_data : ld_data s' = with_segments i a sgs (ld_data s);
  ss_sha : ld_sha s' = feed (segments_bytes sgs) (ld_sha s);
  ss_checksum : fold_checksum (ld_checksum s') = Z.lxor (fold_checksum (ld_checksum s)) (xor_all (concat (sg_data <$> sgs)));
  ss_obfs : filled cfg random (ram_obfs_value s') = filled cfg random (ram_obfs_value s) /\
    (ram_obfs_value s' = filled cfg random (ram_obfs_value s) \/ (concat (sg_data <$> sgs) = [] /\ ram_obfs_value s' = ram_obfs_value s));
  ss_ram : ld_ram s' = load_segments do_load a sgs (filled cfg random (ram_obfs_value s)) (ld_ram s)
}.

Definition load_ok (do_load : bool) (sgs : list segment) : Prop := Forall (fun sg => loads do_load sg = true -> load_check sg = Some true) sgs.
Definition load_aborts (do_load : bool) (sgs : list segment) : Prop :=
  Exists (fun sg => loads do_load sg = true /\ (exists addr, segment_ok cfg addr sg) /\ load_check sg = None) sgs.

Lemma segs_done_nil do_load i a s : segs_done do_load i a [] s s.
Proof.
  split; cbn; [by destruct s as [[]]|by rewrite feed_nil|by rewrite Z.lxor_0_r|split; [done|by right]|done].
Qed.

Lemma segs_done_cons do_load i a sg sgs s s1 s2 : seg_done do_load a sg s s1 ->
  segs_done do_load (S i) (a + zlen (segment_bytes sg)) sgs
    (set_data (mkMeta (start_addr (ld_data s1)) (image (ld_data s1)) (<[i := seg_header sg]> (segments (ld_data s1)))
       (<[i := a + SEGMENT_HEADER_SIZE]> (segment_data (ld_data s1))) (image_len (ld_data s1)) (image_digest (ld_data s1))) s1) s2 ->
  segs_done do_load i a (sg :: sgs) s s2.
Proof.
  intros [D1 H1 C1 O1 R1] [D2 H2 C2 [O2 O2'] R2]. cbn [ld_data ld_sha ld_checksum ld_ram ram_obfs_value set_data] in *.
  assert (Ef : filled cfg random (ram_obfs_value s1) = filled cfg random (ram_obfs_value s)).
  { rewrite O1. destruct (0 <? _); [by apply filled_filled|done]. }
  split.
  - rewrite D2, D1. unfold with_segments. cbn. by rewrite !list_insert_inserts_lt by lia.
  - by rewrite H2, H1, feed_app.
  - rewrite C2, C1. cbn. by rewrite xor_all_app, Z.lxor_assoc.
  - split; [by rewrite O2|]. cbn. destruct O2' as [O2'|[E O2']]; [left; congruence|]. rewrite O2', E, O1.
    destruct (Z.ltb_spec 0 (zlen (sg_data sg))) as [L|L]; [by left|right]. split; [|done]. unfold zlen in L. destruct (sg_data sg); [done|cbn in L; lia].
  - rewrite R2, R1, Ef. done.
Qed.

Lemma segments_loop_spec do_load n : (do_load = true -> BOOTLOADER_BUILD cfg = true /\ ram_fits) -> forall i a s,
  0 <= a -> a + Z.of_nat n * (SEGMENT_HEADER_SIZE + SIXTEEN_MB) < 2 ^ 32 -> (i + n <= 16)%nat ->
  match segments_loop cfg random f n i a do_load true s with
  | RET (err, e) s' =>
      safe_frame do_load (ld_ram s) (ld_ram s') /\
      (err = ESP_OK -> e = a + zlen (segments_bytes (segs_at n a)) /\ segments_ok cfg a (segs_at n a) /\ load_ok do_load (segs_at n a) /\
         segs_done do_load i a (segs_at n a) s s') /\
      (segments_ok cfg a (segs_at n a) -> load_ok do_load (segs_at n a) -> a mod 4 = 0 -> readable a (a + zlen (segments_bytes (segs_at n a))) ->
         mappable cfg f a (a + zlen (segments_bytes (segs_at n a))) -> err = ESP_OK)
  | ABORT => load_aborts do_load (segs_at n a)
  | RESTART _ => False
  end.
Proof.
  intros Hbl. induction n as [|n IH]; intros i a s Ha Hw Hi; cbn [segments_loop].
  { split_and!; [apply safe_frame_refl| |done]. intros _. split_and!; [unfold zlen; cbn; lia|done|by constructor|apply segs_done_nil]. }
  assert (Hw1 : a + SEGMENT_HEADER_SIZE + SIXTEEN_MB + Z.of_nat n * (SEGMENT_HEADER_SIZE + SIXTEEN_MB) < 2 ^ 32) by lia.
  assert (Hpos : 0 <= Z.of_nat n * (SEGMENT_HEADER_SIZE + SIXTEEN_MB)) by (unfold SEGMENT_HEADER_SIZE, SIXTEEN_MB; lia).
  pose proof (process_segment_spec do_load a s Hbl Ha ltac:(lia)) as P.
  unfold mbind at 1, M_bind at 1. destruct (process_segment cfg random f a do_load true s) as [[err h] s1| |]; [|left; destruct P as (P1 & P2 & P3); eauto|done].
  destruct P as (Hf & Hok & Hc). assert (Hset : forall h, set_segment i h s1 = RET tt (let d := ld_data s1 in
    set_data (mkMeta (start_addr d) (image d) (<[i := h]> (segments d)) (segment_data d) (image_len d) (image_digest d)) s1)).
  { intros h'. unfold set_segment, mbind, M_bind, assert_, ESP_IMAGE_MAX_SEGMENTS. by rewrite (proj2 (Z.ltb_lt (Z.of_nat i) 16)) by lia. }
  destruct (is_ok_spec err) as [->|Herr]; cycle 1.
  { assert (Hfail : accepted do_load a -> a mod 4 = 0 -> readable a (a + zlen (segments_bytes (segs_at (S n) a))) ->
      mappable cfg f a (a + zlen (segments_bytes (segs_at (S n) a))) -> False).
    { intros Hacc H4 Hr Hm. apply Herr, Hc; [done|done|intros b k|intros b k]; intros; [apply Hr|apply Hm]; try done.
      all: cbn [segs_at]; rewrite zlen_segments_cons; pose proof (zlen_nonneg (segments_bytes (segs_at n (a + zlen (segment_bytes (seg_at a)))))); lia. }
    destruct h as [h|]; [rewrite (bind_RET _ _ _ _ _ (Hset h))|]; split_and!; try done.
    all: intros [Hs1 _] Hl H4 Hr Hm; exfalso; pose proof (Forall_inv Hl); by apply Hfail. }
  destruct (Hok eq_refl) as (-> & Hacc & Hd). rewrite (bind_RET _ _ _ _ _ (Hset _)). cbn [negb].
  destruct Hacc as [Hso Hlo]. pose proof Hso as [_ _ So3 So4 _]. pose proof (zlen_nonneg (sg_data (seg_at a))) as So0.
  cbn [is_ok negb]. change (data_len (seg_header (seg_at a))) with (zlen (sg_data (seg_at a))).
  assert (Enext : u32 (u32 (a + SEGMENT_HEADER_SIZE) + zlen (sg_data (seg_at a))) = a + zlen (segment_bytes (seg_at a))).
  { rewrite zlen_segment. unfold SEGMENT_HEADER_SIZE, SIXTEEN_MB in *. rewrite (u32_small (a + 8)), u32_small by lia. lia. }
  rewrite Enext. unfold set_segment_data at 1, mbind at 1, M_bind at 1, assert_, ESP_IMAGE_MAX_SEGMENTS.
  unfold mbind at 1, M_bind at 1. rewrite (proj2 (Z.ltb_lt (Z.of_nat i) 16)) by lia. unfold modify.
  rewrite u32_small by (unfold SEGMENT_HEADER_SIZE, SIXTEEN_MB in *; lia). cbn [ld_data set_data start_addr image segments segment_data image_len image_digest].
  set (s2 := set_data _ _).
  assert (Hb : 0 <= a + zlen (segment_bytes (seg_at a)) /\ a + zlen (segment_bytes (seg_at a)) + Z.of_nat n * (SEGMENT_HEADER_SIZE + SIXTEEN_MB) < 2 ^ 32).
  { rewrite zlen_segment. unfold SEGMENT_HEADER_SIZE in *. lia. }
  specialize (IH (S i) (a + zlen (segment_bytes (seg_at a))) s2 ltac:(lia) ltac:(lia) ltac:(lia)).
  assert (Elen : zlen (segments_bytes (segs_at (S n) a)) = zlen (segment_bytes (seg_at a)) + zlen (segments_bytes (segs_at n (a + zlen (segment_bytes (seg_at a)))))).
  { apply zlen_segments_cons. }
  destruct (segments_loop cfg random f n (S i) (a + zlen (segment_bytes (seg_at a))) do_load true s2) as [[err e] s3| |]; [|by right|done].
  destruct IH as (If & Iok & Ic). split_and!; [by apply (safe_frame_trans _ _ (ld_ram s1))| |].
  - intros ->. destruct (Iok eq_refl) as (-> & I1 & I2 & I3). split_and!; [lia|done|by constructor|]. by apply segs_done_cons with s1.
  - intros [_ Hs] Hl H4 Hr Hm. apply Forall_inv_tail in Hl. apply Ic; [done|done|..].
    + rewrite zlen_segment. rewrite Z.add_assoc, <- Zplus_mod_idemp_r, So3, Z.add_0_r. rewrite <- Zplus_mod_idemp_l, H4. done.
    + intros b k H1 H2 H3. apply Hr; [|done|lia]. rewrite zlen_segment in *. unfold SEGMENT_HEADER_SIZE in *. lia.
    + intros b k H1 H2 H3. apply Hm; [|done|lia]. rewrite zlen_segment in *. unfold SEGMENT_HEADER_SIZE in *. lia.
Qed.
End Verify.
