(* ===== verification/ImageExample.v ===== *)
(** * An example image

    An ESP32-C3 with 4 MB of flash and an image of three segments, one for
    DRAM, one for IRAM and one that is mapped, in a partition at 0x10000. *)

From S2P Require Import Prelude CMem Crc Flash OtaData PartitionTable Partitions ImageFormat ImageSegments ImageSpec.

Definition xi_soc : soc :=
  mkSoc (0x42000000, 0x42800000) (0x3C000000, 0x3C800000) (0x3FC80000, 0x3FCE0000) (0x4037C000, 0x403E0000)
    (0x50000000, 0x50002000) (0x50000000, 0x50002000) (0x50000000, 0x50002000)
    (0x3FC80000, 0x3FCE0000) (0x40380000, 0x403E0000) false true true 0x3FCDE710.

(** The build of the bootloader or of the application; with signature checks
    in the scheme of secure boot V2 or without. *)
Definition xi_cfg (bootloader signed : bool) : image_config :=
  mkImgCfg bootloader signed signed false signed false signed false false 0 0x8000 5 false signed 3 false false false false
    xi_soc 0x3FCDE000 (0x3FCD5000, 0x3FCD5F00) (0x403CE000, 0x403D0000) 0x7F0000 16 (fun _ => true) true.

(** A stand-in for SHA-256. *)
Definition xi_sha256 (l : list Z) : list Z := repeat (u8 (foldr Z.add 0 l)) 32.
(** A signature is a block of 4096 bytes 0x5A. *)
Definition xi_signature (block digest : list Z) : esp_err_t * list Z :=
  if bool_decide (block = repeat 0x5A 4096) then (ESP_OK, digest) else (ESP_FAIL, repeat 0 32).
Definition xi_random : Z * Z := (0x12345678, 0x9ABCDEF0).

Definition xi_image : app_image :=
  mkImage ([0xE9; 3; 2; 0x20] ++ le32 0x40390000 ++ [0xEE; 0; 0; 0; 5; 0; 0; 0; 0; 0xFF; 0xFF; 0; 0; 0; 0; 1])
    [mkSegment 0x3FC80000 [1; 2; 3; 4; 5; 6; 7; 8]; mkSegment 0x40390000 [9; 10; 11; 12]; mkSegment 0x4200003C [13; 14; 15; 16]]
    (repeat 0 15).

Definition xi_part : esp_partition_pos_t := mkPos 0x10000 0x100000.
(** The image; then erased flash and, from the next sector on, 0x5A. *)
Definition xi_bytes : list Z := image_bytes xi_sha256 xi_image.
Definition xi_flash : nor :=
  mkNor (fun x => if (0x10000 <=? x) && (x <? 0x10000 + 112) then nth (Z.to_nat (x - 0x10000)) xi_bytes 0
                  else if (0x11000 <=? x) && (x <? 0x12000) then 0x5A else 0xFF) 0x400000.

Definition xi_start : img := mkImg zero_metadata None 0 (fun _ => 0) (0, 0).

Lemma xi_pages bl sg : 2 <= bootloader_mmap_get_free_pages (xi_cfg bl sg) < 2 ^ 16.
Proof. destruct bl; vm_compute; split; congruence. Qed.

Lemma xi_random_nonzero : fst xi_random <> 0 /\ snd xi_random <> 0.
Proof. by split. Qed.

Lemma xi_sha256_length l : length (xi_sha256 l) = 32%nat.
Proof. apply repeat_length. Qed.

(** Flash of a chip with 4 MB can be read and mapped. *)
Lemma xi_readable bl sg (f : nor) lo hi : nor_size f = 0x400000 -> 0 <= lo -> hi <= 0x400000 -> readable (xi_cfg bl sg) f lo hi.
Proof.
  intros Hf Hlo Hhi a n H1 H2 H3 H4 H5. unfold bootloader_flash_read. destruct bl; cbn [BOOTLOADER_BUILD ic_encrypted xi_cfg].
  - by rewrite !land_3, H4, H5.
  - cbn [fl_read nor_dev]. unfold in_range. by rewrite Hf, !(proj2 (Z.leb_le _ _)) by lia.
Qed.

Lemma xi_mappable bl sg (f : nor) lo hi : nor_size f = 0x400000 -> 0 <= lo -> hi <= 0x400000 -> mappable (xi_cfg bl sg) f lo hi.
Proof.
  intros Hf Hlo Hhi a n H1 H2 H3 H4. unfold bootloader_mmap. destruct bl; cbn [BOOTLOADER_BUILD MMU_SIZE ic_vaddr_valid xi_cfg].
  - rewrite (proj2 (Z.ltb_ge _ _)); [done|]. lia.
  - cbn [fl_mmap nor_dev]. unfold in_range. rewrite Hf. pose proof (Z.mod_pos_bound a SPI_FLASH_MMU_PAGE_SIZE ltac:(done)) as B.
    pose proof (Z.mod_le a SPI_FLASH_MMU_PAGE_SIZE ltac:(lia) ltac:(done)). rewrite u32_small by lia. by rewrite !(proj2 (Z.leb_le _ _)) by lia.
Qed.
Lemma xi_image_ok bl sg part : pos_offset part = 0x10000 -> 0x10000 <= pos_size part -> image_ok (xi_cfg bl sg) xi_sha256 part xi_image.
Proof.
  intros Ho Hs. split; [done|..].
  - split; try done. by left.
  - done.
  - rewrite Ho. cbn [segments_ok ai_segments xi_image]. split_and!; [..|done]; (split; [by vm_compute|repeat constructor; done|done|done|by vm_compute]).
  - by vm_compute.
  - rewrite Ho. transitivity 0x10000; [|done]. destruct sg; vm_compute; congruence.
Qed.
