(* ===== verification/ImageVerify.v ===== *)
(** * Verifying an image

    The four steps of [image_load] before the hash or the signature is
    checked, on any contents of flash: they succeed exactly if the image at
    the start of the partition is well formed and fits, and then the hash was
    fed with the image and the metadata describe it. *)

From S2P Require Import Prelude CMem Crc Flash OtaData PartitionTable Partitions ImageFormat ImageSegments ImageSpec.

Section Verify.
Context {F : Type} `{FlashLaws F}.
Context (cfg : image_config) (sha256 : list Z -> list Z).
Context (verify_signature_block : list Z -> list Z -> esp_err_t * list Z) (random : Z * Z) (f : F).
Hypothesis free_pages : 2 <= bootloader_mmap_get_free_pages cfg < 2 ^ 16.
Hypothesis random_nonzero : fst random <> 0 /\ snd random <> 0.
Abbreviation view_ := (img_view cfg f).

(** ** The image at an address *)

Definition header_at (off : Z) : esp_image_header_t := decode_header (read_bytes view_ off 24).
Definition segments_at (off : Z) : list segment := segs_at cfg f (Z.to_nat (segment_count (header_at off))) (off + HEADER_SIZE).
(** The length of header and segments. *)
Definition unpadded (im : app_image) : Z := zlen (ai_header im) + zlen (segments_bytes (ai_segments im)).
Definition image_at (off : Z) : app_image :=
  let len := HEADER_SIZE + zlen (segments_bytes (segments_at off)) in
  mkImage (read_bytes view_ off 24) (segments_at off) (read_bytes view_ (off + len) (Z.to_nat (15 - len mod 16))).

Lemma header_at_count off : 0 <= segment_count (header_at off) < 256.
Proof. apply (view_bytes cfg f (off + 1)). Qed.

Lemma segs_at_length n : forall a, length (segs_at cfg f n a) = n.
Proof. induction n as [|n IH]; intros a; cbn; [done|]. by rewrite IH. Qed.

Lemma segs_at_bytes n : forall a, segments_bytes (segs_at cfg f n a) = read_bytes view_ a (Z.to_nat (zlen (segments_bytes (segs_at cfg f n a)))).
Proof.
  induction n as [|n IH]; intros a; [done|]. cbn [segs_at]. rewrite zlen_segments_cons.
  rewrite Z2Nat.inj_add, read_bytes_app, Z2Nat.id by apply zlen_nonneg. rewrite <- IH, <- seg_at_bytes. done.
Qed.

Lemma segments_bytes_bound sgs : forall a, segments_ok cfg a sgs -> zlen (segments_bytes sgs) <= zlen sgs * (SEGMENT_HEADER_SIZE + SIXTEEN_MB).
Proof.
  induction sgs as [|sg sgs IH]; intros a; [done|]. intros [[_ _ _ Hs _] Hr]. rewrite zlen_segments_cons, zlen_segment. specialize (IH _ Hr).
  change (zlen (sg :: sgs)) with (Z.of_nat (S (length sgs))). change (zlen sgs) with (Z.of_nat (length sgs)) in IH. lia.
Qed.

Lemma segments_bytes_words sgs : forall a, segments_ok cfg a sgs -> zlen (segments_bytes sgs) mod 4 = 0.
Proof.
  induction sgs as [|sg sgs IH]; intros a; [done|]. intros [[_ _ Hm _ _] Hr]. rewrite zlen_segments_cons, zlen_segment.
  by rewrite Zplus_mod, (IH _ Hr), (Zplus_mod SEGMENT_HEADER_SIZE), Hm.
Qed.

(** ** Header *)

Definition image_at_metadata (off len : Z) (digest : list Z) : esp_image_metadata_t :=
  with_segments 0 (off + HEADER_SIZE) (segments_at off) (mkMeta off (header_at off) (repeat (mkSegHdr 0 0) 16) (repeat 0 16) len digest).

(** The hash is computed. *)
Definition hashing (off : Z) (want_sha : bool) : bool := (SECURE_BOOT_CHECK_SIGNATURE cfg || negb (hash_appended (header_at off) =? 0)) && want_sha.

Lemma process_image_header_spec off want s : off mod 4 = 0 -> exists err s',
  process_image_header cfg f off want true s = RET err s' /\ ld_ram s' = ld_ram s /\
  (err = ESP_OK -> header_ok cfg (header_at off) /\
     s' = mkImg (mkMeta off (header_at off) (repeat (mkSegHdr 0 0) 16) (repeat 0 16) HEADER_SIZE (repeat 0 32))
            (if hashing off want then Some (read_bytes view_ off 24) else ld_sha s) (ld_checksum s) (ld_ram s) (ram_obfs_value s)) /\
  (header_ok cfg (header_at off) -> ic_sha_ok cfg = true -> readable cfg f off (off + HEADER_SIZE) -> err = ESP_OK).
Proof.
  intros H4. unfold process_image_header, mbind at 1, M_bind at 1, modify at 1.
  destruct (bootloader_flash_read cfg f off HEADER_SIZE) as [e bs] eqn:Er. destruct (is_ok_spec e) as [->|Ee]; cbn [negb]; cycle 1.
  { eexists _, _. split_and!; [done|done|done|]. intros _ _ Hr. destruct Ee. rewrite (flash_read_ok cfg f _ _ _ _ Hr) in Er; by inversion Er. }
  apply flash_read_sound in Er as ->. change (Z.to_nat HEADER_SIZE) with 24%nat. fold (header_at off). fold (hashing off want).
  unfold mbind at 1, M_bind at 1, modify at 1. pose proof (header_ok_spec cfg (header_at off)) as Hh.
  assert (Hchk : forall v g (s1 : img), (CHECK_ERR mret v; _ ← modify g; mret ESP_OK) s1 = if is_ok v then RET ESP_OK (g s1) else RET v s1).
  { intros v g s1. unfold mbind, M_bind, mret, M_ret, modify. by destruct (is_ok v). }
  set (d0 := mkMeta off (header_at off) _ _ _ _). set (s1 := set_data d0 _).
  assert (Hend : forall s2, ld_data s2 = ld_data s1 -> ld_checksum s2 = ld_checksum s -> ld_ram s2 = ld_ram s -> ram_obfs_value s2 = ram_obfs_value s ->
    exists err s', (if is_ok (verify_image_header cfg (header_at off)) then RET ESP_OK (set_data (set_image_len HEADER_SIZE (ld_data s2)) s2)
      else RET (verify_image_header cfg (header_at off)) s2) = RET err s' /\ ld_ram s' = ld_ram s /\
    (err = ESP_OK -> header_ok cfg (header_at off) /\
       s' = mkImg (mkMeta off (header_at off) (repeat (mkSegHdr 0 0) 16) (repeat 0 16) HEADER_SIZE (repeat 0 32)) (ld_sha s2) (ld_checksum s) (ld_ram s) (ram_obfs_value s)) /\
    (header_ok cfg (header_at off) -> err = ESP_OK)).
  { intros [d2 h2 c2 m2 v2] E1 E2 E3 E4. cbn [ld_data ld_checksum ld_ram ram_obfs_value] in E1, E2, E3, E4. subst d2 c2 m2 v2.
    destruct (is_ok_spec (verify_image_header cfg (header_at off))) as [E|E]; eexists _, _; split_and!; try done.
    - intros _. split; [by apply Hh|done].
    - intros Ho%Hh. done. }
  destruct (hashing off want).
  - destruct (ic_sha_ok cfg); cbn [negb]; [|by eexists _, _].
    unfold mbind at 1, M_bind at 1, modify at 1. set (s2 := set_sha (Some (read_bytes view_ off 24)) s1).
    rewrite (bind_RET _ _ _ tt s2); cycle 1.
    { unfold bootloader_sha256_data, mbind, M_bind, gets, assert_, modify. cbn [ld_sha set_sha]. by rewrite length_read_bytes, orb_true_r. }
    rewrite Hchk. destruct (Hend s2) as (err & s' & E1 & E2 & E3 & E4); [done..|]. exists err, s'. split_and!; [done|done|done|]. intros Ho _ _. by apply E4.
  - rewrite Hchk. destruct (Hend s1) as (err & s' & E1 & E2 & E3 & E4); [done..|]. exists err, s'. split_and!; [done|done|done|]. intros Ho _ _. by apply E4.
Qed.

(** ** Segments *)

(** The part of flash where a partition may begin. *)
Definition offset_ok (off : Z) : Prop := 0 <= off /\ off mod 4 = 0 /\ off + 17 * SIXTEEN_MB < 2 ^ 32.

Definition unpadded_at (off : Z) : Z := HEADER_SIZE + zlen (segments_bytes (segments_at off)).

Lemma header_count off : header_ok cfg (header_at off) -> 0 <= segment_count (header_at off) <= 16.
Proof. intros [_ _ _ _ Hs]. pose proof (header_at_count off). unfold ESP_IMAGE_MAX_SEGMENTS in Hs. lia. Qed.

Lemma segments_at_zlen off : zlen (segments_at off) = segment_count (header_at off).
Proof. unfold zlen, segments_at. rewrite segs_at_length, Z2Nat.id; [done|]. apply header_at_count. Qed.

Lemma unpadded_range off : header_ok cfg (header_at off) -> segments_ok cfg (off + HEADER_SIZE) (segments_at off) ->
  HEADER_SIZE <= unpadded_at off < 17 * SIXTEEN_MB - 0x100000 /\ unpadded_at off mod 4 = 0.
Proof.
  intros Hh Hs. apply header_count in Hh. pose proof (segments_bytes_bound _ _ Hs) as B. pose proof (segments_bytes_words _ _ Hs) as W.
  pose proof (zlen_nonneg (segments_bytes (segments_at off))). rewrite segments_at_zlen in B. unfold unpadded_at, HEADER_SIZE, SIXTEEN_MB, SEGMENT_HEADER_SIZE in *.
  split; [lia|]. by rewrite Zplus_mod, W.
Qed.

Lemma process_segments_spec do_load off s : (do_load = true -> BOOTLOADER_BUILD cfg = true /\ ram_fits cfg) -> offset_ok off ->
  header_ok cfg (header_at off) ->
  ld_data s = mkMeta off (header_at off) (repeat (mkSegHdr 0 0) 16) (repeat 0 16) HEADER_SIZE (repeat 0 32) ->
  match process_segments cfg random f do_load true s with
  | RET err s' =>
      safe_frame cfg do_load (ld_ram s) (ld_ram s') /\
      (err = ESP_OK -> segments_ok cfg (off + HEADER_SIZE) (segments_at off) /\ load_ok cfg do_load (segments_at off) /\
         exists s1, segs_done cfg random f do_load 0 (off + HEADER_SIZE) (segments_at off) s s1 /\
           s' = set_data (image_at_metadata off (unpadded_at off) (repeat 0 32)) s1) /\
      (segments_ok cfg (off + HEADER_SIZE) (segments_at off) -> load_ok cfg do_load (segments_at off) -> readable cfg f off (off + unpadded_at off) ->
         mappable cfg f off (off + unpadded_at off) -> err = ESP_OK)
  | ABORT => load_aborts cfg do_load (segments_at off)
  | RESTART _ => False
  end.
Proof.
  intros Hbl (O1 & O2 & O3) Hh Hd. pose proof (header_count off Hh) as Hc. unfold process_segments, mbind at 1, M_bind at 1, gets. rewrite Hd.
  cbn [start_addr image_len image]. rewrite u32_small by (unfold HEADER_SIZE, SIXTEEN_MB in *; lia). change (off + HEADER_SIZE) with (off + HEADER_SIZE).
  assert (Hb : off + HEADER_SIZE + Z.of_nat (Z.to_nat (segment_count (header_at off))) * (SEGMENT_HEADER_SIZE + SIXTEEN_MB) < 2 ^ 32).
  { unfold HEADER_SIZE, SIXTEEN_MB, SEGMENT_HEADER_SIZE in *. lia. }
  pose proof (segments_loop_spec cfg random f free_pages random_nonzero do_load _ Hbl 0 (off + HEADER_SIZE) s ltac:(unfold HEADER_SIZE; lia) Hb ltac:(lia)) as P.
  unfold mbind at 1, M_bind at 1. fold (segments_at off) in P.
  destruct (segments_loop cfg random f _ 0 (off + HEADER_SIZE) do_load true s) as [[err e] s1| |]; [|done|done]. destruct P as (Hf & Hok & Hcm).
  destruct (is_ok_spec err) as [->|Herr]; cbn [negb]; cycle 1.
  { split_and!; [done|done|]. intros Hs Hl Hr Hm. apply Hcm; [done|done|by rewrite Zplus_mod, O2|..].
    - intros a n A1 A2 A3. apply Hr; [unfold HEADER_SIZE in *; lia|done|unfold unpadded_at; lia].
    - intros a n A1 A2 A3. apply Hm; [unfold HEADER_SIZE in *; lia|done|unfold unpadded_at; lia]. }
  destruct (Hok eq_refl) as (-> & Hs & Hl & Hdone). destruct (unpadded_range off Hh Hs) as [U1 U2].
  pose proof (zlen_nonneg (segments_bytes (segments_at off))) as Hz. unfold unpadded_at in U1.
  rewrite (proj2 (Z.ltb_ge _ _)) by (unfold HEADER_SIZE in *; lia). split_and!; [done| |done]. intros _. split_and!; [done|done|].
  exists s1. split; [done|]. destruct Hdone as [D _ _ _ _]. unfold modify. f_equal. rewrite D, Hd. unfold image_at_metadata, with_segments, set_image_len.
  cbn [start_addr image segments segment_data image_len image_digest]. f_equal. rewrite u32_small; unfold unpadded_at, HEADER_SIZE, SIXTEEN_MB in *; lia.
Qed.

(** ** Checksum *)

Lemma checksum_length_spec len : 0 <= len -> len + 16 < 2 ^ 32 -> checksum_length len = 16 - len mod 16.
Proof.
  intros H1 H2. unfold checksum_length. pose proof (Z.mod_pos_bound len 16 ltac:(lia)).
  rewrite (u32_small (len + 1)), (u32_small (len + 1 + 15)) by lia. replace ((len + 1 + 15) mod 16) with (len mod 16); [rewrite u32_small; lia|].
  replace (len + 1 + 15) with (len + 1 * 16) by lia. by rewrite Z.mod_add by lia.
Qed.

Definition padded_at (off : Z) : Z := unpadded_at off + (16 - unpadded_at off mod 16).

Lemma process_checksum_spec off s : offset_ok off -> 0 <= unpadded_at off < 17 * SIXTEEN_MB - 0x100000 -> unpadded_at off mod 4 = 0 ->
  ld_data s = image_at_metadata off (unpadded_at off) (repeat 0 32) ->
  exists err s', process_checksum cfg f (ld_checksum s) false s = RET err s' /\ ld_ram s' = ld_ram s /\
    (err = ESP_OK -> fold_checksum (ld_checksum s) = view_ (off + padded_at off - 1) /\
       s' = set_data (image_at_metadata off (padded_at off) (repeat 0 32))
              (set_sha (feed (read_bytes view_ (off + unpadded_at off) (Z.to_nat (16 - unpadded_at off mod 16))) (ld_sha s)) s)) /\
    (fold_checksum (ld_checksum s) = view_ (off + padded_at off - 1) -> readable cfg f off (off + padded_at off) -> err = ESP_OK).
Proof.
  intros (O1 & O2 & O3) U1 U2 Hd. set (L := unpadded_at off) in *. unfold process_checksum, mbind at 1, M_bind at 1, gets. rewrite Hd.
  unfold mbind at 1, M_bind at 1, gets. change (image_len (image_at_metadata off L (repeat 0 32))) with L. change (start_addr (image_at_metadata off L (repeat 0 32))) with off.
  cbn [negb orb andb]. pose proof (Z.mod_pos_bound L 16 ltac:(lia)) as B. unfold SIXTEEN_MB in *.
  rewrite checksum_length_spec, (u32_small (off + L)) by lia. assert (Hn4 : (16 - L mod 16) mod 4 = 0).
  { assert (Hm : (L mod 16) mod 4 = 0) by (rewrite Z.mod_mod_divide; [done|by exists 4]). by rewrite Zminus_mod, Hm. }
  destruct (bootloader_flash_read cfg f (off + L) (16 - L mod 16)) as [e buf] eqn:Er. destruct (is_ok_spec e) as [->|Ee]; cbn [negb]; cycle 1.
  { eexists _, _. split_and!; [done|done|done|]. intros _ Hr. destruct Ee.
    rewrite (flash_read_ok cfg f _ _ _ _ Hr) in Er; [by injection Er|lia|lia|unfold padded_at; fold L; lia|by rewrite Zplus_mod, O2, U2|done]. }
  apply flash_read_sound in Er as ->.
  assert (Eb : byte_at (read_bytes view_ (off + L) (Z.to_nat (16 - L mod 16))) (Z.to_nat (16 - L mod 16 - 1)) = view_ (off + padded_at off - 1)).
  { unfold byte_at, padded_at. fold L. rewrite nth_lookup, lookup_read_bytes by lia. cbn. f_equal. lia. }
  rewrite Eb. destruct (Z.eqb_spec (fold_checksum (ld_checksum s)) (view_ (off + padded_at off - 1))) as [Ec|Ec]; cbn [negb]; [|by eexists _, _].
  rewrite take_ge by (rewrite length_read_bytes; lia).
  rewrite (bind_RET _ _ _ _ _ (sha_data_if_spec cfg (read_bytes view_ (off + L) (Z.to_nat (16 - L mod 16))) s ltac:(rewrite length_read_bytes, Z2Nat.id by lia; done))).
  unfold mbind at 1, M_bind at 1, modify. eexists _, _. split_and!; [done|done| |done]. intros _. split; [done|]. f_equal.
  cbn [ld_data set_sha]. rewrite Hd. unfold image_at_metadata, with_segments, set_image_len. cbn. f_equal. rewrite u32_small by lia. done.
Qed.

(** ** Appended hash *)

Lemma sector_up_spec e : 0 <= e -> e + 4096 < 2 ^ 32 -> e <= sector_up e < e + 4096 /\ sector_up e mod 4096 = 0.
Proof.
  intros H1 H2. unfold sector_up, SIGNATURE_SECTOR. change (0x1000 - 1) with 4095. rewrite (u32_small (e + 4095)) by lia. change 0x1000 with 4096.
  pose proof (Z.mod_pos_bound (e + 4095) 4096 ltac:(lia)). pose proof (Z.div_mod (e + 4095) 4096 ltac:(lia)) as D. rewrite u32_small by lia.
  split; [lia|]. apply Z.mod_divide; [lia|]. exists ((e + 4095) / 4096). lia.
Qed.

Lemma sig_block_len_range off e : 0 <= e -> e + 0x4000 < 2 ^ 32 -> 0 <= sig_block_len cfg off e < 0x2000.
Proof.
  intros H1 H2. destruct (sector_up_spec e) as [S _]; [lia|lia|]. unfold sig_block_len, SIGNATURE_SIZE, SIG_BLOCK_SIZE. rewrite u32_small by lia.
  repeat case_match; lia.
Qed.

Definition appended_at (off : Z) : bool := negb (hash_appended (header_at off) =? 0).
Definition length_at (off : Z) : Z := padded_at off + (if appended_at off then HASH_LEN else 0).
Definition digest_at (off : Z) : list Z := if appended_at off then read_bytes view_ (off + padded_at off) 32 else repeat 0 32.

Lemma process_appended_hash_and_sig_spec off size s : offset_ok off -> 0 <= padded_at off < 17 * SIXTEEN_MB - 0x80000 -> padded_at off mod 4 = 0 ->
  ld_data s = image_at_metadata off (padded_at off) (repeat 0 32) ->
  exists err s', process_appended_hash_and_sig cfg f off size true s = RET err s' /\ ld_ram s' = ld_ram s /\
    (err = ESP_OK -> length_at off + sig_block_len cfg off (length_at off) <= size /\ s' = set_data (image_at_metadata off (length_at off) (digest_at off)) s) /\
    (length_at off + sig_block_len cfg off (length_at off) <= size -> readable cfg f off (off + length_at off) -> err = ESP_OK).
Proof.
  intros (O1 & O2 & O3) U1 U2 Hd. unfold process_appended_hash_and_sig, mbind at 1, M_bind at 1, gets. rewrite Hd.
  change (image (image_at_metadata off (padded_at off) (repeat 0 32))) with (header_at off). fold (appended_at off). rewrite andb_true_r.
  change (image_len (image_at_metadata off (padded_at off) (repeat 0 32))) with (padded_at off). change (start_addr (image_at_metadata off _ _)) with off.
  change (image_digest (image_at_metadata off _ _)) with (repeat 0 32). unfold SIXTEEN_MB in *.
  rewrite (u32_small (off + padded_at off)), (u32_small (padded_at off + HASH_LEN)) by (unfold HASH_LEN; lia).
  assert (Hlen : (if appended_at off then padded_at off + HASH_LEN else padded_at off) = length_at off) by (unfold length_at; destruct (appended_at off); lia).
  assert (Hr : exists e, (if appended_at off then bootloader_flash_read cfg f (off + padded_at off) HASH_LEN else (ESP_OK, repeat 0 32)) = (e, if is_ok e then digest_at off else snd
    (bootloader_flash_read cfg f (off + padded_at off) HASH_LEN)) /\ (readable cfg f off (off + length_at off) -> e = ESP_OK)).
  { unfold digest_at, length_at. destruct (appended_at off); [|by exists ESP_OK].
    destruct (bootloader_flash_read cfg f (off + padded_at off) HASH_LEN) as [e bs] eqn:Er. exists e. split.
    - f_equal. destruct (is_ok_spec e) as [->|_]; [|done]. by apply flash_read_sound in Er.
    - intros Hr. rewrite (flash_read_ok cfg f _ _ _ _ Hr) in Er; [by injection Er|lia|done|lia|by rewrite Zplus_mod, O2, U2|done]. }
  destruct Hr as (e & -> & Hr). destruct (is_ok_spec e) as [->|Ee]; cbn [negb is_ok]; cycle 1.
  { eexists _, _. split_and!; [done|done|done|]. intros _ Hr'. by destruct Ee; apply Hr. }
  rewrite Hlen. assert (Hl : 0 <= length_at off < 17 * 0x1000000 - 0x70000) by (unfold length_at, HASH_LEN; destruct (appended_at off); lia).
  pose proof (sig_block_len_range off (length_at off) ltac:(lia) ltac:(lia)). rewrite u32_small by lia.
  unfold mbind at 1, M_bind at 1, modify. eexists _, _. split_and!; [done|done|..].
  - destruct (Z.ltb_spec size (length_at off + sig_block_len cfg off (length_at off))); [done|]. intros _. split; [lia|done].
  - intros Hsz _. by rewrite (proj2 (Z.ltb_ge _ _) Hsz).
Qed.

(** ** The steps before the hash *)

Lemma image_body_at off : image_checksum (image_at off) = view_ (off + padded_at off - 1) ->
  image_body (image_at off) = read_bytes view_ off (Z.to_nat (padded_at off)).
Proof.
  intros Hc. unfold image_body. rewrite Hc. unfold image_at. cbn [ai_header ai_segments ai_padding]. fold (unpadded_at off).
  pose proof (zlen_nonneg (segments_bytes (segments_at off))) as Hz. pose proof (Z.mod_pos_bound (unpadded_at off) 16 ltac:(lia)) as B.
  assert (E : Z.to_nat (padded_at off) = (24 + (Z.to_nat (zlen (segments_bytes (segments_at off))) + (Z.to_nat (15 - unpadded_at off mod 16) + 1)))%nat).
  { unfold padded_at. assert (Hu : unpadded_at off = 24 + zlen (segments_bytes (segments_at off))) by done. lia. }
  rewrite E, read_bytes_app, read_bytes_app, read_bytes_app. unfold segments_at at 1. rewrite segs_at_bytes at 1. fold (segments_at off).
  assert (Hu : unpadded_at off = 24 + zlen (segments_bytes (segments_at off))) by done. clear E Hc.
  replace (off + Z.of_nat 24 + Z.of_nat (Z.to_nat (zlen (segments_bytes (segments_at off))))) with (off + unpadded_at off) by lia.
  do 3 f_equal. cbn [read_bytes]. do 2 f_equal. unfold padded_at. lia.
Qed.

Lemma image_body_split off : HEADER_SIZE <= unpadded_at off -> unpadded_at off < padded_at off ->
  read_bytes view_ off 24 ++ segments_bytes (segments_at off) ++ read_bytes view_ (off + unpadded_at off) (Z.to_nat (16 - unpadded_at off mod 16)) =
  read_bytes view_ off (Z.to_nat (padded_at off)).
Proof.
  intros Hu Hp. unfold segments_at. rewrite segs_at_bytes. fold (segments_at off). pose proof (zlen_nonneg (segments_bytes (segments_at off))) as Hz.
  assert (E : unpadded_at off = 24 + zlen (segments_bytes (segments_at off))) by done.
  replace (Z.to_nat (padded_at off)) with (24 + (Z.to_nat (zlen (segments_bytes (segments_at off))) + Z.to_nat (16 - unpadded_at off mod 16)))%nat.
  - rewrite read_bytes_app, read_bytes_app. do 3 f_equal. lia.
  - unfold padded_at in *. lia.
Qed.

(** The image at the start of the partition is well formed, up to its hash. *)
Record at_ok (do_load : bool) (part : esp_partition_pos_t) : Prop := {
  ao_header : header_ok cfg (header_at (pos_offset part));
  ao_segments : segments_ok cfg (pos_offset part + HEADER_SIZE) (segments_at (pos_offset part));
  ao_load : load_ok cfg do_load (segments_at (pos_offset part));
  ao_checksum : image_checksum (image_at (pos_offset part)) = view_ (pos_offset part + padded_at (pos_offset part) - 1);
  ao_fits : length_at (pos_offset part) + sig_block_len cfg (pos_offset part) (length_at (pos_offset part)) <= pos_size part
}.

Record steps_done (do_load want : bool) (off : Z) (s s' : img) : Prop := {
  st_data : ld_data s' = image_at_metadata off (length_at off) (digest_at off);
  st_sha : ld_sha s' = if hashing off want then Some (image_body (image_at off)) else None;
  st_obfs : ram_obfs_value s' = filled cfg random (ram_obfs_value s) \/
    (concat (sg_data <$> segments_at off) = [] /\ ram_obfs_value s' = ram_obfs_value s);
  st_ram : ld_ram s' = load_segments cfg f do_load (off + HEADER_SIZE) (segments_at off) (filled cfg random (ram_obfs_value s)) (ld_ram s)
}.

Definition load_steps (part : esp_partition_pos_t) (do_load want : bool) : M img esp_err_t :=
  CHECK_ERR process_image_header cfg f (pos_offset part) want true;
  CHECK_ERR process_segments cfg random f do_load true;
  checksum_word ← gets ld_checksum;
  CHECK_ERR process_checksum cfg f checksum_word false;
  process_appended_hash_and_sig cfg f (pos_offset part) (pos_size part) true.

Lemma padded_range off : header_ok cfg (header_at off) -> segments_ok cfg (off + HEADER_SIZE) (segments_at off) ->
  unpadded_at off < padded_at off < 17 * SIXTEEN_MB - 0x80000 /\ padded_at off mod 16 = 0 /\ padded_at off mod 4 = 0.
Proof.
  intros Hh Hs. destruct (unpadded_range off Hh Hs) as [U1 _]. unfold padded_at. pose proof (Z.mod_pos_bound (unpadded_at off) 16 ltac:(lia)).
  pose proof (Z.div_mod (unpadded_at off) 16 ltac:(lia)) as D. unfold SIXTEEN_MB in *. split_and!; [lia|lia| |].
  - apply Z.mod_divide; [lia|]. exists (unpadded_at off / 16 + 1). lia.
  - apply Z.mod_divide; [lia|]. exists (4 * (unpadded_at off / 16) + 4). lia.
Qed.

Lemma load_steps_spec do_load want part s : (do_load = true -> BOOTLOADER_BUILD cfg = true /\ ram_fits cfg) -> offset_ok (pos_offset part) ->
  ld_sha s = None -> ld_checksum s = ESP_ROM_CHECKSUM_INITIAL ->
  match load_steps part do_load want s with
  | RET err s' =>
      safe_frame cfg do_load (ld_ram s) (ld_ram s') /\
      (err = ESP_OK -> at_ok do_load part /\ steps_done do_load want (pos_offset part) s s') /\
      (at_ok do_load part -> ic_sha_ok cfg = true -> readable cfg f (pos_offset part) (pos_offset part + length_at (pos_offset part)) ->
         mappable cfg f (pos_offset part) (pos_offset part + length_at (pos_offset part)) -> err = ESP_OK)
  | ABORT => load_aborts cfg do_load (segments_at (pos_offset part))
  | RESTART _ => False
  end.
Proof.
  intros Hbl Ho Hsha Hck. set (off := pos_offset part) in *. unfold load_steps. fold off. pose proof Ho as (O1 & O2 & O3).
  destruct (process_image_header_spec off want s O2) as (e1 & s1 & E1 & R1 & Ok1 & C1). unfold mbind at 1, M_bind at 1. rewrite E1.
  assert (Hl1 : padded_at off <= length_at off) by (unfold length_at, HASH_LEN; destruct (appended_at off); lia).
  destruct (is_ok_spec e1) as [->|N1]; cycle 1.
  { split_and!; [rewrite R1; apply safe_frame_refl|done|]. intros [A1 A2 _ _ _] Hm Hr _. destruct (unpadded_range off A1 A2). destruct (padded_range off A1 A2).
    destruct N1. apply C1; [done|done|]. intros a n L1 L2 L3. apply Hr; [done|done|lia]. }
  destruct (Ok1 eq_refl) as [Hh ->]. clear Ok1 C1 E1 R1. cbn [ld_ram]. rewrite Hsha.
  set (s1 := mkImg _ _ _ _ _). pose proof (process_segments_spec do_load off s1 Hbl Ho Hh eq_refl) as P. unfold mbind at 1, M_bind at 1.
  destruct (process_segments cfg random f do_load true s1) as [e2 s2'| |]; [|done|done]. destruct P as (F2 & Ok2 & C2). cbn [ld_ram s1] in F2.
  destruct (is_ok_spec e2) as [->|N2]; cycle 1.
  { split_and!; [done|done|]. intros [A1 A2 A3 _ _] _ Hr Hm. destruct (padded_range off A1 A2) as [P1 _]. destruct N2. apply C2; [done|done|..].
    - intros a n L1 L2 L3. apply Hr; [done|done|lia].
    - intros a n L1 L2 L3. apply Hm; [done|done|lia]. }
  destruct (Ok2 eq_refl) as (Hs & Hl & s2 & Hd & ->). clear Ok2 C2. destruct Hd as [D2 H2 K2 [_ V2] M2]. cbn [ld_sha ld_checksum ld_ram ram_obfs_value s1] in *.
  destruct (unpadded_range off Hh Hs) as [U1 U2]. destruct (padded_range off Hh Hs) as (P1 & P2 & P3). unfold mbind at 1, M_bind at 1, gets.
  destruct (process_checksum_spec off (set_data (image_at_metadata off (unpadded_at off) (repeat 0 32)) s2) Ho) as (e3 & s3 & E3 & R3 & Ok3 & C3);
    [unfold HEADER_SIZE in *; lia|done|done|]. cbn [ld_checksum ld_sha ld_ram set_data] in *.
  assert (Hc : fold_checksum (ld_checksum s2) = image_checksum (image_at off)) by (by rewrite K2, Hck).
  unfold mbind at 1, M_bind at 1. rewrite E3. destruct (is_ok_spec e3) as [->|N3]; cycle 1.
  { split_and!; [by rewrite R3|done|]. intros [_ _ _ A4 _] _ Hr _. destruct N3. apply C3; [by rewrite Hc|]. intros a n L1 L2 L3. apply Hr; [done|done|lia]. }
  destruct (Ok3 eq_refl) as [Hcs ->]. clear Ok3 C3 E3 R3. rewrite Hc in Hcs.
  destruct (process_appended_hash_and_sig_spec off (pos_size part) (set_data (image_at_metadata off (padded_at off) (repeat 0 32))
    (set_sha (feed (read_bytes view_ (off + unpadded_at off) (Z.to_nat (16 - unpadded_at off mod 16))) (ld_sha s2))
       (set_data (image_at_metadata off (unpadded_at off) (repeat 0 32)) s2))) Ho) as (e4 & s4 & E4 & R4 & Ok4 & C4);
    [unfold HEADER_SIZE in *; lia|done|done|]. rewrite E4. split_and!; [by rewrite R4| |].
  - intros ->. destruct (Ok4 eq_refl) as [Hfit ->]. split; [by split|]. split; cbn [ld_data ld_sha ld_ram ram_obfs_value set_data set_sha]; [done| |done|done].
    rewrite H2, feed_app. destruct (hashing off want); [|done]. rewrite image_body_at, <- image_body_split by (done || lia). done.
  - intros [_ _ _ _ A5] _ Hr _. apply C4; [done|]. done.
Qed.
End Verify.
