(* ===== verification/ImageTheorems.v ===== *)
(** * What [esp_image_verify] accepts

    [esp_image_verify] decides whether a partition begins with a well-formed
    image that fits, and fills in what it found; with signature checks it
    accepts only what the signature check accepted. *)

From S2P Require Import Prelude CMem Crc Flash OtaData PartitionTable Partitions ImageFormat ImageSegments ImageSpec ImageExample ImageVerify.

Section Theorems.
Context {F : Type} `{FlashLaws F}.
Context (cfg : image_config) (sha256 : list Z -> list Z).
Context (verify_signature_block : list Z -> list Z -> esp_err_t * list Z) (random : Z * Z) (f : F).
Hypothesis free_pages : 2 <= bootloader_mmap_get_free_pages cfg < 2 ^ 16.
Hypothesis random_nonzero : fst random <> 0 /\ snd random <> 0.
Hypothesis sha256_length : forall l, length (sha256 l) = 32%nat.
Abbreviation view_ := (img_view cfg f).
Abbreviation image_at_ := (image_at cfg f).

(** ** The image is determined by the flash contents *)

(** The bytes of [im] are at [a]. *)
Definition flash_holds (a : Z) (bs : list Z) : Prop := read_bytes view_ a (length bs) = bs.

Lemma flash_holds_app a l1 l2 : flash_holds a (l1 ++ l2) <-> flash_holds a l1 /\ flash_holds (a + zlen l1) l2.
Proof.
  unfold flash_holds, zlen. rewrite length_app, read_bytes_app. split; [|by intros [-> ->]].
  intros E. apply app_inj_1 in E; [done|]. apply length_read_bytes.
Qed.

Lemma segments_unique sgs : forall a, 0 <= a -> segments_ok cfg a sgs -> flash_holds a (segments_bytes sgs) -> segs_at cfg f (length sgs) a = sgs.
Proof.
  induction sgs as [|sg sgs IH]; intros a Ha; [done|]. intros [Hs Hr] Hf. apply flash_holds_app in Hf as [Hf1 Hf2]. destruct Hs as [S1 S2 S3 S4 S5].
  cbn [length segs_at]. assert (Es : sg = seg_at cfg f a) by (apply seg_at_unique; [done|unfold SIXTEEN_MB in S4; lia|done]).
  rewrite <- Es. f_equal. apply IH; [pose proof (zlen_nonneg (segment_bytes sg)); lia|done|done].
Qed.

(** The image at the start of the partition, and its hash, are right. *)
Definition hash_ok (off : Z) : Prop := appended_at cfg f off = true -> digest_at cfg f off = sha256 (image_body (image_at_ off)).

Lemma image_at_lengths off : header_ok cfg (header_at cfg f off) -> segments_ok cfg (off + HEADER_SIZE) (segments_at cfg f off) ->
  zlen (image_body (image_at_ off)) = padded_at cfg f off /\ zlen (image_bytes sha256 (image_at_ off)) = length_at cfg f off.
Proof.
  intros Hh Hs. destruct (unpadded_range cfg f off Hh Hs) as [U _]. pose proof (Z.mod_pos_bound (unpadded_at cfg f off) 16 ltac:(lia)) as B.
  assert (E : zlen (image_body (image_at_ off)) = padded_at cfg f off).
  { unfold image_body, image_at. rewrite !zlen_app. cbn [ai_header ai_segments ai_padding]. rewrite !zlen_read_bytes. change (zlen [_]) with 1.
    fold (unpadded_at cfg f off). unfold padded_at. assert (Hu : unpadded_at cfg f off = 24 + zlen (segments_bytes (segments_at cfg f off))) by done. lia. }
  split; [done|]. unfold image_bytes, length_at. rewrite zlen_app, E. f_equal. unfold has_hash, appended_at, header_at, image_at. cbn [ai_header].
  destruct (negb _); [|done]. unfold zlen. by rewrite sha256_length.
Qed.

Lemma at_ok_image part : at_ok cfg f false part -> hash_ok (pos_offset part) ->
  image_ok cfg sha256 part (image_at_ (pos_offset part)) /\ flash_holds (pos_offset part) (image_bytes sha256 (image_at_ (pos_offset part))).
Proof.
  intros [A1 A2 A3 A4 A5] Hh. set (off := pos_offset part) in *. destruct (image_at_lengths off A1 A2) as [E1 E2]. destruct (padded_range cfg f off A1 A2) as (P1 & P2 & _).
  split.
  - split; [done|done|..].
    + symmetry. apply segments_at_zlen.
    + done.
    + rewrite E1. split; [|done]. unfold image_at, zlen. cbn [ai_padding]. rewrite length_read_bytes. pose proof (Z.mod_pos_bound (HEADER_SIZE + Z.of_nat (length (segments_bytes (segments_at cfg f off)))) 16). lia.
    + rewrite E2. done.
  - unfold image_bytes. apply flash_holds_app. split.
    + unfold flash_holds. rewrite image_body_at by done. by rewrite length_read_bytes.
    + unfold has_hash. change (decode_header (ai_header (image_at_ off))) with (header_at cfg f off). unfold hash_ok, digest_at, appended_at in Hh. destruct (negb _); [|done].
      specialize (Hh eq_refl). unfold flash_holds. rewrite <- Hh, E1. by rewrite length_read_bytes.
Qed.

Lemma image_unique part im : 0 <= pos_offset part -> image_ok cfg sha256 part im -> flash_holds (pos_offset part) (image_bytes sha256 im) ->
  im = image_at_ (pos_offset part).
Proof.
  intros Ho [I1 I2 I3 I4 [I5 I6] _] Hf. set (off := pos_offset part) in *. unfold image_bytes in Hf. apply flash_holds_app in Hf as [Hf _].
  unfold image_body in Hf, I6. apply flash_holds_app in Hf as [F1 Hf]. rewrite I1 in Hf. apply flash_holds_app in Hf as [F2 Hf]. apply flash_holds_app in Hf as [F3 _].
  destruct im as [hd sgs pad]. cbn [ai_header ai_segments ai_padding] in *. unfold image_at.
  assert (Eh : read_bytes view_ off 24 = hd).
  { unfold flash_holds in F1. replace (length hd) with 24%nat in F1; [done|]. unfold zlen, HEADER_SIZE in I1. lia. }
  assert (Es : segments_at cfg f off = sgs).
  { unfold segments_at, header_at. rewrite Eh, I3. unfold zlen. rewrite Nat2Z.id. apply segments_unique; [unfold HEADER_SIZE; lia|done|done]. }
  rewrite Eh, Es. f_equal. rewrite !zlen_app, I1 in I6. change (zlen [_]) with 1 in I6. unfold flash_holds in F3. rewrite <- F3. rewrite Z.add_assoc. f_equal.
  set (L := HEADER_SIZE + zlen (segments_bytes sgs)) in *. pose proof (zlen_nonneg pad) as Hp.
  assert (zlen pad = 15 - L mod 16) as <-; [|unfold zlen; lia].
  pose proof (Z.div_mod L 16 ltac:(lia)). pose proof (Z.mod_pos_bound L 16 ltac:(lia)).
  apply Z.mod_divide in I6 as [q Hq]; [|lia]. lia.
Qed.

Lemma image_at_ok part im : 0 <= pos_offset part -> image_ok cfg sha256 part im -> flash_holds (pos_offset part) (image_bytes sha256 im) ->
  im = image_at_ (pos_offset part) /\ at_ok cfg f false part /\ hash_ok (pos_offset part).
Proof.
  intros Ho Hok Hf. pose proof (image_unique part im Ho Hok Hf) as E. split; [done|]. rewrite E in Hok, Hf. clear E im. set (off := pos_offset part) in *.
  destruct Hok as [_ I2 _ I4 _ I6]. fold off in I6. destruct (image_at_lengths off I2 I4) as [E1 E2]. rewrite E2 in I6. unfold image_bytes in Hf.
  apply flash_holds_app in Hf as [F1 F2]. split.
  - split; [done|done|..].
    + apply Forall_forall. done.
    + fold off. unfold image_body in F1. apply flash_holds_app in F1 as [_ F1]. apply flash_holds_app in F1 as [_ F1]. apply flash_holds_app in F1 as [_ F1].
      unfold image_body in E1. revert F1 E1. generalize (image_at_ off). intros im F1 E1. apply (f_equal head) in F1. injection F1 as <-. f_equal. rewrite !zlen_app in E1. change (zlen [_]) with 1 in E1. lia.
    + done.
  - intros Ha. unfold hash_ok, digest_at. rewrite Ha. unfold has_hash in F2. change (decode_header (ai_header (image_at_ off))) with (header_at cfg f off) in F2.
    unfold appended_at in Ha. rewrite Ha in F2. unfold flash_holds in F2. by rewrite E1, sha256_length in F2.
Qed.

(** ** [image_load] *)

Abbreviation image_load_ := (image_load cfg sha256 verify_signature_block random f).

(** Of [image_load]: the segments are loaded, and the hash is checked. *)
Definition mode_loads (mode : esp_image_load_mode_t) : bool :=
  BOOTLOADER_BUILD cfg && (bool_decide (mode = ESP_IMAGE_LOAD) || bool_decide (mode = ESP_IMAGE_LOAD_NO_VALIDATE)).
Definition checks_hash (part : esp_partition_pos_t) : bool :=
  if CONFIG_SECURE_BOOT_V2_ENABLED cfg then true else negb (pos_offset part =? ESP_BOOTLOADER_OFFSET cfg) && true.
Definition load_start (s : img) : img := set_checksum ESP_ROM_CHECKSUM_INITIAL (set_sha None s).

Lemma image_load_verify mode part s : mode <> ESP_IMAGE_LOAD_NO_VALIDATE -> ic_debugger cfg = false -> pos_size part <= SIXTEEN_MB ->
  image_load_ mode (Some part) true s =
  (err ← load_steps cfg random f part (mode_loads mode) (checks_hash part);
   if negb (is_ok err) then load_failed err
   else
     r ← verify_hash_or_signature cfg sha256 verify_signature_block f (checks_hash part);
     let '(err, digest, verified) := r in
     _ ← modify (set_sha None);
     if negb (is_ok err) then load_failed err
     else finish_load cfg (mode_loads mode) digest verified) (load_start s).
Proof.
  intros Hm Hd Hs. unfold image_load. rewrite (bool_decide_eq_false_2 (mode = ESP_IMAGE_LOAD_NO_VALIDATE)) by done. rewrite Hd, orb_true_r. cbn [negb orb].
  rewrite (proj2 (Z.ltb_ge _ _) Hs). unfold mode_loads. rewrite (bool_decide_eq_false_2 (mode = ESP_IMAGE_LOAD_NO_VALIDATE)) by done. done.
Qed.

Lemma load_failed_spec err s : err <> ESP_OK -> load_failed err s = RET err (set_data zero_metadata (set_sha None s)).
Proof. intros He. unfold load_failed, mbind, M_bind, modify. destruct (is_ok_spec err); done. Qed.

(** ** Verification without signatures *)

(** The partition begins with a well-formed image. *)
Definition holds_image (part : esp_partition_pos_t) (im : app_image) : Prop :=
  image_ok cfg sha256 part im /\ flash_holds (pos_offset part) (image_bytes sha256 im).

(** What the metadata say of an image at [off]. *)
Definition metadata_of (off : Z) (im : app_image) (d : esp_image_metadata_t) : Prop :=
  start_addr d = off /\ image d = decode_header (ai_header im) /\ image_len d = zlen (image_bytes sha256 im) /\
  take (length (ai_segments im)) (segments d) = seg_header <$> ai_segments im /\
  take (length (ai_segments im)) (segment_data d) = data_addrs (off + HEADER_SIZE) (ai_segments im) /\
  (has_hash im = true -> image_digest d = sha256 (image_body im)).

Lemma take_inserts {A} (k l : list A) : (length k <= length l)%nat -> take (length k) (list_inserts 0 k l) = k.
Proof.
  intros Hl. apply list_eq. intros i. destruct (decide (i < length k)%nat) as [Hi|Hi].
  - rewrite lookup_take_lt, list_lookup_inserts by lia. f_equal. lia.
  - rewrite lookup_take_ge by lia. symmetry. apply lookup_ge_None. lia.
Qed.

Lemma data_addrs_length a sgs : length (data_addrs a sgs) = length sgs.
Proof. revert a. induction sgs as [|sg sgs IH]; intros a; cbn; [done|]. by rewrite IH. Qed.

Lemma metadata_at off : header_ok cfg (header_at cfg f off) -> segments_ok cfg (off + HEADER_SIZE) (segments_at cfg f off) -> hash_ok off ->
  metadata_of off (image_at_ off) (image_at_metadata cfg f off (length_at cfg f off) (digest_at cfg f off)).
Proof.
  intros Hh Hs Hd. destruct (image_at_lengths off Hh Hs) as [E1 E2]. pose proof (header_count cfg f off Hh) as Hc.
  assert (Hn : (length (segments_at cfg f off) <= 16)%nat) by (pose proof (segments_at_zlen cfg f off); unfold zlen in *; lia).
  unfold metadata_of. rewrite E2. split_and!; [done|done|done|..|done].
  - cbn [image_at ai_segments image_at_metadata with_segments segments]. rewrite <- (length_fmap seg_header) at 1. apply take_inserts. by rewrite length_fmap.
  - cbn [image_at ai_segments image_at_metadata with_segments segment_data]. rewrite <- (data_addrs_length (off + HEADER_SIZE)) at 1. apply take_inserts.
    by rewrite data_addrs_length.
Qed.

Lemma at_ok_length do_load part : offset_ok (pos_offset part) -> at_ok cfg f do_load part -> 0 <= length_at cfg f (pos_offset part) <= pos_size part.
Proof.
  intros (O1 & _ & O3) [A1 A2 _ _ A5]. destruct (unpadded_range cfg f _ A1 A2) as [U _]. destruct (padded_range cfg f _ A1 A2) as (P & _). unfold HEADER_SIZE, SIXTEEN_MB in *.
  assert (L : padded_at cfg f (pos_offset part) <= length_at cfg f (pos_offset part) <= padded_at cfg f (pos_offset part) + 32).
  { unfold length_at, HASH_LEN. destruct (appended_at cfg f (pos_offset part)); lia. }
  destruct (sig_block_len_range cfg (pos_offset part) (length_at cfg f (pos_offset part))); lia.
Qed.

Lemma readable_sub lo hi hi' : readable cfg f lo hi -> hi' <= hi -> readable cfg f lo hi'.
Proof. intros Hr Hh a n H1 H2 H3 H4 H5. apply Hr; try done; lia. Qed.

Lemma mappable_sub lo hi hi' : mappable cfg f lo hi -> hi' <= hi -> mappable cfg f lo hi'.
Proof. intros Hr Hh a n H1 H2 H3 H4. apply Hr; try done; lia. Qed.

Hypothesis no_signature : SECURE_BOOT_CHECK_SIGNATURE cfg = false.
Hypothesis no_debugger : ic_debugger cfg = false.

Lemma verify_hash_spec off s : ld_data s = image_at_metadata cfg f off (length_at cfg f off) (digest_at cfg f off) ->
  ld_sha s = (if hashing cfg f off true then Some (image_body (image_at_ off)) else None) -> exists err,
  verify_hash_or_signature cfg sha256 verify_signature_block f true s = RET (err, image_digest_init, verified_digest_init) (set_sha None s) /\
  (err = ESP_OK <-> hash_ok off).
Proof.
  intros D1 D2. unfold hashing in D2. rewrite no_signature in D2. cbn [orb] in D2. fold (appended_at cfg f off) in D2. rewrite andb_true_r in D2.
  unfold verify_hash_or_signature. rewrite no_signature. cbn [negb]. rewrite (bind_RET (gets ld_sha) _ s (ld_sha s) s) by done. rewrite D2, no_debugger, andb_true_r.
  unfold hash_ok. revert D2. generalize (image_body (image_at_ off)). intros body D2. destruct (appended_at cfg f off); cbn -[image_digest_init verified_digest_init]; cycle 1.
  { exists ESP_OK. split; [|done]. by destruct s; cbn in D2; subst. }
  unfold verify_simple_hash, bootloader_sha256_finish, mbind, M_bind, gets, modify, mret, M_ret. rewrite D2. cbn -[image_digest_init verified_digest_init]. rewrite D1.
  eexists. split; [done|]. case_bool_decide as E; [by split|]. split; [done|]. intros E'. by destruct E; apply E'.
Qed.

(** RAM after [finish_load]. *)
Definition final_ram (do_load : bool) (s : img) : mem :=
  if BOOTLOADER_BUILD cfg && do_load && negb (fst (ram_obfs_value s) =? 0) && negb (snd (ram_obfs_value s) =? 0)
  then deobfuscate cfg (take (Z.to_nat (segment_count (image (ld_data s)))) (segments (ld_data s))) (ram_obfs_value s) (ld_ram s) else ld_ram s.

Lemma finish_load_spec do_load digest verified s :
  finish_load cfg do_load digest verified s = RET ESP_OK (set_ram (final_ram do_load s) s).
Proof.
  unfold finish_load, final_ram, mbind, M_bind, gets, modify. rewrite no_signature, !andb_false_r. cbn [andb]. by destruct (_ && _), s.
Qed.

Lemma image_load_spec mode part s : mode <> ESP_IMAGE_LOAD_NO_VALIDATE -> (mode_loads mode = true -> ram_fits cfg) ->
  offset_ok (pos_offset part) -> pos_offset part <> ESP_BOOTLOADER_OFFSET cfg -> pos_size part <= SIXTEEN_MB ->
  match image_load_ mode (Some part) true s with
  | RET err s' =>
      if is_ok err then
        at_ok cfg f (mode_loads mode) part /\ hash_ok (pos_offset part) /\
        exists s1, steps_done cfg random f (mode_loads mode) true (pos_offset part) (load_start s) s1 /\
          s' = set_ram (final_ram (mode_loads mode) s1) (set_sha None s1) /\ safe_frame cfg (mode_loads mode) (ld_ram s) (ld_ram s1)
      else ld_data s' = zero_metadata /\ safe_frame cfg (mode_loads mode) (ld_ram s) (ld_ram s') /\
        (at_ok cfg f (mode_loads mode) part -> hash_ok (pos_offset part) -> ic_sha_ok cfg = true ->
         readable cfg f (pos_offset part) (pos_offset part + pos_size part) -> mappable cfg f (pos_offset part) (pos_offset part + pos_size part) -> False)
  | ABORT => load_aborts cfg (mode_loads mode) (segments_at cfg f (pos_offset part))
  | RESTART _ => False
  end.
Proof.
  intros Hmode Hfit Ho Hb Hsz. set (off := pos_offset part) in *. set (dl := mode_loads mode) in *.
  assert (Hchk : checks_hash part = true) by (unfold checks_hash; fold off; rewrite (proj2 (Z.eqb_neq off _) Hb); by destruct (CONFIG_SECURE_BOOT_V2_ENABLED cfg)).
  assert (Hbl : dl = true -> BOOTLOADER_BUILD cfg = true /\ ram_fits cfg) by (intros Hd; split; [by apply andb_true_iff in Hd as [? _]|by apply Hfit]).
  rewrite image_load_verify, Hchk by done. fold dl.
  pose proof (load_steps_spec cfg random f free_pages random_nonzero dl true part (load_start s) Hbl Ho eq_refl eq_refl) as P.
  unfold mbind at 1, M_bind at 1. destruct (load_steps cfg random f part dl true (load_start s)) as [err s1| |]; [|done|done].
  destruct P as (Hf & Hok & Hc). cbn [ld_ram load_start set_checksum set_sha] in Hf.
  destruct (is_ok_spec err) as [->|Herr]; cbn [negb is_ok]; cycle 1.
  { rewrite load_failed_spec by done. destruct (is_ok_spec err); [done|]. split_and!; [done|done|]. intros Ha _ Hm Hr Hmap. apply Herr.
    pose proof (at_ok_length dl part Ho Ha) as Hlen. fold off in Hlen. apply Hc; [done|done|..]; [eapply readable_sub|eapply mappable_sub]; try done; fold off; lia. }
  destruct (Hok eq_refl) as [Ha Hd]. clear Hc Hok. pose proof Hd as [D1 D2 _ _]. fold off in D1, D2.
  destruct (verify_hash_spec off s1 D1 D2) as (err & Ev & Eok). rewrite (bind_RET _ _ _ _ _ Ev). unfold mbind at 1, M_bind at 1, modify.
  destruct (is_ok_spec err) as [->|Herr]; cbn [negb].
  - rewrite finish_load_spec. cbn [is_ok]. split_and!; [done|by apply Eok|]. by exists s1.
  - rewrite load_failed_spec by done. destruct (is_ok_spec err); [done|]. split_and!; [done|done|]. intros _ Hh. by apply Eok in Hh.
Qed.

End Theorems.

(** ** Example *)

Lemma xi_offset_ok : offset_ok (pos_offset xi_part).
Proof. by split_and!. Qed.

Lemma xi_holds bl sg : holds_image (xi_cfg bl sg) xi_sha256 xi_flash xi_part xi_image.
Proof. split; [by apply xi_image_ok|]. destruct bl, sg; vm_compute; reflexivity. Qed.

