(* ===== verification/LoadAddresses.v ===== *)
(** * Load addresses

    [verify_load_addresses] of esp_image_format.c keeps the segments of an
    application out of the memory the bootloader runs from, also where the
    same memory is reached through the data and the instruction bus. *)

From S2P Require Import Prelude CMem Crc Flash OtaData PartitionTable Partitions ImageFormat ImageSegments ImageSpec.

Section LoadAddresses.
Context (cfg : image_config).
Abbreviation chip := (ic_soc cfg).

(** Where segments may be loaded. *)
Definition ram_ranges : list range :=
  [SOC_DRAM chip; SOC_IRAM chip] ++
  (if SOC_RTC_FAST_MEM_SUPPORTED chip then [SOC_RTC_IRAM chip; SOC_RTC_DRAM chip] else []) ++
  (if SOC_RTC_SLOW_MEM_SUPPORTED chip then [SOC_RTC_DATA chip] else []).

Definition within (r : range) (a e : Z) : Prop := fst r <= a /\ e <= snd r.
Definition proper (r : range) : Prop := 0 <= fst r < snd r /\ snd r < 2 ^ 31.
Definition disjoint (r q : range) : Prop := snd r <= fst q \/ snd q <= fst r.

(** The memory map: RAM is below 2 GB, its parts are apart, and memory that is
    on both buses is in both parts. *)
Record chip_ok : Prop := {
  co_ram : Forall proper ram_ranges;
  co_window : Forall (fun r => snd r - fst r <= (bootloader_mmap_get_free_pages cfg - 1) * SPI_FLASH_MMU_PAGE_SIZE) ram_ranges;
  co_buses : disjoint (SOC_DRAM chip) (SOC_IRAM chip);
  co_rtc : Forall (fun r => disjoint r (SOC_DRAM chip) /\ disjoint r (SOC_IRAM chip)) (drop 2 ram_ranges);
  co_straight : SOC_DIRAM_INVERTED chip = false;
  co_diram : proper (SOC_DIRAM_DRAM chip) /\ proper (SOC_DIRAM_IRAM chip);
  co_diram_dram : within (SOC_DRAM chip) (fst (SOC_DIRAM_DRAM chip)) (snd (SOC_DIRAM_DRAM chip));
  co_diram_iram : within (SOC_IRAM chip) (fst (SOC_DIRAM_IRAM chip)) (snd (SOC_DIRAM_IRAM chip));
  co_same : snd (SOC_DIRAM_DRAM chip) - fst (SOC_DIRAM_DRAM chip) = snd (SOC_DIRAM_IRAM chip) - fst (SOC_DIRAM_IRAM chip);
  co_stack : 0 <= ic_sp cfg - STACK_LOAD_HEADROOM < SOC_ROM_STACK_START chip /\ SOC_ROM_STACK_START chip < 2 ^ 31;
  co_data : proper (ic_dram cfg);
  co_text : proper (ic_loader_text cfg)
}.

Definition in_ (r : range) (x : Z) : Prop := fst r <= x < snd r.

(** The addresses of the byte at [x]. *)
Definition same_byte (x y : Z) : Prop :=
  y = x \/
  (in_ (SOC_DIRAM_DRAM chip) x /\ y = fst (SOC_DIRAM_IRAM chip) + (x - fst (SOC_DIRAM_DRAM chip))) \/
  (in_ (SOC_DIRAM_IRAM chip) x /\ y = fst (SOC_DIRAM_DRAM chip) + (x - fst (SOC_DIRAM_IRAM chip))).

(** Memory of the bootloader: its stack with headroom and its data, in DRAM,
    and the code that loads, in IRAM. *)
Definition bootloader_memory (y : Z) : Prop :=
  (in_ (SOC_DRAM chip) y /\ (ic_sp cfg - STACK_LOAD_HEADROOM <= y < SOC_ROM_STACK_START chip \/ in_ (ic_dram cfg) y)) \/
  (in_ (SOC_IRAM chip) y /\ in_ (ic_loader_text cfg) y).

Context (HC : chip_ok).

Lemma overlap_spec s1 e1 s2 e2 : 0 <= s1 < e1 -> e1 < 2 ^ 31 -> 0 <= s2 < e2 -> e2 < 2 ^ 31 ->
  bootloader_util_regions_overlap s1 e1 s2 e2 = Some ((s2 <? e1) && (s1 <? e2)).
Proof.
  intros H1 H2 H3 H4. unfold bootloader_util_regions_overlap. rewrite !i32_small by lia. rewrite (proj2 (Z.ltb_lt s1 e1)), (proj2 (Z.ltb_lt s2 e2)) by lia. done.
Qed.

Lemma ptr_in_spec r p : 0 <= p < 2 ^ 31 -> ptr_in r p = true <-> in_ r p.
Proof. intros Hp. unfold ptr_in, in_range_, in_. rewrite i32_small by lia. rewrite andb_true_iff, Z.leb_le, Z.ltb_lt. lia. Qed.

(** A range of RAM, checked without the other bus. *)
Definition clear_of (a e : Z) : Prop := forall y, a <= y < e -> ~ bootloader_memory y.

Lemma in_ram r : In r ram_ranges -> proper r.
Proof. intros Hr. destruct HC as [C1 _ _ _ _ _ _ _ _ _ _ _]. by apply (proj1 (List.Forall_forall _ _) C1). Qed.

Lemma in_rtc r : In r (drop 2 ram_ranges) -> disjoint r (SOC_DRAM chip) /\ disjoint r (SOC_IRAM chip).
Proof. intros Hr. destruct HC as [_ _ _ C4 _ _ _ _ _ _ _ _]. by apply (proj1 (List.Forall_forall _ _) C4). Qed.

Lemma ptrs_in r a e : 0 <= a < e -> e < 2 ^ 31 -> ptr_in r a && ptr_in r (e - 1) = true <-> within r a e.
Proof.
  intros Ha He. rewrite andb_true_iff, !ptr_in_spec by lia. unfold in_, within. lia.
Qed.

(** The checks after the address ranges were found. *)
Definition rtc_check (a e : Z) : bool :=
  (SOC_RTC_FAST_MEM_SUPPORTED chip && (ptr_in (SOC_RTC_IRAM chip) a && ptr_in (SOC_RTC_IRAM chip) (e - 1))) ||
  (SOC_RTC_FAST_MEM_SUPPORTED chip && (ptr_in (SOC_RTC_DRAM chip) a && ptr_in (SOC_RTC_DRAM chip) (e - 1))) ||
  (SOC_RTC_SLOW_MEM_SUPPORTED chip && (ptr_in (SOC_RTC_DATA chip) a && ptr_in (SOC_RTC_DATA chip) (e - 1))).

Lemma rtc_check_spec a e : 0 <= a < e -> e < 2 ^ 31 -> rtc_check a e = true -> exists r, In r (drop 2 ram_ranges) /\ within r a e.
Proof.
  intros Ha He. unfold rtc_check, ram_ranges. rewrite !orb_true_iff, !(andb_true_iff (SOC_RTC_FAST_MEM_SUPPORTED _)), !(andb_true_iff (SOC_RTC_SLOW_MEM_SUPPORTED _)), !ptrs_in by lia.
  intros [[[-> H]|[-> H]]|[-> H]]; eexists; (split; [|exact H]); cbn; [by left|by right; left|]. apply in_or_app. right. by left.
Qed.

Lemma rtc_clear a e : 0 <= a < e -> e < 2 ^ 31 -> rtc_check a e = true -> forall y, a <= y < e -> ~ in_ (SOC_DRAM chip) y /\ ~ in_ (SOC_IRAM chip) y.
Proof.
  intros Ha He Hr y Hy. destruct (rtc_check_spec a e Ha He Hr) as (r & Hin & Hw). destruct (in_rtc r Hin) as [D1 D2]. unfold in_, disjoint, within in *. lia.
Qed.

(** What the bootloader may not lose in DRAM or in IRAM. *)
Definition dram_check (a e : Z) : bool :=
  negb ((a <? SOC_ROM_STACK_START chip) && (ic_sp cfg - STACK_LOAD_HEADROOM <? e)) && negb ((a <? snd (ic_dram cfg)) && (fst (ic_dram cfg) <? e)).
Definition iram_check (a e : Z) : bool := negb ((a <? snd (ic_loader_text cfg)) && (fst (ic_loader_text cfg) <? e)).

(** The function in terms of these. *)
Lemma verify_eq fuel a e : 0 <= a < e -> e < 2 ^ 31 -> verify_load_addresses cfg fuel a e =
  if decide (within (SOC_DRAM chip) a e) then
    if dram_check a e then
      match fuel with
      | O => Some true
      | S fuel =>
          if (a <? snd (SOC_DIRAM_DRAM chip)) && (fst (SOC_DIRAM_DRAM chip) <? e)
          then let '(a, e) := other_bus (SOC_DIRAM_DRAM chip) (esp_ptr_diram_dram_to_iram cfg) a e in verify_load_addresses cfg fuel a e else Some true
      end
    else Some false
  else if decide (within (SOC_IRAM chip) a e) then
    if iram_check a e then
      match fuel with
      | O => Some true
      | S fuel =>
          if (a <? snd (SOC_DIRAM_IRAM chip)) && (fst (SOC_DIRAM_IRAM chip) <? e)
          then let '(a, e) := other_bus (SOC_DIRAM_IRAM chip) (esp_ptr_diram_iram_to_dram cfg) a e in verify_load_addresses cfg fuel a e else Some true
      end
    else Some false
  else Some (rtc_check a e).
Proof.
  intros Ha He. pose proof HC as [_ _ _ _ _ [[P1 P2] [P3 P4]] _ _ _ [P5 P6] [P7 P8] [P9 P10]].
  assert (Eptr : forall r (X Y : option bool), (if ptr_in r a && ptr_in r (e - 1) then X else Y) = if decide (within r a e) then X else Y).
  { intros r X Y. destruct (ptrs_in r a e Ha He) as [I1 I2]. case_decide as D; [by rewrite I2|]. destruct (_ && _); [|done]. by destruct D; apply I1. }
  assert (Ertc : (if SOC_RTC_FAST_MEM_SUPPORTED chip && ptr_in (SOC_RTC_IRAM chip) a && ptr_in (SOC_RTC_IRAM chip) (e - 1) then Some true
    else if SOC_RTC_FAST_MEM_SUPPORTED chip && ptr_in (SOC_RTC_DRAM chip) a && ptr_in (SOC_RTC_DRAM chip) (e - 1) then Some true
    else if SOC_RTC_SLOW_MEM_SUPPORTED chip && ptr_in (SOC_RTC_DATA chip) a && ptr_in (SOC_RTC_DATA chip) (e - 1) then Some true else Some false) = Some (rtc_check a e)).
  { unfold rtc_check. rewrite !andb_assoc. by destruct (_ && _ && _), (_ && _ && _), (_ && _ && _). }
  destruct fuel; cbn [verify_load_addresses]; rewrite !(i32_small a), !(i32_small e) by lia; cbv zeta;
    destruct (Z.eqb_spec e a); try lia; rewrite (proj2 (Z.ltb_lt a e)) by lia; rewrite Ertc, !Eptr, !(overlap_spec _ _ a e) by lia; unfold dram_check, iram_check.
  all: case_decide; [by destruct (_ && (_ <? e)), (_ && (_ <? e))|]. all: case_decide; [by destruct (_ && (_ <? e))|done].
Qed.

Lemma dram_clear a e y : within (SOC_DRAM chip) a e -> dram_check a e = true -> a <= y < e -> ~ bootloader_memory y.
Proof.
  intros [W1 W2] D Hy [[_ Hs]|[Hi _]].
  - unfold dram_check, in_ in *. rewrite andb_true_iff, !negb_true_iff, !andb_false_iff, !Z.ltb_ge in D. lia.
  - destruct HC as [_ _ [C|C] _ _ _ _ _ _ _ _ _]; unfold in_ in Hi; lia.
Qed.

Lemma iram_clear a e y : within (SOC_IRAM chip) a e -> iram_check a e = true -> a <= y < e -> ~ bootloader_memory y.
Proof.
  intros [W1 W2] D Hy [[Hi _]|[_ Ht]].
  - destruct HC as [_ _ [C|C] _ _ _ _ _ _ _ _ _]; unfold in_ in Hi; lia.
  - unfold iram_check, in_ in *. rewrite negb_true_iff, andb_false_iff, !Z.ltb_ge in D. lia.
Qed.

Lemma verify_once a e : 0 <= a < e -> e < 2 ^ 31 ->
  exists b, verify_load_addresses cfg 0 a e = Some b /\ (b = true -> forall y, a <= y < e -> ~ bootloader_memory y).
Proof.
  intros Ha He. rewrite verify_eq by done. case_decide as W1; [|case_decide as W2].
  - destruct (dram_check a e) eqn:E; eexists; (split; [done|]); [|done]. intros _ y. by apply dram_clear.
  - destruct (iram_check a e) eqn:E; eexists; (split; [done|]); [|done]. intros _ y. by apply iram_clear.
  - eexists. split; [done|]. intros Hr y Hy. destruct (rtc_clear a e Ha He Hr y Hy) as [N1 N2]. intros [[? _]|[? _]]; done.
Qed.

(** The window on the other bus. *)
Lemma other_bus_spec r q convert a e : proper r -> proper q -> snd r - fst r = snd q - fst q -> (forall p, convert p = fst q + (p - fst r)) ->
  0 <= a < e -> e < 2 ^ 31 -> a < snd r -> fst r < e ->
  other_bus r convert a e = (fst q + (Z.max a (fst r) - fst r), fst q + (Z.min e (snd r) - fst r)).
Proof.
  intros [R1 R2] [Q1 Q2] Hs Hc Ha He Hl Hh. unfold other_bus. rewrite !Hc, !(i32_small a), !(i32_small e) by lia.
  assert (E1 : (if ptr_in r a then a else fst r) = Z.max a (fst r)).
  { pose proof (ptr_in_spec r a ltac:(lia)) as P. unfold in_ in P. destruct (ptr_in r a); [destruct P as [P _]; specialize (P eq_refl); lia|].
    destruct (Z_lt_dec a (fst r)); [lia|]. destruct P as [_ P]. discriminate P. lia. }
  assert (E2 : (if ptr_in r (e - 1) then e else snd r) = Z.min e (snd r)).
  { pose proof (ptr_in_spec r (e - 1) ltac:(lia)) as P. unfold in_ in P. destruct (ptr_in r (e - 1)); [destruct P as [P _]; specialize (P eq_refl); lia|].
    destruct (Z_le_dec (snd r) e); [lia|]. destruct P as [_ P]. discriminate P. lia. }
  rewrite E1, E2, (proj2 (Z.ltb_ge _ _)) by lia. done.
Qed.

Lemma verify_other r q convert a e : proper r -> proper q -> snd r - fst r = snd q - fst q -> (forall p, convert p = fst q + (p - fst r)) ->
  0 <= a < e -> e < 2 ^ 31 -> exists b,
  (if (a <? snd r) && (fst r <? e) then let '(a, e) := other_bus r convert a e in verify_load_addresses cfg 0 a e else Some true) = Some b /\
  (b = true -> forall x, a <= x < e -> in_ r x -> ~ bootloader_memory (fst q + (x - fst r))).
Proof.
  intros Hr Hq Hs Hc Ha He. destruct (_ && _) eqn:E.
  - rewrite andb_true_iff, !Z.ltb_lt in E. rewrite (other_bus_spec r q convert a e) by (done || lia). pose proof Hr as [R1 R2]. pose proof Hq as [Q1 Q2].
    destruct (verify_once (fst q + (Z.max a (fst r) - fst r)) (fst q + (Z.min e (snd r) - fst r))) as (b & -> & Hb); [lia|lia|].
    exists b. split; [done|]. intros -> x Hx Hi. unfold in_ in Hi. apply Hb; [done|]. lia.
  - rewrite andb_false_iff, !Z.ltb_ge in E. exists true. split; [done|]. intros _ x Hx Hi. unfold in_ in Hi. lia.
Qed.

Lemma verify_spec a e : 0 <= a < e -> e < 2 ^ 31 -> exists b, verify_load_addresses cfg 1 a e = Some b /\
  (b = true -> (exists r, In r ram_ranges /\ within r a e) /\ forall x y, a <= x < e -> same_byte x y -> ~ bootloader_memory y).
Proof.
  intros Ha He. rewrite verify_eq by done. pose proof HC as [_ _ C3 _ C5 [C6 C6'] [C7 C7'] [C8 C8'] C9 _ _ _].
  case_decide as W1; [|case_decide as W2].
  - destruct (dram_check a e) eqn:E; [|by exists false].
    destruct (verify_other (SOC_DIRAM_DRAM chip) (SOC_DIRAM_IRAM chip) (esp_ptr_diram_dram_to_iram cfg) a e) as (b & -> & Hb); try done.
    { intros p. unfold esp_ptr_diram_dram_to_iram. by rewrite C5. }
    exists b. split; [done|]. intros ->. split; [exists (SOC_DRAM chip); split; [by left|done]|].
    intros x y Hx [->|[[Hi ->]|[Hi _]]]; [by apply dram_clear with a e|by apply Hb|]. exfalso. unfold in_, within, disjoint in *. lia.
  - destruct (iram_check a e) eqn:E; [|by exists false].
    destruct (verify_other (SOC_DIRAM_IRAM chip) (SOC_DIRAM_DRAM chip) (esp_ptr_diram_iram_to_dram cfg) a e) as (b & -> & Hb); try done.
    { intros p. unfold esp_ptr_diram_iram_to_dram. by rewrite C5. }
    exists b. split; [done|]. intros ->. split; [exists (SOC_IRAM chip); split; [by right; left|done]|].
    intros x y Hx [->|[[Hi _]|[Hi ->]]]; [by apply iram_clear with a e| |by apply Hb]. exfalso. unfold in_, within, disjoint in *. lia.
  - exists (rtc_check a e). split; [done|]. intros Hr. split.
    + destruct (rtc_check_spec a e Ha He Hr) as (r & Hin & Hw). exists r. split; [|done]. right. right. done.
    + intros x y Hx Hs. destruct (rtc_clear a e Ha He Hr x Hx) as [N1 N2]. destruct Hs as [->|[[Hi _]|[Hi _]]].
      * intros [[? _]|[? _]]; done.
      * exfalso. apply N1. unfold in_ in *. lia.
      * exfalso. apply N2. unfold in_ in *. lia.
Qed.

(** Addresses from 2 GB on. *)
Lemma verify_high load len : 2 ^ 31 <= load < 2 ^ 32 -> 0 < len < SIXTEEN_MB -> verify_load_addresses cfg 1 load (load + len) = Some false.
Proof.
  intros Hl Hn. unfold SIXTEEN_MB in Hn.
  assert (El : i32 load = load - 2 ^ 32) by (unfold i32; rewrite <- (Z.mod_unique (load + 2 ^ 31) (2 ^ 32) 1 (load - 2 ^ 31)); lia).
  assert (Ee : i32 (load + len) = load + len - 2 ^ 32) by (unfold i32; rewrite <- (Z.mod_unique (load + len + 2 ^ 31) (2 ^ 32) 1 (load + len - 2 ^ 31)); lia).
  assert (Hr : forall r, In r ram_ranges -> ptr_in r (load - 2 ^ 32) = false).
  { intros r Hin. destruct (in_ram r Hin) as [[P _] _]. unfold ptr_in, in_range_. rewrite i32_small, (proj2 (Z.leb_gt _ _)) by lia. done. }
  cbn [verify_load_addresses]. rewrite El, Ee. destruct (Z.eqb_spec (load + len - 2 ^ 32) (load - 2 ^ 32)); [lia|]. rewrite (proj2 (Z.ltb_lt (load - 2 ^ 32) _)) by lia.
  rewrite (Hr (SOC_DRAM chip)), (Hr (SOC_IRAM chip)) by (cbn; tauto). cbn [andb]. unfold ram_ranges in Hr.
  destruct (SOC_RTC_FAST_MEM_SUPPORTED chip); [rewrite (Hr (SOC_RTC_IRAM chip)), (Hr (SOC_RTC_DRAM chip)) by (cbn; tauto)|]; cbn [andb].
  all: destruct (SOC_RTC_SLOW_MEM_SUPPORTED chip); [rewrite (Hr (SOC_RTC_DATA chip)) by (cbn; tauto)|]; done.
Qed.

(** A segment across 2 GB: the assertion fails. *)
Lemma verify_crossing load len : 0 <= load < 2 ^ 31 -> 2 ^ 31 <= load + len -> len < SIXTEEN_MB -> verify_load_addresses cfg 1 load (load + len) = None.
Proof.
  intros Hl H1 Hn. unfold SIXTEEN_MB in Hn.
  assert (Ee : i32 (load + len) = load + len - 2 ^ 32) by (unfold i32; rewrite <- (Z.mod_unique (load + len + 2 ^ 31) (2 ^ 32) 1 (load + len - 2 ^ 31)); lia).
  cbn [verify_load_addresses]. rewrite Ee, (i32_small load) by lia. destruct (Z.eqb_spec (load + len - 2 ^ 32) load); [lia|]. by rewrite (proj2 (Z.ltb_ge load _)) by lia.
Qed.

(** What is accepted is in one range of RAM. *)
Lemma accepted_range load len : 0 <= load < 2 ^ 32 -> 0 < len < SIXTEEN_MB -> verify_load_addresses cfg 1 load (load + len) = Some true ->
  load + len < 2 ^ 31 /\ (exists r, In r ram_ranges /\ within r load (load + len)) /\
  forall x y, load <= x < load + len -> same_byte x y -> ~ bootloader_memory y.
Proof.
  intros Hl Hn Hv. destruct (Z_lt_dec load (2 ^ 31)) as [H2|H2]; [|rewrite verify_high in Hv by lia; done].
  destruct (Z_lt_dec (load + len) (2 ^ 31)) as [H1|H1]; [|rewrite verify_crossing in Hv by lia; done].
  destruct (verify_spec load (load + len)) as (b & E & Hb); [lia|done|]. rewrite Hv in E. injection E as <-. split; [done|by apply Hb].
Qed.

Lemma verify_range load len : 0 <= load < 2 ^ 32 -> 0 < len < SIXTEEN_MB ->
  match verify_load_addresses cfg 1 load (load + len) with
  | Some true => forall x y, load <= x < load + len -> same_byte x y -> ~ bootloader_memory y
  | Some false => True
  | None => load < 2 ^ 31 <= load + len
  end.
Proof.
  intros Hl Hn. destruct (verify_load_addresses cfg 1 load (load + len)) as [[]|] eqn:E; [by apply accepted_range|done|].
  destruct (Z_lt_dec load (2 ^ 31)) as [H2|H2]; [|by rewrite verify_high in E by lia].
  destruct (Z_lt_dec (load + len) (2 ^ 31)) as [H1|H1]; [|lia]. destruct (verify_spec load (load + len)) as (b & Eb & _); [lia|done|]. by rewrite E in Eb.
Qed.

Lemma chip_ram_fits : 2 <= bootloader_mmap_get_free_pages cfg < 2 ^ 16 -> ram_fits cfg.
Proof.
  intros Hp load len a Hl Hn Hv. destruct (accepted_range load len Hl Hn Hv) as (H1 & (r & Hin & Hw) & _).
  split; [lia|]. destruct HC as [_ C2 _ _ _ _ _ _ _ _ _ _]. pose proof (proj1 (List.Forall_forall _ _) C2 r Hin) as Hsz. cbn in Hsz.
  unfold within in Hw. unfold part_limit, SPI_FLASH_MMU_PAGE_SIZE in *. destruct (negb _); rewrite !u32_small by (rewrite ?u32_small by lia; lia); lia.
Qed.
End LoadAddresses.
