(* ===== verification/ImageLoad.v ===== *)
(** * Loading an image into RAM

    While an image is read its segments go to RAM word by word, combined with a
    random value; when it has been verified the value is taken off again.
    After a successful load RAM holds the segments, and nothing else in RAM
    has changed. *)

From S2P Require Import Prelude CMem Crc Flash OtaData PartitionTable Partitions ImageFormat ImageSegments ImageSpec ImageExample ImageVerify ImageTheorems LoadAddresses.

(** ** Bytes of words *)

Lemma u8_div_lxor w o k : 0 <= k -> u8 (Z.lxor w o / 2 ^ (8 * k)) = Z.lxor (u8 (w / 2 ^ (8 * k))) (u8 (o / 2 ^ (8 * k))).
Proof. intros Hk. rewrite <- !Z.shiftr_div_pow2, Z.shiftr_lxor by lia. apply u8_lxor. Qed.

Definition mem_ok (m : mem) : Prop := forall x, is_byte (m x).

Lemma mem_ok_store32 m a w : mem_ok m -> mem_ok (store32 m a w).
Proof.
  intros Hm x. destruct (decide (a <= x < a + 4)) as [Hx|Hx].
  - replace x with (a + (x - a)) by lia. rewrite store32_word by lia. apply Z.mod_pos_bound. lia.
  - rewrite store32_other by lia. apply Hm.
Qed.

(** The byte of the obfuscation value that goes to byte [b] of a segment. *)
Definition obfs_byte (v : Z * Z) (b : Z) : Z := u8 (obfs_word v (b / 4) / 2 ^ (8 * (b mod 4))).

Lemma byte_in_word j b : 4 * j <= b < 4 * (j + 1) -> b / 4 = j /\ b mod 4 = b - 4 * j.
Proof. intros Hb. pose proof (Z.div_unique b 4 j (b - 4 * j)). pose proof (Z.mod_unique b 4 j (b - 4 * j)). lia. Qed.

Section Load.
Context {F : Type} `{FlashLaws F}.
Context (cfg : image_config) (f : F).
Abbreviation view_ := (img_view cfg f).

Lemma load_words_byte n : forall j src dest v m b, 0 <= j -> 0 <= dest -> dest + 4 * (j + Z.of_nat n) < 2 ^ 32 -> 4 * j <= b < 4 * (j + Z.of_nat n) ->
  load_words cfg f n j src dest v m (dest + b) = Z.lxor (view_ (src + b)) (obfs_byte v b).
Proof.
  induction n as [|n IH]; intros j src dest v m b Hj Hd Hw Hb; [lia|]. cbn [load_words]. destruct (Z_lt_dec b (4 * (j + 1))) as [Hl|Hl]; [|apply IH; lia].
  rewrite load_words_other by lia. rewrite u32_small by lia. destruct (byte_in_word j b ltac:(lia)) as [E1 E2]. unfold obfs_byte. rewrite E1, E2.
  replace (dest + b) with (dest + 4 * j + (b - 4 * j)) by lia. rewrite store32_word by lia. rewrite u8_div_lxor by lia. f_equal.
  rewrite (load32_byte view_) by (apply view_bytes || lia). f_equal. lia.
Qed.

Lemma load_words_ok n : forall j src dest v m, mem_ok m -> mem_ok (load_words cfg f n j src dest v m).
Proof. induction n as [|n IH]; intros j src dest v m Hm; cbn [load_words]; [done|]. apply IH. by apply mem_ok_store32. Qed.

Lemma deobfuscate_words_other n : forall j dest v m x, 0 <= j -> 0 <= dest -> dest + 4 * (j + Z.of_nat n) < 2 ^ 32 ->
  x < dest + 4 * j \/ dest + 4 * (j + Z.of_nat n) <= x -> deobfuscate_words n j dest v m x = m x.
Proof.
  induction n as [|n IH]; intros j dest v m x Hj Hd Hw Hx; cbn [deobfuscate_words]; [done|].
  rewrite IH by lia. rewrite u32_small by lia. apply store32_other. lia.
Qed.

Lemma deobfuscate_words_byte n : forall j dest v m b, mem_ok m -> 0 <= j -> 0 <= dest -> dest + 4 * (j + Z.of_nat n) < 2 ^ 32 ->
  4 * j <= b < 4 * (j + Z.of_nat n) -> deobfuscate_words n j dest v m (dest + b) = Z.lxor (m (dest + b)) (obfs_byte v b).
Proof.
  induction n as [|n IH]; intros j dest v m b Hm Hj Hd Hw Hb; [lia|]. cbn [deobfuscate_words]. rewrite u32_small by lia. fold (obfs_word v j).
  destruct (Z_lt_dec b (4 * (j + 1))) as [Hl|Hl].
  - rewrite deobfuscate_words_other by lia. destruct (byte_in_word j b ltac:(lia)) as [E1 E2]. unfold obfs_byte. rewrite E1, E2.
    replace (dest + b) with (dest + 4 * j + (b - 4 * j)) by lia. rewrite store32_word by lia. rewrite u8_div_lxor by lia. f_equal. by rewrite load32_byte by (done || lia).
  - rewrite IH by (lia || by apply mem_ok_store32). f_equal. apply store32_other. lia.
Qed.

Lemma deobfuscate_words_ok n : forall j dest v m, mem_ok m -> mem_ok (deobfuscate_words n j dest v m).
Proof. induction n as [|n IH]; intros j dest v m Hm; cbn [deobfuscate_words]; [done|]. apply IH. by apply mem_ok_store32. Qed.

(** ** Segments in RAM *)

Abbreviation loaded := (loads cfg true).
Definition target (sg : segment) (x : Z) : Prop := sg_addr sg <= x < sg_addr sg + zlen (sg_data sg).
(** [x] is where a byte of a loaded segment goes. *)
Definition in_loaded (sgs : list segment) (x : Z) : Prop := Exists (fun sg => loaded sg = true /\ target sg x) sgs.
(** No two loaded segments overlap. *)
Fixpoint apart_loaded (sgs : list segment) : Prop :=
  match sgs with
  | [] => True
  | sg :: sgs => (loaded sg = true -> forall x, target sg x -> ~ in_loaded sgs x) /\ apart_loaded sgs
  end.
(** Loaded segments are words below 4 GB. *)
Definition fits (sg : segment) : Prop :=
  loaded sg = true -> 0 <= sg_addr sg /\ sg_addr sg + zlen (sg_data sg) < 2 ^ 32 /\ 4 * (zlen (sg_data sg) / 4) = zlen (sg_data sg).

(** RAM holds for each loaded segment the bytes [g src 0], [g src 1], ...,
    where [src] is the address of its data in flash. *)
Fixpoint holds (g : Z -> Z -> Z) (a : Z) (sgs : list segment) (m : mem) : Prop :=
  match sgs with
  | [] => True
  | sg :: sgs =>
      (loaded sg = true -> forall b, 0 <= b < zlen (sg_data sg) -> m (sg_addr sg + b) = g (a + SEGMENT_HEADER_SIZE) b) /\
      holds g (a + zlen (segment_bytes sg)) sgs m
  end.

Lemma loaded_frame g sgs m m' : (forall x, in_loaded sgs x -> m' x = m x) -> forall a, holds g a sgs m -> holds g a sgs m'.
Proof.
  intros Hx a. revert Hx a. induction sgs as [|sg sgs IH]; intros Hx a; [done|]. intros [H1 H2]. split.
  - intros Hl b Hb. rewrite Hx; [by apply H1|]. left. split; [done|]. unfold target. lia.
  - apply IH; [|done]. intros x Hi. apply Hx. by right.
Qed.

Lemma load_segments_other sgs : forall a v m x, Forall fits sgs -> ~ in_loaded sgs x -> load_segments cfg f true a sgs v m x = m x.
Proof.
  induction sgs as [|sg sgs IH]; intros a v m x Hf Hx; cbn [load_segments]; [done|]. rewrite IH; [|by apply Forall_inv_tail in Hf|by intros Hi; apply Hx; right].
  destruct (loaded sg) eqn:El; [|done]. destruct (Forall_inv Hf El) as (F1 & F2 & F3). pose proof (zlen_nonneg (sg_data sg)).
  assert (~ target sg x) as Ht by (intros Ht; apply Hx; by left). unfold target in Ht. apply load_words_other; lia.
Qed.

Lemma load_segments_holds sgs : forall a v m, Forall fits sgs -> apart_loaded sgs ->
  holds (fun src b => Z.lxor (view_ (src + b)) (obfs_byte v b)) a sgs (load_segments cfg f true a sgs v m).
Proof.
  induction sgs as [|sg sgs IH]; intros a v m Hf Ha; [done|]. destruct Ha as [Ha1 Ha2]. pose proof (Forall_inv_tail Hf) as Hf'. cbn [load_segments]. split; [|by apply IH].
  intros El b Hb. rewrite El. destruct (Forall_inv Hf El) as (F1 & F2 & F3).
  rewrite load_segments_other; [|done|apply Ha1; [done|unfold target; lia]]. apply load_words_byte; lia.
Qed.

Lemma load_segments_ok sgs : forall a v m, mem_ok m -> mem_ok (load_segments cfg f true a sgs v m).
Proof. induction sgs as [|sg sgs IH]; intros a v m Hm; cbn [load_segments]; [done|]. apply IH. destruct (loaded sg); [by apply load_words_ok|done]. Qed.

Lemma deobfuscate_cons sg sgs v m : deobfuscate cfg (seg_header <$> sg :: sgs) v m =
  deobfuscate cfg (seg_header <$> sgs) v (if loaded sg then deobfuscate_words (Z.to_nat (zlen (sg_data sg) / 4)) 0 (sg_addr sg) v m else m).
Proof. done. Qed.

Lemma deobfuscate_other sgs : forall v m x, Forall fits sgs -> ~ in_loaded sgs x -> deobfuscate cfg (seg_header <$> sgs) v m x = m x.
Proof.
  induction sgs as [|sg sgs IH]; intros v m x Hf Hx; [done|]. rewrite deobfuscate_cons. rewrite IH; [|by apply Forall_inv_tail in Hf|by intros Hi; apply Hx; right].
  destruct (loaded sg) eqn:El; [|done]. destruct (Forall_inv Hf El) as (F1 & F2 & F3). pose proof (zlen_nonneg (sg_data sg)).
  assert (~ target sg x) as Ht by (intros Ht; apply Hx; by left). unfold target in Ht. apply deobfuscate_words_other; lia.
Qed.

Lemma deobfuscate_holds sgs : forall a v m, mem_ok m -> Forall fits sgs -> apart_loaded sgs ->
  holds (fun src b => Z.lxor (view_ (src + b)) (obfs_byte v b)) a sgs m ->
  holds (fun src b => view_ (src + b)) a sgs (deobfuscate cfg (seg_header <$> sgs) v m).
Proof.
  induction sgs as [|sg sgs IH]; intros a v m Hm Hf Ha; [done|]. destruct Ha as [Ha1 Ha2]. pose proof (Forall_inv_tail Hf) as Hf'. rewrite deobfuscate_cons. intros [H1 H2]. split.
  - intros El b Hb. rewrite El. destruct (Forall_inv Hf El) as (F1 & F2 & F3).
    rewrite deobfuscate_other; [|done|apply Ha1; [done|unfold target; lia]]. rewrite deobfuscate_words_byte by (done || lia). rewrite H1 by done.
    by rewrite Z.lxor_assoc, Z.lxor_nilpotent, Z.lxor_0_r.
  - apply IH; [destruct (loaded sg); [by apply deobfuscate_words_ok|done]|done|done|]. apply loaded_frame with m; [|done]. intros x Hi.
    destruct (loaded sg) eqn:El; [|done]. destruct (Forall_inv Hf El) as (F1 & F2 & F3). pose proof (zlen_nonneg (sg_data sg)).
    assert (~ target sg x) as Ht by (intros Ht; by apply (Ha1 eq_refl x Ht)). unfold target in Ht. apply deobfuscate_words_other; lia.
Qed.

Lemma holds_segments n : forall a m, holds (fun src b => view_ (src + b)) a (segs_at cfg f n a) m ->
  Forall (fun sg => loaded sg = true -> read_bytes m (sg_addr sg) (length (sg_data sg)) = sg_data sg) (segs_at cfg f n a).
Proof.
  induction n as [|n IH]; intros a m; [constructor|]. cbn [segs_at]. intros [H1 H2]. constructor; [|by apply IH]. intros El. specialize (H1 El).
  unfold seg_at at 2 3. cbn [sg_data]. rewrite length_read_bytes. apply list_eq. intros i. pose proof (seg_at_len cfg f a) as Hlen.
  destruct (decide (i < Z.to_nat (load32 view_ (a + 4)))%nat) as [Hi|Hi].
  - rewrite !lookup_read_bytes by done. f_equal. apply H1. lia.
  - rewrite !lookup_ge_None_2 by (rewrite length_read_bytes; lia). done.
Qed.
End Load.

(** ** Loading *)

Section LoadImage.
Context {F : Type} `{FlashLaws F}.
Context (cfg : image_config) (sha256 : list Z -> list Z).
Context (verify_signature_block : list Z -> list Z -> esp_err_t * list Z) (random : Z * Z) (f : F).
Hypothesis free_pages : 2 <= bootloader_mmap_get_free_pages cfg < 2 ^ 16.
Hypothesis random_nonzero : fst random <> 0 /\ snd random <> 0.
Hypothesis sha256_length : forall l, length (sha256 l) = 32%nat.
Hypothesis no_signature : SECURE_BOOT_CHECK_SIGNATURE cfg = false.
Hypothesis no_debugger : ic_debugger cfg = false.
Hypothesis bootloader : BOOTLOADER_BUILD cfg = true.
Hypothesis validates : CONFIG_BOOTLOADER_SKIP_VALIDATE_ALWAYS cfg = false /\ CONFIG_BOOTLOADER_SKIP_VALIDATE_ON_POWER_ON cfg = false.
Hypothesis chip : chip_ok cfg.
Abbreviation load := (bootloader_load_image cfg sha256 verify_signature_block random f).

(** No byte of the bootloader's memory differs, on either bus. *)
Definition spares_bootloader (m m' : mem) : Prop := forall x y, m' x <> m x -> same_byte cfg x y -> ~ bootloader_memory cfg y.

Lemma load_mode part s : load (Some part) true s = image_load cfg sha256 verify_signature_block random f ESP_IMAGE_LOAD (Some part) true s.
Proof. destruct validates as [V1 V2]. unfold bootloader_load_image. by rewrite bootloader, V1, V2, andb_false_r. Qed.

Lemma load_mode_loads : mode_loads cfg ESP_IMAGE_LOAD = true.
Proof. unfold mode_loads. by rewrite bootloader. Qed.

Lemma segments_fit sgs : forall a, segments_ok cfg a sgs -> load_ok cfg true sgs -> Forall (fits cfg) sgs.
Proof.
  induction sgs as [|sg sgs IH]; intros a; [constructor|]. intros [[S1 S2 S3 S4 S5] Hs] Hl. pose proof (Forall_inv Hl) as Hl1. apply Forall_inv_tail in Hl.
  constructor; [|by apply IH with (a + zlen (segment_bytes sg))]. intros El. specialize (Hl1 El). pose proof (zlen_nonneg (sg_data sg)). unfold is_u32 in S1.
  split_and!; [lia| |by rewrite <- (Z_div_exact_full_2 _ 4)]. unfold load_check in Hl1. destruct (Z.ltb_spec 0 (zlen (sg_data sg))) as [Hn|Hn]; [|lia].
  apply (chip_ram_fits cfg chip free_pages (sg_addr sg) (zlen (sg_data sg)) 0); [lia|lia|done].
Qed.

Lemma segments_ok_in sgs sg : forall a, segments_ok cfg a sgs -> In sg sgs -> exists addr, segment_ok cfg addr sg.
Proof. induction sgs as [|sg' sgs IH]; intros a; [done|]. intros [Hs Hr] [->|Hin]; [by eexists|by apply (IH (a + zlen (segment_bytes sg')))]. Qed.

(** RAM after a successful load. *)
Lemma final_ram_spec part s s1 : at_ok cfg f true part -> hash_ok cfg sha256 f (pos_offset part) ->
  steps_done cfg random f true true (pos_offset part) (load_start s) s1 ->
  (forall x, ~ in_loaded cfg (segments_at cfg f (pos_offset part)) x -> final_ram cfg true s1 x = ld_ram s x) /\
  (mem_ok (ld_ram s) -> apart_loaded cfg (segments_at cfg f (pos_offset part)) ->
   Forall (fun sg => loads cfg true sg = true -> read_bytes (final_ram cfg true s1) (sg_addr sg) (length (sg_data sg)) = sg_data sg) (segments_at cfg f (pos_offset part))).
Proof.
  intros [A1 A2 A3 _ _] Hh [D1 _ D3 D4]. set (off := pos_offset part) in *. set (sgs := segments_at cfg f off) in *. pose proof (segments_fit sgs _ A2 A3) as Hf.
  assert (Et : take (Z.to_nat (segment_count (image (ld_data s1)))) (segments (ld_data s1)) = seg_header <$> sgs).
  { rewrite D1. destruct (metadata_at cfg sha256 f sha256_length off A1 A2 Hh) as (_ & _ & _ & E & _).
    change (ai_segments (image_at cfg f off)) with sgs in E. rewrite <- E. f_equal.
    change (image (image_at_metadata _ _ _ _ _)) with (header_at cfg f off). rewrite <- segments_at_zlen. unfold zlen. by rewrite Nat2Z.id. }
  cbn [ld_ram ram_obfs_value load_start set_checksum set_sha] in D3, D4. unfold final_ram. rewrite bootloader, Et, D4. cbn [andb]. split.
  - intros x Hx. destruct (_ && _); [rewrite deobfuscate_other by done|]; by rewrite load_segments_other by done.
  - intros Hm Ha. destruct D3 as [E|[E _]]; cycle 1.
    { apply Forall_forall. intros sg Hin _. assert (Hn : sg_data sg = []); [|by rewrite Hn].
      apply in_split in Hin as (l1 & l2 & El). rewrite El, fmap_app, concat_app in E. apply app_eq_nil in E as [_ E]. by apply app_eq_nil in E as [E _]. }
    assert (En : negb (fst (ram_obfs_value s1) =? 0) && negb (snd (ram_obfs_value s1) =? 0) = true).
    { rewrite E. unfold filled. rewrite bootloader. cbn [andb]. destruct random_nonzero as [N1%Z.eqb_neq N2%Z.eqb_neq].
      destruct (fst (ram_obfs_value s) =? 0) eqn:E1, (snd (ram_obfs_value s) =? 0) eqn:E2; cbn [orb]; by rewrite ?N1, ?N2, ?E1, ?E2. }
    rewrite En, E. apply holds_segments, deobfuscate_holds; [by apply load_segments_ok|done|done|by apply load_segments_holds].
Qed.

(** Loading the image of a partition, whatever it holds. *)
Lemma load_outcome part s : offset_ok (pos_offset part) -> pos_offset part <> ESP_BOOTLOADER_OFFSET cfg -> pos_size part <= SIXTEEN_MB ->
  match load (Some part) true s with
  | RET err s' =>
      spares_bootloader (ld_ram s) (ld_ram s') /\
      if is_ok err then
        at_ok cfg f true part /\ hash_ok cfg sha256 f (pos_offset part) /\
        metadata_of sha256 (pos_offset part) (image_at cfg f (pos_offset part)) (ld_data s') /\
        (mem_ok (ld_ram s) -> apart_loaded cfg (segments_at cfg f (pos_offset part)) ->
         Forall (fun sg => loads cfg true sg = true -> read_bytes (ld_ram s') (sg_addr sg) (length (sg_data sg)) = sg_data sg) (segments_at cfg f (pos_offset part)))
      else
        ld_data s' = zero_metadata /\
        (at_ok cfg f true part -> hash_ok cfg sha256 f (pos_offset part) -> ic_sha_ok cfg = true ->
         readable cfg f (pos_offset part) (pos_offset part + pos_size part) -> mappable cfg f (pos_offset part) (pos_offset part + pos_size part) -> False)
  | ABORT => exists sg, In sg (segments_at cfg f (pos_offset part)) /\ loads cfg true sg = true /\ load_check cfg sg = None /\
      sg_addr sg < 2 ^ 31 <= sg_addr sg + zlen (sg_data sg)
  | RESTART _ => False
  end.
Proof.
  intros Ho Hb Hsz. rewrite load_mode.
  pose proof (image_load_spec cfg sha256 verify_signature_block random f free_pages random_nonzero no_signature no_debugger ESP_IMAGE_LOAD part s
    ltac:(done) ltac:(intros _; by apply chip_ram_fits) Ho Hb Hsz) as P. rewrite load_mode_loads in P.
  assert (Hsafe : forall m m', safe_frame cfg true m m' -> spares_bootloader m m').
  { intros m m' Hs x y Hx Hxy. destruct (Hs x Hx) as (_ & lo & len & S1 & S2 & S3 & S4 & S5).
    pose proof (verify_range cfg chip lo len ltac:(lia) ltac:(lia)) as V. rewrite S5 in V. by apply (V x y). }
  destruct (image_load _ _ _ _ _ ESP_IMAGE_LOAD (Some part) true s) as [err s'| |]; [| |done]; cycle 1.
  { apply Exists_exists in P as (sg & Hin & Hl & (addr & [S1 _ _ S4 _]) & Hn). exists sg. do 3 (split; [done|]). unfold load_check in Hn.
    destruct (Z.ltb_spec 0 (zlen (sg_data sg))) as [Hpos|]; [|done]. pose proof (verify_range cfg chip (sg_addr sg) (zlen (sg_data sg)) S1 ltac:(lia)) as V. by rewrite Hn in V. }
  destruct (is_ok err); [|by destruct P as (Hz & Hf & Hc); split; [apply Hsafe|]].
  destruct P as (Ha & Hh & s1 & Hd & -> & _). destruct (final_ram_spec part s s1 Ha Hh Hd) as [F1 F2]. pose proof Ha as [A1 A2 A3 _ _]. split.
  - intros x y Hx Hxy Hbm. apply Hx. cbn [ld_ram set_ram]. apply F1. intros Hin. apply Exists_exists in Hin as (sg & Hin & Hl & Ht).
    pose proof (proj1 (List.Forall_forall _ _) A3 sg Hin Hl) as Hck. unfold target in Ht. unfold load_check in Hck. rewrite (proj2 (Z.ltb_lt 0 _)) in Hck by lia.
    destruct (segments_ok_in _ sg _ A2 Hin) as (addr & [S1 _ _ S4 _]). pose proof (verify_range cfg chip (sg_addr sg) (zlen (sg_data sg)) S1 ltac:(lia)) as V.
    rewrite Hck in V. by apply (V x y).
  - split_and!; [done|done| |done]. cbn [ld_data set_ram set_sha]. destruct Hd as [-> _ _ _]. by apply metadata_at.
Qed.

(** The image of the partition. *)
Lemma at_ok_holds part : offset_ok (pos_offset part) -> at_ok cfg f true part -> hash_ok cfg sha256 f (pos_offset part) ->
  holds_image cfg sha256 f part (image_at cfg f (pos_offset part)).
Proof. intros Ho [A1 A2 _ A4 A5] Hh. apply at_ok_image; [done| |done]. split; [done|done| |done|done]. apply Forall_forall. done. Qed.

(** C5: For a bootloader without signature checks and debugger that always
    validates images, with memory for hashing and at least two (and fewer than
    65536) free MMU pages, on a chip whose memory is laid out as chip_ok says
    (no inverted D/IRAM), and a partition at a word-aligned address below 2^32
    - 272 MB that does not lie at the offset of the bootloader and is at most
    16 MB long, with flash of the partition that can be read and mapped:
    bootloader_load_image succeeds for a well-formed image whose loaded
    segments have acceptable addresses and do not overlap; RAM then holds the
    data of every loaded segment, without the obfuscation, and nothing else in
    RAM has changed. *)
Theorem bootloader_load_image_loads part im s : mem_ok (ld_ram s) -> ic_sha_ok cfg = true ->
  offset_ok (pos_offset part) -> pos_offset part <> ESP_BOOTLOADER_OFFSET cfg -> pos_size part <= SIXTEEN_MB ->
  readable cfg f (pos_offset part) (pos_offset part + pos_size part) -> mappable cfg f (pos_offset part) (pos_offset part + pos_size part) ->
  holds_image cfg sha256 f part im -> load_ok cfg true (ai_segments im) -> apart_loaded cfg (ai_segments im) ->
  exists s', load (Some part) true s = RET ESP_OK s' /\ metadata_of sha256 (pos_offset part) im (ld_data s') /\
    Forall (fun sg => loads cfg true sg = true -> read_bytes (ld_ram s') (sg_addr sg) (length (sg_data sg)) = sg_data sg) (ai_segments im) /\
    (forall x, ~ in_loaded cfg (ai_segments im) x -> ld_ram s' x = ld_ram s x).
Proof.
  intros Hm Hsha Ho Hb Hsz Hr Hmap [Hi1 Hi2] Hl Hap. rewrite load_mode.
  destruct (image_at_ok cfg sha256 f sha256_length part im) as (-> & Ha & Hh); [by destruct Ho|done|done|].
  assert (Ha' : at_ok cfg f true part) by (by destruct Ha).
  pose proof (image_load_spec cfg sha256 verify_signature_block random f free_pages random_nonzero no_signature no_debugger ESP_IMAGE_LOAD part s
    ltac:(done) ltac:(intros _; by apply chip_ram_fits) Ho Hb Hsz) as P. rewrite load_mode_loads in P.
  destruct (image_load _ _ _ _ _ ESP_IMAGE_LOAD (Some part) true s) as [err s'| |]; [|exfalso|done]; cycle 1.
  { apply Exists_exists in P as (sg & Hin & Hl1 & _ & Hn). rewrite (proj1 (List.Forall_forall _ _) Hl sg Hin Hl1) in Hn. done. }
  destruct (is_ok_spec err) as [->|He]; [|by destruct P as (_ & _ & P); destruct P]. destruct P as (_ & _ & s1 & Hd & -> & _).
  exists (set_ram (final_ram cfg true s1) (set_sha None s1)). split; [done|]. destruct (final_ram_spec part s s1 Ha' Hh Hd) as [F1 F2].
  split_and!; [|by apply F2|done]. cbn [ld_data set_ram set_sha]. destruct Hd as [-> _ _ _]. destruct Ha as [A1 A2 _ _ _]. by apply metadata_at.
Qed.

(** C6: For a bootloader without signature checks and debugger that always
    validates images, with at least two (and fewer than 65536) free MMU pages,
    on a chip whose memory is laid out as chip_ok says (no inverted D/IRAM),
    and a partition at a word-aligned address below 2^32 - 272 MB that does
    not lie at the offset of the bootloader and is at most 16 MB long:
    whatever the partition holds, and whether or not it can be read,
    bootloader_load_image writes no byte that is, on the data or the
    instruction bus, part of the bootloader's stack, data or loading code; it
    succeeds only for a well-formed image, zeroes the metadata otherwise, and
    aborts only for a segment that crosses the address 0x80000000. (It does
    write outside when validation is switched off, or with inverted D/IRAM,
    see the findings.) *)
Theorem bootloader_load_image_safe part s : offset_ok (pos_offset part) -> pos_offset part <> ESP_BOOTLOADER_OFFSET cfg -> pos_size part <= SIXTEEN_MB ->
  match load (Some part) true s with
  | RET err s' =>
      spares_bootloader (ld_ram s) (ld_ram s') /\
      (if is_ok err then exists im, holds_image cfg sha256 f part im /\ metadata_of sha256 (pos_offset part) im (ld_data s')
       else ld_data s' = zero_metadata)
  | ABORT => exists sg, In sg (segments_at cfg f (pos_offset part)) /\ sg_addr sg < 2 ^ 31 <= sg_addr sg + zlen (sg_data sg)
  | RESTART _ => False
  end.
Proof.
  intros Ho Hb Hsz. pose proof (load_outcome part s Ho Hb Hsz) as P. destruct (load (Some part) true s) as [err s'| |]; [| |done].
  - destruct P as [P1 P2]. split; [done|]. destruct (is_ok err); [|by destruct P2]. destruct P2 as (Ha & Hh & Hm & _).
    exists (image_at cfg f (pos_offset part)). split; [by apply at_ok_holds|done].
  - destruct P as (sg & Hin & _ & _ & Hx). by exists sg.
Qed.
End LoadImage.

(** ** Example *)

Lemma xi_chip_ok sg : chip_ok (xi_cfg true sg).
Proof.
  split; cbn.
  - repeat constructor; cbn; lia.
  - repeat constructor; vm_compute; discriminate.
  - left. vm_compute. discriminate.
  - repeat constructor; unfold disjoint; cbn; lia.
  - done.
  - unfold proper; cbn; lia.
  - unfold within; cbn; lia.
  - unfold within; cbn; lia.
  - done.
  - unfold STACK_LOAD_HEADROOM. lia.
  - unfold proper; cbn; lia.
  - unfold proper; cbn; lia.
Qed.

Lemma xi_load_ok : load_ok (xi_cfg true false) true (ai_segments xi_image).
Proof. repeat constructor; vm_compute; congruence. Qed.

Lemma xi_apart : apart_loaded (xi_cfg true false) (ai_segments xi_image).
Proof.
  cbn [apart_loaded ai_segments xi_image]. split_and!; [| | |done]; intros Hl x Ht Hin; apply Exists_exists in Hin as (sg & Hin & _ & Ht2);
    unfold target, zlen in *; cbn in Hin; repeat destruct Hin as [<-|Hin]; cbn in *; lia.
Qed.

Lemma bootloader_load_image_loads_witness : exists s',
  bootloader_load_image (xi_cfg true false) xi_sha256 xi_signature xi_random xi_flash (Some xi_part) true xi_start = RET ESP_OK s' /\
  read_bytes (ld_ram s') 0x3FC80000 8 = [1; 2; 3; 4; 5; 6; 7; 8] /\ read_bytes (ld_ram s') 0x40390000 4 = [9; 10; 11; 12] /\
  ld_ram s' 0x4200003C = 0.
Proof.
  destruct (bootloader_load_image_loads (xi_cfg true false) xi_sha256 xi_signature xi_random xi_flash (xi_pages _ _) xi_random_nonzero xi_sha256_length eq_refl eq_refl eq_refl
    (conj eq_refl eq_refl) (xi_chip_ok false) xi_part xi_image xi_start) as (s' & E & _ & Hs & Hx).
  - intros x. split; [vm_compute; discriminate|reflexivity].
  - reflexivity.
  - apply xi_offset_ok.
  - discriminate.
  - vm_compute. discriminate.
  - apply xi_readable; [reflexivity|vm_compute; discriminate|vm_compute; discriminate].
  - apply xi_mappable; [reflexivity|vm_compute; discriminate|vm_compute; discriminate].
  - apply xi_holds.
  - apply xi_load_ok.
  - apply xi_apart.
  - exists s'. split; [exact E|]. split_and!.
    + apply (Forall_inv Hs). reflexivity.
    + apply (Forall_inv (Forall_inv_tail Hs)). reflexivity.
    + apply Hx. intros Hin. apply Exists_exists in Hin as (sg & Hin & Hl & Ht). unfold target, zlen in *. cbn in Hin.
      repeat destruct Hin as [<-|Hin]; cbn in Ht; try lia. discriminate Hl.
Defined.

Lemma bootloader_load_image_safe_witness :
  match bootloader_load_image (xi_cfg true false) xi_sha256 xi_signature xi_random xi_flash (Some xi_part) true xi_start with
  | RET err s' => spares_bootloader (xi_cfg true false) (ld_ram xi_start) (ld_ram s')
  | _ => False
  end.
Proof.
  pose proof (bootloader_load_image_safe (xi_cfg true false) xi_sha256 xi_signature xi_random xi_flash (xi_pages _ _) xi_random_nonzero xi_sha256_length eq_refl eq_refl eq_refl
    (conj eq_refl eq_refl) (xi_chip_ok false) xi_part xi_start xi_offset_ok ltac:(discriminate) ltac:(vm_compute; discriminate)) as P.
  destruct (bootloader_load_image _ _ _ _ _ _ _ _) as [err s'| |].
  - exact (proj1 P).
  - destruct P as (sg & Hin & H1). assert (Es : segments_at (xi_cfg true false) xi_flash (pos_offset xi_part) = ai_segments xi_image) by (vm_compute; reflexivity).
    rewrite Es in Hin. unfold zlen in H1. cbn in Hin. repeat destruct Hin as [<-|Hin]; cbn in H1; lia.
  - exact P.
Defined.
