(* ===== verification/ImageSignature.v ===== *)
(** * Signed images

    With signature checks [image_load] accepts only what the signature check
    accepted: the digest it was given is that of all bytes of the image. *)

From S2P Require Import Prelude CMem Crc Flash OtaData PartitionTable SecureVersion Bootloader BootTheorems Partitions PartitionTheorems ImageFormat ImageSegments ImageSpec ImageExample ImageVerify ImageTheorems LoadAddresses ImageLoad.

Section Signed.
Context {F : Type} `{FlashLaws F}.
Context (cfg : image_config) (sha256 : list Z -> list Z).
Context (verify_signature_block : list Z -> list Z -> esp_err_t * list Z) (random : Z * Z) (f : F).
Hypothesis free_pages : 2 <= bootloader_mmap_get_free_pages cfg < 2 ^ 16.
Hypothesis random_nonzero : fst random <> 0 /\ snd random <> 0.
Hypothesis checks_signature : SECURE_BOOT_CHECK_SIGNATURE cfg = true.
Hypothesis has_scheme : CONFIG_SECURE_BOOT cfg || CONFIG_SECURE_SIGNED_APPS_NO_SECURE_BOOT cfg = true.
Hypothesis no_debugger : ic_debugger cfg = false.
Abbreviation view_ := (img_view cfg f).

(** The length of what is signed: the image, and with secure boot V2 the rest
    of its last sector. *)
Definition signed_length (off : Z) : Z :=
  let e := off + length_at cfg f off in
  if CONFIG_SECURE_BOOT_V2_ENABLED cfg then sector_up e - off else length_at cfg f off.
Definition signed_bytes (off : Z) : list Z := read_bytes view_ off (Z.to_nat (signed_length off)).
(** The signature. *)
Definition signature_at (off : Z) : list Z :=
  if CONFIG_SECURE_SIGNED_APPS_ECDSA_SCHEME cfg then read_bytes view_ (off + length_at cfg f off) 68
  else read_bytes view_ (off + signed_length off) 4096.

Lemma mapped_bytes_inv a n s bs s' : mapped_bytes cfg f a n s = RET bs s' -> bs = read_bytes view_ a (Z.to_nat n) /\ s' = s.
Proof. unfold mapped_bytes. destruct (bootloader_mmap cfg f a n); [|done]. by intros [= <- <-]. Qed.

Lemma sha256_data_inv bs s u s' : bootloader_sha256_data cfg bs s = RET u s' -> exists d, ld_sha s = Some d /\ s' = set_sha (Some (d ++ bs)) s.
Proof.
  unfold bootloader_sha256_data, mbind, M_bind, gets, assert_, modify. destruct (ld_sha s) as [d|]; [|done].
  destruct (negb _ || _); [|done]. intros E. inversion E. subst. by exists d.
Qed.

(** Hashing what is mapped, under a condition. *)
Lemma hash_mapped_inv (b : bool) a n s u s' d : ld_sha s = Some d ->
  (if b then bs ← mapped_bytes cfg f a n; bootloader_sha256_data cfg bs else mret tt) s = RET u s' ->
  s' = set_sha (Some (d ++ (if b then read_bytes view_ a (Z.to_nat n) else []))) s.
Proof.
  intros Hd. destruct b.
  - intros E. apply bind_inv in E as (bs & s1 & E1 & E2). apply mapped_bytes_inv in E1 as [-> ->]. apply sha256_data_inv in E2 as (d' & E & ->).
    rewrite Hd in E. by injection E as <-.
  - intros E. inversion E. subst. rewrite app_nil_r. destruct s'; cbn in *. by subst.
Qed.

Lemma sha256_finish_inv s dg s' : bootloader_sha256_finish sha256 s = RET dg s' -> exists d, ld_sha s = Some d /\ dg = sha256 d /\ s' = set_sha None s.
Proof.
  unfold bootloader_sha256_finish, mbind, M_bind, gets, modify, mret, M_ret. destruct (ld_sha s) as [d|]; [|done]. intros E. injection E as <- <-. by exists d.
Qed.

(** What was hashed is what is signed. *)
Lemma signed_data off : 0 <= off -> 0 <= padded_at cfg f off -> off + length_at cfg f off + 4096 < 2 ^ 32 ->
  image_checksum (image_at cfg f off) = view_ (off + padded_at cfg f off - 1) ->
  let e := off + length_at cfg f off in
  (image_body (image_at cfg f off) ++ (if appended_at cfg f off then read_bytes view_ (u32 (e - HASH_LEN)) (Z.to_nat HASH_LEN) else [])) ++
  (if CONFIG_SECURE_BOOT_V2_ENABLED cfg && (e <? sector_up e) then read_bytes view_ e (Z.to_nat (sector_up e - e)) else []) = signed_bytes off.
Proof.
  intros Ho Hp Hw Hc e. assert (E1 : image_body (image_at cfg f off) ++ (if appended_at cfg f off then read_bytes view_ (u32 (e - HASH_LEN)) (Z.to_nat HASH_LEN) else []) =
    read_bytes view_ off (Z.to_nat (length_at cfg f off))).
  { rewrite image_body_at by done. unfold e, length_at, HASH_LEN in *. destruct (appended_at cfg f off); [|by rewrite Z.add_0_r, app_nil_r].
    rewrite u32_small, Z2Nat.inj_add, read_bytes_app by lia. do 2 f_equal. lia. }
  rewrite E1. assert (HL : 0 <= length_at cfg f off) by (unfold length_at, HASH_LEN; destruct (appended_at cfg f off); lia). destruct (sector_up_spec e) as [Su _]; [lia|lia|].
  unfold signed_bytes, signed_length. fold e. destruct (CONFIG_SECURE_BOOT_V2_ENABLED cfg); cbn [andb]; [|by rewrite app_nil_r].
  destruct (Z.ltb_spec e (sector_up e)) as [Hl|Hl].
  - replace (sector_up e - off) with (length_at cfg f off + (sector_up e - e)) by lia. rewrite Z2Nat.inj_add, read_bytes_app by lia. do 2 f_equal. lia.
  - rewrite app_nil_r. f_equal. lia.
Qed.

Lemma verify_signature_inv off s digest verified s' : offset_ok off -> header_ok cfg (header_at cfg f off) ->
  segments_ok cfg (off + HEADER_SIZE) (segments_at cfg f off) -> image_checksum (image_at cfg f off) = view_ (off + padded_at cfg f off - 1) ->
  ld_data s = image_at_metadata cfg f off (length_at cfg f off) (digest_at cfg f off) -> ld_sha s = Some (image_body (image_at cfg f off)) ->
  verify_secure_boot_signature cfg sha256 verify_signature_block f s = RET (ESP_OK, digest, verified) s' ->
  digest = sha256 (signed_bytes off) /\ verify_signature_block (signature_at off) digest = (ESP_OK, verified) /\ start_addr (ld_data s') = off.
Proof.
  intros (O1 & O2 & O3) Hh Hs Hc Hd Hsha. unfold verify_secure_boot_signature.
  destruct (unpadded_range cfg f off Hh Hs) as [U _]. destruct (padded_range cfg f off Hh Hs) as (P1 & _). unfold HEADER_SIZE, SIXTEEN_MB in *.
  assert (L : padded_at cfg f off <= length_at cfg f off <= padded_at cfg f off + 32).
  { unfold length_at, HASH_LEN. destruct (appended_at cfg f off); lia. }
  rewrite (bind_RET (gets ld_data) _ s (ld_data s) s) by done. rewrite Hd. change (image (image_at_metadata _ _ _ _ _)) with (header_at cfg f off).
  change (start_addr (image_at_metadata _ _ _ _ _)) with off. change (image_len (image_at_metadata cfg f off (length_at cfg f off) _)) with (length_at cfg f off).
  fold (appended_at cfg f off). rewrite has_scheme, (u32_small (off + length_at cfg f off)) by lia. set (e := off + length_at cfg f off) in *.
  destruct (sector_up_spec e) as [Su _]; [lia|lia|]. intros E. apply bind_inv in E as (u1 & s1 & E1 & E).
  apply (hash_mapped_inv _ _ _ _ _ _ _ Hsha) in E1 as ->. apply bind_inv in E as (u2 & s2 & E2 & E).
  match type of E2 with _ (set_sha (Some ?d) _) = _ => pose proof (hash_mapped_inv _ _ _ (set_sha (Some d) s) _ _ d eq_refl E2) as -> end. clear E2 u1 u2.
  set (body := image_body (image_at cfg f off)) in *.
  set (data := (body ++ _) ++ _) in E.
  apply bind_inv in E as (dg & s3 & E3 & E). apply sha256_finish_inv in E3 as (d & E3 & -> & ->). change (Some data = Some d) in E3. injection E3 as <-.
  destruct (bool_decide (sha256 data = verified_digest_init)); [done|]. apply bind_inv in E as (block & s4 & E4 & E).
  assert (Edata : data = signed_bytes off) by (apply signed_data; [lia|lia|lia|done]).
  assert (Ee : (if CONFIG_SECURE_BOOT_V2_ENABLED cfg && (e <? sector_up e) then sector_up e else e) = off + signed_length off).
  { unfold signed_length. fold e. destruct (CONFIG_SECURE_BOOT_V2_ENABLED cfg); cbn [andb]; [|done]. destruct (Z.ltb_spec e (sector_up e)); lia. }
  assert (Eblock : block = signature_at off).
  { unfold signature_at. destruct (CONFIG_SECURE_SIGNED_APPS_ECDSA_SCHEME cfg); apply mapped_bytes_inv in E4 as [-> _]; [done|]. by rewrite Ee. }
  destruct (verify_signature_block block (sha256 data)) as [err v] eqn:Ev. destruct (is_ok_spec err) as [->|]; cbn [negb] in E; [|by inversion E].
  apply bind_inv in E as (u & s5 & E5 & E). injection E as <- <- <-. rewrite <- Eblock, <- Edata. split_and!; [done|done|].
  assert (E6 : start_addr (ld_data s4) = off).
  { assert (s4 = set_sha None (set_sha (Some data) (set_sha (Some (body ++ (if appended_at cfg f off then read_bytes view_ (u32 (e - HASH_LEN)) (Z.to_nat HASH_LEN) else []))) s))) as ->.
    { destruct (CONFIG_SECURE_SIGNED_APPS_ECDSA_SCHEME cfg); by apply mapped_bytes_inv in E4 as [_ ->]. }
    cbn [ld_data set_sha]. by rewrite Hd. }
  destruct (CONFIG_SECURE_SIGNED_APPS_V2_SCHEME cfg); inversion E5; subst s5; exact E6.
Qed.

(** C7: With a signature scheme and signature checks, no debugger attached and
    at least two (and fewer than 65536) free MMU pages, in every mode but
    ESP_IMAGE_LOAD_NO_VALIDATE, for a partition of at most 16 MB at a word-
    aligned address below 2^32 - 272 MB that is not the bootloader's own under
    secure boot V1, and, when the mode loads, a chip on which no acceptable
    segment is longer than the mapping of flash (ram_fits): image_load
    succeeds only if the signature check accepted the signature block behind
    the image with the hash of exactly the bytes of the image (padded to a
    sector with secure boot V2), and, in the bootloader, with V2 only if
    secure boot is enabled in the eFuses, only if the digest that the check
    gives back equals that hash. *)
Theorem signed_images_only mode part s s' : mode <> ESP_IMAGE_LOAD_NO_VALIDATE -> (mode_loads cfg mode = true -> ram_fits cfg) ->
  offset_ok (pos_offset part) -> checks_hash cfg part = true -> pos_size part <= SIXTEEN_MB ->
  image_load cfg sha256 verify_signature_block random f mode (Some part) true s = RET ESP_OK s' ->
  exists verified, verify_signature_block (signature_at (pos_offset part)) (sha256 (signed_bytes (pos_offset part))) = (ESP_OK, verified) /\
    (BOOTLOADER_BUILD cfg = true ->
       (if CONFIG_SECURE_BOOT_V2_ENABLED cfg then ic_secure_boot_enabled cfg = true else pos_offset part <> ESP_BOOTLOADER_OFFSET cfg) ->
       verified = sha256 (signed_bytes (pos_offset part))) /\
    at_ok cfg f (mode_loads cfg mode) part.
Proof.
  intros Hmode Hfit Ho Hchk Hsz. rewrite image_load_verify, Hchk by done. set (off := pos_offset part) in *. set (dl := mode_loads cfg mode) in *.
  assert (Hbl : dl = true -> BOOTLOADER_BUILD cfg = true /\ ram_fits cfg) by (intros Hd; split; [by apply andb_true_iff in Hd as [? _]|by apply Hfit]).
  pose proof (load_steps_spec cfg random f free_pages random_nonzero dl true part (load_start s) Hbl Ho eq_refl eq_refl) as P.
  intros E. apply bind_inv in E as (err & s1 & E1 & E). rewrite E1 in P. destruct P as (_ & Hok & _).
  destruct (is_ok_spec err) as [->|He]; cbn [negb] in E; [|rewrite load_failed_spec in E by done; by injection E as ->].
  destruct (Hok eq_refl) as [Ha [D1 D2 _ _]]. fold off in D1, D2. pose proof Ha as [A1 A2 _ A4 _]. fold off in A1, A2, A4.
  unfold hashing in D2. rewrite checks_signature in D2. cbn [orb andb] in D2.
  apply bind_inv in E as (((err & digest) & verified) & s2 & E2 & E). apply bind_inv in E as (u & s3 & E3 & E). injection E3 as _ <-.
  destruct (is_ok_spec err) as [->|He]; cbn [negb] in E; [|rewrite load_failed_spec in E by done; by injection E as ->].
  unfold verify_hash_or_signature in E2. rewrite checks_signature, no_debugger, andb_false_r in E2. cbn [negb] in E2.
  destruct (verify_signature_inv off s1 digest verified s2) as (-> & Ev & Est); try done.
  exists verified. split_and!; [done| |done]. intros Hb Hs. unfold finish_load in E. apply bind_inv in E as (d & s4 & E4 & E). injection E4 as <- <-.
  rewrite Hb, checks_signature in E. cbn [andb] in E. change (start_addr (ld_data (set_sha None s2))) with (start_addr (ld_data s2)) in E. rewrite Est in E.
  destruct (CONFIG_SECURE_BOOT_V2_ENABLED cfg).
  - rewrite Hs in E. cbn [negb orb] in E. by case_bool_decide.
  - rewrite (proj2 (Z.eqb_neq _ _) Hs) in E. cbn [orb] in E. by case_bool_decide.
Qed.
End Signed.

(** ** Example *)

Definition xi_loaded : img := ex_result (image_load (xi_cfg true true) xi_sha256 xi_signature xi_random xi_flash ESP_IMAGE_LOAD (Some xi_part) true xi_start) xi_start.

Lemma xi_run_ok : image_load (xi_cfg true true) xi_sha256 xi_signature xi_random xi_flash ESP_IMAGE_LOAD (Some xi_part) true xi_start = RET ESP_OK xi_loaded.
Proof. apply ex_ret. vm_compute. reflexivity. Qed.

Lemma signed_images_only_witness : exists verified,
  xi_signature (repeat 0x5A 4096) (xi_sha256 (read_bytes (img_view (xi_cfg true true) xi_flash) 0x10000 4096)) = (ESP_OK, verified) /\
  verified = xi_sha256 (read_bytes (img_view (xi_cfg true true) xi_flash) 0x10000 4096).
Proof.
  destruct (signed_images_only (xi_cfg true true) xi_sha256 xi_signature xi_random xi_flash (xi_pages _ _) xi_random_nonzero eq_refl eq_refl eq_refl
    ESP_IMAGE_LOAD xi_part xi_start xi_loaded) as (v & E & Ev & _).
  - discriminate.
  - intros _. apply (chip_ram_fits _ (xi_chip_ok true) (xi_pages _ _)).
  - apply xi_offset_ok.
  - reflexivity.
  - vm_compute. discriminate.
  - exact xi_run_ok.
  - assert (Es : signed_length (xi_cfg true true) xi_flash (pos_offset xi_part) = 4096) by (vm_compute; reflexivity).
    assert (Eg : signature_at (xi_cfg true true) xi_flash (pos_offset xi_part) = repeat 0x5A 4096) by (vm_compute; reflexivity).
    unfold signed_bytes in E, Ev. rewrite Es in E, Ev. rewrite Eg in E. exists v. split; [exact E|]. apply Ev; reflexivity.
Defined.
