(* ===== verification/ImageUpdate.v ===== *)
(** * Updates with images

    The image verification that [esp_ota_end], [esp_ota_set_boot_partition]
    and the rollback functions of app_update call is [esp_image_verify]: an
    update ends with [ESP_OK] exactly if the partition then begins with a
    well-formed image. *)

From S2P Require Import Prelude CMem Crc Flash OtaData PartitionTable SecureVersion Bootloader BootTheorems Partitions PartitionTheorems OtaOps OtaBoot OtaUpdate.
From S2P Require Import ImageFormat ImageSegments ImageSpec ImageExample ImageVerify ImageTheorems.

Section Update.
Context {F E : Type} `{FlashLaws F} `{EfuseDev E}.
Context (cfg : part_config) (md5 : list Z -> list Z) (malloc : Z -> bool).
Context (phys_offs : Z) (bs : bootloader_state_t) (works : F -> Prop) (OF : ota_flash cfg bs works).
Context (p : partition_list_item_t) (good : F -> Prop) (UF : update_flash cfg p good).
Context (icfg : image_config) (sha256 : list Z -> list Z).
Context (verify_signature_block : list Z -> list Z -> esp_err_t * list Z) (random : Z * Z) (s_img : img).
Abbreviation st := (app_state F E).
Abbreviation P := (info p).
Abbreviation flash s := (ap_flash s DEFAULT_CHIP).

(** [esp_image_verify(ESP_IMAGE_VERIFY, pos, &data) == ESP_OK] *)
Definition verifies (f : F) (pos : esp_partition_pos_t) : bool :=
  match esp_image_verify icfg sha256 verify_signature_block random f ESP_IMAGE_VERIFY (Some pos) true s_img with
  | RET err _ => is_ok err
  | _ => false
  end.

(** The application: no signature checks, no debugger, memory for hashing,
    and flash of the partition that can be read and mapped. *)
Record verifier_ok : Prop := {
  vo_pages : 2 <= bootloader_mmap_get_free_pages icfg < 2 ^ 16;
  vo_random : fst random <> 0 /\ snd random <> 0;
  vo_sha256 : forall l, length (sha256 l) = 32%nat;
  vo_signature : SECURE_BOOT_CHECK_SIGNATURE icfg = false;
  vo_debugger : ic_debugger icfg = false;
  vo_memory : ic_sha_ok icfg = true;
  vo_encrypted : ic_encrypted icfg = encrypted P;
  vo_offset : offset_ok (address P);
  vo_bootloader : address P <> ESP_BOOTLOADER_OFFSET icfg;
  vo_size : size P <= SIXTEEN_MB;
  vo_readable : forall f, good f -> readable icfg f (address P) (address P + size P);
  vo_mappable : forall f, good f -> mappable icfg f (address P) (address P + size P)
}.
Context (VO : verifier_ok).

Lemma verifies_spec f : good f -> verifies f (pos_of P) = true <-> exists im, holds_image icfg sha256 f (pos_of P) im.
Proof.
  intros Hg. destruct VO as [V1 V2 V3 V4 V5 V6 _ V8 V9 V10 V11 V12]. unfold verifies, esp_image_verify.
  assert (Hl : mode_loads icfg ESP_IMAGE_VERIFY = false) by apply andb_false_r.
  pose proof (image_load_spec icfg sha256 verify_signature_block random f V1 V2 V4 V5 ESP_IMAGE_VERIFY (pos_of P) s_img ltac:(done) ltac:(by rewrite Hl) V8 V9 V10) as S.
  rewrite Hl in S. destruct (image_load _ _ _ _ f _ _ _ _) as [err s'| |]; [|by apply Exists_exists in S as (? & _ & ? & _)|done]. destruct (is_ok err).
  - split; [|done]. intros _. destruct S as (Ha & Hh & _). exists (image_at icfg f (address P)). by apply at_ok_image.
  - split; [done|]. intros (im & Hi1 & Hi2). destruct S as (_ & _ & Hc). pose proof V8 as (O1 & _).
    destruct (image_at_ok icfg sha256 f V3 (pos_of P) im O1 Hi1 Hi2) as (_ & Ha & Hh). exfalso. apply Hc; [done|done|done|by apply V11|by apply V12].
Qed.

End Update.

(** ** Example *)

Lemma xi_verifier : verifier_ok ex_dst ex_works (xi_cfg false false) xi_sha256 xi_random.
Proof.
  split; try done.
  - intros f Hf. by apply xi_readable.
  - intros f Hf. by apply xi_mappable.
Qed.

