(* ===== verification/ImageFaults.v ===== *)
(** * Images: limits

    Inputs on which the functions of esp_image_format.c do not do what their
    comments say. *)

From S2P Require Import Prelude CMem Crc Flash OtaData PartitionTable SecureVersion Bootloader BootTheorems Partitions PartitionTheorems.
From S2P Require Import ImageFormat ImageSegments ImageSpec ImageExample ImageVerify ImageTheorems LoadAddresses ImageLoad.

(** Flash with [bytes] at 0x10000. *)
Definition xi_flash_of (bytes : list Z) : nor :=
  mkNor (fun x => if (0x10000 <=? x) && (x <? 0x10000 + zlen bytes) then nth (Z.to_nat (x - 0x10000)) bytes 0 else 0xFF) 0x400000.

(** A header with [n] segments. *)
Definition xi_header (n : Z) : list Z :=
  [0xE9; n; 2; 0x20] ++ le32 0x40390000 ++ [0xEE; 0; 0; 0; 5; 0; 0; 0; 0; 0xFF; 0xFF; 0; 0; 0; 0; 0].

(** Seventeen empty segments: without verification the number of segments is
    not compared with the size of the array. *)
Definition xi_many : nor := xi_flash_of (xi_header 17 ++ segments_bytes (repeat (mkSegment 0 []) 17)).

Lemma get_metadata_overruns :
  esp_image_get_metadata (xi_cfg false false) xi_random xi_many (Some xi_part) true xi_start = ABORT /\
  bootloader_load_image_no_verify (xi_cfg true false) xi_sha256 xi_signature xi_random xi_many (Some xi_part) true xi_start = ABORT /\
  ex_value (esp_image_verify (xi_cfg false false) xi_sha256 xi_signature xi_random xi_many ESP_IMAGE_VERIFY (Some xi_part) true xi_start) = Some ESP_ERR_IMAGE_INVALID.
Proof. split_and!; vm_compute; reflexivity. Qed.

(** A segment of 8 bytes across 0x80000000 passes [verify_segment_header] and
    fails the assertion. *)
Definition xi_crossing : nor := xi_flash_of (xi_header 1 ++ segment_bytes (mkSegment 0x7FFFFFFC [0; 0; 0; 0; 0; 0; 0; 0])).

Lemma load_end_assertion_fails :
  verify_segment_header (xi_cfg true false) (mkSegHdr 0x7FFFFFFC 8) 0x10020 = ESP_OK /\
  verify_load_addresses (xi_cfg true false) 1 0x7FFFFFFC (0x7FFFFFFC + 8) = None /\
  bootloader_load_image (xi_cfg true false) xi_sha256 xi_signature xi_random xi_crossing (Some xi_part) true xi_start = ABORT.
Proof. split_and!; vm_compute; reflexivity. Qed.

(** D/IRAM of the ESP32, which is inverted: the last word of the data bus is
    the first of the instruction bus, and the window that is checked ends
    before it. *)
Definition xi_inverted : image_config :=
  mkImgCfg true false false false false false false false false 0x1000 0x8000 0 false false 3 false false false false
    (mkSoc (0x400D0000, 0x40400000) (0x3F400000, 0x3F800000) (0x3FFAE000, 0x40000000) (0x40080000, 0x400A0000)
       (0x400C0000, 0x400C2000) (0x3FF80000, 0x3FF82000) (0x50000000, 0x50002000) (0x3FFE0000, 0x40000000) (0x400A0000, 0x400C0000) true true true 0x3FFE3F20)
    0x3FFE3E00 (0x3FFF0000, 0x3FFF1000) (0x40078000, 0x40080000) 0x320000 16 (fun _ => true) true.

Lemma inverted_window_off_by_a_word :
  esp_ptr_diram_dram_to_iram xi_inverted 0x3FFFFFFC = 0x400A0000 /\
  other_bus (SOC_DIRAM_DRAM (ic_soc xi_inverted)) (esp_ptr_diram_dram_to_iram xi_inverted) 0x3FFFFFFC 0x40000000 = (0x4009FFFC, 0x400A0000) /\
  verify_load_addresses xi_inverted 1 0x3FFFFFFC 0x40000000 = Some true /\ verify_load_addresses xi_inverted 1 0x3FFFFFF8 0x40000000 = Some false.
Proof. split_and!; vm_compute; reflexivity. Qed.

(** A bootloader that checks signatures in the ECDSA scheme without secure boot in hardware:
    with a debugger attached the signature check is skipped, but not the
    comparison of the digests it would have computed. *)
Definition xi_debugged : image_config :=
  mkImgCfg true true false true false true false false false 0x1000 0x8000 5 false false 3 false true false false
    xi_soc 0x3FCDE000 (0x3FCD5000, 0x3FCD5F00) (0x403CE000, 0x403D0000) 0x7F0000 16 (fun _ => true) true.

Lemma debugger_resets :
  match bootloader_load_image xi_debugged xi_sha256 xi_signature xi_random xi_flash (Some xi_part) true xi_start with
  | RESTART _ => True
  | _ => False
  end.
Proof. by vm_compute. Qed.

(** After a verifying call the obfuscation value stays; a load without
    validation, which copies the segments as they are, then combines them
    with it. *)
Definition xi_after_verify : img :=
  ex_result (esp_image_verify (xi_cfg true false) xi_sha256 xi_signature xi_random xi_flash ESP_IMAGE_VERIFY (Some xi_part) true xi_start) xi_start.
Definition xi_plain : img :=
  ex_result (bootloader_load_image_no_verify (xi_cfg true false) xi_sha256 xi_signature xi_random xi_flash (Some xi_part) true xi_start) xi_start.
Definition xi_mixed : img :=
  ex_result (bootloader_load_image_no_verify (xi_cfg true false) xi_sha256 xi_signature xi_random xi_flash (Some xi_part) true xi_after_verify) xi_start.

Lemma unverified_load_deobfuscates :
  read_bytes (ld_ram xi_plain) 0x3FC80000 4 = [1; 2; 3; 4] /\
  read_bytes (ld_ram xi_mixed) 0x3FC80000 4 = le32 (Z.lxor 0x04030201 (snd xi_random)).
Proof. split; vm_compute; reflexivity. Qed.
