(* ===== verification/Mmu.v ===== *)
(** * The flash MMU of the ESP32-C3

    components/hal/mmu_hal.c over esp32c3/include/hal/mmu_ll.h, and the buses of
    cache_ll.h: a table of 128 entries maps pages of 64 KB of two windows of
    the address space, one for instructions and one for data, to flash.  The
    two windows share the table. *)

From S2P Require Import Prelude.

(** ** Constants *)

Definition MMU_PAGE_16KB : Z := 0x4000.
Definition MMU_PAGE_32KB : Z := 0x8000.
Definition MMU_PAGE_64KB : Z := 0x10000.
Definition MMU_INVALID : Z := 2 ^ 8.
Definition MMU_VALID : Z := 0.
Definition MMU_ACCESS_FLASH : Z := 0.
Definition MMU_VALID_VAL_MASK : Z := 0xFF.
Definition MMU_MAX_PADDR_PAGE_NUM : Z := 256.
Definition MMU_VADDR_MASK : Z := 0x7FFFFF.
Definition MMU_ENTRY_NUM : Z := 128.

Definition CACHE_BUS_IBUS0 : Z := 1.
Definition CACHE_BUS_DBUS0 : Z := 8.
Definition EXTMEM_ICACHE_SHUT_IBUS : Z := 1.
Definition EXTMEM_ICACHE_SHUT_DBUS : Z := 2.

Inductive mmu_target_t := MMU_TARGET_FLASH0 | MMU_TARGET_PSRAM0.

(** The table and the register EXTMEM_ICACHE_CTRL1_REG. *)
Record mmu_state := mkMmu { mmu_table : list Z; icache_ctrl1 : Z }.

Definition set_table (t : list Z) (m : mmu_state) : mmu_state := mkMmu t (icache_ctrl1 m).
Definition set_ctrl1 (r : Z) (m : mmu_state) : mmu_state := mkMmu (mmu_table m) r.

Abbreviation MM := (M mmu_state).

(** ** Registers *)

Definition ADDRESS_IN_IRAM0_CACHE (vaddr : Z) : bool := (0x42000000 <=? vaddr) && (vaddr <? 0x42800000).
Definition ADDRESS_IN_DRAM0_CACHE (vaddr : Z) : bool := (0x3C000000 <=? vaddr) && (vaddr <? 0x3C800000).

Definition mmu_ll_get_page_size : Z := MMU_PAGE_64KB.

Definition mmu_ll_check_valid_ext_vaddr_region (vaddr_start len : Z) : bool :=
  let vaddr_end := u32 (vaddr_start + len - 1) in
  (ADDRESS_IN_IRAM0_CACHE vaddr_start && ADDRESS_IN_IRAM0_CACHE vaddr_end)
  || (ADDRESS_IN_DRAM0_CACHE vaddr_start && ADDRESS_IN_DRAM0_CACHE vaddr_end).

Definition mmu_ll_get_entry_id (vaddr : Z) : Z := Z.shiftr (Z.land vaddr MMU_VADDR_MASK) 16.
Definition mmu_ll_format_paddr (paddr : Z) : Z := Z.shiftr paddr 16.

Definition mmu_ll_write_entry (entry_id mmu_val : Z) (target : mmu_target_t) : MM unit :=
  _ ← assert_ (match target with MMU_TARGET_FLASH0 => true | MMU_TARGET_PSRAM0 => false end);
  _ ← assert_ (entry_id <? MMU_ENTRY_NUM);
  modify (fun m => set_table (<[Z.to_nat entry_id := Z.lor (Z.lor mmu_val MMU_ACCESS_FLASH) MMU_VALID]> (mmu_table m)) m).

Definition mmu_ll_read_entry (entry_id : Z) : MM Z :=
  _ ← assert_ (entry_id <? MMU_ENTRY_NUM);
  gets (fun m => nth (Z.to_nat entry_id) (mmu_table m) 0).

Definition mmu_ll_set_entry_invalid (entry_id : Z) : MM unit :=
  _ ← assert_ (entry_id <? MMU_ENTRY_NUM);
  modify (fun m => set_table (<[Z.to_nat entry_id := MMU_INVALID]> (mmu_table m)) m).

Fixpoint unmap_loop (n : nat) (i : Z) : MM unit :=
  match n with
  | O => mret tt
  | S n => _ ← mmu_ll_set_entry_invalid i; unmap_loop n (i + 1)
  end.

Definition mmu_ll_unmap_all : MM unit := unmap_loop (Z.to_nat MMU_ENTRY_NUM) 0.

Definition mmu_ll_get_entry_is_invalid (entry_id : Z) : MM bool :=
  _ ← assert_ (entry_id <? MMU_ENTRY_NUM);
  gets (fun m => negb (Z.land (nth (Z.to_nat entry_id) (mmu_table m) 0) MMU_INVALID =? 0)).

Definition cache_ll_l1_get_bus (vaddr_start len : Z) : MM Z :=
  let vaddr_end := u32 (vaddr_start + len - 1) in
  if (0x42000000 <=? vaddr_start) && (vaddr_end <? 0x42800000) then mret CACHE_BUS_IBUS0
  else if (0x3C000000 <=? vaddr_start) && (vaddr_end <? 0x3C800000) then mret CACHE_BUS_DBUS0
  else abort.

(** [REG_CLR_BIT] *)
Definition clear_bits (mask r : Z) : Z := Z.ldiff r mask.

Definition cache_ll_l1_enable_bus (mask : Z) : MM unit :=
  _ ← assert_ (Z.land mask (Z.lor (Z.lor 2 4) (Z.lor 16 32)) =? 0);
  let ibus_mask := if negb (Z.land mask CACHE_BUS_IBUS0 =? 0) then EXTMEM_ICACHE_SHUT_IBUS else 0 in
  _ ← modify (fun m => set_ctrl1 (clear_bits ibus_mask (icache_ctrl1 m)) m);
  let dbus_mask := if negb (Z.land mask CACHE_BUS_DBUS0 =? 0) then EXTMEM_ICACHE_SHUT_DBUS else 0 in
  modify (fun m => set_ctrl1 (clear_bits dbus_mask (icache_ctrl1 m)) m).

(** ** mmu_hal.c, on one core *)

Definition mmu_hal_init : MM unit := mmu_ll_unmap_all.

Definition page_shift (page_size : Z) : MM Z :=
  if page_size =? MMU_PAGE_64KB then mret 16
  else if page_size =? MMU_PAGE_32KB then mret 15
  else if page_size =? MMU_PAGE_16KB then mret 14
  else abort.

Definition mmu_hal_pages_to_bytes (page_num : Z) : MM Z :=
  shift_code ← page_shift mmu_ll_get_page_size; mret (u32 (Z.shiftl page_num shift_code)).

Definition mmu_hal_bytes_to_pages (bytes : Z) : MM Z :=
  shift_code ← page_shift mmu_ll_get_page_size; mret (Z.shiftr bytes shift_code).

Fixpoint map_loop (page_num : nat) (page_size_in_bytes vaddr mmu_val : Z) (mem_type : mmu_target_t) : MM unit :=
  match page_num with
  | O => mret tt
  | S page_num =>
      let entry_id := mmu_ll_get_entry_id vaddr in
      _ ← mmu_ll_write_entry entry_id mmu_val mem_type;
      map_loop page_num page_size_in_bytes (u32 (vaddr + page_size_in_bytes)) (u32 (mmu_val + 1)) mem_type
  end.

(** The result is [*out_len]. *)
Definition mmu_hal_map_region (mem_type : mmu_target_t) (vaddr paddr len : Z) : MM Z :=
  page_size_in_bytes ← mmu_hal_pages_to_bytes 1;
  _ ← assert_ (vaddr mod page_size_in_bytes =? 0);
  _ ← assert_ (paddr mod page_size_in_bytes =? 0);
  max_paddr ← mmu_hal_pages_to_bytes MMU_MAX_PADDR_PAGE_NUM;
  _ ← assert_ (u32 (paddr + len - 1) <? max_paddr);
  _ ← assert_ (mmu_ll_check_valid_ext_vaddr_region vaddr len);
  let page_num := u32 (len + page_size_in_bytes - 1) / page_size_in_bytes in
  out_len ← mmu_hal_pages_to_bytes page_num;
  _ ← map_loop (Z.to_nat page_num) page_size_in_bytes vaddr (mmu_ll_format_paddr paddr) mem_type;
  mret out_len.

(** ** What the CPU sees

    An entry holds a page of flash, bit 8 marks it as invalid
    (ext_mem_defs.h).  [translate] is the flash address behind a virtual one,
    if its bus is enabled and its entry is valid. *)

Definition entry_of (m : mmu_state) (v : Z) : Z := nth (Z.to_nat (mmu_ll_get_entry_id v)) (mmu_table m) MMU_INVALID.

Definition bus_enabled (m : mmu_state) (v : Z) : bool :=
  if ADDRESS_IN_IRAM0_CACHE v then Z.land (icache_ctrl1 m) EXTMEM_ICACHE_SHUT_IBUS =? 0
  else if ADDRESS_IN_DRAM0_CACHE v then Z.land (icache_ctrl1 m) EXTMEM_ICACHE_SHUT_DBUS =? 0
  else false.

Definition translate (m : mmu_state) (v : Z) : option Z :=
  if bus_enabled m v && (Z.land (entry_of m v) MMU_INVALID =? 0)
  then Some (Z.land (entry_of m v) MMU_VALID_VAL_MASK * MMU_PAGE_64KB + v mod MMU_PAGE_64KB) else None.

Lemma entry_id_spec v : 0 <= v -> mmu_ll_get_entry_id v = v / 0x10000 mod 128.
Proof.
  intros Hv. unfold mmu_ll_get_entry_id, MMU_VADDR_MASK. change 0x7FFFFF with (Z.ones 23). rewrite Z.land_ones, Z.shiftr_div_pow2 by lia.
  change (2 ^ 23) with 0x800000. change (2 ^ 16) with 0x10000. Z.to_euclidean_division_equations; lia.
Qed.

Lemma page_entry e : 0 <= e < 256 -> Z.land e MMU_INVALID = 0 /\ Z.land e MMU_VALID_VAL_MASK = e.
Proof.
  intros He. split; [|unfold MMU_VALID_VAL_MASK; change 0xFF with (Z.ones 8); rewrite Z.land_ones by lia; apply Z.mod_small; lia].
  apply Z.bits_inj'. intros i Hi. rewrite Z.land_spec, Z.bits_0. unfold MMU_INVALID. rewrite Z.pow2_bits_eqb by lia.
  destruct (Z.eqb_spec 8 i) as [<-|]; [|apply andb_false_r]. by rewrite (high_bits_zero e 8) by lia.
Qed.

(** Consecutive pages of flash. *)
Definition pages (p : Z) (n : nat) : list Z := seqZ p (Z.of_nat n).

Lemma write_entry_spec i val m : 0 <= i < 128 ->
  mmu_ll_write_entry i val MMU_TARGET_FLASH0 m = RET tt (set_table (<[Z.to_nat i := val]> (mmu_table m)) m).
Proof.
  intros Hi. unfold mmu_ll_write_entry, MMU_ENTRY_NUM. rewrite (bind_RET (assert_ true) _ m tt m) by done.
  rewrite (bind_RET (assert_ _) _ m tt m) by (unfold assert_; by rewrite (proj2 (Z.ltb_lt _ _)) by lia).
  unfold modify, MMU_ACCESS_FLASH, MMU_VALID. by rewrite !Z.lor_0_r.
Qed.

Lemma map_loop_spec n : forall vaddr val m, 0 <= vaddr -> vaddr mod 0x10000 = 0 -> vaddr + 0x10000 * Z.of_nat n < 2 ^ 32 ->
  mmu_ll_get_entry_id vaddr + Z.of_nat n <= 128 -> 0 <= val -> val + Z.of_nat n <= 256 ->
  map_loop n 0x10000 vaddr val MMU_TARGET_FLASH0 m =
    RET tt (set_table (list_inserts (Z.to_nat (mmu_ll_get_entry_id vaddr)) (pages val n) (mmu_table m)) m).
Proof.
  induction n as [|n IH]; intros vaddr val m Hv Ha Hw Hid Hval Hmax; cbn [map_loop]; [by destruct m|].
  assert (Hr : 0 <= mmu_ll_get_entry_id vaddr < 128) by (rewrite entry_id_spec by done; apply Z.mod_pos_bound; lia).
  rewrite (bind_RET _ _ _ _ _ (write_entry_spec _ val m Hr)). rewrite !u32_small by lia.
  destruct n as [|n]; [by destruct m; cbn|].
  assert (Hn : mmu_ll_get_entry_id (vaddr + 0x10000) = mmu_ll_get_entry_id vaddr + 1).
  { rewrite !entry_id_spec in * by lia. replace ((vaddr + 0x10000) / 0x10000) with (vaddr / 0x10000 + 1) by (Z.to_euclidean_division_equations; lia).
    set (q := vaddr / 0x10000) in *. clearbody q. Z.to_euclidean_division_equations; lia. }
  rewrite IH; rewrite ?Hn; try lia; [|Z.to_euclidean_division_equations; lia].
  unfold set_table. cbn [mmu_table icache_ctrl1]. do 2 f_equal. unfold pages. rewrite (seqZ_cons val) by lia.
  replace (Z.pred (Z.of_nat (S (S n)))) with (Z.of_nat (S n)) by lia. rewrite Z.add_1_r. cbn [list_inserts].
  replace (Z.to_nat (Z.succ (mmu_ll_get_entry_id vaddr))) with (S (Z.to_nat (mmu_ll_get_entry_id vaddr))) by lia.
  symmetry. apply list_insert_inserts_lt. lia.
Qed.

(** What [mmu_hal_map_region] asserts. *)
Definition region_maps (vaddr paddr len : Z) : bool :=
  (vaddr mod 0x10000 =? 0) && (paddr mod 0x10000 =? 0) && (u32 (paddr + len - 1) <? 0x1000000) && mmu_ll_check_valid_ext_vaddr_region vaddr len.

Definition page_count (len : Z) : nat := Z.to_nat ((len + 0xFFFF) / 0x10000).

Definition with_region (vaddr paddr len : Z) (m : mmu_state) : mmu_state :=
  set_table (list_inserts (Z.to_nat (mmu_ll_get_entry_id vaddr)) (pages (paddr / 0x10000) (page_count len)) (mmu_table m)) m.

(** A region of the two windows: its address and length. *)
Lemma valid_region vaddr len : 0 <= vaddr < 2 ^ 32 -> 0 <= len < 2 ^ 25 -> mmu_ll_check_valid_ext_vaddr_region vaddr len = true ->
  exists w, (w = 0x42000000 \/ w = 0x3C000000) /\ w <= vaddr < w + 0x800000 /\ vaddr + len <= w + 0x800000.
Proof.
  intros Hv Hl. unfold mmu_ll_check_valid_ext_vaddr_region, ADDRESS_IN_IRAM0_CACHE, ADDRESS_IN_DRAM0_CACHE. rewrite orb_true_iff, !andb_true_iff, !Z.leb_le, !Z.ltb_lt.
  assert (Hu : vaddr < 0x42800000 -> u32 (vaddr + len - 1) = vaddr + len - 1 \/ vaddr + len = 0).
  { intros Hlt. destruct (decide (vaddr + len = 0)); [by right|]. left. apply u32_small. lia. }
  intros [H|H]; [exists 0x42000000|exists 0x3C000000]; (destruct Hu as [Hu|Hu]; [lia| |lia]); rewrite Hu in H; split_and!; auto; lia.
Qed.

Lemma entry_in_window w v : w = 0x42000000 \/ w = 0x3C000000 -> w <= v < w + 0x800000 -> mmu_ll_get_entry_id v = (v - w) / 0x10000.
Proof. intros Hw Hv. rewrite entry_id_spec by lia. destruct Hw as [->| ->]; Z.to_euclidean_division_equations; lia. Qed.

Lemma map_region_spec vaddr paddr len m : 0 <= vaddr < 2 ^ 32 -> 0 <= paddr -> 0 <= len < 2 ^ 25 -> paddr + len <= 2 ^ 32 ->
  mmu_hal_map_region MMU_TARGET_FLASH0 vaddr paddr len m =
    if region_maps vaddr paddr len then RET (0x10000 * Z.of_nat (page_count len)) (with_region vaddr paddr len m) else ABORT.
Proof.
  intros Hv Hp Hl Hs. unfold mmu_hal_map_region, region_maps.
  rewrite (bind_RET (mmu_hal_pages_to_bytes 1) _ m 0x10000 m) by done.
  destruct (Z.eqb_spec (vaddr mod 0x10000) 0) as [Ha|]; [|done]. rewrite (bind_RET (assert_ true) _ m tt m) by done.
  destruct (Z.eqb_spec (paddr mod 0x10000) 0) as [Hb|]; [|done]. rewrite (bind_RET (assert_ true) _ m tt m) by done.
  rewrite (bind_RET (mmu_hal_pages_to_bytes MMU_MAX_PADDR_PAGE_NUM) _ m 0x1000000 m) by done. cbn [andb].
  destruct (Z.ltb_spec (u32 (paddr + len - 1)) 0x1000000) as [Hc|]; [|done]. rewrite (bind_RET (assert_ true) _ m tt m) by done. cbn [andb].
  destruct (mmu_ll_check_valid_ext_vaddr_region vaddr len) eqn:Hd; [|done]. rewrite (bind_RET (assert_ true) _ m tt m) by done.
  destruct (valid_region vaddr len Hv Hl Hd) as (w & Hw & H1 & H2). rewrite !(u32_small (len + 0x10000 - 1)) by lia.
  replace (len + 0x10000 - 1) with (len + 0xFFFF) by lia. fold (page_count len). unfold mmu_hal_pages_to_bytes at 1.
  rewrite (bind_RET (_ ← page_shift _; _) _ m (0x10000 * Z.of_nat (page_count len)) m).
  2: { unfold page_count. rewrite Z2Nat.id by (apply Z.div_pos; lia). change (RET (u32 (Z.shiftl ((len + 0xFFFF) / 0x10000) 16)) m = RET (0x10000 * ((len + 0xFFFF) / 0x10000)) m).
       rewrite Z.shiftl_mul_pow2 by lia. f_equal. rewrite u32_small; Z.to_euclidean_division_equations; lia. }
  assert (Hn : 0x10000 * Z.of_nat (page_count len) < len + 0x10000 /\ len <= 0x10000 * Z.of_nat (page_count len))
    by (unfold page_count; rewrite Z2Nat.id by (apply Z.div_pos; lia); Z.to_euclidean_division_equations; lia).
  assert (Hmax : paddr / 0x10000 + Z.of_nat (page_count len) <= 256).
  { assert (paddr + len = 0 \/ paddr + len <= 0x1000000).
    { destruct (decide (paddr + len = 0)); [by left|right]. rewrite u32_small in Hc by lia. lia. }
    Z.to_euclidean_division_equations; lia. }
  assert (Hid : mmu_ll_get_entry_id vaddr = (vaddr - w) / 0x10000).
  { apply entry_in_window; [done|]. lia. }
  assert (mmu_ll_get_entry_id vaddr + Z.of_nat (page_count len) <= 128) by (rewrite Hid; destruct Hw as [->| ->]; Z.to_euclidean_division_equations; lia).
  unfold mmu_ll_format_paddr. rewrite Z.shiftr_div_pow2 by lia. change (2 ^ 16) with 0x10000.
  rewrite (bind_RET _ _ _ _ _ (map_loop_spec (page_count len) vaddr (paddr / 0x10000) m ltac:(lia) Ha ltac:(lia) ltac:(lia) ltac:(apply Z.div_pos; lia) Hmax)).
  done.
Qed.

Lemma page_count_bounds len : 0 <= len -> 0x10000 * Z.of_nat (page_count len) < len + 0x10000 /\ len <= 0x10000 * Z.of_nat (page_count len).
Proof. intros Hl. unfold page_count. rewrite Z2Nat.id by (apply Z.div_pos; lia). Z.to_euclidean_division_equations; lia. Qed.

(** The pages of a region that was mapped. *)
Lemma region_entry vaddr paddr len m v : 0 <= vaddr < 2 ^ 32 -> 0 <= paddr -> 0 <= len < 2 ^ 25 -> paddr + len <= 2 ^ 32 ->
  region_maps vaddr paddr len = true -> length (mmu_table m) = 128%nat -> vaddr <= v < vaddr + 0x10000 * Z.of_nat (page_count len) ->
  0 <= entry_of (with_region vaddr paddr len m) v < 256 /\
  entry_of (with_region vaddr paddr len m) v * 0x10000 + v mod 0x10000 = paddr + (v - vaddr) /\ bus_enabled m v = bus_enabled m vaddr.
Proof.
  intros Hv Hp Hl Hs Hm Ht Hin. unfold region_maps in Hm. apply andb_true_iff in Hm as [Hm Hd]. apply andb_true_iff in Hm as [Hm Hc]. apply andb_true_iff in Hm as [Ha Hb].
  apply Z.eqb_eq in Ha, Hb. apply Z.ltb_lt in Hc. destruct (valid_region vaddr len Hv Hl Hd) as (w & Hw & H1 & H2). pose proof (page_count_bounds len ltac:(lia)) as Hn.
  assert (Hlen : 0 < len) by lia. rewrite u32_small in Hc by lia.
  assert (Hend : vaddr + 0x10000 * Z.of_nat (page_count len) <= w + 0x800000) by (destruct Hw as [->| ->]; Z.to_euclidean_division_equations; lia).
  assert (Hpe : paddr + 0x10000 * Z.of_nat (page_count len) <= 0x1000000) by (Z.to_euclidean_division_equations; lia).
  pose proof (entry_in_window w vaddr Hw ltac:(lia)) as E1. pose proof (entry_in_window w v Hw ltac:(lia)) as E2.
  set (k := (v - vaddr) / 0x10000). assert (Hk : 0 <= k < Z.of_nat (page_count len)) by (unfold k; Z.to_euclidean_division_equations; lia).
  assert (Ev : mmu_ll_get_entry_id v = mmu_ll_get_entry_id vaddr + k) by (rewrite E1, E2; unfold k; destruct Hw as [->| ->]; Z.to_euclidean_division_equations; lia).
  assert (Hid : 0 <= mmu_ll_get_entry_id v < 128) by (rewrite E2; destruct Hw as [->| ->]; Z.to_euclidean_division_equations; lia).
  assert (Ee : entry_of (with_region vaddr paddr len m) v = paddr / 0x10000 + k).
  { unfold entry_of, with_region. cbn [mmu_table set_table]. apply nth_lookup_Some. rewrite Ev.
    assert (0 <= mmu_ll_get_entry_id vaddr) by (rewrite E1; destruct Hw as [->| ->]; Z.to_euclidean_division_equations; lia).
    rewrite list_lookup_inserts; unfold pages; rewrite ?length_seqZ; try lia.
    replace (Z.to_nat (mmu_ll_get_entry_id vaddr + k) - Z.to_nat (mmu_ll_get_entry_id vaddr))%nat with (Z.to_nat k) by lia.
    apply lookup_seqZ. lia. }
  rewrite Ee. split_and!; [unfold k; Z.to_euclidean_division_equations; lia..| |].
  - unfold k. Z.to_euclidean_division_equations; lia.
  - unfold bus_enabled, ADDRESS_IN_IRAM0_CACHE, ADDRESS_IN_DRAM0_CACHE.
    destruct Hw as [->| ->]; rewrite ?(proj2 (Z.leb_le 0x42000000 _)), ?(proj2 (Z.ltb_lt _ 0x42800000)) by lia; [done|].
    rewrite !(proj2 (Z.leb_gt 0x42000000 _)), !(proj2 (Z.leb_le 0x3C000000 _)), !(proj2 (Z.ltb_lt _ 0x3C800000)) by lia. done.
Qed.

Lemma region_other vaddr paddr len m v : 0 <= mmu_ll_get_entry_id vaddr -> 0 <= mmu_ll_get_entry_id v ->
  mmu_ll_get_entry_id v < mmu_ll_get_entry_id vaddr \/ mmu_ll_get_entry_id vaddr + Z.of_nat (page_count len) <= mmu_ll_get_entry_id v ->
  entry_of (with_region vaddr paddr len m) v = entry_of m v.
Proof.
  intros H0 H1 Ho. unfold entry_of, with_region. cbn [mmu_table set_table].
  rewrite !nth_lookup. f_equal. destruct Ho as [Ho|Ho]; [apply list_lookup_inserts_lt; lia|apply list_lookup_inserts_ge]. unfold pages. rewrite length_seqZ. lia.
Qed.

Lemma unmap_loop_spec n : forall i m, 0 <= i -> i + Z.of_nat n <= 128 ->
  unmap_loop n i m = RET tt (set_table (list_inserts (Z.to_nat i) (replicate n MMU_INVALID) (mmu_table m)) m).
Proof.
  induction n as [|n IH]; intros i m Hi Hn; cbn [unmap_loop]; [by destruct m|].
  unfold mmu_ll_set_entry_invalid, MMU_ENTRY_NUM. unfold mbind at 1, M_bind at 1. rewrite (bind_RET (assert_ _) _ m tt m) by (unfold assert_; by rewrite (proj2 (Z.ltb_lt _ _)) by lia).
  unfold modify. rewrite IH by lia. unfold set_table. cbn [mmu_table icache_ctrl1 replicate list_inserts]. do 2 f_equal.
  replace (Z.to_nat (i + 1)) with (S (Z.to_nat i)) by lia. symmetry. apply list_insert_inserts_lt. lia.
Qed.

(** The table without any valid entry. *)
Definition unmapped : list Z := replicate 128 MMU_INVALID.

Lemma mmu_hal_init_spec m : length (mmu_table m) = 128%nat -> mmu_hal_init m = RET tt (set_table unmapped m).
Proof.
  intros Ht. unfold mmu_hal_init, mmu_ll_unmap_all. rewrite unmap_loop_spec by done. do 2 f_equal.
  apply list_eq_same_length with (n := 128%nat); [done|by rewrite length_inserts|]. intros i x y Hi Hx Hy.
  change (Z.to_nat 0) with 0%nat in Hx. change (Z.to_nat MMU_ENTRY_NUM) with 128%nat in Hx. rewrite list_lookup_inserts in Hx by (rewrite ?length_replicate; lia).
  rewrite Nat.sub_0_r in Hx. unfold unmapped in Hy. congruence.
Qed.
