(* ===== verification/BootStart.v ===== *)
(** * Starting the application

    The end of components/bootloader_support/src/bootloader_utility.c: the
    image of a partition is loaded ([bootloader_load_image] of [ImageFormat]),
    the segments that stay in flash are mapped by the MMU, and the application
    is entered.  The whole bootloader is a computation on [boot_run], the
    state of [Bootloader], of the image loader and of the MMU; it returns the
    entry address of the application that is started, and [RESTART] is
    [bootloader_reset].  The build has neither secure boot nor flash
    encryption to be enabled by the bootloader, and one core. *)

From S2P Require Import Prelude CMem Crc Flash OtaData PartitionTable SecureVersion Bootloader Mmu ImageFormat.

Definition MMU_FLASH_MASK : Z := Z.lnot (SPI_FLASH_MMU_PAGE_SIZE - 1).

(** Address in flash, load address and size of what is mapped. *)
Record flash_map := mkMap { map_addr : Z; map_load_addr : Z; map_size : Z }.
Definition no_map : flash_map := mkMap 0 0 0.

Section Start.
Context (icfg : image_config).

(** One pass of the loop that looks for the DROM and IROM segments. *)
Definition find_segment (data : esp_image_metadata_t) (maps : flash_map * flash_map) (i : nat) : flash_map * flash_map :=
  let header := nth i (segments data) (mkSegHdr 0 0) in
  let m := mkMap (nth i (segment_data data) 0) (load_addr header) (data_len header) in
  let '(drom, irom) := maps in
  (if in_range_ (SOC_DROM (ic_soc icfg)) (load_addr header) then m else drom,
   if in_range_ (SOC_IROM (ic_soc icfg)) (load_addr header) then m else irom).

Definition set_cache_and_start_app (drom irom : flash_map) (entry_addr : Z) : MM Z :=
  _ ← mmu_hal_init;
  let drom_load_addr_aligned := Z.land (map_load_addr drom) MMU_FLASH_MASK in
  let drom_addr_aligned := Z.land (map_addr drom) MMU_FLASH_MASK in
  let drom_size := u32 (map_load_addr drom - drom_load_addr_aligned + map_size drom) in
  _ ← mmu_hal_map_region MMU_TARGET_FLASH0 drom_load_addr_aligned drom_addr_aligned drom_size;
  let irom_load_addr_aligned := Z.land (map_load_addr irom) MMU_FLASH_MASK in
  let irom_addr_aligned := Z.land (map_addr irom) MMU_FLASH_MASK in
  let irom_size := u32 (map_load_addr irom - irom_load_addr_aligned + map_size irom) in
  _ ← mmu_hal_map_region MMU_TARGET_FLASH0 irom_load_addr_aligned irom_addr_aligned irom_size;
  bus_mask ← cache_ll_l1_get_bus drom_load_addr_aligned drom_size;
  _ ← cache_ll_l1_enable_bus bus_mask;
  bus_mask ← cache_ll_l1_get_bus irom_load_addr_aligned irom_size;
  _ ← cache_ll_l1_enable_bus bus_mask;
  mret entry_addr.

Definition unpack_load_app (data : esp_image_metadata_t) : MM Z :=
  let '(drom, irom) := fold_left (find_segment data) (seq 0 (Z.to_nat (segment_count (image data)))) (no_map, no_map) in
  set_cache_and_start_app drom irom (entry_addr (image data)).
End Start.

(** ** The bootloader *)

Record boot_run (F E : Type) := mkRun { r_boot : boot_state F E; r_img : img; r_mmu : mmu_state }.
Arguments mkRun {F E}.
Arguments r_boot {F E}.
Arguments r_img {F E}.
Arguments r_mmu {F E}.

Section Run.
Context {F E : Type} `{FlashDev F} `{EfuseDev E}.
Context (cfg : boot_config) (md5 : list Z -> list Z).
Context (icfg : image_config) (sha256 : list Z -> list Z).
Context (verify_signature_block : list Z -> list Z -> esp_err_t * list Z) (random : Z * Z).
(** [bootloader_common_check_long_hold_gpio_level] of the two pins, if the
    functions are configured. *)
Context (factory_reset : option (M (boot_run F E) unit)) (app_test_held : bool).

Abbreviation run := (boot_run F E).
Abbreviation M := (M run).

Definition on_boot {A} (f : boot_state F E -> A * boot_state F E) : M A :=
  fun s => let '(a, b) := f (r_boot s) in RET a (mkRun b (r_img s) (r_mmu s)).
Definition on_img {A} (m : F -> Prelude.M img A) : M A := fun s =>
  match m (bt_flash (r_boot s)) (r_img s) with
  | RET a i => RET a (mkRun (r_boot s) i (r_mmu s))
  | ABORT => ABORT
  | RESTART i => RESTART (mkRun (r_boot s) i (r_mmu s))
  end.
Definition on_mmu {A} (m : MM A) : M A := fun s =>
  match m (r_mmu s) with
  | RET a t => RET a (mkRun (r_boot s) (r_img s) t)
  | ABORT => ABORT
  | RESTART t => RESTART (mkRun (r_boot s) (r_img s) t)
  end.
Definition bootloader_reset {A} : M A := fun s => RESTART s.

Definition run_load_partition (partition : esp_partition_pos_t) : M bool :=
  if pos_size partition =? 0 then mret false
  else
    err ← on_img (fun f => bootloader_load_image icfg sha256 verify_signature_block random f (Some partition) true);
    mret (is_ok err).

(** [load_image] of the loaded partition; it does not return. *)
Definition load_image : M Z :=
  data ← gets (fun s => ld_data (r_img s)); on_mmu (unpack_load_app icfg data).

(** [check_anti_rollback(part) && try_load_partition(part, &image_data)]; the
    application is then started, after [before]. *)
Definition run_partition (part : esp_partition_pos_t) (before : boot_state F E -> boot_state F E) : M (option Z) :=
  ok ← gets (fun s => check_anti_rollback cfg (r_boot s) part);
  if negb ok then mret None
  else
    loaded ← run_load_partition part;
    if negb loaded then mret None
    else _ ← on_boot (fun b => (tt, before b)); entry ← load_image; mret (Some entry).

(** The two loops over partition indices. *)
Fixpoint run_indices (bs : bootloader_state_t) (l : list Z) : M (option Z) :=
  match l with
  | [] => mret None
  | index :: l =>
      let part := index_to_partition bs index in
      if pos_size part =? 0 then run_indices bs l
      else
        r ← run_partition part (set_actual_ota_seq cfg bs index);
        match r with Some entry => mret (Some entry) | None => run_indices bs l end
  end.

(** [bzero(&image_data, sizeof(esp_image_metadata_t))] *)
Definition zero_image_data : M unit := modify (fun s => mkRun (r_boot s) (set_data zero_metadata (r_img s)) (r_mmu s)).

Definition run_boot_image (bs : bootloader_state_t) (start_index : Z) : M Z :=
  _ ← zero_image_data;
  if start_index =? TEST_APP_INDEX then
    r ← run_partition (bs_test bs) id;
    match r with Some entry => mret entry | None => bootloader_reset end
  else
    r ← run_indices bs (indices_down start_index);
    match r with
    | Some entry => mret entry
    | None =>
        r ← run_indices bs (indices_up bs start_index);
        match r with
        | Some entry => mret entry
        | None =>
            r ← run_partition (bs_test bs) id;
            match r with
            | Some entry => mret entry
            | None => _ ← zero_image_data; bootloader_reset
            end
        end
    end.

(** The application before deep sleep is started again, without validation. *)
Definition bootloader_utility_load_boot_image_from_deep_sleep : M (option Z) :=
  if negb (ic_deep_sleep icfg) then mret None
  else
    partition ← gets (fun s => bootloader_common_get_rtc_retain_mem_partition (bt_rtc (r_boot s)));
    match partition with
    | None => mret None
    | Some partition =>
        err ← on_img (fun f => bootloader_load_image_no_verify icfg sha256 verify_signature_block random f (Some partition) true);
        if negb (is_ok err) then mret None
        else
          _ ← on_boot (fun b => (tt, set_rtc (bootloader_common_update_rtc_retain_mem None true (bt_rtc b)) b));
          entry ← load_image; mret (Some entry)
    end.

Definition select_index (bs : bootloader_state_t) : M Z := fun s =>
  match bootloader_utility_get_selected_boot_partition cfg bs (r_boot s) with
  | Some (index, b) => RET index (mkRun b (r_img s) (r_mmu s))
  | None => ABORT
  end.

(** bootloader_start.c; [factory_reset] erases the partitions of the
    configuration when its pin is held. *)
Definition selected_boot_partition (bs : bootloader_state_t) : M Z :=
  boot_index ← select_index bs;
  if boot_index =? INVALID_INDEX then mret boot_index
  else if ic_deep_sleep icfg then mret boot_index
  else
    match factory_reset with
    | Some erase => _ ← erase; select_index bs
    | None =>
        if app_test_held then mret (if negb (pos_offset (bs_test bs) =? 0) then TEST_APP_INDEX else INVALID_INDEX)
        else mret boot_index
    end.

Definition select_partition_number : M (Z * bootloader_state_t) :=
  f ← gets (fun s => bt_flash (r_boot s));
  let '(ok, bs) := bootloader_utility_load_partition_table cfg md5 f bs_zero in
  if negb ok then mret (INVALID_INDEX, bs)
  else index ← selected_boot_partition bs; mret (index, bs).

Definition call_start_cpu0 : M Z :=
  r ← (if CONFIG_BOOTLOADER_SKIP_VALIDATE_IN_DEEP_SLEEP cfg then bootloader_utility_load_boot_image_from_deep_sleep else mret None);
  match r with
  | Some entry => mret entry
  | None =>
      r ← select_partition_number;
      let '(boot_index, bs) := r in
      if boot_index =? INVALID_INDEX then bootloader_reset
      else run_boot_image bs boot_index
  end.
End Run.
