(* ===== verification/BootStartTheorems.v ===== *)
(** * The bootloader starts verified applications

    An application that is started sees its mapped segments through the MMU
    and its loaded segments in RAM; the bootloader with the real image loader
    refines the boot of [Bootloader], in which loading is a predicate. *)

From S2P Require Import Prelude CMem Crc Flash OtaData PartitionTable SecureVersion Bootloader BootTheorems Mmu ImageFormat BootStart.
From S2P Require Import Partitions ImageSegments ImageSpec ImageExample ImageVerify ImageTheorems LoadAddresses ImageLoad.

(** ** Mapping *)

Definition page_down (a : Z) : Z := a / 0x10000 * 0x10000.

Lemma land_mask a : Z.land a MMU_FLASH_MASK = page_down a.
Proof.
  unfold MMU_FLASH_MASK, page_down. change (SPI_FLASH_MMU_PAGE_SIZE - 1) with (Z.ones 16).
  by rewrite <- Z.ldiff_land, Z.ldiff_ones_r, Z.shiftr_div_pow2, Z.shiftl_mul_pow2 by lia.
Qed.

Lemma page_down_bounds a : 0 <= a -> 0 <= page_down a <= a /\ page_down a mod 0x10000 = 0 /\ a = page_down a + a mod 0x10000.
Proof. intros Ha. unfold page_down. Z.to_euclidean_division_equations; lia. Qed.

(** The length of what is mapped, from the start of the first page. *)
Definition map_len (mp : flash_map) : Z := map_load_addr mp mod 0x10000 + map_size mp.
Definition can_map (mp : flash_map) : bool := region_maps (page_down (map_load_addr mp)) (page_down (map_addr mp)) (map_len mp).
Definition map_in (mp : flash_map) : mmu_state -> mmu_state := with_region (page_down (map_load_addr mp)) (page_down (map_addr mp)) (map_len mp).

Record sized (mp : flash_map) : Prop := {
  sz_addr : 0 <= map_addr mp /\ map_addr mp + 2 * SIXTEEN_MB <= 2 ^ 32;
  sz_load : is_u32 (map_load_addr mp);
  sz_size : 0 <= map_size mp < SIXTEEN_MB
}.

Lemma map_len_range mp : sized mp -> 0 <= map_len mp < 2 ^ 25.
Proof. intros [_ _ H]. unfold map_len, SIXTEEN_MB in *. pose proof (Z.mod_pos_bound (map_load_addr mp) 0x10000). lia. Qed.

Lemma map_region_ok mp m : sized mp ->
  mmu_hal_map_region MMU_TARGET_FLASH0 (page_down (map_load_addr mp)) (page_down (map_addr mp)) (map_len mp) m =
    if can_map mp then RET (0x10000 * Z.of_nat (page_count (map_len mp))) (map_in mp m) else ABORT.
Proof.
  intros Hs. pose proof (map_len_range mp Hs) as Hl. destruct Hs as [H1 H2 H3]. unfold is_u32 in H2.
  pose proof (page_down_bounds (map_load_addr mp)). pose proof (page_down_bounds (map_addr mp)). unfold SIXTEEN_MB in *.
  apply map_region_spec; unfold map_len in *; pose proof (Z.mod_pos_bound (map_load_addr mp) 0x10000); lia.
Qed.

(** The bus of an address, and enabling it. *)
Definition bus_bit (v : Z) : Z := if ADDRESS_IN_IRAM0_CACHE v then EXTMEM_ICACHE_SHUT_IBUS else EXTMEM_ICACHE_SHUT_DBUS.
Definition enable (v : Z) (m : mmu_state) : mmu_state := set_ctrl1 (Z.ldiff (icache_ctrl1 m) (bus_bit v)) m.

Lemma enable_bus_ok vaddr len m : 0 <= vaddr < 2 ^ 32 -> 0 <= len < 2 ^ 25 -> mmu_ll_check_valid_ext_vaddr_region vaddr len = true ->
  (bus_mask ← cache_ll_l1_get_bus vaddr len; cache_ll_l1_enable_bus bus_mask) m = RET tt (enable vaddr m).
Proof.
  intros Hv Hl Hc. destruct (valid_region vaddr len Hv Hl Hc) as (w & Hw & H1 & H2).
  assert (Hu : u32 (vaddr + len - 1) = vaddr + len - 1) by (apply u32_small; lia). unfold cache_ll_l1_get_bus, enable, bus_bit, ADDRESS_IN_IRAM0_CACHE. rewrite Hu.
  destruct Hw as [->| ->].
  - rewrite !(proj2 (Z.leb_le 0x42000000 _)), !(proj2 (Z.ltb_lt _ 0x42800000)) by lia. cbn [andb].
    change (RET tt (set_ctrl1 (Z.ldiff (Z.ldiff (icache_ctrl1 m) 1) 0) m) = RET tt (set_ctrl1 (Z.ldiff (icache_ctrl1 m) 1) m)). by rewrite Z.ldiff_0_r.
  - rewrite !(proj2 (Z.leb_gt 0x42000000 _)), !(proj2 (Z.leb_le 0x3C000000 _)), !(proj2 (Z.ltb_lt _ 0x3C800000)) by lia. cbn [andb].
    change (RET tt (set_ctrl1 (Z.ldiff (Z.ldiff (icache_ctrl1 m) 0) 2) m) = RET tt (set_ctrl1 (Z.ldiff (icache_ctrl1 m) 2) m)). by rewrite Z.ldiff_0_r.
Qed.

Lemma enable_keeps v w m : bus_enabled m w = true -> bus_enabled (enable v m) w = true.
Proof.
  assert (K : forall b c, Z.land (icache_ctrl1 m) c = 0 -> Z.land (Z.ldiff (icache_ctrl1 m) b) c = 0).
  { intros b c Hz. by rewrite Z.ldiff_land, <- Z.land_assoc, (Z.land_comm _ c), Z.land_assoc, Hz. }
  unfold bus_enabled, enable. cbn [icache_ctrl1 set_ctrl1]. destruct (ADDRESS_IN_IRAM0_CACHE w); [|destruct (ADDRESS_IN_DRAM0_CACHE w); [|done]];
    rewrite !Z.eqb_eq; apply K.
Qed.

Lemma enable_enabled v m : ADDRESS_IN_IRAM0_CACHE v || ADDRESS_IN_DRAM0_CACHE v = true -> bus_enabled (enable v m) v = true.
Proof.
  intros Hv. unfold bus_enabled, enable, bus_bit. cbn [icache_ctrl1 set_ctrl1]. destruct (ADDRESS_IN_IRAM0_CACHE v); [|destruct (ADDRESS_IN_DRAM0_CACHE v); [|done]];
    apply Z.eqb_eq, Z.land_ldiff.
Qed.

(** The MMU when the application starts. *)
Definition started_mmu (drom irom : flash_map) (m : mmu_state) : mmu_state :=
  enable (page_down (map_load_addr irom)) (enable (page_down (map_load_addr drom)) (map_in irom (map_in drom (set_table unmapped m)))).

Lemma set_cache_spec drom irom entry m : sized drom -> sized irom -> length (mmu_table m) = 128%nat ->
  set_cache_and_start_app drom irom entry m = if can_map drom && can_map irom then RET entry (started_mmu drom irom m) else ABORT.
Proof.
  intros Hd Hi Hm. unfold set_cache_and_start_app. rewrite (bind_RET _ _ _ _ _ (mmu_hal_init_spec m Hm)). rewrite !land_mask.
  assert (Hsz : forall mp, sized mp -> u32 (map_load_addr mp - page_down (map_load_addr mp) + map_size mp) = map_len mp).
  { intros mp Hs. pose proof (map_len_range mp Hs) as Hl. destruct Hs as [H1 H2 H3]. unfold is_u32 in H2. destruct (page_down_bounds (map_load_addr mp)) as (B1 & B2 & B3); [lia|].
    unfold map_len in *. rewrite u32_small; lia. }
  rewrite !Hsz by done. unfold mbind at 1, M_bind at 1. rewrite (map_region_ok drom) by done. destruct (can_map drom) eqn:Cd; [|done]. cbn [andb].
  unfold mbind at 1, M_bind at 1. rewrite (map_region_ok irom) by done. destruct (can_map irom) eqn:Ci; [|done].
  assert (Hb : forall mp m, sized mp -> can_map mp = true ->
    (bus_mask ← cache_ll_l1_get_bus (page_down (map_load_addr mp)) (map_len mp); cache_ll_l1_enable_bus bus_mask) m = RET tt (enable (page_down (map_load_addr mp)) m)).
  { intros mp m0 Hs Hc. pose proof (map_len_range mp Hs) as Hl. destruct Hs as [H1 H2 H3]. unfold is_u32 in H2. pose proof (page_down_bounds (map_load_addr mp)).
    apply enable_bus_ok; [lia|done|]. unfold can_map, region_maps in Hc. by apply andb_true_iff in Hc as [_ ?]. }
  assert (Hassoc : forall (a : MM Z) (b : Z -> MM unit) (k : MM Z) m0, (x ← a; _ ← b x; k) m0 = (_ ← (x ← a; b x); k) m0).
  { intros a b k m0. unfold mbind, M_bind. by destruct (a m0). }
  rewrite Hassoc, (bind_RET _ _ _ _ _ (Hb drom _ Hd Cd)), Hassoc, (bind_RET _ _ _ _ _ (Hb irom _ Hi Ci)). done.
Qed.

(** ** What the application sees *)

(** The CPU reads [bs] at the virtual address [v]; [view] is the flash. *)
Definition sees (view : mem) (m : mmu_state) (v : Z) (bs : list Z) : Prop :=
  forall i b, bs !! i = Some b -> exists p, translate m (v + Z.of_nat i) = Some p /\ view p = b.

Lemma translate_page m v e p : bus_enabled m v = true -> entry_of m v = e -> 0 <= e < 256 -> e * 0x10000 + v mod 0x10000 = p -> translate m v = Some p.
Proof.
  intros Hb He Hr <-. unfold translate. rewrite Hb, He. destruct (page_entry e Hr) as [-> ->]. done.
Qed.

(** A page of DROM is also used for IROM. *)
Definition apart_maps (drom irom : flash_map) : Prop := forall x y,
  map_load_addr drom <= x < map_load_addr drom + map_size drom -> page_down (map_load_addr irom) <= y < map_load_addr irom + map_size irom ->
  mmu_ll_get_entry_id x <> mmu_ll_get_entry_id y.

Lemma can_map_facts mp : sized mp -> can_map mp = true -> exists w, (w = 0x42000000 \/ w = 0x3C000000) /\
  w <= page_down (map_load_addr mp) < w + 0x800000 /\ page_down (map_load_addr mp) + map_len mp <= w + 0x800000 /\
  map_load_addr mp + map_size mp = page_down (map_load_addr mp) + map_len mp.
Proof.
  intros Hs Hc. pose proof (map_len_range mp Hs) as Hl. pose proof Hs as [H1 H2 H3]. unfold is_u32 in H2. destruct (page_down_bounds (map_load_addr mp)) as (B1 & B2 & B3); [lia|].
  unfold can_map, region_maps in Hc. apply andb_true_iff in Hc as [_ Hc]. destruct (valid_region (page_down (map_load_addr mp)) (map_len mp) ltac:(lia) Hl Hc) as (w & Hw & W1 & W2). exists w. split_and!; try done; try lia.
  unfold map_len. lia.
Qed.

Lemma entry_id_range v : 0 <= v -> 0 <= mmu_ll_get_entry_id v < 128.
Proof. intros Hv. rewrite entry_id_spec by done. apply Z.mod_pos_bound. lia. Qed.

(** The bytes of a mapped segment whose place in the page is right. *)
Lemma map_in_entry mp m x : sized mp -> can_map mp = true -> length (mmu_table m) = 128%nat -> map_addr mp mod 0x10000 = map_load_addr mp mod 0x10000 ->
  map_load_addr mp <= x < map_load_addr mp + map_size mp ->
  0 <= entry_of (map_in mp m) x < 256 /\ entry_of (map_in mp m) x * 0x10000 + x mod 0x10000 = map_addr mp + (x - map_load_addr mp) /\
  bus_enabled m x = bus_enabled m (page_down (map_load_addr mp)).
Proof.
  intros Hs Hc Ht Hp Hx. pose proof (map_len_range mp Hs) as Hl. destruct (can_map_facts mp Hs Hc) as (w & Hw & W1 & W2 & W3). pose proof Hs as [H1 H2 H3]. unfold is_u32 in H2.
  destruct (page_down_bounds (map_load_addr mp)) as (B1 & B2 & B3); [lia|]. destruct (page_down_bounds (map_addr mp)) as (C1 & C2 & C3); [lia|].
  pose proof (page_count_bounds (map_len mp) ltac:(lia)) as Hn.
  assert (page_down (map_addr mp) + map_len mp <= 2 ^ 32) by (unfold map_len, SIXTEEN_MB in *; pose proof (Z.mod_pos_bound (map_load_addr mp) 0x10000); lia).
  destruct (region_entry (page_down (map_load_addr mp)) (page_down (map_addr mp)) (map_len mp) m x) as (R1 & R2 & R3); try done; try lia.
  unfold map_in. split_and!; [lia|lia| |done]. rewrite R2. lia.
Qed.

Lemma started_entry drom irom m v : entry_of (started_mmu drom irom m) v = entry_of (map_in irom (map_in drom (set_table unmapped m))) v.
Proof. done. Qed.

Lemma map_in_length mp m : length (mmu_table (map_in mp m)) = length (mmu_table m).
Proof. unfold map_in, with_region. cbn [mmu_table set_table]. apply length_inserts. Qed.

Lemma irom_translates drom irom m x : sized irom -> can_map irom = true -> map_addr irom mod 0x10000 = map_load_addr irom mod 0x10000 ->
  map_load_addr irom <= x < map_load_addr irom + map_size irom -> translate (started_mmu drom irom m) x = Some (map_addr irom + (x - map_load_addr irom)).
Proof.
  intros Hs Hc Hp Hx. set (m1 := map_in drom (set_table unmapped m)).
  assert (Hlen : length (mmu_table m1) = 128%nat) by (unfold m1; by rewrite map_in_length).
  destruct (map_in_entry irom m1 x Hs Hc Hlen Hp Hx) as (R1 & R2 & _). destruct (can_map_facts irom Hs Hc) as (w & Hw & W1 & W2 & W3).
  apply (translate_page _ _ (entry_of (map_in irom m1) x)); try done.
  set (m2 := enable (page_down (map_load_addr drom)) (map_in irom m1)). change (started_mmu drom irom m) with (enable (page_down (map_load_addr irom)) m2).
  assert (Hlen2 : length (mmu_table (enable (page_down (map_load_addr irom)) m2)) = 128%nat) by (change (length (mmu_table (map_in irom m1)) = 128%nat); by rewrite map_in_length).
  destruct (map_in_entry irom _ x Hs Hc Hlen2 Hp Hx) as (_ & _ & ->). apply enable_enabled. unfold ADDRESS_IN_IRAM0_CACHE, ADDRESS_IN_DRAM0_CACHE.
  destruct Hw as [->| ->]; rewrite ?(proj2 (Z.leb_le 0x42000000 _)), ?(proj2 (Z.ltb_lt _ 0x42800000)) by lia; [done|].
  by rewrite (proj2 (Z.leb_le 0x3C000000 _)), (proj2 (Z.ltb_lt _ 0x3C800000)), orb_true_r by lia.
Qed.

Lemma irom_spares drom irom m x : sized drom -> sized irom -> can_map irom = true -> apart_maps drom irom -> 0 <= x ->
  map_load_addr drom <= x < map_load_addr drom + map_size drom -> entry_of (map_in irom m) x = entry_of m x.
Proof.
  intros Hs Hsi Hci Hap H0 Hx. destruct (can_map_facts irom Hsi Hci) as (wi & Hwi & V1 & V2 & V3).
  pose proof (map_len_range irom Hsi) as Hl. pose proof (page_count_bounds (map_len irom) (proj1 Hl)) as Hn.
  set (P := page_down (map_load_addr irom)) in *. assert (HP : 0 <= P) by lia.
  pose proof (entry_id_range x H0) as Ex. pose proof (entry_id_range P HP) as EP. unfold map_in. fold P.
  apply region_other; [apply EP|apply Ex|].
  destruct (decide (mmu_ll_get_entry_id x < mmu_ll_get_entry_id P)) as [|H1]; [by left|].
  destruct (decide (mmu_ll_get_entry_id P + Z.of_nat (page_count (map_len irom)) <= mmu_ll_get_entry_id x)) as [|H2]; [by right|].
  exfalso. set (k := mmu_ll_get_entry_id x - mmu_ll_get_entry_id P) in *. assert (Hk : 0 <= k < Z.of_nat (page_count (map_len irom))) by lia.
  apply (Hap x (P + 0x10000 * k)); [done|lia|]. rewrite (entry_in_window wi (P + 0x10000 * k)) by (done || lia).
  replace (P + 0x10000 * k - wi) with (P - wi + k * 0x10000) by lia.
  rewrite Z.div_add, <- (entry_in_window wi P) by (done || lia). unfold k. lia.
Qed.

Lemma drom_translates drom irom m x : sized drom -> sized irom -> can_map drom = true -> can_map irom = true -> apart_maps drom irom ->
  map_addr drom mod 0x10000 = map_load_addr drom mod 0x10000 ->
  map_load_addr drom <= x < map_load_addr drom + map_size drom -> translate (started_mmu drom irom m) x = Some (map_addr drom + (x - map_load_addr drom)).
Proof.
  intros Hs Hsi Hc Hci Hap Hp Hx. set (m0 := set_table unmapped m).
  assert (Hlen : length (mmu_table m0) = 128%nat) by done. destruct (can_map_facts drom Hs Hc) as (w & Hw & W1 & W2 & W3).
  destruct (map_in_entry drom m0 x Hs Hc Hlen Hp Hx) as (R1 & R2 & _).
  assert (Eo : entry_of (map_in irom (map_in drom m0)) x = entry_of (map_in drom m0) x) by (apply (irom_spares drom); try done; destruct Hs as [_ [? _] _]; lia).
  apply (translate_page _ _ (entry_of (map_in drom m0) x)); [|exact Eo|done|done].
  set (m1 := map_in irom (map_in drom m0)). change (started_mmu drom irom m) with (enable (page_down (map_load_addr irom)) (enable (page_down (map_load_addr drom)) m1)). apply enable_keeps.
  assert (Hlen2 : length (mmu_table (enable (page_down (map_load_addr drom)) m1)) = 128%nat) by (change (length (mmu_table m1) = 128%nat); unfold m1; by rewrite !map_in_length).
  destruct (map_in_entry drom _ x Hs Hc Hlen2 Hp Hx) as (_ & _ & ->). apply enable_enabled. unfold ADDRESS_IN_IRAM0_CACHE, ADDRESS_IN_DRAM0_CACHE.
  destruct Hw as [->| ->]; rewrite ?(proj2 (Z.leb_le 0x42000000 _)), ?(proj2 (Z.ltb_lt _ 0x42800000)) by lia; [done|].
  by rewrite (proj2 (Z.leb_le 0x3C000000 _)), (proj2 (Z.ltb_lt _ 0x3C800000)), orb_true_r by lia.
Qed.

(** ** The segments of an image *)

Section Image.
Context {F : Type} `{FlashLaws F}.
Context (icfg : image_config) (sha256 : list Z -> list Z) (f : F).
Hypothesis sha256_length : forall l, length (sha256 l) = 32%nat.
Abbreviation view_ := (img_view icfg f).

(** The segments with the addresses of their data in flash. *)
Definition placed (off : Z) (im : app_image) : list (segment * Z) :=
  zip (ai_segments im) (data_addrs (off + HEADER_SIZE) (ai_segments im)).
Definition seg_map (p : segment * Z) : flash_map := mkMap p.2 (sg_addr p.1) (zlen (sg_data p.1)).
(** The last segment of a range is what is mapped. *)
Definition last_in (r : range) (l : list (segment * Z)) : option (segment * Z) := list.last (filter (fun p => in_range_ r (sg_addr p.1) = true) l).
Definition pick (r : range) (l : list (segment * Z)) : flash_map := default no_map (seg_map <$> last_in r l).

Lemma pick_snoc r l p : pick r (l ++ [p]) = if in_range_ r (sg_addr p.1) then seg_map p else pick r l.
Proof.
  unfold pick, last_in. rewrite list.filter_app. destruct (in_range_ r (sg_addr p.1)) eqn:E.
  - rewrite filter_cons_True, filter_nil, last_snoc by done. done.
  - rewrite filter_cons_False, filter_nil, app_nil_r by (rewrite E; done). done.
Qed.

Lemma find_segments_spec off im d : metadata_of sha256 off im d -> segment_count (image d) = zlen (ai_segments im) ->
  fold_left (find_segment icfg d) (seq 0 (Z.to_nat (segment_count (image d)))) (no_map, no_map) =
    (pick (SOC_DROM (ic_soc icfg)) (placed off im), pick (SOC_IROM (ic_soc icfg)) (placed off im)).
Proof.
  intros (_ & _ & _ & Es & Ed & _) Hc. rewrite Hc. unfold zlen. rewrite Nat2Z.id.
  assert (Hlen : length (placed off im) = length (ai_segments im)) by (unfold placed; rewrite length_zip_with, data_addrs_length; lia).
  enough (E : forall k, (k <= length (ai_segments im))%nat -> fold_left (find_segment icfg d) (seq 0 k) (no_map, no_map) =
    (pick (SOC_DROM (ic_soc icfg)) (take k (placed off im)), pick (SOC_IROM (ic_soc icfg)) (take k (placed off im)))).
  { rewrite E by lia. by rewrite take_ge by lia. }
  induction k as [|k IH]; intros Hk; [done|]. rewrite seq_S, fold_left_app, IH by lia. cbn [fold_left Nat.add].
  destruct (lookup_lt_is_Some_2 (placed off im) k ltac:(lia)) as [[sg a] Hp]. rewrite (take_S_r _ _ _ Hp), !pick_snoc. cbn [fst].
  unfold placed in Hp. apply lookup_zip_with_Some in Hp as (x & y & [= <- <-] & Hs & Ha).
  assert (E1 : nth k (segments d) (mkSegHdr 0 0) = seg_header sg).
  { apply nth_lookup_Some. rewrite <- (lookup_take_lt _ (length (ai_segments im))), Es by lia. by rewrite list_lookup_fmap, Hs. }
  assert (E2 : nth k (segment_data d) 0 = a).
  { apply nth_lookup_Some. by rewrite <- (lookup_take_lt _ (length (ai_segments im))), Ed by lia. }
  unfold find_segment. rewrite E1, E2. done.
Qed.

(** Where a segment is, and what it is there. *)
Record in_place (lo hi : Z) (p : segment * Z) : Prop := {
  ip_ok : segment_ok icfg p.2 p.1;
  ip_holds : flash_holds icfg f p.2 (sg_data p.1);
  ip_range : lo <= p.2 /\ p.2 + zlen (sg_data p.1) <= hi
}.

Lemma segments_in_place sgs : forall a, segments_ok icfg a sgs -> flash_holds icfg f a (segments_bytes sgs) ->
  Forall (in_place a (a + zlen (segments_bytes sgs))) (zip sgs (data_addrs a sgs)).
Proof.
  induction sgs as [|sg sgs IH]; intros a; [by constructor|]. intros [Hs Hr] Hf. pose proof (zlen_nonneg (segments_bytes sgs)) as Hn.
  pose proof (zlen_segments_cons sg sgs) as Hz. pose proof (zlen_segment sg) as Hz1. unfold SEGMENT_HEADER_SIZE in Hz1.
  apply flash_holds_app in Hf as [F1 F2]. cbn [data_addrs]. constructor.
  - split; [done| |cbn [fst snd]; unfold SEGMENT_HEADER_SIZE; lia]. unfold segment_bytes in F1. rewrite app_assoc in F1. by apply flash_holds_app in F1 as [_ F1].
  - eapply list.Forall_impl; [exact (IH _ Hr F2)|]. intros p [P1 P2 P3]. pose proof (zlen_nonneg (sg_data sg)). split; [done|done|]. lia.
Qed.

Lemma image_in_place part im : offset_ok (pos_offset part) -> holds_image icfg sha256 f part im ->
  Forall (in_place (pos_offset part) (pos_offset part + pos_size part)) (placed (pos_offset part) im).
Proof.
  intros Ho [Hi Hf]. destruct (image_at_ok icfg sha256 f sha256_length part im) as (Eim & Ha & _); [by destruct Ho|done|done|].
  pose proof (at_ok_length icfg f false part Ho Ha) as Hl. destruct Ha as [A1 A2 _ _ _].
  destruct (image_at_lengths icfg sha256 f sha256_length (pos_offset part) A1 A2) as [_ E]. rewrite <- Eim in E. rewrite <- E in Hl.
  destruct Hi as [I1 _ _ I4 _ _]. unfold image_bytes, image_body in Hf, Hl. apply flash_holds_app in Hf as [Hf _]. apply flash_holds_app in Hf as [_ Hf].
  rewrite I1 in Hf. apply flash_holds_app in Hf as [Hf _]. pose proof (segments_in_place _ _ I4 Hf) as Hp.
  rewrite !zlen_app, I1 in Hl. pose proof (zlen_nonneg (ai_padding im)). pose proof (zlen_nonneg [image_checksum im]).
  match type of Hl with context [if ?b then ?x else ?y] => pose proof (zlen_nonneg (if b then x else y)) end.
  eapply list.Forall_impl; [exact Hp|]. intros p [P1 P2 P3]. unfold HEADER_SIZE in *. split; [done|done|]. lia.
Qed.

(** ** Entering the application *)

Abbreviation drom_map part im := (pick (SOC_DROM (ic_soc icfg)) (placed (pos_offset part) im)).
Abbreviation irom_map part im := (pick (SOC_IROM (ic_soc icfg)) (placed (pos_offset part) im)).

(** The assertions of [mmu_hal_map_region] for the image; without a segment of
    either kind they fail. *)
Definition app_can_map (part : esp_partition_pos_t) (im : app_image) : bool := can_map (drom_map part im) && can_map (irom_map part im).

(** The CPU sees the segment of a range. *)
Definition sees_segment (r : range) (part : esp_partition_pos_t) (im : app_image) (m : mmu_state) : Prop :=
  forall sg a, last_in r (placed (pos_offset part) im) = Some (sg, a) -> sees view_ m (sg_addr sg) (sg_data sg).

Lemma last_in_elem r l p : last_in r l = Some p -> p ∈ l /\ in_range_ r (sg_addr p.1) = true.
Proof. unfold last_in. intros E. apply last_Some_elem_of, list_elem_of_filter in E. by destruct E. Qed.

Lemma pick_sized r part im : offset_ok (pos_offset part) -> pos_size part <= SIXTEEN_MB -> holds_image icfg sha256 f part im -> sized (pick r (placed (pos_offset part) im)).
Proof.
  intros Ho Hsz Hi. unfold pick. destruct (last_in r _) as [[sg a]|] eqn:E; cbn [fmap option_fmap option_map default from_option]; [|by split].
  apply last_in_elem in E as [E _]. pose proof (image_in_place part im Ho Hi) as Hp. rewrite list.Forall_forall in Hp.
  destruct (Hp _ E) as [[S1 _ _ S4 _] _ P3]. cbn [fst snd] in *. destruct Ho as (O1 & _ & O3). pose proof (zlen_nonneg (sg_data sg)). unfold SIXTEEN_MB in *.
  split; cbn [map_addr map_load_addr map_size seg_map fst snd id]; unfold SIXTEEN_MB; [lia|done|lia].
Qed.

Lemma unpack_spec part im d m : offset_ok (pos_offset part) -> pos_size part <= SIXTEEN_MB -> holds_image icfg sha256 f part im ->
  metadata_of sha256 (pos_offset part) im d -> length (mmu_table m) = 128%nat ->
  unpack_load_app icfg d m = if app_can_map part im
    then RET (entry_addr (decode_header (ai_header im))) (started_mmu (drom_map part im) (irom_map part im) m) else ABORT.
Proof.
  intros Ho Hsz Hi Hd Hm. pose proof Hi as [[_ _ I3 _ _ _] _]. pose proof Hd as (_ & Ed & _). unfold unpack_load_app.
  rewrite (find_segments_spec (pos_offset part) im d Hd) by (by rewrite Ed). rewrite Ed. apply set_cache_spec; [by apply pick_sized..|done].
Qed.

(** A segment that is mapped has the right place in its page. *)
Lemma pick_page r part im sg a : (forall x, in_range_ r x = true -> should_map icfg x = true) -> offset_ok (pos_offset part) -> holds_image icfg sha256 f part im ->
  last_in r (placed (pos_offset part) im) = Some (sg, a) ->
  a mod 0x10000 = sg_addr sg mod 0x10000 /\ (forall i b, sg_data sg !! i = Some b -> view_ (a + Z.of_nat i) = b).
Proof.
  intros Hr Ho Hi E. apply last_in_elem in E as [E Hin]. pose proof (image_in_place part im Ho Hi) as Hp. rewrite list.Forall_forall in Hp.
  destruct (Hp _ E) as [[_ _ _ _ S5] P2 _]. cbn [fst snd] in *. split; [by apply S5, Hr|]. intros i b Hb. pose proof (lookup_lt_Some _ _ _ Hb) as Hlt. unfold flash_holds in P2.
  rewrite <- P2, lookup_read_bytes in Hb by done. congruence.
Qed.

Lemma started_sees part im m : offset_ok (pos_offset part) -> pos_size part <= SIXTEEN_MB -> holds_image icfg sha256 f part im -> app_can_map part im = true ->
  let m' := started_mmu (drom_map part im) (irom_map part im) m in
  sees_segment (SOC_IROM (ic_soc icfg)) part im m' /\
  (apart_maps (drom_map part im) (irom_map part im) -> sees_segment (SOC_DROM (ic_soc icfg)) part im m').
Proof.
  intros Ho Hsz Hi Hc m'. apply andb_true_iff in Hc as [Hcd Hci]. pose proof (pick_sized (SOC_DROM (ic_soc icfg)) part im Ho Hsz Hi) as Sd.
  pose proof (pick_sized (SOC_IROM (ic_soc icfg)) part im Ho Hsz Hi) as Si.
  assert (Hb : forall sg (i : nat) (b : Z), sg_data sg !! i = Some b -> sg_addr sg <= sg_addr sg + Z.of_nat i < sg_addr sg + zlen (sg_data sg)).
  { intros sg i b Hb. apply lookup_lt_Some in Hb. unfold zlen. lia. }
  split.
  - intros sg a E i b Hi'. destruct (pick_page (SOC_IROM (ic_soc icfg)) part im sg a ltac:(intros x Hx; unfold should_map; by rewrite Hx) Ho Hi E) as [Hpg Hv].
    assert (Em : irom_map part im = seg_map (sg, a)) by (unfold pick; by rewrite E). exists (a + Z.of_nat i). split; [|by apply Hv]. unfold m'.
    rewrite (irom_translates _ _ _ _ Si Hci); rewrite Em; cbn [map_addr map_load_addr map_size seg_map fst snd]; [f_equal; lia|done|by eapply Hb].
  - intros Hap sg a E i b Hi'. destruct (pick_page (SOC_DROM (ic_soc icfg)) part im sg a ltac:(intros x Hx; unfold should_map; by rewrite Hx, orb_true_r) Ho Hi E) as [Hpg Hv].
    assert (Em : drom_map part im = seg_map (sg, a)) by (unfold pick; by rewrite E). exists (a + Z.of_nat i). split; [|by apply Hv]. unfold m'.
    rewrite (drom_translates _ _ _ _ Sd Si Hcd Hci Hap); rewrite Em; cbn [map_addr map_load_addr map_size seg_map fst snd]; [f_equal; lia|done|by eapply Hb].
Qed.

(** An image without a segment for DROM, or for IROM, is not started although
    it was verified: nothing is to be mapped, and an assertion of
    [mmu_hal_map_region] fails. *)
Lemma no_segment_no_start part im : last_in (SOC_DROM (ic_soc icfg)) (placed (pos_offset part) im) = None \/
  last_in (SOC_IROM (ic_soc icfg)) (placed (pos_offset part) im) = None -> app_can_map part im = false.
Proof. unfold app_can_map, pick. intros [-> | ->]; [done|apply andb_false_r]. Qed.
End Image.

(** The example image of [ImageExample] has no segment for DROM; it is loaded,
    and the bootloader stops. *)
Example no_drom_not_started :
  match bootloader_load_image (xi_cfg true false) xi_sha256 xi_signature xi_random xi_flash (Some xi_part) true xi_start with
  | RET err s => is_ok err = true /\ unpack_load_app (xi_cfg true false) (ld_data s) (mkMmu (repeat 0 128) 3) = ABORT
  | _ => False
  end.
Proof. vm_compute. by split. Qed.
