(* ===== verification/BootInvariant.v ===== *)
(** * The types of the bootloader's state

    Whatever flash holds and whatever the configuration, the second-stage
    bootloader keeps its state well-formed: RAM stays an array of bytes, the
    arrays of the image metadata have 16 elements and the table of the MMU has
    128 entries. *)

From S2P Require Import Prelude CMem Crc Flash OtaData PartitionTable SecureVersion Bootloader BootTheorems Mmu ImageFormat ImageSpec ImageExample LoadAddresses ImageLoad BootStart.

(** ** The image loader *)

Lemma mem_ok_store8 m a v : mem_ok m -> is_byte v -> mem_ok (store8 m a v).
Proof. intros Hm Hv x. unfold store8. by destruct (x =? a). Qed.

Lemma mem_ok_memcpy bs : forall m a, mem_ok m -> Forall is_byte bs -> mem_ok (memcpy m a bs).
Proof. induction bs as [|b bs IH]; intros m a Hm Hb; [done|]. inversion Hb. cbn [memcpy]. apply IH; [by apply mem_ok_store8|done]. Qed.

Definition img_ok (s : img) : Prop :=
  mem_ok (ld_ram s) /\ length (segments (ld_data s)) = 16%nat /\ length (segment_data (ld_data s)) = 16%nat.

Lemma img_ok_data d s : length (segments d) = 16%nat -> length (segment_data d) = 16%nat -> img_ok s -> img_ok (set_data d s).
Proof. intros H1 H2 (Hm & _ & _). by split_and!. Qed.

Lemma img_ok_ram m s : mem_ok m -> img_ok s -> img_ok (set_ram m s).
Proof. intros Hm (_ & ? & ?). by split_and!. Qed.

Section Loader.
Context {F : Type} `{FlashLaws F}.
Context (icfg : image_config) (sha256 : list Z -> list Z).
Context (verify_signature_block : list Z -> list Z -> esp_err_t * list Z) (random : Z * Z) (f : F).
Abbreviation preserves_img := (preserves img_ok).

Lemma img_fault {A} : preserves_img (fault : M img A).
Proof. by intros s Hs. Qed.
#[local] Hint Resolve img_fault : preserves.

Lemma img_sha256_data bs : preserves_img (bootloader_sha256_data icfg bs).
Proof. unfold bootloader_sha256_data. preserves_auto. Qed.
#[local] Hint Resolve img_sha256_data : preserves.

Lemma img_sha_data_if bs : preserves_img (sha_data_if icfg bs).
Proof. unfold sha_data_if. preserves_auto. Qed.
#[local] Hint Resolve img_sha_data_if : preserves.

Lemma img_sha256_finish : preserves_img (bootloader_sha256_finish sha256).
Proof. unfold bootloader_sha256_finish. preserves_auto. Qed.
#[local] Hint Resolve img_sha256_finish : preserves.

Lemma img_check a b : preserves_img (check_load_addresses icfg a b).
Proof. unfold check_load_addresses. preserves_auto. Qed.
#[local] Hint Resolve img_check : preserves.

Lemma img_header off want verify : preserves_img (process_image_header icfg f off want verify).
Proof. unfold process_image_header. preserves_auto; by apply img_ok_data. Qed.
#[local] Hint Resolve img_header : preserves.

Lemma img_data_loop n : forall i src dest len load sum, preserves_img (data_loop icfg f n i src dest len load sum).
Proof.
  induction n as [|n IH]; intros i src dest len load sum; cbn [data_loop]; preserves_auto.
  apply img_ok_ram; [|done]. apply mem_ok_store32. by destruct H1.
Qed.
#[local] Hint Resolve img_data_loop : preserves.

Lemma img_segment_data a src len load sum : preserves_img (process_segment_data icfg random f a src len load sum).
Proof.
  unfold process_segment_data, fill_obfs. preserves_auto.
  - apply img_ok_ram; [|done]. apply mem_ok_memcpy; [by destruct H1|apply read_bytes_byte].
  - by case_match.
Qed.
#[local] Hint Resolve img_segment_data : preserves.

Lemma img_segment_loop n : forall a src len load sum, preserves_img (segment_loop icfg random f n a src len load sum).
Proof. induction n as [|n IH]; intros a src len load sum; cbn [segment_loop]; preserves_auto. Qed.
#[local] Hint Resolve img_segment_loop : preserves.

Lemma img_segment a load sum : preserves_img (process_segment icfg random f a load sum).
Proof. unfold process_segment. preserves_auto. Qed.
#[local] Hint Resolve img_segment : preserves.

Lemma img_set_segment i h : preserves_img (set_segment i h).
Proof. unfold set_segment. preserves_auto. destruct H1 as (? & ? & ?). apply img_ok_data; [cbn; by rewrite length_insert|done|done]. Qed.

Lemma img_set_segment_data i a : preserves_img (set_segment_data i a).
Proof. unfold set_segment_data. preserves_auto. destruct H1 as (? & ? & ?). apply img_ok_data; [done|cbn; by rewrite length_insert|done]. Qed.
#[local] Hint Resolve img_set_segment img_set_segment_data : preserves.

Lemma img_segments_loop n : forall i a load sum, preserves_img (segments_loop icfg random f n i a load sum).
Proof. induction n as [|n IH]; intros i a load sum; cbn [segments_loop]; preserves_auto. Qed.
#[local] Hint Resolve img_segments_loop : preserves.

Lemma img_set_len n s : img_ok s -> img_ok (set_data (set_image_len n (ld_data s)) s).
Proof. intros Hs. pose proof Hs as (? & ? & ?). by apply img_ok_data. Qed.
#[local] Hint Resolve img_set_len : preserves.

Lemma img_segments load sum : preserves_img (process_segments icfg random f load sum).
Proof. unfold process_segments. preserves_auto. Qed.

Lemma img_checksum w skip : preserves_img (process_checksum icfg f w skip).
Proof. unfold process_checksum. preserves_auto. Qed.

Lemma img_appended off len verify : preserves_img (process_appended_hash_and_sig icfg f off len verify).
Proof.
  intros s Hs. unfold process_appended_hash_and_sig, mbind, M_bind, gets, modify, mret, M_ret. pose proof Hs as (? & ? & ?).
  match goal with |- context [match ?x with (_, _) => _ end] => destruct x as [err digest] end. destruct (is_ok err); [|done]. cbn [negb]. by apply img_ok_data.
Qed.

Lemma img_simple_hash : preserves_img (verify_simple_hash sha256).
Proof. unfold verify_simple_hash. preserves_auto. Qed.

Lemma img_mapped src size : preserves_img (mapped_bytes icfg f src size).
Proof. unfold mapped_bytes. preserves_auto. Qed.
#[local] Hint Resolve img_segments img_checksum img_appended img_simple_hash img_mapped : preserves.

Lemma img_signature : preserves_img (verify_secure_boot_signature icfg sha256 verify_signature_block f).
Proof. unfold verify_secure_boot_signature. preserves_auto. Qed.
#[local] Hint Resolve img_signature : preserves.

Lemma img_hash_or_signature b : preserves_img (verify_hash_or_signature icfg sha256 verify_signature_block f b).
Proof. unfold verify_hash_or_signature. preserves_auto. Qed.

Lemma img_failed err : preserves_img (load_failed err).
Proof. unfold load_failed. preserves_auto. by apply img_ok_data. Qed.

Lemma deobfuscate_ok segs : forall v m, mem_ok m -> mem_ok (deobfuscate icfg segs v m).
Proof.
  induction segs as [|h segs IH]; intros v m Hm; cbn [deobfuscate]; [done|]. apply IH. destruct (should_load _ _); [by apply deobfuscate_words_ok|done].
Qed.

Lemma img_finish b d v : preserves_img (finish_load icfg b d v).
Proof.
  unfold finish_load. preserves_auto. case_match; [|done]. apply img_ok_ram; [|done]. apply deobfuscate_ok. by destruct H1.
Qed.
#[local] Hint Resolve img_hash_or_signature img_failed img_finish : preserves.

Lemma img_image_load mode part data : preserves_img (image_load icfg sha256 verify_signature_block random f mode part data).
Proof. unfold image_load. preserves_auto. Qed.
#[local] Hint Resolve img_image_load : preserves.

Lemma img_load_image part data : preserves_img (bootloader_load_image icfg sha256 verify_signature_block random f part data).
Proof. unfold bootloader_load_image. preserves_auto. Qed.

Lemma img_load_no_verify part data : preserves_img (bootloader_load_image_no_verify icfg sha256 verify_signature_block random f part data).
Proof. unfold bootloader_load_image_no_verify. preserves_auto. Qed.
End Loader.

(** ** The MMU *)

Definition mmu_ok (m : mmu_state) : Prop := length (mmu_table m) = 128%nat.

Lemma mmu_set_table i e m : mmu_ok m -> mmu_ok (set_table (<[i := e]> (mmu_table m)) m).
Proof. unfold mmu_ok. cbn [mmu_table set_table]. by rewrite length_insert. Qed.

Lemma mmu_write_entry i v t : preserves mmu_ok (mmu_ll_write_entry i v t).
Proof. unfold mmu_ll_write_entry. preserves_auto; by apply mmu_set_table. Qed.

Lemma mmu_set_entry_invalid i : preserves mmu_ok (mmu_ll_set_entry_invalid i).
Proof. unfold mmu_ll_set_entry_invalid. preserves_auto. by apply mmu_set_table. Qed.

Lemma mmu_page_shift n : preserves mmu_ok (page_shift n).
Proof. unfold page_shift. preserves_auto. Qed.
#[local] Hint Resolve mmu_write_entry mmu_set_entry_invalid mmu_page_shift : preserves.

Lemma mmu_unmap_loop n : forall i, preserves mmu_ok (unmap_loop n i).
Proof. induction n as [|n IH]; intros i; cbn [unmap_loop]; preserves_auto. Qed.

Lemma mmu_map_loop n : forall size v val t, preserves mmu_ok (map_loop n size v val t).
Proof. induction n as [|n IH]; intros size v val t; cbn [map_loop]; preserves_auto. Qed.
#[local] Hint Resolve mmu_unmap_loop mmu_map_loop : preserves.

Lemma mmu_map_region t v p len : preserves mmu_ok (mmu_hal_map_region t v p len).
Proof. unfold mmu_hal_map_region, mmu_hal_pages_to_bytes. preserves_auto. Qed.

Lemma mmu_get_bus v len : preserves mmu_ok (cache_ll_l1_get_bus v len).
Proof. unfold cache_ll_l1_get_bus. preserves_auto. Qed.

Lemma mmu_enable_bus mask : preserves mmu_ok (cache_ll_l1_enable_bus mask).
Proof. unfold cache_ll_l1_enable_bus. preserves_auto. Qed.
#[local] Hint Resolve mmu_map_region mmu_get_bus mmu_enable_bus : preserves.

Lemma mmu_start drom irom e : preserves mmu_ok (set_cache_and_start_app drom irom e).
Proof. unfold set_cache_and_start_app, mmu_hal_init, mmu_ll_unmap_all. preserves_auto. Qed.

Lemma mmu_unpack icfg d : preserves mmu_ok (unpack_load_app icfg d).
Proof. unfold unpack_load_app. destruct (fold_left _ _ _). apply mmu_start. Qed.

(** ** The bootloader *)

(** RAM holds bytes, the metadata have their arrays, the MMU its table. *)
Definition run_ok {F E} (s : boot_run F E) : Prop := img_ok (r_img s) /\ mmu_ok (r_mmu s).

Section Run.
Context {F E : Type} `{FlashLaws F} `{EfuseDev E}.
Context (cfg : boot_config) (md5 : list Z -> list Z).
Context (icfg : image_config) (sha256 : list Z -> list Z).
Context (verify_signature_block : list Z -> list Z -> esp_err_t * list Z) (random : Z * Z).
Abbreviation run := (boot_run F E).
Abbreviation preserves_run := (preserves (S := run) run_ok).

Lemma run_on_boot {A} (g : boot_state F E -> A * boot_state F E) : preserves_run (on_boot g).
Proof. intros s Hs. unfold on_boot. by destruct (g (r_boot s)). Qed.

Lemma run_on_img {A} (m : F -> M img A) : (forall f, preserves img_ok (m f)) -> preserves_run (on_img m).
Proof. intros Hm s [Hi Ht]. unfold on_img. specialize (Hm (bt_flash (r_boot s)) _ Hi). by destruct (m _ (r_img s)). Qed.

Lemma run_on_mmu {A} (m : MM A) : preserves mmu_ok m -> preserves_run (on_mmu m).
Proof. intros Hm s [Hi Ht]. unfold on_mmu. specialize (Hm _ Ht). by destruct (m (r_mmu s)). Qed.

Lemma run_reset {A} : preserves_run (bootloader_reset (A := A)).
Proof. by intros s Hs. Qed.

Lemma run_select bs : preserves_run (select_index cfg bs).
Proof. intros s Hs. unfold select_index. by destruct (bootloader_utility_get_selected_boot_partition _ _ _) as [[]|]. Qed.
#[local] Hint Resolve run_on_boot run_on_img run_on_mmu run_reset run_select img_load_image img_load_no_verify mmu_unpack : preserves.

Lemma run_load_image : preserves_run (load_image icfg).
Proof. unfold load_image. preserves_auto. Qed.
#[local] Hint Resolve run_load_image : preserves.

Lemma run_load part : preserves_run (run_load_partition icfg sha256 verify_signature_block random part).
Proof. unfold run_load_partition. preserves_auto. Qed.
#[local] Hint Resolve run_load : preserves.

Lemma run_start part before : preserves_run (run_partition cfg icfg sha256 verify_signature_block random part before).
Proof. unfold run_partition. preserves_auto. Qed.
#[local] Hint Resolve run_start : preserves.

Lemma run_tries bs l : preserves_run (run_indices cfg icfg sha256 verify_signature_block random bs l).
Proof. induction l as [|i l IH]; cbn [run_indices]; preserves_auto. Qed.
#[local] Hint Resolve run_tries : preserves.

Lemma run_zero : preserves_run (zero_image_data).
Proof. unfold zero_image_data. preserves_auto. match goal with Hs : run_ok _ |- _ => destruct Hs end. split; [by apply img_ok_data|done]. Qed.
#[local] Hint Resolve run_zero : preserves.

Lemma run_boot bs start : preserves_run (run_boot_image cfg icfg sha256 verify_signature_block random bs start).
Proof. unfold run_boot_image. preserves_auto. Qed.

Lemma run_deep_sleep : preserves_run (bootloader_utility_load_boot_image_from_deep_sleep icfg sha256 verify_signature_block random).
Proof. unfold bootloader_utility_load_boot_image_from_deep_sleep. preserves_auto. Qed.
#[local] Hint Resolve run_boot run_deep_sleep : preserves.

Context (factory_reset : option (M run unit)) (app_test_held : bool).
(** Erasing the partitions of a factory reset changes flash only. *)
Hypothesis reset_ok : forall erase, factory_reset = Some erase -> preserves_run erase.

Lemma run_selected bs : preserves_run (selected_boot_partition cfg icfg factory_reset app_test_held bs).
Proof. unfold selected_boot_partition. destruct factory_reset as [erase|] eqn:Er; [pose proof (reset_ok erase eq_refl)|]; preserves_auto. Qed.
#[local] Hint Resolve run_selected : preserves.

(** Whatever flash holds, in every configuration, the bootloader keeps its
    state well-formed until it enters the application or resets the chip: RAM
    stays an array of bytes, the arrays of the image metadata have 16 elements
    and the table of the MMU has 128 entries. *)
Theorem call_start_cpu0_well_formed : preserves_run (call_start_cpu0 cfg md5 icfg sha256 verify_signature_block random factory_reset app_test_held).
Proof. unfold call_start_cpu0, select_partition_number. preserves_auto. Qed.
End Run.

(** ** Example: a chip without a partition table *)

Definition wf_start : boot_run nor Z :=
  mkRun (mkBoot ex_nor 0 false ex_rtc) (mkImg zero_metadata None 0 (fun _ => 0) (0, 0)) (mkMmu (repeat 0 128) 3).

Lemma call_start_cpu0_well_formed_witness :
  match call_start_cpu0 ex_cfg (fun _ => []) (xi_cfg true false) xi_sha256 xi_signature xi_random None false wf_start with
  | RESTART s' => run_ok s'
  | _ => False
  end.
Proof.
  pose proof (call_start_cpu0_well_formed ex_cfg (fun _ => []) (xi_cfg true false) xi_sha256 xi_signature xi_random None false ltac:(discriminate) wf_start) as W.
  assert (Er : match call_start_cpu0 ex_cfg (fun _ => []) (xi_cfg true false) xi_sha256 xi_signature xi_random None false wf_start with RESTART _ => true | _ => false end = true)
    by (vm_compute; reflexivity).
  destruct (call_start_cpu0 _ _ _ _ _ _ _ _ _) as [e s'| |s']; [discriminate Er|discriminate Er|]. apply W.
  split; [split; [|split; reflexivity]|reflexivity]. intros x. split; [discriminate|reflexivity].
Defined.
