(* ===== verification/BootRun.v ===== *)
(** * The bootloader as a whole

    The second-stage bootloader, with the image loader and the MMU, refines
    the boot of [Bootloader], in which loading is a predicate on flash: it
    enters the application that the abstract boot names, with its loaded
    segments in RAM and its mapped segments behind the MMU, and it resets the
    chip when the abstract boot resets. *)

From S2P Require Import Prelude CMem Crc Flash OtaData PartitionTable SecureVersion Bootloader Mmu ImageFormat BootStart BootStartTheorems BootInvariant.
From S2P Require Import Partitions ImageSegments ImageSpec ImageExample ImageVerify ImageTheorems LoadAddresses ImageLoad BootTheorems.

(** The bootloader without signature checks and debugger, with memory for
    hashing, on a chip whose memory is laid out as [chip_ok] says. *)
Record loader_ok (icfg : image_config) (sha256 : list Z -> list Z) (random : Z * Z) : Prop := {
  lo_pages : 2 <= bootloader_mmap_get_free_pages icfg < 2 ^ 16;
  lo_random : fst random <> 0 /\ snd random <> 0;
  lo_sha256 : forall l, length (sha256 l) = 32%nat;
  lo_signature : SECURE_BOOT_CHECK_SIGNATURE icfg = false;
  lo_debugger : ic_debugger icfg = false;
  lo_bootloader : BOOTLOADER_BUILD icfg = true;
  lo_validates : CONFIG_BOOTLOADER_SKIP_VALIDATE_ALWAYS icfg = false /\ CONFIG_BOOTLOADER_SKIP_VALIDATE_ON_POWER_ON icfg = false;
  lo_chip : chip_ok icfg;
  lo_memory : ic_sha_ok icfg = true
}.

(** The sector of the first OTA data entry, where the start of an application
    is recorded; the write may reach into the next one. *)
Definition ota_page (bs : bootloader_state_t) : Z := ota_sector bs 0 / FLASH_SECTOR_SIZE * FLASH_SECTOR_SIZE.
Definition in_part (part : esp_partition_pos_t) (x : Z) : Prop := pos_offset part <= x < pos_offset part + pos_size part.

Definition table_parts (bs : bootloader_state_t) : list esp_partition_pos_t := bs_factory bs :: bs_test bs :: bs_ota bs.

Section Run.
Context {F E : Type} `{FlashLaws F} `{EfuseDev E}.
Context (cfg : boot_config) (md5 : list Z -> list Z).
Context (icfg : image_config) (sha256 : list Z -> list Z).
Context (verify_signature_block : list Z -> list Z -> esp_err_t * list Z) (random : Z * Z).
Context (LO : loader_ok icfg sha256 random).
Abbreviation run := (boot_run F E).
Abbreviation flash b := (bt_flash (F := F) (E := E) b).

(** Flash that works: writes and erases do not change that. *)
Context (good : F -> Prop).
Hypothesis good_write : forall enc f a l, good f -> good (fl_write enc f a l).2.
Hypothesis good_erase : forall f a n, good f -> good (fl_erase f a n).2.

(** A partition that can be read and mapped, apart from the OTA data. *)
Record part_ok (bs : bootloader_state_t) (part : esp_partition_pos_t) : Prop := {
  po_offset : offset_ok (pos_offset part);
  po_bootloader : pos_offset part <> ESP_BOOTLOADER_OFFSET icfg;
  po_size : pos_size part <= SIXTEEN_MB;
  po_readable : forall f, good f -> readable icfg f (pos_offset part) (pos_offset part + pos_size part);
  po_mappable : forall f, good f -> mappable icfg f (pos_offset part) (pos_offset part + pos_size part);
  po_apart : forall x, in_part part x -> x < ota_page bs \/ ota_page bs + 2 * FLASH_SECTOR_SIZE <= x
}.
Definition slot_ok (bs : bootloader_state_t) (part : esp_partition_pos_t) : Prop := pos_size part = 0 \/ part_ok bs part.
Definition table_ok (bs : bootloader_state_t) : Prop := Forall (slot_ok bs) (table_parts bs).

(** [bootloader_load_image(part, &data) == ESP_OK] *)
Definition blank : img := mkImg zero_metadata None 0 (fun _ => 0) (0, 0).
Definition loadable (f : F) (part : esp_partition_pos_t) : bool :=
  match bootloader_load_image icfg sha256 verify_signature_block random f (Some part) true blank with
  | RET err _ => is_ok err
  | _ => false
  end.

(** What the bootloader gives up on: a segment that crosses the address
    0x80000000, or a verified image that cannot be mapped. *)
Definition crossing (f : F) (part : esp_partition_pos_t) : Prop :=
  exists sg, In sg (segments_at icfg f (pos_offset part)) /\ sg_addr sg < 2 ^ 31 <= sg_addr sg + zlen (sg_data sg).
Definition unmappable (f : F) (part : esp_partition_pos_t) : Prop :=
  exists im, holds_image icfg sha256 f part im /\ app_can_map icfg part im = false.
Definition stuck (b : boot_state F E) (part : esp_partition_pos_t) : Prop :=
  pos_size part <> 0 /\ (crossing (flash b) part \/ unmappable (flash b) part).

(** The application at [entry] runs: the partition holds a well-formed image,
    its loaded segments are in RAM and its mapped ones are seen by the CPU. *)
Record started (part : esp_partition_pos_t) (entry : Z) (im : app_image) (s s' : run) : Prop := {
  sd_holds : holds_image icfg sha256 (flash (r_boot s')) part im;
  sd_entry : entry = entry_addr (decode_header (ai_header im));
  sd_ram : apart_loaded icfg (ai_segments im) ->
    Forall (fun sg => loads icfg true sg = true -> read_bytes (ld_ram (r_img s')) (sg_addr sg) (length (sg_data sg)) = sg_data sg) (ai_segments im);
  sd_irom : sees_segment icfg (flash (r_boot s')) (SOC_IROM (ic_soc icfg)) part im (r_mmu s');
  sd_drom : apart_maps (pick (SOC_DROM (ic_soc icfg)) (placed (pos_offset part) im)) (pick (SOC_IROM (ic_soc icfg)) (placed (pos_offset part) im)) ->
    sees_segment icfg (flash (r_boot s')) (SOC_DROM (ic_soc icfg)) part im (r_mmu s');
  sd_spares : spares_bootloader icfg (ld_ram (r_img s)) (ld_ram (r_img s'))
}.

(** Loads that failed: only RAM may have changed. *)
Record tried (s s' : run) : Prop := {
  tr_boot : r_boot s' = r_boot s;
  tr_mmu : r_mmu s' = r_mmu s;
  tr_spares : spares_bootloader icfg (ld_ram (r_img s)) (ld_ram (r_img s'))
}.

Lemma spares_refl m : spares_bootloader icfg m m.
Proof. by intros x y Hx. Qed.

Lemma spares_trans m1 m2 m3 : spares_bootloader icfg m1 m2 -> spares_bootloader icfg m2 m3 -> spares_bootloader icfg m1 m3.
Proof. intros H1' H2' x y Hx. destruct (Z.eq_dec (m3 x) (m2 x)) as [E'|E']; [apply H1'; congruence|by apply H2']. Qed.

Lemma tried_refl s : tried s s.
Proof. split; [done..|apply spares_refl]. Qed.

Lemma tried_trans s1 s2 s3 : tried s1 s2 -> tried s2 s3 -> tried s1 s3.
Proof. intros [A1 A2 A3] [B1 B2 B3]. split; [congruence..|by eapply spares_trans]. Qed.

Lemma tried_started part entry im s1 s2 s3 : tried s1 s2 -> started part entry im s2 s3 -> started part entry im s1 s3.
Proof. intros [_ _ A3] [B1 B2 B3 B4 B5 B6]. split; [done..|by eapply spares_trans]. Qed.

(** ** Loading a partition *)

Abbreviation load_at f part := (bootloader_load_image icfg sha256 verify_signature_block random f (Some part) true).
Abbreviation outcome_at f := (load_outcome icfg sha256 verify_signature_block random f (lo_pages _ _ _ LO) (lo_random _ _ _ LO) (lo_sha256 _ _ _ LO)
  (lo_signature _ _ _ LO) (lo_debugger _ _ _ LO) (lo_bootloader _ _ _ LO) (lo_validates _ _ _ LO) (lo_chip _ _ _ LO)).

Lemma load_ok_checked sgs sg : load_ok icfg true sgs -> In sg sgs -> loads icfg true sg = true -> load_check icfg sg = None -> False.
Proof. intros Hl Hin Hld Hn. rewrite (proj1 (List.Forall_forall _ _) Hl sg Hin Hld) in Hn. done. Qed.

(** Whether a load succeeds depends on flash only. *)
Lemma loadable_iff bs f part : part_ok bs part -> good f ->
  loadable f part = true <-> at_ok icfg f true part /\ hash_ok icfg sha256 f (pos_offset part).
Proof.
  intros [P1 P2 P3 P4 P5 _] Hg. unfold loadable. pose proof (outcome_at f part blank P1 P2 P3) as O.
  destruct (load_at f part blank) as [err s'| |]; [| |done].
  - destruct O as [_ O]. destruct (is_ok err); split; try done.
    + intros _. by destruct O as (? & ? & _).
    + intros [Ha Hh]. destruct O as [_ O]. exfalso. apply O; [done|done|apply (lo_memory _ _ _ LO)|by apply P4|by apply P5].
  - split; [done|]. intros [[_ _ Ha _ _] _]. destruct O as (sg & Hin & Hl & Hn & _). exfalso. by eapply load_ok_checked.
Qed.

Lemma run_load_spec bs part (s : run) : slot_ok bs part -> good (flash (r_boot s)) -> run_ok s ->
  match run_load_partition icfg sha256 verify_signature_block random part s with
  | RET b s' => b = try_load_partition loadable (r_boot s) part /\ tried s s' /\ run_ok s' /\
      (b = true -> let im := image_at icfg (flash (r_boot s)) (pos_offset part) in
        part_ok bs part /\ holds_image icfg sha256 (flash (r_boot s)) part im /\ metadata_of sha256 (pos_offset part) im (ld_data (r_img s')) /\
        (apart_loaded icfg (ai_segments im) ->
         Forall (fun sg => loads icfg true sg = true -> read_bytes (ld_ram (r_img s')) (sg_addr sg) (length (sg_data sg)) = sg_data sg) (ai_segments im)))
  | ABORT => pos_size part <> 0 /\ crossing (flash (r_boot s)) part
  | RESTART _ => False
  end.
Proof.
  intros Hp Hg Hs. unfold run_load_partition, try_load_partition. destruct (Z.eqb_spec (pos_size part) 0) as [|Hz].
  { split; [done|]. split; [apply tried_refl|done]. }
  destruct Hp as [|Hp]; [done|]. pose proof Hp as [P1 P2 P3 P4 P5 _]. unfold mbind, M_bind, on_img.
  pose proof (outcome_at (flash (r_boot s)) part (r_img s) P1 P2 P3) as O. pose proof (loadable_iff bs (flash (r_boot s)) part Hp Hg) as L.
  pose proof (img_load_image icfg sha256 verify_signature_block random (flash (r_boot s)) (Some part) true (r_img s) (proj1 Hs)) as K.
  destruct (load_at (flash (r_boot s)) part (r_img s)) as [err i| |]; [| |done]; cycle 1.
  { split; [done|]. destruct O as (sg & Hin & _ & _ & Hx). by exists sg. }
  destruct O as [O1 O2]. cbn [r_boot r_img]. split; [|split; [by split|split; [by split; [|apply Hs]|]]].
  - destruct (is_ok err).
    + symmetry. apply L. by destruct O2 as (? & ? & _).
    + destruct (loadable (flash (r_boot s)) part) eqn:El; [|done]. destruct L as [L _]. destruct (L eq_refl) as [Ha Hh]. destruct O2 as [_ O2].
      exfalso. apply O2; [done|done|apply (lo_memory _ _ _ LO)|by apply P4|by apply P5].
  - intros Eok. rewrite Eok in O2. destruct O2 as (Ha & Hh & Hm & Hr). split; [done|]. split_and!; [|done|].
    + apply at_ok_holds; try done. apply (lo_sha256 _ _ _ LO).
    + apply Hr. apply Hs.
Qed.

(** ** Starting an application *)

(** The flash of the partition is not touched. *)
Definition spares_part (part : esp_partition_pos_t) (b b' : boot_state F E) : Prop :=
  forall enc x, in_part part x -> view enc (flash b') x = view enc (flash b) x.

Lemma holds_image_spared part im b b' : offset_ok (pos_offset part) -> spares_part part b b' ->
  holds_image icfg sha256 (flash b) part im -> holds_image icfg sha256 (flash b') part im.
Proof.
  intros Ho Hsp [Hi Hf]. split; [done|]. unfold flash_holds, img_view in *. rewrite <- Hf at 2. apply read_bytes_agree. intros x Hx. apply Hsp.
  destruct (image_at_ok icfg sha256 (flash b) (lo_sha256 _ _ _ LO) part im) as (Eim & Ha & _); [by destruct Ho|done|done|].
  pose proof (at_ok_length icfg (flash b) false part Ho Ha) as Hl. pose proof Ha as [A1 A2 _ _ _].
  destruct (image_at_lengths icfg sha256 (flash b) (lo_sha256 _ _ _ LO) (pos_offset part) A1 A2) as [_ El]. rewrite <- Eim in El. unfold in_part, zlen in *. lia.
Qed.

Lemma run_partition_spec bs part before (s : run) : slot_ok bs part -> good (flash (r_boot s)) -> run_ok s ->
  (part_ok bs part -> spares_part part (r_boot s) (before (r_boot s))) ->
  match run_partition cfg icfg sha256 verify_signature_block random part before s with
  | RET (Some entry) s' => bootable cfg loadable (r_boot s) part = true /\ r_boot s' = before (r_boot s) /\ exists im, started part entry im s s'
  | RET None s' => bootable cfg loadable (r_boot s) part = false /\ tried s s' /\ run_ok s'
  | ABORT => stuck (r_boot s) part
  | RESTART _ => False
  end.
Proof.
  intros Hp Hg Hs Hb. unfold run_partition, bootable. rewrite (bind_RET (gets _) _ s (check_anti_rollback cfg (r_boot s) part) s) by done.
  destruct (check_anti_rollback cfg (r_boot s) part); cbn [negb andb]; [|by split; [|split; [apply tried_refl|]]].
  pose proof (run_load_spec bs part s Hp Hg Hs) as L. unfold mbind at 1, M_bind at 1.
  destruct (run_load_partition _ _ _ _ part s) as [b s1| |]; [| |done]; cycle 1.
  { destruct L as [L1 L2]. split; [done|by left]. }
  destruct L as (-> & Ht & Hs1 & L). destruct (try_load_partition loadable (r_boot s) part) eqn:Et; cbn [negb]; [|done].
  destruct (L eq_refl) as (Hpo & Hi & Hm & Hr). pose proof Ht as [T1 T2 T3]. clear L. set (im := image_at icfg (flash (r_boot s)) (pos_offset part)) in *.
  specialize (Hb Hpo). pose proof Hpo as [P1 P2 P3 _ _ _].
  assert (Hi' : holds_image icfg sha256 (flash (before (r_boot s))) part im) by (by eapply holds_image_spared).
  unfold mbind at 1, M_bind at 1, on_boot. unfold load_image. unfold mbind at 1, M_bind at 1, mbind at 1, M_bind at 1, gets, on_mmu. cbn [r_boot r_img r_mmu].
  rewrite (unpack_spec icfg sha256 (flash (r_boot s)) (lo_sha256 _ _ _ LO) part im (ld_data (r_img s1)) (r_mmu s1)) by (done || apply Hs1).
  destruct (app_can_map icfg part im) eqn:Ec; cycle 1.
  { split; [|right; by exists im]. unfold try_load_partition in Et. by destruct (Z.eqb_spec (pos_size part) 0). }
  split; [done|]. cbn [r_boot]. rewrite T1. split; [done|]. exists im.
  destruct (started_sees icfg sha256 (flash (before (r_boot s))) (lo_sha256 _ _ _ LO) part im (r_mmu s1) P1 P3 Hi' Ec) as [Si Sd].
  by split.
Qed.

(** ** Trying the partitions *)

Lemma write_otadata_good f e a enc : good f -> good (write_otadata f e a enc).2.
Proof.
  intros Hg. unfold write_otadata. pose proof (good_erase f (a / FLASH_SECTOR_SIZE * FLASH_SECTOR_SIZE) FLASH_SECTOR_SIZE Hg) as G.
  destruct (fl_erase f _ _) as [err f1]. by destruct (is_ok err); [apply good_write|].
Qed.

Lemma update_anti_rollback_flash (b : boot_state F E) part : flash (update_anti_rollback cfg b part) = flash b.
Proof. unfold update_anti_rollback. destruct (bootloader_common_get_partition_description _ _ _) as [err d]. by destruct (is_ok err). Qed.

(** Recording the start changes the first OTA data sector only. *)
Lemma write_otadata_page f e bs : length (seq_label e) = 20%nat -> only_changes (ota_page bs) (2 * FLASH_SECTOR_SIZE) f (write_otadata f e (ota_sector bs 0) (cfg_encrypted cfg)).2.
Proof.
  intros He. unfold write_otadata, ota_page. set (a := ota_sector bs 0). set (page := a / FLASH_SECTOR_SIZE * FLASH_SECTOR_SIZE).
  assert (Hp : page <= a < page + FLASH_SECTOR_SIZE) by (unfold page, FLASH_SECTOR_SIZE; Z.to_euclidean_division_equations; lia).
  pose proof (law_erase_frame f page FLASH_SECTOR_SIZE) as C1. destruct (fl_erase f page FLASH_SECTOR_SIZE) as [err f1]. cbn [snd] in C1. unfold FLASH_SECTOR_SIZE in *.
  destruct (is_ok err); cycle 1. { cbn [snd]. by eapply only_changes_wider; [exact C1|lia|lia]. }
  pose proof (law_write_frame (cfg_encrypted cfg) f1 a (encode_entry e)) as C2. assert (Hl : length (encode_entry e) = 32%nat) by (unfold encode_entry; rewrite !length_app, He; done).
  rewrite Hl in C2. intros enc x Hx. rewrite C2, C1 by lia. done.
Qed.

Lemma set_actual_ota_seq_spares bs index part b : part_ok bs part -> spares_part part b (set_actual_ota_seq cfg bs index b).
Proof.
  intros [_ _ _ _ _ Hap] enc x Hx. unfold set_actual_ota_seq. specialize (Hap x Hx).
  destruct (CONFIG_BOOTLOADER_SKIP_VALIDATE_IN_DEEP_SLEEP cfg || _), ((FACTORY_INDEX <? index) && bt_initial b), (CONFIG_BOOTLOADER_APP_ANTI_ROLLBACK cfg);
    cbn [bt_flash set_rtc set_flash]; rewrite ?update_anti_rollback_flash; cbn [bt_flash set_flash]; try done;
    by apply (write_otadata_page (flash b) _ bs).
Qed.

Lemma in_table bs index : table_ok bs -> slot_ok bs (index_to_partition bs index).
Proof.
  intros Ht. unfold table_ok, table_parts in Ht. inversion_clear Ht as [|? ? Hf Ht2]. inversion_clear Ht2 as [|? ? Ht Ho]. rewrite list.Forall_forall in Ho. unfold index_to_partition.
  destruct (index =? FACTORY_INDEX); [done|]. destruct (index =? TEST_APP_INDEX); [done|].
  destruct (_ && _); [|by left]. destruct (nth_in_or_default (Z.to_nat index) (bs_ota bs) no_pos) as [Hin| ->]; [|by left].
  by apply Ho, list_elem_of_In.
Qed.

(** Some partition of the table makes the bootloader give up. *)
Definition some_stuck (bs : bootloader_state_t) (b : boot_state F E) : Prop := exists part, In part (table_parts bs) /\ stuck b part.

Lemma stuck_in_table bs index b : stuck b (index_to_partition bs index) -> some_stuck bs b.
Proof.
  intros Hst. exists (index_to_partition bs index). split; [|done]. destruct Hst as [Hz _]. revert Hz. unfold index_to_partition, table_parts.
  destruct (index =? FACTORY_INDEX); [by left|]. destruct (index =? TEST_APP_INDEX); [by right; left|]. destruct (_ && _); [|done].
  destruct (nth_in_or_default (Z.to_nat index) (bs_ota bs) no_pos) as [Hin| ->]; [|done]. by right; right.
Qed.

Lemma run_indices_spec bs l : forall s : run, table_ok bs -> good (flash (r_boot s)) -> run_ok s ->
  match run_indices cfg icfg sha256 verify_signature_block random bs l s with
  | RET (Some entry) s' => exists part im, try_indices cfg loadable bs (r_boot s) l = Some (BOOT part (r_boot s')) /\ started part entry im s s'
  | RET None s' => try_indices cfg loadable bs (r_boot s) l = None /\ tried s s' /\ run_ok s'
  | ABORT => some_stuck bs (r_boot s)
  | RESTART _ => False
  end.
Proof.
  induction l as [|index l IH]; intros s Ht Hg Hs; [by split; [|split; [apply tried_refl|]]|]. cbn [run_indices try_indices].
  set (part := index_to_partition bs index). destruct (Z.eqb_spec (pos_size part) 0) as [|Hz]; [by apply IH|].
  pose proof (in_table bs index Ht) as Hp. fold part in Hp.
  pose proof (run_partition_spec bs part (set_actual_ota_seq cfg bs index) s Hp Hg Hs ltac:(intros; by apply set_actual_ota_seq_spares)) as P.
  unfold mbind at 1, M_bind at 1. destruct (run_partition _ _ _ _ _ part _ s) as [[entry|] s1| |]; [| | |done].
  - destruct P as (Eb & Er & im & Hst). exists part, im. rewrite Eb, <- Er. done.
  - destruct P as (-> & Htr & Hs1). pose proof Htr as [T1 T2 T3]. specialize (IH s1 Ht). rewrite T1 in IH. specialize (IH Hg Hs1).
    destruct (run_indices _ _ _ _ _ bs l s1) as [[entry|] s2| |]; [| |done|done].
    + destruct IH as (part' & im & E1 & Hst). exists part', im. split; [done|]. by eapply tried_started.
    + destruct IH as (E1 & Htr2 & Hs2). split; [done|]. split; [by eapply tried_trans|done].
  - by apply (stuck_in_table bs index).
Qed.

Lemma run_boot_image_spec bs start (s0 : run) : table_ok bs -> good (flash (r_boot s0)) -> run_ok s0 ->
  match run_boot_image cfg icfg sha256 verify_signature_block random bs start s0 with
  | RET entry s' => exists part im, bootloader_utility_load_boot_image cfg loadable bs start (r_boot s0) = BOOT part (r_boot s') /\ started part entry im s0 s'
  | RESTART s' => bootloader_utility_load_boot_image cfg loadable bs start (r_boot s0) = RESET (r_boot s')
  | ABORT => some_stuck bs (r_boot s0)
  end.
Proof.
  intros Ht Hg Hs0. unfold run_boot_image, bootloader_utility_load_boot_image. rewrite (bind_RET zero_image_data _ s0 _ _ eq_refl).
  set (s := mkRun (r_boot s0) (set_data zero_metadata (r_img s0)) (r_mmu s0)). assert (Hs : run_ok s) by apply (run_zero s0 Hs0).
  assert (Hz : forall part entry im s', started part entry im s s' -> started part entry im s0 s').
  { intros part entry im s' Hst. eapply tried_started; [|exact Hst]. split; [done..|apply spares_refl]. }
  assert (Eb : r_boot s = r_boot s0) by done. rewrite <- Eb in Hg |- *. clearbody s. clear Eb.
  assert (Test : forall s1 : run, r_boot s1 = r_boot s -> run_ok s1 ->
    match run_partition cfg icfg sha256 verify_signature_block random (bs_test bs) id s1 with
    | RET (Some entry) s' => exists im, bootable cfg loadable (r_boot s) (bs_test bs) = true /\ r_boot s' = r_boot s /\ started (bs_test bs) entry im s1 s'
    | RET None s' => bootable cfg loadable (r_boot s) (bs_test bs) = false /\ r_boot s' = r_boot s
    | ABORT => some_stuck bs (r_boot s)
    | RESTART _ => False
    end).
  { intros s1 E1 Hs1. pose proof (in_table bs TEST_APP_INDEX Ht) as Hp. change (index_to_partition bs TEST_APP_INDEX) with (bs_test bs) in Hp.
    pose proof (run_partition_spec bs (bs_test bs) id s1 Hp) as P. rewrite E1 in P. specialize (P Hg Hs1 ltac:(done)).
    destruct (run_partition _ _ _ _ _ (bs_test bs) id s1) as [[entry|] s2| |]; [| | |done].
    - destruct P as (Eb & Er & im & Hst). by exists im.
    - destruct P as (Eb & [T1 _ _] & _). split; [done|congruence].
    - by apply (stuck_in_table bs TEST_APP_INDEX). }
  destruct (start =? TEST_APP_INDEX).
  { specialize (Test s eq_refl Hs). unfold mbind, M_bind. destruct (run_partition _ _ _ _ _ (bs_test bs) id s) as [[entry|] s2| |]; [| |done|done].
    - destruct Test as (im & -> & Er & Hst). exists (bs_test bs), im. rewrite Er. split; [done|by apply Hz].
    - destruct Test as [-> Er]. cbn. by rewrite Er. }
  pose proof (run_indices_spec bs (indices_down start) s Ht Hg Hs) as D. unfold mbind at 1, M_bind at 1.
  destruct (run_indices _ _ _ _ _ bs (indices_down start) s) as [[entry|] s1| |]; [| |done|done].
  { destruct D as (part & im & -> & Hst). exists part, im. split; [done|by apply Hz]. }
  destruct D as (-> & Htr1 & Hs1). pose proof Htr1 as [T1 _ _].
  pose proof (run_indices_spec bs (indices_up bs start) s1 Ht) as U. rewrite T1 in U. specialize (U Hg Hs1). unfold mbind at 1, M_bind at 1.
  destruct (run_indices _ _ _ _ _ bs (indices_up bs start) s1) as [[entry|] s2| |]; [| |done|done].
  { destruct U as (part & im & -> & Hst). exists part, im. split; [done|]. apply Hz. by eapply tried_started. }
  destruct U as (-> & Htr2 & Hs2). pose proof Htr2 as [T2 _ _]. specialize (Test s2 ltac:(congruence) Hs2). unfold mbind at 1, M_bind at 1.
  destruct (run_partition _ _ _ _ _ (bs_test bs) id s2) as [[entry|] s3| |]; [| |done|done].
  - destruct Test as (im & -> & Er & Hst). exists (bs_test bs), im. rewrite Er. split; [done|]. apply Hz. eapply tried_started; [|exact Hst]. by eapply tried_trans.
  - destruct Test as [-> Er]. unfold zero_image_data, mbind, M_bind, modify, bootloader_reset. cbn [r_boot]. by rewrite Er.
Qed.

(** ** The whole bootloader *)

Lemma abort_pending_good bs i b t : good (flash b) -> good (flash (abort_pending cfg bs i (b, t)).1).
Proof. intros Hg. unfold abort_pending. destruct (_ =? _); [|done]. cbn [fst]. by apply write_otadata_good. Qed.

Lemma boot_active_good bs b t i r : good (flash b) -> boot_active cfg bs b t i = Some r -> good (flash r.2).
Proof.
  intros Hg. unfold boot_active. destruct (i =? -1); [by intros [= <-]|]. destruct (ota_slot_of _ _) as [slot|]; [|done].
  destruct (_ && _); [destruct (_ && _)|destruct (_ && _)]; intros [= <-]; cbn [snd]; rewrite ?update_anti_rollback_flash; try done; by apply write_otadata_good.
Qed.

Lemma selected_good bs b r : good (flash b) -> bootloader_utility_get_selected_boot_partition cfg bs b = Some r -> good (flash r.2).
Proof.
  intros Hg. unfold bootloader_utility_get_selected_boot_partition. destruct (_ =? 0); [by intros [= <-]|].
  destruct (read_otadata _ _ _) as [err t]. destruct (is_ok err); [|by intros [= <-]]. cbn [negb].
  set (p := if CONFIG_BOOTLOADER_APP_ROLLBACK_ENABLE cfg then _ else _).
  assert (Hp : good (flash p.1)).
  { unfold p. destruct (CONFIG_BOOTLOADER_APP_ROLLBACK_ENABLE cfg); [|done].
    pose proof (abort_pending_good bs 0 (set_initial false b) t Hg) as G. destruct (abort_pending cfg bs 0 _) as [b1 t1]. by apply abort_pending_good. }
  destruct p as [b1 t1]. cbn [fst] in Hp. destruct (CONFIG_BOOTLOADER_APP_ANTI_ROLLBACK cfg); cbn [negb].
  - destruct (initial_entry t1.1 && initial_entry t1.2); [by intros [= <-]|].
    destruct (get_active_otadata_with_check_anti_rollback _ _ _ _) as [i|]; [|done]. by apply boot_active_good.
  - destruct (_ || _); [|by apply boot_active_good]. destruct (negb _); [by intros [= <-]|]. destruct (_ && _); by intros [= <-].
Qed.

(** The bootloader after which no pin is held, and that is not woken from
    deep sleep to skip validation. *)
Abbreviation start_cpu := (call_start_cpu0 cfg md5 icfg sha256 verify_signature_block random None false).
Hypothesis no_shortcut : CONFIG_BOOTLOADER_SKIP_VALIDATE_IN_DEEP_SLEEP cfg = true -> ic_deep_sleep icfg = false.
(** The partition table in flash, if it is valid, has such partitions. *)
Definition tables_ok (f : F) : Prop := forall bs, bootloader_utility_load_partition_table cfg md5 f bs_zero = (true, bs) -> table_ok bs.

Lemma start_cpu_unfold s : start_cpu s =
  (r ← select_partition_number cfg md5 icfg None false;
   let '(boot_index, bs) := r in if boot_index =? INVALID_INDEX then bootloader_reset else run_boot_image cfg icfg sha256 verify_signature_block random bs boot_index) s.
Proof.
  unfold call_start_cpu0. destruct (CONFIG_BOOTLOADER_SKIP_VALIDATE_IN_DEEP_SLEEP cfg) eqn:Es; [|done].
  unfold bootloader_utility_load_boot_image_from_deep_sleep. by rewrite (no_shortcut eq_refl).
Qed.

End Run.

(** ** Example

    A table with OTA data and two slots; slot 0 has an image with a segment
    each for DROM, IROM, DRAM and IRAM, slot 1 and the OTA data are erased. *)

Definition br_image : app_image :=
  mkImage ([0xE9; 4; 2; 0x20] ++ le32 0x4201002C ++ [0xEE; 0; 0; 0; 5; 0; 0; 0; 0; 0xFF; 0xFF; 0; 0; 0; 0; 1])
    [mkSegment 0x3C000020 [1; 2; 3; 4]; mkSegment 0x4201002C [5; 6; 7; 8]; mkSegment 0x3FC80000 [9; 10; 11; 12; 13; 14; 15; 16]; mkSegment 0x40390000 [17; 18; 19; 20]]
    (repeat 0 3).
Definition br_table : list Z :=
  entry_bytes ESP_PARTITION_MAGIC 1 0 0xd000 0x2000 0 ++ entry_bytes ESP_PARTITION_MAGIC 0 0x10 0x10000 0x100000 0 ++
  entry_bytes ESP_PARTITION_MAGIC 0 0x11 0x110000 0x100000 0.
Definition br_part : esp_partition_pos_t := mkPos 0x10000 0x100000.
Definition br_flash : nor := mkNor (memcpy (memcpy (fun _ => 0xFF) 0x8000 br_table) 0x10000 (image_bytes xi_sha256 br_image)) 0x400000.
Definition br_md5 (_ : list Z) : list Z := [].
Definition br_start : boot_run nor Z :=
  mkRun (mkBoot br_flash 0 false ex_rtc) (mkImg zero_metadata None 0 (fun _ => 0) (0, 0)) (mkMmu (repeat 0 128) 3).

Lemma br_loader : loader_ok (xi_cfg true false) xi_sha256 xi_random.
Proof. split; first [done|apply xi_pages|apply xi_sha256_length|apply xi_chip_ok]. Qed.

Lemma br_part_ok off bs : bs_ota_info bs = mkPos 0xd000 0x2000 -> off = 0x10000 \/ off = 0x110000 -> part_ok (xi_cfg true false) ex_works bs (mkPos off 0x100000).
Proof.
  intros Eb Ho. split; cbn [pos_offset pos_size].
  - destruct Ho as [-> | ->]; by split_and!.
  - destruct Ho as [-> | ->]; discriminate.
  - discriminate.
  - intros f Hf. apply xi_readable; [done|lia|lia].
  - intros f Hf. apply xi_mappable; [done|lia|lia].
  - intros x Hx. unfold in_part in Hx. cbn [pos_offset pos_size] in Hx. right. unfold ota_page, ota_sector. rewrite Eb.
    change (0xF000 <= x). lia.
Qed.

Lemma br_tables_ok : tables_ok ex_cfg br_md5 (xi_cfg true false) ex_works br_flash.
Proof.
  intros bs. assert (El : bootloader_utility_load_partition_table ex_cfg br_md5 br_flash bs_zero = (true, ex_bs)) by (vm_compute; reflexivity).
  rewrite El. clear El. intros [= <-]. unfold table_ok, table_parts, ex_bs. cbn [bs_factory bs_test bs_ota repeat].
  repeat match goal with |- Forall _ _ => constructor | _ => first [by left|right; apply br_part_ok; [reflexivity|lia]] end.
Qed.

Lemma ex_works_write enc (f : nor) a l : ex_works f -> ex_works (fl_write enc f a l).2.
Proof. intros Hf. cbn [fl_write nor_dev]. by destruct (_ && _). Qed.

Lemma ex_works_erase (f : nor) a n : ex_works f -> ex_works (fl_erase f a n).2.
Proof. intros Hf. cbn [fl_erase nor_dev]. by destruct (in_range _ _ _). Qed.

Abbreviation br_run := (call_start_cpu0 ex_cfg br_md5 (xi_cfg true false) xi_sha256 xi_signature xi_random None false br_start).

