(* ===== verification/BootCommon.v ===== *)
(** * Factory reset

    components/bootloader_support/src/bootloader_common.c: the search of a
    partition label in the configured list, the long press of a pin, and the
    factory reset, which erases data partitions, with
    [bootloader_flash_erase_range] of bootloader_flash.c in the build of the
    bootloader.  A C string is the list of its bytes without the terminator. *)

From S2P Require Import Prelude CMem Flash OtaData PartitionTable SecureVersion Bootloader.

(** ** Strings *)

(** [strstr]: the offset of the first occurrence. *)
Fixpoint strstr (s w : list Z) : option nat :=
  if bool_decide (w = take (length w) s) then Some O
  else match s with [] => None | _ :: s => S <$> strstr s w end.

Definition is_delim (c : Z) : bool := (c =? 44) || (c =? 32). (* ',' and ' ' *)

(** [strcspn(s, ", ")] *)
Fixpoint strcspn (s : list Z) : nat :=
  match s with [] => O | c :: s => if is_delim c then O else S (strcspn s) end.

(** The bytes of a field up to its terminator. *)
Fixpoint label_string (l : list Z) : list Z :=
  match l with [] => [] | c :: l => if c =? 0 then [] else c :: label_string l end.

(** [list[i]], with the terminator. *)
Definition char_at (l : list Z) (i : nat) : Z := nth i l 0.

(** ** The search of a label *)

Definition strstr_at (l : list Z) (p : nat) (label : list Z) : option nat := (fun i => (p + i)%nat) <$> strstr (drop p l) label.

(** The [while] loop; [None] if it has not ended after [fuel] rounds. *)
Fixpoint search_loop (fuel : nat) (l label : list Z) (sub_list_start_like_label : option nat) : option bool :=
  match sub_list_start_like_label, fuel with
  | None, _ => Some false
  | Some _, O => None
  | Some idx_first, S fuel =>
      let next := char_at l (idx_first + length label) in
      if ((idx_first =? 0)%nat || is_delim (char_at l (idx_first - 1))) && ((next =? 0) || is_delim next) then Some true
      else
        let sub := drop idx_first l in
        let pos_delim := strcspn sub in
        if (pos_delim =? length sub)%nat then Some false
        else search_loop fuel l label (strstr_at l (idx_first + pos_delim) label)
  end.

(** A pointer is [None] for [NULL]. *)
Definition bootloader_common_label_search (list label : option (list Z)) : option bool :=
  match list, label with
  | Some l, Some label => search_loop (S (length l)) l label (strstr l label)
  | _, _ => Some false
  end.

(** ** A pin that is held *)

Inductive esp_comm_gpio_hold_t := GPIO_NOT_HOLD | GPIO_LONG_HOLD | GPIO_SHORT_HOLD.

(** The [do] loop: [level_at] and [time_at] are the level of the pin and the
    timestamp in milliseconds in the rounds from the [i]-th on. *)
Fixpoint hold_loop (fuel : nat) (level_at : nat -> bool) (time_at : nat -> Z) (i : nat) (tm_start delay_sec : Z) (level : bool) : option esp_comm_gpio_hold_t :=
  match fuel with
  | O => None
  | S fuel =>
      if negb (eqb (level_at i) level) then Some GPIO_SHORT_HOLD
      else if u32 (time_at i - tm_start) / 1000 <? delay_sec then hold_loop fuel level_at time_at (S i) tm_start delay_sec level
      else Some GPIO_LONG_HOLD
  end.

Definition bootloader_common_check_long_hold_gpio_level (fuel : nat) (level_at : nat -> bool) (time_at : nat -> Z) (delay_sec : Z) (level : bool)
    : option esp_comm_gpio_hold_t :=
  let tm_start := time_at 0%nat in
  if negb (eqb (level_at 0%nat) level) then Some GPIO_NOT_HOLD
  else hold_loop fuel level_at time_at 1 tm_start delay_sec level.

Definition bootloader_common_check_long_hold_gpio (fuel : nat) (level_at : nat -> bool) (time_at : nat -> Z) (delay_sec : Z) : option esp_comm_gpio_hold_t :=
  bootloader_common_check_long_hold_gpio_level fuel level_at time_at delay_sec false.

(** ** Erasing *)

Definition FLASH_BLOCK_SIZE : Z := 0x10000.
Definition sectors_per_block : Z := FLASH_BLOCK_SIZE / FLASH_SECTOR_SIZE.

Section Erase.
Context {F : Type} `{FlashDev F}.

(** The loop over sectors and blocks; [None] if it has not ended after [fuel]
    rounds. *)
Fixpoint erase_sectors (fuel : nat) (f : F) (sector end_ : Z) : option (esp_err_t * F) :=
  if sector =? end_ then Some (ESP_OK, f)
  else
    match fuel with
    | O => None
    | S fuel =>
        let '(step, (err, f)) :=
          if (sector mod sectors_per_block =? 0) && (sectors_per_block <=? u32 (end_ - sector))
          then (sectors_per_block, fl_erase f (sector / sectors_per_block * FLASH_BLOCK_SIZE) FLASH_BLOCK_SIZE)
          else (1, fl_erase f (sector * FLASH_SECTOR_SIZE) FLASH_SECTOR_SIZE) in
        if is_ok err then erase_sectors fuel f (u32 (sector + step)) end_ else Some (err, f)
    end.

Definition bootloader_flash_erase_range (f : F) (start_addr size : Z) : option (esp_err_t * F) :=
  if negb (start_addr mod FLASH_SECTOR_SIZE =? 0) then Some (ESP_ERR_INVALID_ARG, f)
  else if negb (size mod FLASH_SECTOR_SIZE =? 0) then Some (ESP_ERR_INVALID_SIZE, f)
  else
    let start := start_addr / FLASH_SECTOR_SIZE in
    let end_ := u32 (start + size / FLASH_SECTOR_SIZE) in
    erase_sectors (Z.to_nat (size / FLASH_SECTOR_SIZE)) f start end_.

Context (cfg : boot_config) (md5 : list Z -> list Z).

(** The body of the loop over the partitions, for one of them. *)
Definition erase_partition (list_erase : list Z) (ota_data_erase : bool) (partition : esp_partition_info_t) (ret : bool) (f : F) : option (bool * F) :=
  if pi_type partition =? PART_TYPE_DATA then
    let fl_ota_data_erase := ota_data_erase && (pi_subtype partition =? PART_SUBTYPE_DATA_OTA) in
    do* erase <- (if fl_ota_data_erase then Some true else bootloader_common_label_search (Some list_erase) (Some (label_string (pi_label partition))));
    if erase then
      do* (err, f) <- bootloader_flash_erase_range f (pos_offset (pi_pos partition)) (pos_size (pi_pos partition));
      Some (if is_ok err then ret else false, f)
    else Some (ret, f)
  else Some (ret, f).

(** The entries are read through the mapping while partitions are erased. *)
Fixpoint erase_entries (list_erase : list Z) (ota_data_erase : bool) (n : nat) (i : Z) (ret : bool) (f : F) : option (bool * F) :=
  match n with
  | O => Some (ret, f)
  | S n =>
      do* (ret, f) <- erase_partition list_erase ota_data_erase (info_at (boot_view cfg f) (CONFIG_PARTITION_TABLE_OFFSET cfg) i) ret f;
      erase_entries list_erase ota_data_erase n (i + 1) ret f
  end.

Definition bootloader_common_erase_part_type_data (list_erase : list Z) (ota_data_erase : bool) (f : F) : option (bool * F) :=
  if is_ok (fl_mmap f (CONFIG_PARTITION_TABLE_OFFSET cfg) ESP_PARTITION_TABLE_MAX_LEN) then
    let '(err, num_partitions) := esp_partition_table_verify md5 (cfg_chip_size cfg) (boot_view cfg f) (CONFIG_PARTITION_TABLE_OFFSET cfg) in
    if is_ok err then erase_entries list_erase ota_data_erase (Z.to_nat num_partitions) 0 true f
    else Some (false, f)
  else Some (false, f).
End Erase.
