(* ===== verification/FactoryReset.v ===== *)
(** * What a factory reset erases

    The label search ends and finds exactly the labels of the list; the
    factory reset erases exactly the data partitions that are listed, and the
    OTA data if it is asked to. *)

From S2P Require Import Prelude CMem Crc Flash OtaData PartitionTable SecureVersion Bootloader BootTheorems Mmu ImageFormat ImageExample BootStart BootInvariant BootCommon.

(** ** The labels of a list *)

(** The list cut at its delimiters. *)
Fixpoint tokens (l : list Z) : list (list Z) :=
  match l with
  | [] => [[]]
  | c :: l => if is_delim c then [] :: tokens l else match tokens l with t :: ts => (c :: t) :: ts | [] => [[c]] end
  end.

(** A label without delimiters. *)
Definition plain (w : list Z) : Prop := Forall (fun c => is_delim c = false) w.

Lemma tokens_cons l : exists t ts, tokens l = t :: ts.
Proof. destruct l as [|c l]; [by exists [], []|]. cbn. destruct (is_delim c); [by eexists _, _|]. destruct (tokens l); by eexists _, _. Qed.

Lemma tokens_delim a d r : is_delim d = true -> tokens (a ++ d :: r) = tokens a ++ tokens r.
Proof.
  intros Hd. induction a as [|c a IH]; cbn [app tokens]; [by rewrite Hd|]. destruct (is_delim c); [by rewrite IH|]. rewrite IH.
  destruct (tokens_cons a) as (t & ts & ->). done.
Qed.

Lemma tokens_plain w : plain w -> tokens w = [w].
Proof. induction 1 as [|c w Hc Hw IH]; [done|]. cbn. by rewrite Hc, IH. Qed.

(** What precedes the next delimiter. *)
Lemma next_delim s : exists x r, s = x ++ r /\ plain x /\ strcspn s = length x /\ (r = [] \/ exists d r', r = d :: r' /\ is_delim d = true).
Proof.
  induction s as [|c s IH]; [exists [], []; split_and!; auto; constructor|]. destruct IH as (x & r & -> & Hx & Hl & Hr). cbn. destruct (is_delim c) eqn:Ec.
  - exists [], (c :: x ++ r). split_and!; [done|constructor|done|]. right. by eexists _, _.
  - exists (c :: x), r. rewrite Hl. split_and!; try done. by constructor.
Qed.

(** What follows the last delimiter. *)
Lemma last_delim s : exists r x, s = r ++ x /\ plain x /\ (r = [] \/ exists r' d, r = r' ++ [d] /\ is_delim d = true).
Proof.
  induction s as [|c s IH] using rev_ind; [exists [], []; split_and!; auto; constructor|]. destruct IH as (r & x & -> & Hx & Hr). destruct (is_delim c) eqn:Ec.
  - exists ((r ++ x) ++ [c]), []. rewrite app_nil_r. split_and!; [done|constructor|]. right. by eexists _, _.
  - exists r, (x ++ [c]). rewrite app_assoc. split_and!; [done| |done]. apply Forall_app. split; [done|by constructor].
Qed.

Lemma strstr_here s w : (exists b, s = w ++ b) -> strstr s w = Some O.
Proof. intros [b ->]. destruct (w ++ b) eqn:E; cbn; rewrite <- ?E, take_app_length, bool_decide_eq_true_2; done. Qed.

(** The first occurrence. *)
Lemma strstr_spec s w : match strstr s w with
  | Some i => exists a b, s = a ++ w ++ b /\ length a = i /\ forall a' b', s = a' ++ w ++ b' -> (i <= length a')%nat
  | None => forall a b, s <> a ++ w ++ b
  end.
Proof.
  induction s as [|c s IH].
  - cbn. case_bool_decide as E.
    + exists [], []. rewrite take_nil in E. subst. split_and!; [done|done|]. intros. cbn. lia.
    + intros a b Hab. destruct E. symmetry in Hab. apply app_eq_nil in Hab as [_ Hab]. apply app_eq_nil in Hab as [-> _]. done.
  - cbn [strstr]. case_bool_decide as E.
    + exists [], (drop (length w) (c :: s)). split_and!; [|done|cbn; lia]. cbn [app]. rewrite E at 1. by rewrite take_drop.
    + assert (Hne : forall b, c :: s <> w ++ b) by (intros b Hb; apply E; by rewrite Hb, take_app_length).
      destruct (strstr s w) as [i|]; cbn.
      * destruct IH as (a & b & -> & <- & Hmin). exists (c :: a), b. split_and!; [done|done|]. intros [|c' a'] b' Hab; [by destruct (Hne b')|]. injection Hab as -> Hab.
        cbn. apply Hmin in Hab. lia.
      * intros [|c' a] b Hab; [by apply (Hne b)|]. injection Hab as -> Hab. by apply (IH a b).
Qed.

(** A label of a list occurs in it. *)
Lemma token_occurs s w : w ∈ tokens s -> exists a b, s = a ++ w ++ b.
Proof.
  revert w. induction s as [|c s IH]; intros w; cbn.
  - intros ->%list_elem_of_singleton. by exists [], [].
  - destruct (is_delim c).
    + intros [->|(a & b & ->)%IH]%elem_of_cons; [by exists [], (c :: s)|by exists (c :: a), b].
    + destruct (tokens_cons s) as (t & ts & E). rewrite E. intros [->|Hin]%elem_of_cons.
      * (* the first token is a prefix *)
        exists [], (drop (length t) s). cbn. f_equal. clear IH. revert t ts E. induction s as [|c' s IHs]; intros t ts; cbn; [by intros [= <- <-]|].
        destruct (is_delim c'); [by intros [= <- <-]|]. destruct (tokens_cons s) as (t' & ts' & E'). rewrite E'. intros [= <- <-]. cbn. f_equal. by eapply IHs.
      * destruct (IH w) as (a & b & ->); [rewrite E; by apply elem_of_cons; right|]. by exists (c :: a), b.
Qed.

(** A token in the middle of a list. *)
Lemma tokens_split r t b w : plain t -> (r = [] \/ exists r' d, r = r' ++ [d] /\ is_delim d = true) -> (b = [] \/ exists d b', b = d :: b' /\ is_delim d = true) ->
  w ∈ tokens (r ++ t ++ b) <-> (r <> [] /\ w ∈ tokens (removelast r)) \/ w = t \/ (b <> [] /\ w ∈ tokens (List.tl b)).
Proof.
  intros Ht Hr Hb. assert (E : w ∈ tokens (t ++ b) <-> w = t \/ (b <> [] /\ w ∈ tokens (List.tl b))).
  { destruct Hb as [->|(d & b' & -> & Hd)].
    - rewrite app_nil_r, tokens_plain, list_elem_of_singleton by done. split; [auto|intros [?|[? _]]; done].
    - rewrite tokens_delim, tokens_plain by done. rewrite elem_of_app, list_elem_of_singleton. split; [intros [?|?]; auto|intros [?|[_ ?]]; auto]. }
  destruct Hr as [->|(r' & d & -> & Hd)]; [cbn [app]; rewrite E; split; [auto|intros [[? _]|?]; done]|]. rewrite <- app_assoc. cbn [app]. rewrite tokens_delim, elem_of_app, E by done.
  rewrite removelast_last. assert (r' ++ [d] <> []) by (by destruct r'). tauto.
Qed.

Lemma strcspn_plain x y : plain x -> strcspn (x ++ y) = (length x + strcspn y)%nat.
Proof. induction 1 as [|c x Hc Hx IH]; [done|]. cbn. by rewrite Hc, IH. Qed.

Lemma plain_app x y : plain (x ++ y) <-> plain x /\ plain y.
Proof. apply Forall_app. Qed.

Lemma char_at_drop l p s i : drop p l = s -> char_at l (p + i) = char_at s i.
Proof. intros <-. unfold char_at. rewrite !nth_lookup. by rewrite lookup_drop. Qed.

Section Search.
Context (l w : list Z).
Hypothesis no_nul : Forall (fun c => c <> 0) l.
Hypothesis nonempty : w <> [].
Hypothesis label_plain : plain w.

(** The two tests for delimiters, for an occurrence [w] between [a] and [b]. *)
Lemma test_first p a b r x : drop p l = a ++ w ++ b -> a = r ++ x -> plain x -> (r = [] \/ exists r' d, r = r' ++ [d] /\ is_delim d = true) ->
  (p = 0%nat \/ is_delim (char_at l p) = true) ->
  ((p + length a =? 0)%nat || is_delim (char_at l (p + length a - 1))) = bool_decide (x = []).
Proof.
  intros Hs -> Hx Hr Hp. destruct x as [|c x _] using rev_ind.
  - rewrite app_nil_r in *. rewrite bool_decide_eq_true_2 by done. destruct Hr as [->|(r' & d & -> & Hd)].
    + destruct Hp as [->|Hp]; [done|]. exfalso. replace p with (p + 0)%nat in Hp by lia. rewrite (char_at_drop l p _ 0 Hs) in Hp.
      destruct w as [|c w']; [done|]. cbn in Hp. apply Forall_inv in label_plain. congruence.
    + rewrite length_app. cbn [length]. replace (p + (length r' + 1) - 1)%nat with (p + length r')%nat by lia. rewrite (char_at_drop l p _ _ Hs).
      unfold char_at. rewrite <- app_assoc. cbn [app]. rewrite nth_middle. by rewrite Hd, orb_true_r.
  - rewrite bool_decide_eq_false_2 by (by destruct x). rewrite !length_app. cbn [length].
    replace (p + (length r + (length x + 1)) - 1)%nat with (p + length (r ++ x))%nat by (rewrite length_app; lia). rewrite (char_at_drop l p _ _ Hs).
    apply plain_app in Hx as [_ Hc]. apply Forall_inv in Hc. unfold char_at.
    replace ((r ++ x ++ [c]) ++ w ++ b) with ((r ++ x) ++ c :: w ++ b) by (by rewrite <- !app_assoc). rewrite nth_middle, Hc, orb_false_r. apply Nat.eqb_neq. lia.
Qed.

Lemma test_next p a b y r : drop p l = a ++ w ++ b -> b = y ++ r -> plain y -> (r = [] \/ exists d r', r = d :: r' /\ is_delim d = true) ->
  let next := char_at l (p + length a + length w) in ((next =? 0) || is_delim next) = bool_decide (y = []).
Proof.
  intros Hs -> Hy Hr. replace (p + length a + length w)%nat with (p + length (a ++ w))%nat by (rewrite length_app; lia).
  rewrite (char_at_drop l p _ _ Hs), app_assoc. unfold char_at. rewrite app_nth2, Nat.sub_diag by lia.
  destruct y as [|c y]; cbn.
  - destruct Hr as [->|(d & r' & -> & Hd)]; [done|]. cbn. by rewrite Hd, orb_true_r.
  - apply Forall_inv in Hy. rewrite Hy, orb_false_r. apply Z.eqb_neq.
    pose proof (Forall_drop _ p _ no_nul) as Hn. rewrite Hs, !Forall_app in Hn. destruct Hn as (_ & _ & Hn & _). by apply Forall_inv in Hn.
Qed.

(** An occurrence that is not a label of the list does not lose one when the
    search goes on behind it. *)
Lemma search_step p a b : drop p l = a ++ w ++ b -> (forall a' b', drop p l = a' ++ w ++ b' -> (length a <= length a')%nat) ->
  (p = 0%nat \/ is_delim (char_at l p) = true) -> exists r x y t,
  a = r ++ x /\ b = y ++ t /\ strcspn (w ++ b) = (length w + length y)%nat /\ (t = [] \/ exists d t', t = d :: t' /\ is_delim d = true) /\
  ((p + length a =? 0)%nat || is_delim (char_at l (p + length a - 1))) && ((char_at l (p + length a + length w) =? 0) || is_delim (char_at l (p + length a + length w)))
    = bool_decide (x = [] /\ y = []) /\
  (w ∈ tokens (drop p l) <-> (x = [] /\ y = []) \/ (t <> [] /\ w ∈ tokens t)).
Proof.
  intros Hs Hmin Hp. destruct (last_delim a) as (r & x & Ea & Hx & Hr). destruct (next_delim b) as (y & t & Eb & Hy & Ey & Ht).
  exists r, x, y, t. split_and!; [done|done|by rewrite strcspn_plain, Ey by done|done| |].
  - rewrite (test_first p a b r x Hs Ea Hx Hr Hp), (test_next p a b y t Hs Eb Hy Ht), <- bool_decide_and. done.
  - assert (Es : drop p l = r ++ (x ++ w ++ y) ++ t) by (rewrite Hs, Ea, Eb, <- !app_assoc; done).
    rewrite Es, tokens_split; [|by rewrite !plain_app|done|done]. split.
    + intros [[Hn Hin]|[Hw|[Hn Hin]]].
      * exfalso. apply token_occurs in Hin as (a' & b' & E'). destruct Hr as [->|(r' & d & -> & _)]; [done|]. rewrite removelast_last in E'. subst r'.
        specialize (Hmin a' (b' ++ [d] ++ (x ++ w ++ y) ++ t)). rewrite Es in Hmin. rewrite <- !app_assoc in Hmin. specialize (Hmin eq_refl).
        rewrite Ea, !length_app in Hmin. destruct w; [done|]. cbn in Hmin. lia.
      * left. assert (Hl : length w = length (x ++ w ++ y)) by (by rewrite <- Hw). rewrite !length_app in Hl. destruct x, y; cbn in Hl; (done || lia).
      * right. split; [done|]. destruct Ht as [->|(d & t' & -> & Hd)]; [done|]. cbn in Hin |- *. rewrite Hd. apply elem_of_cons. by right.
    + intros [[-> ->]|[Hn Hin]]; [right; left; by rewrite app_nil_r|]. right. right. split; [done|].
      destruct Ht as [->|(d & t' & -> & Hd)]; [done|]. cbn in Hin |- *. rewrite Hd in Hin. by apply elem_of_cons in Hin as [->|].
Qed.

Lemma search_loop_spec fuel : forall p, (p = 0%nat \/ is_delim (char_at l p) = true) -> (length l < fuel + p)%nat ->
  search_loop fuel l w (strstr_at l p w) = Some (bool_decide (w ∈ tokens (drop p l))).
Proof.
  induction fuel as [|fuel IH]; intros p Hp Hf.
  { unfold strstr_at. rewrite drop_ge by lia. cbn. rewrite take_nil, bool_decide_eq_false_2 by done. cbn. rewrite bool_decide_eq_false_2; [done|].
    intros Hw%list_elem_of_singleton. done. }
  unfold strstr_at. pose proof (strstr_spec (drop p l) w) as Hsp. destruct (strstr (drop p l) w) as [i|]; cbn [fmap option_fmap option_map]; cycle 1.
  { cbn. rewrite bool_decide_eq_false_2; [done|]. intros (a & b & E)%token_occurs. by apply (Hsp a b). }
  destruct Hsp as (a & b & Hs & <- & Hmin). destruct (search_step p a b Hs Hmin Hp) as (r & x & y & t & Ea & Eb & Ec & Ht & Etest & Etok).
  cbn [search_loop]. rewrite Etest. case_bool_decide as Hxy.
  { rewrite bool_decide_eq_true_2; [done|]. apply Etok. by left. }
  assert (Ed : drop (p + length a) l = w ++ b) by (by rewrite <- drop_drop, Hs, drop_app_length).
  rewrite Ed, Ec. destruct (Nat.eqb_spec (length w + length y) (length (w ++ b))) as [El|El].
  - rewrite bool_decide_eq_false_2; [done|]. rewrite Etok. rewrite Eb, !length_app in El. destruct t; [intros [?|[? _]]; done|cbn in El; lia].
  - assert (Hw : (0 < length w)%nat) by (destruct w; [done|cbn; lia]).
    assert (Ed' : drop (p + length a + (length w + length y)) l = t).
    { rewrite <- drop_drop, Ed, Eb, app_assoc. rewrite <- length_app. apply drop_app_length. }
    rewrite IH; [|right|lia].
    + rewrite Ed'. f_equal. apply bool_decide_ext. rewrite Etok. destruct t; [exfalso; rewrite Eb, !length_app in El; cbn in El; lia|].
      split; [intros Hin; by right|intros [?|[_ ?]]; done].
    + destruct Ht as [->|(d & t' & -> & Hd)]; [exfalso; rewrite Eb, !length_app in El; cbn in El; lia|].
      replace (p + length a + (length w + length y))%nat with (p + length a + (length w + length y) + 0)%nat by lia. by rewrite (char_at_drop l _ _ 0 Ed').
Qed.
End Search.

Lemma label_string_no_nul l : Forall (fun c => c <> 0) (label_string l).
Proof. induction l as [|c l IH]; cbn; [constructor|]. destruct (Z.eqb_spec c 0); by constructor. Qed.

Lemma label_search_spec l label : Forall (fun c => c <> 0) l -> label <> [] -> plain label ->
  bootloader_common_label_search (Some l) (Some label) = Some (bool_decide (label ∈ tokens l)).
Proof.
  intros Hl Hn Hp. unfold bootloader_common_label_search. pose proof (search_loop_spec l label Hl Hn Hp (S (length l)) 0 ltac:(by left) ltac:(lia)) as E.
  unfold strstr_at in E. rewrite drop_0 in E. rewrite <- E. f_equal. by destruct (strstr l label).
Qed.

(** ** Erasing ranges *)

Section Erase.
Context {F : Type} `{FlashLaws F}.

Lemma erase_sectors_spec n : forall (f : F) sector end_, 0 <= sector <= end_ -> end_ < 2 ^ 32 -> (Z.to_nat (end_ - sector) <= n)%nat ->
  exists err f', erase_sectors n f sector end_ = Some (err, f') /\ only_changes (4096 * sector) (4096 * (end_ - sector)) f f' /\
    (err = ESP_OK -> erased (4096 * sector) (4096 * (end_ - sector)) f').
Proof.
  induction n as [|n IH]; intros f sector end_ Hs He Hn; cbn [erase_sectors].
  { destruct (Z.eqb_spec sector end_) as [->|]; [|lia]. exists ESP_OK, f. split_and!; [done|done|]. intros _ x Hx. lia. }
  destruct (Z.eqb_spec sector end_) as [->|Hne]. { exists ESP_OK, f. split_and!; [done|done|]. intros _ x Hx. lia. }
  rewrite u32_small by lia. change sectors_per_block with 16. unfold FLASH_BLOCK_SIZE, FLASH_SECTOR_SIZE.
  assert (Step : forall step a len (r : esp_err_t * F), 0 < step <= end_ - sector -> a = 4096 * sector -> len = 4096 * step -> r = fl_erase f a len ->
    exists err f', (let '(err, f) := r in if is_ok err then erase_sectors n f (u32 (sector + step)) end_ else Some (err, f)) = Some (err, f') /\
      only_changes (4096 * sector) (4096 * (end_ - sector)) f f' /\ (err = ESP_OK -> erased (4096 * sector) (4096 * (end_ - sector)) f')).
  { intros step a len r Hst -> -> ->. pose proof (law_erase_frame f (4096 * sector) (4096 * step)) as C1. pose proof (law_erase f (4096 * sector) (4096 * step)) as L1.
    destruct (fl_erase f (4096 * sector) (4096 * step)) as [err1 f1]. cbn [snd] in C1. destruct (is_ok_spec err1) as [->|Hn1]; cycle 1.
    { exists err1, f1. split_and!; [done| |done]. eapply only_changes_wider; [exact C1|lia|lia]. }
    rewrite u32_small by lia. destruct (IH f1 (sector + step) end_ ltac:(lia) He ltac:(lia)) as (err & f' & -> & C2 & L2). exists err, f'. split_and!; [done| |].
    - intros enc x Hx. rewrite C2, C1 by lia. done.
    - intros E x Hx. destruct (decide (x < 4096 * (sector + step))); [|apply L2; [done|lia]]. rewrite C2 by lia. apply (L1 f1 eq_refl). lia. }
  destruct ((sector mod 16 =? 0) && (16 <=? end_ - sector)) eqn:Eb.
  - apply andb_true_iff in Eb as [Eb1%Z.eqb_eq Eb2%Z.leb_le]. apply (Step 16 (sector / 16 * 0x10000) 0x10000); [lia| |lia|done]. Z.to_euclidean_division_equations. lia.
  - by apply (Step 1 (sector * 0x1000) 0x1000); [lia|lia|lia|].
Qed.

Lemma erase_range_spec (f : F) start size : is_u32 start -> is_u32 size ->
  exists err f', bootloader_flash_erase_range f start size = Some (err, f') /\ only_changes start size f f' /\ (err = ESP_OK -> erased start size f').
Proof.
  unfold is_u32, bootloader_flash_erase_range, FLASH_SECTOR_SIZE. intros Hst Hsz.
  destruct (Z.eqb_spec (start mod 0x1000) 0) as [E1|]; [|by eexists _, f]. destruct (Z.eqb_spec (size mod 0x1000) 0) as [E2|]; [|by eexists _, f]. cbn [negb].
  assert (Hr : 0 <= start / 4096 < 2 ^ 20 /\ 0 <= size / 4096 < 2 ^ 20 /\ start = 4096 * (start / 4096) /\ size = 4096 * (size / 4096))
    by (Z.to_euclidean_division_equations; lia). destruct Hr as (R1 & R2 & R3 & R4). change 0x1000 with 4096.
  rewrite (u32_small (start / 4096 + size / 4096)) by lia. destruct (erase_sectors_spec (Z.to_nat (size / 4096)) f (start / 4096) (start / 4096 + size / 4096)) as (err & f' & E & C & L); [lia..|].
  replace (start / 4096 + size / 4096 - start / 4096) with (size / 4096) in C, L by lia. rewrite <- R3, <- R4 in C, L. by exists err, f'.
Qed.
End Erase.

(** ** The factory reset *)

Section Reset.
Context {F : Type} `{FlashLaws F}.
Context (cfg : boot_config) (md5 : list Z -> list Z) (list_erase : list Z) (ota_data_erase : bool).
Abbreviation table := (CONFIG_PARTITION_TABLE_OFFSET cfg).

(** The data partitions that are to be erased. *)
Definition selected (p : esp_partition_info_t) : bool :=
  (pi_type p =? PART_TYPE_DATA) &&
  ((ota_data_erase && (pi_subtype p =? PART_SUBTYPE_DATA_OTA)) || bool_decide (label_string (pi_label p) ∈ tokens list_erase)).
Definition inside (p : esp_partition_info_t) (x : Z) : Prop := pos_offset (pi_pos p) <= x < pos_offset (pi_pos p) + pos_size (pi_pos p).
Definition erased_part (p : esp_partition_info_t) (f : F) : Prop := erased (pos_offset (pi_pos p)) (pos_size (pi_pos p)) f.

(** Data partitions have labels without delimiters, and those that are erased
    are apart from the table. *)
Record entry_fine (p : esp_partition_info_t) : Prop := {
  ef_label : pi_type p = PART_TYPE_DATA -> label_string (pi_label p) <> [] /\ plain (label_string (pi_label p));
  ef_apart : selected p = true -> forall x, inside p x -> x < table \/ table + ESP_PARTITION_TABLE_MAX_LEN <= x
}.
Hypothesis no_nul : Forall (fun c => c <> 0) list_erase.

Lemma info_u32 (f : F) i : let p := info_at (boot_view cfg f) table i in is_u32 (pos_offset (pi_pos p)) /\ is_u32 (pos_size (pi_pos p)).
Proof.
  unfold info_at, decode_info. cbn [pi_pos pos_offset pos_size]. set (bs := read_bytes _ _ _).
  assert (Hb : Forall is_byte bs) by apply read_bytes_byte. assert (Hl : length bs = 32%nat) by apply length_read_bytes.
  split; apply get32_range; (done || lia).
Qed.

(** The mapped entries do not change. *)
Definition keeps_table (f f' : F) : Prop := forall enc x, table <= x < table + ESP_PARTITION_TABLE_MAX_LEN -> view enc f' x = view enc f x.

Lemma info_kept f f' i : keeps_table f f' -> 0 <= i < ESP_PARTITION_TABLE_MAX_ENTRIES ->
  info_at (boot_view cfg f') table i = info_at (boot_view cfg f) table i.
Proof.
  intros Hk Hi. unfold info_at. f_equal. apply read_bytes_agree. intros x Hx. apply Hk. unfold PartitionTable.entry_addr in *.
  change (Z.of_nat (Z.to_nat PARTITION_INFO_SIZE)) with 32 in Hx. change ESP_PARTITION_TABLE_MAX_ENTRIES with 96 in Hi.
  unfold PARTITION_INFO_SIZE, ESP_PARTITION_TABLE_MAX_LEN in *. lia.
Qed.

Lemma erase_partition_spec p ret f : entry_fine p -> is_u32 (pos_offset (pi_pos p)) -> is_u32 (pos_size (pi_pos p)) -> exists ret' f',
  erase_partition list_erase ota_data_erase p ret f = Some (ret', f') /\
  (forall enc x, view enc f' x <> view enc f x -> selected p = true /\ inside p x) /\
  (ret' = true -> ret = true /\ (selected p = true -> erased_part p f')).
Proof.
  intros [Hl Ha] H1 H2. unfold erase_partition, selected in *. destruct (Z.eqb_spec (pi_type p) PART_TYPE_DATA) as [Et|]; [|by exists ret, f].
  destruct (Hl Et) as [L1 L2]. rewrite (label_search_spec list_erase) by done. cbn [andb] in *.
  assert (E : (if ota_data_erase && (pi_subtype p =? PART_SUBTYPE_DATA_OTA) then Some true else Some (bool_decide (label_string (pi_label p) ∈ tokens list_erase))) =
    Some ((ota_data_erase && (pi_subtype p =? PART_SUBTYPE_DATA_OTA)) || bool_decide (label_string (pi_label p) ∈ tokens list_erase))) by (by destruct (_ && _)).
  rewrite E. destruct (_ || _); [|by exists ret, f].
  destruct (erase_range_spec f _ _ H1 H2) as (err & f' & -> & C & L). exists (if is_ok err then ret else false), f'. split_and!; [done| |].
  - intros enc x Hx. split; [done|]. destruct (decide (inside p x)) as [|Hn]; [done|]. destruct Hx. apply C. unfold inside in Hn. lia.
  - destruct (is_ok_spec err) as [->|]; [|done]. intros ->. split; [done|]. intros _. by apply L.
Qed.

Lemma erase_entries_spec n : forall f0 f i ret, keeps_table f0 f -> 0 <= i -> i + Z.of_nat n <= ESP_PARTITION_TABLE_MAX_ENTRIES ->
  let info j := info_at (boot_view cfg f0) table j in
  (forall j, i <= j < i + Z.of_nat n -> entry_fine (info j)) -> exists ret' f',
  erase_entries cfg list_erase ota_data_erase n i ret f = Some (ret', f') /\
  (forall enc x, view enc f' x <> view enc f x -> exists j, i <= j < i + Z.of_nat n /\ selected (info j) = true /\ inside (info j) x) /\
  (ret' = true -> ret = true /\ forall j, i <= j < i + Z.of_nat n -> selected (info j) = true -> erased_part (info j) f').
Proof.
  induction n as [|n IH]; intros f0 f i ret Hk Hi Hn info Hf; cbn [erase_entries].
  { exists ret, f. split_and!; [done|done|]. intros ->. split; [done|]. intros j Hj. lia. }
  rewrite (info_kept f0 f i Hk) by lia. fold (info i). destruct (info_u32 f0 i) as [U1 U2]. fold (info i) in U1, U2. pose proof (Hf i ltac:(lia)) as Hfi.
  destruct (erase_partition_spec (info i) ret f Hfi U1 U2) as (ret1 & f1 & -> & C1 & L1).
  assert (Hk1 : keeps_table f0 f1).
  { intros enc x Hx. destruct (Z.eq_dec (view enc f1 x) (view enc f x)) as [->|Hne]; [by apply Hk|]. apply C1 in Hne as [Hs Hin].
    destruct (ef_apart _ Hfi Hs x Hin); lia. }
  destruct (IH f0 f1 (i + 1) ret1 Hk1 ltac:(lia) ltac:(lia)) as (ret' & f' & -> & C2 & L2); [intros j Hj; apply Hf; lia|]. fold info in C2, L2.
  exists ret', f'. split_and!; [done| |].
  - intros enc x Hx. destruct (Z.eq_dec (view enc f' x) (view enc f1 x)) as [E|Hne].
    + rewrite E in Hx. apply C1 in Hx as [Hs Hin]. exists i. split_and!; [lia|lia|done|done].
    + apply C2 in Hne as (j & Hj & Hs). exists j. split; [lia|done].
  - intros Hr. destruct (L2 Hr) as [-> L2']. destruct (L1 eq_refl) as [-> L1']. split; [done|]. intros j Hj Hs.
    destruct (decide (j = i)) as [->|Hne]; [|apply L2'; [lia|done]]. intros x Hx.
    destruct (Z.eq_dec (view false f' x) (view false f1 x)) as [->|Hc]; [by apply L1'|]. apply C2 in Hc as (k & Hkr & Hks & Hkx). by apply (L2' k Hkr Hks).
Qed.

(** The whole factory reset. *)
Lemma erase_entries_done f num : fl_mmap f table ESP_PARTITION_TABLE_MAX_LEN = ESP_OK ->
  esp_partition_table_verify md5 (cfg_chip_size cfg) (boot_view cfg f) table = (ESP_OK, num) -> Forall entry_fine (table_entries cfg f num) ->
  exists ret f', bootloader_common_erase_part_type_data cfg md5 list_erase ota_data_erase f = Some (ret, f') /\
    (forall enc x, view enc f' x <> view enc f x -> exists p, p ∈ table_entries cfg f num /\ selected p = true /\ inside p x) /\
    (ret = true -> forall p, p ∈ table_entries cfg f num -> selected p = true -> erased_part p f').
Proof.
  intros Hm Hv Hf. unfold bootloader_common_erase_part_type_data. rewrite Hm, Hv. cbn [is_ok].
  assert (Hn : 0 <= num <= 96).
  { apply partition_table_accepts in Hv as (k & mi & (Hk & _ & Hmi & _) & ->). change ESP_PARTITION_TABLE_MAX_ENTRIES with 96 in Hk.
    destruct mi as [i|]; [destruct (Hmi i eq_refl)|]; lia. }
  assert (Hin : forall p, p ∈ table_entries cfg f num <-> exists j, 0 <= j < num /\ p = info_at (boot_view cfg f) table j).
  { intros p. unfold table_entries. rewrite list_elem_of_fmap. split.
    - intros (i & -> & Hi%list_elem_of_In%in_seq). exists (Z.of_nat i). split; [lia|done].
    - intros (j & Hj & ->). exists (Z.to_nat j). split; [by rewrite Z2Nat.id by lia|]. apply list_elem_of_In, in_seq. lia. }
  destruct (erase_entries_spec (Z.to_nat num) f f 0 true ltac:(done) ltac:(lia)) as (ret & f' & E & C & L).
  - change ESP_PARTITION_TABLE_MAX_ENTRIES with 96. lia.
  - intros j Hj. rewrite list.Forall_forall in Hf. apply Hf, Hin. exists j. split; [lia|done].
  - exists ret, f'. split_and!; [done| |].
    + intros enc x Hx. destruct (C enc x Hx) as (j & Hj & Hs). exists (info_at (boot_view cfg f) table j). split; [apply Hin; exists j; split; [lia|done]|done].
    + intros Hr p (j & Hj & ->)%Hin Hs. apply L; [done|lia|done].
Qed.

(** C8: Let the partition table be valid and readable, all data partitions in
    it have labels that are not empty and contain no delimiter (comma or
    blank), and the partitions to be erased lie apart from the table. Then the
    factory reset, bootloader_common_erase_part_type_data, ends; only flash of
    data partitions that the list names, or of OTA data when asked to, may
    change, and when it reports success all of these are erased. (With an
    empty label it does not end, see the findings.) *)
Theorem factory_reset_erases f num : fl_mmap f table ESP_PARTITION_TABLE_MAX_LEN = ESP_OK ->
  esp_partition_table_verify md5 (cfg_chip_size cfg) (boot_view cfg f) table = (ESP_OK, num) -> Forall entry_fine (table_entries cfg f num) ->
  exists ret f', bootloader_common_erase_part_type_data cfg md5 list_erase ota_data_erase f = Some (ret, f') /\
    (forall enc x, view enc f' x <> view enc f x -> exists p, p ∈ table_entries cfg f num /\ selected p = true /\ inside p x) /\
    (ret = true -> forall p, p ∈ table_entries cfg f num -> selected p = true -> erased_part p f').
Proof. by apply erase_entries_done. Qed.
End Reset.

(** ** In the bootloader *)

Section Select.
Context {F E : Type} `{FlashLaws F} `{EfuseDev E}.
Context (cfg : boot_config) (md5 : list Z -> list Z) (icfg : image_config).
Context (list_erase : list Z) (ota_data_erase : bool).

(** The call of the factory reset in [selected_boot_partition]. *)
Definition reset_data : M (boot_run F E) unit := fun s =>
  match bootloader_common_erase_part_type_data cfg md5 list_erase ota_data_erase (bt_flash (r_boot s)) with
  | Some (_, f) => RET tt (mkRun (set_flash f (r_boot s)) (r_img s) (r_mmu s))
  | None => ABORT
  end.

Lemma reset_data_ok : preserves run_ok reset_data.
Proof. intros s Hs. unfold reset_data. by destruct (bootloader_common_erase_part_type_data _ _ _ _ _) as [[]|]. Qed.

(** Erased OTA data select the factory application. *)
Lemma erased_selects_factory bs (b : boot_state F E) : cfg_encrypted cfg = false -> pos_offset (bs_ota_info bs) <> 0 ->
  2 * SPI_SEC_SIZE <= pos_size (bs_ota_info bs) -> fl_mmap (bt_flash b) (pos_offset (bs_ota_info bs)) (pos_size (bs_ota_info bs)) = ESP_OK ->
  pos_offset (bs_factory bs) <> 0 -> erased (pos_offset (bs_ota_info bs)) (pos_size (bs_ota_info bs)) (bt_flash b) ->
  exists b', bootloader_utility_get_selected_boot_partition cfg bs b = Some (FACTORY_INDEX, b') /\ bt_flash b' = bt_flash b.
Proof.
  intros He Ho Hsz Hm Hfac Her. set (off := pos_offset (bs_ota_info bs)) in *. unfold bootloader_utility_get_selected_boot_partition, read_otadata.
  fold off. rewrite (proj2 (Z.eqb_neq off 0)), (proj2 (Z.ltb_ge _ _) Hsz), Hm by done. cbn [is_ok negb].
  assert (Hr : forall a, off <= a -> a + 32 <= off + pos_size (bs_ota_info bs) -> read_bytes (boot_view cfg (bt_flash b)) a SELECT_ENTRY_SIZE = repeat 0xFF 32).
  { intros a H1' H2'. unfold boot_view. rewrite He. rewrite (read_bytes_agree _ (fun _ => 0xFF)); [done|]. intros x Hx. apply Her. unfold SELECT_ENTRY_SIZE in Hx. lia. }
  unfold SPI_SEC_SIZE in *. rewrite !Hr by lia. set (e := decode_entry (repeat 0xFF 32)).
  assert (Hp : forall (s : boot_state F E) i, i = 0 \/ i = 1 -> abort_pending cfg bs i (s, (e, e)) = (s, (e, e))) by (intros s i [->| ->]; done).
  rewrite !Hp by auto. replace (if CONFIG_BOOTLOADER_APP_ROLLBACK_ENABLE cfg then _ else _) with (set_initial (F := F) (E := E) false b, (e, e)) by (by destruct (CONFIG_BOOTLOADER_APP_ROLLBACK_ENABLE cfg)).
  destruct (CONFIG_BOOTLOADER_APP_ANTI_ROLLBACK cfg); cbn [negb fst snd].
  - change (initial_entry e) with true. by eexists.
  - change (bootloader_common_ota_select_invalid e) with true. cbn [andb orb]. rewrite (proj2 (Z.eqb_neq (pos_offset (bs_factory bs)) 0)) by done. by eexists.
Qed.

(** When the pin of the factory reset is held and all the chosen partitions
    were erased, the OTA data among them, the factory application is
    selected, whatever the OTA data said before. *)
Theorem factory_reset_selects_factory app_test_held bs (s : boot_run F E) index b f num p :
  ic_deep_sleep icfg = false -> cfg_encrypted cfg = false ->
  bootloader_utility_get_selected_boot_partition cfg bs (r_boot s) = Some (index, b) -> index <> INVALID_INDEX ->
  fl_mmap (bt_flash b) (CONFIG_PARTITION_TABLE_OFFSET cfg) ESP_PARTITION_TABLE_MAX_LEN = ESP_OK ->
  esp_partition_table_verify md5 (cfg_chip_size cfg) (boot_view cfg (bt_flash b)) (CONFIG_PARTITION_TABLE_OFFSET cfg) = (ESP_OK, num) ->
  Forall (fun c => c <> 0) list_erase -> Forall (entry_fine cfg list_erase ota_data_erase) (table_entries cfg (bt_flash b) num) ->
  bootloader_common_erase_part_type_data cfg md5 list_erase ota_data_erase (bt_flash b) = Some (true, f) ->
  p ∈ table_entries cfg (bt_flash b) num -> selected list_erase ota_data_erase p = true -> pi_pos p = bs_ota_info bs ->
  pos_offset (bs_ota_info bs) <> 0 -> 2 * SPI_SEC_SIZE <= pos_size (bs_ota_info bs) -> pos_offset (bs_factory bs) <> 0 ->
  fl_mmap f (pos_offset (bs_ota_info bs)) (pos_size (bs_ota_info bs)) = ESP_OK ->
  exists s', selected_boot_partition cfg icfg (Some reset_data) app_test_held bs s = RET FACTORY_INDEX s' /\ bt_flash (r_boot s') = f.
Proof.
  intros Hds Henc Hsel Hidx Hm Hv Hl Hf Her Hin Hp Epos Ho Hsz Hfac Hmm. unfold selected_boot_partition, mbind at 1, M_bind at 1, select_index at 1.
  rewrite Hsel, (proj2 (Z.eqb_neq _ _) Hidx), Hds. unfold mbind, M_bind, reset_data. cbn [r_boot]. rewrite Her.
  destruct (erase_entries_done cfg md5 list_erase ota_data_erase Hl (bt_flash b) num Hm Hv Hf) as (ret & f' & E1 & _ & L). rewrite E1 in Her. injection Her as -> ->.
  specialize (L eq_refl p Hin Hp). unfold erased_part in L. rewrite Epos in L. unfold select_index. cbn [r_boot].
  destruct (erased_selects_factory bs (set_flash f b) Henc Ho Hsz Hmm Hfac L) as (b' & -> & Eb). by eexists.
Qed.
End Select.

(** C40: For a list without zero bytes and a label that is not empty and
    contains no delimiter, bootloader_common_label_search ends, and finds the
    label exactly when it is one of the labels that the list names, separated
    by commas or blanks. (For an empty label it does not end, see the
    findings.) *)
Theorem label_search_finds_labels l label : Forall (fun c => c <> 0) l -> label <> [] -> plain label ->
  bootloader_common_label_search (Some l) (Some label) = Some (bool_decide (label ∈ tokens l)).
Proof. apply label_search_spec. Qed.

(** ** Labels that the search does not end for *)

Definition nvs_otadata : list Z := [110; 118; 115; 44; 32; 111; 116; 97; 100; 97; 116; 97]. (* "nvs, otadata" *)

(** [strstr] finds the empty label at the delimiter where it is searched from,
    again and again. *)
Lemma empty_label_never_ends fuel : search_loop fuel nvs_otadata [] (strstr nvs_otadata []) = None.
Proof.
  assert (Stay : forall n, search_loop n nvs_otadata [] (Some 3%nat) = None) by (induction n as [|n IH]; [done|exact IH]).
  destruct fuel as [|fuel]; [done|]. exact (Stay fuel).
Qed.

(** ** A pin *)

(** A long press: the level is held in every round until the time is over. *)
Lemma long_hold_spec fuel level_at time_at delay_sec level :
  bootloader_common_check_long_hold_gpio_level fuel level_at time_at delay_sec level = Some GPIO_LONG_HOLD ->
  exists n, (forall i, (i <= n)%nat -> level_at i = level) /\ delay_sec <= u32 (time_at n - time_at 0%nat) / 1000.
Proof.
  unfold bootloader_common_check_long_hold_gpio_level. destruct (eqb_spec (level_at 0%nat) level) as [E0|]; [|done]. cbn [negb]. intros Hl.
  enough (Loop : forall fuel i, hold_loop fuel level_at time_at i (time_at 0%nat) delay_sec level = Some GPIO_LONG_HOLD ->
    exists n, (i <= n)%nat /\ (forall j, (i <= j <= n)%nat -> level_at j = level) /\ delay_sec <= u32 (time_at n - time_at 0%nat) / 1000).
  { destruct (Loop _ _ Hl) as (n & Hn & Hj & Ht). exists n. split; [|done]. intros [|i] Hi; [done|]. apply Hj. lia. }
  clear fuel Hl. induction fuel as [|fuel IH]; intros i; cbn [hold_loop]; [done|]. destruct (eqb_spec (level_at i) level) as [Ei|]; [|done]. cbn [negb].
  destruct (Z.ltb_spec (u32 (time_at i - time_at 0%nat) / 1000) delay_sec) as [Hlt|Hge].
  - intros Hl. destruct (IH _ Hl) as (n & Hn & Hj & Ht). exists n. split_and!; [lia| |done]. intros j Hji. destruct (decide (j = i)) as [->|]; [done|]. apply Hj. lia.
  - intros _. exists i. split_and!; [lia| |lia]. intros j Hji. by replace j with i by lia.
Qed.

(** ** Examples

    A chip with NVS and OTA data, a factory application and a slot; slot 0 is
    selected by the OTA data. *)

Definition fr_entry (type subtype offset size : Z) (label : list Z) : list Z :=
  [0xAA; 0x50; type; subtype] ++ le32 offset ++ le32 size ++ label ++ repeat 0 (16 - length label) ++ le32 0.
Definition fr_table : list Z :=
  fr_entry 1 2 0x9000 0x4000 [110; 118; 115] ++ fr_entry 1 0 0xd000 0x2000 [111; 116; 97; 100; 97; 116; 97] ++
  fr_entry 0 0 0x10000 0x100000 [102] ++ fr_entry 0 0x10 0x110000 0x100000 [111; 48].
Definition fr_flash : nor := mkNor (memcpy (memcpy (nor_mem ex_nor) 0x8000 fr_table) 0x9000 [1; 2; 3]) 0x400000.
Definition fr_md5 (_ : list Z) : list Z := [].
Definition fr_bs : bootloader_state_t :=
  mkBs (mkPos 0xd000 0x2000) (mkPos 0x10000 0x100000) no_pos (mkPos 0x110000 0x100000 :: repeat no_pos 15) 1.
Definition fr_start : boot_run nor Z := mkRun (mkBoot fr_flash 0 false ex_rtc) (mkImg zero_metadata None 0 (fun _ => 0) (0, 0)) (mkMmu (repeat 0 128) 3).

Definition fr_list : list esp_partition_info_t :=
  [mkInfo ESP_PARTITION_MAGIC 1 2 (mkPos 0x9000 0x4000) ([110; 118; 115] ++ repeat 0 13) 0;
   mkInfo ESP_PARTITION_MAGIC 1 0 (mkPos 0xd000 0x2000) ([111; 116; 97; 100; 97; 116; 97] ++ repeat 0 9) 0;
   mkInfo ESP_PARTITION_MAGIC 0 0 (mkPos 0x10000 0x100000) ([102] ++ repeat 0 15) 0;
   mkInfo ESP_PARTITION_MAGIC 0 0x10 (mkPos 0x110000 0x100000) ([111; 48] ++ repeat 0 14) 0].

Lemma fr_list_eq : table_entries ex_cfg fr_flash 4 = fr_list.
Proof. vm_compute. reflexivity. Qed.

Lemma fr_entries : Forall (entry_fine ex_cfg nvs_otadata false) (table_entries ex_cfg fr_flash 4).
Proof.
  rewrite fr_list_eq. repeat match goal with |- Forall _ _ => constructor end; split; cbn [pi_type pi_pos pi_label]; try discriminate.
  1,3: intros _; split; [discriminate|repeat constructor].
  all: intros _ x; unfold inside; cbn [pi_pos pos_offset pos_size]; intros Hx; right; change (0x8C00 <= x); lia.
Qed.

Lemma label_search_finds_labels_witness : bootloader_common_label_search (Some nvs_otadata) (Some [110; 118; 115]) = Some true.
Proof.
  rewrite (label_search_finds_labels nvs_otadata [110; 118; 115]); [reflexivity|repeat constructor; discriminate|discriminate|repeat constructor].
Defined.

Lemma factory_reset_erases_witness : exists f',
  bootloader_common_erase_part_type_data ex_cfg fr_md5 nvs_otadata false fr_flash = Some (true, f') /\
  erased 0x9000 0x4000 f' /\ view false f' 0x10000 = view false fr_flash 0x10000.
Proof.
  destruct (factory_reset_erases ex_cfg fr_md5 nvs_otadata false ltac:(repeat constructor; discriminate) fr_flash 4 eq_refl) as (ret & f' & E1 & C & L).
  - vm_compute. reflexivity.
  - apply fr_entries.
  - assert (Er : option_map fst (bootloader_common_erase_part_type_data ex_cfg fr_md5 nvs_otadata false fr_flash) = Some true) by (vm_compute; reflexivity).
    rewrite E1 in Er. injection Er as ->. rewrite fr_list_eq in L, C. exists f'. split; [exact E1|]. split.
    + apply (L eq_refl (mkInfo ESP_PARTITION_MAGIC 1 2 (mkPos 0x9000 0x4000) ([110; 118; 115] ++ repeat 0 13) 0)); [left|vm_compute; reflexivity].
    + destruct (Z.eq_dec (view false f' 0x10000) (view false fr_flash 0x10000)) as [|Hn]; [assumption|]. exfalso. destruct (C _ _ Hn) as (p & Hin & Hs & Hx).
      apply list_elem_of_In in Hin. unfold inside in Hx. cbn in Hin. repeat destruct Hin as [<-|Hin]; cbn in Hx; try lia; try discriminate Hs; contradiction.
Defined.


(** The state after the first selection, and the flash after the reset. *)
Abbreviation fr_select := (bootloader_utility_get_selected_boot_partition ex_cfg fr_bs (r_boot fr_start)).
Definition fr_boot : boot_state nor Z := match fr_select with Some (_, b) => b | None => r_boot fr_start end.
Abbreviation fr_erase := (bootloader_common_erase_part_type_data ex_cfg fr_md5 nvs_otadata false (bt_flash fr_boot)).
Definition fr_erased : nor := match fr_erase with Some (_, f) => f | None => fr_flash end.

Lemma fr_selects : fr_select = Some (0, fr_boot).
Proof.
  assert (Ei : fst <$> fr_select = Some 0) by (vm_compute; reflexivity). unfold fr_boot. destruct fr_select as [[i b]|]; [|done]. cbn in Ei. by injection Ei as ->.
Qed.

Lemma fr_erases : fr_erase = Some (true, fr_erased).
Proof.
  assert (Ei : fst <$> fr_erase = Some true) by (vm_compute; reflexivity). unfold fr_erased. destruct fr_erase as [[i b]|]; [|done]. cbn in Ei. by injection Ei as ->.
Qed.

Lemma fr_boot_list : table_entries ex_cfg (bt_flash fr_boot) 4 = fr_list.
Proof. vm_compute. reflexivity. Qed.

Lemma factory_reset_selects_factory_witness : exists s',
  selected_boot_partition ex_cfg (xi_cfg true false) (Some (reset_data ex_cfg fr_md5 nvs_otadata false)) false fr_bs fr_start = RET FACTORY_INDEX s' /\
  fr_select <> Some (FACTORY_INDEX, fr_boot).
Proof.
  destruct (factory_reset_selects_factory ex_cfg fr_md5 (xi_cfg true false) nvs_otadata false false fr_bs fr_start 0 fr_boot fr_erased 4
    (mkInfo ESP_PARTITION_MAGIC 1 0 (mkPos 0xd000 0x2000) ([111; 116; 97; 100; 97; 116; 97] ++ repeat 0 9) 0)) as (s' & R & _).
  - reflexivity.
  - reflexivity.
  - apply fr_selects.
  - discriminate.
  - vm_compute. reflexivity.
  - vm_compute. reflexivity.
  - repeat constructor; discriminate.
  - rewrite fr_boot_list, <- fr_list_eq. apply fr_entries.
  - apply fr_erases.
  - rewrite fr_boot_list. right. left.
  - vm_compute. reflexivity.
  - reflexivity.
  - discriminate.
  - vm_compute. discriminate.
  - discriminate.
  - vm_compute. reflexivity.
  - exists s'. split; [exact R|]. rewrite fr_selects. clear R. intros [=].
Defined.
