(* ===== verification/PartitionHash.v ===== *)
(** * The hash of a partition

    [bootloader_sha256_flash_contents] and [bootloader_sha256_hex_to_str] of
    bootloader_utility.c and [bootloader_common_get_sha256_of_partition] of
    bootloader_common.c.  The handle of the hash is the one of [img]. *)

From S2P Require Import Prelude CMem Flash OtaData PartitionTable Partitions ImageFormat ImageSegments ImageSpec.

(** Two characters for each byte. *)
Definition hex_digit (nibble : Z) : Z := if nibble <? 10 then 48 + nibble else 97 + nibble - 10.
Definition hex_pair (b : Z) : list Z := (fun shift => hex_digit (Z.land (Z.shiftr b (if (shift =? 0)%nat then 4 else 0)) 0x0F)) <$> [0%nat; 1%nat].

Definition bootloader_sha256_hex_to_str (out_str : bool) (in_array_hex : option (list Z)) : esp_err_t * list Z :=
  match in_array_hex with
  | Some bs => if negb out_str || (length bs =? 0)%nat then (ESP_ERR_INVALID_ARG, []) else (ESP_OK, concat (hex_pair <$> bs))
  | None => (ESP_ERR_INVALID_ARG, [])
  end.

(** The reading of such a string. *)
Definition of_hex (c : Z) : Z := if c <? 58 then c - 48 else c - 87.
Fixpoint bytes_of_hex (s : list Z) : list Z :=
  match s with a :: b :: s => (16 * of_hex a + of_hex b) :: bytes_of_hex s | _ => [] end.

Lemma of_hex_digit n : 0 <= n < 16 -> of_hex (hex_digit n) = n.
Proof. intros Hn. unfold of_hex, hex_digit. destruct (Z.ltb_spec n 10).
  - rewrite (proj2 (Z.ltb_lt _ _)) by lia. lia.
  - rewrite (proj2 (Z.ltb_ge _ _)) by lia. lia. Qed.

Lemma hex_to_str_readable bs : bs <> [] -> Forall is_byte bs ->
  exists s, bootloader_sha256_hex_to_str true (Some bs) = (ESP_OK, s) /\ bytes_of_hex s = bs.
Proof.
  intros Hn Hb. unfold bootloader_sha256_hex_to_str. destruct (Nat.eqb_spec (length bs) 0) as [E|_]; [by apply nil_length_inv in E|]. eexists. split; [done|].
  clear Hn. induction Hb as [|b bs Hb Hbs IH]; [done|]. cbn. rewrite IH. f_equal. unfold is_byte in Hb.
  change 0x0F with (Z.ones 4). rewrite !Z.land_ones, Z.shiftr_div_pow2, Z.shiftr_0_r by lia. change (2 ^ 4) with 16.
  rewrite !of_hex_digit by (apply Z.mod_pos_bound; lia). Z.to_euclidean_division_equations. lia.
Qed.

Section Hash.
Context {F : Type} `{FlashDev F}.
Context (cfg : image_config) (sha256 : list Z -> list Z) (random : Z * Z) (f : F).

(** What is mapped at once, from [flash_offset] on. *)
Definition partial_image_len (flash_offset len : Z) : Z :=
  let mmu_page_offset := if negb (flash_offset mod SPI_FLASH_MMU_PAGE_SIZE =? 0) then 1 else 0 in
  Z.min len (u32 (u32 (bootloader_mmap_get_free_pages cfg - mmu_page_offset) * SPI_FLASH_MMU_PAGE_SIZE)).

(** The [while] loop; it aborts if it has not ended after [fuel] rounds. *)
Fixpoint hash_loop (fuel : nat) (flash_offset len : Z) : M img esp_err_t :=
  if 0 <? len then
    match fuel with
    | O => abort
    | S fuel =>
        let n := partial_image_len flash_offset len in
        if negb (bootloader_mmap cfg f flash_offset n) then mret ESP_FAIL
        else _ ← bootloader_sha256_data cfg (read_bytes (img_view cfg f) flash_offset (Z.to_nat n)); hash_loop fuel (u32 (flash_offset + n)) (len - n)
    end
  else mret ESP_OK.

(** A part is at least one page, or the rest. *)
Definition hash_fuel (len : Z) : nat := Z.to_nat (len / SPI_FLASH_MMU_PAGE_SIZE) + 2.

(** The result and [*digest]. *)
Definition bootloader_sha256_flash_contents (flash_offset len : Z) (digest : bool) : M img (esp_err_t * list Z) :=
  if negb digest then mret (ESP_ERR_INVALID_ARG, [])
  else if negb (ic_sha_ok cfg) then mret (ESP_ERR_NO_MEM, [])
  else
    _ ← modify (set_sha (Some []));
    err ← hash_loop (hash_fuel len) flash_offset len;
    hash ← bootloader_sha256_finish sha256;
    mret (if is_ok err then (ESP_OK, hash) else (ESP_FAIL, [])).

Definition bootloader_common_get_sha256_of_partition (address size type : Z) (out_sha_256 : bool) : M img (esp_err_t * list Z) :=
  if negb out_sha_256 || (size =? 0) then mret (ESP_ERR_INVALID_ARG, [])
  else if type =? PART_TYPE_APP then
    err ← esp_image_get_metadata cfg random f (Some (mkPos address size)) true;
    if negb (is_ok err) then mret (ESP_ERR_IMAGE_INVALID, [])
    else
      data ← gets ld_data;
      if negb (hash_appended (image data) =? 0) then
        r ← bootloader_sha256_flash_contents address (u32 (image_len data - HASH_LEN)) true;
        let '(error, calc_sha256) := r in
        mret (if negb (is_ok error) || negb (bool_decide (image_digest data = calc_sha256)) then ESP_ERR_IMAGE_INVALID else ESP_OK, image_digest data)
      else bootloader_sha256_flash_contents address (image_len data) true
  else bootloader_sha256_flash_contents address size true.
End Hash.

(** The hash is that of the whole range, however it is cut into parts. *)
Section Spec.
Context {F : Type} `{FlashLaws F}.
Context (cfg : image_config) (sha256 : list Z -> list Z) (f : F).
Hypothesis free_pages : 2 <= bootloader_mmap_get_free_pages cfg < 2 ^ 16.

Lemma partial_len_spec off len : 0 < len -> len mod 4 = 0 -> let n := partial_image_len cfg off len in
  0 < n <= len /\ n <= part_limit cfg off /\ n mod 4 = 0 /\ (n = len \/ SPI_FLASH_MMU_PAGE_SIZE <= n).
Proof.
  intros Hl H4 n. unfold n, partial_image_len. fold (part_limit cfg off). destruct (part_limit_range cfg free_pages off) as [L1 L2].
  unfold SPI_FLASH_MMU_PAGE_SIZE in *. destruct (Z.min_spec len (part_limit cfg off)) as [[? ->]|[? ->]]; split_and!; (done || lia).
Qed.

Lemma hash_loop_spec fuel : forall off len s d, ld_sha s = Some d -> 0 <= off -> 0 <= len -> off + len < 2 ^ 32 -> len mod 4 = 0 ->
  mappable cfg f off (off + len) -> (0 < len -> len / SPI_FLASH_MMU_PAGE_SIZE + 1 <= Z.of_nat fuel) ->
  hash_loop cfg f fuel off len s = RET ESP_OK (set_sha (Some (d ++ read_bytes (img_view cfg f) off (Z.to_nat len))) s).
Proof.
  induction fuel as [|fuel IH]; intros off len s d Hd Ho Hl Hw H4 Hm Hf; cbn [hash_loop]; (destruct (Z.ltb_spec 0 len) as [Hpos|Hz]; cycle 1;
    [replace len with 0 by lia; cbn; rewrite app_nil_r; destruct s; cbn in Hd |- *; by rewrite Hd|]); specialize (Hf Hpos).
  { exfalso. unfold SPI_FLASH_MMU_PAGE_SIZE in Hf. Z.to_euclidean_division_equations. lia. }
  destruct (partial_len_spec off len Hpos H4) as (N1 & N2 & N3 & N4). set (n := partial_image_len cfg off len) in *.
  rewrite (Hm off n) by lia. cbn [negb]. unfold mbind at 1, M_bind at 1, bootloader_sha256_data.
  rewrite (bind_RET (gets ld_sha) _ s (Some d) s) by (unfold gets; by rewrite Hd).
  rewrite (bind_RET (assert_ _) _ s tt s).
  2: { unfold assert_. rewrite length_read_bytes, Z2Nat.id, N3 by lia. by rewrite orb_true_r. }
  unfold modify. rewrite u32_small by lia. set (d' := d ++ read_bytes (img_view cfg f) off (Z.to_nat n)).
  rewrite (IH (off + n) (len - n) _ d'); [|done|lia|lia|lia| | |].
  - unfold d'. rewrite <- app_assoc. replace (Z.to_nat len) with (Z.to_nat n + Z.to_nat (len - n))%nat by lia. rewrite read_bytes_app, Z2Nat.id by lia. by destruct s.
  - rewrite Zminus_mod, H4, N3. done.
  - intros a k Ha Hk Hk' Hlim. apply Hm; lia.
  - intros Hrest. unfold SPI_FLASH_MMU_PAGE_SIZE in *. Z.to_euclidean_division_equations. lia.
Qed.

(** [bootloader_sha256_flash_contents] hashes the bytes of the range. *)
Lemma sha256_flash_contents_spec off len s : ic_sha_ok cfg = true -> 0 <= off -> 0 <= len -> off + len < 2 ^ 32 -> len mod 4 = 0 ->
  mappable cfg f off (off + len) ->
  bootloader_sha256_flash_contents cfg sha256 f off len true s = RET (ESP_OK, sha256 (read_bytes (img_view cfg f) off (Z.to_nat len))) (set_sha None s).
Proof.
  intros Hs Ho Hl Hw H4 Hm. unfold bootloader_sha256_flash_contents. rewrite Hs. cbn [negb]. unfold mbind at 1, M_bind at 1, modify.
  rewrite (bind_RET _ _ _ _ _ (hash_loop_spec (hash_fuel len) off len (set_sha (Some []) s) [] eq_refl Ho Hl Hw H4 Hm ltac:(intros _; unfold hash_fuel, SPI_FLASH_MMU_PAGE_SIZE; Z.to_euclidean_division_equations; lia))).
  done.
Qed.
End Spec.

(** With a single free page and a range that starts inside of a page, the part
    that is mapped is empty, and the loop does not end. *)
Lemma one_free_page_never_ends {F} `{FlashDev F} (cfg : image_config) (f : F) fuel off len :
  bootloader_mmap_get_free_pages cfg = 1 -> BOOTLOADER_BUILD cfg = false -> off mod SPI_FLASH_MMU_PAGE_SIZE <> 0 -> 0 <= off < 2 ^ 32 -> 0 < len ->
  fl_mmap f (off - off mod SPI_FLASH_MMU_PAGE_SIZE) (off mod SPI_FLASH_MMU_PAGE_SIZE) = ESP_OK -> forall d s, ld_sha s = Some d ->
  hash_loop cfg f fuel off len s = ABORT.
Proof.
  intros H1 Hb Ho Hr Hl Hm. induction fuel as [|fuel IH]; intros d s Hd; cbn [hash_loop]; rewrite (proj2 (Z.ltb_lt 0 len)) by done; [done|].
  assert (En : partial_image_len cfg off len = 0) by (unfold partial_image_len; rewrite H1, (proj2 (Z.eqb_neq _ _) Ho); change (Z.min len 0 = 0); lia). rewrite En.
  assert (Em : bootloader_mmap cfg f off 0 = true).
  { unfold bootloader_mmap. rewrite Hb. pose proof (Z.mod_pos_bound off SPI_FLASH_MMU_PAGE_SIZE ltac:(done)). unfold SPI_FLASH_MMU_PAGE_SIZE in *.
    rewrite u32_small by lia. replace (0 + (off - (off - off mod 65536))) with (off mod 65536) by lia. by rewrite Hm. }
  rewrite Em. cbn [negb]. unfold bootloader_sha256_data, mbind, M_bind, gets. rewrite Hd. unfold assert_. rewrite Hb. cbn [negb orb]. unfold modify. rewrite Z.add_0_r, Z.sub_0_r, u32_small by done.
  apply (IH (d ++ [])). done.
Qed.
