(* ===== verification/LogLevels.v ===== *)
(** * Log levels and their cache

    components/log/log.c: the list of tags with a level of their own, and the
    cache of tag pointers, a binary heap of 31 entries ordered by the
    generation of their last use.  The lock is held during every operation,
    so operations are atomic here; [str] is the (constant) string a tag
    pointer points to.  The consistency checks of debug builds
    ([LOG_BUILTIN_CHECKS]) are part of the model: [None] is a failed
    assertion. *)

From S2P Require Import Prelude.

(** ** State *)

Definition TAG_CACHE_SIZE : nat := 31.

Record cached_tag_entry_t := mkCached {
  tag : Z; (* the pointer *)
  level : Z; (* 3 bits *)
  generation : Z (* 29 bits *)
}.

Record uncached_tag_entry_t := mkTag { tag_name : list Z; tag_level : Z (* uint8_t *) }.

Record log_state := mkLog {
  esp_log_default_level : Z;
  s_log_tags : list uncached_tag_entry_t;
  s_log_cache : list cached_tag_entry_t;
  s_log_cache_max_generation : Z;
  s_log_cache_entry_count : nat;
  s_log_print_func : Z;
  s_log_cache_misses : Z
}.

Definition no_entry : cached_tag_entry_t := mkCached 0 0 0.

(** The initial values of the static variables. *)
Definition log_init (default_level print : Z) : log_state :=
  mkLog default_level [] (repeat no_entry TAG_CACHE_SIZE) 0 0 print 0.

Definition u3 (z : Z) : Z := z mod 2 ^ 3.
Definition u29 (z : Z) : Z := z mod 2 ^ 29.

Section Log.
Context (str : Z -> list Z).

Definition cache_at (c : list cached_tag_entry_t) (i : nat) : cached_tag_entry_t := nth i c no_entry.
Definition gen_at (c : list cached_tag_entry_t) (i : nat) : Z := generation (cache_at c i).

Definition set_cache (c : list cached_tag_entry_t) (s : log_state) : log_state :=
  mkLog (esp_log_default_level s) (s_log_tags s) c (s_log_cache_max_generation s) (s_log_cache_entry_count s)
    (s_log_print_func s) (s_log_cache_misses s).
Definition set_max_generation (g : Z) (s : log_state) : log_state :=
  mkLog (esp_log_default_level s) (s_log_tags s) (s_log_cache s) g (s_log_cache_entry_count s)
    (s_log_print_func s) (s_log_cache_misses s).
Definition set_entry_count (n : nat) (s : log_state) : log_state :=
  mkLog (esp_log_default_level s) (s_log_tags s) (s_log_cache s) (s_log_cache_max_generation s) n
    (s_log_print_func s) (s_log_cache_misses s).
Definition set_tags (l : list uncached_tag_entry_t) (s : log_state) : log_state :=
  mkLog (esp_log_default_level s) l (s_log_cache s) (s_log_cache_max_generation s) (s_log_cache_entry_count s)
    (s_log_print_func s) (s_log_cache_misses s).
Definition count_miss (s : log_state) : log_state :=
  mkLog (esp_log_default_level s) (s_log_tags s) (s_log_cache s) (s_log_cache_max_generation s) (s_log_cache_entry_count s)
    (s_log_print_func s) (u32 (s_log_cache_misses s + 1)).

(** ** The heap *)

Definition heap_swap (i j : nat) (c : list cached_tag_entry_t) : list cached_tag_entry_t :=
  let tmp := cache_at c i in
  let c := <[i := cache_at c j]> c in
  <[j := tmp]> c.

(** The index at least doubles, so [TAG_CACHE_SIZE] rounds are enough. *)
Fixpoint bubble_loop (fuel : nat) (index : nat) (c : list cached_tag_entry_t) : option (list cached_tag_entry_t) :=
  match fuel with
  | O => None
  | S fuel =>
      if (index <? TAG_CACHE_SIZE / 2)%nat then
        let left_index := (index * 2 + 1)%nat in
        let right_index := (left_index + 1)%nat in
        let next := if gen_at c left_index <? gen_at c right_index then left_index else right_index in
        bubble_loop fuel next (heap_swap index next c)
      else Some c
  end.

Definition heap_bubble_down (index : nat) (s : log_state) : option log_state :=
  do* c <- bubble_loop TAG_CACHE_SIZE index (s_log_cache s);
  Some (set_cache c s).

(** [for (i = 0; i < s_log_cache_entry_count; ++i)] with the check of the
    heap order, up to the first entry with [found]; [n] entries are left. *)
Fixpoint search_cache (found : cached_tag_entry_t -> bool) (c : list cached_tag_entry_t) (i n : nat) : option (option nat) :=
  match n with
  | O => Some None
  | S n =>
      configASSERT ((i =? 0)%nat || (gen_at c ((i - 1) / 2) <? gen_at c i));
      if found (cache_at c i) then Some (Some i) else search_cache found c (S i) n
  end.

(** ** Looking up a level *)

Definition get_cached_log_level (t : Z) (s : log_state) : option (option Z * log_state) :=
  do* r <- search_cache (fun e => tag e =? t) (s_log_cache s) 0 (s_log_cache_entry_count s);
  match r with
  | None => Some (None, s)
  | Some i =>
      let e := cache_at (s_log_cache s) i in
      if (s_log_cache_entry_count s =? TAG_CACHE_SIZE)%nat then
        let g := s_log_cache_max_generation s in
        let s := set_max_generation (u32 (g + 1)) s in
        let s := set_cache (<[i := mkCached (tag e) (level e) (u29 g)]> (s_log_cache s)) s in
        do* s <- heap_bubble_down i s;
        Some (Some (level e), s)
      else Some (Some (level e), s)
  end.

Definition get_uncached_log_level (t : Z) (s : log_state) : option Z :=
  tag_level <$> List.find (fun it => bool_decide (str t = tag_name it)) (s_log_tags s).

Definition add_to_cache (t lvl : Z) (s : log_state) : option log_state :=
  let g := s_log_cache_max_generation s in
  let s := set_max_generation (u32 (g + 1)) s in
  let e := mkCached t (u3 lvl) (u29 g) in
  let n := s_log_cache_entry_count s in
  if (n <? TAG_CACHE_SIZE)%nat then Some (set_entry_count (n + 1) (set_cache (<[n := e]> (s_log_cache s)) s))
  else heap_bubble_down 0 (set_cache (<[0%nat := e]> (s_log_cache s)) s).

Definition s_log_level_get_and_unlock (t : Z) (s : log_state) : option (Z * log_state) :=
  do* (r, s) <- get_cached_log_level t s;
  match r with
  | Some l => Some (l, s)
  | None =>
      let level_for_tag := match get_uncached_log_level t s with
                           | Some l => l
                           | None => esp_log_default_level s
                           end in
      do* s <- add_to_cache t level_for_tag s;
      Some (level_for_tag, count_miss s)
  end.

Definition esp_log_level_get (t : Z) (s : log_state) : option (Z * log_state) := s_log_level_get_and_unlock t s.

Definition should_output (level_for_message level_for_tag : Z) : bool := level_for_message <=? level_for_tag.

(** Whether the message is printed; [locked] is the result of
    [esp_log_impl_lock_timeout]. *)
Definition esp_log_writev (lvl t : Z) (locked : bool) (s : log_state) : option (bool * log_state) :=
  if negb locked then Some (false, s)
  else
    do* (level_for_tag, s) <- s_log_level_get_and_unlock t s;
    Some (should_output lvl level_for_tag, s).

Definition esp_log_set_vprintf (func : Z) (s : log_state) : Z * log_state :=
  (s_log_print_func s,
   mkLog (esp_log_default_level s) (s_log_tags s) (s_log_cache s) (s_log_cache_max_generation s)
     (s_log_cache_entry_count s) func (s_log_cache_misses s)).

(** ** Setting a level *)

Definition clear_log_level_list (s : log_state) : log_state :=
  mkLog (esp_log_default_level s) [] (s_log_cache s) 0 0 (s_log_print_func s) 0.

(** The list with the first entry of the name changed. *)
Fixpoint update_tag (name : list Z) (lvl : Z) (l : list uncached_tag_entry_t) : option (list uncached_tag_entry_t) :=
  match l with
  | [] => None
  | it :: l =>
      if bool_decide (tag_name it = name) then Some (mkTag name (u8 lvl) :: l)
      else do* l <- update_tag name lvl l; Some (it :: l)
  end.

(** [mem_ok]: the allocation of a new list entry succeeds. *)
Definition esp_log_level_set (t lvl : Z) (mem_ok : bool) (s : log_state) : option log_state :=
  if bool_decide (str t = [42]) then
    Some (clear_log_level_list
      (mkLog lvl (s_log_tags s) (s_log_cache s) (s_log_cache_max_generation s) (s_log_cache_entry_count s)
         (s_log_print_func s) (s_log_cache_misses s)))
  else
    let tags := match update_tag (str t) lvl (s_log_tags s) with
                | Some l => Some l
                | None => if mem_ok then Some (mkTag (str t) (u8 lvl) :: s_log_tags s) else None
                end in
    match tags with
    | None => Some s
    | Some l =>
        let s := set_tags l s in
        do* r <- search_cache (fun e => bool_decide (str (tag e) = str t)) (s_log_cache s) 0 (s_log_cache_entry_count s);
        match r with
        | None => Some s
        | Some i =>
            let e := cache_at (s_log_cache s) i in
            Some (set_cache (<[i := mkCached (tag e) (u3 lvl) (generation e)]> (s_log_cache s)) s)
        end
    end.
End Log.
