(* ===== verification/LogTheorems.v ===== *)
(** * The log level cache is transparent

    Whatever is cached, [esp_log_level_get] returns the level that the calls
    of [esp_log_level_set] ask for, and the cache stays a heap. *)

From S2P Require Import Prelude LogLevels.

(** ** The heap *)

Definition parent (i : nat) : nat := ((i - 1) / 2)%nat.

Lemma parent_cases i k : (0 < i)%nat -> parent i = k <-> i = (k * 2 + 1)%nat \/ i = (k * 2 + 1 + 1)%nat.
Proof. intros Hi. unfold parent. pose proof (Nat.div_mod_eq (i - 1) 2). pose proof (Nat.mod_upper_bound (i - 1) 2 ltac:(lia)). lia. Qed.

Lemma parent_lt i : (0 < i)%nat -> (parent i < i)%nat.
Proof. intros Hi. unfold parent. apply Nat.Div0.div_lt_upper_bound. lia. Qed.

Lemma cache_at_insert c i e x : (i < length c)%nat -> cache_at (<[i := e]> c) x = if (x =? i)%nat then e else cache_at c x.
Proof.
  intros Hi. unfold cache_at. rewrite !nth_lookup. destruct (Nat.eqb_spec x i) as [->|Hne].
  - by rewrite list_lookup_insert_eq.
  - by rewrite list_lookup_insert_ne by done.
Qed.

Lemma cache_lookup c i : (i < length c)%nat -> c !! i = Some (cache_at c i).
Proof. intros Hi. unfold cache_at. destruct (nth_lookup_or_length c i no_entry); [done|lia]. Qed.

Lemma swap_at i j c x : (i < length c)%nat -> (j < length c)%nat -> i <> j ->
  cache_at (heap_swap i j c) x = if (x =? j)%nat then cache_at c i else if (x =? i)%nat then cache_at c j else cache_at c x.
Proof. intros Hi Hj Hne. unfold heap_swap. rewrite cache_at_insert, cache_at_insert by (rewrite ?length_insert; done). done. Qed.

Lemma swap_perm i j c : (i < length c)%nat -> (j < length c)%nat -> heap_swap i j c ≡ₚ c.
Proof. intros Hi Hj. unfold heap_swap. apply Permutation_insert_swap; by apply cache_lookup. Qed.

Lemma NoDup_snoc {A} (f : cached_tag_entry_t -> A) (c : list cached_tag_entry_t) e : NoDup (f <$> c) ->
  (forall x, List.In x c -> f x <> f e) -> NoDup ((f <$> c) ++ (f <$> [e])).
Proof.
  intros Hn Hx. apply list.NoDup_app. split; [done|]. split; [|apply NoDup_singleton].
  intros y Hy Hy'. apply list_elem_of_singleton in Hy' as ->. apply list_elem_of_fmap in Hy as (x & E & Hin).
  by apply (Hx x); [apply list_elem_of_In|].
Qed.

Lemma NoDup_insert {A} (f : cached_tag_entry_t -> A) c i e : NoDup (f <$> c) ->
  (forall j, (j < length c)%nat -> j <> i -> f (cache_at c j) <> f e) -> NoDup (f <$> <[i := e]> c).
Proof.
  intros Hn Ho. destruct (decide (i < length c)%nat) as [Hi|Hi]; [|by rewrite list_insert_ge by lia].
  rewrite NoDup_alt in *. intros a b x. rewrite !list_lookup_fmap.
  destruct (decide (a < length c)%nat) as [Ha|]; [|by rewrite (lookup_ge_None_2 _ a) by (rewrite length_insert; lia)].
  destruct (decide (b < length c)%nat) as [Hb|]; [|by rewrite (lookup_ge_None_2 _ b) by (rewrite length_insert; lia)].
  rewrite !cache_lookup, !cache_at_insert by (rewrite ?length_insert; done). cbn [fmap option_fmap option_map].
  destruct (Nat.eqb_spec a i) as [->|Hai], (Nat.eqb_spec b i) as [->|Hbi]; intros [= E1] [= E2]; [done|..].
  - destruct (Ho b); [done..|congruence].
  - destruct (Ho a); [done..|congruence].
  - apply (Hn a b x); rewrite list_lookup_fmap, cache_lookup by done; cbn; congruence.
Qed.

(** Distinct positions have distinct generations. *)
Lemma gens_differ c i j : NoDup (generation <$> c) -> (i < length c)%nat -> (j < length c)%nat -> i <> j -> gen_at c i <> gen_at c j.
Proof.
  intros Hn Hi Hj Hne E. apply Hne, (NoDup_lookup _ i j (gen_at c i) Hn); rewrite list_lookup_fmap, cache_lookup by done; [done|].
  by rewrite E.
Qed.

Definition heap (c : list cached_tag_entry_t) (n : nat) : Prop := forall i, (0 < i < n)%nat -> gen_at c (parent i) < gen_at c i.

(** A heap in which the entry at [k], the youngest, may be above older ones. *)
Record bubble (c : list cached_tag_entry_t) (k : nat) : Prop := {
  bu_length : length c = TAG_CACHE_SIZE;
  bu_index : (k < TAG_CACHE_SIZE)%nat;
  bu_other : forall i, (0 < i < TAG_CACHE_SIZE)%nat -> parent i <> k -> gen_at c (parent i) < gen_at c i;
  bu_skip : forall i, (0 < i < TAG_CACHE_SIZE)%nat -> parent i = k -> (0 < k)%nat -> gen_at c (parent k) < gen_at c i;
  bu_youngest : forall i, (i < TAG_CACHE_SIZE)%nat -> i <> k -> gen_at c i < gen_at c k;
  bu_distinct : NoDup (generation <$> c)
}.

Section BubbleStep.
Context (c : list cached_tag_entry_t) (k n m : nat).
Context (B : bubble c k) (Hk : (k < TAG_CACHE_SIZE / 2)%nat).
(** The children of [k]: [n] is older than [m]. *)
Context (Hn : parent n = k) (Hm : parent m = k) (Hn0 : (0 < n < TAG_CACHE_SIZE)%nat) (Hm0 : (0 < m < TAG_CACHE_SIZE)%nat).
Context (Hnm : n <> m) (Hlt : gen_at c n < gen_at c m).

Lemma step_gens x : gen_at (heap_swap k n c) x = if (x =? n)%nat then gen_at c k else if (x =? k)%nat then gen_at c n else gen_at c x.
Proof.
  unfold gen_at. pose proof (parent_lt n ltac:(lia)). rewrite swap_at by (rewrite ?(bu_length _ _ B); destruct B; lia).
  by destruct (x =? n)%nat, (x =? k)%nat.
Qed.

Lemma step_bubble : bubble (heap_swap k n c) n.
Proof.
  pose proof (parent_lt n ltac:(lia)) as Hkn. destruct B as [Bl Bi Bo Bs By Bd].
  assert (Pn : forall i, (0 < i)%nat -> parent i = k -> i = n \/ i = m).
  { intros i Hi Hp. pose proof (proj1 (parent_cases i k Hi) Hp). pose proof (proj1 (parent_cases n k ltac:(lia)) Hn).
    pose proof (proj1 (parent_cases m k ltac:(lia)) Hm). lia. }
  split; [by rewrite (Permutation_length (swap_perm k n c ltac:(lia) ltac:(lia)))|lia|..].
  - intros i Hi Hp. rewrite !step_gens, (proj2 (Nat.eqb_neq (parent i) n) Hp).
    destruct (Nat.eqb_spec i n) as [->|Hin]; [rewrite Hn, Nat.eqb_refl; apply By; lia|].
    destruct (Nat.eqb_spec (parent i) k) as [Hpk|Hpk].
    + destruct (Pn i ltac:(lia) Hpk) as [?| ->]; [done|]. rewrite (proj2 (Nat.eqb_neq m k)) by (pose proof (parent_lt m); lia). done.
    + destruct (Nat.eqb_spec i k) as [->|]; [apply Bs; lia|by apply Bo].
  - intros i Hi Hp _. pose proof (parent_lt i ltac:(lia)). rewrite !step_gens, Hn, Nat.eqb_refl.
    rewrite !(proj2 (Nat.eqb_neq _ _)) by lia. rewrite <- Hp at 1. apply Bo; [done|]. rewrite Hp. lia.
  - intros i Hi Hne. rewrite !step_gens, Nat.eqb_refl, (proj2 (Nat.eqb_neq i n) Hne).
    destruct (Nat.eqb_spec i k) as [->|]; apply By; lia.
  - by rewrite swap_perm by lia.
Qed.
End BubbleStep.

Lemma bubble_spec fuel k c : bubble c k -> (16 <= k + fuel)%nat -> (0 < fuel)%nat ->
  exists c', bubble_loop fuel k c = Some c' /\ c' ≡ₚ c /\ heap c' TAG_CACHE_SIZE.
Proof.
  revert k c. induction fuel as [|fuel IH]; intros k c B Hf Hf0; [lia|]. cbn [bubble_loop].
  change (TAG_CACHE_SIZE / 2)%nat with 15%nat. destruct (Nat.ltb_spec k 15) as [Hk|Hk].
  - set (l := (k * 2 + 1)%nat). set (r := (l + 1)%nat).
    assert (Pl : parent l = k) by (apply parent_cases; lia). assert (Pr : parent r = k) by (apply parent_cases; lia).
    assert (Hne : gen_at c l <> gen_at c r).
    { destruct B. unfold TAG_CACHE_SIZE in *. apply gens_differ; [done|lia..]. }
    assert (Step : forall n m, parent n = k -> parent m = k -> (0 < n < TAG_CACHE_SIZE)%nat -> (0 < m < TAG_CACHE_SIZE)%nat -> n <> m ->
      gen_at c n < gen_at c m -> exists c', bubble_loop fuel n (heap_swap k n c) = Some c' /\ c' ≡ₚ c /\ heap c' TAG_CACHE_SIZE).
    { intros n m Hn Hm Hn0 Hm0 Hnm Hlt. pose proof (parent_lt n ltac:(lia)).
      destruct (IH n _ (step_bubble c k n m B Hk Hn Hm Hn0 Hm0 Hnm Hlt)) as (c' & R & Hp & Hh); [lia..|].
      exists c'. split_and!; [done| |done]. rewrite Hp. destruct B. apply swap_perm; lia. }
    unfold TAG_CACHE_SIZE in *. destruct (Z.ltb_spec (gen_at c l) (gen_at c r)).
    + by apply (Step l r); try lia.
    + by apply (Step r l); try lia.
  - exists c. split_and!; [done..|]. intros i Hi. destruct B. apply bu_other0; [done|].
    intros Hp. apply parent_cases in Hp; unfold TAG_CACHE_SIZE in *; lia.
Qed.

(** ** Searching the cache *)

Lemma search_spec found c n i : heap c (i + n) ->
  exists r, search_cache found c i n = Some r /\
    match r with
    | Some k => (i <= k < i + n)%nat /\ found (cache_at c k) = true
    | None => forall j, (i <= j < i + n)%nat -> found (cache_at c j) = false
    end.
Proof.
  revert i. induction n as [|n IH]; intros i Hh; [exists None; split; [done|lia]|]. cbn [search_cache].
  replace ((i =? 0)%nat || (gen_at c ((i - 1) / 2) <? gen_at c i)) with true.
  - destruct (found (cache_at c i)) eqn:Hf; [exists (Some i); split; [done|split; [lia|done]]|].
    destruct (IH (S i)) as (r & -> & Hr); [by replace (S i + n)%nat with (i + S n)%nat by lia|]. exists r. split; [done|].
    destruct r as [k|]; [destruct Hr; split; [lia|done]|]. intros j Hj. destruct (decide (j = i)) as [->|]; [done|]. apply Hr. lia.
  - symmetry. destruct (Nat.eqb_spec i 0); [done|]. apply Z.ltb_lt. apply (Hh i). lia.
Qed.

(** ** The invariant *)

Section Levels.
Context (str : Z -> list Z) (used : Z -> Prop).
(** One pointer per tag, as the documentation suggests. *)
Context (one_pointer : forall p q, used p -> used q -> str p = str q -> p = q).

(** The level of a name according to the list and the default. *)
Definition listed (s : log_state) (name : list Z) : Z :=
  from_option tag_level (esp_log_default_level s) (List.find (fun it => bool_decide (name = tag_name it)) (s_log_tags s)).

Definition live (s : log_state) : list cached_tag_entry_t := take (s_log_cache_entry_count s) (s_log_cache s).

(** A cached entry agrees with the levels [lv]. *)
Record entry_fits (lv : list Z -> Z) (max : Z) (e : cached_tag_entry_t) : Prop := {
  ef_level : level e = lv (str (tag e));
  ef_gen : 0 <= generation e < max;
  ef_used : used (tag e)
}.

Record log_ok (lv : list Z -> Z) (s : log_state) : Prop := {
  lo_length : length (s_log_cache s) = TAG_CACHE_SIZE;
  lo_count : (s_log_cache_entry_count s <= TAG_CACHE_SIZE)%nat;
  lo_levels : forall name, listed s name = lv name;
  lo_range : forall name, 0 <= lv name < 2 ^ 3;
  lo_heap : heap (s_log_cache s) (s_log_cache_entry_count s);
  lo_live : Forall (entry_fits lv (s_log_cache_max_generation s)) (live s);
  lo_tags : NoDup (tag <$> live s);
  lo_gens : NoDup (generation <$> live s);
  lo_max : 0 <= s_log_cache_max_generation s
}.

Lemma live_lookup s i : (i < s_log_cache_entry_count s <= length (s_log_cache s))%nat -> live s !! i = Some (cache_at (s_log_cache s) i).
Proof. intros Hi. unfold live. rewrite lookup_take_lt by lia. apply cache_lookup. lia. Qed.

Lemma live_length lv s : log_ok lv s -> length (live s) = s_log_cache_entry_count s.
Proof. intros [Hl Hc _ _ _ _ _ _ _]. unfold live. rewrite length_take. lia. Qed.

Lemma live_fits lv s i : log_ok lv s -> (i < s_log_cache_entry_count s)%nat ->
  entry_fits lv (s_log_cache_max_generation s) (cache_at (s_log_cache s) i).
Proof.
  intros Ok Hi. pose proof (lo_live _ _ Ok) as Hf. rewrite Forall_lookup in Hf. apply (Hf i). apply live_lookup.
  destruct Ok. lia.
Qed.

(** The entries of a new cache [c] are the old ones except that position [i]
    was given the next generation. *)
Lemma refreshed lv s i e :
  log_ok lv s -> s_log_cache_entry_count s = TAG_CACHE_SIZE -> (i < TAG_CACHE_SIZE)%nat -> s_log_cache_max_generation s < 2 ^ 29 ->
  level e = lv (str (tag e)) -> used (tag e) -> generation e = u29 (s_log_cache_max_generation s) ->
  (forall j, (j < TAG_CACHE_SIZE)%nat -> j <> i -> tag (cache_at (s_log_cache s) j) <> tag e) ->
  exists s', heap_bubble_down i (set_cache (<[i := e]> (s_log_cache s)) (set_max_generation (u32 (s_log_cache_max_generation s + 1)) s)) = Some s' /\
    log_ok lv s' /\ s_log_cache_max_generation s' = s_log_cache_max_generation s + 1 /\ live s' ≡ₚ <[i := e]> (live s).
Proof.
  intros Ok Hcount Hi Hmax Hlv Hus Hg Hother. set (g := s_log_cache_max_generation s) in *. set (c := <[i := e]> (s_log_cache s)).
  pose proof Ok as [Hl _ Hls Hr Hh Hf Ht Hgn H0]. assert (Elive : live s = s_log_cache s) by (unfold live; apply take_ge; lia).
  rewrite Elive in *. rewrite Hcount in *. fold g in Hf, H0.
  assert (Eg : u29 g = g) by (apply Z.mod_small; lia). rewrite Eg in Hg.
  assert (Hc : forall x, cache_at c x = if (x =? i)%nat then e else cache_at (s_log_cache s) x) by (intros x; apply cache_at_insert; lia).
  assert (Hgc : forall x, gen_at c x = if (x =? i)%nat then g else gen_at (s_log_cache s) x).
  { intros x. unfold gen_at. rewrite Hc. by destruct (x =? i)%nat. }
  assert (Hold : forall x, (x < TAG_CACHE_SIZE)%nat -> 0 <= gen_at (s_log_cache s) x < g).
  { intros x Hx. apply (live_fits lv s x Ok). lia. }
  assert (B : bubble c i).
  { unfold TAG_CACHE_SIZE in *. split; [unfold c; by rewrite length_insert|done|..]; intros; unfold TAG_CACHE_SIZE in *; rewrite ?Hgc, ?Nat.eqb_refl.
    - rewrite (proj2 (Nat.eqb_neq _ _)) by done. pose proof (parent_lt i0 ltac:(lia)).
      destruct (Nat.eqb_spec i0 i); [apply Hold; lia|by apply Hh].
    - pose proof (parent_lt i ltac:(lia)). pose proof (parent_lt i0 ltac:(lia)).
      rewrite !(proj2 (Nat.eqb_neq _ _)) by lia. etransitivity; [apply (Hh i); lia|]. subst i. apply Hh. lia.
    - rewrite (proj2 (Nat.eqb_neq _ _)) by done. apply Hold. lia.
    - apply NoDup_insert; [done|]. rewrite Hl, Hg. intros j Hj _ Ej. pose proof (Hold j Hj) as Hj'. unfold gen_at in Hj'. lia. }
  destruct (bubble_spec TAG_CACHE_SIZE i c B) as (c' & R & Hp & Hh'); [unfold TAG_CACHE_SIZE; lia..|].
  unfold heap_bubble_down. cbn [s_log_cache set_cache set_max_generation]. fold c. rewrite R.
  eexists. split; [done|].
  assert (Elive' : live (set_cache c' (set_cache c (set_max_generation (u32 (g + 1)) s))) = c').
  { unfold live. cbn. apply take_ge. rewrite (Permutation_length Hp). unfold c. rewrite length_insert. lia. }
  split; [|split; [cbn; apply u32_small; lia|by rewrite Elive']].
  split; rewrite ?Elive'; cbn [s_log_cache set_cache set_max_generation s_log_cache_entry_count s_log_cache_max_generation];
    try done; rewrite ?Hcount, ?(u32_small (g + 1)) by lia; try done.
  - by rewrite (Permutation_length Hp), (bu_length _ _ B).
  - rewrite Hp. unfold c. apply Forall_insert.
    + revert Hf. apply Forall_impl. intros x []. split; [done|lia|done].
    + split; [done|lia|done].
  - rewrite Hp. unfold c. apply NoDup_insert; [done|]. rewrite Hl. apply Hother.
  - rewrite Hp. apply (bu_distinct _ _ B).
  - lia.
Qed.

(** ** The operations *)

Lemma get_cached_spec lv s t : log_ok lv s -> used t -> s_log_cache_max_generation s < 2 ^ 29 ->
  exists r s', get_cached_log_level t s = Some (r, s') /\ log_ok lv s' /\
    s_log_cache_max_generation s' <= s_log_cache_max_generation s + 1 /\
    match r with
    | Some l => l = lv (str t) /\ exists j, (j < s_log_cache_entry_count s)%nat /\ tag (cache_at (s_log_cache s) j) = t
    | None => s' = s /\ forall j, (j < s_log_cache_entry_count s)%nat -> tag (cache_at (s_log_cache s) j) <> t
    end.
Proof.
  intros Ok Hu Hmax. unfold get_cached_log_level.
  destruct (search_spec (fun e => tag e =? t) (s_log_cache s) (s_log_cache_entry_count s) 0 (lo_heap _ _ Ok)) as (r & -> & Hr).
  destruct r as [i|].
  - destruct Hr as [Hi Et]. apply Z.eqb_eq in Et. pose proof (live_fits lv s i Ok ltac:(lia)) as [Fl Fg Fu].
    rewrite Et in Fl. destruct (Nat.eqb_spec (s_log_cache_entry_count s) TAG_CACHE_SIZE) as [Hc|Hc].
    + destruct (refreshed lv s i (mkCached (tag (cache_at (s_log_cache s) i)) (level (cache_at (s_log_cache s) i)) (u29 (s_log_cache_max_generation s))) Ok Hc)
        as (s' & R & Ok' & Em & _); [lia|done|by cbn; rewrite Et|done|done| |].
      { intros j Hj Hne E1. apply Hne. cbn in E1.
        apply (NoDup_lookup _ j i (tag (cache_at (s_log_cache s) j)) (lo_tags _ _ Ok)); rewrite list_lookup_fmap, live_lookup by (rewrite (lo_length _ _ Ok); lia); cbn; congruence. }
      cbn [s_log_cache set_max_generation]. rewrite R. eexists _, s'. split; [done|]. split_and!; [done|lia|done|exists i; split; [lia|done]].
    + eexists _, s. split; [done|]. split_and!; [done|lia|done|exists i; split; [lia|done]].
  - exists None, s. split; [done|]. split_and!; [done|lia|done|]. intros j Hj Ej. specialize (Hr j ltac:(lia)). by apply Z.eqb_neq in Hr.
Qed.

Lemma add_to_cache_spec lv s t : log_ok lv s -> used t -> s_log_cache_max_generation s < 2 ^ 29 ->
  (forall j, (j < s_log_cache_entry_count s)%nat -> tag (cache_at (s_log_cache s) j) <> t) ->
  exists s', add_to_cache t (lv (str t)) s = Some s' /\ log_ok lv s' /\
    s_log_cache_max_generation s' <= s_log_cache_max_generation s + 1.
Proof.
  intros Ok Hu Hmax Hnew. unfold add_to_cache. cbn [s_log_cache_entry_count set_max_generation].
  assert (E3 : u3 (lv (str t)) = lv (str t)) by (apply Z.mod_small, Ok). rewrite E3.
  assert (E29 : u29 (s_log_cache_max_generation s) = s_log_cache_max_generation s) by (apply Z.mod_small; destruct Ok; lia).
  destruct (Nat.ltb_spec (s_log_cache_entry_count s) TAG_CACHE_SIZE) as [Hc|Hc].
  - eexists. split; [done|]. set (e := mkCached _ _ _). set (n := s_log_cache_entry_count s) in *. set (g := s_log_cache_max_generation s) in *.
    destruct Ok as [Hl _ Hls Hr Hh Hf Ht Hgn H0]. unfold live in *. fold n g in Hh, Hf, Ht, Hgn, H0.
    assert (Etake : take (n + 1) (<[n := e]> (s_log_cache s)) = take n (s_log_cache s) ++ [e]).
    { rewrite Nat.add_1_r, (take_S_r _ n e) by (apply list_lookup_insert_eq; lia). by rewrite take_insert_ge by lia. }
    assert (Hold : forall x, List.In x (take n (s_log_cache s)) -> generation x <> g /\ tag x <> t).
    { intros x Hx. split.
      - rewrite Forall_forall in Hf. destruct (Hf x Hx). lia.
      - apply list_elem_of_In, list_elem_of_lookup in Hx as [j Hj]. pose proof (lookup_lt_Some _ _ _ Hj) as Hlt. rewrite length_take in Hlt.
        rewrite lookup_take_lt, cache_lookup in Hj by lia. injection Hj as <-. apply Hnew. lia. }
    split; [|cbn [s_log_cache_max_generation set_cache set_max_generation set_entry_count]; rewrite u32_small by lia; lia].
    split; unfold live; cbn [s_log_cache set_cache set_max_generation set_entry_count s_log_cache_entry_count s_log_cache_max_generation];
      rewrite ?Etake, ?u32_small, ?length_insert, ?fmap_app by lia; try done; try lia.
    + intros i Hi. unfold gen_at. pose proof (parent_lt i ltac:(lia)). rewrite !cache_at_insert by lia.
      rewrite (proj2 (Nat.eqb_neq (parent i) n)) by lia. destruct (Nat.eqb_spec i n) as [->|].
      * cbn [e generation]. rewrite E29. assert (Hp : (parent n < n)%nat) by lia.
        rewrite Forall_lookup in Hf. apply (Hf (parent n)). rewrite lookup_take_lt by lia. apply cache_lookup. lia.
      * apply Hh. lia.
    + apply Forall_app. split; [|constructor; [split; cbn [e generation]; [done|lia|done]|done]].
      revert Hf. apply Forall_impl. intros x []. split; [done|lia|done].
    + apply NoDup_snoc; [done|]. intros x Hx. by apply Hold.
    + apply NoDup_snoc; [done|]. intros x Hx. cbn [e generation]. rewrite E29. by apply Hold.
  - destruct (refreshed lv s 0 (mkCached t (lv (str t)) (u29 (s_log_cache_max_generation s))) Ok) as (s' & R & Ok' & Em & _);
      [destruct Ok; lia|unfold TAG_CACHE_SIZE; lia|done|done|done|done|intros j Hj _; cbn; apply Hnew; lia|].
    exists s'. split; [done|]. split; [done|lia].
Qed.

Lemma uncached_level lv s t : log_ok lv s ->
  match get_uncached_log_level str t s with Some l => l | None => esp_log_default_level s end = lv (str t).
Proof. intros Ok. rewrite <- (lo_levels _ _ Ok). unfold get_uncached_log_level, listed. by destruct (List.find _ _). Qed.

Lemma level_get_spec lv s t : log_ok lv s -> used t -> s_log_cache_max_generation s < 2 ^ 29 ->
  exists s', esp_log_level_get str t s = Some (lv (str t), s') /\ log_ok lv s' /\
    s_log_cache_max_generation s' <= s_log_cache_max_generation s + 1.
Proof.
  intros Ok Hu Hmax. unfold esp_log_level_get, s_log_level_get_and_unlock.
  destruct (get_cached_spec lv s t Ok Hu Hmax) as (r & s1 & -> & Ok1 & Hm1 & Hr).
  destruct r as [l|]; [destruct Hr as [-> _]; by exists s1|]. destruct Hr as [-> Hnew]. rewrite (uncached_level lv s t Ok). destruct (add_to_cache_spec lv s t Ok Hu Hmax Hnew) as (s2 & -> & Ok2 & Hm2).
  eexists. split; [done|]. split; [|done]. by destruct Ok2; split.
Qed.

(** The root of a heap is its minimum. *)
Lemma heap_root c n i : heap c n -> (0 < i < n)%nat -> gen_at c 0 < gen_at c i.
Proof.
  intros Hh. induction i as [i IH] using lt_wf_ind. intros Hi. pose proof (parent_lt i ltac:(lia)). pose proof (Hh i Hi) as Hp.
  destruct (decide (parent i = 0%nat)) as [E|]; [by rewrite E in Hp|]. specialize (IH (parent i) ltac:(lia) ltac:(lia)). lia.
Qed.

(** A lookup of a new tag in a full cache replaces exactly the entry with
    the oldest generation, keeps the thirty others and returns the level of
    the tag. *)
Theorem cache_evicts_oldest lv s t :
  log_ok lv s -> used t -> s_log_cache_entry_count s = TAG_CACHE_SIZE -> s_log_cache_max_generation s < 2 ^ 29 ->
  (forall j, (j < TAG_CACHE_SIZE)%nat -> tag (cache_at (s_log_cache s) j) <> t) ->
  exists victim rest s' e, live s ≡ₚ victim :: rest /\ Forall (fun x => generation victim < generation x) rest /\
    esp_log_level_get str t s = Some (lv (str t), s') /\ live s' ≡ₚ e :: rest /\ tag e = t.
Proof.
  intros Ok Hu Hc Hmax Hnew. pose proof Ok as [Hl _ _ Hr Hh _ _ _ _]. rewrite Hc in Hh.
  assert (Elive : live s = s_log_cache s) by (unfold live; apply take_ge; lia).
  destruct (refreshed lv s 0 (mkCached t (lv (str t)) (u29 (s_log_cache_max_generation s))) Ok Hc) as (s' & R & _ & _ & Hp);
    [unfold TAG_CACHE_SIZE; lia|done|done|done|done|intros j Hj _; by apply Hnew|]. rewrite Elive in *.
  destruct (s_log_cache s) as [|c0 rest] eqn:Ec; [done|]. exists c0, rest, (count_miss s'), (mkCached t (lv (str t)) (u29 (s_log_cache_max_generation s))).
  split; [done|]. split_and!; [|clear Hp|exact Hp|done].
  - apply Forall_lookup. intros i x Hx. pose proof (lookup_lt_Some _ _ _ Hx) as Hlt. cbn [length] in Hl.
    pose proof (heap_root _ _ (S i) Hh ltac:(lia)) as Hg. unfold gen_at, cache_at in Hg. cbn [nth] in Hg.
    by rewrite (nth_lookup_Some _ _ _ _ Hx) in Hg.
  - unfold esp_log_level_get, s_log_level_get_and_unlock.
    destruct (get_cached_spec lv s t Ok Hu Hmax) as (r & s1 & -> & _ & _ & Hres). destruct r as [l|].
    { destruct Hres as (_ & j & Hj & Ej). rewrite Hc in Hj. rewrite <- Ec in Hnew. by destruct (Hnew j Hj). }
    destruct Hres as [-> _]. rewrite (uncached_level lv s t Ok). unfold add_to_cache. cbn [s_log_cache_entry_count set_max_generation].
    rewrite Hc, Nat.ltb_irrefl. replace (u3 (lv (str t))) with (lv (str t)) by (symmetry; apply Z.mod_small, Hr).
    cbn [s_log_cache set_max_generation]. rewrite Ec. by rewrite R.
Qed.

(** What a call of [esp_log_level_set] asks for. *)
Definition set_level (name : list Z) (l : Z) (lv : list Z -> Z) : list Z -> Z :=
  if bool_decide (name = [42]) then fun _ => l else fun x => if bool_decide (x = name) then l else lv x.

Lemma update_tag_spec name l tags d x :
  let look tags := from_option tag_level d (List.find (fun it => bool_decide (x = tag_name it)) tags) in
  match update_tag name l tags with
  | Some tags' => look tags' = if bool_decide (x = name) then u8 l else look tags
  | None => x = name -> look tags = d
  end.
Proof.
  cbv zeta. induction tags as [|it tags IH]; [done|]. cbn [update_tag List.find].
  destruct (decide (tag_name it = name)) as [E1|N1].
  - rewrite (bool_decide_true _ E1). cbn [List.find tag_name]. destruct (decide (x = name)) as [->|N2].
    + by rewrite bool_decide_true.
    + rewrite !(bool_decide_false (x = _)) by congruence. done.
  - rewrite (bool_decide_false _ N1). destruct (update_tag name l tags) as [tags'|]; cbn [List.find].
    + destruct (decide (x = tag_name it)) as [E2|N2]; [|by rewrite bool_decide_false].
      rewrite (bool_decide_true _ E2), (bool_decide_false (x = name)) by congruence. done.
    + intros ->. rewrite bool_decide_false by congruence. by apply IH.
Qed.

(** The list after a call for a proper tag. *)
Lemma listed_after lv s t l : log_ok lv s -> str t <> [42] -> 0 <= l < 2 ^ 3 ->
  exists tags, (match update_tag (str t) l (s_log_tags s) with
                | Some l => Some l
                | None => Some (mkTag (str t) (u8 l) :: s_log_tags s)
                end) = Some tags /\ forall name, listed (set_tags tags s) name = set_level (str t) l lv name.
Proof.
  intros Ok Hstar Hl. assert (E8 : u8 l = l) by (apply u8_small; lia).
  assert (Hset : forall name, set_level (str t) l lv name = if bool_decide (name = str t) then l else listed s name).
  { intros name. unfold set_level. rewrite bool_decide_false by done. by rewrite (lo_levels _ _ Ok). }
  pose proof (fun x => update_tag_spec (str t) l (s_log_tags s) (esp_log_default_level s) x) as U. cbv zeta in U.
  destruct (update_tag (str t) l (s_log_tags s)) as [tags|].
  - exists tags. split; [done|]. intros name. rewrite Hset, <- E8. apply U.
  - eexists. split; [done|]. intros name. rewrite Hset. unfold listed. cbn [s_log_tags set_tags List.find tag_name esp_log_default_level].
    destruct (decide (name = str t)) as [->|N]; [by rewrite !bool_decide_true|]. by rewrite !bool_decide_false by done.
Qed.

Lemma level_set_spec lv s t l : log_ok lv s -> used t -> 0 <= l < 2 ^ 3 ->
  exists s', esp_log_level_set str t l true s = Some s' /\ log_ok (set_level (str t) l lv) s' /\
    s_log_cache_max_generation s' <= s_log_cache_max_generation s.
Proof.
  intros Ok Hu Hl. unfold esp_log_level_set. destruct (decide (str t = [42])) as [Es|Es].
  { rewrite bool_decide_true by done. eexists. split; [done|]. destruct Ok. split; [|done].
    unfold set_level. rewrite bool_decide_true by done. split; cbn; [done|unfold TAG_CACHE_SIZE; lia|done|done|intros i Hi; lia|constructor..|done]. }
  rewrite bool_decide_false by done. destruct (listed_after lv s t l Ok Es Hl) as (tags & -> & Hls).
  cbn [s_log_cache s_log_cache_entry_count set_tags].
  assert (Hr : forall name, 0 <= set_level (str t) l lv name < 2 ^ 3).
  { intros name. unfold set_level. rewrite bool_decide_false by done. destruct (bool_decide _); [done|apply Ok]. }
  assert (Hother : forall e, str (tag e) <> str t -> set_level (str t) l lv (str (tag e)) = lv (str (tag e))).
  { intros e He. unfold set_level. by rewrite !bool_decide_false. }
  destruct (search_spec (fun e => bool_decide (str (tag e) = str t)) (s_log_cache s) (s_log_cache_entry_count s) 0 (lo_heap _ _ Ok)) as (r & -> & Hsr).
  destruct r as [i|].
  - destruct Hsr as [Hi Es0]. apply bool_decide_eq_true in Es0. pose proof (live_fits lv s i Ok ltac:(lia)) as [Fl Fg Fu].
    pose proof (one_pointer _ _ Fu Hu Es0) as Et. set (e0 := cache_at (s_log_cache s) i) in *.
    eexists. split; [done|]. split; [|done]. set (e := mkCached _ _ _).
    assert (E3 : u3 l = l) by (by apply Z.mod_small).
    assert (El : live (set_cache (<[i := e]> (s_log_cache s)) (set_tags tags s)) = <[i := e]> (live s)).
    { unfold live. cbn. by rewrite take_insert_lt by lia. }
    assert (Hi0 : live s !! i = Some e0) by (apply live_lookup; destruct Ok; lia).
    assert (Same : forall A (f : cached_tag_entry_t -> A), f e = f e0 -> f <$> <[i := e]> (live s) = f <$> live s).
    { intros A f Ef. rewrite list_fmap_insert. apply list_insert_id. by rewrite list_lookup_fmap, Hi0, Ef. }
    destruct Ok. split; rewrite ?El, ?Same by done; try done; cbn [s_log_cache set_cache set_tags s_log_cache_entry_count s_log_cache_max_generation].
    + by rewrite length_insert.
    + assert (Eg : forall x, gen_at (<[i := e]> (s_log_cache s)) x = gen_at (s_log_cache s) x).
      { intros x. unfold gen_at. rewrite cache_at_insert by lia. by destruct (Nat.eqb_spec x i) as [->|]. }
      intros j Hj. rewrite !Eg. by apply lo_heap0.
    + apply Forall_lookup. intros j x Hj. rewrite Forall_lookup in lo_live0. destruct (decide (j = i)) as [->|Hne].
      * rewrite list_lookup_insert_eq in Hj by (by eapply lookup_lt_Some). injection Hj as <-. split; cbn [e level tag generation]; [|done|done].
        rewrite E3. unfold set_level. rewrite bool_decide_false by done. by rewrite bool_decide_true.
      * rewrite list_lookup_insert_ne in Hj by done. destruct (lo_live0 j x Hj). split; [|done|done]. rewrite Hother; [done|].
        intros E1. apply Hne. pose proof (one_pointer _ _ ef_used0 Hu E1) as E2.
        apply (NoDup_lookup _ j i t lo_tags0); rewrite list_lookup_fmap, ?Hj, ?Hi0; cbn; congruence.
  - exists (set_tags tags s). split; [done|]. split; [|done]. destruct Ok. split; try done.
    apply Forall_lookup. intros j e Hj. change (live (set_tags tags s)) with (live s) in Hj.
    rewrite Forall_lookup in lo_live0. destruct (lo_live0 j e Hj). split; [|done|done].
    rewrite Hother; [done|]. pose proof (lookup_lt_Some _ _ _ Hj) as Hlt. unfold live in Hj, Hlt. rewrite length_take in Hlt.
    rewrite lookup_take_lt, cache_lookup in Hj by lia. injection Hj as <-. specialize (Hsr j ltac:(lia)). by apply bool_decide_eq_false in Hsr.
Qed.

(** Whether the list has an entry for a tag. *)
Definition has_tag (name : list Z) (tags : list uncached_tag_entry_t) : bool := existsb (fun it => bool_decide (tag_name it = name)) tags.

Lemma update_tag_has name l tags x : has_tag name tags = match update_tag name l tags with Some _ => true | None => false end /\
  forall tags', update_tag name l tags = Some tags' -> has_tag x tags' = has_tag x tags.
Proof.
  induction tags as [|it tags [IH1 IH2]]; [done|]. cbn [update_tag has_tag existsb]. fold (has_tag name tags).
  destruct (decide (tag_name it = name)) as [<-|N].
  - rewrite (bool_decide_true (_ = _)) by done. split; [done|]. by intros tags' [= <-].
  - rewrite (bool_decide_false (_ = _)) by done. cbn [orb]. rewrite IH1. destruct (update_tag name l tags) as [tags1|]; [|done].
    split; [done|]. intros tags' [= <-]. cbn [has_tag existsb]. f_equal. by apply IH2.
Qed.

(** Without memory for a new entry a call for a new tag does nothing. *)
Lemma level_set_memory t l mem_ok s : esp_log_level_set str t l mem_ok s =
  if mem_ok || bool_decide (str t = [42]) || has_tag (str t) (s_log_tags s) then esp_log_level_set str t l true s else Some s.
Proof.
  destruct mem_ok; [done|]. unfold esp_log_level_set. cbn [orb]. destruct (bool_decide (str t = [42])); [done|]. cbn [orb].
  rewrite (proj1 (update_tag_has (str t) l (s_log_tags s) [])). by destruct (update_tag (str t) l (s_log_tags s)).
Qed.

(** The tags that have an entry afterwards. *)
Lemma level_set_tags t l s s' : esp_log_level_set str t l true s = Some s' -> forall x,
  has_tag x (s_log_tags s') = negb (bool_decide (str t = [42])) && (bool_decide (str t = x) || has_tag x (s_log_tags s)).
Proof.
  unfold esp_log_level_set. destruct (bool_decide (str t = [42])); [by intros [= <-]|]. intros E x.
  assert (T : forall tags, (forall y, has_tag y tags = bool_decide (str t = y) || has_tag y (s_log_tags s)) ->
    (do* r <- search_cache (fun e => bool_decide (str (tag e) = str t)) (s_log_cache (set_tags tags s)) 0 (s_log_cache_entry_count (set_tags tags s));
     match r with
     | None => Some (set_tags tags s)
     | Some i => let e := cache_at (s_log_cache (set_tags tags s)) i in
         Some (set_cache (<[i := mkCached (tag e) (u3 l) (generation e)]> (s_log_cache (set_tags tags s))) (set_tags tags s))
     end) = Some s' -> has_tag x (s_log_tags s') = bool_decide (str t = x) || has_tag x (s_log_tags s)).
  { intros tags Ht R. destruct (search_cache _ _ _ _) as [[i|]|]; [| |done]; injection R as <-; apply Ht. }
  pose proof (update_tag_has (str t) l (s_log_tags s)) as U. destruct (update_tag (str t) l (s_log_tags s)) as [tags|].
  - apply (T tags); [|exact E]. intros y. destruct (U y) as [U1 U2]. rewrite (U2 _ eq_refl).
    destruct (decide (str t = y)) as [<-|]; [by rewrite U1, orb_true_r|by rewrite bool_decide_false].
  - apply (T (mkTag (str t) (u8 l) :: s_log_tags s)); [done|exact E].
Qed.

(** ** Sequences of calls *)

(** [mem_ok]: there is memory for a list entry, should the call allocate one;
    [locked]: the lock is taken in time. *)
Inductive log_op := LSet (t lvl : Z) (mem_ok : bool) | LGet (t : Z) | LWrite (lvl t : Z) (locked : bool).
Inductive log_result := RSet | RLevel (l : Z) | RPrinted (b : bool).

Definition log_step (op : log_op) (s : log_state) : option (log_result * log_state) :=
  match op with
  | LSet t l mem_ok => do* s <- esp_log_level_set str t l mem_ok s; Some (RSet, s)
  | LGet t => do* (l, s) <- esp_log_level_get str t s; Some (RLevel l, s)
  | LWrite l t locked => do* (b, s) <- esp_log_writev str l t locked s; Some (RPrinted b, s)
  end.

Fixpoint log_run (ops : list log_op) (s : log_state) : option (list log_result * log_state) :=
  match ops with
  | [] => Some ([], s)
  | op :: ops =>
      do* (r, s) <- log_step op s;
      do* (rs, s) <- log_run ops s;
      Some (r :: rs, s)
  end.

(** The same calls on a plain map: the levels of all tags, and the tags whose
    level was set since the last call for the tag "*". *)
Record levels := mkLevels { lv_of : list Z -> Z; lv_known : list Z -> bool }.

Definition spec_step (op : log_op) (m : levels) : log_result * levels :=
  match op with
  | LSet t l mem_ok =>
      (RSet, if mem_ok || bool_decide (str t = [42]) || lv_known m (str t) then
               mkLevels (set_level (str t) l (lv_of m)) (fun x => negb (bool_decide (str t = [42])) && (bool_decide (str t = x) || lv_known m x))
             else m)
  | LGet t => (RLevel (lv_of m (str t)), m)
  | LWrite l t locked => (RPrinted (locked && should_output l (lv_of m (str t))), m)
  end.

Fixpoint spec_run (ops : list log_op) (m : levels) : list log_result * levels :=
  match ops with
  | [] => ([], m)
  | op :: ops => let '(r, m) := spec_step op m in let '(rs, m) := spec_run ops m in (r :: rs, m)
  end.

Definition op_ok (op : log_op) : Prop :=
  match op with
  | LSet t l _ => used t /\ 0 <= l < 2 ^ 3
  | LGet t | LWrite _ t _ => used t
  end.

Definition represents (m : levels) (s : log_state) : Prop := log_ok (lv_of m) s /\ forall x, lv_known m x = has_tag x (s_log_tags s).

(** Reading a level does not touch the list. *)
Lemma level_get_tags t l s s' : esp_log_level_get str t s = Some (l, s') -> s_log_tags s' = s_log_tags s.
Proof.
  assert (B : forall i s s', heap_bubble_down i s = Some s' -> s_log_tags s' = s_log_tags s).
  { intros i s1 s2. unfold heap_bubble_down. destruct (bubble_loop _ _ _); [|done]. by intros [= <-]. }
  assert (A : forall l s s', add_to_cache t l s = Some s' -> s_log_tags s' = s_log_tags s).
  { intros l1 s1 s2. unfold add_to_cache. destruct (_ <? _)%nat; [by intros [= <-]|]. intros E. by rewrite (B _ _ _ E). }
  unfold esp_log_level_get, s_log_level_get_and_unlock, get_cached_log_level. destruct (search_cache _ _ _ _) as [[i|]|]; [| |done].
  - destruct (_ =? _)%nat; [|by intros [= _ <-]]. destruct (heap_bubble_down _ _) as [s1|] eqn:E; [|done]. intros [= _ <-]. by rewrite (B _ _ _ E).
  - destruct (add_to_cache _ _ s) as [s1|] eqn:E; [|done]. intros [= _ <-]. exact (A _ _ _ E).
Qed.

Lemma log_step_spec op m s : represents m s -> op_ok op -> s_log_cache_max_generation s < 2 ^ 29 ->
  let '(r, m') := spec_step op m in
  exists s', log_step op s = Some (r, s') /\ represents m' s' /\ s_log_cache_max_generation s' <= s_log_cache_max_generation s + 1.
Proof.
  intros [Ok Hk] Ho Hm. destruct op as [t l mem_ok|t|l t locked]; cbn [spec_step log_step].
  - destruct Ho as [Hu Hl]. rewrite level_set_memory, <- Hk. destruct (_ || _ || _).
    + destruct (level_set_spec (lv_of m) s t l Ok Hu Hl) as (s' & E & Ok' & Hm'). rewrite E. exists s'. split; [done|]. split; [split; [done|]|lia].
      intros x. cbn [lv_known]. by rewrite (level_set_tags t l s s' E), Hk.
    + exists s. split_and!; [done..|lia].
  - destruct (level_get_spec (lv_of m) s t Ok Ho Hm) as (s' & E & Ok' & Hm'). rewrite E. exists s'. split; [done|]. split; [split; [done|]|done].
    intros x. by rewrite (level_get_tags _ _ _ _ E).
  - destruct locked; [|by exists s; split_and!; [..|lia]].
    destruct (level_get_spec (lv_of m) s t Ok Ho Hm) as (s' & R & Ok' & Hm'). unfold esp_log_writev. cbn [negb]. pose proof (level_get_tags _ _ _ _ R) as Et.
    unfold esp_log_level_get in R. rewrite R. exists s'. split; [done|]. split; [split; [done|]|done]. intros x. by rewrite Et.
Qed.

Lemma log_run_spec ops m s : represents m s -> Forall op_ok ops ->
  s_log_cache_max_generation s + Z.of_nat (length ops) < 2 ^ 29 ->
  let '(rs, m') := spec_run ops m in exists s', log_run ops s = Some (rs, s') /\ represents m' s'.
Proof.
  revert m s. induction ops as [|op ops IH]; intros m s Ok Ho Hm; cbn [spec_run log_run]; [by exists s|].
  apply Forall_cons_iff in Ho as [H1 H2]. cbn [length] in Hm.
  pose proof (log_step_spec op m s Ok H1 ltac:(lia)) as St. destruct (spec_step op m) as [r m1].
  destruct St as (s1 & -> & Ok1 & Hm1). specialize (IH m1 s1 Ok1 H2 ltac:(lia)).
  destruct (spec_run ops m1) as [rs m2]. destruct IH as (s2 & -> & Ok2). by exists s2.
Qed.

Lemma log_init_ok d print : 0 <= d < 2 ^ 3 -> log_ok (fun _ => d) (log_init d print).
Proof. intros Hd. split; cbn; [done|unfold TAG_CACHE_SIZE; lia|done|done|intros i Hi; lia|constructor..|done]. Qed.

(** No level was set yet. *)
Definition init_levels (d : Z) : levels := mkLevels (fun _ => d) (fun _ => false).

(** C36: Any sequence of fewer than 2^29 calls that set, get and use log
    levels, in which equal tags are equal pointers, and of which any may find
    no memory for a list entry or not get the lock in time, gives the results
    of a plain map from tags to levels with a default, in which a call that
    finds no memory has no effect on a tag without an entry, and a message
    without the lock is not printed; no consistency check fails. The cache is
    not observable. *)
Theorem log_cache_transparent ops d print :
  Forall op_ok ops -> 0 <= d < 2 ^ 3 -> Z.of_nat (length ops) < 2 ^ 29 ->
  exists s', log_run ops (log_init d print) = Some ((spec_run ops (init_levels d)).1, s') /\
    represents (spec_run ops (init_levels d)).2 s'.
Proof.
  intros Ho Hd Hn. assert (R0 : represents (init_levels d) (log_init d print)) by (split; [exact (log_init_ok d print Hd)|done]).
  pose proof (log_run_spec ops (init_levels d) (log_init d print) R0 Ho Hn) as R. by destruct (spec_run ops (init_levels d)).
Qed.
End Levels.

(** ** Limits *)

(** Two pointers to the same tag: only one of the cached entries is
    updated. *)
Definition ex_str (t : Z) : list Z := if t =? 3 then [98] else [97].

Lemma second_pointer_stale :
  ex_str 1 = ex_str 2 /\
  fst <$> log_run ex_str [LGet 1; LGet 2; LSet 1 5 true; LGet 1; LGet 2] (log_init 3 0) =
    Some [RLevel 3; RLevel 3; RSet; RLevel 5; RLevel 3].
Proof. split; vm_compute; reflexivity. Qed.

(** Generations have 29 bits: when the counter reaches [2 ^ 29], the entry
    that was used last gets generation 0 below older ones, and the next
    search through the whole cache fails the check of the heap order. *)
Definition ex_old : log_state :=
  mkLog 3 [] ((fun i => mkCached (Z.of_nat i) 3 (2 ^ 29 - 31 + Z.of_nat i)) <$> seq 0 31) (2 ^ 29) 31 0 0.

Lemma generation_wraps :
  fst <$> log_run (fun t => [t]) [LGet 0] ex_old = Some [RLevel 3] /\ log_run (fun t => [t]) [LGet 0; LGet 99] ex_old = None.
Proof. split; vm_compute; reflexivity. Qed.

(** ** Example *)

Lemma log_cache_transparent_witness :
  exists s', log_run (fun t => [t]) [LGet 1; LSet 1 5 true; LGet 1; LWrite 4 2 true; LSet 2 5 false; LGet 2; LWrite 1 2 false] (log_init 3 0) =
    Some ([RLevel 3; RSet; RLevel 5; RPrinted false; RSet; RLevel 3; RPrinted false], s').
Proof.
  destruct (log_cache_transparent (fun t => [t]) (fun t => 0 <= t < 10) (fun p q _ _ E => f_equal (hd 0) E)
    [LGet 1; LSet 1 5 true; LGet 1; LWrite 4 2 true; LSet 2 5 false; LGet 2; LWrite 1 2 false] 3 0) as (s' & R & _).
  - repeat constructor; simpl; lia.
  - lia.
  - reflexivity.
  - exists s'. exact R.
Defined.

Definition ex_full : log_state :=
  mkLog 3 [] ((fun i => mkCached (Z.of_nat i) 3 (Z.of_nat i)) <$> seq 0 31) 31 31 0 0.

Lemma ex_full_ok : log_ok (fun t => [t]) (fun _ => True) (fun _ => 3) ex_full.
Proof.
  split; try done; try (unfold TAG_CACHE_SIZE; simpl; lia).
  - intros i Hi. assert (A : forallb (fun i => gen_at (s_log_cache ex_full) (parent i) <? gen_at (s_log_cache ex_full) i) (seq 1 30) = true) by reflexivity.
    rewrite forallb_forall in A. apply Z.ltb_lt, A, in_seq. simpl in Hi. lia.
  - assert (A : forall n i, (n + i <= 31)%nat -> Forall (entry_fits (fun t => [t]) (fun _ => True) (fun _ => 3) 31)
        ((fun i => mkCached (Z.of_nat i) 3 (Z.of_nat i)) <$> seq i n)).
    { induction n as [|n IH]; intros i Hi; [constructor|]. constructor; [split; simpl; (done || lia)|]. apply IH. lia. }
    apply (A 31%nat 0%nat). lia.
  - by apply (bool_decide_unpack (NoDup (tag <$> live ex_full))).
  - by apply (bool_decide_unpack (NoDup (generation <$> live ex_full))).
Qed.

Lemma cache_evicts_oldest_witness : exists victim rest s' e,
  live ex_full ≡ₚ victim :: rest /\ esp_log_level_get (fun t => [t]) 99 ex_full = Some (3, s') /\ live s' ≡ₚ e :: rest /\ tag e = 99.
Proof.
  destruct (cache_evicts_oldest (fun t => [t]) (fun _ => True) (fun _ => 3) ex_full 99 ex_full_ok I) as (v & r & s' & e & R1 & _ & R2 & R3 & R4).
  - reflexivity.
  - reflexivity.
  - intros j Hj. assert (A : forallb (fun j => negb (tag (cache_at (s_log_cache ex_full) j) =? 99)) (seq 0 31) = true) by reflexivity.
    rewrite forallb_forall in A. specialize (A j). rewrite in_seq in A. unfold TAG_CACHE_SIZE in Hj.
    apply Z.eqb_neq, negb_true_iff, A. lia.
  - exists v, r, s', e. split; [exact R1|]. split; [exact R2|]. split; [exact R3|exact R4].
Defined.
