(* ===== verification/EspTimer.v ===== *)
(** * Software timers

    components/esp_timer/src/esp_timer.c in the default build (without
    profiling), and [esp_timer_impl_set_alarm_id] of
    esp_timer_impl_systimer.c.  Timers are heap blocks named by numbers; the
    two lists of armed timers hold these names.  A call that starts, stops,
    restarts or deletes a timer looks at the timer before it takes the lock
    of the list: it is modelled as this check, with an [outcome] that says
    whether the call returns or goes on, and a critical section that runs in
    a later state.  A round of the dispatching loop is a critical section
    too.  The current time is an argument, and what a callback and the other
    tasks do while a callback runs is the parameter [exec].  [None] is an
    access to a block that is not allocated, unlinking a timer that is in no
    list (a write through a stale pointer) or linking one that is in a list. *)

From S2P Require Import Prelude Flash.
From stdpp Require Import gmap.
#[local] Open Scope Z_scope.

(** ** Data *)

Definition UINT64_MAX : Z := 0xFFFFFFFFFFFFFFFF.
Definition INT64_MAX : Z := 0x7FFFFFFFFFFFFFFF.
Definition u64 (z : Z) : Z := z mod 2 ^ 64.
Definition u56 (z : Z) : Z := z mod 2 ^ 56.
Definition EVENT_ID_DELETE_TIMER : Z := 0xF0DE1E1E.
Definition FL_ISR_DISPATCH_METHOD : Z := 1.
Definition FL_SKIP_UNHANDLED_EVENTS : Z := 2.

(** [callback] is the union of the callback and [event_id]. *)
Record esp_timer := mkTimer { alarm : Z; period : Z; flags : Z; callback : Z; arg : Z }.

(** The dispatch method: [false] is [ESP_TIMER_TASK], [true] [ESP_TIMER_ISR]. *)
Definition dispatch_method (t : esp_timer) : bool := flag_test (flags t) FL_ISR_DISPATCH_METHOD.

Record timer_state := mkTs {
  ts_heap : gmap Z esp_timer;
  ts_next : Z; (* the next heap block *)
  ts_task : list Z; (* s_timers[ESP_TIMER_TASK] *)
  ts_isr : list Z; (* s_timers[ESP_TIMER_ISR] *)
  ts_stamp_task : Z; (* timestamp_id of esp_timer_impl_set_alarm_id *)
  ts_stamp_isr : Z;
  ts_target : Z; (* the alarm register *)
  s_timer_task : bool (* s_timer_task != NULL *)
}.

Definition s_timers (d : bool) (s : timer_state) : list Z := if d then ts_isr s else ts_task s.
Definition stamp (d : bool) (s : timer_state) : Z := if d then ts_stamp_isr s else ts_stamp_task s.

Definition set_heap (h : gmap Z esp_timer) (s : timer_state) : timer_state :=
  mkTs h (ts_next s) (ts_task s) (ts_isr s) (ts_stamp_task s) (ts_stamp_isr s) (ts_target s) (s_timer_task s).
Definition set_timers (d : bool) (l : list Z) (s : timer_state) : timer_state :=
  mkTs (ts_heap s) (ts_next s) (if d then ts_task s else l) (if d then l else ts_isr s)
    (ts_stamp_task s) (ts_stamp_isr s) (ts_target s) (s_timer_task s).
Definition set_timer (h : Z) (t : esp_timer) (s : timer_state) : timer_state := set_heap (<[h := t]> (ts_heap s)) s.
Definition free_timer (h : Z) (s : timer_state) : timer_state := set_heap (delete h (ts_heap s)) s.

Definition with_alarm (a p : Z) (t : esp_timer) : esp_timer := mkTimer a p (flags t) (callback t) (arg t).

(** ** The alarm (esp_timer_impl_systimer.c) *)

Definition esp_timer_impl_get_min_period_us : Z := 50.

Definition esp_timer_impl_set_alarm_id (timestamp : Z) (alarm_id : bool) (s : timer_state) : timer_state :=
  let st0 := if alarm_id then ts_stamp_task s else timestamp in
  let st1 := if alarm_id then timestamp else ts_stamp_isr s in
  let timestamp := Z.min st0 st1 in
  mkTs (ts_heap s) (ts_next s) (ts_task s) (ts_isr s) st0 st1
    (if negb (timestamp =? UINT64_MAX) then timestamp else ts_target s) (s_timer_task s).

(** ** The lists *)

Definition alarm_of (s : timer_state) (h : Z) : Z := from_option alarm 0 (ts_heap s !! h).

(** In front of the first timer with a later alarm. *)
Fixpoint insert_before (alarm_of : Z -> Z) (a timer : Z) (l : list Z) : list Z :=
  match l with
  | [] => [timer]
  | it :: l => if a <? alarm_of it then timer :: it :: l else it :: insert_before alarm_of a timer l
  end.

Definition listed (timer : Z) (s : timer_state) : bool :=
  bool_decide (timer ∈ ts_task s) || bool_decide (timer ∈ ts_isr s).

(** [LIST_INSERT_HEAD], [LIST_INSERT_BEFORE] or [LIST_INSERT_AFTER]. *)
Definition timer_insert (timer : Z) (without_update_alarm : bool) (s : timer_state) : option timer_state :=
  do* t <- ts_heap s !! timer;
  let d := dispatch_method t in
  if listed timer s then None
  else
    let s := set_timers d (insert_before (alarm_of s) (alarm t) timer (s_timers d s)) s in
    Some (if negb without_update_alarm && bool_decide (head (s_timers d s) = Some timer)
          then esp_timer_impl_set_alarm_id (alarm t) d s else s).

Definition unlink (timer : Z) (s : timer_state) : timer_state :=
  set_timers true (filter (fun h => h <> timer) (ts_isr s))
    (set_timers false (filter (fun h => h <> timer) (ts_task s)) s).

(** [LIST_REMOVE] unlinks the timer from the list it is in. *)
Definition list_remove (timer : Z) (s : timer_state) : option timer_state :=
  if listed timer s then Some (unlink timer s) else None.

Definition next_alarm_of (d : bool) (s : timer_state) : Z :=
  match head (s_timers d s) with Some h => alarm_of s h | None => UINT64_MAX end.

Definition timer_remove (timer : Z) (s : timer_state) : option timer_state :=
  do* t <- ts_heap s !! timer;
  let d := dispatch_method t in
  let first_timer := head (s_timers d s) in
  do* s <- list_remove timer s;
  let s := set_timer timer (with_alarm 0 0 t) s in
  Some (if bool_decide (first_timer = Some timer) then esp_timer_impl_set_alarm_id (next_alarm_of d s) d s else s).

Definition timer_armed (t : esp_timer) : bool := 0 <? alarm t.
Definition is_initialized (s : timer_state) : bool := s_timer_task s.

(** ** The interface; a timer is a pointer, [None] is [NULL] *)

Record esp_timer_create_args_t := mkArgs {
  args_callback : Z;
  args_arg : Z;
  args_dispatch_method : Z;
  args_skip_unhandled_events : bool
}.

(** [out_handle]: the pointer is not [NULL]; [mem_ok]: the allocation
    succeeds.  The second component of the result is [*out_handle]. *)
Definition esp_timer_create (args : option esp_timer_create_args_t) (out_handle mem_ok : bool) (s : timer_state)
    : esp_err_t * option Z * timer_state :=
  if negb (is_initialized s) then (ESP_ERR_INVALID_STATE, None, s)
  else
    match args with
    | None => (ESP_ERR_INVALID_ARG, None, s)
    | Some args =>
        if (args_callback args =? 0) || negb out_handle || (args_dispatch_method args <? 0) || (2 <=? args_dispatch_method args)
        then (ESP_ERR_INVALID_ARG, None, s)
        else if negb mem_ok then (ESP_ERR_NO_MEM, None, s)
        else
          let fl := Z.lor (if negb (args_dispatch_method args =? 0) then FL_ISR_DISPATCH_METHOD else 0)
                      (if args_skip_unhandled_events args then FL_SKIP_UNHANDLED_EVENTS else 0) in
          let h := ts_next s in
          (ESP_OK, Some h,
           mkTs (<[h := mkTimer 0 0 fl (args_callback args) (args_arg args)]> (ts_heap s)) (h + 1) (ts_task s) (ts_isr s)
             (ts_stamp_task s) (ts_stamp_isr s) (ts_target s) (s_timer_task s))
    end.

(** *** The checks

    What a call does before it takes the lock. *)

(** The critical section that is still to come. *)
Inductive section :=
| SecArm (a p : Z) (* of the two starts: the alarm and the period *)
| SecRemove (* of [esp_timer_stop], in [timer_remove] *)
| SecRestart (timeout_us : Z)
| SecDelete (a : Z).

Inductive outcome :=
| Returns (err : esp_err_t)
| Enters (timer : Z) (sec : section).

Definition esp_timer_start_once (timer : option Z) (timeout_us now : Z) (s : timer_state) : option outcome :=
  match timer with
  | None => Some (Returns ESP_ERR_INVALID_ARG)
  | Some timer =>
      do* t <- ts_heap s !! timer;
      if negb (is_initialized s) || timer_armed t then Some (Returns ESP_ERR_INVALID_STATE)
      else Some (Enters timer (SecArm (u64 (now + timeout_us)) 0))
  end.

Definition esp_timer_start_periodic (timer : option Z) (period_us now : Z) (s : timer_state) : option outcome :=
  match timer with
  | None => Some (Returns ESP_ERR_INVALID_ARG)
  | Some timer =>
      do* t <- ts_heap s !! timer;
      if negb (is_initialized s) || timer_armed t then Some (Returns ESP_ERR_INVALID_STATE)
      else
        let period_us := Z.max period_us esp_timer_impl_get_min_period_us in
        Some (Enters timer (SecArm (u64 (now + period_us)) period_us))
  end.

Definition esp_timer_stop (timer : option Z) (s : timer_state) : option outcome :=
  match timer with
  | None => Some (Returns ESP_ERR_INVALID_ARG)
  | Some timer =>
      do* t <- ts_heap s !! timer;
      if negb (is_initialized s) || negb (timer_armed t) then Some (Returns ESP_ERR_INVALID_STATE)
      else Some (Enters timer SecRemove)
  end.

Definition esp_timer_restart (timer : option Z) (timeout_us : Z) (s : timer_state) : option outcome :=
  match timer with
  | None => Some (Returns ESP_ERR_INVALID_ARG)
  | Some timer =>
      do* t <- ts_heap s !! timer;
      if negb (is_initialized s) || negb (timer_armed t) then Some (Returns ESP_ERR_INVALID_STATE)
      else Some (Enters timer (SecRestart timeout_us))
  end.

Definition esp_timer_delete (timer : option Z) (now : Z) (s : timer_state) : option outcome :=
  match timer with
  | None => Some (Returns ESP_ERR_INVALID_ARG)
  | Some timer =>
      do* t <- ts_heap s !! timer;
      if timer_armed t then Some (Returns ESP_ERR_INVALID_STATE)
      else Some (Enters timer (SecDelete (u64 now)))
  end.

(** *** The critical sections *)

(** Writing the alarm and the period, and inserting. *)
Definition arm_locked (timer a p : Z) (s : timer_state) : option (esp_err_t * timer_state) :=
  do* t <- ts_heap s !! timer;
  do* s <- timer_insert timer false (set_timer timer (with_alarm a (u56 p) t) s);
  Some (ESP_OK, s).

Definition restart_locked (timer timeout_us now : Z) (s : timer_state) : option (esp_err_t * timer_state) :=
  do* t <- ts_heap s !! timer;
  do* s <- timer_remove timer s;
  if negb (period t =? 0) then
    let new_period := Z.max timeout_us esp_timer_impl_get_min_period_us in
    arm_locked timer (u64 (now + new_period)) new_period s
  else arm_locked timer (u64 (now + timeout_us)) 0 s.

Definition delete_locked (timer a : Z) (s : timer_state) : option (esp_err_t * timer_state) :=
  do* t <- ts_heap s !! timer;
  let t := mkTimer a 0 (flag_clear (flags t) FL_ISR_DISPATCH_METHOD) EVENT_ID_DELETE_TIMER (arg t) in
  do* s <- timer_insert timer false (set_timer timer t s);
  Some (ESP_OK, s).

(** [now] is the time in the critical section. *)
Definition run_section (timer : Z) (sec : section) (now : Z) (s : timer_state) : option (esp_err_t * timer_state) :=
  match sec with
  | SecArm a p => arm_locked timer a p s
  | SecRemove => do* s <- timer_remove timer s; Some (ESP_OK, s)
  | SecRestart timeout_us => restart_locked timer timeout_us now s
  | SecDelete a => delete_locked timer a s
  end.

(** A call: its check, then what [others] do, then its critical section at
    the time [now]. *)
Definition complete (others : timer_state -> timer_state) (now : Z) (out : option outcome) (s : timer_state)
    : option (esp_err_t * timer_state) :=
  do* out <- out;
  match out with
  | Returns err => Some (err, s)
  | Enters timer sec => run_section timer sec now (others s)
  end.

Definition esp_timer_get_next_alarm (s : timer_state) : Z :=
  let step next_alarm d :=
    match head (s_timers d s) with
    | Some h => if alarm_of s h <? next_alarm then alarm_of s h else next_alarm
    | None => next_alarm
    end in
  step (step INT64_MAX false) true.

Definition wakes (s : timer_state) (h : Z) : bool :=
  negb (flag_test (from_option flags 0 (ts_heap s !! h)) FL_SKIP_UNHANDLED_EVENTS).

Definition esp_timer_get_next_alarm_for_wake_up (s : timer_state) : Z :=
  let step next_alarm d :=
    match List.find (wakes s) (s_timers d s) with
    | Some h => if alarm_of s h <? next_alarm then alarm_of s h else next_alarm
    | None => next_alarm
    end in
  step (step INT64_MAX false) true.

(** [out]: the pointer for the result is not [NULL]. *)
Definition esp_timer_get_period (timer : option Z) (out : bool) (s : timer_state) : option (esp_err_t * Z) :=
  match timer, out with
  | Some timer, true => do* t <- ts_heap s !! timer; Some (ESP_OK, period t)
  | _, _ => Some (ESP_ERR_INVALID_ARG, 0)
  end.

Definition esp_timer_get_expiry_time (timer : option Z) (out : bool) (s : timer_state) : option (esp_err_t * Z) :=
  match timer, out with
  | Some timer, true =>
      do* t <- ts_heap s !! timer;
      if 0 <? period t then Some (ESP_ERR_NOT_SUPPORTED, 0) else Some (ESP_OK, alarm t)
  | _, _ => Some (ESP_ERR_INVALID_ARG, 0)
  end.

Definition esp_timer_is_active (timer : Z) (s : timer_state) : option bool :=
  do* t <- ts_heap s !! timer; Some (timer_armed t).

(** [task_ok]: the timer task was created; [impl_ok]: [esp_timer_impl_init]
    succeeded. *)
Definition esp_timer_init (task_ok impl_ok : bool) (s : timer_state) : esp_err_t * timer_state :=
  let set_task b := mkTs (ts_heap s) (ts_next s) (ts_task s) (ts_isr s) (ts_stamp_task s) (ts_stamp_isr s) (ts_target s) b in
  if is_initialized s then (ESP_ERR_INVALID_STATE, s)
  else if negb task_ok then (ESP_ERR_NO_MEM, set_task false)
  else if negb impl_ok then (ESP_ERR_NO_MEM, set_task false)
  else (ESP_OK, set_task true).

Definition esp_timer_deinit (s : timer_state) : esp_err_t * timer_state :=
  if negb (is_initialized s) then (ESP_ERR_INVALID_STATE, s)
  else
    match s_timers false s, s_timers true s with
    | [], [] => (ESP_OK, mkTs (ts_heap s) (ts_next s) (ts_task s) (ts_isr s) (ts_stamp_task s) (ts_stamp_isr s) (ts_target s) false)
    | _, _ => (ESP_ERR_INVALID_STATE, s)
    end.

(** ** Dispatching *)

Section Process.
(** The time read in the [k]-th round, and the effect of a callback. *)
Context (clock : nat -> Z) (exec : Z -> Z -> timer_state -> timer_state).

(** The alarm of a periodic timer after it was due at [now]. *)
Definition next_period (t : esp_timer) (now : Z) : Z :=
  let skipped := i32 (u64 (now - alarm t) / period t) in
  if flag_test (flags t) FL_SKIP_UNHANDLED_EVENTS && (1 <? skipped) then u64 (now + period t)
  else u64 (alarm t + period t).

(** One round of the loop at the time [now]. *)
Inductive round :=
| NothingDue
| Freed (s : timer_state) (* the timer was to be deleted *)
| Dispatched (it cb a : Z) (s : timer_state). (* its callback is called next *)

Definition process_round (d : bool) (now : Z) (s : timer_state) : option round :=
  match head (s_timers d s) with
  | None => Some NothingDue
  | Some it =>
      do* t <- ts_heap s !! it;
      if now <? alarm t then Some NothingDue
      else
        do* s <- list_remove it s;
        if callback t =? EVENT_ID_DELETE_TIMER then Some (Freed (free_timer it s))
        else
          do* s <- (if 0 <? period t
                    then timer_insert it true (set_timer it (with_alarm (next_period t now) (period t) t) s)
                    else Some (set_timer it (with_alarm 0 (period t) t) s));
          Some (Dispatched it (callback t) (arg t) s)
  end.

(** [processed] and the timers whose callbacks were called. *)
Fixpoint process_loop (fuel : nat) (d : bool) (k : nat) (processed : bool) (s : timer_state)
    : option (bool * list Z * timer_state) :=
  match fuel with
  | O => None
  | S fuel =>
      do* r <- process_round d (clock k) s;
      match r with
      | NothingDue => Some (processed, [], s)
      | Freed s => process_loop fuel d (S k) true s
      | Dispatched it cb a s =>
          do* (processed, called, s) <- process_loop fuel d (S k) true (exec cb a s);
          Some (processed, it :: called, s)
      end
  end.

(** The alarm is set after the loop. *)
Definition process_end (d processed : bool) (s : timer_state) : timer_state :=
  match head (s_timers d s) with
  | Some it => if negb d || processed then esp_timer_impl_set_alarm_id (alarm_of s it) d s else s
  | None => if processed then esp_timer_impl_set_alarm_id UINT64_MAX d s else s
  end.

Definition timer_process_alarm (fuel : nat) (d : bool) (s : timer_state) : option (bool * list Z * timer_state) :=
  do* (processed, called, s) <- process_loop fuel d 0 false s;
  Some (processed, called, process_end d processed s).

(** The interrupt handler with ISR dispatch; the result says whether the
    timer task is notified. *)
Definition timer_alarm_handler (fuel : nat) (s : timer_state) : option (bool * timer_state) :=
  do* (isr_timers_processed, _, s) <- timer_process_alarm fuel true s;
  Some (negb isr_timers_processed, s).
End Process.

(** ** The dump *)

(** Writing into a buffer; outside of it is an invalid access. *)
Definition write_at (pos : nat) (l buf : list Z) : option (list Z) :=
  if (pos + length l <=? length buf)%nat then Some (take pos buf ++ l ++ drop (pos + length l) buf) else None.

(** [snprintf] of a text into [size] bytes at [pos]. *)
Definition snprintf (pos : nat) (size : Z) (text buf : list Z) : option (list Z) :=
  if size =? 0 then Some buf else write_at pos (take (Z.to_nat (Z.min (size - 1) (Z.of_nat (length text)))) text ++ [0]) buf.

Definition TIMER_INFO_LINE_LEN : Z := 46.

(** [*dst], [*dst_size] and the buffer; [text] is the line that the format
    makes of the timer. *)
Definition print_timer_info (text : list Z) (st : nat * Z * list Z) : option (nat * Z * list Z) :=
  let '(dst, dst_size, buf) := st in
  do* buf <- snprintf dst dst_size text buf;
  Some ((dst + length text)%nat, u32 (dst_size - Z.of_nat (length text)), buf).

Fixpoint print_all (texts : list (list Z)) (st : nat * Z * list Z) : option (nat * Z * list Z) :=
  match texts with
  | [] => Some st
  | text :: texts => do* st <- print_timer_info text st; print_all texts st
  end.

(** The contents of [print_buf] when it is printed; [line] is the line of a
    timer, [late] are the lines of timers armed between the count and the
    printing. *)
Definition esp_timer_dump (line : Z -> list Z) (late : list (list Z)) (mem_ok : bool) (s : timer_state) : option (esp_err_t * list Z) :=
  let timer_count := Z.of_nat (length (s_timers false s) + length (s_timers true s)) in
  let buf_size := u32 (TIMER_INFO_LINE_LEN * (timer_count + 3)) in
  if negb mem_ok then Some (ESP_ERR_NO_MEM, [])
  else
    let print_buf := repeat 0 (Z.to_nat (buf_size + 1)) in
    do* (_, _, buf) <- print_all ((line <$> s_timers false s) ++ (line <$> s_timers true s) ++ late) (0%nat, buf_size, print_buf);
    Some (ESP_OK, buf).
