(* ===== verification/TimerTheorems.v ===== *)
(** * Properties of the software timers

    The lists of armed timers stay sorted and complete under every critical
    section, in every interleaving of calls without races the hardware alarm is
    set to the earliest timer, and dispatching calls every due timer, periodic
    ones without drift.  Two runs show the races. *)

From S2P Require Import Prelude Flash EspTimer.
From stdpp Require Import gmap.
#[local] Open Scope Z_scope.

(** ** The invariant *)

(** Alarms in non-decreasing order. *)
Fixpoint ordered (f : Z -> Z) (l : list Z) : Prop :=
  match l with
  | [] => True
  | h :: l => Forall (fun x => f h <= f x) l /\ ordered f l
  end.

(** A list of armed timers, without [x] (the timer an operation works on). *)
Record list_ok (d : bool) (x : option Z) (s : timer_state) : Prop := {
  lk_nodup : NoDup (s_timers d s);
  lk_armed : forall h, List.In h (s_timers d s) -> Some h <> x /\ exists t, ts_heap s !! h = Some t /\ dispatch_method t = d /\ 0 < alarm t;
  lk_all : forall h t, ts_heap s !! h = Some t -> dispatch_method t = d -> 0 < alarm t -> Some h <> x -> List.In h (s_timers d s);
  lk_ordered : ordered (alarm_of s) (s_timers d s)
}.

Definition timer_ok (t : esp_timer) : Prop := 0 <= alarm t < 2 ^ 64 /\ 0 <= period t < 2 ^ 56.

(** [x] is [None] between operations. *)
Record timers_ok (x : option Z) (s : timer_state) : Prop := {
  tk_lists : forall d, list_ok d x s;
  tk_heap : forall h t, ts_heap s !! h = Some t -> timer_ok t /\ h < ts_next s
}.

Lemma ordered_ext f g l : (forall h, List.In h l -> f h = g h) -> ordered f l -> ordered g l.
Proof.
  induction l as [|a l IH]; [done|]. intros E [Ha Hl]. split; [|apply IH; [|done]; intros h Hh; apply E; by right].
  rewrite List.Forall_forall in *. intros y Hy.
  pose proof (Ha y Hy). pose proof (E a (or_introl eq_refl)). pose proof (E y (or_intror Hy)). lia.
Qed.

Lemma ordered_filter f P `{!forall h, Decision (P h)} l : ordered f l -> ordered f (filter P l).
Proof.
  induction l as [|a l IH]; [done|]. intros [Ha Hl]. rewrite filter_cons. destruct (decide (P a)); [|by apply IH].
  split; [|by apply IH]. rewrite List.Forall_forall in *. intros y Hy. apply Ha.
  apply list_elem_of_In, list_elem_of_filter in Hy as [_ Hy]. by apply list_elem_of_In.
Qed.

Lemma insert_in f a x l h : List.In h (insert_before f a x l) <-> h = x \/ List.In h l.
Proof.
  induction l as [|b l IH]; cbn [insert_before]; [simpl; intuition (subst; auto)|].
  destruct (a <? f b); simpl in *; [|rewrite IH]; intuition (subst; auto).
Qed.

Lemma insert_nodup f a x l : NoDup l -> ~ List.In x l -> NoDup (insert_before f a x l).
Proof.
  induction l as [|b l IH]; intros Hn Hx; cbn [insert_before]; [by apply NoDup_singleton|].
  inversion_clear Hn as [|? ? Hb Hn']. destruct (a <? f b).
  - constructor; [by rewrite list_elem_of_In|]. by constructor.
  - constructor; [|apply IH; [done|]; intros Hl; apply Hx; by right].
    rewrite list_elem_of_In, insert_in. intros [->|Hbl]; [apply Hx; by left|]. by apply Hb, list_elem_of_In.
Qed.

Lemma insert_ordered f x l : ordered f l -> ordered f (insert_before f (f x) x l).
Proof.
  induction l as [|b l IH]; intros Ho; cbn [insert_before]; [by split|]. destruct Ho as [Hb Hl].
  destruct (Z.ltb_spec (f x) (f b)).
  - split; [|by split]. constructor; [lia|]. revert Hb. apply List.Forall_impl. intros; lia.
  - split; [|by apply IH]. apply List.Forall_forall. intros y Hy. apply insert_in in Hy as [->|Hy]; [done|].
    rewrite List.Forall_forall in Hb. by apply Hb.
Qed.

(** ** Steps of an operation *)

Lemma timers_set d l s d' : s_timers d' (set_timers d l s) = if eqb d d' then l else s_timers d' s.
Proof. by destruct d, d'. Qed.

Lemma timers_remove h s d : s_timers d (unlink h s) = filter (fun x => x <> h) (s_timers d s).
Proof. by destruct d. Qed.

Lemma in_remove h s d x : List.In x (s_timers d (unlink h s)) <-> x <> h /\ List.In x (s_timers d s).
Proof. by rewrite timers_remove, <- !list_elem_of_In, list_elem_of_filter. Qed.

Lemma listed_spec h s : listed h s = true <-> exists d, List.In h (s_timers d s).
Proof.
  unfold listed. rewrite orb_true_iff, !bool_decide_eq_true, !list_elem_of_In. split.
  - intros [H|H]; [by exists false|by exists true].
  - intros [[] H]; [by right|by left].
Qed.

(** The timer an operation works on is in no list. *)
Lemma not_listed h s : timers_ok (Some h) s -> listed h s = false.
Proof.
  intros [L _]. apply not_true_iff_false. rewrite listed_spec. intros [d Hd]. by destruct (lk_armed _ _ _ (L d) h Hd).
Qed.

Lemma armed_listed h t s : timers_ok None s -> ts_heap s !! h = Some t -> 0 < alarm t -> list_remove h s = Some (unlink h s).
Proof.
  intros [L _] Ht Hp. unfold list_remove. replace (listed h s) with true; [done|]. symmetry. apply listed_spec. exists (dispatch_method t).
  by apply (lk_all _ _ _ (L (dispatch_method t)) h t).
Qed.

(** Taking a timer out. *)
Lemma remove_ok h s : timers_ok None s -> timers_ok (Some h) (unlink h s).
Proof.
  intros [L Hh]. split; [|done]. intros d. destruct (L d) as [Hn Ha Hall Ho]. split.
  - rewrite timers_remove. by apply NoDup_filter.
  - intros x Hx. apply in_remove in Hx as [Hne Hx]. split; [congruence|]. by apply Ha.
  - intros x t Hx Hd Hp Hne. apply in_remove. split; [congruence|]. by apply (Hall x t).
  - rewrite timers_remove. apply ordered_filter. exact Ho.
Qed.

(** Changing the record of the timer that was taken out. *)
Lemma set_ok h t s : timers_ok (Some h) s -> timer_ok t -> h < ts_next s -> timers_ok (Some h) (set_timer h t s).
Proof.
  intros [L Hh] Ht Hnext. split.
  - intros d. destruct (L d) as [Hn Ha Hall Ho].
    assert (Out : forall x, List.In x (s_timers d s) -> x <> h) by (intros x Hx ->; by destruct (Ha h Hx)).
    split; change (s_timers d (set_timer h t s)) with (s_timers d s); [done|..].
    + intros x Hx. split; [by apply Ha|]. cbn [ts_heap set_timer set_heap]. rewrite lookup_insert_ne by (symmetry; by apply Out). by apply Ha.
    + intros x t' Hx Hd Hp Hne. cbn [ts_heap set_timer set_heap] in Hx. rewrite lookup_insert_ne in Hx by congruence. by apply (Hall x t').
    + revert Ho. apply ordered_ext. intros x Hx. unfold alarm_of. cbn [ts_heap set_timer set_heap].
      by rewrite lookup_insert_ne by (symmetry; by apply Out).
  - intros x t'. cbn [ts_heap set_timer set_heap]. destruct (decide (x = h)) as [->|Hne].
    + rewrite lookup_insert_eq. intros [= <-]. done.
    + rewrite lookup_insert_ne by done. apply Hh.
Qed.

(** The timer that was taken out is not armed. *)
Lemma retire_ok h t s : timers_ok (Some h) s -> ts_heap s !! h = Some t -> alarm t = 0 -> timers_ok None s.
Proof.
  intros [L Hh] Ht Ha0. split; [|done]. intros d. destruct (L d) as [Hn Ha Hall Ho]. split; [done|..|done].
  - intros x Hx. split; [done|by apply Ha].
  - intros x t' Hx Hd Hp _. apply (Hall x t' Hx Hd Hp). intros [= ->]. rewrite Ht in Hx. injection Hx as ->. lia.
Qed.

(** A timer that is not armed can be worked on. *)
Lemma unarmed_ok h t s : timers_ok None s -> ts_heap s !! h = Some t -> alarm t = 0 -> timers_ok (Some h) s.
Proof.
  intros [L Hh] Ht Ha0. split; [|done]. intros d. destruct (L d) as [Hn Ha Hall Ho]. split; [done|..|done].
  - intros x Hx. split; [|by apply Ha]. intros [= ->]. destruct (Ha h Hx) as (_ & t' & Ht' & _ & Hp). rewrite Ht in Ht'. injection Ht' as ->. lia.
  - intros x t' Hx Hd Hp _. by apply (Hall x t').
Qed.

Lemma free_ok h s : timers_ok (Some h) s -> timers_ok None (free_timer h s).
Proof.
  intros [L Hh]. split.
  - intros d. destruct (L d) as [Hn Ha Hall Ho].
    assert (Out : forall x, List.In x (s_timers d s) -> x <> h) by (intros x Hx ->; by destruct (Ha h Hx)).
    split; change (s_timers d (free_timer h s)) with (s_timers d s); [done|..].
    + intros x Hx. split; [done|]. cbn [ts_heap free_timer set_heap]. rewrite lookup_delete_ne by (symmetry; by apply Out). by apply Ha.
    + intros x t' Hx Hd Hp _. cbn [ts_heap free_timer set_heap] in Hx. apply lookup_delete_Some in Hx as [Hne Hx]. apply (Hall x t'); congruence.
    + revert Ho. apply ordered_ext. intros x Hx. unfold alarm_of. cbn [ts_heap free_timer set_heap].
      by rewrite lookup_delete_ne by (symmetry; by apply Out).
  - intros x t' Hx. cbn [ts_heap free_timer set_heap] in Hx. apply lookup_delete_Some in Hx as [_ Hx]. by apply Hh.
Qed.

Lemma timer_insert_ok h t b s : timers_ok (Some h) s -> ts_heap s !! h = Some t -> 0 < alarm t ->
  exists s', timer_insert h b s = Some s' /\ timers_ok None s' /\ ts_heap s' = ts_heap s /\
    (forall d, s_timers d s' = if eqb (dispatch_method t) d then insert_before (alarm_of s) (alarm t) h (s_timers d s) else s_timers d s).
Proof.
  intros Okx Ht Hp. unfold timer_insert. rewrite Ht, (not_listed h s Okx). destruct Okx as [L Hh]. set (d0 := dispatch_method t).
  set (s1 := set_timers d0 _ s). eexists. split; [done|].
  assert (El : forall d, s_timers d s1 = if eqb d0 d then insert_before (alarm_of s) (alarm t) h (s_timers d s) else s_timers d s).
  { intros d. unfold s1. rewrite timers_set. destruct (eqb d0 d) eqn:E1; [|done]. by apply eqb_prop in E1 as ->. }
  assert (Ok : timers_ok None s1).
  { split; [|done]. intros d. destruct (L d) as [Hn Ha Hall Ho].
    assert (Out : ~ List.In h (s_timers d s)) by (intros Hx; by destruct (Ha h Hx)).
    assert (Eh : alarm t = alarm_of s h) by (unfold alarm_of; by rewrite Ht).
    split; rewrite ?El; change (ts_heap s1) with (ts_heap s); change (alarm_of s1) with (alarm_of s).
    - destruct (eqb d0 d); [by apply insert_nodup|done].
    - intros x Hx. split; [done|]. destruct (eqb d0 d) eqn:E1; [|by apply Ha]. apply insert_in in Hx as [->|Hx]; [|by apply Ha].
      apply eqb_prop in E1. by exists t.
    - intros x t' Hx Hd Hpx _. destruct (decide (x = h)) as [->|Hne].
      + rewrite Ht in Hx. injection Hx as <-. fold d0 in Hd. rewrite Hd, eqb_reflx. apply insert_in. by left.
      + assert (In x (s_timers d s)) by (apply (Hall x t'); congruence). destruct (eqb d0 d); [apply insert_in; by right|done].
    - destruct (eqb d0 d); [rewrite Eh; by apply insert_ordered|done]. }
  destruct (negb b && _); [|by split_and!]. split; [|by split].
  destruct Ok as [L1 H1]. split; [|done]. intros d. destruct (L1 d). by destruct d; split.
Qed.

(** ** The hardware alarm *)

(** The alarm of list [d] is set to its first timer. *)
Definition alarm_half (d : bool) (s : timer_state) : Prop := stamp d s = next_alarm_of d s.
(** The register holds the earlier of the two alarms. *)
Definition target_ok (s : timer_state) : Prop :=
  Z.min (stamp false s) (stamp true s) <> UINT64_MAX -> ts_target s = Z.min (stamp false s) (stamp true s).

Definition alarm_set (s : timer_state) : Prop := (forall d, alarm_half d s) /\ target_ok s.

(** A change of state after which what was set is set. *)
Definition keeps_alarm (s s' : timer_state) : Prop :=
  (forall d, alarm_half d s -> alarm_half d s') /\ (target_ok s -> target_ok s').

Lemma keeps_alarm_trans s1 s2 s3 : keeps_alarm s1 s2 -> keeps_alarm s2 s3 -> keeps_alarm s1 s3.
Proof. intros [A1 T1] [A2 T2]. split; auto. Qed.

Lemma set_alarm_target ts d s : target_ok (esp_timer_impl_set_alarm_id ts d s).
Proof.
  unfold target_ok. destruct d; cbn [stamp ts_stamp_task ts_stamp_isr ts_target esp_timer_impl_set_alarm_id]; intros Hne;
    by rewrite (proj2 (Z.eqb_neq _ _) Hne).
Qed.

Lemma set_alarm_half d s ts d' : ts = next_alarm_of d s -> (d' <> d -> alarm_half d' s) ->
  alarm_half d' (esp_timer_impl_set_alarm_id ts d s).
Proof. intros -> H. destruct d, d'; try done; by apply H. Qed.

Lemma head_insert f a x l : head (insert_before f a x l) = Some x \/ (head (insert_before f a x l) = head l /\ l <> []).
Proof. destruct l as [|b l]; [by left|]. cbn [insert_before]. destruct (a <? f b); [by left|by right]. Qed.

Lemma next_alarm_same d s s' : head (s_timers d s') = head (s_timers d s) ->
  (forall h, head (s_timers d s) = Some h -> alarm_of s' h = alarm_of s h) -> next_alarm_of d s' = next_alarm_of d s.
Proof.
  intros Eh Ea. unfold next_alarm_of. rewrite Eh. destruct (head (s_timers d s)) as [h|] eqn:E; [by apply Ea|done].
Qed.

Lemma half_same d s s' : stamp d s' = stamp d s -> head (s_timers d s') = head (s_timers d s) ->
  (forall h, head (s_timers d s) = Some h -> alarm_of s' h = alarm_of s h) -> alarm_half d s -> alarm_half d s'.
Proof. intros Es Eh Ea. unfold alarm_half. by rewrite Es, (next_alarm_same d s s' Eh Ea). Qed.

Lemma head_in {A} (l : list A) x : head l = Some x -> List.In x l.
Proof. destruct l; [done|]. intros [= ->]. by left. Qed.

Lemma timer_insert_keeps h s s' : timer_insert h false s = Some s' -> keeps_alarm s s'.
Proof.
  unfold timer_insert. destruct (ts_heap s !! h) as [t|] eqn:Ht; [|done]. cbn [negb andb]. destruct (listed h s); [done|].
  set (d := dispatch_method t).
  set (s1 := set_timers d _ s). intros [= <-].
  assert (Ed : s_timers d s1 = insert_before (alarm_of s) (alarm t) h (s_timers d s)) by (unfold s1; by rewrite timers_set, eqb_reflx).
  assert (Eo : forall d', d' <> d -> alarm_half d' s -> alarm_half d' s1).
  { intros d' Hne. by apply half_same; unfold s1; rewrite ?timers_set; destruct d, d'. }
  case_bool_decide as Hhead.
  - split; [|intros _; apply set_alarm_target]. intros d' Hd. apply set_alarm_half; [|by intros Hne; apply Eo].
    unfold next_alarm_of. rewrite Hhead. unfold alarm_of. cbn. by rewrite Ht.
  - split; [|done]. intros d' Hd. destruct (decide (d' = d)) as [->|Hne]; [|by apply Eo]. revert Hd. apply half_same; [done| |done].
    rewrite Ed in Hhead |- *. by destruct (head_insert (alarm_of s) (alarm t) h (s_timers d s)) as [E1|[E1 _]].
Qed.

Lemma set_timer_keeps h t s : timers_ok (Some h) s -> keeps_alarm s (set_timer h t s).
Proof.
  intros [L _]. split; [|done]. intros d. apply half_same; [done|done|]. intros x Hx%head_in.
  unfold alarm_of. cbn [ts_heap set_timer set_heap]. rewrite lookup_insert_ne; [done|].
  intros ->. by destruct (lk_armed _ _ _ (L d) x Hx).
Qed.

Lemma head_filter_ne (h : Z) l : head l <> Some h -> head (filter (fun x => x <> h) l) = head l.
Proof. destruct l as [|a l]; [done|]. cbn [head]. intros Hne. rewrite filter_cons. rewrite decide_True; [done|congruence]. Qed.

Lemma timer_remove_ok h t s : timers_ok None s -> ts_heap s !! h = Some t -> 0 < alarm t ->
  exists s', timer_remove h s = Some s' /\ timers_ok None s' /\ keeps_alarm s s' /\
    ts_heap s' = <[h := with_alarm 0 0 t]> (ts_heap s) /\ s_timer_task s' = s_timer_task s /\ ts_next s' = ts_next s.
Proof.
  intros Ok Ht Hpos. unfold timer_remove. rewrite Ht, (armed_listed h t s Ok Ht Hpos). set (d := dispatch_method t). set (s1 := set_timer h _ _).
  assert (Ok1 : timers_ok None s1).
  { apply (retire_ok h (with_alarm 0 0 t)); [|by unfold s1; cbn; rewrite lookup_insert_eq|done].
    destruct (tk_heap _ _ Ok h t Ht) as [[Ha Hp] Hn]. apply set_ok; [by apply remove_ok|split; cbn; lia|done]. }
  assert (Half : forall d', head (s_timers d' s) <> Some h -> alarm_half d' s -> alarm_half d' s1).
  { intros d' Hh. assert (El : s_timers d' s1 = filter (fun x => x <> h) (s_timers d' s)) by (by destruct d').
    apply half_same; [done|by rewrite El, head_filter_ne|].
    intros x Hx. unfold alarm_of, s1. cbn. rewrite lookup_insert_ne; [done|congruence]. }
  assert (Other : forall d', d' <> d -> head (s_timers d' s) <> Some h).
  { intros d' Hne Hh. destruct (lk_armed _ _ _ (tk_lists _ _ Ok d') h (head_in _ _ Hh)) as (_ & t' & Ht' & Hd' & _).
    rewrite Ht in Ht'. injection Ht' as <-. by apply Hne. }
  eexists. split; [reflexivity|]. case_bool_decide as Hhead.
  - split; [|split; [|done]].
    + destruct Ok1 as [L1 H1]. split; [|done]. intros d'. destruct (L1 d'). by destruct d'; split.
    + split; [|intros _; apply set_alarm_target]. intros d' Hd. apply set_alarm_half; [done|]. intros Hne. apply Half; [by apply Other|done].
  - split; [done|split; [|done]]. split; [|done]. intros d'. apply Half. destruct (decide (d' = d)) as [->|Hne]; [done|by apply Other].
Qed.

(** Between two calls: the lists are in order, and what was set is set. *)
Definition step_ok (s s' : timer_state) : Prop := timers_ok None s' /\ keeps_alarm s s'.

Lemma step_ok_refl s : timers_ok None s -> step_ok s s.
Proof. by intros Ok. Qed.

(** Writing a timer that is not armed and inserting it. *)
Lemma set_insert_ok h t t' s : timers_ok None s -> ts_heap s !! h = Some t -> alarm t = 0 -> timer_ok t' -> 0 < alarm t' ->
  exists s', timer_insert h false (set_timer h t' s) = Some s' /\ step_ok s s' /\ ts_heap s' = <[h := t']> (ts_heap s).
Proof.
  intros Ok Ht Ha Ht' Hp. pose proof (unarmed_ok h t s Ok Ht Ha) as Ox. destruct (tk_heap _ _ Ok h t Ht) as [_ Hn].
  destruct (timer_insert_ok h t' false (set_timer h t' s)) as (s' & E & Ok' & Eh & _);
    [by apply set_ok|by cbn; rewrite lookup_insert_eq|done|]. exists s'. split_and!; [done| |done]. split; [done|].
  eapply keeps_alarm_trans; [by apply (set_timer_keeps h t')|]. exact (timer_insert_keeps _ _ _ E).
Qed.

Lemma arm_ok h t a p s : timers_ok None s -> ts_heap s !! h = Some t -> alarm t = 0 -> 0 < a < 2 ^ 64 ->
  exists s', arm_locked h a p s = Some (ESP_OK, s') /\ step_ok s s' /\ ts_heap s' = <[h := with_alarm a (u56 p) t]> (ts_heap s).
Proof.
  intros Ok Ht Ha Hr. destruct (set_insert_ok h t (with_alarm a (u56 p) t) s) as (s' & E & Hs & Eh); [done..| |cbn; lia|].
  - split; cbn; [lia|]. apply Z.mod_pos_bound. lia.
  - exists s'. unfold arm_locked. by rewrite Ht, E.
Qed.

(** ** Critical sections *)

Lemma unarmed t : timer_ok t -> timer_armed t = false -> alarm t = 0.
Proof. intros [Ha _]. unfold timer_armed. intros ?%Z.ltb_ge. lia. Qed.

Lemma u64_id z : 0 < z < 2 ^ 64 -> u64 z = z.
Proof. intros H. apply Z.mod_small. lia. Qed.

(** The timer is armed where the section unlinks it and not armed where the
    section links it. *)
Definition section_fits (sec : section) (t : esp_timer) : Prop :=
  match sec with
  | SecArm a _ | SecDelete a => timer_armed t = false /\ 0 < a < 2 ^ 64
  | SecRemove | SecRestart _ => timer_armed t = true
  end.

(** The time is after the start of the system, and the timeout of a restart
    ends before 2^64 microseconds. *)
Definition section_time (sec : section) (now : Z) : Prop :=
  match sec with SecRestart timeout => 0 < now /\ 0 <= timeout /\ now + Z.max timeout 50 < 2 ^ 64 | _ => True end.

Lemma section_ok h sec now t s : timers_ok None s -> ts_heap s !! h = Some t -> section_fits sec t -> section_time sec now ->
  exists s' t', run_section h sec now s = Some (ESP_OK, s') /\ step_ok s s' /\ ts_heap s' = <[h := t']> (ts_heap s).
Proof.
  intros Ok Ht Hf Hn. destruct (tk_heap _ _ Ok h t Ht) as [Hk _]. destruct sec as [a p| |timeout|a]; cbn [run_section section_fits section_time] in *.
  - destruct Hf as [Hf Ha]. destruct (arm_ok h t a p s Ok Ht (unarmed t Hk Hf) Ha) as (s' & E & Hs & Eh). eauto.
  - apply Z.ltb_lt in Hf. destruct (timer_remove_ok h t s Ok Ht Hf) as (s' & E & Ok' & K & Eh & _). rewrite E. exists s'. eexists. by split_and!.
  - apply Z.ltb_lt in Hf. destruct (timer_remove_ok h t s Ok Ht Hf) as (s2 & E2 & Ok2 & K2 & Eh2 & _). unfold restart_locked. rewrite Ht, E2.
    assert (H2 : ts_heap s2 !! h = Some (with_alarm 0 0 t)) by (rewrite Eh2; apply lookup_insert_eq).
    unfold esp_timer_impl_get_min_period_us. destruct (negb (period t =? 0)); rewrite u64_id by lia;
      edestruct (arm_ok h (with_alarm 0 0 t)) as (s3 & E3 & [Ok3 K3] & Eh3); try (exact Ok2 || exact H2 || reflexivity || (rewrite E3; eexists _, _;
        split; [reflexivity|]; split; [split; [done|by eapply keeps_alarm_trans]|rewrite Eh3, Eh2; apply insert_insert_eq])); lia.
  - destruct Hf as [Hf Ha]. unfold delete_locked. rewrite Ht.
    edestruct (set_insert_ok h t) as (s2 & E2 & Hs2 & Eh); [exact Ok|exact Ht|by apply unarmed| | |rewrite E2; eauto].
    + split; cbn; lia.
    + cbn. lia.
Qed.

Lemma create_ok args o m e out s s' : timers_ok None s -> esp_timer_create args o m s = (e, out, s') -> step_ok s s'.
Proof.
  intros Ok. pose proof (step_ok_refl s Ok) as R. unfold esp_timer_create.
  destruct (negb (is_initialized s)); [by intros [= <- <- <-]|]. destruct args as [args|]; [|by intros [= <- <- <-]].
  destruct (_ || _); [by intros [= <- <- <-]|].
  destruct (negb m); [by intros [= <- <- <-]|]. intros [= <- <- <-]. clear R.
  set (h := ts_next s). assert (Fresh : ts_heap s !! h = None).
  { destruct (ts_heap s !! h) as [t|] eqn:Ht; [|done]. destruct (tk_heap _ _ Ok h t Ht). unfold h in *. lia. }
  assert (Same : forall d x, List.In x (s_timers d s) -> x <> h).
  { intros d x Hx ->. destruct (lk_armed _ _ _ (tk_lists _ _ Ok d) h Hx) as (_ & t & Ht & _). congruence. }
  split.
  - split; cbn [ts_heap ts_next].
    + intros d. destruct (tk_lists _ _ Ok d) as [Hn Ha Hall Ho].
      set (s2 := mkTs _ _ _ _ _ _ _ _). assert (El : s_timers d s2 = s_timers d s) by (by destruct d).
      split; rewrite El; [done|..]; cbn [ts_heap s2].
      * intros x Hx. split; [done|]. rewrite lookup_insert_ne by (symmetry; by apply (Same d)). by apply Ha.
      * intros x t Hx Hd Hp _. apply lookup_insert_Some in Hx as [[<- <-]|[Hne Hx]]; [cbn in Hp; lia|]. by apply (Hall x t).
      * revert Ho. apply ordered_ext. intros x Hx. unfold alarm_of. cbn. by rewrite lookup_insert_ne by (symmetry; by apply (Same d)).
    + intros x t Hx. apply lookup_insert_Some in Hx as [[<- <-]|[Hne Hx]]; [split; [split; cbn; lia|lia]|].
      destruct (tk_heap _ _ Ok x t Hx). split; [done|lia].
  - split; [|done]. intros d. apply half_same; [by destruct d|by destruct d|]. intros x Hx%head_in.
    unfold alarm_of. cbn. by rewrite lookup_insert_ne by (symmetry; by apply (Same d)).
Qed.

(** ** Dispatching *)

Definition keeps_other (d : bool) (s s' : timer_state) : Prop :=
  (forall d', d' <> d -> alarm_half d' s -> alarm_half d' s') /\ (target_ok s -> target_ok s').

Lemma keeps_other_trans d s1 s2 s3 : keeps_other d s1 s2 -> keeps_other d s2 s3 -> keeps_other d s1 s3.
Proof. intros [A1 T1] [A2 T2]. split; auto. Qed.

Lemma keeps_is_other d s s' : keeps_alarm s s' -> keeps_other d s s'.
Proof. intros [A T]. split; auto. Qed.

(** Taking the first timer out and changing its block leaves the other list alone. *)
Lemma take_keeps d h t s s' : timers_ok None s -> head (s_timers d s) = Some h -> ts_heap s !! h = Some t ->
  (forall x, x <> h -> ts_heap s' !! x = ts_heap s !! x) -> (forall d', stamp d' s' = stamp d' s) -> ts_target s' = ts_target s ->
  s_timers (negb d) s' = s_timers (negb d) (unlink h s) -> keeps_other d s s'.
Proof.
  intros Ok Hh Ht Eh Es Et El. split; [|unfold target_ok; by rewrite !Es, Et]. intros d' Hne.
  replace d' with (negb d) by (by destruct d, d').
  assert (Out : ~ List.In h (s_timers (negb d) s)).
  { intros Hx. destruct (lk_armed _ _ _ (tk_lists _ _ Ok d) h (head_in _ _ Hh)) as (_ & t1 & H1 & D1 & _).
    destruct (lk_armed _ _ _ (tk_lists _ _ Ok (negb d)) h Hx) as (_ & t2 & H2 & D2 & _).
    rewrite H1 in H2. injection H2 as <-. rewrite D1 in D2. by destruct d. }
  apply half_same; [done| |].
  - rewrite El, timers_remove. apply head_filter_ne. intros Hx. by apply Out, head_in.
  - intros x Hx%head_in. unfold alarm_of. rewrite Eh; [done|]. by intros ->.
Qed.

(** The state in which the callback of a due timer is called. *)
Definition dispatched (it : Z) (t : esp_timer) (now : Z) (s : timer_state) : option timer_state :=
  let s := unlink it s in
  if 0 <? period t then timer_insert it true (set_timer it (with_alarm (next_period t now) (period t) t) s)
  else Some (set_timer it (with_alarm 0 (period t) t) s).

Lemma next_period_range t now : timer_ok t -> 0 < alarm t <= now -> now < 2 ^ 63 -> 0 < period t ->
  next_period t now = (if flag_test (flags t) FL_SKIP_UNHANDLED_EVENTS && (1 <? i32 ((now - alarm t) / period t))
                       then now + period t else alarm t + period t) /\ 0 < next_period t now < 2 ^ 64.
Proof.
  intros [Ha Hp] Hd Hn Hp0. unfold next_period. assert (2 ^ 64 = 2 * 2 ^ 63 /\ 2 ^ 63 = 128 * 2 ^ 56) as [E1 E2] by done.
  assert (E : u64 (now - alarm t) = now - alarm t) by (apply Z.mod_small; lia). rewrite E.
  destruct (_ && _); rewrite u64_id by lia; split; lia.
Qed.

Lemma dispatched_ok d it t now s : timers_ok None s -> head (s_timers d s) = Some it -> ts_heap s !! it = Some t ->
  alarm t <= now < 2 ^ 63 ->
  dispatch_method t = d /\ 0 < alarm t /\
  exists s', dispatched it t now s = Some s' /\ timers_ok None s' /\ keeps_other d s s' /\
    ts_heap s' = <[it := with_alarm (if 0 <? period t then next_period t now else 0) (period t) t]> (ts_heap s).
Proof.
  intros Ok Hh Ht Hn. destruct (tk_heap _ _ Ok it t Ht) as [Hk Hnext].
  destruct (lk_armed _ _ _ (tk_lists _ _ Ok d) it (head_in _ _ Hh)) as (_ & t1 & H1 & D1 & Hpos). rewrite Ht in H1. injection H1 as <-.
  split_and!; [done..|]. pose proof (remove_ok it s Ok) as Ox. unfold dispatched. destruct (Z.ltb_spec 0 (period t)).
  - destruct (next_period_range t now Hk) as [_ Hr]; [lia..|].
    destruct (timer_insert_ok it (with_alarm (next_period t now) (period t) t) true
      (set_timer it (with_alarm (next_period t now) (period t) t) (unlink it s))) as (s' & E & Ok' & Eh & El).
    + apply set_ok; [done|split; cbn; [lia|by apply Hk]|done].
    + cbn. apply lookup_insert_eq.
    + cbn. lia.
    + exists s'. split_and!; [done|done| |done]. unfold timer_insert in E. cbn in E. rewrite lookup_insert_eq in E.
      destruct (listed _ _) in E; [done|]. cbn in E. injection E as <-.
      apply (take_keeps d it t); try done.
      * intros x Hx. cbn. by rewrite lookup_insert_ne.
      * rewrite El. change (dispatch_method _) with (dispatch_method t). rewrite D1. by destruct d.
  - eexists. split_and!; [done| | |done].
    + apply (retire_ok it (with_alarm 0 (period t) t)); [|cbn; apply lookup_insert_eq|done].
      apply set_ok; [done|split; cbn; [lia|by apply Hk]|done].
    + apply (take_keeps d it t); try done. intros x Hx. cbn. by rewrite lookup_insert_ne.
Qed.

Lemma delete_due_ok d it t s : timers_ok None s -> head (s_timers d s) = Some it -> ts_heap s !! it = Some t ->
  timers_ok None (free_timer it (unlink it s)) /\ keeps_other d s (free_timer it (unlink it s)).
Proof.
  intros Ok Hh Ht. split; [by apply free_ok, remove_ok|]. apply (take_keeps d it t); try done.
  intros x Hx. cbn. by rewrite lookup_delete_ne.
Qed.

(** What a round does to the timer it dispatches. *)
Definition round_spec (d : bool) (now : Z) (s : timer_state) (r : round) : Prop :=
  match r with
  | NothingDue => forall h, head (s_timers d s) = Some h -> now < alarm_of s h
  | Freed s' => exists it t, head (s_timers d s) = Some it /\ ts_heap s !! it = Some t /\ 0 < alarm t <= now /\ dispatch_method t = d /\
      callback t = EVENT_ID_DELETE_TIMER /\ s' = free_timer it (unlink it s) /\ timers_ok None s' /\ keeps_other d s s'
  | Dispatched it cb a s' => exists t, head (s_timers d s) = Some it /\ ts_heap s !! it = Some t /\ 0 < alarm t <= now /\
      dispatch_method t = d /\ callback t <> EVENT_ID_DELETE_TIMER /\ cb = callback t /\ a = arg t /\
      dispatched it t now s = Some s' /\ timers_ok None s' /\ keeps_other d s s' /\
      ts_heap s' = <[it := with_alarm (if 0 <? period t then next_period t now else 0) (period t) t]> (ts_heap s)
  end.

Lemma process_round_ok d now s : timers_ok None s -> 0 <= now < 2 ^ 63 ->
  exists r, process_round d now s = Some r /\ round_spec d now s r.
Proof.
  intros Ok Hn. unfold process_round, round_spec. destruct (head (s_timers d s)) as [it|] eqn:Hh; [|by eexists].
  destruct (lk_armed _ _ _ (tk_lists _ _ Ok d) it (head_in _ _ Hh)) as (_ & t & Ht & Hd & Hp). rewrite Ht.
  destruct (Z.ltb_spec now (alarm t)) as [Hlt|Hge].
  { eexists. split; [done|]. cbn. intros h [= <-]. unfold alarm_of. by rewrite Ht. }
  rewrite (armed_listed it t s Ok Ht Hp). destruct (Z.eqb_spec (callback t) EVENT_ID_DELETE_TIMER) as [Ec|Ec].
  - eexists. split; [done|]. cbn. destruct (delete_due_ok d it t s Ok Hh Ht). exists it, t. by split_and!.
  - destruct (dispatched_ok d it t now s Ok Hh Ht) as (_ & _ & s1 & E & Ok1 & K1 & Eh); [lia|].
    assert (E' := E). unfold dispatched in E'. cbn zeta in E'. rewrite E'. eexists. split; [done|]. cbn. exists t. by split_and!.
Qed.

Lemma process_end_alarm d p s : process_end d p s = esp_timer_impl_set_alarm_id (next_alarm_of d s) d s \/ (process_end d p s = s /\ p = false).
Proof. unfold process_end, next_alarm_of. destruct (head _); [destruct d, p|destruct p]; auto. Qed.

Section Dispatch.
Context (clock : nat -> Z) (exec : Z -> Z -> timer_state -> timer_state).
Hypothesis clock_range : forall k, 0 <= clock k < 2 ^ 63.
Hypothesis exec_ok : forall cb a s, timers_ok None s -> step_ok s (exec cb a s).

Lemma process_loop_ok fuel : forall d k p s p' called s', timers_ok None s -> process_loop clock exec fuel d k p s = Some (p', called, s') ->
  timers_ok None s' /\ keeps_other d s s' /\ (p' = false -> p = false /\ s' = s) /\
  (forall h, head (s_timers d s') = Some h -> exists k', clock k' < alarm_of s' h).
Proof.
  induction fuel as [|fuel IH]; intros d k p s p' called s' Ok; [done|]. cbn [process_loop].
  destruct (process_round_ok d (clock k) s Ok (clock_range k)) as (r & -> & Hr). destruct r as [|s1|it cb a s1].
  - intros [= <- <- <-]. split_and!; [done..|]. intros h Hh. exists k. by apply Hr.
  - destruct Hr as (it & t & _ & _ & _ & _ & _ & _ & Ok1 & K1). intros E. destruct (IH _ _ _ _ _ _ _ Ok1 E) as (Ok2 & K2 & Hf & Hd).
    split_and!; [done|by eapply keeps_other_trans| |done]. intros Hp. by destruct (Hf Hp).
  - destruct Hr as (t & _ & _ & _ & _ & _ & _ & _ & _ & Ok1 & K1 & _).
    destruct (process_loop clock exec fuel d (S k) true _) as [[[p1 c1] s2]|] eqn:E; [|done]. intros [= <- <- <-].
    destruct (exec_ok cb a s1 Ok1) as [Ok3 K3]. destruct (IH _ _ _ _ _ _ _ Ok3 E) as (Ok2 & K2 & Hf & Hd). split_and!; [done| | |done].
    + eapply keeps_other_trans; [done|]. eapply keeps_other_trans; [by apply keeps_is_other|done].
    + intros Hp. by destruct (Hf Hp).
Qed.

Lemma set_alarm_ok ts d s : timers_ok None s -> timers_ok None (esp_timer_impl_set_alarm_id ts d s).
Proof. intros [L H]. split; [|done]. intros d'. destruct (L d'). by destruct d'; split. Qed.

Lemma process_end_ok d p s : timers_ok None s -> timers_ok None (process_end d p s) /\ keeps_other d s (process_end d p s).
Proof.
  intros Ok. destruct (process_end_alarm d p s) as [->|[-> _]]; [|by split]. split; [by apply set_alarm_ok|].
  split; [|intros _; apply set_alarm_target]. intros d' Hne Ha. by apply set_alarm_half.
Qed.

Lemma process_end_half d p s : (p = false -> alarm_half d s) -> alarm_half d (process_end d p s).
Proof. intros H. destruct (process_end_alarm d p s) as [->|[-> ->]]; [by apply set_alarm_half|by apply H]. Qed.

Lemma process_alarm_ok fuel d s p called s' : timers_ok None s -> timer_process_alarm clock exec fuel d s = Some (p, called, s') ->
  step_ok s s' /\ (forall h, head (s_timers d s') = Some h -> exists k, clock k < alarm_of s' h).
Proof.
  intros Ok. unfold timer_process_alarm. destruct (process_loop clock exec fuel d 0 false s) as [[[p1 c1] s1]|] eqn:E; [|done].
  intros [= <- <- <-]. destruct (process_loop_ok _ _ _ _ _ _ _ _ Ok E) as (Ok1 & K1 & Hf & Hd).
  destruct (process_end_ok d p1 s1 Ok1) as [Ok2 K2]. split.
  - split; [done|]. destruct (keeps_other_trans d s s1 _ K1 K2) as [A T]. split; [|done]. intros d' Ha.
    destruct (decide (d' = d)) as [->|Hne]; [|by apply A]. apply process_end_half. intros Hp. by destruct (Hf Hp) as [_ ->].
  - assert (Same : s_timers d (process_end d p1 s1) = s_timers d s1 /\ alarm_of (process_end d p1 s1) = alarm_of s1)
      by (destruct (process_end_alarm d p1 s1) as [->|[-> _]]; by destruct d). destruct Same as [-> ->]. exact Hd.
Qed.
End Dispatch.

(** ** The system *)

(** The timers, the calls that have passed their check and not yet run their
    critical section, at most one for a timer, and for each list whether it
    is being dispatched, with the loop's [processed]. *)
Record sys := mkSys { sy_timers : timer_state; sy_pending : gmap Z section; sy_task : option bool; sy_isr : option bool }.

Definition sy_proc (d : bool) (y : sys) : option bool := if d then sy_isr y else sy_task y.
Definition set_proc (d : bool) (p : option bool) (s : timer_state) (y : sys) : sys :=
  mkSys s (sy_pending y) (if d then sy_task y else p) (if d then p else sy_isr y).

(** The checks of the calls, at a time after the start of the system and
    with a timeout that ends before 2^64 microseconds. *)
Inductive check (s : timer_state) : option outcome -> Prop :=
| check_start_once h timeout now : 0 < now -> 0 <= timeout -> now + timeout < 2 ^ 64 -> check s (esp_timer_start_once h timeout now s)
| check_start_periodic h p now : 0 < now -> now + Z.max p 50 < 2 ^ 64 -> check s (esp_timer_start_periodic h p now s)
| check_stop h : check s (esp_timer_stop h s)
| check_restart h timeout : check s (esp_timer_restart h timeout s)
| check_delete h now : 0 < now < 2 ^ 64 -> check s (esp_timer_delete h now s).

(** A call is between its check and its section and the round disarms or
    frees its timer. *)
Definition races (y : sys) (it : Z) : Prop :=
  exists t, ts_heap (sy_timers y) !! it = Some t /\ is_Some (sy_pending y !! it) /\ (period t = 0 \/ callback t = EVENT_ID_DELETE_TIMER).

(** Tasks and interrupts make calls, and the timer task and the timer
    interrupt dispatch the lists; critical sections and rounds are
    interleaved in any order.  A callback runs after its round, and what it
    calls are calls like those of a task.  Two calls on one timer are not
    made at the same time, and no round races with a call. *)
Inductive sys_step (y : sys) : sys -> Prop :=
| sys_create args o m e out s' : esp_timer_create args o m (sy_timers y) = (e, out, s') ->
    sys_step y (mkSys s' (sy_pending y) (sy_task y) (sy_isr y))
| sys_check h sec : check (sy_timers y) (Some (Enters h sec)) -> sy_pending y !! h = None ->
    sys_step y (mkSys (sy_timers y) (<[h := sec]> (sy_pending y)) (sy_task y) (sy_isr y))
| sys_section h sec now e s' : sy_pending y !! h = Some sec -> section_time sec now ->
    run_section h sec now (sy_timers y) = Some (e, s') ->
    sys_step y (mkSys s' (delete h (sy_pending y)) (sy_task y) (sy_isr y))
| sys_begin d : sy_proc d y = None -> sys_step y (set_proc d (Some false) (sy_timers y) y)
| sys_round d p now r s' : sy_proc d y = Some p -> 0 <= now < 2 ^ 63 -> process_round d now (sy_timers y) = Some r ->
    (r = Freed s' \/ exists it cb a, r = Dispatched it cb a s') ->
    (forall it, head (s_timers d (sy_timers y)) = Some it -> ~ races y it) ->
    sys_step y (set_proc d (Some true) s' y)
| sys_end d p now : sy_proc d y = Some p -> 0 <= now < 2 ^ 63 -> process_round d now (sy_timers y) = Some NothingDue ->
    sys_step y (set_proc d None (process_end d p (sy_timers y)) y).

Definition initial (target : Z) : sys := mkSys (mkTs ∅ 1 [] [] UINT64_MAX UINT64_MAX target true) ∅ None None.
Definition reachable (y : sys) : Prop := exists target, rtc sys_step (initial target) y.

(** The lists are in order, the alarm of a list is set unless the list is
    being dispatched, and every pending section fits its timer. *)
Record sys_ok (y : sys) : Prop := {
  so_timers : timers_ok None (sy_timers y);
  so_half : forall d, sy_proc d y <> Some true -> alarm_half d (sy_timers y);
  so_target : target_ok (sy_timers y);
  so_pending : forall h sec, sy_pending y !! h = Some sec -> exists t, ts_heap (sy_timers y) !! h = Some t /\ section_fits sec t
}.

Lemma check_fits s h sec : timers_ok None s -> check s (Some (Enters h sec)) -> exists t, ts_heap s !! h = Some t /\ section_fits sec t.
Proof.
  intros Ok H. inversion H as [h' timeout now Hn Ht Hs E|h' p now Hn Hs E|h' E|h' timeout E|h' now Hn E]; clear H; destruct h' as [h'|]; try done;
    [unfold esp_timer_start_once in E|unfold esp_timer_start_periodic, esp_timer_impl_get_min_period_us in E|unfold esp_timer_stop in E|
     unfold esp_timer_restart in E|unfold esp_timer_delete in E];
    (destruct (ts_heap s !! h') as [t|] eqn:Eh; [|done]); case_match eqn:G; try done;
    try (apply orb_false_iff in G as [_ G]); try (apply negb_false_iff in G); injection E as -> <-; exists t; (split; [done|]); cbn [section_fits];
    try done; (split; [done|]); rewrite u64_id by lia; lia.
Qed.

Lemma sys_call_ok y s' pend : sys_ok y -> step_ok (sy_timers y) s' ->
  (forall h sec, pend !! h = Some sec -> exists t, ts_heap s' !! h = Some t /\ section_fits sec t) ->
  sys_ok (mkSys s' pend (sy_task y) (sy_isr y)).
Proof.
  intros [Ok Hh Ht Hp] [Ok' [A T]] Hp'. split; cbn [sy_timers sy_pending]; [done| |by apply T|done].
  intros d Hd. apply A, Hh. by destruct d.
Qed.

Lemma sys_proc_ok y d p s' : sys_ok y -> timers_ok None s' -> keeps_other d (sy_timers y) s' -> (p <> Some true -> alarm_half d s') ->
  (forall h sec, sy_pending y !! h = Some sec -> exists t, ts_heap s' !! h = Some t /\ section_fits sec t) ->
  sys_ok (set_proc d p s' y).
Proof.
  intros [Ok Hh Ht Hp] Ok' [A T] Hd Hp'. split; cbn [sy_timers sy_pending set_proc]; [done| |by apply T|done].
  intros d' Hd'. destruct (decide (d' = d)) as [->|Hne].
  - apply Hd. by destruct d.
  - apply A; [done|]. apply Hh. by destruct d, d'.
Qed.

(** A round that does not race leaves the pending sections fitting. *)
Lemma round_pending d now y r s' : sys_ok y -> round_spec d now (sy_timers y) r -> 0 <= now < 2 ^ 63 ->
  (r = Freed s' \/ exists it cb a, r = Dispatched it cb a s') -> (forall it, head (s_timers d (sy_timers y)) = Some it -> ~ races y it) ->
  forall h sec, sy_pending y !! h = Some sec -> exists t, ts_heap s' !! h = Some t /\ section_fits sec t.
Proof.
  intros [Ok _ _ Hp] Hr Hn Er Hrace h sec Hs. destruct (Hp h sec Hs) as (t & Ht & Hf).
  destruct Er as [->|(it & cb & a & ->)].
  - destruct Hr as (it & t' & Hh & Ht' & _ & _ & Ec & -> & _ & _). exists t. split; [|done]. cbn. rewrite lookup_delete_ne; [done|].
    intros ->. apply (Hrace h Hh). exists t'. split_and!; [done|by eexists|by right].
  - destruct Hr as (t' & Hh & Ht' & Hdue & _ & _ & _ & _ & _ & _ & _ & Eh). rewrite Eh. destruct (decide (h = it)) as [->|Hne].
    + rewrite lookup_insert_eq. rewrite Ht in Ht'. injection Ht' as <-. eexists. split; [done|].
      destruct (tk_heap _ _ Ok it t Ht) as [Hk _]. assert (Hper : 0 < period t).
      { destruct (Z.eq_dec (period t) 0); [|destruct Hk; lia]. destruct (Hrace it Hh). exists t. split_and!; [done|by eexists|by left]. }
      destruct (next_period_range t now Hk) as [_ Hr]; [lia..|]. rewrite (proj2 (Z.ltb_lt _ _) Hper).
      assert (Ha : timer_armed t = true) by (apply Z.ltb_lt; lia).
      destruct sec; cbn [section_fits] in *; try (rewrite Ha in Hf; by destruct Hf); apply Z.ltb_lt; cbn; lia.
    + rewrite lookup_insert_ne by done. by exists t.
Qed.

Lemma create_heap args o m e out s s' h t : timers_ok None s -> esp_timer_create args o m s = (e, out, s') -> ts_heap s !! h = Some t -> ts_heap s' !! h = Some t.
Proof.
  intros Ok E Ht. unfold esp_timer_create in E. repeat (case_match; [by injection E as _ _ <-|]). destruct args; [|by injection E as _ _ <-].
  repeat (case_match; [by injection E as _ _ <-|]). injection E as _ _ <-. cbn. rewrite lookup_insert_ne; [done|].
  destruct (tk_heap _ _ Ok h t Ht). lia.
Qed.

Lemma sys_step_ok y y' : sys_ok y -> sys_step y y' -> sys_ok y'.
Proof.
  intros Ok. pose proof Ok as [Okt Hh Htg Hp].
  destruct 1 as [args o m e out s' E|h sec Hc Hn|h sec now e s' Hs Hn E|d Hd|d p now r s' Hd Hn E Er Hrace|d p now Hd Hn E].
  - apply sys_call_ok; [done|by eapply create_ok|]. intros h sec Hs. destruct (Hp h sec Hs) as (t & Ht & Hf). exists t. split; [|done].
    by eapply create_heap.
  - apply sys_call_ok; [done|by apply step_ok_refl|]. intros h' sec'. intros [[<- <-]|[_ H]]%lookup_insert_Some; [by apply check_fits|by apply Hp].
  - destruct (Hp h sec Hs) as (t & Ht & Hf). destruct (section_ok h sec now t _ Okt Ht Hf Hn) as (s2 & t' & E2 & Hs2 & Eh).
    rewrite E in E2. injection E2 as -> <-. apply sys_call_ok; [done|done|]. intros h' sec' [Hne H]%lookup_delete_Some.
    destruct (Hp h' sec' H) as (t2 & Ht2 & Hf2). exists t2. by rewrite Eh, lookup_insert_ne.
  - apply sys_proc_ok; [done|done|by split|intros _; apply Hh; by rewrite Hd|done].
  - destruct (process_round_ok d now _ Okt Hn) as (r' & E' & Hr). rewrite E in E'. injection E' as <-.
    assert (H := round_pending d now y r s' Ok Hr Hn Er Hrace). destruct Er as [->|(it & cb & a & ->)].
    + destruct Hr as (it & t & _ & _ & _ & _ & _ & _ & Ok1 & K1). by apply sys_proc_ok.
    + destruct Hr as (t & _ & _ & _ & _ & _ & _ & _ & _ & Ok1 & K1 & _). by apply sys_proc_ok.
  - destruct (process_end_ok d p _ Okt) as [Ok1 K1]. apply sys_proc_ok; [done|done|done| |].
    + intros _. apply process_end_half. intros ->. apply Hh. by rewrite Hd.
    + intros h sec Hs. destruct (Hp h sec Hs) as (t & Ht & Hf). exists t. split; [|done].
      by destruct (process_end_alarm d p (sy_timers y)) as [->|[-> _]].
Qed.

Lemma reachable_ok y : reachable y -> sys_ok y.
Proof.
  intros (target & H). assert (Ok : sys_ok (initial target)).
  { split; cbn [sy_timers sy_pending initial].
    - split; [|intros h t; cbn; by rewrite lookup_empty]. intros d.
      destruct d; split; try done; try constructor; cbn; intros h t; by rewrite lookup_empty.
    - by intros [].
    - intros H'. by destruct H'.
    - intros h sec. by rewrite lookup_empty. }
  revert Ok. induction H as [|y1 y2 y3 H12 _ IH]; [done|]. intros Ok. apply IH. by eapply sys_step_ok.
Qed.

(** No list is being dispatched. *)
Definition idle (y : sys) : Prop := sy_task y = None /\ sy_isr y = None.

Lemma idle_ok y : reachable y -> idle y -> timers_ok None (sy_timers y) /\ alarm_set (sy_timers y).
Proof.
  intros R [Et Ei]. destruct (reachable_ok y R) as [Ok Hh Ht _]. split; [done|]. split; [|done]. intros d. apply Hh. destruct d; cbn; by rewrite ?Et, ?Ei.
Qed.

Lemma ordered_head f x l y : ordered f (x :: l) -> List.In y (x :: l) -> f x <= f y.
Proof. intros [Hx _] [->|Hy]; [done|]. rewrite List.Forall_forall in Hx. by apply Hx. Qed.

(** Every armed timer is behind the first of its list. *)
Lemma next_alarm_min s h t : timers_ok None s -> ts_heap s !! h = Some t -> 0 < alarm t -> next_alarm_of (dispatch_method t) s <= alarm t.
Proof.
  intros Ok Ht Hp. destruct (tk_lists _ _ Ok (dispatch_method t)) as [_ _ Hall Ho].
  pose proof (Hall h t Ht eq_refl Hp ltac:(done)) as Hin. unfold next_alarm_of. destruct (s_timers _ s) as [|x l]; [done|].
  pose proof (ordered_head _ _ _ _ Ho Hin) as H. unfold alarm_of at 2 in H. by rewrite Ht in H.
Qed.

(** An alarm that is set is the alarm of an armed timer. *)
Lemma next_alarm_real d s : timers_ok None s -> next_alarm_of d s <> UINT64_MAX ->
  exists h t, ts_heap s !! h = Some t /\ 0 < alarm t /\ next_alarm_of d s = alarm t.
Proof.
  intros Ok. unfold next_alarm_of. destruct (head (s_timers d s)) as [h|] eqn:Hh; [|done]. intros _.
  destruct (lk_armed _ _ _ (tk_lists _ _ Ok d) h (head_in _ _ Hh)) as (_ & t & Ht & _ & Hp). exists h, t. unfold alarm_of. by rewrite Ht.
Qed.


(** A periodic task timer and a one-shot interrupt timer, started by two
    tasks at the same time: the second runs its critical section first. *)
Definition ex_created : timer_state :=
  snd (esp_timer_create (Some (mkArgs 8 0 1 true)) true true
    (snd (esp_timer_create (Some (mkArgs 7 0 0 false)) true true (sy_timers (initial 0))))).
Definition ex_section (h : Z) (sec : section) (s : timer_state) : timer_state :=
  match run_section h sec 0 s with Some (_, s) => s | None => s end.
Definition ex_first : timer_state := ex_section 2 (SecArm 50 0) ex_created.
Definition ex_both : timer_state := ex_section 1 (SecArm 110 100) ex_first.
Definition ex_sys : sys := mkSys ex_both ∅ None None.

Lemma section_step y y' h sec now e : sy_pending y !! h = Some sec -> section_time sec now ->
  run_section h sec now (sy_timers y) = Some (e, sy_timers y') -> delete h (sy_pending y) = sy_pending y' ->
  sy_task y = sy_task y' /\ sy_isr y = sy_isr y' -> sys_step y y'.
Proof. destruct y'. cbn. intros Hs Hn E <- [<- <-]. by eapply sys_section. Qed.

Lemma ex_reachable : reachable ex_sys.
Proof.
  exists 0. eapply rtc_l; [apply (sys_create _ (Some (mkArgs 7 0 0 false)) true true ESP_OK (Some 1)); vm_compute; reflexivity|].
  eapply rtc_l; [apply (sys_create _ (Some (mkArgs 8 0 1 true)) true true ESP_OK (Some 2) ex_created); vm_compute; reflexivity|].
  cbn [sy_pending sy_task sy_isr initial].
  apply (rtc_l _ _ (mkSys ex_created {[1 := SecArm 110 100]} None None)).
  { apply (sys_check (mkSys ex_created ∅ None None)); [|done]. replace (Some (Enters 1 (SecArm 110 100))) with (esp_timer_start_periodic (Some 1) 100 10 ex_created)
      by (vm_compute; reflexivity). apply check_start_periodic; lia. }
  apply (rtc_l _ _ (mkSys ex_created (<[2 := SecArm 50 0]> {[1 := SecArm 110 100]}) None None)).
  { apply (sys_check (mkSys ex_created _ None None)); [|done]. replace (Some (Enters 2 (SecArm 50 0))) with (esp_timer_start_once (Some 2) 30 20 ex_created)
      by (vm_compute; reflexivity). apply check_start_once; lia. }
  apply (rtc_l _ _ (mkSys ex_first {[1 := SecArm 110 100]} None None)).
  { eapply (section_step _ _ 2 (SecArm 50 0) 0 ESP_OK); vm_compute; done. }
  apply rtc_once. eapply (section_step _ _ 1 (SecArm 110 100) 0 ESP_OK); vm_compute; done.
Qed.


(** The check of [esp_timer_stop] finds a one-shot timer armed; before the
    call takes the lock the timer expires, and the call unlinks it again. *)
Definition ex_oneshot : timer_state := mkTs {[1 := mkTimer 50 0 0 7 0]} 2 [1] [] 50 UINT64_MAX 50 true.

Fact stop_races_with_dispatch : exists called s', esp_timer_stop (Some 1) ex_oneshot = Some (Enters 1 SecRemove) /\
  timer_process_alarm (fun _ => 60) (fun _ _ s => s) 2 false ex_oneshot = Some (true, called, s') /\
  complete (fun _ => s') 60 (esp_timer_stop (Some 1) ex_oneshot) ex_oneshot = None.
Proof. eexists _, _. split; [vm_compute; reflexivity|]. split; vm_compute; reflexivity. Qed.

(** Two tasks that start one timer at the same time link it twice. *)
Fact concurrent_starts_link_twice : let start := esp_timer_start_once (Some 1) 30 20 ex_created in
  start = Some (Enters 1 (SecArm 50 0)) /\ complete (ex_section 1 (SecArm 50 0)) 25 start ex_created = None.
Proof. split; vm_compute; reflexivity. Qed.

(** ** Which callbacks are called *)

(** The timer is due. *)
Definition due (t : esp_timer) (now : Z) : bool := (0 <? alarm t) && (alarm t <=? now).
(** The timer is to be freed. *)
Definition deleted (t : esp_timer) : bool := callback t =? EVENT_ID_DELETE_TIMER.

(** Rounds of the loop for one timer: one for each period that has passed,
    or one for all of them. *)
Definition rounds (t : esp_timer) (now : Z) : Z :=
  if negb (due t now) then 0
  else if deleted t || (period t =? 0) then 1
  else
    let q := (now - alarm t) / period t in
    if flag_test (flags t) FL_SKIP_UNHANDLED_EVENTS && (1 <? q) then 1 else q + 1.

(** The timer afterwards. *)
Definition after (now : Z) (t : esp_timer) : option esp_timer :=
  if negb (due t now) then Some t
  else if deleted t then None
  else if period t =? 0 then Some (with_alarm 0 0 t)
  else
    let q := (now - alarm t) / period t in
    Some (with_alarm (if flag_test (flags t) FL_SKIP_UNHANDLED_EVENTS && (1 <? q) then now + period t
                      else alarm t + (q + 1) * period t) (period t) t).

Definition on_list (d : bool) (now : Z) (t : esp_timer) : option esp_timer :=
  if eqb (dispatch_method t) d then after now t else Some t.
Definition calls (d : bool) (now : Z) (t : esp_timer) : Z :=
  if eqb (dispatch_method t) d && negb (deleted t) then rounds t now else 0.

(** The number of periods missed by a timer that skips them fits an [int]. *)
Definition skip_fits (now : Z) (t : esp_timer) : Prop :=
  flag_test (flags t) FL_SKIP_UNHANDLED_EVENTS = true -> (now - alarm t) / period t < 2 ^ 31.

(** What a round makes of a due timer. *)
Definition once (now : Z) (t : esp_timer) : option esp_timer :=
  if deleted t then None else Some (with_alarm (if 0 <? period t then next_period t now else 0) (period t) t).

Lemma due_spec t now : due t now = true <-> 0 < alarm t <= now.
Proof. unfold due. rewrite andb_true_iff, Z.ltb_lt, Z.leb_le. lia. Qed.

Lemma div_step a p : 0 < p -> (a - p) / p = a / p - 1.
Proof. intros H. replace (a - p) with (a + (-1) * p) by lia. rewrite Z.div_add by lia. lia. Qed.

Lemma rounds_nonneg t now : timer_ok t -> 0 <= rounds t now.
Proof.
  intros [_ Hp]. unfold rounds. destruct (due t now) eqn:D; cbn [negb]; [|lia]. apply due_spec in D.
  destruct (_ || _) eqn:E; [lia|]. apply orb_false_iff in E as [_ E%Z.eqb_neq].
  pose proof (Z.div_pos (now - alarm t) (period t)). case_match; lia.
Qed.

Lemma not_due_rounds t now : due t now = false -> rounds t now = 0 /\ after now t = Some t.
Proof. intros D. unfold rounds, after. by rewrite D. Qed.

Lemma skip_less b q : b && (1 <? q) = false -> b && (1 <? q - 1) = false.
Proof. destruct b; [|done]. cbn. rewrite !Z.ltb_ge. lia. Qed.

(** One round brings a periodic timer one step closer. *)
Lemma once_periodic t now : timer_ok t -> due t now = true -> now < 2 ^ 63 -> skip_fits now t -> deleted t = false -> 0 < period t ->
  let t' := with_alarm (next_period t now) (period t) t in
  rounds t' now = rounds t now - 1 /\ after now t' = after now t /\ skip_fits now t'.
Proof.
  intros Hk D Hn Hs Hdel Hp t'. pose proof (proj1 (due_spec _ _) D) as Hd.
  destruct (next_period_range t now Hk Hd Hn Hp) as [En _]. set (q := (now - alarm t) / period t) in *.
  assert (Hq : 0 <= q) by (apply Z.div_pos; lia).
  assert (Ei : flag_test (flags t) FL_SKIP_UNHANDLED_EVENTS && (1 <? i32 q) = flag_test (flags t) FL_SKIP_UNHANDLED_EVENTS && (1 <? q)).
  { destruct (flag_test _ _) eqn:F; [|done]. specialize (Hs F). fold q in Hs. by rewrite i32_small by lia. }
  rewrite Ei in En. unfold rounds at 2, after at 2. rewrite D, Hdel, (proj2 (Z.eqb_neq (period t) 0)) by lia. cbn [negb orb]. fold q.
  unfold t' at 1 2 3. rewrite En. destruct (_ && _) eqn:G.
  - set (t2 := with_alarm (now + period t) _ _). destruct (not_due_rounds t2 now) as [-> ->];
      [apply not_true_iff_false; rewrite due_spec; cbn; lia|]. split_and!; [lia|done|].
    intros _. apply Z.div_lt_upper_bound; cbn; lia.
  - set (t2 := with_alarm (alarm t + period t) _ _). assert (Eq : (now - alarm t2) / period t2 = q - 1).
    { unfold q. rewrite <- div_step by lia. cbn. f_equal. lia. }
    split; [|split]; cycle 2.
    { intros F. specialize (Hs F). fold q in Hs. rewrite Eq. lia. }
    all: destruct (due t2 now) eqn:D2.
    1, 3: unfold rounds, after; rewrite D2, Eq; change (deleted t2) with (deleted t); change (flags t2) with (flags t);
      change (period t2) with (period t); rewrite Hdel, (proj2 (Z.eqb_neq (period t) 0)) by lia; cbn [negb orb];
      rewrite (skip_less _ _ G).
    + lia.
    + unfold with_alarm. cbn. do 2 f_equal. lia.
    + destruct (not_due_rounds t2 now D2) as [-> _]. assert (q = 0); [|lia]. apply not_true_iff_false in D2. rewrite due_spec in D2. cbn in D2.
      apply Z.div_small. lia.
    + destruct (not_due_rounds t2 now D2) as [_ ->]. assert (q = 0) as ->.
      { apply not_true_iff_false in D2. rewrite due_spec in D2. cbn in D2. apply Z.div_small. lia. }
      unfold t2. do 2 f_equal. lia.
Qed.

Definition sum (g : Z -> Z) (l : list Z) : Z := foldr (fun h n => g h + n) 0 l.

Lemma sum_insert g f a x l : sum g (insert_before f a x l) = g x + sum g l.
Proof. unfold sum in *. induction l as [|b l IH]; [done|]. cbn [insert_before]. destruct (a <? f b); cbn [foldr]; lia. Qed.

Lemma sum_ext g g' l : (forall h, List.In h l -> g h = g' h) -> sum g l = sum g' l.
Proof.
  unfold sum. induction l as [|b l IH]; [done|]. intros H. cbn [foldr]. rewrite (H b) by (by left). rewrite IH; [done|].
  intros h Hh. apply H. by right.
Qed.

Lemma sum_nonneg g l : (forall h, 0 <= g h) -> 0 <= sum g l.
Proof. intros H. unfold sum. induction l as [|b l IH]; cbn [foldr]; [lia|]. specialize (H b). lia. Qed.

Lemma filter_out (x : Z) l : ~ List.In x l -> filter (fun y => y <> x) l = l.
Proof.
  induction l as [|b l IH]; [done|]. intros H. rewrite filter_cons, decide_True, IH; [done|..].
  - intros Hx. apply H. by right.
  - intros ->. apply H. by left.
Qed.

Lemma filter_first (x : Z) l : NoDup (x :: l) -> filter (fun y => y <> x) (x :: l) = l.
Proof.
  intros H. apply NoDup_cons in H as [Hx _]. rewrite list_elem_of_In in Hx. rewrite filter_cons, decide_False by auto. by apply filter_out.
Qed.

Lemma dispatched_list d it t now s s' l : s_timers d s = it :: l -> NoDup (it :: l) -> dispatch_method t = d -> dispatched it t now s = Some s' ->
  forall g, sum g (s_timers d s') = (if 0 <? period t then g it else 0) + sum g l.
Proof.
  intros El Hn Hd E g. unfold dispatched in E. cbn zeta in E.
  assert (Er : s_timers d (unlink it s) = l) by (rewrite timers_remove, El; by apply filter_first).
  destruct (0 <? period t).
  - unfold timer_insert in E. cbn in E. rewrite lookup_insert_eq in E. destruct (listed _ _) in E; [done|]. cbn in E. injection E as <-.
    change (dispatch_method _) with (dispatch_method t). rewrite Hd, timers_set, eqb_reflx, sum_insert. do 2 f_equal. exact Er.
  - injection E as <-. change (s_timers d (set_timer it (with_alarm 0 (period t) t) (unlink it s))) with (s_timers d (unlink it s)). by rewrite Er.
Qed.

(** Rounds of the loop for list [d]. *)
Definition total (d : bool) (now : Z) (s : timer_state) : Z :=
  sum (fun h => from_option (fun t => rounds t now) 0 (ts_heap s !! h)) (s_timers d s).

Section Run.
Context (now : Z) (d : bool).
Hypothesis Hnow : 0 <= now < 2 ^ 63.

Lemma on_list_once t t' : timer_ok t -> due t now = true -> skip_fits now t -> dispatch_method t = d -> once now t = Some t' ->
  rounds t' now = rounds t now - 1 /\ on_list d now t' = on_list d now t /\ skip_fits now t' /\ calls d now t = 1 + calls d now t' /\
  dispatch_method t' = d.
Proof.
  intros Hk D Hs Hd. unfold once. destruct (deleted t) eqn:Hdel; [done|]. intros [= <-].
  set (t' := with_alarm _ _ _).
  assert (H : rounds t' now = rounds t now - 1 /\ after now t' = after now t /\ skip_fits now t').
  { unfold t'. destruct (Z.ltb_spec 0 (period t)); [apply once_periodic; try done; lia|].
    assert (Hp : period t = 0) by (destruct Hk; lia).
    destruct (not_due_rounds (with_alarm 0 (period t) t) now) as [-> ->]; [done|].
    unfold rounds, after, skip_fits. cbn. rewrite D, Hdel, Hp. cbn. split_and!; [done|done|]. rewrite Z.div_0_r. lia. }
  destruct H as (H1 & H2 & H3). change (dispatch_method t') with (dispatch_method t) in *. unfold on_list, calls.
  change (deleted t') with (deleted t). change (dispatch_method t') with (dispatch_method t). rewrite Hd, Hdel, eqb_reflx. cbn [negb andb].
  split_and!; [done..|lia|done].
Qed.

Lemma none_due s : (forall h t, ts_heap s !! h = Some t -> dispatch_method t = d -> due t now = false) ->
  ts_heap s = omap (on_list d now) (ts_heap s) /\ forall h, 0 = from_option (calls d now) 0 (ts_heap s !! h).
Proof.
  intros H. split.
  - apply map_eq. intros h. rewrite lookup_omap. destruct (ts_heap s !! h) as [t|] eqn:E; [|done]. cbn. unfold on_list.
    destruct (eqb (dispatch_method t) d) eqn:Hd; [|done]. apply eqb_prop in Hd. by destruct (not_due_rounds t now (H h t E Hd)) as [_ ->].
  - intros h. destruct (ts_heap s !! h) as [t|] eqn:E; [|done]. cbn. unfold calls.
    destruct (eqb (dispatch_method t) d) eqn:Hd; [|done]. apply eqb_prop in Hd. destruct (not_due_rounds t now (H h t E Hd)) as [-> _]. by destruct (negb _).
Qed.

Definition run := process_loop (fun _ => now) (fun _ _ s => s).

Lemma run_round fuel k p s it l t : timers_ok None s -> s_timers d s = it :: l -> ts_heap s !! it = Some t -> alarm t <= now ->
  skip_fits now t -> exists s1, timers_ok None s1 /\ ts_heap s1 = partial_alter (fun _ => once now t) it (ts_heap s) /\
    total d now s1 = total d now s - 1 /\
    run (S fuel) d k p s = (do* (processed, called, s) <- run fuel d (S k) true s1;
                            Some (processed, (if deleted t then called else it :: called), s)).
Proof.
  intros Ok El Ht Hle Hs. assert (Hh : head (s_timers d s) = Some it) by (by rewrite El).
  destruct (tk_lists _ _ Ok d) as [Hn Ha _ _]. rewrite El in Hn.
  destruct (Ha it (head_in _ _ Hh)) as (_ & t1 & H1 & Hd & Hpos). rewrite Ht in H1. injection H1 as <-.
  destruct (tk_heap _ _ Ok it t Ht) as [Hk _]. assert (D : due t now = true) by (apply due_spec; lia).
  assert (Hl : ~ List.In it l) by (apply NoDup_cons in Hn as [Hx _]; by rewrite list_elem_of_In in Hx).
  assert (Same : sum (fun h => from_option (fun t => rounds t now) 0 (ts_heap s !! h)) l + rounds t now = total d now s).
  { unfold total. rewrite El. cbn [sum foldr]. rewrite Ht. cbn [from_option]. unfold sum. lia. }
  destruct (process_round_ok d now s Ok Hnow) as (r & Er & Hr). unfold run. cbn [process_loop]. rewrite Er.
  destruct r as [|s1|it' cb a s1].
  - specialize (Hr it Hh). unfold alarm_of in Hr. rewrite Ht in Hr. cbn in Hr. lia.
  - destruct Hr as (it' & t' & Hh' & Ht' & _ & _ & Ec & -> & Ok1 & _). rewrite Hh in Hh'. injection Hh' as <-. rewrite Ht in Ht'. injection Ht' as <-.
    assert (Hdel : deleted t = true) by (unfold deleted; by apply Z.eqb_eq).
    eexists. split; [exact Ok1|]. rewrite Hdel. split_and!.
    + cbn. apply map_eq. intros x. unfold once. rewrite Hdel. done.
    + rewrite <- Same. unfold total at 1. change (s_timers d (free_timer it (unlink it s))) with (s_timers d (unlink it s)).
      rewrite timers_remove, El, filter_first by done.
      rewrite (sum_ext _ (fun h => from_option (fun t => rounds t now) 0 (ts_heap s !! h))).
      * unfold rounds. rewrite D, Hdel. cbn. lia.
      * intros h Hh1. cbn. rewrite lookup_delete_ne; [done|]. by intros ->.
    + by destruct (process_loop _ _ fuel d (S k) true _) as [[[? ?] ?]|].
  - destruct Hr as (t' & Hh' & Ht' & _ & _ & Ec & -> & -> & Ed & Ok1 & _ & Eh). rewrite Hh in Hh'. injection Hh' as <-. rewrite Ht in Ht'. injection Ht' as <-.
    assert (Hdel : deleted t = false) by (unfold deleted; by apply Z.eqb_neq).
    assert (Eo : once now t = Some (with_alarm (if 0 <? period t then next_period t now else 0) (period t) t)) by (unfold once; by rewrite Hdel).
    exists s1. split; [exact Ok1|]. rewrite Hdel. split_and!; [by rewrite Eh, Eo| |done].
    rewrite <- Same. unfold total at 1. rewrite (dispatched_list d it t now s s1 l El Hn Hd Ed).
    destruct (on_list_once t _ Hk D Hs Hd Eo) as (E1 & _).
    rewrite (sum_ext _ (fun h => from_option (fun t => rounds t now) 0 (ts_heap s !! h)) l); cycle 1.
    { intros h Hh1. rewrite Eh, lookup_insert_ne; [done|]. by intros ->. }
    rewrite Eh, lookup_insert_eq. cbn [from_option]. rewrite E1. destruct (Z.ltb_spec 0 (period t)); [lia|].
    unfold rounds. rewrite D, Hdel. cbn. assert (period t = 0) as -> by (destruct Hk; lia). cbn. lia.
Qed.

Definition all_skips_fit (m : gmap Z esp_timer) : Prop :=
  forall h t, m !! h = Some t -> dispatch_method t = d -> 0 < alarm t -> skip_fits now t.

(** What the loop still has to do is the same after a round. *)
Lemma round_heap s s1 it t : timer_ok t -> due t now = true -> skip_fits now t -> dispatch_method t = d -> ts_heap s !! it = Some t ->
  ts_heap s1 = partial_alter (fun _ => once now t) it (ts_heap s) -> all_skips_fit (ts_heap s) ->
  omap (on_list d now) (ts_heap s1) = omap (on_list d now) (ts_heap s) /\ all_skips_fit (ts_heap s1) /\
  forall h, from_option (calls d now) 0 (ts_heap s !! h) =
    (if deleted t then 0 else if Z.eq_dec it h then 1 else 0) + from_option (calls d now) 0 (ts_heap s1 !! h).
Proof.
  intros Hk D Hs Hd Ht Eh All. rewrite Eh.
  assert (Hn : once now t = None -> deleted t = true /\ on_list d now t = None /\ calls d now t = 0).
  { unfold once, on_list, calls, after. rewrite Hd, eqb_reflx, D. by destruct (deleted t). }
  assert (Hd0 : deleted t = true -> once now t = None) by (unfold once; by intros ->).
  split_and!.
  - apply map_eq. intros h. rewrite !lookup_omap. destruct (decide (h = it)) as [->|Hne]; [|by rewrite lookup_partial_alter_ne].
    rewrite lookup_partial_alter_eq, Ht. cbn. destruct (once now t) as [t'|] eqn:E; cbn; [|symmetry; by apply Hn].
    by destruct (on_list_once t t' Hk D Hs Hd E) as (_ & -> & _).
  - intros h t2. destruct (decide (h = it)) as [->|Hne]; [|rewrite lookup_partial_alter_ne by done; by apply All].
    rewrite lookup_partial_alter_eq. intros E _ _. by destruct (on_list_once t t2 Hk D Hs Hd E) as (_ & _ & ? & _).
  - intros h. destruct (Z.eq_dec it h) as [->|Hne]; [|rewrite lookup_partial_alter_ne by done; destruct (deleted t); lia].
    rewrite lookup_partial_alter_eq, Ht. cbn [from_option]. destruct (once now t) as [t'|] eqn:E; cbn [from_option].
    + destruct (on_list_once t t' Hk D Hs Hd E) as (_ & _ & _ & -> & _). destruct (deleted t) eqn:Hdel; [discriminate (Hd0 eq_refl)|done].
    + by destruct (Hn eq_refl) as (-> & _ & ->).
Qed.

Lemma run_loop fuel : forall k p s, timers_ok None s -> all_skips_fit (ts_heap s) -> total d now s < Z.of_nat fuel ->
  exists p' called s', run fuel d k p s = Some (p', called, s') /\ ts_heap s' = omap (on_list d now) (ts_heap s) /\
    forall h, Z.of_nat (count_occ Z.eq_dec called h) = from_option (calls d now) 0 (ts_heap s !! h).
Proof.
  induction fuel as [|fuel IH]; intros k p s Ok All Hf.
  { pose proof (sum_nonneg (fun h => from_option (fun t => rounds t now) 0 (ts_heap s !! h)) (s_timers d s)) as H. unfold total in Hf.
    exfalso. cut (0 <= total d now s); [unfold total; lia|]. apply H. intros h. destruct (ts_heap s !! h) eqn:E; [|done].
    apply rounds_nonneg. by apply (tk_heap _ _ Ok h). }
  destruct (tk_lists _ _ Ok d) as [_ Ha Hall Ho].
  assert (Done : (forall h, List.In h (s_timers d s) -> now < alarm_of s h) -> run (S fuel) d k p s = Some (p, [], s) ->
    exists p' called s', run (S fuel) d k p s = Some (p', called, s') /\ ts_heap s' = omap (on_list d now) (ts_heap s) /\
    forall h, Z.of_nat (count_occ Z.eq_dec called h) = from_option (calls d now) 0 (ts_heap s !! h)).
  { intros Hlate E. exists p, [], s. split; [done|]. destruct (none_due s); [|by split]. intros h t Ht Hd. apply not_true_iff_false.
    rewrite due_spec. intros Hdue. assert (Hin : List.In h (s_timers d s)) by (apply (Hall h t Ht Hd); [lia|done]).
    specialize (Hlate h Hin). unfold alarm_of in Hlate. rewrite Ht in Hlate. cbn in Hlate. lia. }
  destruct (s_timers d s) as [|it l] eqn:El.
  { apply Done; [done|]. unfold run. cbn [process_loop]. unfold process_round. by rewrite El. }
  destruct (Ha it (or_introl eq_refl)) as (_ & t & Ht & Hd & Hpos).
  destruct (Z.lt_ge_cases now (alarm t)) as [Hlt|Hge].
  { apply Done; [|unfold run; cbn [process_loop]; unfold process_round; rewrite El; cbn [head]; by rewrite Ht, (proj2 (Z.ltb_lt _ _) Hlt)].
    intros h Hh. pose proof (ordered_head _ _ _ _ Ho Hh) as H. unfold alarm_of at 1 in H. rewrite Ht in H. cbn in H. lia. }
  clear Done. assert (Hs : skip_fits now t) by (by apply (All it)). destruct (tk_heap _ _ Ok it t Ht) as [Hk _].
  destruct (run_round fuel k p s it l t Ok El Ht Hge Hs) as (s1 & Ok1 & Eh & Et & Er).
  destruct (round_heap s s1 it t) as (Eo & All1 & Ec); [done|by apply due_spec|done..|].
  destruct (IH (S k) true s1 Ok1 All1) as (p' & called & s' & E & Eh' & Ecount); [lia|].
  rewrite Er, E. eexists _, _, _. split; [done|]. split; [by rewrite Eh', Eo|]. intros h. rewrite Ec, <- Ecount.
  destruct (deleted t); [done|]. cbn [count_occ]. destruct (Z.eq_dec it h); lia.
Qed.
End Run.

Lemma process_calls now d s fuel : 0 <= now < 2 ^ 63 -> timers_ok None s -> all_skips_fit now d (ts_heap s) -> total d now s < Z.of_nat fuel ->
  exists p called s', timer_process_alarm (fun _ => now) (fun _ _ s => s) fuel d s = Some (p, called, s') /\
    ts_heap s' = omap (on_list d now) (ts_heap s) /\
    (forall h, Z.of_nat (count_occ Z.eq_dec called h) = from_option (calls d now) 0 (ts_heap s !! h)).
Proof.
  intros Hn Ok All Hf. destruct (run_loop now d Hn fuel 0 false s Ok All Hf) as (p & called & s' & E & Eh & Ec). unfold run in E.
  unfold timer_process_alarm. rewrite E. eexists _, _, _. split; [done|]. split; [|done]. rewrite <- Eh. by destruct (process_end_alarm d p s') as [->|[-> _]].
Qed.

(** Without calls in callbacks. *)
Lemma process_idle_ok now fuel d s p called s' : 0 <= now < 2 ^ 63 -> timers_ok None s ->
  timer_process_alarm (fun _ => now) (fun _ _ s => s) fuel d s = Some (p, called, s') ->
  step_ok s s' /\ forall h, head (s_timers d s') = Some h -> now < alarm_of s' h.
Proof.
  intros Hn Ok E.
  destruct (process_alarm_ok (fun _ => now) (fun _ _ s => s) (fun _ => Hn) (fun _ _ s Ok => step_ok_refl s Ok) _ _ _ _ _ _ Ok E) as [H Hd].
  split; [done|]. intros h Hh. by destruct (Hd h Hh).
Qed.


(** A periodic timer that was dispatched late is called once for every
    period that has passed and its next alarm is the first multiple of the
    period after the current time, without drift; one that skips missed events
    and missed at least two periods is called once and starts a new period. *)
Theorem periodic_no_drift now d y fuel h t : reachable y -> idle y -> let s := sy_timers y in 0 <= now < 2 ^ 63 -> all_skips_fit now d (ts_heap s) ->
  total d now s < Z.of_nat fuel ->
  ts_heap s !! h = Some t -> dispatch_method t = d -> 0 < alarm t <= now -> 0 < period t -> deleted t = false ->
  exists p called s' t', timer_process_alarm (fun _ => now) (fun _ _ s => s) fuel d s = Some (p, called, s') /\
    ts_heap s' !! h = Some t' /\ period t' = period t /\ List.In h (s_timers d s') /\
    if flag_test (flags t) FL_SKIP_UNHANDLED_EVENTS && (alarm t + 2 * period t <=? now)
    then count_occ Z.eq_dec called h = 1%nat /\ alarm t' = now + period t
    else alarm t' = alarm t + Z.of_nat (count_occ Z.eq_dec called h) * period t /\ alarm t' - period t <= now < alarm t'.
Proof.
  intros R I s Hn All Hf Ht Hd Ha Hp Hdel. destruct (idle_ok y R I) as [Ok _]. fold s in Ok.
  destruct (process_calls now d s fuel Hn Ok All Hf) as (p & called & s' & E & Eh & Ec). specialize (Ec h). rewrite Ht in Ec. cbn [from_option] in Ec.
  assert (D : due t now = true) by (by apply due_spec).
  assert (Hs' : ts_heap s' !! h = after now t) by (rewrite Eh, lookup_omap, Ht; cbn; unfold on_list; by rewrite Hd, eqb_reflx).
  unfold calls, rounds in Ec. unfold after in Hs'. rewrite Hd, eqb_reflx, Hdel, D, (proj2 (Z.eqb_neq (period t) 0)) in Ec by lia. cbn [negb andb orb] in Ec.
  rewrite D, Hdel, (proj2 (Z.eqb_neq (period t) 0)) in Hs' by lia. cbn [negb] in Hs'. set (q := (now - alarm t) / period t) in *.
  pose proof (Z.div_mod (now - alarm t) (period t) ltac:(lia)) as Hq. pose proof (Z.mod_pos_bound (now - alarm t) (period t) Hp) as Hm. fold q in Hq.
  assert (Eq : (alarm t + 2 * period t <=? now) = (1 <? q)).
  { apply eq_true_iff_eq. rewrite Z.leb_le, Z.ltb_lt. split; intros H; [|nia]. destruct (Z.lt_ge_cases 1 q); [done|nia]. }
  exists p, called, s'. rewrite Eq. eexists. split; [done|]. split; [exact Hs'|]. split; [done|].
  destruct (process_idle_ok _ _ _ _ _ _ _ Hn Ok E) as [[Ok' _] _].
  destruct (flag_test (flags t) FL_SKIP_UNHANDLED_EVENTS && (1 <? q)) eqn:G; cbn [alarm with_alarm].
  - split; [|split; [lia|done]]. apply (lk_all _ _ _ (tk_lists _ _ Ok' d) h _ Hs'); cbn; [done|lia|done].
  - assert (0 <= q) by (apply Z.div_pos; lia).
    split; [|rewrite Ec; split; nia]. apply (lk_all _ _ _ (tk_lists _ _ Ok' d) h _ Hs'); cbn; [done|nia|done].
Qed.

Lemma ex_skips : all_skips_fit 350 false (ts_heap ex_both) /\ total false 350 ex_both < 4.
Proof.
  split; [|vm_compute; reflexivity]. intros h t.
  replace (ts_heap ex_both) with (<[2 := mkTimer 50 0 3 8 0]> (<[1 := mkTimer 110 100 0 7 0]> (∅ : gmap Z esp_timer))) by (vm_compute; reflexivity).
  intros [[<- <-]|[_ H]]%lookup_insert_Some; [done|]. apply lookup_insert_Some in H as [[<- <-]|[_ H]]; [done|]. by rewrite lookup_empty in H.
Qed.


Lemma periodic_no_drift_witness : reachable ex_sys /\
  exists p called s' t', timer_process_alarm (fun _ => 350) (fun _ _ s => s) 4 false ex_both = Some (p, called, s') /\
    ts_heap s' !! 1 = Some t' /\ alarm t' = 110 + Z.of_nat (count_occ Z.eq_dec called 1) * 100.
Proof.
  split; [exact ex_reachable|].
  destruct (periodic_no_drift 350 false ex_sys 4 1 (mkTimer 110 100 0 7 0) ex_reachable (conj eq_refl eq_refl)) as (p & called & s' & t' & E & H1 & _ & _ & H2 & _);
    [lia|apply ex_skips|apply ex_skips|vm_compute; reflexivity|reflexivity|cbn; lia|cbn; lia|reflexivity|].
  exists p, called, s', t'. split; [exact E|]. split; [exact H1|exact H2].
Defined.

(** After 2^31 missed periods the count of missed events is negative as an
    [int], and the timer is called for a missed event although it skips them. *)
Fact skip_count_overflows : exists t now, timer_ok t /\ 0 < alarm t <= now /\ now < 2 ^ 63 /\
  flag_test (flags t) FL_SKIP_UNHANDLED_EVENTS = true /\ alarm t + 2 ^ 31 * period t <= now /\ next_period t now <= now.
Proof. exists (mkTimer 1 50 2 7 0), (1 + 50 * 2 ^ 31). by split_and!. Qed.

(** A timer that skips missed events and has expired twice (at 110 and at
    210) is called twice. *)
Definition ex_skip : timer_state :=
  mkTs {[1 := mkTimer 110 100 FL_SKIP_UNHANDLED_EVENTS 7 0]} 2 [1] [] 110 UINT64_MAX 110 true.

Fact skip_calls_twice : option_map (fun r => snd (fst r)) (timer_process_alarm (fun _ => 250) (fun _ _ s => s) 4 false ex_skip) = Some [1; 1].
Proof. vm_compute. reflexivity. Qed.

(** ** The dump *)

Lemma write_at_ok pos l buf : (pos + length l <= length buf)%nat ->
  exists buf', write_at pos l buf = Some buf' /\ length buf' = length buf /\ take (pos + length l) buf' = take pos buf ++ l.
Proof.
  intros H. unfold write_at. rewrite (proj2 (Nat.leb_le _ _) H). eexists. split; [done|]. split.
  - rewrite !length_app, length_take, length_drop. lia.
  - rewrite app_assoc, take_app_length'; [done|]. rewrite length_app, length_take. lia.
Qed.

(** Lines that fit are printed one after the other. *)
Lemma print_all_ok texts : forall pos size buf, Z.of_nat (pos + length (concat texts)) < size + Z.of_nat pos -> 0 < size < 2 ^ 32 ->
  Z.of_nat (length buf) = Z.of_nat pos + size + 1 -> (pos <= length buf)%nat ->
  exists size' buf', print_all texts (pos, size, buf) = Some ((pos + length (concat texts))%nat, size', buf') /\
    take (pos + length (concat texts)) buf' = take pos buf ++ concat texts.
Proof.
  induction texts as [|t texts IH]; intros pos size buf H Hs Hb Hp; cbn [print_all].
  - exists size, buf. cbn. by rewrite Nat.add_0_r, app_nil_r.
  - cbn [concat] in *. rewrite length_app in *. unfold print_timer_info, snprintf. rewrite (proj2 (Z.eqb_neq size 0)) by lia.
    rewrite take_ge by lia. destruct (write_at_ok pos (t ++ [0]) buf) as (buf1 & E & Hl & Ht); [rewrite length_app; cbn; lia|]. rewrite E.
    rewrite u32_small by lia. destruct (IH (pos + length t)%nat (size - Z.of_nat (length t)) buf1) as (size' & buf' & E2 & Ht2); [lia..|].
    exists size', buf'. rewrite E2. replace (pos + length t + length (concat texts))%nat with (pos + (length t + length (concat texts)))%nat in * by lia.
    split; [done|]. rewrite Ht2, app_assoc. f_equal. rewrite length_app, app_assoc in Ht.
    apply (f_equal (take (pos + length t))) in Ht. rewrite take_take, take_app_length' in Ht by (rewrite length_app, length_take; lia).
    rewrite <- Ht. f_equal. cbn. lia.
Qed.

(** When no line is longer than [TIMER_INFO_LINE_LEN], the buffer holds the
    lines of all timers. *)
Lemma dump_complete line s : let n := Z.of_nat (length (s_timers false s) + length (s_timers true s)) in
  TIMER_INFO_LINE_LEN * (n + 3) < 2 ^ 32 -> (forall h, Z.of_nat (length (line h)) <= TIMER_INFO_LINE_LEN) ->
  exists buf, esp_timer_dump line [] true s = Some (ESP_OK, buf) /\
    let text := concat ((line <$> s_timers false s) ++ (line <$> s_timers true s)) in take (length text) buf = text.
Proof.
  intros n Hn Hl. unfold esp_timer_dump. cbn [negb]. fold n. unfold TIMER_INFO_LINE_LEN in *. rewrite u32_small, app_nil_r by lia.
  set (texts := _ ++ _). assert (Hlen : forall l, Z.of_nat (length (concat (line <$> l))) <= 46 * Z.of_nat (length l)).
  { induction l as [|h l IH]; cbn; [done|]. rewrite length_app. specialize (Hl h). lia. }
  pose proof (Hlen (s_timers false s)). pose proof (Hlen (s_timers true s)).
  assert (Z.of_nat (length (concat texts)) <= 46 * n) by (unfold texts; rewrite concat_app, length_app; lia).
  destruct (print_all_ok texts 0 (46 * (n + 3)) (repeat 0 (Z.to_nat (46 * (n + 3) + 1)))) as (size' & buf & E & Ht);
    [lia|lia|rewrite repeat_length; lia|lia|]. rewrite E. by exists buf.
Qed.

(** The format prints at least 47 characters: with 190 timers the buffer
    overflows. *)
Definition ex_many : timer_state := mkTs ∅ 191 (Z.of_nat <$> seq 1 190) [] 1 UINT64_MAX 1 true.

Fact dump_overflows : esp_timer_dump (fun _ => repeat 65 47) [] true ex_many = None.
Proof. vm_compute. reflexivity. Qed.
