(* ===== verification/ConsoleArgv.v ===== *)
(** * Splitting a command line into arguments

    components/console/split_argv.c.  The line is split in place: the
    arguments are written over the line they are read from.  The buffers are
    the byte list [line] and the pointer list [argv], a pointer into the line
    is an offset and [NULL] is [None]; an access outside a buffer makes the
    result [None]. *)

From S2P Require Import Prelude.

(** ** The code *)

Inductive split_state_t := SS_SPACE | SS_ARG | SS_QUOTED_ARG | SS_ARG_ESCAPED | SS_QUOTED_ARG_ESCAPED.

#[export] Instance split_state_eq_dec : EqDecision split_state_t.
Proof. solve_decision. Defined.

(** [state & ~SS_FLAG_ESCAPE] *)
Definition unescaped (st : split_state_t) : split_state_t :=
  match st with SS_ARG_ESCAPED => SS_ARG | SS_QUOTED_ARG_ESCAPED => SS_QUOTED_ARG | st => st end.

Definition QUOTE : Z := 34.
Definition ESCAPE : Z := 92.
Definition SPACE : Z := 32.

(** The local variables and the two buffers. *)
Record split := mkSplit {
  state : split_state_t;
  argc : Z;
  next_arg_start : nat;
  out_ptr : nat;
  line : list Z;
  argv : list (option nat)
}.

Definition store {A} (i : nat) (x : A) (l : list A) : option (list A) :=
  if (i <? length l)%nat then Some (<[i := x]> l) else None.

(** [argv[argc++] = p] *)
Definition push_arg (p : nat) (s : split) : option split :=
  do* a <- store (Z.to_nat (argc s)) (Some p) (argv s);
  Some (mkSplit (state s) (argc s + 1) (next_arg_start s) (out_ptr s) (line s) a).

Definition set_state (st : split_state_t) (s : split) : split :=
  mkSplit st (argc s) (next_arg_start s) (out_ptr s) (line s) (argv s).
(** [next_arg_start = out_ptr; state = st] *)
Definition start_arg (st : split_state_t) (s : split) : split :=
  mkSplit st (argc s) (out_ptr s) (out_ptr s) (line s) (argv s).

(** The macro; the first component of the result is [char_out], [None] for -1. *)
Definition END_ARG (s : split) : option (option Z * split) :=
  do* s <- push_arg (next_arg_start s) s;
  Some (Some 0, set_state SS_SPACE s).

(** The [switch]. *)
Definition split_char (char_in : Z) (s : split) : option (option Z * split) :=
  match state s with
  | SS_SPACE =>
      if char_in =? SPACE then Some (None, s)
      else if char_in =? QUOTE then Some (None, start_arg SS_QUOTED_ARG s)
      else if char_in =? ESCAPE then Some (None, start_arg SS_ARG_ESCAPED s)
      else Some (Some char_in, start_arg SS_ARG s)
  | SS_QUOTED_ARG =>
      if char_in =? QUOTE then END_ARG s
      else if char_in =? ESCAPE then Some (None, set_state SS_QUOTED_ARG_ESCAPED s)
      else Some (Some char_in, s)
  | SS_ARG_ESCAPED | SS_QUOTED_ARG_ESCAPED =>
      Some (if (char_in =? ESCAPE) || (char_in =? QUOTE) || (char_in =? SPACE) then Some char_in else None,
            set_state (unescaped (state s)) s)
  | SS_ARG =>
      if char_in =? SPACE then END_ARG s
      else if char_in =? ESCAPE then Some (None, set_state SS_ARG_ESCAPED s)
      else Some (Some char_in, s)
  end.

(** [*out_ptr = c] *)
Definition put_char (c : Z) (s : split) : option split :=
  do* l <- store (out_ptr s) c (line s);
  Some (mkSplit (state s) (argc s) (next_arg_start s) (out_ptr s) l (argv s)).

Definition output (char_out : option Z) (s : split) : option split :=
  match char_out with
  | Some c => do* s <- put_char c s; Some (mkSplit (state s) (argc s) (next_arg_start s) (S (out_ptr s)) (line s) (argv s))
  | None => Some s
  end.

Fixpoint split_loop (argv_size : Z) (fuel : nat) (in_ptr : nat) (s : split) : option split :=
  match fuel with
  | O => None
  | S fuel =>
      if argc s <? u32 (argv_size - 1) then
        do* char_in <- line s !! in_ptr;
        if char_in =? 0 then Some s
        else
          do* (char_out, s) <- split_char char_in s;
          do* s <- output char_out s;
          split_loop argv_size fuel (S in_ptr) s
      else Some s
  end.

(** The result, the line and the argument vector.  Every round reads one
    more character, so the length of the line is enough fuel. *)
Definition esp_console_split_argv (line0 : list Z) (argv0 : list (option nat)) (argv_size : Z)
    : option (Z * list Z * list (option nat)) :=
  do* s <- split_loop argv_size (S (length line0)) 0 (mkSplit SS_SPACE 0 0 0 line0 argv0);
  do* s <- put_char 0 s;
  do* s <- (if negb (bool_decide (state s = SS_SPACE)) && (argc s <? u32 (argv_size - 1)) then push_arg (next_arg_start s) s else Some s);
  do* a <- store (Z.to_nat (argc s)) None (argv s);
  Some (argc s, line s, a).

(** ** The specification *)

(** The arguments of a string: [st] is the state at its start and [cur] the
    part of the current argument that has been read. *)
Fixpoint parse (st : split_state_t) (cur : list Z) (l : list Z) : list (list Z) :=
  match l with
  | [] => if bool_decide (st = SS_SPACE) then [] else [cur]
  | c :: l =>
      match st with
      | SS_SPACE =>
          if c =? SPACE then parse SS_SPACE [] l
          else if c =? QUOTE then parse SS_QUOTED_ARG [] l
          else if c =? ESCAPE then parse SS_ARG_ESCAPED [] l
          else parse SS_ARG [c] l
      | SS_ARG =>
          if c =? SPACE then cur :: parse SS_SPACE [] l
          else if c =? ESCAPE then parse SS_ARG_ESCAPED cur l
          else parse SS_ARG (cur ++ [c]) l
      | SS_QUOTED_ARG =>
          if c =? QUOTE then cur :: parse SS_SPACE [] l
          else if c =? ESCAPE then parse SS_QUOTED_ARG_ESCAPED cur l
          else parse SS_QUOTED_ARG (cur ++ [c]) l
      | SS_ARG_ESCAPED | SS_QUOTED_ARG_ESCAPED =>
          parse (unescaped st) (if (c =? ESCAPE) || (c =? QUOTE) || (c =? SPACE) then cur ++ [c] else cur) l
      end
  end.

Definition arguments (text : list Z) : list (list Z) := parse SS_SPACE [] text.

(** The grammar of command lines.  The characters of a word or of a quoted
    argument, and what they stand for: a backslash stands for the space, quote
    or backslash after it, and before another character for nothing. *)
Definition escapable (c : Z) : bool := (c =? ESCAPE) || (c =? QUOTE) || (c =? SPACE).

Inductive chars (stop : Z) : list Z -> list Z -> Prop :=
  | ch_nil : chars stop [] []
  | ch_plain c r a : c <> stop -> c <> ESCAPE -> chars stop r a -> chars stop (c :: r) (c :: a)
  | ch_escape c r a : escapable c = true -> chars stop r a -> chars stop (ESCAPE :: c :: r) (c :: a)
  | ch_unknown c r a : escapable c = false -> chars stop r a -> chars stop (ESCAPE :: c :: r) a.

(** At the end of the line: a last backslash stands for nothing. *)
Definition last_chars (stop : Z) (r a : list Z) : Prop := chars stop r a \/ exists r', r = r' ++ [ESCAPE] /\ chars stop r' a.

(** A word begins with any character but a space or a quote and ends before a
    space; a quoted argument ends with a quote, after which another argument
    may follow at once; the last argument ends with the line. *)
Inductive command_line : list Z -> list (list Z) -> Prop :=
  | cl_nil : command_line [] []
  | cl_space l args : command_line l args -> command_line (SPACE :: l) args
  | cl_word c r a l args : c <> QUOTE -> chars SPACE (c :: r) a -> command_line l args -> command_line (c :: r ++ SPACE :: l) (a :: args)
  | cl_quoted r a l args : chars QUOTE r a -> command_line l args -> command_line (QUOTE :: r ++ QUOTE :: l) (a :: args)
  | cl_last_word c r a : c <> QUOTE -> c <> SPACE -> last_chars SPACE (c :: r) a -> command_line (c :: r) [a]
  | cl_last_quoted r a : last_chars QUOTE r a -> command_line (QUOTE :: r) [a].

(** The string at offset [p]. *)
Fixpoint until_nul (l : list Z) : list Z :=
  match l with
  | [] => []
  | c :: l => if c =? 0 then [] else c :: until_nul l
  end.
Definition c_string (line : list Z) (p : nat) : list Z := until_nul (drop p line).

(** ** The loop *)

(** The arguments one after the other, each with its terminating zero, and
    the offsets at which they start. *)
Definition pack (ds : list (list Z)) : list Z := concat ((fun a => a ++ [0]) <$> ds).
Fixpoint offsets (base : nat) (ds : list (list Z)) : list nat :=
  match ds with
  | [] => []
  | a :: ds => base :: offsets (base + S (length a)) ds
  end.

Lemma pack_snoc ds a : pack (ds ++ [a]) = pack ds ++ a ++ [0].
Proof. unfold pack. rewrite fmap_app, concat_app. cbn. by rewrite app_nil_r. Qed.

Lemma offsets_snoc ds a : forall base, offsets base (ds ++ [a]) = offsets base ds ++ [(base + length (pack ds))%nat].
Proof.
  induction ds as [|b ds IH]; intros base; cbn; [by rewrite Nat.add_0_r|]. rewrite IH. do 3 f_equal.
  fold (pack ds). rewrite !length_app. cbn [length]. lia.
Qed.

Lemma offsets_length ds : forall base, length (offsets base ds) = length ds.
Proof. induction ds as [|b ds IH]; intros base; cbn; [done|]. by rewrite IH. Qed.

Lemma store_middle {A} (l1 : list A) x y l2 n : n = length l1 -> store n y (l1 ++ x :: l2) = Some (l1 ++ y :: l2).
Proof.
  intros ->. unfold store. rewrite (proj2 (Nat.ltb_lt _ _)) by (rewrite length_app; cbn; lia).
  by rewrite insert_app_r_alt, Nat.sub_diag by lia.
Qed.

Section Split.
Context (text rest : list Z) (argv0 : list (option nat)) (argv_size : Z).
Hypothesis text_nonzero : Forall (fun c => c <> 0) text.
Hypothesis argv_range : 1 <= argv_size < 2 ^ 32.
Hypothesis argv_length : Z.of_nat (length argv0) = argv_size.

(** The vector with the arguments [ds]. *)
Definition vector (ds : list (list Z)) : list (option nat) := (Some <$> offsets 0 ds) ++ drop (length ds) argv0.

Lemma vector_slot ds y n : Z.of_nat (length ds) < argv_size -> n = length ds ->
  store n y (vector ds) = Some ((Some <$> offsets 0 ds) ++ y :: drop (S (length ds)) argv0).
Proof.
  intros Hn ->. unfold vector. destruct (drop (length ds) argv0) as [|x l2] eqn:E.
  { apply (f_equal length) in E. rewrite length_drop in E. cbn in E. lia. }
  rewrite (store_middle _ _ y) by (by rewrite length_fmap, offsets_length). do 3 f_equal.
  by rewrite <- (Nat.add_1_r (length ds)), <- drop_drop, E.
Qed.

(** [ds] and [cur] have been written, [l] is still to be read. *)
Record inv (ds : list (list Z)) (cur l : list Z) (s : split) : Prop := {
  iv_line : exists junk, line s = pack ds ++ cur ++ junk ++ l ++ 0 :: rest /\ length (pack ds ++ cur ++ junk ++ l) = length text;
  iv_out : out_ptr s = length (pack ds ++ cur);
  iv_start : state s <> SS_SPACE -> next_arg_start s = length (pack ds);
  iv_space : state s = SS_SPACE -> cur = [];
  iv_argc : argc s = Z.of_nat (length ds);
  iv_argv : argv s = vector ds
}.

(** The character [c] is read and nothing is written. *)
Lemma skip_inv ds cur c l s st start : inv ds cur (c :: l) s -> (st = SS_SPACE -> cur = []) -> (st <> SS_SPACE -> start = length (pack ds)) ->
  inv ds cur l (mkSplit st (argc s) start (out_ptr s) (line s) (argv s)).
Proof.
  intros [(junk & El & Hlen) Ho Hs Hc Ha Hv] H1 H2. split; cbn; try done. exists (junk ++ [c]).
  rewrite El. rewrite !length_app in *. cbn in *. split; [by rewrite <- !app_assoc|lia].
Qed.

(** The character [c] is read and [v] is written. *)
Lemma write_line ds cur c v l s : inv ds cur (c :: l) s ->
  exists L junk, store (out_ptr s) v (line s) = Some L /\ L = pack ds ++ (cur ++ [v]) ++ junk ++ l ++ 0 :: rest /\
    length (pack ds ++ (cur ++ [v]) ++ junk ++ l) = length text.
Proof.
  intros [(junk & El & Hlen) Ho _ _ _ _]. destruct (junk ++ [c]) as [|x junk2] eqn:Ej; [by destruct junk|].
  exists (pack ds ++ (cur ++ [v]) ++ junk2 ++ l ++ 0 :: rest), junk2.
  assert (E : line s = (pack ds ++ cur) ++ x :: junk2 ++ l ++ 0 :: rest).
  { rewrite El, <- app_assoc. do 2 f_equal. change (x :: junk2 ++ l ++ 0 :: rest) with ((x :: junk2) ++ l ++ 0 :: rest). rewrite <- Ej.
    by rewrite <- app_assoc. }
  split_and!.
  - rewrite E, (store_middle _ _ v) by done. by rewrite <- !app_assoc.
  - done.
  - apply (f_equal length) in Ej. rewrite !length_app in *. cbn in *. lia.
Qed.

Lemma push_ok ds cur s p : argc s = Z.of_nat (length ds) -> argv s = vector ds -> Z.of_nat (length ds) < argv_size -> p = length (pack ds) ->
  push_arg p s = Some (mkSplit (state s) (Z.of_nat (length (ds ++ [cur]))) (next_arg_start s) (out_ptr s) (line s) (vector (ds ++ [cur]))).
Proof.
  intros Ha Hv Hn ->. unfold push_arg. rewrite Ha, Hv, Nat2Z.id, vector_slot by done. unfold vector.
  rewrite offsets_snoc, fmap_app, <- app_assoc, length_app. cbn. do 2 f_equal; [lia|]. do 3 f_equal. lia.
Qed.

(** A round that takes the characters that were read to [l] has the result
    [r], and the arguments are still [out]. *)
Definition follows (n : nat) (l : list Z) (r : option (option Z * split)) (out : list (list Z)) : Prop :=
  exists o s0 s1 ds1 cur1, r = Some (o, s0) /\ output o s0 = Some s1 /\ inv ds1 cur1 l s1 /\ out = ds1 ++ parse (state s1) cur1 l /\
    (length ds1 = n \/ (length ds1 = S n /\ state s1 = SS_SPACE)).

(** A character that is skipped. *)
Lemma skip_follows ds cur c l s st start : inv ds cur (c :: l) s -> (st = SS_SPACE -> cur = []) -> (st <> SS_SPACE -> start = length (pack ds)) ->
  follows (length ds) l (Some (None, mkSplit st (argc s) start (out_ptr s) (line s) (argv s))) (ds ++ parse st cur l).
Proof.
  intros I H1 H2. eexists _, _, _, ds, cur. split; [done|]. split; [done|]. split; [by apply (skip_inv _ _ c)|]. by split; [|left].
Qed.

(** A character of an argument. *)
Lemma emit_follows ds cur c v l s st start : inv ds cur (c :: l) s -> st <> SS_SPACE -> start = length (pack ds) ->
  follows (length ds) l (Some (Some v, mkSplit st (argc s) start (out_ptr s) (line s) (argv s))) (ds ++ parse st (cur ++ [v]) l).
Proof.
  intros I Hst Hstart. destruct (write_line ds cur c v l s I) as (L & junk & E & EL & Hlen). destruct I as [_ Ho _ _ Ha Hv].
  eexists _, _, _, ds, (cur ++ [v]). split; [done|]. unfold output, put_char. cbn. rewrite E. split; [done|].
  split; [|by split; [|left]]. split; cbn; try done; [by exists junk|]. rewrite Ho, !length_app. cbn. lia.
Qed.

(** The end of an argument. *)
Lemma end_follows ds cur c l s : inv ds cur (c :: l) s -> state s <> SS_SPACE -> Z.of_nat (length ds) < argv_size ->
  follows (length ds) l (END_ARG s) (ds ++ cur :: parse SS_SPACE [] l).
Proof.
  intros I Hst Hn. destruct (write_line ds cur c 0 l s I) as (L & junk & E & EL & Hlen).
  unfold END_ARG. rewrite (push_ok ds cur s _ (iv_argc _ _ _ _ I) (iv_argv _ _ _ _ I) Hn) by (by apply I). destruct I as [_ Ho _ _ Ha Hv].
  eexists _, _, _, (ds ++ [cur]), []. split; [done|]. unfold output, put_char. cbn. rewrite E. split; [done|].
  split; [|rewrite length_app; cbn; split; [by rewrite <- app_assoc|right; split; [lia|done]]].
  split; cbn; rewrite ?pack_snoc, ?length_app; try done.
  - exists junk. rewrite <- !app_assoc in *. split; [done|]. rewrite !length_app in *. cbn in *. lia.
  - rewrite Ho, !length_app. cbn. lia.
Qed.

(** One round of the loop follows the specification. *)
Lemma step_follows ds cur c l s : inv ds cur (c :: l) s -> Z.of_nat (length ds) < argv_size ->
  follows (length ds) l (split_char c s) (ds ++ parse (state s) cur (c :: l)).
Proof.
  intros I Hn. pose proof (iv_start _ _ _ _ I) as Hstart. pose proof (iv_space _ _ _ _ I) as Hspace. pose proof (iv_out _ _ _ _ I) as Hout.
  destruct s as [st ac start out li av]. unfold split_char, start_arg, set_state. cbn [state out_ptr next_arg_start argc line argv] in *.
  assert (Skip := fun st start => skip_follows ds cur c l _ st start I). assert (Emit := fun st start => emit_follows ds cur c c l _ st start I).
  assert (End_ := end_follows ds cur c l _ I). cbn [state out_ptr next_arg_start argc line argv] in *.
  destruct st; cbn [parse unescaped].
  - rewrite (Hspace eq_refl), app_nil_r in *. destruct (c =? SPACE); [by apply Skip|]. destruct (c =? QUOTE); [by apply Skip|].
    destruct (c =? ESCAPE); [by apply Skip|]. by apply Emit.
  - specialize (Hstart ltac:(done)). destruct (c =? SPACE); [by apply End_|]. destruct (c =? ESCAPE); [by apply Skip|by apply Emit].
  - specialize (Hstart ltac:(done)). destruct (c =? QUOTE); [by apply End_|]. destruct (c =? ESCAPE); [by apply Skip|by apply Emit].
  - specialize (Hstart ltac:(done)). destruct (_ || _); [by apply Emit|by apply Skip].
  - specialize (Hstart ltac:(done)). destruct (_ || _); [by apply Emit|by apply Skip].
Qed.

Definition limit : nat := Z.to_nat (argv_size - 1).
(** The arguments that are found when the rest of the line is read in state [st]. *)
Definition pending (st : split_state_t) (cur : list Z) : list (list Z) := if bool_decide (st = SS_SPACE) then [] else [cur].

Lemma limit_test n : (Z.of_nat n <? u32 (argv_size - 1)) = (n <? limit)%nat.
Proof. unfold limit. rewrite u32_small by lia. apply eq_true_iff_eq. rewrite Z.ltb_lt, Nat.ltb_lt. lia. Qed.

Lemma next_char ds cur c l s in_ptr : inv ds cur (c :: l) s -> (in_ptr + length (c :: l) = length text)%nat -> line s !! in_ptr = Some c.
Proof.
  intros [(junk & -> & Hlen) _ _ _ _ _] Hi.
  replace (pack ds ++ cur ++ junk ++ (c :: l) ++ 0 :: rest) with ((pack ds ++ cur ++ junk) ++ c :: l ++ 0 :: rest) by (by rewrite <- !app_assoc).
  apply list_lookup_middle. rewrite !length_app in *. cbn in *. lia.
Qed.

Lemma last_char ds cur s in_ptr : inv ds cur [] s -> in_ptr = length text -> line s !! in_ptr = Some 0.
Proof.
  intros [(junk & -> & Hlen) _ _ _ _ _] ->.
  replace (pack ds ++ cur ++ junk ++ [] ++ 0 :: rest) with ((pack ds ++ cur ++ junk) ++ 0 :: rest) by (by rewrite <- !app_assoc).
  apply list_lookup_middle. rewrite !length_app in *. cbn in *. lia.
Qed.

Lemma loop_follows l : forall fuel in_ptr ds cur s, inv ds cur l s -> Forall (fun c => c <> 0) l -> (length l < fuel)%nat ->
  (in_ptr + length l = length text)%nat -> (length ds < limit \/ (length ds = limit /\ state s = SS_SPACE))%nat ->
  exists s' ds' cur' l', split_loop argv_size fuel in_ptr s = Some s' /\ inv ds' cur' l' s' /\
    (length ds' <= limit)%nat /\ (length ds' = limit -> state s' = SS_SPACE)%nat /\
    ds' ++ pending (state s') cur' = take limit (ds ++ parse (state s) cur l).
Proof.
  induction l as [|c l IH]; intros [|fuel] in_ptr ds cur s I Hz Hf Hi Hd; try (cbn in Hf; lia).
  all: cbn [split_loop]; rewrite (iv_argc _ _ _ _ I), limit_test; destruct (Nat.ltb_spec (length ds) limit) as [Hlt|Hge].
  2, 4: destruct Hd as [|[Hd Hst]]; [lia|]; exists s, ds, cur; eexists; split_and!; [done|done|lia|done|];
    unfold pending; rewrite Hst, bool_decide_true, app_nil_r by done; by rewrite take_app_length'.
  - rewrite (last_char ds cur s in_ptr I) by (cbn in Hi; lia). exists s, ds, cur, []. split_and!; [done|done|lia|lia|].
    cbn [parse]. fold (pending (state s) cur). rewrite take_ge; [done|]. rewrite length_app. unfold pending. case_bool_decide; cbn; lia.
  - rewrite (next_char ds cur c l s in_ptr I Hi). inversion_clear Hz as [|? ? Hc Hz']. rewrite (proj2 (Z.eqb_neq c 0) Hc).
    destruct (step_follows ds cur c l s I) as (o & s0 & s1 & ds1 & cur1 & -> & Eo & I1 & -> & Hlen); [unfold limit in *; lia|]. rewrite Eo.
    apply IH; [done|done|cbn in Hf; lia|cbn in Hi; lia|]. destruct Hlen as [->|[-> Hs]]; [by left|]. destruct (Nat.eq_dec (S (length ds)) limit); [right; by split|left; lia].
Qed.

(** The terminating zero. *)
Lemma final_zero ds cur l s : inv ds cur l s ->
  exists s' B, put_char 0 s = Some s' /\ line s' = (pack ds ++ cur ++ 0 :: B) ++ rest /\ length (pack ds ++ cur ++ 0 :: B) = S (length text) /\
    state s' = state s /\ argc s' = argc s /\ next_arg_start s' = next_arg_start s /\ argv s' = argv s.
Proof.
  intros [(junk & El & Hlen) Ho _ _ _ _]. destruct (junk ++ l ++ [0]) as [|x B] eqn:E; [by destruct junk, l|].
  assert (E2 : line s = (pack ds ++ cur) ++ x :: B ++ rest).
  { rewrite El, <- app_assoc. do 2 f_equal. change (x :: B ++ rest) with ((x :: B) ++ rest). rewrite <- E, <- !app_assoc. done. }
  unfold put_char. rewrite E2, (store_middle _ _ 0) by done. eexists _, B. split; [done|]. cbn. split; [by rewrite <- !app_assoc|].
  split; [|done]. apply (f_equal length) in E. rewrite !length_app in *. cbn in *. lia.
Qed.

Lemma split_result : let args := take limit (arguments text) in
  exists line' B, esp_console_split_argv (text ++ 0 :: rest) argv0 argv_size =
      Some (Z.of_nat (length args), line', (Some <$> offsets 0 args) ++ None :: drop (S (length args)) argv0) /\
    line' = (pack args ++ B) ++ rest /\ length (pack args ++ B) = S (length text).
Proof.
  intros args. unfold esp_console_split_argv. set (s00 := mkSplit _ _ _ _ _ _).
  assert (I0 : inv [] [] text s00) by (split; cbn; try done; exists []; by split).
  destruct (loop_follows text (S (length (text ++ 0 :: rest))) 0 [] [] s00) as (s & ds & cur & l & -> & I & Hn & Hst & Eargs);
    [done|done|rewrite length_app; lia|done|cbn; destruct (Nat.eq_dec 0 limit); [by right|left; lia]|].
  change ([] ++ parse (state s00) [] text) with (arguments text) in Eargs. fold args in Eargs. clearbody args.
  destruct (final_zero ds cur l s I) as (s' & B & -> & El & Hlen & Es & Ec & En & Ev).
  rewrite (iv_argc _ _ _ _ I) in Ec. rewrite (iv_argv _ _ _ _ I) in Ev.
  rewrite Es, Ec, limit_test. unfold pending in Eargs. assert (Hsz : Z.of_nat limit = argv_size - 1) by (unfold limit; lia).
  destruct (bool_decide (state s = SS_SPACE)) eqn:Hsp; cbn [negb andb].
  - apply bool_decide_eq_true in Hsp. rewrite app_nil_r in Eargs. subst ds. rewrite (iv_space _ _ _ _ I Hsp) in El, Hlen.
    rewrite Ec, Ev, Nat2Z.id, vector_slot by lia. eexists _, (0 :: B). by split.
  - apply bool_decide_eq_false in Hsp. assert (Hlt : (length ds < limit)%nat) by (destruct (Nat.eq_dec (length ds) limit); [by destruct Hsp; apply Hst|lia]).
    rewrite (proj2 (Nat.ltb_lt _ _) Hlt), (push_ok ds cur s' _ Ec Ev) by (lia || (rewrite En; by apply I)). cbn [argc argv line].
    rewrite Nat2Z.id, vector_slot by (rewrite ?length_app; cbn; lia). subst args. eexists _, B. split; [done|].
    rewrite pack_snoc. rewrite <- !app_assoc in *. done.
Qed.
End Split.

(** ** The arguments found *)

Definition nonzero (l : list Z) : Prop := Forall (fun c => c <> 0) l.

Lemma until_nul_app a l : nonzero a -> until_nul (a ++ 0 :: l) = a.
Proof. induction 1 as [|c a Hc _ IH]; cbn; [done|]. by rewrite (proj2 (Z.eqb_neq c 0) Hc), IH. Qed.

Lemma parse_nonzero l : forall st cur, nonzero l -> nonzero cur -> Forall nonzero (parse st cur l).
Proof.
  unfold nonzero. induction l as [|c l IH]; intros st cur Hl Hc; cbn [parse]; [case_bool_decide; by repeat constructor|].
  inversion_clear Hl as [|? ? Hz Hl']. assert (Hcc : Forall (fun c => c <> 0) (cur ++ [c])) by (apply Forall_app_2; by repeat constructor).
  destruct st; repeat case_match; repeat (constructor; [done|]); apply IH; try done; by repeat constructor.
Qed.

(** The argument at an offset. *)
Lemma pack_offset ds : forall base k a, ds !! k = Some a ->
  exists p l, offsets base ds !! k = Some (base + p)%nat /\ drop p (pack ds) = a ++ 0 :: l.
Proof.
  induction ds as [|b ds IH]; intros base [|k] a; try done.
  - intros [= <-]. exists 0%nat. eexists. rewrite Nat.add_0_r. split; [done|]. cbn. by rewrite <- app_assoc.
  - intros Hk. destruct (IH (base + S (length b))%nat k a Hk) as (p & l & Ep & El). exists (S (length b) + p)%nat, l.
    change (offsets base (b :: ds) !! S k) with (offsets (base + S (length b)) ds !! k). rewrite Ep.
    split; [f_equal; lia|]. rewrite <- drop_drop. change (pack (b :: ds)) with ((b ++ [0]) ++ pack ds). rewrite drop_app_ge, length_app by (rewrite length_app; cbn; lia).
    replace (S (length b) - (length b + length [0%Z]))%nat with 0%nat by (cbn; lia). by rewrite drop_0.
Qed.

(** The call, for [split_argv_refines] and for [quote_roundtrip]. *)
Lemma split_argv_ok text rest argv0 argv_size : nonzero text -> 1 <= argv_size < 2 ^ 32 -> Z.of_nat (length argv0) = argv_size ->
  let args := take (Z.to_nat (argv_size - 1)) (arguments text) in
  exists line' argv', esp_console_split_argv (text ++ 0 :: rest) argv0 argv_size = Some (Z.of_nat (length args), line', argv') /\
    (forall k a, args !! k = Some a -> exists p, argv' !! k = Some (Some p) /\ c_string line' p = a /\ (p <= length text)%nat) /\
    argv' !! length args = Some None /\
    length argv' = length argv0 /\ drop (S (length args)) argv' = drop (S (length args)) argv0 /\
    length line' = length (text ++ 0 :: rest) /\ drop (S (length text)) line' = rest.
Proof.
  intros Hz Hr Hl args. destruct (split_result text rest argv0 argv_size Hz Hr Hl) as (line' & B & E & El & Hlen).
  change (take (limit argv_size) (arguments text)) with args in E, El, Hlen.
  assert (Ha : (length args < length argv0)%nat) by (unfold args; rewrite length_take; lia).
  assert (Hoff : forall l : list nat, length (Some <$> l) = length l) by (intros; apply length_fmap).
  eexists line', _. split; [exact E|]. split_and!.
  - intros k a Hk. destruct (pack_offset args 0 k a Hk) as (p & l & Ep & Epack). exists p.
    assert (Hp : (p < length (pack args))%nat).
    { apply (f_equal length) in Epack. rewrite length_drop, length_app in Epack. cbn in Epack. lia. }
    rewrite length_app in Hlen. split_and!; [| |lia].
    + rewrite lookup_app_l by (rewrite Hoff, offsets_length; by apply lookup_lt_Some in Hk). by rewrite list_lookup_fmap, Ep.
    + unfold c_string. rewrite El, <- app_assoc, drop_app_le, Epack, <- app_assoc by lia. apply until_nul_app.
      pose proof (parse_nonzero text SS_SPACE [] Hz (List.Forall_nil _)) as Hall. rewrite List.Forall_forall in Hall. apply Hall.
      apply list_elem_of_In, list_elem_of_lookup. exists k. unfold args in Hk. by apply lookup_take_Some in Hk as [Hk _].
  - apply list_lookup_middle. by rewrite Hoff, offsets_length.
  - rewrite length_app, Hoff, offsets_length. cbn. rewrite length_drop. lia.
  - rewrite drop_app_ge, Hoff, offsets_length by (rewrite Hoff, offsets_length; lia).
    replace (S (length args) - length args)%nat with 1%nat by lia. done.
  - rewrite El. rewrite (length_app (pack args ++ B) rest), Hlen, length_app. cbn. lia.
  - by rewrite El, drop_app_length'.
Qed.

(** ** The grammar *)

(** The state in which the characters of an argument that ends with [stop] are read. *)
Definition arg_state (stop : Z) : split_state_t := if stop =? QUOTE then SS_QUOTED_ARG else SS_ARG.
Definition is_stop (stop : Z) : Prop := stop = QUOTE \/ stop = SPACE.

Lemma parse_arg_step stop cur c l : is_stop stop -> parse (arg_state stop) cur (c :: l) =
  if c =? stop then cur :: parse SS_SPACE [] l
  else if c =? ESCAPE then match l with [] => [cur] | d :: l => parse (arg_state stop) (if escapable d then cur ++ [d] else cur) l end
  else parse (arg_state stop) (cur ++ [c]) l.
Proof. intros [->| ->]; cbn; destruct l; done. Qed.

Lemma parse_word c l : c <> SPACE -> c <> QUOTE -> parse SS_SPACE [] (c :: l) = parse SS_ARG [] (c :: l).
Proof. intros H1 H2. cbn. by rewrite (proj2 (Z.eqb_neq _ _) H1), (proj2 (Z.eqb_neq _ _) H2). Qed.

Lemma parse_chars stop r a : is_stop stop -> chars stop r a -> forall cur l,
  parse (arg_state stop) cur (r ++ l) = parse (arg_state stop) (cur ++ a) l.
Proof.
  intros Hs Hr. assert (Ne : (ESCAPE =? stop) = false) by (by destruct Hs as [->| ->]).
  induction Hr as [|c r a H1 H2 _ IH|c r a Hc _ IH|c r a Hc _ IH]; intros cur l; cbn [app]; [by rewrite app_nil_r|..];
    rewrite parse_arg_step by done.
  - by rewrite (proj2 (Z.eqb_neq _ _) H1), (proj2 (Z.eqb_neq _ _) H2), IH, <- app_assoc.
  - rewrite Ne, Hc, Z.eqb_refl. by rewrite IH, <- app_assoc.
  - by rewrite Ne, Hc, Z.eqb_refl, IH.
Qed.

Lemma parse_last stop r a cur : is_stop stop -> last_chars stop r a -> parse (arg_state stop) cur r = [cur ++ a].
Proof.
  intros Hs [Hr|(r' & -> & Hr)].
  - rewrite <- (app_nil_r r), (parse_chars stop r a Hs Hr). by destruct Hs as [->| ->].
  - rewrite (parse_chars stop r' a Hs Hr), parse_arg_step by done. by destruct Hs as [->| ->].
Qed.

(** An argument ends with its stop character or with the line. *)
Lemma parse_arg_ends stop n : is_stop stop -> forall l cur, (length l <= n)%nat ->
  (exists a, last_chars stop l a /\ parse (arg_state stop) cur l = [cur ++ a]) \/
  (exists r a l', l = r ++ stop :: l' /\ chars stop r a /\ parse (arg_state stop) cur l = (cur ++ a) :: parse SS_SPACE [] l').
Proof.
  intros Hs. induction n as [|n IH]; intros l cur Hn; destruct l as [|c l]; try (cbn in Hn; lia);
    try (left; exists []; split; [left; constructor|rewrite app_nil_r; by destruct Hs as [->| ->]]).
  cbn in Hn. rewrite parse_arg_step by done. destruct (Z.eqb_spec c stop) as [->|H1].
  { right. exists [], [], l. split_and!; [done|constructor|by rewrite app_nil_r]. }
  destruct (Z.eqb_spec c ESCAPE) as [->|H2].
  - destruct l as [|d l]; [left; exists []; split; [right; exists []; split; [done|constructor]|by rewrite app_nil_r]|]. cbn in Hn.
    assert (Go : forall r a, chars stop r a -> chars stop (ESCAPE :: d :: r) ((if escapable d then [d] else []) ++ a)).
    { intros r a Hr. destruct (escapable d) eqn:E; [by apply ch_escape|by apply ch_unknown]. }
    set (x := if escapable d then [d] else []) in *. replace (if escapable d then cur ++ [d] else cur) with (cur ++ x) by (unfold x; destruct (escapable d); [done|apply app_nil_r]).
    destruct (IH l (cur ++ x) ltac:(lia)) as [(a & Hl & E)|(r & a & l' & -> & Hr & E)].
    + left. exists (x ++ a). rewrite app_assoc. split; [|done]. destruct Hl as [Hl|(r' & -> & Hl)]; [left; by apply Go|].
      right. exists (ESCAPE :: d :: r'). split; [done|by apply Go].
    + right. exists (ESCAPE :: d :: r), (x ++ a), l'. rewrite app_assoc. split_and!; [done|by apply Go|done].
  - destruct (IH l (cur ++ [c]) ltac:(lia)) as [(a & Hl & E)|(r & a & l' & -> & Hr & E)]; rewrite E, <- app_assoc.
    + left. exists (c :: a). split; [|done]. destruct Hl as [Hl|(r' & -> & Hl)]; [left; by apply ch_plain|].
      right. exists (c :: r'). split; [done|by apply ch_plain].
    + right. exists (c :: r), (c :: a), l'. split_and!; [done|by apply ch_plain|done].
Qed.

(** The grammar gives every line its arguments, and no others. *)
Lemma command_line_arguments l args : command_line l args <-> args = arguments l.
Proof.
  split.
  - unfold arguments. induction 1 as [|l args _ IH|c r a l args H1 Hr _ IH|r a l args Hr _ IH|c r a H1 H2 Hr|r a Hr].
    + done.
    + done.
    + assert (c <> SPACE) by (inversion Hr; subst; done). rewrite parse_word by done.
      pose proof (parse_chars SPACE (c :: r) a ltac:(by right) Hr [] (SPACE :: l)) as E. cbn [app] in E. change (arg_state SPACE) with SS_ARG in E.
      rewrite E. cbn. by rewrite IH.
    + change (parse SS_SPACE [] (QUOTE :: r ++ QUOTE :: l)) with (parse (arg_state QUOTE) [] (r ++ QUOTE :: l)).
      rewrite (parse_chars QUOTE r a) by (done || by left). cbn. by rewrite IH.
    + rewrite parse_word by done. symmetry. apply (parse_last SPACE (c :: r) a []); [by right|done].
    + symmetry. apply (parse_last QUOTE r a []); [by left|done].
  - intros ->. assert (G : forall n l, (length l <= n)%nat -> command_line l (arguments l)); [|by apply (G (length l))].
    clear l. induction n as [|n IH]; intros [|c l] Hn; try apply cl_nil; cbn in Hn; [lia|]. unfold arguments.
    destruct (Z.eqb_spec c SPACE) as [->|H1]; [apply cl_space; change (parse SS_SPACE [] (SPACE :: l)) with (arguments l); apply IH; lia|]. destruct (Z.eqb_spec c QUOTE) as [->|H2].
    + change (parse SS_SPACE [] (QUOTE :: l)) with (parse (arg_state QUOTE) [] l).
      destruct (parse_arg_ends QUOTE (length l) ltac:(by left) l [] ltac:(lia)) as [(a & Hl & ->)|(r & a & l' & -> & Hr & ->)]; [by apply cl_last_quoted|].
      apply cl_quoted; [done|]. apply IH. rewrite length_app in Hn. cbn in Hn. lia.
    + rewrite parse_word by done.
      destruct (parse_arg_ends SPACE (length (c :: l)) ltac:(by right) (c :: l) [] ltac:(lia)) as [(a & Hl & E)|(r & a & l' & El & Hr & E)];
        change (arg_state SPACE) with SS_ARG in E; rewrite E; [by apply cl_last_word|].
      destruct r as [|d r]; [injection El; done|]. injection El as <- ->. cbn [app]. apply cl_word; [done|done|].
      apply IH. rewrite length_app in Hn. cbn in Hn. lia.
Qed.

(** C39: Every line has exactly one sequence of arguments in the grammar of
    command lines: words and quoted strings with backslash escapes, separated
    by the space character (the documentation says whitespace, see the
    findings). For an argv of argv_size entries, 1 <= argv_size < 2^32,
    splitting the line in place stores exactly the first argv_size - 1 of
    these arguments as zero-terminated strings inside the line, with their
    pointers in order and NULL after them; no byte after the line and no entry
    after the NULL is changed, and no buffer is exceeded. (With argv_size 0
    the vector is exceeded, see the findings.) *)
Theorem split_argv_refines text rest argv0 argv_size : nonzero text -> 1 <= argv_size < 2 ^ 32 -> Z.of_nat (length argv0) = argv_size ->
  exists all, command_line text all /\ (forall all', command_line text all' -> all' = all) /\
  let args := take (Z.to_nat (argv_size - 1)) all in
  exists line' argv', esp_console_split_argv (text ++ 0 :: rest) argv0 argv_size = Some (Z.of_nat (length args), line', argv') /\
    (forall k a, args !! k = Some a -> exists p, argv' !! k = Some (Some p) /\ c_string line' p = a /\ (p <= length text)%nat) /\
    argv' !! length args = Some None /\
    length argv' = length argv0 /\ drop (S (length args)) argv' = drop (S (length args)) argv0 /\
    length line' = length (text ++ 0 :: rest) /\ drop (S (length text)) line' = rest.
Proof.
  intros Hz Hr Hl. exists (arguments text). split; [by apply command_line_arguments|]. split; [intros all'; apply command_line_arguments|].
  by apply split_argv_ok.
Qed.

(** ** Quoting *)

Definition escape (c : Z) : list Z := if (c =? ESCAPE) || (c =? QUOTE) then [ESCAPE; c] else [c].
Definition quote (a : list Z) : list Z := QUOTE :: (a ≫= escape) ++ [QUOTE].
(** A command line with the given arguments. *)
Fixpoint command (args : list (list Z)) : list Z :=
  match args with
  | [] => []
  | a :: args => quote a ++ SPACE :: command args
  end.

Lemma parse_quoted a : forall cur l, parse SS_QUOTED_ARG cur ((a ≫= escape) ++ QUOTE :: l) = (cur ++ a) :: parse SS_SPACE [] l.
Proof.
  induction a as [|c a IH]; intros cur l; [by rewrite app_nil_r|]. rewrite bind_cons, <- app_assoc. unfold escape at 1.
  destruct (_ || _) eqn:E; cbn.
  - apply orb_true_iff in E as [->%Z.eqb_eq| ->%Z.eqb_eq]; cbn; rewrite IH, <- app_assoc; done.
  - apply orb_false_iff in E as [E1 E2]. rewrite E1, E2, IH, <- app_assoc. done.
Qed.

Lemma arguments_command args : arguments (command args) = args.
Proof.
  unfold arguments. induction args as [|a args IH]; [done|]. cbn [command quote]. unfold quote. cbn. rewrite <- app_assoc.
  change ([QUOTE] ++ SPACE :: command args) with (QUOTE :: SPACE :: command args). rewrite parse_quoted. cbn. by rewrite IH.
Qed.

Lemma command_nonzero args : Forall nonzero args -> nonzero (command args).
Proof.
  unfold nonzero. induction 1 as [|a args Ha _ IH]; [constructor|]. cbn [command]. unfold quote. cbn. constructor; [done|].
  rewrite <- app_assoc. apply Forall_app_2; [|by repeat constructor]. clear -Ha. induction Ha as [|c a Hc _ IH]; [constructor|].
  rewrite bind_cons. apply Forall_app_2; [|done]. unfold escape. destruct (_ || _); by repeat constructor.
Qed.

(** When every argument is written between quotes with backslashes before
    quotes and backslashes, splitting the line gives back the same arguments,
    whatever nonzero bytes they contain. *)
Theorem quote_roundtrip args rest argv0 : Forall nonzero args -> (length args < length argv0)%nat -> Z.of_nat (length argv0) < 2 ^ 32 ->
  exists line' argv', esp_console_split_argv (command args ++ 0 :: rest) argv0 (Z.of_nat (length argv0)) =
      Some (Z.of_nat (length args), line', argv') /\
    argv' !! length args = Some None /\
    forall k a, args !! k = Some a -> exists p, argv' !! k = Some (Some p) /\ c_string line' p = a.
Proof.
  intros Hz Hn Hl. pose proof (split_argv_ok (command args) rest argv0 (Z.of_nat (length argv0)) (command_nonzero args Hz) ltac:(lia) eq_refl) as H. cbn zeta in H.
  rewrite arguments_command, take_ge in H by lia. destruct H as (line' & argv' & E & Hk & Hnull & _). exists line', argv'.
  split_and!; [done..|]. intros k a Ha. destruct (Hk k a Ha) as (p & H1 & H2 & _). by exists p.
Qed.

(** ** Examples *)

(** The word abc, the quoted argument 123 456 and a word with an escaped
    space, with room for two arguments. *)
Definition ex_line : list Z := [97; 98; 99; 32; 34; 49; 50; 51; 32; 52; 53; 54; 34; 32; 100; 92; 32; 101].

Lemma split_argv_refines_witness : exists line' argv',
  esp_console_split_argv (ex_line ++ [0; 7]) [None; None; None] 3 = Some (2, line', argv') /\
  (exists p, argv' !! 1%nat = Some (Some p) /\ c_string line' p = [49; 50; 51; 32; 52; 53; 54]) /\ drop 19 line' = [7].
Proof.
  destruct (split_argv_refines ex_line [7] [None; None; None] 3) as (all & _ & U & line' & argv' & E & Hk & _ & _ & _ & _ & Hr);
    [repeat constructor; lia|lia|reflexivity|].
  specialize (U (arguments ex_line) ltac:(by apply command_line_arguments)). subst all.
  exists line', argv'. split; [exact E|]. split; [|exact Hr].
  destruct (Hk 1%nat [49; 50; 51; 32; 52; 53; 54]) as (p & H1 & H2 & _); [reflexivity|]. exists p. split; [exact H1|exact H2].
Defined.

(** An argument with a space, a quote and a backslash, and the empty one. *)
Lemma quote_roundtrip_witness : exists line' argv',
  esp_console_split_argv (command [[97; 32; 98]; [34; 92]; []] ++ [0]) [None; None; None; None] 4 = Some (3, line', argv') /\
  exists p, argv' !! 1%nat = Some (Some p) /\ c_string line' p = [34; 92].
Proof.
  destruct (quote_roundtrip [[97; 32; 98]; [34; 92]; []] [] [None; None; None; None]) as (line' & argv' & E & _ & Hk);
    [repeat constructor; lia|cbn; lia|cbn; lia|].
  exists line', argv'. split; [exact E|]. exact (Hk 1%nat [34; 92] eq_refl).
Defined.

(** The example with three escapes in the comment of the header is one argument. *)
Example header_example : arguments [97; 92; 32; 98; 92; 92; 99; 92; 34] = [[97; 32; 98; 92; 99; 34]].
Proof. reflexivity. Qed.

(** A tab does not separate arguments. *)
Fact tab_is_no_separator : arguments [97; 9; 98] = [[97; 9; 98]].
Proof. reflexivity. Qed.

(** With [argv_size] 0 the test [argc < argv_size - 1] is true for every
    number of arguments, and the vector is written outside its bounds. *)
Fact argv_size_zero : esp_console_split_argv [97; 32; 0] [] 0 = None /\ (forall n, 0 <= n < 2 ^ 32 - 1 -> (n <? u32 (0 - 1)) = true).
Proof. split; [reflexivity|]. intros n Hn. apply Z.ltb_lt. change (u32 (0 - 1)) with (2 ^ 32 - 1). lia. Qed.
